(* ===== verification/_CoqProject ===== *)
-Q . S2P
Prelude.v
Pmm.v
Task.v
Ring.v
Scheduler.v
SchedInv.v
TaskProps.v
WaitQueue.v
Mutex.v
Sha256.v
Sha512.v
Aes.v
Hmac.v
Csprng.v
P256.v
P256Prime.v
Ecdsa.v
NetHdr.v
Firewall.v
FirewallProps.v
Checksum.v
Link.v
LinkProps.v
Tcp.v
TcpInv.v
TcpCalls.v
TcpProps.v
Clock.v
CString.v
Dns.v
DnsProps.v
Icmp.v
Dhcp.v
DhcpProps.v
Ids.v
Net.v
NetProps.v
Ramfs.v
RamfsInv.v
RamfsOps.v
RamfsFs.v
RamfsData.v
RamfsFiles.v
RamfsView.v
RamfsCalls.v
RamfsProps.v
