(* ===== verification/Prelude.v ===== *)
(** TinyOS Enhanced: a verification development.

    * The program

    TinyOS Enhanced is a 32-bit i386 kernel in C (src/src/).  It boots from
    Multiboot2, manages physical frames in a bitmap, runs tasks from a circular
    ready queue under a preemptive timer, and has wait queues and mutexes, its
    own cryptography, a file system in memory, and a network stack of its own:
    Ethernet and ARP, IPv4 behind a stateful packet filter and a signature
    matcher, ICMP, UDP with DNS and DHCP clients, and TCP.  The development models these parts, each in the
    form the code has, and proves what makes each of them correct.

    * How code is modelled

    A machine integer is a [Z] with the wrap-around of its width written out
    ([u8], [u16], [u32], [u64], [+32], [-32], [*32]).  An operation that reads or
    writes state is a function of the monad [M St A := St -> result (A * St)] of
    this file, over a record with one field for every variable of the file it
    translates; its faults are an access outside of an array, a null pointer, a
    panic and a loop that does not end.  [wp m Q s] says that [m] started in [s]
    ends without a fault in a state with [Q], so every theorem of that form is
    one of total correctness.  A theorem is proved by the lemmas [.._ok] of the
    operations below it, which are rules for [wp] in continuation style.
    Buffers are lists of bytes and reading behind their end is a fault.

    Time, random bytes, the current task, the privilege level and the like are
    arguments of the operations that read them.  A critical section
    (cli ... sti) or a mutex held from beginning to end makes an operation one
    step, and sequences of operations are the interleavings.  [ramfs_open] gives
    up its mutex half-way, so its halves are steps of their own; the operations
    on open files take no lock in the code and are modelled as one step.  Console output, the audit trail and statistics nobody
    reads back are left out.

    * The files

    - [Prelude]: machine integers, arrays, the monad, its rules, loops.
    - [Pmm] (pmm.c): the frame bitmap and its counter; allocation, runs of
      frames, release, reservation, and the set-up from the memory map.
    - [Task], [TaskProps] (process.h, process.c): the task table, slots, process
      identifiers, generations, file descriptors, creation limits.
    - [Ring], [Scheduler], [SchedInv] (scheduler.c): the ready queue as a ring of
      links in the task table, dispatch, sleeping, blocking, the queue of
      finished tasks; the invariant of the timer interrupt.
    - [WaitQueue] (wait_queue.c) and [Mutex] (mutex.c), on top of the scheduler.
    - [Sha256], [Sha512], [Aes], [Hmac], [Csprng] (sha256.c, sha512.c, crypto.c),
      [P256], [P256Prime], [Ecdsa] (ecdsa.c): hashes, the block cipher in counter
      mode, message authentication and key derivation, the generator of random
      numbers, field and curve arithmetic, signatures.  The constants are those
      of the source.
    - [NetHdr] (net.h): byte order, fields of headers.  [Checksum] (net.c,
      icmp.c): the Internet checksum.
    - [Firewall], [FirewallProps] (firewall.c): rules, connections, rate limits,
      detectors and the verdict on a packet.
    - [Link], [LinkProps] (net.c): ARP cache, pending requests, routing, frames.
    - [Tcp], [TcpInv], [TcpCalls], [TcpProps] (tcp.c): control blocks, the state
      machine, the socket calls, timers.
    - [Clock] (time.c): the calendar.  [CString] (util.c): strings and blocks.
    - [Dns], [DnsProps] (dns.c); [Icmp] (icmp.c); [Dhcp], [DhcpProps] (dhcp.c);
      [Ids] (ids.c).
    - [Net], [NetProps] (net.c): the receive path over one state with all of the
      above, from a frame to the protocols.
    - [Ramfs] (ramfs.c): nodes and pages in frames of [Pmm], linked by addresses;
      paths, permissions, descriptors, and every operation.  [RamfsInv]: the
      lists of siblings and the tree they form.  [RamfsOps]: what lookups find.
      [RamfsFs]: the invariant, creating and removing.  [RamfsData], [RamfsFiles]:
      pages, contents and the operations on open files.  [RamfsView]: the file
      system as a map from paths to entries.  [RamfsCalls]: the operations on
      paths.  [RamfsProps]: histories and the theorems.

    * What the theorems show

    Memory: allocation returns the lowest free frame or run and marks exactly it;
    release undoes only what was allocated; the counter is the number of free
    frames; the set-up frees only usable memory (pmm_..._spec).  Scheduling: the
    queue operations refine a list, a timer interrupt keeps the invariant and
    wakes whom it should, and a task that stays ready runs within one round
    (round_robin); identifiers are fresh, mutexes exclusive and wake-ups in
    order.  Cryptography: the incremental hashes equal the standard's function of
    the whole message, HMAC and PBKDF2 the definitions of their RFCs, counter
    mode inverts itself, verification accepts exactly what the equation accepts.
    Network: every parser ends without a fault on any bytes; the filter's verdict
    is the specified one; the ARP cache learns only what was asked for; a DNS
    answer, a DHCP lease and a TCP segment change state only under the stated
    conditions; the bytes read from a connection are a prefix of the peer's
    stream; and [net_handle_packet_spec] puts the components together: it states,
    for any frame, exactly when its packet reaches which protocol and that it
    then does what that protocol's specification says.  Files: from boot on no
    sequence of operations follows a pointer to memory that was given back
    (ramfs_history_safe); creating, removing, renaming and writing change the map
    from paths to entries as they should and only for a caller with the
    permissions (ramfs_mkdir_spec and the like), and what is written is read
    back.  Theorems that show a flaw
    carry its name (remove_rotated_head_drops, aes_decrypt_not_inverse,
    net_udp_zero_checksum, ramfs_open_race).

    * Bounds and fuel

    Loops over arrays are structural in the number of iterations of the source.
    The loops over packets (DNS names and records, DHCP options, TCP options)
    carry the iteration limits of the code or a fuel of the length of the buffer
    plus one, which their theorems show to be enough, since running out of fuel
    is the fault NoTermination that the total-correctness triples exclude.  The
    walk along siblings that the code does not bound has the number of nodes plus
    one as its fuel, enough because the siblings are distinct nodes.

    * Not modelled

    Device drivers, port and table instructions (e1000, ide, pci, pic, pit, vga,
    serial, keyboard, gdt, idt, tss, the assembly files), since their effects are
    on hardware; page tables (paging.c, pae.c), whose meaning is the memory
    management unit's (mapping a frame is a parameter of [Ramfs]); the system call
    layer, the loader of executables, the FAT32 and virtual file systems, users
    and the endpoint detection, which call the parts above and each other through
    pointers, disks and user memory; the
    shell, the editor and the console, which are interactive text; tests, fuzz
    targets and the generated images of user programs.  Interrupts are modelled
    at the boundaries of critical sections only. *)
From Stdlib Require Import ZArith Lia List Bool String.
From stdpp Require Import base tactics numbers list gmap.
Open Scope Z_scope.

(** * Machine integers *)

Declare Scope c_scope.
Delimit Scope c_scope with c.

(** [uN z] is the value an unsigned N-bit C object holds after [z] is
    converted to it (C11 6.3.1.3p2). *)
Definition u8 (z : Z) : Z := z mod 2 ^ 8.
Definition u16 (z : Z) : Z := z mod 2 ^ 16.
Definition u32 (z : Z) : Z := z mod 2 ^ 32.
Definition u64 (z : Z) : Z := z mod 2 ^ 64.

Notation "x +32 y" := (u32 (x + y)) (at level 50, left associativity) : c_scope.
Notation "x -32 y" := (u32 (x - y)) (at level 50, left associativity) : c_scope.
Notation "x *32 y" := (u32 (x * y)) (at level 40, left associativity) : c_scope.
(** [~x] on a [uint32_t]. *)
Definition not32 (x : Z) : Z := u32 (Z.lnot x).
Open Scope c_scope.

Create HintDb cint.

(** Arithmetic side conditions on wrapped values: expose every [mod] and
    [/] by a literal to [lia]. *)
Ltac u_lia :=
  unfold u8, u16, u32, u64 in *;
  repeat match goal with
  | |- context [2 ^ ?k] => let v := eval vm_compute in (2 ^ k) in
                           progress change (2 ^ k) with v
  | H : context [2 ^ ?k] |- _ => let v := eval vm_compute in (2 ^ k) in
                           progress change (2 ^ k) with v in H
  end;
  Z.to_euclidean_division_equations; lia.

Section UintFacts.
Implicit Types z : Z.

Lemma u8_range z : 0 <= u8 z < 256.
Proof. u_lia. Qed.
Lemma u16_range z : 0 <= u16 z < 65536.
Proof. u_lia. Qed.
Lemma u32_range z : 0 <= u32 z < 4294967296.
Proof. u_lia. Qed.
Lemma u64_range z : 0 <= u64 z < 18446744073709551616.
Proof. u_lia. Qed.

Lemma u8_small z : 0 <= z < 256 -> u8 z = z.
Proof. u_lia. Qed.
Lemma u16_small z : 0 <= z < 65536 -> u16 z = z.
Proof. u_lia. Qed.
Lemma u32_small z : 0 <= z < 4294967296 -> u32 z = z.
Proof. u_lia. Qed.
Lemma u64_small z : 0 <= z < 18446744073709551616 -> u64 z = z.
Proof. u_lia. Qed.

Lemma u8_testbit z n : 0 <= n < 8 -> Z.testbit (u8 z) n = Z.testbit z n.
Proof. intros. apply Z.mod_pow2_bits_low. lia. Qed.
Lemma u32_testbit z n : 0 <= n < 32 -> Z.testbit (u32 z) n = Z.testbit z n.
Proof. intros. apply Z.mod_pow2_bits_low. lia. Qed.
Lemma not32_testbit z n : 0 <= n < 32 -> Z.testbit (not32 z) n = negb (Z.testbit z n).
Proof. intros. unfold not32. rewrite u32_testbit by lia. apply Z.lnot_spec. lia. Qed.
Lemma pow2_testbit k n : 0 <= k -> 0 <= n -> Z.testbit (Z.shiftl 1 k) n = (n =? k).
Proof.
  intros. rewrite Z.shiftl_1_l. destruct (Z.eqb_spec n k) as [->|Hne].
  - apply Z.pow2_bits_true. lia.
  - apply Z.pow2_bits_false. lia.
Qed.

(** [a & ~(2^k - 1)]: rounding down to a multiple of [2^k]. *)
Lemma land_not32_ones a k :
  0 <= a < 4294967296 -> 0 <= k <= 32 -> Z.land a (not32 (Z.ones k)) = a / 2 ^ k * 2 ^ k.
Proof.
  intros Ha Hk. apply Z.bits_inj'. intros n Hn. rewrite Z.land_spec.
  rewrite <- Z.shiftl_mul_pow2, <- Z.shiftr_div_pow2, Z.shiftl_spec by lia.
  unfold not32, u32. rewrite Z.testbit_mod_pow2, Z.lnot_spec, Z.testbit_ones by lia.
  destruct (Z.leb_spec 0 n); [|lia]. simpl. destruct (Z.ltb_spec n k); simpl.
  - rewrite (Z.testbit_neg_r _ (n - k)) by lia. by rewrite !andb_false_r.
  - rewrite Z.shiftr_spec by lia. replace (n - k + k) with n by lia.
    rewrite andb_true_r. destruct (Z.ltb_spec n 32); [by rewrite andb_true_r|].
    rewrite Z.bits_above_log2; [done|lia|].
    destruct (Z.eq_dec a 0) as [->|]; [simpl; lia|].
    apply Z.log2_lt_pow2; [lia|].
    apply Z.lt_le_trans with (2 ^ 32); [lia|]. apply Z.pow_le_mono_r; lia.
Qed.

(** [|] of numbers without common bits. *)
Lemma lor_add a b k : 0 <= k -> 0 <= b < 2 ^ k -> Z.lor (a * 2 ^ k) b = a * 2 ^ k + b.
Proof.
  intros Hk Hb. assert (Z.land (a * 2 ^ k) b = 0) as H0; [|by rewrite Z.add_nocarry_lxor, Z.lxor_lor].
  rewrite <- (Z.mod_small b (2 ^ k)), <- Z.land_ones by lia.
  rewrite Z.land_assoc, (Z.land_comm _ b), <- Z.land_assoc, Z.land_ones, Z.mod_mul by lia.
  apply Z.land_0_r.
Qed.
End UintFacts.

(** * Executions: state, early return, faults

    Stateful code is a function from a state to a result.  What the C text
    leaves to the machine (an access outside an array, a null dereference),
    a call of [kernel_panic] and a loop that does not come to an end are
    results of their own, so that a theorem about [Ok] says none happened. *)

Inductive fault :=
| OutOfBounds
| NullDeref
| KernelPanic (why : string)
| NoTermination.

Inductive result (A : Type) :=
| Ok (a : A)
| Err (f : fault).
Arguments Ok {A} a.
Arguments Err {A} f.

Definition M (St A : Type) : Type := St -> result (A * St).

Section Monad.
Context {St : Type}.

Definition ret {A} (a : A) : M St A := fun s => Ok (a, s).
Definition fail {A} (f : fault) : M St A := fun _ => Err f.
Definition bind {A B} (m : M St A) (k : A -> M St B) : M St B :=
  fun s => match m s with
           | Ok (a, s') => k a s'
           | Err f => Err f
           end.
Definition gets {A} (f : St -> A) : M St A := fun s => Ok (f s, s).
Definition modify (f : St -> St) : M St unit := fun s => Ok (tt, f s).
Definition lift {A} (r : result A) : M St A :=
  fun s => match r with Ok a => Ok (a, s) | Err f => Err f end.
End Monad.

(** An operation of a component, whose state is a part of a larger one. *)
Definition zoom {S T A} (get : S -> T) (put : T -> S -> S) (m : M T A) : M S A := fun s =>
  match m (get s) with Ok (a, t) => Ok (a, put t s) | Err f => Err f end.

Notation "x <- m ;; k" := (bind m (fun x => k))
  (at level 100, m at next level, right associativity) : c_scope.
Notation "m ;;; k" := (bind m (fun _ : unit => k))
  (at level 100, right associativity) : c_scope.

(** [a\[i\]] and [a\[i\] = x] on a C array with elements [a]. *)
Definition aget {A} (a : list A) (i : Z) : result A :=
  if i <? 0 then Err OutOfBounds
  else match a !! Z.to_nat i with Some x => Ok x | None => Err OutOfBounds end.
Definition aset {A} (a : list A) (i : Z) (x : A) : result (list A) :=
  if (i <? 0) || (Z.of_nat (length a) <=? i) then Err OutOfBounds
  else Ok (<[Z.to_nat i := x]> a).

(** [for (i = lo; i < lo + n; i++) body(i)], where the body may return from
    the enclosing function ([Some]) or go on ([None]). *)
Fixpoint for_ret {St R} (n : nat) (lo : Z) (body : Z -> M St (option R))
  : M St (option R) :=
  match n with
  | O => ret None
  | S n' => r <- body lo ;;
            match r with
            | Some v => ret (Some v)
            | None => for_ret n' (lo + 1) body
            end
  end.

Fixpoint for_each {St} (n : nat) (lo : Z) (body : Z -> M St unit) : M St unit :=
  match n with
  | O => ret tt
  | S n' => body lo ;;; for_each n' (lo + 1) body
  end.

(** Number of iterations of [for (i = lo; i < hi; i++)]. *)
Definition iters (lo hi : Z) : nat := Z.to_nat (hi - lo).

(** [for (i = 0; i < n; i++) if (p(a\[i\])) return i], on an array of the
    state. *)
Definition scan {St A} (a : St -> list A) (n : Z) (p : A -> bool) : M St (option Z) :=
  for_ret (iters 0 n) 0 (fun i =>
    l <- gets a ;; x <- lift (aget l i) ;; ret (if p x then Some i else None)).

(** ** Total-correctness triples

    [wp m Q s]: from [s], [m] comes to an end without a fault, in a value and
    a state that satisfy [Q]. *)
Definition wp {St A} (m : M St A) (Q : A -> St -> Prop) (s : St) : Prop :=
  match m s with
  | Ok (a, s') => Q a s'
  | Err _ => False
  end.

Section Wp.
Context {St : Type}.

Lemma wp_ok {A} (m : M St A) Q s a s' : m s = Ok (a, s') -> Q a s' -> wp m Q s.
Proof. unfold wp. by intros ->. Qed.

Lemma wp_elim {A} (m : M St A) Q s :
  wp m Q s -> exists a s', m s = Ok (a, s') /\ Q a s'.
Proof. unfold wp. destruct (m s) as [[a s']|]; eauto; done. Qed.

Lemma wp_result {A} (m : M St A) (Q : A -> St -> Prop) s a s' :
  wp m Q s -> m s = Ok (a, s') -> Q a s'.
Proof. unfold wp. by intros H E; rewrite E in H. Qed.

(** The value of a computation on a state that is thrown away. *)
Lemma wp_value {A} (m : M St A) x s :
  wp m (fun a _ => a = x) s -> match m s with Ok (a, _) => Ok a | Err f => Err f end = Ok x.
Proof. by intros (a & s' & -> & ->)%wp_elim. Qed.

Lemma wp_elim_unit (m : M St unit) Q s :
  wp m Q s -> exists s', m s = Ok (tt, s') /\ Q tt s'.
Proof. intros ([] & s' & H)%wp_elim. eauto. Qed.

Lemma wp_exists (m : M St unit) (P : St -> Prop) s :
  wp m (fun _ => P) s -> exists s', m s = Ok (tt, s') /\ P s'.
Proof. apply wp_elim_unit. Qed.

Lemma wp_bind_inv {A B} (m : M St A) (f : A -> M St B) (Q : B -> St -> Prop) s :
  wp (bind m f) Q s -> wp m (fun a s' => wp (f a) Q s') s.
Proof. unfold wp, bind. by destruct (m s) as [[a s']|]. Qed.

Lemma wp_eq {A} (m m' : M St A) (Q : A -> St -> Prop) s : m s = m' s -> wp m' Q s -> wp m Q s.
Proof. unfold wp. by intros ->. Qed.

Lemma wp_mono {A} (m : M St A) (P Q : A -> St -> Prop) s :
  wp m P s -> (forall a s', P a s' -> Q a s') -> wp m Q s.
Proof. unfold wp. destruct (m s) as [[a s']|]; eauto. Qed.

Lemma wp_ret {A} (a : A) Q (s : St) : Q a s -> wp (ret a) Q s.
Proof. done. Qed.

Lemma wp_bind {A B} (m : M St A) (k : A -> M St B) Q s :
  wp m (fun a => wp (k a) Q) s -> wp (bind m k) Q s.
Proof. unfold wp, bind. by destruct (m s) as [[a s']|]. Qed.

Lemma wp_gets {A} (f : St -> A) Q s : Q (f s) s -> wp (gets f) Q s.
Proof. done. Qed.

Lemma wp_modify (f : St -> St) Q s : Q tt (f s) -> wp (modify f) Q s.
Proof. done. Qed.

Lemma wp_lift {A} (r : result A) (a : A) Q (s : St) :
  r = Ok a -> Q a s -> wp (lift r) Q s.
Proof. by intros ->. Qed.

Lemma wp_zoom {S A} (get : S -> St) (put : St -> S -> S) (m : M St A) (Q : A -> S -> Prop) (s : S) :
  wp m (fun a t => Q a (put t s)) (get s) -> wp (zoom get put m) Q s.
Proof. unfold wp, zoom. by destruct (m (get s)) as [[a t]|]. Qed.

Lemma wp_for_ret {R} (I : Z -> St -> Prop) (Q : option R -> St -> Prop)
    n lo (body : Z -> M St (option R)) s :
  I lo s ->
  (forall i s', lo <= i < lo + Z.of_nat n -> I i s' ->
     wp (body i) (fun r s'' => match r with
                               | Some v => Q (Some v) s''
                               | None => I (i + 1) s''
                               end) s') ->
  (forall s', I (lo + Z.of_nat n) s' -> Q None s') ->
  wp (for_ret n lo body) Q s.
Proof.
  revert lo s. induction n as [|n IH]; intros lo s HI Hbody Hend; simpl.
  - apply wp_ret, Hend. by replace (lo + Z.of_nat 0) with lo by lia.
  - apply wp_bind. eapply wp_mono; [apply Hbody; [lia|done]|].
    intros [v|] s' Hr; [by apply wp_ret|].
    apply IH; [done|intros; apply Hbody; [lia|done]|].
    intros s'' Hs. apply Hend. by replace (lo + Z.of_nat (S n)) with (lo + 1 + Z.of_nat n) by lia.
Qed.

Lemma wp_for_each (I : Z -> St -> Prop) (Q : unit -> St -> Prop)
    n lo (body : Z -> M St unit) s :
  I lo s ->
  (forall i s', lo <= i < lo + Z.of_nat n -> I i s' ->
     wp (body i) (fun _ => I (i + 1)) s') ->
  (forall s', I (lo + Z.of_nat n) s' -> Q tt s') ->
  wp (for_each n lo body) Q s.
Proof.
  revert lo s. induction n as [|n IH]; intros lo s HI Hbody Hend; simpl.
  - apply wp_ret, Hend. by replace (lo + Z.of_nat 0) with lo by lia.
  - apply wp_bind. eapply wp_mono; [apply Hbody; [lia|done]|].
    intros [] s' Hr. apply IH; [done|intros; apply Hbody; [lia|done]|].
    intros s'' Hs. apply Hend. by replace (lo + Z.of_nat (S n)) with (lo + 1 + Z.of_nat n) by lia.
Qed.
End Wp.

(** One step of symbolic execution of a triple. *)
Ltac wp_step :=
  lazymatch goal with
  | |- wp (bind _ _) _ _ => apply wp_bind
  | |- wp (ret _) _ _ => apply wp_ret
  | |- wp (gets _) _ _ => apply wp_gets
  | |- wp (modify _) _ _ => apply wp_modify
  | |- wp (if ?b then _ else _) _ _ => destruct b eqn:?
  | |- wp (let _ := _ in _) _ _ => cbv zeta
  end; simpl.
Ltac wp_steps := repeat wp_step.

(** * Arrays *)

Section Arrays.
Context {A : Type}.
Implicit Types a : list A.

Lemma aget_ok a i x : 0 <= i -> a !! Z.to_nat i = Some x -> aget a i = Ok x.
Proof. intros H Hx. unfold aget. destruct (Z.ltb_spec i 0); [lia|]. by rewrite Hx. Qed.

Lemma aget_inv a i x : aget a i = Ok x -> 0 <= i < Z.of_nat (length a) /\ a !! Z.to_nat i = Some x.
Proof.
  unfold aget. destruct (Z.ltb_spec i 0); [done|].
  destruct (a !! Z.to_nat i) as [y|] eqn:E; [|done]. intros [= ->].
  apply lookup_lt_Some in E as ?. split; [lia|done].
Qed.

Lemma aget_range a i : 0 <= i < Z.of_nat (length a) -> exists x, a !! Z.to_nat i = Some x /\ aget a i = Ok x.
Proof.
  intros H. destruct (lookup_lt_is_Some_2 a (Z.to_nat i)) as [x Hx]; [lia|].
  exists x. split; [done|]. by apply aget_ok; [lia|].
Qed.

Lemma aset_ok a i x : 0 <= i < Z.of_nat (length a) -> aset a i x = Ok (<[Z.to_nat i := x]> a).
Proof.
  intros H. unfold aset. destruct (Z.ltb_spec i 0), (Z.leb_spec (Z.of_nat (length a)) i); [lia..|done].
Qed.

Lemma alter_lookup_insert (f : A -> A) a i x : a !! i = Some x -> alter f i a = <[i := f x]> a.
Proof.
  intros Hx. apply list_eq. intros j. destruct (decide (i = j)) as [<-|Hne].
  - rewrite list_lookup_alter_eq, Hx, list_lookup_insert_eq; [done|]. by apply lookup_lt_Some in Hx.
  - by rewrite list_lookup_alter_ne, list_lookup_insert_ne.
Qed.

Lemma lookup_insert_len a i x : (i < length a)%nat -> <[i := x]> a !! i = Some x.
Proof. apply list_lookup_insert_eq. Qed.
End Arrays.

(** [found p l r]: [r] is the first index of [l] with [p], if there is one. *)
Definition found {A} (p : A -> bool) (l : list A) (r : option Z) : Prop :=
  match r with
  | Some i => 0 <= i /\ (exists x, l !! Z.to_nat i = Some x /\ p x = true) /\
              (forall j x, (j < Z.to_nat i)%nat -> l !! j = Some x -> p x = false)
  | None => forall j x, l !! j = Some x -> p x = false
  end.

Lemma found_find {A} (p : A -> bool) (l : list A) r : found p l r ->
  List.find p l = match r with Some i => l !! Z.to_nat i | None => None end.
Proof.
  destruct r as [i|]; simpl.
  - intros (_ & (x & Hx & Hp) & Hno). revert Hx Hno. generalize (Z.to_nat i) as n. clear i.
    induction l as [|y l IH]; intros n Hx Hno; [done|]. simpl. destruct n as [|n].
    + simpl in *. injection Hx as ->. by rewrite Hp.
    + rewrite (Hno 0%nat y); [|lia|done]. simpl in *. apply IH; [done|].
      intros j z Hj Hz. apply (Hno (S j)); [lia|done].
  - intros Hno. induction l as [|y l IH]; simpl; [done|].
    rewrite (Hno 0%nat y) by done. apply IH. intros j. apply (Hno (S j)).
Qed.

Lemma scan_ok {St A} (a : St -> list A) n p (s : St) (Q : option Z -> St -> Prop) :
  0 <= n <= Z.of_nat (length (a s)) ->
  (forall r, found p (take (Z.to_nat n) (a s)) r -> Q r s) -> wp (scan a n p) Q s.
Proof.
  intros Hn HQ. unfold scan.
  apply (wp_for_ret (fun i s' => s' = s /\ forall j x, (j < Z.to_nat i)%nat -> a s !! j = Some x -> p x = false)).
  - split; [done|]. intros j x Hj. simpl in Hj. lia.
  - intros i ? Hi [-> Hno]. unfold iters in Hi. rewrite Z2Nat.id in Hi by lia.
    destruct (aget_range (a s) i) as (x & Hx & E); [lia|].
    apply wp_bind, wp_gets, wp_bind. eapply wp_lift; [exact E|]. apply wp_ret.
    destruct (p x) eqn:Hp.
    + apply HQ. split; [lia|]. split.
      * exists x. split; [|done]. rewrite lookup_take_lt by lia. done.
      * intros j y Hj. rewrite lookup_take_lt by lia. by apply Hno.
    + split; [done|]. intros j y Hj Hy. destruct (decide (j = Z.to_nat i)) as [->|].
      * congruence.
      * apply (Hno j); [lia|done].
  - intros ? [-> Hno]. apply HQ. intros j x (Hx & Hj)%lookup_take_Some. apply (Hno j); [|done].
    unfold iters. lia.
Qed.

Lemma last_cons_default {A} (l : list A) (x d : A) : List.last (x :: l) d = List.last l x.
Proof.
  revert x d. induction l as [|y l IH]; intros x d; [done|].
  change (List.last (x :: y :: l) d) with (List.last (y :: l) d).
  by rewrite (IH y d), (IH y x).
Qed.

Lemma nodup_bounded_length (l : list nat) n :
  NoDup l -> Forall (fun i => (i < n)%nat) l -> (length l <= n)%nat.
Proof.
  intros Hnd Hall. assert (length (seq 0 n) = n) as <- by apply length_seq. apply submseteq_length, NoDup_submseteq; [done|].
  intros x Hx. rewrite Forall_forall in Hall. specialize (Hall x Hx). simpl in Hall.
  apply elem_of_seq. lia.
Qed.

(** * Counting *)

(** Number of [i] in [lo, lo + n) with [f i]. *)
Fixpoint cnt (f : Z -> bool) (n : nat) (lo : Z) : Z :=
  match n with
  | O => 0
  | S n' => (if f lo then 1 else 0) + cnt f n' (lo + 1)
  end.

Lemma cnt_ext f g n lo :
  (forall i, lo <= i < lo + Z.of_nat n -> f i = g i) -> cnt f n lo = cnt g n lo.
Proof.
  revert lo. induction n as [|n IH]; intros lo H; simpl; [done|].
  rewrite H by lia. rewrite (IH (lo + 1)); [done|]. intros. apply H. lia.
Qed.

Lemma cnt_bounds f n lo : 0 <= cnt f n lo <= Z.of_nat n.
Proof.
  revert lo. induction n as [|n IH]; intros lo; simpl; [lia|].
  specialize (IH (lo + 1)). destruct (f lo); lia.
Qed.

Lemma cnt_false n lo : cnt (fun _ => false) n lo = 0.
Proof. revert lo. induction n as [|n IH]; intros lo; simpl; [done|]. by rewrite IH. Qed.

Lemma cnt_pos f n lo i : lo <= i < lo + Z.of_nat n -> f i = true -> 0 < cnt f n lo.
Proof.
  revert lo. induction n as [|n IH]; intros lo Hi Hf; simpl; [lia|].
  pose proof (cnt_bounds f n (lo + 1)).
  destruct (Z.eq_dec i lo) as [->|]; [rewrite Hf; lia|].
  specialize (IH (lo + 1)). destruct (f lo); [lia|]. apply IH; [lia|done].
Qed.

(** Clearing one point of a predicate lowers the count by one. *)
Lemma cnt_clear f g n lo i :
  lo <= i < lo + Z.of_nat n -> f i = true -> g i = false ->
  (forall j, j <> i -> g j = f j) -> cnt f n lo = cnt g n lo + 1.
Proof.
  revert lo. induction n as [|n IH]; intros lo Hi Hf Hg Hne; simpl; [lia|].
  destruct (Z.eq_dec i lo) as [->|].
  - rewrite Hf, Hg. rewrite (cnt_ext f g); [lia|]. intros j Hj. symmetry. apply Hne. lia.
  - rewrite (Hne lo) by done. rewrite (IH (lo + 1)); [lia|lia|done..].
Qed.

#[export] Hint Resolve u8_range u16_range u32_range u64_range : cint.
