(* ===== verification/Pmm.v ===== *)
(** Physical memory manager (src/pmm.c, src/pmm.h): the frame bitmap, its
    initialisation from the Multiboot2 memory map, and the allocators.

    The state is the [bitmap] array with the [frames_free] counter.  The
    critical sections of the source make every operation atomic on one CPU, so
    an operation is one function of the state.  Module [Pmm] holds the
    operations in source order; the theorems relate them to the set of used
    frames ([used]) and show the invariant [pmm_inv]. *)
From Stdlib Require Import ZArith Lia List Bool String.
From stdpp Require Import base tactics numbers list gmap.
From S2P Require Import Prelude.
Open Scope Z_scope.

Module Pmm.

(** * Constants (pmm.h:9-13, pmm.c:71-88) *)

Definition PMM_PAGE_SIZE : Z := 4096.
Definition PMM_MAX_BYTES : Z := 256 * 1024 * 1024.
Definition PMM_MAX_FRAMES : Z := PMM_MAX_BYTES / PMM_PAGE_SIZE.
Definition PMM_LOW_BYTES : Z := 32 * 1024 * 1024.
Definition PMM_LOW_FRAMES : Z := PMM_LOW_BYTES / PMM_PAGE_SIZE.
Definition PMM_RESERVED_FLOOR : Z := 0x00100000.

(** * State *)

Record pmm := mk_pmm { bitmap : list Z; frames_free : Z }.

Definition set_bitmap (b : list Z) (s : pmm) : pmm := mk_pmm b (frames_free s).
Definition set_frames_free (n : Z) (s : pmm) : pmm := mk_pmm (bitmap s) n.

(** * Bitmap helpers *)

Definition bset (i : Z) : M pmm unit :=
  bm <- gets bitmap ;;
  b <- lift (aget bm (Z.shiftr i 3)) ;;
  bm' <- lift (aset bm (Z.shiftr i 3)
                 (u8 (Z.lor b (u32 (Z.shiftl 1 (Z.land i 7)))))) ;;
  modify (set_bitmap bm').

Definition bclr (i : Z) : M pmm unit :=
  bm <- gets bitmap ;;
  b <- lift (aget bm (Z.shiftr i 3)) ;;
  bm' <- lift (aset bm (Z.shiftr i 3)
                 (u8 (Z.land b (not32 (u32 (Z.shiftl 1 (Z.land i 7))))))) ;;
  modify (set_bitmap bm').

Definition bget (i : Z) : M pmm bool :=
  bm <- gets bitmap ;;
  b <- lift (aget bm (Z.shiftr i 3)) ;;
  ret (Z.land (Z.shiftr b (Z.land i 7)) 1 =? 1).

(** [if (frames_free) frames_free--;] *)
Definition frames_free_dec : M pmm unit :=
  n <- gets frames_free ;;
  if n =? 0 then ret tt else modify (set_frames_free (n -32 1)).

Definition frames_free_inc : M pmm unit :=
  n <- gets frames_free ;; modify (set_frames_free (n +32 1)).

(** * Marking ranges *)

Definition mark_range (phys size : Z) (used : bool) : M pmm unit :=
  let start := phys / PMM_PAGE_SIZE in
  if PMM_MAX_FRAMES <=? start then ret tt else
  let end0 :=
    if 0xFFFFFFFF -32 phys <? size then PMM_MAX_FRAMES
    else let phys_end := phys +32 size in
         if 0xFFFFFFFF -32 PMM_PAGE_SIZE +32 1 <? phys_end then PMM_MAX_FRAMES
         else (phys_end +32 PMM_PAGE_SIZE -32 1) / PMM_PAGE_SIZE in
  let end1 := if PMM_MAX_FRAMES <? end0 then PMM_MAX_FRAMES else end0 in
  for_each (iters start end1) start (fun i =>
    was <- bget i ;;
    if used then
      if negb was then bset i ;;; frames_free_dec else ret tt
    else
      if was then bclr i ;;; frames_free_inc else ret tt).

Definition pmm_mark_used (phys size : Z) : M pmm unit := mark_range phys size true.
Definition pmm_mark_free (phys size : Z) : M pmm unit := mark_range phys size false.

Definition pmm_total_frames : M pmm Z := ret PMM_MAX_FRAMES.
Definition pmm_free_frames : M pmm Z := gets frames_free.

(** * Initialisation from the Multiboot2 information structure *)

(** Physical memory as the boot code reads it, a byte per address. *)
Definition memory := Z -> Z.
Definition rd32 (m : memory) (a : Z) : Z :=
  m (u32 a) + 2 ^ 8 * m (a +32 1) + 2 ^ 16 * m (a +32 2) + 2 ^ 24 * m (a +32 3).
Definition rd64 (m : memory) (a : Z) : Z := rd32 m a + 2 ^ 32 * rd32 m (a +32 4).

(** The addresses the linker script and boot.s provide. *)
Record image := mk_image {
  kernel_start : Z; kernel_end : Z; stack_bottom : Z; stack_top : Z; bitmap_phys : Z }.

Definition MB2_TAG_END : Z := 0.
Definition MB2_TAG_MMAP : Z := 6.
Definition BITMAP_BYTES : Z := PMM_MAX_FRAMES / 8.

(** The body of the entry loop for the entry at [q]. *)
Definition mmap_entry (m : memory) (q : Z) : M pmm unit :=
  if rd32 m (q +32 16) =? 1 then
    let base64 := rd64 m q in
    let len64 := rd64 m (q +32 8) in
    if PMM_MAX_BYTES <=? base64 then ret tt
    else
      let room := PMM_MAX_BYTES - base64 in
      let use := if len64 <? room then len64 else room in
      if use =? 0 then ret tt else pmm_mark_free (u32 base64) (u32 use)
  else ret tt.

Fixpoint mmap_loop (fuel : nat) (m : memory) (q qe entry_size : Z) : M pmm unit :=
  match fuel with
  | O => fail NoTermination
  | S fuel' =>
      if q +32 entry_size <=? qe
      then mmap_entry m q ;;; mmap_loop fuel' m (q +32 entry_size) qe entry_size
      else ret tt
  end.

(** [((uintptr_t)p + tag->size + 7u) & ~7u] *)
Definition next_tag (p size : Z) : Z := Z.land (p +32 size +32 7) (not32 7).

Fixpoint tag_loop (fuel : nat) (m : memory) (p end_ : Z) : M pmm unit :=
  match fuel with
  | O => fail NoTermination
  | S fuel' =>
      if p +32 8 <=? end_ then
        let type := rd32 m p in
        let size := rd32 m (p +32 4) in
        if type =? MB2_TAG_END then ret tt
        else if end_ <? p +32 size then ret tt
        else
          (if type =? MB2_TAG_MMAP
           then mmap_loop fuel m (p +32 16) (p +32 size) (rd32 m (p +32 8))
           else ret tt) ;;;
          tag_loop fuel' m (next_tag p size) end_
      else ret tt
  end.

Definition page_down (a : Z) : Z := Z.land a (not32 0xFFF).
Definition page_up (a : Z) : Z := Z.land (a +32 0xFFF) (not32 0xFFF).

(** Reservation of [size] bytes at [phys], rounded out to pages, with the
    source's clamp of an end address that overflows. *)
Definition reserve_pages (phys size : Z) : M pmm unit :=
  let start := page_down phys in
  let end0 := if 0xFFFFFFFF -32 phys <? size then 0xFFFFFFFF else phys +32 size in
  let end1 := page_up end0 in
  pmm_mark_used start (end1 -32 start).

Definition reserve_kernel (lay : image) : M pmm unit :=
  let k_start := page_down (kernel_start lay) in
  let k_end := page_up (kernel_end lay) in
  (if k_start <? k_end then pmm_mark_used k_start (k_end -32 k_start) else ret tt) ;;;
  if (stack_bottom lay <? k_start) || (k_end <? stack_top lay)
  then fail (KernelPanic "Boot stack outside kernel reservation")
  else ret tt.

Definition pmm_init_from_mb2 (fuel : nat) (lay : image) (m : memory) (info_ptr : Z)
  : M pmm unit :=
  modify (fun _ => mk_pmm (replicate (Z.to_nat BITMAP_BYTES) 0xFF) 0) ;;;
  let total_size := rd32 m info_ptr in
  tag_loop fuel m (info_ptr +32 8) (info_ptr +32 total_size) ;;;
  pmm_mark_used 0 0x100000 ;;;
  reserve_kernel lay ;;;
  reserve_pages (bitmap_phys lay) BITMAP_BYTES ;;;
  reserve_pages info_ptr total_size.

(** * Allocation *)

Definition pmm_alloc : M pmm Z :=
  r <- for_ret (iters 0 PMM_MAX_FRAMES) 0 (fun i =>
         b <- bget i ;;
         if negb b then
           if i *32 PMM_PAGE_SIZE <? PMM_RESERVED_FLOOR then ret None
           else bset i ;;; frames_free_dec ;;; ret (Some (i *32 PMM_PAGE_SIZE))
         else ret None) ;;
  match r with Some v => ret v | None => ret 0 end.

(** [while (run < count && !bget(base + run)) run++;] with [todo = count - run]. *)
Fixpoint run_length (todo : nat) (base run : Z) : M pmm Z :=
  match todo with
  | O => ret run
  | S todo' => b <- bget (base +32 run) ;;
               if negb b then run_length todo' base (run +32 1) else ret run
  end.

Fixpoint contiguous_loop (fuel : nat) (base count : Z) : M pmm Z :=
  match fuel with
  | O => fail NoTermination
  | S fuel' =>
      if base +32 count <=? PMM_MAX_FRAMES then
        run <- run_length (Z.to_nat count) base 0 ;;
        if run =? count then
          for_each (iters 0 count) 0 (fun k => bset (base +32 k) ;;; frames_free_dec) ;;;
          ret (base *32 PMM_PAGE_SIZE)
        else contiguous_loop fuel' (base +32 run +32 1) count
      else ret 0
  end.

(** Each round of the search moves [base] up, so a round per frame is enough. *)
Definition pmm_alloc_contiguous (count : Z) : M pmm Z :=
  if count =? 0 then ret 0
  else if count =? 1 then pmm_alloc
  else contiguous_loop (Z.to_nat PMM_MAX_FRAMES) (PMM_RESERVED_FLOOR / PMM_PAGE_SIZE) count.

Definition pmm_alloc_low : M pmm Z :=
  let lo := PMM_RESERVED_FLOOR / PMM_PAGE_SIZE in
  r <- for_ret (iters lo PMM_LOW_FRAMES) lo (fun i =>
         b <- bget i ;;
         if negb b then bset i ;;; frames_free_dec ;;; ret (Some (i *32 PMM_PAGE_SIZE))
         else ret None) ;;
  match r with Some v => ret v | None => ret 0 end.

Definition pmm_free (phys : Z) : M pmm unit :=
  if phys =? 0 then ret tt
  else if negb (Z.land phys (PMM_PAGE_SIZE - 1) =? 0) then ret tt
  else
    let i := phys / PMM_PAGE_SIZE in
    if phys <? PMM_RESERVED_FLOOR then ret tt
    else if PMM_MAX_FRAMES <=? i then ret tt
    else b <- bget i ;;
         if negb b then ret tt
         else bclr i ;;; frames_free_inc.

(** * Specification

    [used s i]: bit [i] of the bitmap is set. *)

Definition used (s : pmm) (i : Z) : bool :=
  Z.testbit (default 0 (bitmap s !! Z.to_nat (i / 8))) (i mod 8).

Definition is_frame (i : Z) : Prop := 0 <= i < PMM_MAX_FRAMES.

(** Number of free frames. *)
Definition nfree (s : pmm) : Z :=
  cnt (fun i => negb (used s i)) (Z.to_nat PMM_MAX_FRAMES) 0.

Definition bitmap_wf (s : pmm) : Prop :=
  length (bitmap s) = Z.to_nat BITMAP_BYTES /\ Forall (fun b => 0 <= b < 256) (bitmap s).

(** The invariant: the bitmap array has its size and byte range, and the
    counter is the number of clear bits. *)
Definition pmm_inv (s : pmm) : Prop := bitmap_wf s /\ frames_free s = nfree s.

(** [s'] is [s] with the frames that satisfy [P] set to [b]. *)
Definition updated (P : Z -> Prop) (b : bool) (s s' : pmm) : Prop :=
  (forall i, is_frame i -> P i -> used s' i = b) /\
  (forall i, is_frame i -> ~ P i -> used s' i = used s i).

(** ** Bits *)

Lemma frame_byte i : is_frame i -> 0 <= i / 8 < BITMAP_BYTES /\ 0 <= i mod 8 < 8 /\ i = 8 * (i / 8) + i mod 8.
Proof. unfold is_frame. change PMM_MAX_FRAMES with 65536. change BITMAP_BYTES with 8192. u_lia. Qed.

Lemma frame_shift i : Z.shiftr i 3 = i / 8 /\ Z.land i 7 = i mod 8.
Proof.
  split; [by rewrite Z.shiftr_div_pow2|].
  change 7 with (Z.ones 3). by rewrite Z.land_ones.
Qed.

Lemma bit_test b k : 0 <= k -> (Z.land (Z.shiftr b k) 1 =? 1) = Z.testbit b k.
Proof.
  intros. change 1 with (Z.ones 1) at 1. rewrite Z.land_ones by lia.
  rewrite Z.testbit_eqb, Z.shiftr_div_pow2 by lia. done.
Qed.

(** [s'] is [s] with bit [i] set to [v]. *)
Definition bit_write (i : Z) (v : bool) (s s' : pmm) : Prop :=
  bitmap_wf s' /\ frames_free s' = frames_free s /\
  forall j, is_frame j -> used s' j = if j =? i then v else used s j.

Lemma frame_lookup s i :
  bitmap_wf s -> is_frame i ->
  exists b, bitmap s !! Z.to_nat (i / 8) = Some b /\ 0 <= b < 256 /\
            aget (bitmap s) (i / 8) = Ok b /\ used s i = Z.testbit b (i mod 8).
Proof.
  intros [Hlen Hb] Hi. destruct (frame_byte i Hi) as (H1 & _ & _).
  destruct (aget_range (bitmap s) (i / 8)) as (b & Hlk & Hget); [lia|].
  exists b. split_and!; [done| | |done|].
  - rewrite Forall_lookup in Hb. apply Hb in Hlk. lia.
  - rewrite Forall_lookup in Hb. apply Hb in Hlk. lia.
  - unfold used. by rewrite Hlk.
Qed.

Lemma bit_write_byte s i v b b' :
  bitmap_wf s -> is_frame i -> bitmap s !! Z.to_nat (i / 8) = Some b ->
  0 <= b' < 256 ->
  (forall k, 0 <= k < 8 -> Z.testbit b' k = if k =? i mod 8 then v else Z.testbit b k) ->
  aset (bitmap s) (i / 8) b' = Ok (<[Z.to_nat (i / 8) := b']> (bitmap s)) /\
  bit_write i v s (set_bitmap (<[Z.to_nat (i / 8) := b']> (bitmap s)) s).
Proof.
  intros [Hlen Hb] Hi Hlk Hb' Hbits. destruct (frame_byte i Hi) as (H1 & H2 & H3).
  split; [apply aset_ok; lia|]. split_and!; [|done|].
  - split; simpl; [by rewrite length_insert|]. by apply Forall_insert.
  - intros j Hj. destruct (frame_byte j Hj) as (J1 & J2 & J3). unfold used; simpl.
    destruct (Z.eq_dec (i / 8) (j / 8)) as [E|E].
    + rewrite <- E, list_lookup_insert_eq by lia. simpl. rewrite Hlk. simpl.
      rewrite Hbits by lia. destruct (Z.eqb_spec (j mod 8) (i mod 8)), (Z.eqb_spec j i); try done; lia.
    + rewrite list_lookup_insert_ne by lia. destruct (Z.eqb_spec j i); [subst; done|done].
Qed.

Lemma bget_ok s i : bitmap_wf s -> is_frame i -> bget i s = Ok (used s i, s).
Proof.
  intros Hwf Hi. destruct (frame_lookup s i Hwf Hi) as (b & _ & _ & Hget & Hu).
  destruct (frame_shift i) as [E1 E2]. destruct (frame_byte i Hi) as (_ & ? & _).
  unfold bget, bind, gets, lift, ret. rewrite E1, E2, Hget, bit_test by lia. by rewrite Hu.
Qed.

Lemma bset_ok s i :
  bitmap_wf s -> is_frame i -> exists s', bset i s = Ok (tt, s') /\ bit_write i true s s'.
Proof.
  intros Hwf Hi. destruct (frame_lookup s i Hwf Hi) as (b & Hlk & Hb & Hget & Hu).
  destruct (frame_shift i) as [E1 E2]. destruct (frame_byte i Hi) as (_ & ? & _).
  unfold bset, bind, gets, lift, modify. rewrite E1, E2, Hget.
  destruct (bit_write_byte s i true b (u8 (Z.lor b (u32 (Z.shiftl 1 (i mod 8))))))
    as [-> Hw]; [done|done|done|apply u8_range| |eauto].
  intros k Hk. rewrite u8_testbit, Z.lor_spec, u32_testbit, pow2_testbit by lia.
  destruct (k =? i mod 8); [apply orb_true_r|apply orb_false_r].
Qed.

Lemma bclr_ok s i :
  bitmap_wf s -> is_frame i -> exists s', bclr i s = Ok (tt, s') /\ bit_write i false s s'.
Proof.
  intros Hwf Hi. destruct (frame_lookup s i Hwf Hi) as (b & Hlk & Hb & Hget & Hu).
  destruct (frame_shift i) as [E1 E2]. destruct (frame_byte i Hi) as (_ & ? & _).
  unfold bclr, bind, gets, lift, modify. rewrite E1, E2, Hget.
  destruct (bit_write_byte s i false b (u8 (Z.land b (not32 (u32 (Z.shiftl 1 (i mod 8)))))))
    as [-> Hw]; [done|done|done|apply u8_range| |eauto].
  intros k Hk. rewrite u8_testbit, Z.land_spec, not32_testbit, u32_testbit, pow2_testbit by lia.
  destruct (k =? i mod 8); simpl; [apply andb_false_r|apply andb_true_r].
Qed.

(** ** Claiming and releasing one frame: the bit with its counter *)

Lemma bit_write_nfree s s' i :
  is_frame i -> used s i = false -> bit_write i true s s' -> nfree s = nfree s' + 1.
Proof.
  intros Hi Hu (_ & _ & Hw). unfold nfree, is_frame in *.
  rewrite (cnt_ext (fun j => negb (used s' j)) (fun j => if j =? i then false else negb (used s j))).
  2:{ intros j Hj. rewrite Hw by lia. by destruct (j =? i). }
  apply cnt_clear with i; [lia|by rewrite Hu|by rewrite Z.eqb_refl|].
  intros j Hne. by destruct (Z.eqb_spec j i).
Qed.

Lemma nfree_set_free n s : nfree (set_frames_free n s) = nfree s.
Proof. unfold nfree. by apply cnt_ext. Qed.

Lemma nfree_bounds s : 0 <= nfree s <= PMM_MAX_FRAMES.
Proof. apply (cnt_bounds _ (Z.to_nat PMM_MAX_FRAMES)). Qed.

Lemma claim_ok s i :
  pmm_inv s -> is_frame i -> used s i = false ->
  exists s', (bset i ;;; frames_free_dec) s = Ok (tt, s') /\ pmm_inv s' /\
             updated (eq i) true s s' /\ frames_free s' = frames_free s - 1.
Proof.
  intros [Hwf Hcnt] Hi Hu. destruct (bset_ok s i Hwf Hi) as (s1 & E & Hw).
  pose proof (bit_write_nfree s s1 i Hi Hu Hw) as Hn.
  pose proof (nfree_bounds s1). pose proof (nfree_bounds s).
  destruct Hw as (Hwf1 & Hf1 & Hu1).
  change PMM_MAX_FRAMES with 65536 in *.
  exists (set_frames_free (frames_free s - 1) s1).
  unfold bind at 1. rewrite E. unfold frames_free_dec, bind, gets, modify.
  destruct (Z.eqb_spec (frames_free s1) 0); [lia|].
  rewrite Hf1, u32_small by lia. split_and!; [done| | |done].
  - split; [done|]. rewrite nfree_set_free. simpl. lia.
  - split; intros j Hj Hij; change (used (set_frames_free _ s1) j) with (used s1 j);
      rewrite Hu1 by done; destruct (Z.eqb_spec j i); congruence.
Qed.

Lemma release_ok s i :
  pmm_inv s -> is_frame i -> used s i = true ->
  exists s', (bclr i ;;; frames_free_inc) s = Ok (tt, s') /\ pmm_inv s' /\
             updated (eq i) false s s' /\ frames_free s' = frames_free s + 1.
Proof.
  intros [Hwf Hcnt] Hi Hu. destruct (bclr_ok s i Hwf Hi) as (s1 & E & Hwf1 & Hf1 & Hu1).
  assert (nfree s1 = nfree s + 1) as Hn.
  { apply (bit_write_nfree s1 s i Hi).
    - rewrite Hu1, Z.eqb_refl by done. done.
    - split_and!; [done|done|]. intros j Hj. rewrite Hu1 by done.
      destruct (Z.eqb_spec j i); [by subst|done]. }
  pose proof (nfree_bounds s1). pose proof (nfree_bounds s).
  change PMM_MAX_FRAMES with 65536 in *.
  exists (set_frames_free (frames_free s + 1) s1).
  unfold bind at 1. rewrite E. unfold frames_free_inc, bind, gets, modify.
  rewrite Hf1, u32_small by lia. split_and!; [done| | |done].
  - split; [done|]. rewrite nfree_set_free. simpl. lia.
  - split; intros j Hj Hij; change (used (set_frames_free _ s1) j) with (used s1 j);
      rewrite Hu1 by done; destruct (Z.eqb_spec j i); congruence.
Qed.

(** ** Operations *)

Lemma updated_refl P b s : (forall i, is_frame i -> P i -> used s i = b) -> updated P b s s.
Proof. intros H. split; auto. Qed.

(** The frames [mark_range] touches, in unbounded arithmetic: from the frame
    that holds [phys], those that start below [phys + size]. *)
Definition in_range (phys size i : Z) : Prop :=
  phys / PMM_PAGE_SIZE <= i /\ i * PMM_PAGE_SIZE < phys + size.

(** One round of the marking loop. *)
Lemma mark_step lo k b s s' :
  is_frame k -> pmm_inv s' -> lo <= k -> updated (fun i => lo <= i < k) b s s' ->
  wp (was <- bget k ;;
      if b then if negb was then bset k ;;; frames_free_dec else ret tt
      else if was then bclr k ;;; frames_free_inc else ret tt)
     (fun _ s'' => pmm_inv s'' /\ updated (fun i => lo <= i < k + 1) b s s'') s'.
Proof.
  intros Hk Hinv Hlo [Hin Hout].
  assert (forall s'', updated (eq k) b s' s'' -> updated (fun i => lo <= i < k + 1) b s s'') as Hnext.
  { intros s'' [Hin' Hout']. split; intros i Hi Hr; destruct (Z.eq_dec k i) as [->|].
    - by apply Hin'.
    - rewrite Hout' by done. apply Hin; [done|lia].
    - lia.
    - rewrite Hout' by done. apply Hout; [done|lia]. }
  apply wp_bind. eapply wp_ok; [apply bget_ok; [apply Hinv|done]|].
  destruct b, (used s' k) eqn:Hu; simpl.
  - apply wp_ret. split; [done|]. apply Hnext, updated_refl. congruence.
  - destruct (claim_ok s' k) as (s'' & E & ? & ? & _); [done..|]. eapply wp_ok; [exact E|]. auto.
  - destruct (release_ok s' k) as (s'' & E & ? & ? & _); [done..|]. eapply wp_ok; [exact E|]. auto.
  - apply wp_ret. split; [done|]. apply Hnext, updated_refl. congruence.
Qed.

Lemma mark_range_wp phys size b s :
  pmm_inv s -> 0 <= phys < 2 ^ 32 -> 0 <= size < 2 ^ 32 ->
  wp (mark_range phys size b) (fun _ s' => pmm_inv s' /\ updated (in_range phys size) b s s') s.
Proof.
  intros Hinv Hp Hs. unfold mark_range. cbv zeta.
  destruct (Z.leb_spec PMM_MAX_FRAMES (phys / PMM_PAGE_SIZE)) as [Hbig|Hstart].
  { apply wp_ret. split; [done|]. apply updated_refl. unfold is_frame, in_range. lia. }
  match goal with |- context [iters _ ?e] => set (hi := e) end.
  assert (forall i, is_frame i -> (i < hi <-> i * PMM_PAGE_SIZE < phys + size)) as Hhi.
  { unfold is_frame, hi. change PMM_MAX_FRAMES with 65536 in *. change PMM_PAGE_SIZE with 4096 in *.
    intros i Hi. repeat case_match; u_lia. }
  assert (hi <= PMM_MAX_FRAMES) as Hmax by (unfold hi; repeat case_match; lia).
  clearbody hi.
  assert (0 <= phys / PMM_PAGE_SIZE) by (apply Z.div_pos; [lia|done]).
  set (lo := phys / PMM_PAGE_SIZE) in *.
  apply wp_for_each with (I := fun k s' => pmm_inv s' /\ updated (fun i => lo <= i < k) b s s').
  - split; [done|]. apply updated_refl. lia.
  - unfold iters. intros k s' Hk [Hinv' Hupd]. assert (is_frame k) by (unfold is_frame; lia).
    apply mark_step; [done|done|lia|done].
  - intros s' [Hinv' [Hin Hout]]. split; [done|]. unfold iters in *.
    split; intros i Hi; unfold in_range; intros Hr.
    + apply Hin; [done|]. rewrite <- Hhi in Hr by done. lia.
    + apply Hout; [done|]. intros ?. apply Hr. rewrite <- Hhi by done. lia.
Qed.

(** [i] is the lowest free frame of [lo, hi). *)
Definition first_free (s : pmm) (lo hi i : Z) : Prop :=
  lo <= i < hi /\ used s i = false /\ forall j, lo <= j < i -> used s j = true.

Definition FLOOR : Z := PMM_RESERVED_FLOOR / PMM_PAGE_SIZE.

(** What a single-frame allocator over [FLOOR, hi) promises. *)
Definition alloc_post (hi : Z) (s : pmm) (r : Z) (s' : pmm) : Prop :=
  (exists i, first_free s FLOOR hi i /\ r = i * PMM_PAGE_SIZE /\ pmm_inv s' /\
             updated (eq i) true s s' /\ frames_free s' = frames_free s - 1) \/
  ((forall i, FLOOR <= i < hi -> used s i = true) /\ r = 0 /\ s' = s).

Ltac pmm_consts :=
  unfold is_frame, FLOOR in *;
  change (PMM_RESERVED_FLOOR / PMM_PAGE_SIZE) with 256 in *;
  change PMM_RESERVED_FLOOR with 1048576 in *;
  change PMM_MAX_FRAMES with 65536 in *; change PMM_LOW_FRAMES with 8192 in *;
  change PMM_PAGE_SIZE with 4096 in *.

(** Claiming frame [i] and returning its address. *)
Lemma claim_return_wp s i hi :
  pmm_inv s -> first_free s FLOOR hi i -> hi <= PMM_MAX_FRAMES ->
  wp (bset i ;;; frames_free_dec ;;; ret (Some (i *32 PMM_PAGE_SIZE)))
     (fun r s' => match r with Some v => alloc_post hi s v s' | None => False end) s.
Proof.
  intros Hinv Hff Hhi. pose proof Hff as (Hi & Hu & _).
  destruct (claim_ok s i) as (s' & E & Hinv' & Hupd & Hcnt); [done|pmm_consts; lia|done|].
  unfold wp. unfold bind in *. destruct (bset i s) as [[[] s1]|]; [|done]. rewrite E.
  simpl. left. exists i. split_and!; try done. pmm_consts. apply u32_small. lia.
Qed.

Lemma pmm_alloc_wp s : pmm_inv s -> wp pmm_alloc (alloc_post PMM_MAX_FRAMES s) s.
Proof.
  intros Hinv. unfold pmm_alloc. apply wp_bind.
  apply wp_for_ret with (I := fun k s' => s' = s /\ forall i, FLOOR <= i < k -> used s i = true).
  - split; [done|]. pmm_consts. lia.
  - intros i s' Hi [-> Hbelow]. change (Z.of_nat (iters 0 PMM_MAX_FRAMES)) with 65536 in Hi.
    apply wp_bind. eapply wp_ok; [apply bget_ok; [apply Hinv|pmm_consts; lia]|].
    destruct (used s i) eqn:Hu; simpl.
    { split; [done|]. intros j Hj. destruct (Z.eq_dec j i) as [->|]; [done|apply Hbelow; lia]. }
    pmm_consts. destruct (Z.ltb_spec (i *32 4096) 1048576) as [Hlow|Hlow]; rewrite u32_small in Hlow by lia.
    { apply wp_ret. split; [done|]. intros j Hj. lia. }
    eapply wp_mono; [apply (claim_return_wp s i PMM_MAX_FRAMES Hinv)|].
    + split_and!; [pmm_consts; lia..|done|]. intros j Hj. apply Hbelow. pmm_consts. lia.
    + done.
    + by intros [v|] s'.
  - intros s' [-> Hall]. change (0 + Z.of_nat (iters 0 PMM_MAX_FRAMES)) with 65536 in Hall.
    apply wp_ret. right. auto.
Qed.

Lemma pmm_alloc_low_wp s : pmm_inv s -> wp pmm_alloc_low (alloc_post PMM_LOW_FRAMES s) s.
Proof.
  intros Hinv. unfold pmm_alloc_low. cbv zeta. apply wp_bind.
  apply wp_for_ret with (I := fun k s' => s' = s /\ forall i, FLOOR <= i < k -> used s i = true).
  - split; [done|]. pmm_consts. lia.
  - intros i s' Hi [-> Hbelow].
    change (PMM_RESERVED_FLOOR / PMM_PAGE_SIZE + _) with 8192 in Hi.
    apply wp_bind. eapply wp_ok; [apply bget_ok; [apply Hinv|pmm_consts; lia]|].
    destruct (used s i) eqn:Hu; simpl.
    { split; [done|]. intros j Hj. destruct (Z.eq_dec j i) as [->|]; [done|apply Hbelow; lia]. }
    eapply wp_mono; [apply (claim_return_wp s i PMM_LOW_FRAMES Hinv)|].
    + split_and!; [pmm_consts; lia..|done|]. intros j Hj. apply Hbelow. pmm_consts. lia.
    + done.
    + by intros [v|] s'.
  - intros s' [-> Hall]. change (PMM_RESERVED_FLOOR / PMM_PAGE_SIZE + _) with 8192 in Hall.
    apply wp_ret. right. auto.
Qed.

(** [pmm_free] acts exactly on the page-aligned addresses of used frames at
    or above the reserved floor. *)
Definition freeable (s : pmm) (phys : Z) : bool :=
  (phys mod PMM_PAGE_SIZE =? 0) && (PMM_RESERVED_FLOOR <=? phys) &&
  (phys / PMM_PAGE_SIZE <? PMM_MAX_FRAMES) && used s (phys / PMM_PAGE_SIZE).

Lemma pmm_free_wp s phys :
  pmm_inv s -> 0 <= phys < 2 ^ 32 ->
  wp (pmm_free phys)
     (fun _ s' => if freeable s phys
                  then pmm_inv s' /\ updated (eq (phys / PMM_PAGE_SIZE)) false s s' /\
                       frames_free s' = frames_free s + 1
                  else s' = s) s.
Proof.
  intros Hinv Hp. unfold pmm_free, freeable. cbv zeta.
  change (PMM_PAGE_SIZE - 1) with (Z.ones 12). rewrite Z.land_ones by lia.
  change (2 ^ 12) with PMM_PAGE_SIZE.
  destruct (Z.eqb_spec phys 0) as [->|H0]; [by apply wp_ret|].
  destruct (Z.eqb_spec (phys mod PMM_PAGE_SIZE) 0) as [Hal|Hal]; simpl; [|by apply wp_ret].
  destruct (Z.ltb_spec phys PMM_RESERVED_FLOOR), (Z.leb_spec PMM_RESERVED_FLOOR phys); try lia; simpl; [by apply wp_ret|].
  destruct (Z.leb_spec PMM_MAX_FRAMES (phys / PMM_PAGE_SIZE)), (Z.ltb_spec (phys / PMM_PAGE_SIZE) PMM_MAX_FRAMES); try lia; simpl; [by apply wp_ret|].
  assert (is_frame (phys / PMM_PAGE_SIZE)) by (split; [apply Z.div_pos; [lia|done]|done]).
  apply wp_bind. eapply wp_ok; [by apply bget_ok; [apply Hinv|]|].
  destruct (used s (phys / PMM_PAGE_SIZE)) eqn:Hu; simpl; [|by apply wp_ret].
  destruct (release_ok s (phys / PMM_PAGE_SIZE)) as (s' & E & ? & ? & ?); [done..|].
  eapply wp_ok; [exact E|]. auto.
Qed.

(** ** Contiguous runs *)

Definition run_free (s : pmm) (b count : Z) : Prop :=
  forall i, b <= i < b + count -> used s i = false.

(** What the contiguous allocator promises: the lowest run, or none exists. *)
Definition contiguous_post (count : Z) (s : pmm) (r : Z) (s' : pmm) : Prop :=
  (exists b, FLOOR <= b /\ b + count <= PMM_MAX_FRAMES /\ run_free s b count /\
             (forall b', FLOOR <= b' < b -> ~ run_free s b' count) /\
             r = b * PMM_PAGE_SIZE /\ pmm_inv s' /\
             updated (fun i => b <= i < b + count) true s s' /\
             frames_free s' = frames_free s - count) \/
  ((forall b, FLOOR <= b -> b + count <= PMM_MAX_FRAMES -> ~ run_free s b count) /\
   r = 0 /\ s' = s).

Lemma run_length_wp s todo base run :
  pmm_inv s -> 0 <= base -> 0 <= run ->
  base + run + Z.of_nat todo <= PMM_MAX_FRAMES -> run_free s base run ->
  wp (run_length todo base run)
     (fun r s' => s' = s /\ run <= r <= run + Z.of_nat todo /\ run_free s base r /\
                  (r < run + Z.of_nat todo -> used s (base + r) = true)) s.
Proof.
  intros Hinv Hb. revert run. induction todo as [|todo IH]; intros run Hr Hmax Hfree; simpl.
  { apply wp_ret. split_and!; [done|lia|lia|done|lia]. }
  pmm_consts. rewrite u32_small by lia.
  apply wp_bind. eapply wp_ok; [apply bget_ok; [apply Hinv|pmm_consts; lia]|].
  destruct (used s (base + run)) eqn:Hu; simpl.
  { split_and!; [done|lia|lia|done|done]. }
  rewrite u32_small by lia. eapply wp_mono; [apply IH; [lia|lia|]|].
  - intros i Hi. destruct (Z.eq_dec i (base + run)) as [->|]; [done|apply Hfree; lia].
  - intros r s' (-> & ? & ? & Hend). split_and!; [done|lia|lia|done|]. intros. apply Hend. lia.
Qed.

Lemma claim_run_wp s base count :
  pmm_inv s -> 0 <= base -> 0 <= count -> base + count <= PMM_MAX_FRAMES -> run_free s base count ->
  wp (for_each (iters 0 count) 0 (fun k => bset (base +32 k) ;;; frames_free_dec))
     (fun _ s' => pmm_inv s' /\ updated (fun i => base <= i < base + count) true s s' /\
                  frames_free s' = frames_free s - count) s.
Proof.
  intros Hinv Hb Hc Hmax Hfree.
  apply wp_for_each with
    (I := fun k s' => pmm_inv s' /\ updated (fun i => base <= i < base + k) true s s' /\
                      frames_free s' = frames_free s - k).
  - split_and!; [done|apply updated_refl; lia|lia].
  - unfold iters. intros k s' Hk (Hinv' & [Hin Hout] & Hcnt). pmm_consts. rewrite u32_small by lia.
    destruct (claim_ok s' (base + k)) as (s'' & E & Hinv'' & [Hin' Hout'] & Hcnt').
    + done.
    + pmm_consts. lia.
    + rewrite Hout; [apply Hfree; lia|pmm_consts; lia|lia].
    + eapply wp_ok; [exact E|]. split_and!; [done| |lia].
      split; intros i Hi Hr; destruct (Z.eq_dec (base + k) i) as [<-|].
      * by apply Hin'.
      * rewrite Hout' by done. apply Hin; [done|lia].
      * lia.
      * rewrite Hout' by done. apply Hout; [done|lia].
  - unfold iters. intros s'. replace (0 + Z.of_nat (Z.to_nat (count - 0))) with count by lia. auto.
Qed.

Lemma contiguous_loop_wp fuel base count s :
  pmm_inv s -> 2 <= count < 2 ^ 32 - PMM_MAX_FRAMES ->
  FLOOR <= base <= PMM_MAX_FRAMES -> PMM_MAX_FRAMES - base < Z.of_nat fuel ->
  (forall b', FLOOR <= b' < base -> ~ run_free s b' count) ->
  wp (contiguous_loop fuel base count) (contiguous_post count s) s.
Proof.
  intros Hinv Hc. change (2 ^ 32) with 4294967296 in Hc.
  revert base. induction fuel as [|fuel IH]; intros base Hb Hfuel Hbelow; simpl; [lia|].
  pmm_consts. rewrite (u32_small (base + count)) by lia.
  destruct (Z.leb_spec (base + count) 65536) as [Hfit|Hfit].
  2:{ apply wp_ret. right. split_and!; [|done..]. intros b Hb1 Hb2. apply Hbelow. pmm_consts. lia. }
  apply wp_bind. eapply wp_mono.
  { apply run_length_wp; [done|lia|lia|pmm_consts; lia|intros i Hi; lia]. }
  intros run s' (-> & Hrun & Hfree & Hend). destruct (Z.eqb_spec run count) as [->|Hne].
  - apply wp_bind. eapply wp_mono; [apply claim_run_wp; [done|lia|lia|pmm_consts; lia|done]|].
    intros [] s' (Hinv' & Hupd & Hcnt). apply wp_ret. left. exists base.
    rewrite u32_small by lia. split_and!; try done; pmm_consts; lia.
  - rewrite (u32_small (base + run)), u32_small by lia.
    apply IH; [lia|lia|].
    intros b' Hb' Hrf. destruct (Z.le_gt_cases base b').
    + specialize (Hrf (base + run)). rewrite Hend in Hrf by lia.
      assert (true = false) by (apply Hrf; lia). done.
    + by apply (Hbelow b'); [lia|].
Qed.

(** ** Initialisation *)

Definition bytes (m : memory) : Prop := forall a, 0 <= m a < 256.

Lemma rd32_range m a : bytes m -> 0 <= rd32 m a < 4294967296.
Proof.
  intros Hm. unfold rd32.
  pose proof (Hm (u32 a)). pose proof (Hm (a +32 1)). pose proof (Hm (a +32 2)). pose proof (Hm (a +32 3)).
  lia.
Qed.

Lemma rd64_range m a : bytes m -> 0 <= rd64 m a.
Proof. intros Hm. unfold rd64. pose proof (rd32_range m a Hm). pose proof (rd32_range m (a +32 4) Hm). lia. Qed.

Definition align8 (a : Z) : Z := (a + 7) / 8 * 8.

(** The tag list from [p] is one a conforming loader builds: every tag up to
    the end tag is at least a header long and fits, and the entries of a
    memory map have a positive size. *)
Inductive tags_ok (m : memory) (end_ : Z) : Z -> Prop :=
| tags_done p : end_ < p + 8 -> tags_ok m end_ p
| tags_end p : rd32 m p = MB2_TAG_END -> tags_ok m end_ p
| tags_over p : end_ < p + rd32 m (p +32 4) < 2 ^ 32 -> tags_ok m end_ p
| tags_next p :
    8 <= rd32 m (p +32 4) -> p + rd32 m (p +32 4) <= end_ ->
    (rd32 m p = MB2_TAG_MMAP -> 0 < rd32 m (p +32 8) /\ end_ + 8 + rd32 m (p +32 8) < 2 ^ 32) ->
    tags_ok m end_ (align8 (p + rd32 m (p +32 4))) -> tags_ok m end_ p.

(** The memory map reachable from the tag at [p] has a usable region of [len]
    bytes at [base]. *)
Inductive usable (m : memory) : Z -> Z -> Z -> Prop :=
| usable_here p k q :
    rd32 m p = MB2_TAG_MMAP -> 0 <= k -> q = p + 16 + k * rd32 m (p +32 8) ->
    q + rd32 m (p +32 8) <= p + rd32 m (p +32 4) -> rd32 m (q +32 16) = 1 ->
    usable m p (rd64 m q) (rd64 m (q +32 8))
| usable_next p base len :
    usable m (align8 (p + rd32 m (p +32 4))) base len -> usable m p base len.

Section Init.
Context (m : memory) (Hm : bytes m).
Context (U : Z -> Prop).

(** Only frames in [U] are free. *)
Definition free_in (s : pmm) : Prop := forall i, is_frame i -> used s i = false -> U i.

Lemma free_in_mark_used s s' P : free_in s -> updated P true s s' -> (forall i, P i \/ ~ P i) -> free_in s'.
Proof.
  intros Hf [Hin Hout] Hdec i Hi Hu. destruct (Hdec i) as [HP|HP].
  - rewrite Hin in Hu by done. done.
  - apply Hf; [done|]. by rewrite <- Hout.
Qed.

Lemma in_range_dec phys size i : in_range phys size i \/ ~ in_range phys size i.
Proof. unfold in_range. lia. Qed.

Lemma mmap_entry_wp s q :
  pmm_inv s -> free_in s ->
  (rd32 m (q +32 16) = 1 -> forall i, in_range (rd64 m q) (rd64 m (q +32 8)) i -> U i) ->
  wp (mmap_entry m q) (fun _ s' => pmm_inv s' /\ free_in s') s.
Proof.
  intros Hinv Hf HU. unfold mmap_entry. cbv zeta.
  destruct (Z.eqb_spec (rd32 m (q +32 16)) 1) as [Ht|]; [|by apply wp_ret].
  specialize (HU Ht). pose proof (rd64_range m q Hm). pose proof (rd64_range m (q +32 8) Hm).
  destruct (Z.leb_spec PMM_MAX_BYTES (rd64 m q)); [by apply wp_ret|].
  set (use := if _ <? _ then _ else _).
  assert (0 <= use <= PMM_MAX_BYTES - rd64 m q /\ use <= rd64 m (q +32 8)) as Huse
    by (unfold use; destruct (Z.ltb_spec (rd64 m (q +32 8)) (PMM_MAX_BYTES - rd64 m q)); lia).
  clearbody use. change PMM_MAX_BYTES with 268435456 in *.
  destruct (use =? 0); [by apply wp_ret|]. rewrite !u32_small by lia.
  eapply wp_mono; [apply mark_range_wp; [done|lia|lia]|].
  intros [] s' [Hinv' [Hin Hout]]. split; [done|]. intros i Hi Hu.
  destruct (in_range_dec (rd64 m q) use i) as [Hr|Hr].
  - apply HU. unfold in_range in *. lia.
  - apply Hf; [done|]. by rewrite <- Hout.
Qed.

Lemma mmap_loop_wp fuel s q qe es :
  pmm_inv s -> free_in s -> 0 <= q <= qe + 8 -> 0 < es -> qe + 8 + es < 2 ^ 32 ->
  (0 < fuel)%nat -> qe - q < Z.of_nat fuel ->
  (forall k, 0 <= k -> q + k * es + es <= qe -> rd32 m (q + k * es +32 16) = 1 ->
     forall i, in_range (rd64 m (q + k * es)) (rd64 m (q + k * es +32 8)) i -> U i) ->
  wp (mmap_loop fuel m q qe es) (fun _ s' => pmm_inv s' /\ free_in s') s.
Proof.
  change (2 ^ 32) with 4294967296.
  revert s q. induction fuel as [|fuel IH]; intros s q Hinv Hf Hq Hes Hqe Hpos Hfuel HU; simpl; [lia|].
  rewrite (u32_small (q + es)) by lia.
  destruct (Z.leb_spec (q + es) qe) as [Hfit|]; [|by apply wp_ret].
  apply wp_bind. eapply wp_mono; [apply mmap_entry_wp; [done|done|]|].
  { intros Ht. specialize (HU 0). rewrite Z.mul_0_l, Z.add_0_r in HU. apply HU; [lia|lia|done]. }
  intros [] s' [Hinv' Hf']. apply IH; [done|done|lia|done|done|lia|lia|].
  intros k Hk. specialize (HU (k + 1)). replace (q + (k + 1) * es) with (q + es + k * es) in HU by lia.
  intros. eapply HU; [lia|lia|done|done].
Qed.

Lemma next_tag_align8 p size : 0 <= p -> 0 <= size -> p + size + 7 < 2 ^ 32 -> next_tag p size = align8 (p + size).
Proof.
  intros. change (2 ^ 32) with 4294967296 in *. unfold next_tag. rewrite !u32_small by (rewrite ?u32_small; lia).
  change 7 with (Z.ones 3) at 2. by rewrite land_not32_ones by lia.
Qed.

Lemma tag_loop_wp fuel s p end_ :
  pmm_inv s -> free_in s -> tags_ok m end_ p -> 0 <= p <= end_ + 8 -> end_ + 16 < 2 ^ 32 ->
  (0 < fuel)%nat -> end_ - p < Z.of_nat fuel ->
  (forall base len, usable m p base len -> forall i, in_range base len i -> U i) ->
  wp (tag_loop fuel m p end_) (fun _ s' => pmm_inv s' /\ free_in s') s.
Proof.
  change (2 ^ 32) with 4294967296.
  revert s p. induction fuel as [|fuel IH]; intros s p Hinv Hf Htags Hp Hend Hpos Hfuel HU; simpl; [lia|].
  destruct (Z.leb_spec (p +32 8) end_) as [Hfit|]; [|by apply wp_ret].
  rewrite (u32_small (p + 8)) in Hfit by lia.
  destruct (Z.eqb_spec (rd32 m p) MB2_TAG_END) as [|Hne]; [by apply wp_ret|].
  pose proof (rd32_range m (p +32 4) Hm).
  assert (rd32 m (p +32 4) + p < 4294967296) by (inversion Htags; subst; lia).
  rewrite (u32_small (p + rd32 m (p +32 4))) by lia.
  destruct (Z.ltb_spec end_ (p + rd32 m (p +32 4))) as [|Hover]; [by apply wp_ret|].
  inversion Htags as [| | |? Hsz _ Hmm Hrest]; subst; [lia|done|lia|].
  apply wp_bind. eapply wp_mono with (P := fun _ s' => pmm_inv s' /\ free_in s').
  - destruct (Z.eqb_spec (rd32 m p) MB2_TAG_MMAP) as [E|]; [|by apply wp_ret].
    destruct (Hmm E) as [Hes Hes']. rewrite (u32_small (p + 16)) by lia.
    apply (mmap_loop_wp (S fuel)); [done|done|lia|done|lia|lia|lia|].
    intros k Hk Hkfit Ht i Hi. eapply HU; [|exact Hi]. eapply usable_here; [done|exact Hk|done|lia|done].
  - intros [] s' [Hinv' Hf']. assert (p + rd32 m (p +32 4) <= align8 (p + rd32 m (p +32 4)) <= p + rd32 m (p +32 4) + 7)
      by (unfold align8; u_lia).
    rewrite next_tag_align8 by lia.
    apply IH; [done|done|done|lia|lia|lia|lia|]. intros base len Hus. apply HU. by apply usable_next.
Qed.
End Init.

Lemma page_down_eq a : 0 <= a < 2 ^ 32 -> page_down a = a / 4096 * 4096.
Proof. intros. unfold page_down. change 0xFFF with (Z.ones 12). by rewrite land_not32_ones by lia. Qed.

Lemma page_up_eq a : 0 <= a < 2 ^ 32 - 4096 -> page_up a = (a + 4095) / 4096 * 4096.
Proof.
  intros. unfold page_up. change (not32 0xFFF) with (not32 (Z.ones 12)).
  rewrite land_not32_ones by (u_lia || lia). by rewrite u32_small by lia.
Qed.

(** A reservation marks every frame that holds one of its bytes. *)
Lemma reserve_pages_wp phys size s :
  pmm_inv s -> 0 <= phys -> 0 <= size -> phys + size < 2 ^ 32 - 4096 ->
  wp (reserve_pages phys size) (fun _ s' => pmm_inv s' /\ updated (in_range phys size) true s s') s.
Proof.
  intros Hinv Hp Hs Hsum. change (2 ^ 32) with 4294967296 in *. unfold reserve_pages. cbv zeta.
  rewrite (u32_small (0xFFFFFFFF - phys)) by lia.
  destruct (Z.ltb_spec (0xFFFFFFFF - phys) size); [lia|].
  rewrite (u32_small (phys + size)) by lia. rewrite page_down_eq, page_up_eq by lia.
  assert (0 <= (phys + size + 4095) / 4096 * 4096 - phys / 4096 * 4096 < 4294967296) by u_lia.
  rewrite u32_small by done. eapply wp_mono; [apply mark_range_wp; [done|u_lia|u_lia]|].
  intros [] s' [Hinv' [Hin Hout]]. split; [done|].
  assert (forall i, in_range (phys / 4096 * 4096) ((phys + size + 4095) / 4096 * 4096 - phys / 4096 * 4096) i
                    <-> in_range phys size i) as Heq by (intros i; unfold in_range; pmm_consts; u_lia).
  split; intros i Hi Hr; [apply Hin|apply Hout]; try done; by rewrite Heq.
Qed.

(** What init needs of the linker: the kernel image is a proper range of low
    addresses that holds the boot stack. *)
Definition image_ok (lay : image) : Prop :=
  0 <= kernel_start lay < kernel_end lay /\ kernel_end lay < 2 ^ 32 - 8192 /\
  kernel_start lay <= stack_bottom lay /\ stack_top lay <= kernel_end lay /\
  0 <= bitmap_phys lay < 2 ^ 32 - 16384.

Lemma reserve_kernel_wp lay s :
  pmm_inv s -> image_ok lay ->
  wp (reserve_kernel lay)
     (fun _ s' => pmm_inv s' /\
        updated (in_range (kernel_start lay) (kernel_end lay - kernel_start lay)) true s s') s.
Proof.
  intros Hinv (H1 & H2 & H3 & H4 & _). change (2 ^ 32) with 4294967296 in *. unfold reserve_kernel. cbv zeta.
  rewrite page_down_eq, page_up_eq by lia.
  set (ks := kernel_start lay) in *. set (ke := kernel_end lay) in *.
  destruct (Z.ltb_spec (ks / 4096 * 4096) ((ke + 4095) / 4096 * 4096)); [|exfalso; u_lia].
  destruct (Z.ltb_spec (stack_bottom lay) (ks / 4096 * 4096)); [exfalso; u_lia|].
  destruct (Z.ltb_spec ((ke + 4095) / 4096 * 4096) (stack_top lay)); [exfalso; u_lia|]. simpl.
  apply wp_bind. rewrite u32_small by u_lia.
  eapply wp_mono; [apply mark_range_wp; [done|u_lia|u_lia]|].
  intros [] s' [Hinv' [Hin Hout]]. apply wp_ret. split; [done|].
  assert (forall i, in_range (ks / 4096 * 4096) ((ke + 4095) / 4096 * 4096 - ks / 4096 * 4096) i
                    <-> in_range ks (ke - ks) i) as Heq by (intros i; unfold in_range; pmm_consts; u_lia).
  split; intros i Hi Hr; [apply Hin|apply Hout]; try done; by rewrite Heq.
Qed.

Definition blank : pmm := mk_pmm (replicate (Z.to_nat BITMAP_BYTES) 0xFF) 0.

Lemma blank_used i : is_frame i -> used blank i = true.
Proof.
  intros Hi. destruct (frame_byte i Hi) as (? & ? & _). unfold used, blank. cbn [bitmap].
  rewrite lookup_replicate_2 by lia. cbn [default].
  change 0xFF with (Z.ones 8). apply Z.ones_spec_low. lia.
Qed.

Lemma nfree_all_used s : (forall i, is_frame i -> used s i = true) -> nfree s = 0.
Proof.
  intros H. unfold nfree. rewrite (cnt_ext _ (fun _ => false)); [apply cnt_false|].
  intros i Hi. rewrite H; [done|]. unfold is_frame. lia.
Qed.

Lemma mk_pmm_inv bm :
  length bm = Z.to_nat BITMAP_BYTES -> Forall (fun b => 0 <= b < 256) bm ->
  (forall i, is_frame i -> used (mk_pmm bm 0) i = true) -> pmm_inv (mk_pmm bm 0).
Proof. intros H1 H2 H3. split; [done|]. by rewrite (nfree_all_used _ H3). Qed.

Lemma blank_inv : pmm_inv blank.
Proof.
  apply mk_pmm_inv; [apply length_replicate| |exact blank_used].
  apply Forall_replicate. lia.
Qed.

(** A pool with the eight frames at 1 MiB free, as [pmm_mark_free] leaves it. *)
Definition eight_free : pmm := mk_pmm (<[32%nat := 0]> (replicate (Z.to_nat BITMAP_BYTES) 0xFF)) 8.

Lemma eight_free_run : pmm_mark_free 0x100000 0x8000 blank = Ok (tt, eight_free).
Proof. vm_compute. reflexivity. Qed.

Lemma eight_free_inv : pmm_inv eight_free.
Proof.
  apply (wp_result (pmm_mark_free 0x100000 0x8000) _ blank tt eight_free
           (mark_range_wp 0x100000 0x8000 false blank blank_inv ltac:(lia) ltac:(lia)) eight_free_run).
Qed.

(** * Theorems *)

(** C8. Single-frame allocation.  From any pool that satisfies the invariant,
    [pmm_alloc] returns the address of the lowest free frame at or above
    1 MiB, marks that frame and no other as used and takes one off the free
    counter; it returns 0, and changes nothing, exactly when there is none.
    [pmm_alloc_low] promises the same over the first 32 MiB. *)
Theorem pmm_alloc_spec s :
  pmm_inv s ->
  (exists r s', pmm_alloc s = Ok (r, s') /\ alloc_post PMM_MAX_FRAMES s r s') /\
  (exists r s', pmm_alloc_low s = Ok (r, s') /\ alloc_post PMM_LOW_FRAMES s r s').
Proof. intros H. split; apply wp_elim; [by apply pmm_alloc_wp|by apply pmm_alloc_low_wp]. Qed.

Lemma pmm_alloc_spec_witness :
  exists r s', pmm_alloc eight_free = Ok (r, s') /\ r = 0x100000 /\ alloc_post PMM_MAX_FRAMES eight_free r s'.
Proof.
  destruct (proj1 (pmm_alloc_spec eight_free eight_free_inv)) as (r & s' & E & Hpost).
  exists r, s'. split_and!; [done| |done]. vm_compute in E. congruence.
Defined.



(** C27. Freeing.  [pmm_free] releases exactly the frame named by a
    page-aligned address of a used frame at or above 1 MiB; a null, misaligned,
    reserved or out-of-range address and a second free of a frame leave the
    pool as it was.  It keeps the counter equal to the number of clear bits. *)
Theorem pmm_free_spec s phys :
  pmm_inv s -> 0 <= phys < 2 ^ 32 ->
  exists s', pmm_free phys s = Ok (tt, s') /\
    if freeable s phys
    then pmm_inv s' /\ updated (eq (phys / PMM_PAGE_SIZE)) false s s' /\
         frames_free s' = frames_free s + 1
    else s' = s.
Proof. intros H1 H2. exact (wp_elim_unit _ _ _ (pmm_free_wp s phys H1 H2)). Qed.

Lemma pmm_free_spec_witness :
  exists s', pmm_free 0x200000 eight_free = Ok (tt, s') /\
    if freeable eight_free 0x200000
    then pmm_inv s' /\ updated (eq (0x200000 / PMM_PAGE_SIZE)) false eight_free s' /\
         frames_free s' = frames_free eight_free + 1
    else s' = eight_free.
Proof. apply (pmm_free_spec eight_free 0x200000 eight_free_inv). lia. Defined.

(** Marking a range.  For every 32-bit address and size, those whose sum
    overflows 32 bits included, [mark_range] sets exactly the managed frames
    from the one that holds [phys] up to the last that starts below
    [phys + size], and keeps the counter equal to the number of clear bits. *)
Theorem mark_range_spec phys size b s :
  pmm_inv s -> 0 <= phys < 2 ^ 32 -> 0 <= size < 2 ^ 32 ->
  exists s', mark_range phys size b s = Ok (tt, s') /\ pmm_inv s' /\
             updated (in_range phys size) b s s'.
Proof. intros H1 H2 H3. exact (wp_elim_unit _ _ _ (mark_range_wp phys size b s H1 H2 H3)). Qed.

Lemma mark_range_spec_witness :
  exists s', mark_range 0x0FFFF000 0xFFFFFFFF false blank = Ok (tt, s') /\ pmm_inv s' /\
             updated (in_range 0x0FFFF000 0xFFFFFFFF) false blank s'.
Proof. apply (mark_range_spec _ _ _ _ blank_inv); lia. Defined.

(** Allocation and free are inverse: freeing the frame an allocation
    returned gives back a pool with the same used frames and the same count. *)
Theorem pmm_alloc_free_roundtrip s r s' :
  pmm_inv s -> pmm_alloc s = Ok (r, s') -> r <> 0 ->
  exists s'', pmm_free r s' = Ok (tt, s'') /\ pmm_inv s'' /\
    (forall i, is_frame i -> used s'' i = used s i) /\ frames_free s'' = frames_free s.
Proof.
  intros Hinv E Hr. pose proof (wp_result _ _ _ _ _ (pmm_alloc_wp s Hinv) E) as Hw.
  destruct Hw as [(i & (Hi & Hu & _) & -> & Hinv' & [Hin Hout] & Hcnt)|(_ & -> & _)]; [|done].
  assert (i * PMM_PAGE_SIZE / PMM_PAGE_SIZE = i) as Hdiv by (by apply Z.div_mul).
  assert (0 <= i * PMM_PAGE_SIZE < 2 ^ 32) as Hrange by (pmm_consts; lia).
  destruct (wp_elim_unit _ _ _ (pmm_free_wp s' (i * PMM_PAGE_SIZE) Hinv' Hrange)) as (s'' & E' & Hpost).
  assert (freeable s' (i * PMM_PAGE_SIZE) = true) as Hf.
  { unfold freeable. rewrite Hdiv, Z.mod_mul by done. rewrite Hin; [|pmm_consts; lia|done].
    pmm_consts. destruct (Z.leb_spec 1048576 (i * 4096)), (Z.ltb_spec i 65536); simpl; lia. }
  rewrite Hf, Hdiv in Hpost. destruct Hpost as (Hinv'' & [Hin' Hout'] & Hcnt').
  exists s''. split_and!; [done|done| |lia]. intros j Hj. destruct (Z.eq_dec i j) as [<-|Hne].
  - by rewrite Hin', Hu.
  - by rewrite Hout', Hout.
Qed.

Lemma pmm_alloc_free_roundtrip_witness :
  exists s'', pmm_free 0x100000 (mk_pmm (<[32%nat := 1]> (replicate (Z.to_nat BITMAP_BYTES) 0xFF)) 7) = Ok (tt, s'') /\
    pmm_inv s'' /\ (forall i, is_frame i -> used s'' i = used eight_free i) /\
    frames_free s'' = frames_free eight_free.
Proof.
  apply (pmm_alloc_free_roundtrip eight_free 0x100000); [exact eight_free_inv| |lia].
  vm_compute. reflexivity.
Defined.

(** C21. Initialisation.  Given a memory map as a conforming loader builds it
    and fuel for one round per byte of it, [pmm_init_from_mb2] comes to an end
    without a fault, establishes the invariant whatever the pool held before,
    leaves used every frame with a byte of the low 1 MiB, the kernel image, the
    PMM bitmap or the Multiboot structure, and leaves free only frames that a
    usable region of the map touches. *)
Theorem pmm_init_spec fuel lay m info s :
  bytes m -> image_ok lay -> 0 <= info -> info + rd32 m info < 2 ^ 32 - 4096 ->
  tags_ok m (info + rd32 m info) (info + 8) -> rd32 m info < Z.of_nat fuel ->
  exists s', pmm_init_from_mb2 fuel lay m info s = Ok (tt, s') /\ pmm_inv s' /\
    (forall i, is_frame i ->
       in_range 0 0x100000 i \/
       in_range (kernel_start lay) (kernel_end lay - kernel_start lay) i \/
       in_range (bitmap_phys lay) BITMAP_BYTES i \/ in_range info (rd32 m info) i ->
       used s' i = true) /\
    (forall i, is_frame i -> used s' i = false ->
       exists base len, usable m (info + 8) base len /\ in_range base len i).
Proof.
  intros Hm Hlay Hinfo Hsum Htags Hfuel. pose proof (rd32_range m info Hm).
  change (2 ^ 32) with 4294967296 in *.
  set (U := fun i => exists base len, usable m (info + 8) base len /\ in_range base len i).
  apply (wp_elim_unit (pmm_init_from_mb2 fuel lay m info) (fun _ s' => pmm_inv s' /\ _ /\ _)).
  unfold pmm_init_from_mb2. apply wp_bind, wp_modify. cbv zeta. rewrite !u32_small by lia. fold blank. apply wp_bind.
  eapply wp_mono; [apply (tag_loop_wp m Hm U); [exact blank_inv| |done|lia|lia|lia|lia|unfold U; eauto]|].
  { intros i Hi Hu. by rewrite blank_used in Hu. }
  intros [] s1 [Hinv1 Hf1]. apply wp_bind.
  eapply wp_mono; [apply mark_range_wp; [done|lia|lia]|]. intros [] s2 [Hinv2 Hu2]. apply wp_bind.
  eapply wp_mono; [by apply reserve_kernel_wp|]. intros [] s3 [Hinv3 Hu3]. apply wp_bind.
  destruct Hlay as (? & ? & ? & ? & ?). change (2 ^ 32) with 4294967296 in *.
  eapply wp_mono; [apply reserve_pages_wp; [done|lia|done|change BITMAP_BYTES with 8192; lia]|].
  intros [] s4 [Hinv4 Hu4].
  eapply wp_mono; [apply reserve_pages_wp; [done|lia|lia|lia]|]. intros [] s5 [Hinv5 Hu5].
  split; [done|]. split.
  - intros i Hi Hr.
    assert (forall phys size (a b : pmm), updated (in_range phys size) true a b ->
              used a i = true \/ in_range phys size i -> used b i = true) as Hstep.
    { intros phys size a b [Hin Hout] Hor. destruct (in_range_dec phys size i); [by apply Hin|].
      rewrite Hout by done. by destruct Hor. }
    eapply Hstep; [exact Hu5|]. destruct Hr as [Hr|[Hr|[Hr|Hr]]]; [left..|by right];
      (eapply Hstep; [exact Hu4|]); [left|left|by right];
      (eapply Hstep; [exact Hu3|]); [left|by right].
    eapply Hstep; [exact Hu2|by right].
  - intros i Hi Hu.
    assert (free_in U s5) as Hf5; [|by apply Hf5].
    do 4 (eapply free_in_mark_used; [|eassumption|apply in_range_dec]). done.
Qed.

(** A boot image and a Multiboot2 structure at 0x9000 with one memory-map tag
    (one usable region, 1 MiB at 2 MiB) and the end tag. *)
Definition demo_image : image := mk_image 0x100000 0x180000 0x150000 0x160000 0x120000.
Definition demo_info : list Z :=
  [56; 0; 0; 0;  0; 0; 0; 0;
   6; 0; 0; 0;  40; 0; 0; 0;  24; 0; 0; 0;  0; 0; 0; 0;
   0; 0; 0x20; 0;  0; 0; 0; 0;  0; 0; 0x10; 0;  0; 0; 0; 0;  1; 0; 0; 0;  0; 0; 0; 0;
   0; 0; 0; 0;  8; 0; 0; 0].
Definition demo_memory : memory := fun a => if a <? 0x9000 then 0 else nth (Z.to_nat (a - 0x9000)) demo_info 0.

Lemma demo_bytes : bytes demo_memory.
Proof.
  intros a. unfold demo_memory. destruct (a <? 0x9000); [lia|].
  assert (Forall (fun b => 0 <= b < 256) demo_info) as Hall
    by (unfold demo_info; repeat (apply Forall_cons_2; [lia|]); apply Forall_nil_2).
  destruct (nth_in_or_default (Z.to_nat (a - 0x9000)) demo_info 0) as [Hin| ->]; [|lia].
  rewrite List.Forall_forall in Hall. by apply Hall.
Qed.

Lemma demo_tags : tags_ok demo_memory 0x9038 0x9008.
Proof. apply tags_next; [done|done|done|]. by apply tags_end. Qed.

Lemma pmm_init_spec_witness :
  exists s', pmm_init_from_mb2 57 demo_image demo_memory 0x9000 blank = Ok (tt, s') /\ pmm_inv s' /\
    (forall i, is_frame i ->
       in_range 0 0x100000 i \/ in_range 0x100000 0x80000 i \/
       in_range 0x120000 BITMAP_BYTES i \/ in_range 0x9000 56 i -> used s' i = true) /\
    (forall i, is_frame i -> used s' i = false ->
       exists base len, usable demo_memory 0x9008 base len /\ in_range base len i).
Proof.
  apply (pmm_init_spec 57 demo_image demo_memory 0x9000 blank demo_bytes);
    [unfold image_ok, demo_image; simpl; lia|done|done|exact demo_tags|done].
Defined.

End Pmm.
