(* ===== verification/Task.v ===== *)
(** The task table (src/process.c, src/process.h): task slots, their
    allocation and recycling, lookup by pid and generation, descriptor tables,
    and the state the scheduler keeps beside them.

    A [task_t*] is [None] for NULL and [Some i] for [&tasks\[i\]].  Of the
    fields of [task_t] the model keeps those the modelled code reads or writes;
    the register context, the address space, the streams and the EDR records of
    a task are left out. *)
From Stdlib Require Import ZArith Lia List Bool String.
From stdpp Require Import base tactics numbers list gmap.
From S2P Require Import Prelude.
Open Scope Z_scope.

Module Task.

Definition MAX_TASKS : Z := 32.

Inductive task_state :=
| TASK_STATE_READY
| TASK_STATE_RUNNING
| TASK_STATE_BLOCKED
| TASK_STATE_SLEEPING
| TASK_STATE_ZOMBIE
| TASK_STATE_TERMINATED.

#[export] Instance task_state_eq_dec : EqDecision task_state.
Proof. solve_decision. Defined.

Record task := mk_task {
  pid : Z;
  generation : Z;
  state : task_state;
  is_kernel_task : bool;
  uid : Z;
  gid : Z;
  euid : Z;
  egid : Z;
  capabilities : Z;
  session_id : Z;
  time_slice : Z;
  ticks_remaining : Z;
  total_ticks : Z;
  priority : Z;
  base_time_slice : Z;
  wake_tick : Z;
  exit_status : Z;
  blocked_on_wq : option nat;
  has_run_before : bool;
  fdtable : list Z;
  next : option nat;
  saved_int_depth : Z;
  saved_crit_depth : Z }.

Definition set_pid (v : Z) (t : task) : task :=
  mk_task v (generation t) (state t) (is_kernel_task t) (uid t) (gid t) (euid t) (egid t)
    (capabilities t) (session_id t) (time_slice t) (ticks_remaining t) (total_ticks t)
    (priority t) (base_time_slice t) (wake_tick t) (exit_status t) (blocked_on_wq t)
    (has_run_before t) (fdtable t) (next t) (saved_int_depth t) (saved_crit_depth t).
Definition set_generation (v : Z) (t : task) : task :=
  mk_task (pid t) v (state t) (is_kernel_task t) (uid t) (gid t) (euid t) (egid t)
    (capabilities t) (session_id t) (time_slice t) (ticks_remaining t) (total_ticks t)
    (priority t) (base_time_slice t) (wake_tick t) (exit_status t) (blocked_on_wq t)
    (has_run_before t) (fdtable t) (next t) (saved_int_depth t) (saved_crit_depth t).
Definition set_state (v : task_state) (t : task) : task :=
  mk_task (pid t) (generation t) v (is_kernel_task t) (uid t) (gid t) (euid t) (egid t)
    (capabilities t) (session_id t) (time_slice t) (ticks_remaining t) (total_ticks t)
    (priority t) (base_time_slice t) (wake_tick t) (exit_status t) (blocked_on_wq t)
    (has_run_before t) (fdtable t) (next t) (saved_int_depth t) (saved_crit_depth t).
Definition set_capabilities (v : Z) (t : task) : task :=
  mk_task (pid t) (generation t) (state t) (is_kernel_task t) (uid t) (gid t) (euid t) (egid t)
    v (session_id t) (time_slice t) (ticks_remaining t) (total_ticks t) (priority t)
    (base_time_slice t) (wake_tick t) (exit_status t) (blocked_on_wq t) (has_run_before t)
    (fdtable t) (next t) (saved_int_depth t) (saved_crit_depth t).
Definition set_time_slice (v : Z) (t : task) : task :=
  mk_task (pid t) (generation t) (state t) (is_kernel_task t) (uid t) (gid t) (euid t) (egid t)
    (capabilities t) (session_id t) v (ticks_remaining t) (total_ticks t) (priority t)
    (base_time_slice t) (wake_tick t) (exit_status t) (blocked_on_wq t) (has_run_before t)
    (fdtable t) (next t) (saved_int_depth t) (saved_crit_depth t).
Definition set_ticks_remaining (v : Z) (t : task) : task :=
  mk_task (pid t) (generation t) (state t) (is_kernel_task t) (uid t) (gid t) (euid t) (egid t)
    (capabilities t) (session_id t) (time_slice t) v (total_ticks t) (priority t)
    (base_time_slice t) (wake_tick t) (exit_status t) (blocked_on_wq t) (has_run_before t)
    (fdtable t) (next t) (saved_int_depth t) (saved_crit_depth t).
Definition set_total_ticks (v : Z) (t : task) : task :=
  mk_task (pid t) (generation t) (state t) (is_kernel_task t) (uid t) (gid t) (euid t) (egid t)
    (capabilities t) (session_id t) (time_slice t) (ticks_remaining t) v (priority t)
    (base_time_slice t) (wake_tick t) (exit_status t) (blocked_on_wq t) (has_run_before t)
    (fdtable t) (next t) (saved_int_depth t) (saved_crit_depth t).
Definition set_priority (v : Z) (t : task) : task :=
  mk_task (pid t) (generation t) (state t) (is_kernel_task t) (uid t) (gid t) (euid t) (egid t)
    (capabilities t) (session_id t) (time_slice t) (ticks_remaining t) (total_ticks t) v
    (base_time_slice t) (wake_tick t) (exit_status t) (blocked_on_wq t) (has_run_before t)
    (fdtable t) (next t) (saved_int_depth t) (saved_crit_depth t).
Definition set_wake_tick (v : Z) (t : task) : task :=
  mk_task (pid t) (generation t) (state t) (is_kernel_task t) (uid t) (gid t) (euid t) (egid t)
    (capabilities t) (session_id t) (time_slice t) (ticks_remaining t) (total_ticks t)
    (priority t) (base_time_slice t) v (exit_status t) (blocked_on_wq t) (has_run_before t)
    (fdtable t) (next t) (saved_int_depth t) (saved_crit_depth t).
Definition set_blocked_on_wq (v : option nat) (t : task) : task :=
  mk_task (pid t) (generation t) (state t) (is_kernel_task t) (uid t) (gid t) (euid t) (egid t)
    (capabilities t) (session_id t) (time_slice t) (ticks_remaining t) (total_ticks t)
    (priority t) (base_time_slice t) (wake_tick t) (exit_status t) v (has_run_before t)
    (fdtable t) (next t) (saved_int_depth t) (saved_crit_depth t).
Definition set_has_run_before (v : bool) (t : task) : task :=
  mk_task (pid t) (generation t) (state t) (is_kernel_task t) (uid t) (gid t) (euid t) (egid t)
    (capabilities t) (session_id t) (time_slice t) (ticks_remaining t) (total_ticks t)
    (priority t) (base_time_slice t) (wake_tick t) (exit_status t) (blocked_on_wq t) v
    (fdtable t) (next t) (saved_int_depth t) (saved_crit_depth t).
Definition set_fdtable (v : list Z) (t : task) : task :=
  mk_task (pid t) (generation t) (state t) (is_kernel_task t) (uid t) (gid t) (euid t) (egid t)
    (capabilities t) (session_id t) (time_slice t) (ticks_remaining t) (total_ticks t)
    (priority t) (base_time_slice t) (wake_tick t) (exit_status t) (blocked_on_wq t)
    (has_run_before t) v (next t) (saved_int_depth t) (saved_crit_depth t).
Definition set_next (v : option nat) (t : task) : task :=
  mk_task (pid t) (generation t) (state t) (is_kernel_task t) (uid t) (gid t) (euid t) (egid t)
    (capabilities t) (session_id t) (time_slice t) (ticks_remaining t) (total_ticks t)
    (priority t) (base_time_slice t) (wake_tick t) (exit_status t) (blocked_on_wq t)
    (has_run_before t) (fdtable t) v (saved_int_depth t) (saved_crit_depth t).
Definition set_saved_int_depth (v : Z) (t : task) : task :=
  mk_task (pid t) (generation t) (state t) (is_kernel_task t) (uid t) (gid t) (euid t) (egid t)
    (capabilities t) (session_id t) (time_slice t) (ticks_remaining t) (total_ticks t)
    (priority t) (base_time_slice t) (wake_tick t) (exit_status t) (blocked_on_wq t)
    (has_run_before t) (fdtable t) (next t) v (saved_crit_depth t).
Definition set_saved_crit_depth (v : Z) (t : task) : task :=
  mk_task (pid t) (generation t) (state t) (is_kernel_task t) (uid t) (gid t) (euid t) (egid t)
    (capabilities t) (session_id t) (time_slice t) (ticks_remaining t) (total_ticks t)
    (priority t) (base_time_slice t) (wake_tick t) (exit_status t) (blocked_on_wq t)
    (has_run_before t) (fdtable t) (next t) (saved_int_depth t) v.

(** The globals of process.c and scheduler.c. *)
Record sched := mk_sched {
  tasks : list task;
  slot_generations : list Z;
  free_slot_bitmap : Z;
  rate_tokens : Z;
  rate_last_refill : Z;
  head : option nat;
  tail : option nat;
  current : option nat;
  switches : Z;
  enabled : bool;
  fpu_owner : option nat;
  cleanup_queue : list (option nat);
  cq_head : Z;
  cq_tail : Z;
  cq_count : Z;
  int_depth : Z;
  crit_depth : Z }.

Definition put_tasks (v : list task) (s : sched) : sched :=
  mk_sched v (slot_generations s) (free_slot_bitmap s) (rate_tokens s) (rate_last_refill s)
    (head s) (tail s) (current s) (switches s) (enabled s) (fpu_owner s) (cleanup_queue s)
    (cq_head s) (cq_tail s) (cq_count s) (int_depth s) (crit_depth s).
Definition put_slot_generations (v : list Z) (s : sched) : sched :=
  mk_sched (tasks s) v (free_slot_bitmap s) (rate_tokens s) (rate_last_refill s) (head s)
    (tail s) (current s) (switches s) (enabled s) (fpu_owner s) (cleanup_queue s) (cq_head s)
    (cq_tail s) (cq_count s) (int_depth s) (crit_depth s).
Definition put_free_slot_bitmap (v : Z) (s : sched) : sched :=
  mk_sched (tasks s) (slot_generations s) v (rate_tokens s) (rate_last_refill s) (head s)
    (tail s) (current s) (switches s) (enabled s) (fpu_owner s) (cleanup_queue s) (cq_head s)
    (cq_tail s) (cq_count s) (int_depth s) (crit_depth s).
Definition put_rate_tokens (v : Z) (s : sched) : sched :=
  mk_sched (tasks s) (slot_generations s) (free_slot_bitmap s) v (rate_last_refill s) (head s)
    (tail s) (current s) (switches s) (enabled s) (fpu_owner s) (cleanup_queue s) (cq_head s)
    (cq_tail s) (cq_count s) (int_depth s) (crit_depth s).
Definition put_rate_last_refill (v : Z) (s : sched) : sched :=
  mk_sched (tasks s) (slot_generations s) (free_slot_bitmap s) (rate_tokens s) v (head s)
    (tail s) (current s) (switches s) (enabled s) (fpu_owner s) (cleanup_queue s) (cq_head s)
    (cq_tail s) (cq_count s) (int_depth s) (crit_depth s).
Definition put_head (v : option nat) (s : sched) : sched :=
  mk_sched (tasks s) (slot_generations s) (free_slot_bitmap s) (rate_tokens s)
    (rate_last_refill s) v (tail s) (current s) (switches s) (enabled s) (fpu_owner s)
    (cleanup_queue s) (cq_head s) (cq_tail s) (cq_count s) (int_depth s) (crit_depth s).
Definition put_tail (v : option nat) (s : sched) : sched :=
  mk_sched (tasks s) (slot_generations s) (free_slot_bitmap s) (rate_tokens s)
    (rate_last_refill s) (head s) v (current s) (switches s) (enabled s) (fpu_owner s)
    (cleanup_queue s) (cq_head s) (cq_tail s) (cq_count s) (int_depth s) (crit_depth s).
Definition put_current (v : option nat) (s : sched) : sched :=
  mk_sched (tasks s) (slot_generations s) (free_slot_bitmap s) (rate_tokens s)
    (rate_last_refill s) (head s) (tail s) v (switches s) (enabled s) (fpu_owner s)
    (cleanup_queue s) (cq_head s) (cq_tail s) (cq_count s) (int_depth s) (crit_depth s).
Definition put_switches (v : Z) (s : sched) : sched :=
  mk_sched (tasks s) (slot_generations s) (free_slot_bitmap s) (rate_tokens s)
    (rate_last_refill s) (head s) (tail s) (current s) v (enabled s) (fpu_owner s)
    (cleanup_queue s) (cq_head s) (cq_tail s) (cq_count s) (int_depth s) (crit_depth s).
Definition put_enabled (v : bool) (s : sched) : sched :=
  mk_sched (tasks s) (slot_generations s) (free_slot_bitmap s) (rate_tokens s)
    (rate_last_refill s) (head s) (tail s) (current s) (switches s) v (fpu_owner s)
    (cleanup_queue s) (cq_head s) (cq_tail s) (cq_count s) (int_depth s) (crit_depth s).
Definition put_fpu_owner (v : option nat) (s : sched) : sched :=
  mk_sched (tasks s) (slot_generations s) (free_slot_bitmap s) (rate_tokens s)
    (rate_last_refill s) (head s) (tail s) (current s) (switches s) (enabled s) v
    (cleanup_queue s) (cq_head s) (cq_tail s) (cq_count s) (int_depth s) (crit_depth s).
Definition put_cleanup_queue (v : list (option nat)) (s : sched) : sched :=
  mk_sched (tasks s) (slot_generations s) (free_slot_bitmap s) (rate_tokens s)
    (rate_last_refill s) (head s) (tail s) (current s) (switches s) (enabled s) (fpu_owner s) v
    (cq_head s) (cq_tail s) (cq_count s) (int_depth s) (crit_depth s).
Definition put_cq_head (v : Z) (s : sched) : sched :=
  mk_sched (tasks s) (slot_generations s) (free_slot_bitmap s) (rate_tokens s)
    (rate_last_refill s) (head s) (tail s) (current s) (switches s) (enabled s) (fpu_owner s)
    (cleanup_queue s) v (cq_tail s) (cq_count s) (int_depth s) (crit_depth s).
Definition put_cq_tail (v : Z) (s : sched) : sched :=
  mk_sched (tasks s) (slot_generations s) (free_slot_bitmap s) (rate_tokens s)
    (rate_last_refill s) (head s) (tail s) (current s) (switches s) (enabled s) (fpu_owner s)
    (cleanup_queue s) (cq_head s) v (cq_count s) (int_depth s) (crit_depth s).
Definition put_cq_count (v : Z) (s : sched) : sched :=
  mk_sched (tasks s) (slot_generations s) (free_slot_bitmap s) (rate_tokens s)
    (rate_last_refill s) (head s) (tail s) (current s) (switches s) (enabled s) (fpu_owner s)
    (cleanup_queue s) (cq_head s) (cq_tail s) v (int_depth s) (crit_depth s).
Definition put_int_depth (v : Z) (s : sched) : sched :=
  mk_sched (tasks s) (slot_generations s) (free_slot_bitmap s) (rate_tokens s)
    (rate_last_refill s) (head s) (tail s) (current s) (switches s) (enabled s) (fpu_owner s)
    (cleanup_queue s) (cq_head s) (cq_tail s) (cq_count s) v (crit_depth s).
Definition put_crit_depth (v : Z) (s : sched) : sched :=
  mk_sched (tasks s) (slot_generations s) (free_slot_bitmap s) (rate_tokens s)
    (rate_last_refill s) (head s) (tail s) (current s) (switches s) (enabled s) (fpu_owner s)
    (cleanup_queue s) (cq_head s) (cq_tail s) (cq_count s) (int_depth s) v.

(** * Access through a task pointer *)

Definition tget (p : option nat) : M sched task :=
  match p with
  | None => fail NullDeref
  | Some i => ts <- gets tasks ;; lift (aget ts (Z.of_nat i))
  end.

Definition tupd (p : option nat) (f : task -> task) : M sched unit :=
  _ <- tget p ;;
  match p with
  | None => fail NullDeref
  | Some i => modify (fun s => put_tasks (alter f i (tasks s)) s)
  end.

Definition ptr_eqb (p q : option nat) : bool := bool_decide (p = q).

(** * Lookup (process.c:1929-1983, 2054-2061, 2435-2472) *)

Definition terminated (t : task) : bool := bool_decide (state t = TASK_STATE_TERMINATED).

(** First slot whose task satisfies [f]: the lookup loops return on a match. *)
Fixpoint find_slot (f : task -> bool) (ts : list task) (i : nat) : option nat :=
  match ts with
  | [] => None
  | t :: ts' => if f t then Some i else find_slot f ts' (S i)
  end.

Definition task_get (p : Z) (s : sched) : option nat :=
  find_slot (fun t => (pid t =? p) && negb (terminated t)) (tasks s) 0.

Definition task_get_any (p : Z) (s : sched) : option nat :=
  if p =? 0 then None else find_slot (fun t => pid t =? p) (tasks s) 0.

Definition task_get_validated (p gen : Z) (s : sched) : option nat :=
  find_slot (fun t => (pid t =? p) && (generation t =? gen) && negb (terminated t)) (tasks s) 0.

Definition task_get_handle (p : option nat) : M sched (Z * Z) :=
  match p with
  | None => ret (0, 0)
  | Some _ => t <- tget p ;; ret (pid t, generation t)
  end.

Definition task_slot_is_live (p : option nat) (s : sched) : bool :=
  match p with
  | None => false
  | Some i => match tasks s !! i, slot_generations s !! i with
              | Some t, Some g => negb (pid t =? 0) && (generation t =? g)
              | _, _ => false
              end
  end.

(** Slots of the active tasks, in slot order. *)
Fixpoint active_slots (ts : list task) (i : nat) : list nat :=
  match ts with
  | [] => []
  | t :: ts' => (if negb (pid t =? 0) && negb (terminated t) then [i] else [])
                ++ active_slots ts' (S i)
  end.

Definition task_get_all (max_tasks : nat) (s : sched) : list nat :=
  take max_tasks (active_slots (tasks s) 0).

Definition task_get_slot (slot : Z) (s : sched) : option nat :=
  if (slot <? 0) || (MAX_TASKS <=? slot) then None
  else match tasks s !! Z.to_nat slot with
       | Some t => if (pid t =? 0) || terminated t then None else Some (Z.to_nat slot)
       | None => None
       end.

(** * Limits (process.c:148-293) *)

Fixpoint count_tasks (f : task -> bool) (ts : list task) : Z :=
  match ts with
  | [] => 0
  | t :: ts' => (if f t then 1 else 0) + count_tasks f ts'
  end.

Definition task_count_live_for_uid (u : Z) (s : sched) : Z :=
  count_tasks (fun t => negb (pid t =? 0) && negb (terminated t) && (uid t =? u)) (tasks s).

Definition task_count_free_slots (s : sched) : Z :=
  count_tasks (fun t => (pid t =? 0) || terminated t) (tasks s).

Definition task_visible_to_current (p : option nat) : M sched bool :=
  match p with
  | None => ret false
  | Some _ =>
      cur <- gets current ;;
      match cur with
      | None => ret true
      | Some _ => self <- tget cur ;;
                  if euid self =? 0 then ret true
                  else t <- tget p ;; ret (uid t =? uid self)
      end
  end.

Definition TASK_RATE_LIMIT_TOKENS : Z := 10.
Definition TASK_RATE_LIMIT_REFILL_PER_SEC : Z := 5.
Definition TASK_RATE_LIMIT_REFILL_INTERVAL : Z := 100.
Definition TASK_RATE_LIMIT_BOOT_GRACE_TICKS : Z := 500.

(** [now] is the value of [pit_get_ticks()]. *)
Definition task_rate_limit_check (now : Z) : M sched bool :=
  if now <? TASK_RATE_LIMIT_BOOT_GRACE_TICKS then ret true
  else
    last <- gets rate_last_refill ;;
    let since := now -32 last in
    (if TASK_RATE_LIMIT_REFILL_INTERVAL <=? since then
       let periods := since / TASK_RATE_LIMIT_REFILL_INTERVAL in
       let to_add := periods *32 TASK_RATE_LIMIT_REFILL_PER_SEC in
       n <- gets rate_tokens ;;
       let n1 := n +32 to_add in
       modify (put_rate_tokens (if TASK_RATE_LIMIT_TOKENS <? n1 then TASK_RATE_LIMIT_TOKENS else n1)) ;;;
       modify (put_rate_last_refill (last +32 (periods *32 TASK_RATE_LIMIT_REFILL_INTERVAL)))
     else ret tt) ;;;
    n <- gets rate_tokens ;;
    if 0 <? n then modify (put_rate_tokens (n -32 1)) ;;; ret true
    else ret false.

(** * Slots and pids (process.c:299-574) *)

(** [memset(task, 0, sizeof)]: state 0 is [TASK_STATE_READY]. *)
Definition zero_task : task :=
  mk_task 0 0 TASK_STATE_READY false 0 0 0 0 0 0 0 0 0 0 0 0 0 None false
    (replicate 16 0) None 0 0.

Definition process_init : M sched unit :=
  modify (put_tasks (replicate 32 (set_state TASK_STATE_TERMINATED zero_task))).

(** Is [p] the pid of a task that is not terminated? *)
Definition pid_in_use (ts : list task) (p : Z) : bool :=
  existsb (fun t => (pid t =? p) && negb (terminated t)) ts.

Fixpoint pid_sequential (n : nat) (p : Z) (ts : list task) : Z :=
  match n with
  | O => p
  | S n' => if pid_in_use ts p then pid_sequential n' (p + 1) ts else p
  end.

(** [rand k] is the 16-bit value the CSPRNG gives at attempt [k]. *)
Fixpoint pid_random (attempts k : nat) (rand : nat -> Z) (ts : list task) : Z :=
  match attempts with
  | O => pid_sequential (Z.to_nat (65536 - 100)) 100 ts
  | S n => let p := 100 + rand k mod 65436 in
           if pid_in_use ts p then pid_random n (S k) rand ts else p
  end.

Definition task_alloc_pid (rand : nat -> Z) (s : sched) : Z := pid_random 1000 0 rand (tasks s).

Definition atomic_test_and_clear_bit (bit : Z) : M sched bool :=
  b <- gets free_slot_bitmap ;;
  modify (put_free_slot_bitmap (Z.clearbit b bit)) ;;; ret (Z.testbit b bit).

Definition atomic_set_bit (bit : Z) : M sched unit :=
  b <- gets free_slot_bitmap ;; modify (put_free_slot_bitmap (Z.setbit b bit)).

Definition task_find_free_slot : M sched Z :=
  r <- for_ret (iters 0 MAX_TASKS) 0 (fun slot =>
         b <- atomic_test_and_clear_bit slot ;;
         if b then ret (Some slot) else ret None) ;;
  match r with Some slot => ret slot | None => ret (-1) end.

Definition task_free_slot (slot : Z) : M sched unit :=
  if (0 <=? slot) && (slot <? MAX_TASKS) then
    gs <- gets slot_generations ;;
    g <- lift (aget gs slot) ;;
    gs' <- lift (aset gs slot (g +32 1)) ;;
    modify (put_slot_generations gs') ;;;
    atomic_set_bit slot
  else ret tt.

Definition task_free_slot_for_task (p : option nat) : M sched unit :=
  match p with
  | None => ret tt
  | Some i => task_free_slot (Z.of_nat i)
  end.

(** * Priorities and capabilities (process.c:2540-2578, 2615-2624) *)

Definition priority_multipliers : list Z := [1; 2; 3; 5; 10].

Definition task_set_priority (p : option nat) (prio : Z) : M sched unit :=
  match p with
  | None => ret tt
  | Some _ =>
      if Z.of_nat (length priority_multipliers) <=? prio then ret tt
      else
        mult <- lift (aget priority_multipliers prio) ;;
        tupd p (set_priority prio) ;;;
        t <- tget p ;;
        tupd p (set_time_slice (base_time_slice t *32 mult)) ;;;
        t' <- tget p ;;
        tupd p (set_ticks_remaining (time_slice t'))
  end.

Definition CAP_UNKILLABLE : Z := 0x1000.
Definition CAP_DEFAULT : Z := Z.lor 0x2 0x4.
Definition CAP_ALL : Z := 0xFFFFFFFF.
Definition CAP_IDENTITY_PRIVILEGED : Z := Z.land CAP_ALL (not32 (Z.lor CAP_UNKILLABLE CAP_DEFAULT)).

Definition task_sync_identity_caps (p : option nat) : M sched unit :=
  match p with
  | None => ret tt
  | Some _ =>
      t <- tget p ;;
      if negb (is_kernel_task t) then ret tt
      else if euid t =? 0
      then tupd p (set_capabilities (Z.lor (capabilities t) CAP_IDENTITY_PRIVILEGED))
      else tupd p (set_capabilities (Z.land (capabilities t) (not32 CAP_IDENTITY_PRIVILEGED)))
  end.

(** * Descriptor tables (process.c:2742-2804) *)

Definition TASK_FDTABLE_SIZE : Z := 16.
Definition TASK_FD_BASE : Z := 3.
Definition EBADF : Z := 9.
Definition EMFILE : Z := 24.

Definition task_fdtable_init (t : task) : task := set_fdtable (replicate 16 (-1)) t.

(** The descriptors passed to [vfs_close], in order, and the emptied table. *)
Definition task_fdtable_cleanup (t : task) : list Z * task :=
  (filter (fun fd => 0 <= fd) (fdtable t),
   set_fdtable (map (fun fd => if 0 <=? fd then -1 else fd) (fdtable t)) t).

(** First free entry. *)
Fixpoint fd_free (l : list Z) (i : nat) : option nat :=
  match l with
  | [] => None
  | fd :: l' => if fd <? 0 then Some i else fd_free l' (S i)
  end.

Definition task_fd_install (vfs_fd : Z) (t : task) : Z * task :=
  if vfs_fd <? 0 then (- EBADF, t)
  else match fd_free (fdtable t) 0 with
       | Some i => (Z.of_nat i + TASK_FD_BASE, set_fdtable (<[i := vfs_fd]> (fdtable t)) t)
       | None => (- EMFILE, t)
       end.

Definition task_fd_lookup (user_fd : Z) (t : task) : result Z :=
  let slot := user_fd - TASK_FD_BASE in
  if (slot <? 0) || (TASK_FDTABLE_SIZE <=? slot) then Ok (- EBADF)
  else match aget (fdtable t) slot with
       | Ok fd => if fd <? 0 then Ok (- EBADF) else Ok fd
       | Err e => Err e
       end.

Definition task_fd_remove (user_fd : Z) (t : task) : result (Z * task) :=
  let slot := user_fd - TASK_FD_BASE in
  if (slot <? 0) || (TASK_FDTABLE_SIZE <=? slot) then Ok (- EBADF, t)
  else match aget (fdtable t) slot with
       | Ok fd => if fd <? 0 then Ok (- EBADF, t)
                  else match aset (fdtable t) slot (-1) with
                       | Ok l => Ok (fd, set_fdtable l t)
                       | Err e => Err e
                       end
       | Err e => Err e
       end.

(** * Facts about the store *)

#[global] Arguments tget : simpl never.
#[global] Arguments tupd : simpl never.

Lemma tget_ok s i t : tasks s !! i = Some t -> tget (Some i) s = Ok (t, s).
Proof.
  intros H. unfold tget, bind, gets, lift. rewrite (aget_ok _ _ t); [done|lia|].
  by rewrite Nat2Z.id.
Qed.

Lemma tupd_ok s i f t :
  tasks s !! i = Some t -> tupd (Some i) f s = Ok (tt, put_tasks (<[i := f t]> (tasks s)) s).
Proof.
  intros H. unfold tupd, bind. rewrite (tget_ok _ _ t) by done. unfold modify.
  by rewrite (alter_lookup_insert _ _ _ t).
Qed.

Lemma wp_tget s i t Q : tasks s !! i = Some t -> Q t s -> wp (tget (Some i)) Q s.
Proof. intros H HQ. by eapply wp_ok; [apply tget_ok|]. Qed.

Lemma wp_tupd s i f t Q :
  tasks s !! i = Some t -> Q tt (put_tasks (<[i := f t]> (tasks s)) s) -> wp (tupd (Some i) f) Q s.
Proof. intros H HQ. by eapply wp_ok; [eapply tupd_ok|]. Qed.

Lemma ptr_eqb_refl p : ptr_eqb p p = true.
Proof. by apply bool_decide_eq_true. Qed.

Lemma ptr_eqb_ne p q : p <> q -> ptr_eqb p q = false.
Proof. by apply bool_decide_eq_false. Qed.

Lemma ptr_eqb_spec p q : Bool.reflect (p = q) (ptr_eqb p q).
Proof. unfold ptr_eqb. destruct (bool_decide_reflect (p = q)); by constructor. Qed.

End Task.
