(* ===== verification/Ring.v ===== *)
(** Circular singly linked lists: the successor function of the nodes, and the
    node list it traces.  The ready queue of the scheduler is one. *)
From Stdlib Require Import ZArith Lia List Bool.
From stdpp Require Import base tactics numbers list sets.
From S2P Require Import Prelude.

Module Ring.

Section Chains.
Implicit Types (f g : nat -> option nat) (l a b : list nat) (e : option nat).

(** [chain f l e]: following [f] from the first node of [l] visits [l] in
    order and then leads to [e]. *)
Fixpoint chain f l e : Prop :=
  match l with
  | [] => True
  | x :: l' => f x = match l' with [] => e | y :: _ => Some y end /\ chain f l' e
  end.

(** [cyc f l]: [f] traces the cycle [l]. *)
Definition cyc f l : Prop := chain f l (head l).

(** [upd f x v] is [f] with the successor of [x] replaced. *)
Definition upd f (x : nat) (v : option nat) : nat -> option nat :=
  fun y => if bool_decide (y = x) then v else f y.

Lemma upd_eq f x v : upd f x v x = v.
Proof. unfold upd. by rewrite bool_decide_true. Qed.

Lemma upd_ne f x v y : y <> x -> upd f x v y = f y.
Proof. intros. unfold upd. by rewrite bool_decide_false. Qed.

Lemma chain_ext f g l e : (forall x, x ∈ l -> f x = g x) -> chain f l e -> chain g l e.
Proof.
  induction l as [|x l IH]; simpl; [done|]. intros Heq [H1 H2]. split.
  - rewrite <- Heq; [done|]. left.
  - apply IH; [|done]. intros y Hy. apply Heq. by right.
Qed.

Lemma chain_snoc f l x e : chain f (l ++ [x]) e <-> chain f l (Some x) /\ f x = e.
Proof.
  induction l as [|y l IH]; simpl; [tauto|]. rewrite IH. destruct l; simpl; tauto.
Qed.

Lemma chain_app f a y b e : chain f (a ++ y :: b) e <-> chain f a (Some y) /\ chain f (y :: b) e.
Proof.
  revert y b. induction a as [|x a IH]; intros y b; [simpl; tauto|].
  destruct a as [|x' a]; [simpl; tauto|]. specialize (IH y b).
  change ((x :: x' :: a) ++ y :: b) with (x :: (x' :: a) ++ y :: b).
  cbn [chain] in *. cbn [app] in *. tauto.
Qed.

Lemma cyc_rotate f a b : cyc f (a ++ b) -> cyc f (b ++ a).
Proof.
  unfold cyc. destruct a as [|x a], b as [|y b]; rewrite ?app_nil_r; simpl; try done.
  intros H. apply (chain_app f (x :: a) y b) in H as [H1 H2].
  apply (chain_app f (y :: b) x a). split; [exact H2|exact H1].
Qed.

(** Every node of a cycle leads to a node of it. *)
Lemma cyc_next f l x : cyc f l -> x ∈ l -> exists y, f x = Some y /\ y ∈ l.
Proof.
  intros Hc (a & b & ->)%list_elem_of_split. apply cyc_rotate in Hc. unfold cyc in Hc. simpl in Hc.
  destruct Hc as [Hx _]. destruct (b ++ a) as [|y c] eqn:E.
  - exists x. split; [done|set_solver].
  - exists y. split; [done|]. assert (y ∈ b ++ a) by (rewrite E; left). set_solver.
Qed.

(** Successor of the last node before [x]. *)
Lemma cyc_pred f p z x q : cyc f (p ++ z :: x :: q) -> f z = Some x.
Proof.
  unfold cyc. intros H. destruct p as [|y p]; [by destruct H|].
  apply (chain_app f (y :: p) z (x :: q)) in H as [_ H]. by destruct H.
Qed.

(** Unlinking [x] behind its predecessor [z]. *)
Lemma cyc_unlink f p z x q :
  NoDup (p ++ z :: x :: q) -> cyc f (p ++ z :: x :: q) ->
  cyc (upd (upd f z (f x)) x None) (p ++ z :: q).
Proof.
  intros Hnd Hc.
  replace (p ++ z :: x :: q) with ((p ++ [z]) ++ x :: q) in Hc by by rewrite <- app_assoc.
  apply cyc_rotate in Hc.
  assert (cyc (upd (upd f z (f x)) x None) (q ++ p ++ [z])) as Hgoal.
  2:{ apply (cyc_rotate _ q (p ++ [z])) in Hgoal. by rewrite <- app_assoc in Hgoal. }
  unfold cyc in *. cbn [app head chain] in Hc. destruct Hc as [Hx Hc].
  rewrite app_assoc in Hc |- *. apply chain_snoc in Hc as [Hc Hz]. apply chain_snoc.
  apply NoDup_app in Hnd as (_ & Hp & Hnd). apply NoDup_cons in Hnd as [Hz1 Hnd].
  apply NoDup_cons in Hnd as [Hx1 _].
  assert (z <> x) by set_solver. split.
  - apply chain_ext with f; [|done]. intros y Hy.
    assert (y <> x) by (intros ->; set_solver). assert (y <> z) by (intros ->; set_solver).
    by rewrite !upd_ne.
  - rewrite upd_ne, upd_eq by done. rewrite Hx. by destruct q, p.
Qed.

(** Unlinking the first node behind the last. *)
Lemma cyc_unlink_head f x p z :
  NoDup (x :: p ++ [z]) -> cyc f (x :: p ++ [z]) ->
  cyc (upd (upd f z (f x)) x None) (p ++ [z]).
Proof.
  intros Hnd Hc. apply (cyc_unlink f p z x []).
  - replace (p ++ [z; x]) with ((p ++ [z]) ++ [x]) by by rewrite <- app_assoc.
    by rewrite <- Permutation_cons_append.
  - apply (cyc_rotate f [x] (p ++ [z])) in Hc. by rewrite <- app_assoc in Hc.
Qed.

(** Unlinking [i] behind its predecessor [z], wherever the two are in the list. *)
Lemma cyc_remove f q1 i q2 z :
  NoDup (q1 ++ i :: q2) -> cyc f (q1 ++ i :: q2) -> z ∈ q1 ++ q2 -> f z = Some i ->
  cyc (upd (upd f z (f i)) i None) (q1 ++ q2) /\ last (q2 ++ q1) = Some z.
Proof.
  intros Hnd Hc Hz Hf. apply cyc_rotate in Hc. cbn [app] in Hc.
  assert (NoDup (i :: q2 ++ q1)) as Hnd'.
  { change (i :: q2 ++ q1) with ((i :: q2) ++ q1). by rewrite Permutation_app_comm. }
  assert (z ∈ q2 ++ q1) as (u & v & E)%list_elem_of_split by set_solver.
  rewrite E in *. destruct v as [|y v].
  - split; [|by rewrite last_snoc]. apply cyc_rotate. rewrite E. by apply cyc_unlink_head.
  - exfalso. rewrite (cyc_pred f (i :: u) z y v Hc) in Hf. injection Hf as ->.
    apply NoDup_cons in Hnd' as [Hi _]. apply Hi. set_solver.
Qed.

(** What unlinking behind a node that is not the predecessor does: behind the
    last node [z], the nodes before [x] fall out of the cycle. *)
Lemma cyc_unlink_wrong f a x b z :
  NoDup (a ++ x :: b ++ [z]) -> cyc f (a ++ x :: b ++ [z]) ->
  cyc (upd (upd f z (f x)) x None) (b ++ [z]).
Proof.
  intros Hnd Hc. unfold cyc in Hc. apply (chain_app f a x (b ++ [z])) in Hc as [_ [Hx Hc]].
  apply NoDup_app in Hnd as (_ & _ & Hnd). apply NoDup_cons in Hnd as [Hx1 Hnd].
  apply NoDup_app in Hnd as (_ & Hb & _). apply chain_snoc in Hc as [Hc _].
  unfold cyc. apply chain_snoc. assert (z <> x) by (intros ->; set_solver). split.
  - apply chain_ext with f; [|done]. intros y Hy.
    assert (y <> x) by (intros ->; set_solver). assert (y <> z) by (intros ->; eapply Hb; set_solver).
    by rewrite !upd_ne.
  - rewrite upd_ne, upd_eq by done. rewrite Hx. by destruct b.
Qed.

(** Linking [x] behind the last node [z]. *)
Lemma cyc_append f p z x :
  x ∉ p ++ [z] -> NoDup (p ++ [z]) -> cyc f (p ++ [z]) ->
  cyc (upd (upd f z (Some x)) x (f z)) ((p ++ [z]) ++ [x]).
Proof.
  intros Hx Hnd Hc. unfold cyc in *. apply chain_snoc in Hc as [Hc Hz].
  assert (z <> x) by set_solver. apply NoDup_app in Hnd as (_ & Hp & _).
  rewrite !chain_snoc. split_and!.
  - apply chain_ext with f; [|done]. intros y Hy.
    assert (y <> x) by (intros ->; set_solver). assert (y <> z) by (intros ->; eapply Hp; set_solver).
    by rewrite !upd_ne.
  - by rewrite upd_ne, upd_eq.
  - rewrite upd_eq, Hz. by destruct p.
Qed.
End Chains.

End Ring.
