(* ===== verification/Scheduler.v ===== *)
(** The round-robin scheduler (src/scheduler.c): the circular ready queue, the
    cleanup queue, selection of the next task, and preemption.

    The ready queue is the [next] pointers of the task table with
    [ready_queue_head] and [ready_queue_tail].  Interrupts are off in every
    function modelled, so each is one function of the state.  A context switch
    ends the part of a function that runs on the old stack: [scheduler_schedule]
    and [scheduler_schedule_from_interrupt] return at
    [scheduler_switch_kernel_context]; what runs when the task is resumed is
    [scheduler_resume_from_interrupt]. *)
From Stdlib Require Import ZArith Lia List Bool String.
From stdpp Require Import base tactics numbers list gmap.
From S2P Require Import Prelude Task Ring.
Open Scope Z_scope.

Module Scheduler.
Import Task Ring.

(** * Initialisation and the cleanup queue *)

Definition CLEANUP_QUEUE_SIZE : Z := 8.

Definition scheduler_fpu_release (task : option nat) : M sched unit :=
  match task with
  | None => ret tt
  | Some _ => o <- gets fpu_owner ;;
              if ptr_eqb o task then modify (put_fpu_owner None) else ret tt
  end.

Definition scheduler_init : M sched unit :=
  modify (put_head None) ;;;
  modify (put_tail None) ;;;
  modify (put_current None) ;;;
  modify (put_switches 0) ;;;
  modify (put_enabled false) ;;;
  modify (put_cleanup_queue (replicate 8 None)) ;;;
  modify (put_cq_head 0) ;;;
  modify (put_cq_tail 0) ;;;
  modify (put_cq_count 0).

Definition cleanup_queue_enqueue (task : option nat) : M sched bool :=
  match task with
  | None => ret false
  | Some _ =>
      n <- gets cq_count ;;
      if CLEANUP_QUEUE_SIZE <=? n then ret false
      else
        q <- gets cleanup_queue ;;
        tl <- gets cq_tail ;;
        q' <- lift (aset q tl task) ;;
        modify (put_cleanup_queue q') ;;;
        modify (put_cq_tail ((tl +32 1) mod CLEANUP_QUEUE_SIZE)) ;;;
        modify (put_cq_count (n +32 1)) ;;;
        ret true
  end.

Definition cleanup_queue_dequeue : M sched (option nat) :=
  n <- gets cq_count ;;
  if n =? 0 then ret None
  else
    q <- gets cleanup_queue ;;
    hd <- gets cq_head ;;
    t <- lift (aget q hd) ;;
    q' <- lift (aset q hd None) ;;
    modify (put_cleanup_queue q') ;;;
    modify (put_cq_head ((hd +32 1) mod CLEANUP_QUEUE_SIZE)) ;;;
    modify (put_cq_count (n -32 1)) ;;;
    ret t.

Definition cleanup_queue_is_empty : M sched bool := n <- gets cq_count ;; ret (n =? 0).

(** * The ready queue *)

(** The membership scan of [scheduler_add_task]; [n] is the number of times
    [++steps <= MAX_TASKS] can still hold. *)
Fixpoint scan_ring (n : nat) (task hd scan : option nat) : M sched bool :=
  if ptr_eqb scan task then ret true
  else
    t <- tget scan ;;
    match next t with
    | None => ret false
    | Some j => if ptr_eqb (Some j) hd then ret false
                else match n with
                     | O => ret false
                     | S n' => scan_ring n' task hd (Some j)
                     end
    end.

Definition scheduler_add_task (task : option nat) : M sched unit :=
  match task with
  | None => ret tt
  | Some _ =>
      t <- tget task ;;
      if pid t <? 1 then ret tt
      else
        hd <- gets head ;;
        queued <- (match hd with
                   | None => ret false
                   | Some _ => scan_ring (Z.to_nat MAX_TASKS) task hd hd
                   end) ;;
        if queued then ret tt
        else
          tupd task (set_state TASK_STATE_READY) ;;;
          t <- tget task ;;
          tupd task (set_ticks_remaining (time_slice t)) ;;;
          match hd with
          | None =>
              modify (put_head task) ;;;
              modify (put_tail task) ;;;
              tupd task (set_next task)
          | Some _ =>
              tl <- gets tail ;;
              tt_ <- tget tl ;;
              let original_head := next tt_ in
              tupd tl (set_next task) ;;;
              tupd task (set_next original_head) ;;;
              modify (put_tail task)
          end
  end.

(** The removal walk: what it does at the task, and its loop; [n] is the number
    of rounds before the corruption check panics. *)
Definition unlink (task cur prev : option nat) : M sched unit :=
  c <- tget cur ;;
  tupd prev (set_next (next c)) ;;;
  hd <- gets head ;;
  (if ptr_eqb cur hd then c <- tget cur ;; modify (put_head (next c)) else ret tt) ;;;
  tl <- gets tail ;;
  (if ptr_eqb cur tl then modify (put_tail prev) else ret tt) ;;;
  tupd task (set_next None).

Fixpoint remove_walk (n : nat) (task cur prev : option nat) : M sched unit :=
  match n with
  | O => fail (KernelPanic "Scheduler ready queue corruption detected")
  | S n' =>
      if ptr_eqb cur task then unlink task cur prev
      else
        c <- tget cur ;;
        hd <- gets head ;;
        if ptr_eqb (next c) hd then ret tt
        else remove_walk n' task (next c) cur
  end.

Definition scheduler_remove_task (task : option nat) : M sched unit :=
  hd <- gets head ;;
  match task, hd with
  | None, _ | _, None => ret tt
  | Some _, Some _ =>
      t <- tget task ;;
      if ptr_eqb (next t) task && ptr_eqb task hd then
        modify (put_head None) ;;;
        modify (put_tail None) ;;;
        tupd task (set_next None)
      else
        tl <- gets tail ;;
        remove_walk (Z.to_nat (MAX_TASKS + 1)) task hd tl
  end.

Definition scheduler_block_task (task : option nat) : M sched unit :=
  match task with
  | None => ret tt
  | Some _ =>
      d <- gets int_depth ;;
      if 0 <? d then fail (KernelPanic "Blocking in interrupt context")
      else scheduler_remove_task task ;;; tupd task (set_state TASK_STATE_BLOCKED)
  end.

Definition scheduler_wakeup_task (task : option nat) : M sched unit :=
  match task with
  | None => ret tt
  | Some _ =>
      t <- tget task ;;
      if bool_decide (state t = TASK_STATE_BLOCKED) then scheduler_add_task task else ret tt
  end.

(** * Selection *)

Definition runnable (t : task) : bool :=
  bool_decide (state t = TASK_STATE_READY) || bool_decide (state t = TASK_STATE_RUNNING).

(** The recursion drops one queue entry per call. *)
Fixpoint get_next_task (fuel : nat) : M sched (option nat) :=
  match fuel with
  | O => fail NoTermination
  | S fuel' =>
      hd <- gets head ;;
      match hd with
      | None => ret None
      | Some _ =>
          t <- tget hd ;;
          live <- gets (task_slot_is_live hd) ;;
          if negb (runnable t) || negb live
          then scheduler_remove_task hd ;;; get_next_task fuel'
          else modify (put_head (next t)) ;;; ret hd
      end
  end.

Definition scheduler_get_next_task : M sched (option nat) :=
  get_next_task (Z.to_nat (MAX_TASKS + 1)).

(** * Switching *)

(** The bookkeeping of a switch; the register and stack switch itself is
    context_switch.S. *)
Definition scheduler_switch_kernel_context (prev_task next_task : option nat) : M sched unit :=
  di <- gets int_depth ;;
  dc <- gets crit_depth ;;
  tupd prev_task (fun t => set_saved_crit_depth dc (set_saved_int_depth di t)) ;;;
  nt <- tget next_task ;;
  modify (put_int_depth (saved_int_depth nt)) ;;;
  modify (put_crit_depth (saved_crit_depth nt)).

(** The state of the task that is left: a finished one is queued for cleanup,
    a preempted one is ready again, a blocked or sleeping one stays so. *)
Definition retire_prev (prev : option nat) : M sched unit :=
  p <- tget prev ;;
  match state p with
  | TASK_STATE_TERMINATED | TASK_STATE_ZOMBIE => _ <- cleanup_queue_enqueue prev ;; ret tt
  | TASK_STATE_RUNNING => tupd prev (set_state TASK_STATE_READY)
  | _ => ret tt
  end.

Definition dispatch (nxt : option nat) : M sched unit :=
  tupd nxt (set_state TASK_STATE_RUNNING) ;;;
  t <- tget nxt ;;
  tupd nxt (set_ticks_remaining (time_slice t)).

Definition incr_switches : M sched unit :=
  n <- gets switches ;; modify (put_switches (n +32 1)).

(** [if (!ready_queue_head && (!current || current->state == TERMINATED)) panic] *)
Definition check_exhausted : M sched unit :=
  hd <- gets head ;;
  cur <- gets current ;;
  match hd, cur with
  | Some _, _ => ret tt
  | None, None => fail (KernelPanic "All tasks terminated")
  | None, Some _ => t <- tget cur ;;
                    if terminated t then fail (KernelPanic "All tasks terminated") else ret tt
  end.

Definition charge_tick (cur : option nat) : M sched unit :=
  t <- tget cur ;;
  if 0 <? ticks_remaining t
  then tupd cur (fun t => set_total_ticks (total_ticks t +32 1)
                            (set_ticks_remaining (ticks_remaining t -32 1) t))
  else ret tt.

Definition reset_slice (cur : option nat) : M sched unit :=
  t <- tget cur ;; tupd cur (set_ticks_remaining (time_slice t)).

Definition not_finished (t : task) : bool :=
  negb (terminated t) && negb (bool_decide (state t = TASK_STATE_ZOMBIE)).

Definition scheduler_schedule : M sched unit :=
  en <- gets enabled ;;
  if negb en then ret tt
  else
    check_exhausted ;;;
    cur <- gets current ;;
    match cur with
    | None =>
        nxt <- scheduler_get_next_task ;;
        match nxt with
        | None => ret tt
        | Some _ => modify (put_current nxt) ;;; dispatch nxt
        end
    | Some _ =>
        charge_tick cur ;;;
        t <- tget cur ;;
        if ticks_remaining t =? 0 then
          nxt <- scheduler_get_next_task ;;
          if ptr_eqb nxt None || ptr_eqb nxt cur then reset_slice cur
          else
            retire_prev cur ;;;
            dispatch nxt ;;;
            modify (put_current nxt) ;;;
            incr_switches ;;;
            p <- tget cur ;;
            (if not_finished p then tupd cur (set_has_run_before true) else ret tt) ;;;
            tupd nxt (set_has_run_before true) ;;;
            scheduler_switch_kernel_context cur nxt
        else ret tt
    end.

Definition scheduler_yield : M sched unit :=
  en <- gets enabled ;;
  cur <- gets current ;;
  match cur with
  | None => ret tt
  | Some _ =>
      if negb en then ret tt
      else
        hd <- gets head ;;
        (if ptr_eqb hd cur then t <- tget hd ;; modify (put_head (next t)) else ret tt) ;;;
        tupd cur (set_ticks_remaining 0) ;;;
        scheduler_schedule
  end.

Definition scheduler_get_current_task : M sched (option nat) := gets current.

(** * The timer interrupt *)

(** [now] is the value of [pit_get_ticks()]. *)
Fixpoint wake_sleepers (now : Z) (l : list nat) : M sched unit :=
  match l with
  | [] => ret tt
  | i :: l' =>
      t <- tget (Some i) ;;
      (if bool_decide (state t = TASK_STATE_SLEEPING) && (wake_tick t <=? now)
       then scheduler_add_task (Some i) else ret tt) ;;;
      wake_sleepers now l'
  end.

(** The halting loops of [scheduler_start] are rendered as panics with the
    message printed before them; [switch_to_first_task] does not return. *)
Definition scheduler_start : M sched unit :=
  hd <- gets head ;;
  match hd with
  | None => fail (KernelPanic "No tasks to run!")
  | Some _ =>
      modify (put_enabled true) ;;;
      first <- scheduler_get_next_task ;;
      match first with
      | None => fail (KernelPanic "No runnable tasks!")
      | Some _ =>
          t <- tget first ;;
          if pid t <? 1 then fail (KernelPanic "Invalid PID")
          else modify (put_current first) ;;; dispatch first
      end
  end.

Definition scheduler_tick (now : Z) : M sched unit :=
  en <- gets enabled ;;
  cur <- gets current ;;
  match cur with
  | None => ret tt
  | Some _ =>
      if negb en then ret tt
      else
        t <- tget cur ;;
        (if 0 <? ticks_remaining t
         then tupd cur (set_ticks_remaining (ticks_remaining t -32 1)) else ret tt) ;;;
        tupd cur (fun t => set_total_ticks (total_ticks t +32 1) t) ;;;
        all <- gets (task_get_all (Z.to_nat MAX_TASKS)) ;;
        wake_sleepers now all
  end.

(** [task_free_resources] is reduced to its effect on the scheduler's state,
    the release of the FPU. *)
Definition reap (t : option nat) : M sched unit :=
  scheduler_remove_task t ;;;
  scheduler_fpu_release t ;;;
  tupd t (set_state TASK_STATE_TERMINATED) ;;;
  tupd t (set_pid 0) ;;;
  task_free_slot_for_task t ;;;
  scheduler_fpu_release t.

Fixpoint drain_cleanup (fuel : nat) : M sched unit :=
  match fuel with
  | O => fail NoTermination
  | S fuel' =>
      e <- cleanup_queue_is_empty ;;
      if e then ret tt
      else
        t <- cleanup_queue_dequeue ;;
        match t with
        | None => ret tt
        | Some _ => reap t ;;; drain_cleanup fuel'
        end
  end.

Definition scheduler_schedule_from_interrupt (now : Z) : M sched unit :=
  en <- gets enabled ;;
  cur <- gets current ;;
  match cur with
  | None => ret tt
  | Some _ =>
      if negb en then ret tt
      else
        all <- gets (task_get_all (Z.to_nat MAX_TASKS)) ;;
        wake_sleepers now all ;;;
        drain_cleanup (Z.to_nat (CLEANUP_QUEUE_SIZE + 1)) ;;;
        check_exhausted ;;;
        charge_tick cur ;;;
        t <- tget cur ;;
        if ticks_remaining t =? 0 then
          nxt <- scheduler_get_next_task ;;
          if ptr_eqb nxt None || ptr_eqb nxt cur then reset_slice cur
          else
            retire_prev cur ;;;
            dispatch nxt ;;;
            modify (put_current nxt) ;;;
            incr_switches ;;;
            scheduler_switch_kernel_context cur nxt
        else ret tt
  end.

(** The rest of the interrupt handler, when the task it preempted runs again. *)
Definition scheduler_resume_from_interrupt (prev : option nat) : M sched unit := reset_slice prev.

Definition scheduler_terminate_current_from_interrupt : M sched unit :=
  en <- gets enabled ;;
  cur <- gets current ;;
  match cur with
  | None => fail (KernelPanic "User exception without a running task")
  | Some _ =>
      if negb en then fail (KernelPanic "User exception without a running task")
      else
        live <- gets (task_slot_is_live cur) ;;
        if negb live then fail (KernelPanic "User exception on stale task slot")
        else
          p <- tget cur ;;
          if is_kernel_task p
          then fail (KernelPanic "Kernel task routed to user exception termination")
          else
            tupd cur (set_state TASK_STATE_TERMINATED) ;;;
            tupd cur (set_ticks_remaining 0) ;;;
            scheduler_remove_task cur ;;;
            _ <- cleanup_queue_enqueue cur ;;
            nxt <- scheduler_get_next_task ;;
            if ptr_eqb nxt None || ptr_eqb nxt cur
            then fail (KernelPanic "No runnable task after user exception")
            else
              dispatch nxt ;;;
              tupd nxt (set_has_run_before true) ;;;
              modify (put_current nxt) ;;;
              incr_switches ;;;
              scheduler_switch_kernel_context cur nxt
  end.


(** * The ready queue as a list *)

(** The successor function of the task table. *)
Definition nx (s : sched) (i : nat) : option nat :=
  match tasks s !! i with Some t => next t | None => None end.

(** [queue s r]: the ready queue holds the slots [r], listed from the node
    behind [ready_queue_tail] to [ready_queue_tail] itself;
    [ready_queue_head] is one of them. *)
Definition queue (s : sched) (r : list nat) : Prop :=
  length (tasks s) = Z.to_nat MAX_TASKS /\ NoDup r /\
  Forall (fun i => (i < Z.to_nat MAX_TASKS)%nat) r /\
  tail s = last r /\
  match r with
  | [] => head s = None
  | _ => exists h, head s = Some h /\ h ∈ r
  end /\
  cyc (nx s) r.

(** [links_only s s']: the two states differ in the links of the ready queue
    alone, its head, its tail and the [next] pointers. *)
Definition erase_links (s : sched) : sched :=
  put_head None (put_tail None (put_tasks (set_next None <$> tasks s) s)).
Definition links_only (s s' : sched) : Prop := erase_links s = erase_links s'.

#[export] Instance links_only_equiv : Equivalence links_only.
Proof. split; unfold links_only; [by intros ?|by intros ?|intros ???; congruence]. Qed.

Lemma links_only_next s i t t' :
  tasks s !! i = Some t -> set_next None t' = set_next None t ->
  links_only s (put_tasks (<[i := t']> (tasks s)) s).
Proof.
  intros Hi Ht. unfold links_only, erase_links. simpl.
  rewrite list_fmap_insert, Ht, list_insert_id; [done|]. by rewrite list_lookup_fmap, Hi.
Qed.
Lemma links_only_head s v : links_only s (put_head v s).
Proof. done. Qed.
Lemma links_only_tail s v : links_only s (put_tail v s).
Proof. done. Qed.

Lemma nx_next s i t' j :
  (i < length (tasks s))%nat -> nx (put_tasks (<[i := t']> (tasks s)) s) j = upd (nx s) i (next t') j.
Proof.
  intros Hi. unfold nx, upd; simpl. destruct (bool_decide_reflect (j = i)) as [->|Hne].
  - by rewrite list_lookup_insert_eq.
  - by rewrite list_lookup_insert_ne.
Qed.

(** The scan finds exactly the members of the queue. *)
Lemma scan_ring_ok s i h c rest n :
  chain (nx s) (c :: rest) (Some h) -> h ∉ rest -> NoDup (c :: rest) ->
  (length rest <= n)%nat ->
  scan_ring n (Some i) (Some h) (Some c) s = Ok (bool_decide (i ∈ c :: rest), s).
Proof.
  revert c rest. induction n as [|n IH]; intros c rest Hch Hh Hnd Hlen;
    destruct Hch as [Hc Hch]; unfold nx in Hc at 1;
    (destruct (tasks s !! c) as [t|] eqn:Ht; [|by destruct rest]); cbn [scan_ring];
    (destruct (ptr_eqb_spec (Some c) (Some i)) as [[= ->]|Hne];
      [by rewrite bool_decide_true by left|]);
    unfold bind; rewrite (tget_ok _ _ t Ht), Hc.
  - destruct rest; [|simpl in Hlen; lia]. rewrite ptr_eqb_refl.
    rewrite bool_decide_false; [done|]. set_solver.
  - destruct rest as [|y rest].
    + rewrite ptr_eqb_refl. rewrite bool_decide_false; [done|]. set_solver.
    + rewrite ptr_eqb_ne by set_solver. rewrite (IH y rest); [|done|set_solver|by inversion Hnd|simpl in Hlen; lia].
      unfold ret. do 2 f_equal. apply bool_decide_ext. set_solver.
Qed.

#[global] Arguments scan_ring : simpl never.

(** Steps through reads and writes of the task table. *)
Ltac lookup_tac :=
  simpl;
  first
    [ eassumption
    | rewrite list_lookup_insert_eq; [reflexivity|rewrite ?length_insert; eauto using lookup_lt_Some with lia]
    | rewrite list_lookup_insert_ne by congruence; lookup_tac ].
Ltac task_step :=
  first [ wp_step
        | eapply wp_tget; [lookup_tac|]; simpl
        | eapply wp_tupd; [lookup_tac|]; simpl ].
Ltac task_steps := repeat task_step.

(** Splitting the queue at its head. *)
Lemma queue_split s r :
  queue s r -> r <> [] ->
  exists a h b, r = a ++ h :: b /\ head s = Some h /\ cyc (nx s) (h :: b ++ a) /\
                NoDup (h :: b ++ a) /\ (length (b ++ a) <= 31)%nat.
Proof.
  intros (Hlen & Hnd & Hall & Htl & Hhd & Hc) Hr. destruct r as [|x r']; [done|].
  destruct Hhd as (h & Hh & Hin). set (r := x :: r') in *. clearbody r.
  apply list_elem_of_split in Hin as (a & b & ->). exists a, h, b.
  apply cyc_rotate in Hc. assert (NoDup (h :: b ++ a)) as Hnd'.
  { change (h :: b ++ a) with ((h :: b) ++ a). by rewrite Permutation_app_comm. }
  split_and!; try done.
  assert (length (h :: b ++ a) <= Z.to_nat MAX_TASKS)%nat as Hb; [|simpl in Hb; unfold MAX_TASKS in Hb; lia].
  apply nodup_bounded_length; [done|]. rewrite <- (Permutation_app_comm a (h :: b)) in *. done.
Qed.

Definition ready_task (i : nat) (s : sched) : sched :=
  put_tasks (alter (fun t => set_ticks_remaining (time_slice t) (set_state TASK_STATE_READY t)) i (tasks s)) s.

Lemma ready_task_insert i s t :
  tasks s !! i = Some t ->
  ready_task i s =
    put_tasks (<[i := set_ticks_remaining (time_slice t) (set_state TASK_STATE_READY t)]> (tasks s)) s.
Proof. intros Ht. unfold ready_task. by rewrite (alter_lookup_insert _ _ _ t). Qed.

Lemma queue_intro s r h :
  length (tasks s) = Z.to_nat MAX_TASKS -> NoDup r ->
  Forall (fun i => (i < Z.to_nat MAX_TASKS)%nat) r -> tail s = last r ->
  head s = Some h -> h ∈ r -> cyc (nx s) r -> queue s r.
Proof. intros. split_and!; try done. destruct r; [set_solver|eauto]. Qed.

Lemma links_only_intro s s' :
  (forall j, set_next None <$> (tasks s !! j) = set_next None <$> (tasks s' !! j)) ->
  links_only s (put_tasks (tasks s) s') -> links_only s s'.
Proof.
  intros Ht Hr. unfold links_only, erase_links in *. rewrite Hr. simpl.
  assert (set_next None <$> tasks s = set_next None <$> tasks s') as ->; [|done].
  apply list_eq. intros j. by rewrite !list_lookup_fmap.
Qed.

(** Reads after writes of the task table, at a variable index. *)
Ltac learn_bounds :=
  repeat match goal with
  | H : ?l !! ?k = Some ?x |- _ =>
      lazymatch goal with
      | _ : (k < length l)%nat |- _ => fail
      | _ => pose proof (lookup_lt_Some l k x H)
      end
  end.
Ltac table_cases :=
  learn_bounds; simpl; rewrite ?list_lookup_insert, ?length_insert;
  repeat case_decide; destruct_and?; subst; simpl;
  repeat match goal with H : ?l !! ?k = Some _ |- context [?l !! ?k] => rewrite H; simpl end;
  first [reflexivity | exfalso; naive_solver lia | simplify_eq; congruence].
(** Closes a goal that two states differ in links alone. *)
Ltac links_tac := apply links_only_intro; [intros ?j; table_cases|done].

(** A task outside the queue is appended at the tail, made ready and given a
    full slice; nothing else changes. *)
Lemma add_task_new s r i t :
  queue s r -> i ∉ r -> tasks s !! i = Some t -> 1 <= pid t ->
  wp (scheduler_add_task (Some i))
     (fun _ s' => queue s' (r ++ [i]) /\ links_only (ready_task i s) s' /\
                  head s' = match r with [] => Some i | _ => head s end) s.
Proof.
  intros Hq Hi Ht Hpid. unfold scheduler_add_task.
  apply wp_bind, (wp_tget _ _ t); [done|]. rewrite (proj2 (Z.ltb_ge _ _)) by lia.
  apply wp_bind, wp_gets. assert (Hlt := lookup_lt_Some _ _ _ Ht).
  rewrite (ready_task_insert _ _ t) by done.
  destruct (decide (r = [])) as [->|Hr].
  - destruct Hq as (Hlen & _ & _ & _ & Hhd & _). simpl in Hhd. rewrite Hhd.
    task_steps. rewrite !list_insert_insert_eq. split_and!; [|links_tac|done].
    apply queue_intro with i; simpl; rewrite ?length_insert; try done.
    + apply NoDup_singleton.
    + constructor; [|done]. by rewrite <- Hlen.
    + by left.
    + split; [|done]. unfold nx; simpl. by rewrite list_lookup_insert_eq.
  - destruct (queue_split _ _ Hq Hr) as (a & h & b & Hsp & Hh & Hc & Hnd & Hlen). rewrite Hh.
    destruct Hq as (Hlt' & Hnd' & Hall & Htl & _ & Hc').
    destruct (exists_last Hr) as (p & z & ->). rewrite last_snoc in Htl.
    destruct (lookup_lt_is_Some_2 (tasks s) z) as [tz Htz].
    { rewrite Forall_forall in Hall. rewrite Hlt'. apply Hall. set_solver. }
    assert (z <> i) by set_solver.
    wp_step. eapply wp_ok; [apply (scan_ring_ok s i h h (b ++ a)); try done; [by inversion Hnd|unfold MAX_TASKS; lia]|].
    rewrite bool_decide_false by (rewrite Hsp in Hi; set_solver).
    task_steps. rewrite Htl. task_steps. split_and!; [|links_tac|by destruct p].
    apply queue_intro with h; simpl; rewrite ?length_insert, ?last_snoc; try done.
    + rewrite <- Permutation_cons_append. by constructor.
    + apply Forall_app. split; [done|]. constructor; [|done]. by rewrite <- Hlt'.
    + rewrite Hsp. set_solver.
    + apply chain_ext with (upd (upd (nx s) z (Some i)) i (nx s z)); [|by apply cyc_append].
      intros j _. unfold upd, nx. rewrite Htz. repeat case_bool_decide; subst; table_cases.
Qed.

Lemma add_task_queued s r i t :
  queue s r -> i ∈ r -> tasks s !! i = Some t -> 1 <= pid t ->
  scheduler_add_task (Some i) s = Ok (tt, s).
Proof.
  intros Hq Hi Ht Hpid. assert (r <> []) as Hr by (intros ->; by apply not_elem_of_nil in Hi).
  destruct (queue_split _ _ Hq Hr) as (a & h & b & -> & Hh & Hc & Hnd & Hlen).
  unfold scheduler_add_task, bind, gets. rewrite (tget_ok _ _ t) by done.
  rewrite (proj2 (Z.ltb_ge _ _)) by lia. rewrite Hh.
  rewrite (scan_ring_ok s i h h (b ++ a)); [|done|by inversion Hnd|done|unfold MAX_TASKS; lia].
  by rewrite bool_decide_true by set_solver.
Qed.

(** The removal walk reaches the task with [prev] the node before it on the
    walk, and leaves the state alone when the task is not on it. *)
Lemma remove_walk_found s h i l2 : forall l1 c pv n,
  head s = Some h -> chain (nx s) (l1 ++ i :: l2) (Some h) -> List.head (l1 ++ [i]) = Some c ->
  h ∉ List.tl (l1 ++ i :: l2) -> i ∉ l1 -> (length l1 < n)%nat ->
  remove_walk n (Some i) (Some c) (Some pv) s = unlink (Some i) (Some i) (Some (List.last l1 pv)) s.
Proof.
  induction l1 as [|x l1 IH]; intros c pv n Hh Hch Hc Hnh Hi Hn;
    (destruct n as [|n]; [lia|]); injection Hc as ->; cbn [remove_walk].
  - by rewrite ptr_eqb_refl.
  - rewrite ptr_eqb_ne by set_solver. destruct Hch as [Hx Hch].
    unfold nx in Hx at 1. destruct (tasks s !! c) as [t|] eqn:Ht; [|by destruct l1].
    unfold bind at 1. rewrite (tget_ok _ _ t Ht). unfold bind, gets. rewrite Hh.
    assert (exists y, next t = Some y /\ List.head (l1 ++ [i]) = Some y) as (y & Ey & Hy)
      by (destruct l1; simpl in *; eauto).
    rewrite Ey. rewrite ptr_eqb_ne by (destruct l1; simpl in *; set_solver).
    rewrite (IH y c n); try done; [|destruct l1; simpl in *; set_solver|set_solver|simpl in Hn; lia].
    by rewrite last_cons_default.
Qed.

Lemma remove_walk_absent s h i : forall rest c pv n,
  head s = Some h -> chain (nx s) (c :: rest) (Some h) -> h ∉ rest -> i ∉ c :: rest ->
  (length rest < n)%nat ->
  remove_walk n (Some i) (Some c) pv s = Ok (tt, s).
Proof.
  induction rest as [|y rest IH]; intros c pv n Hh [Hc Hch] Hnh Hi Hn;
    (destruct n as [|n]; [lia|]); cbn [remove_walk]; rewrite ptr_eqb_ne by set_solver;
    unfold nx in Hc at 1; (destruct (tasks s !! c) as [t|] eqn:Ht; [|done]);
    unfold bind at 1; rewrite (tget_ok _ _ t Ht); unfold bind, gets; rewrite Hh, Hc.
  - by rewrite ptr_eqb_refl.
  - rewrite ptr_eqb_ne by set_solver. apply IH; try done; [set_solver..|simpl in Hn; lia].
Qed.
#[global] Arguments remove_walk : simpl never.

Lemma unlink_ok s i z ti tz :
  i <> z -> tasks s !! i = Some ti -> tasks s !! z = Some tz ->
  wp (unlink (Some i) (Some i) (Some z))
     (fun _ s' =>
        links_only s s' /\ length (tasks s') = length (tasks s) /\
        (forall j, nx s' j = upd (upd (nx s) z (nx s i)) i None j) /\
        head s' = (if ptr_eqb (Some i) (head s) then nx s i else head s) /\
        tail s' = (if ptr_eqb (Some i) (tail s) then Some z else tail s)) s.
Proof.
  intros Hne Hi Hz. unfold unlink. unfold nx. rewrite Hi.
  task_steps; (split_and!; [links_tac|by rewrite ?length_insert| |done..]);
    intros j; unfold upd; repeat case_bool_decide; subst; table_cases.
Qed.

Definition remove_slot (i : nat) (r : list nat) : list nat := filter (fun j => j <> i) r.

Lemma remove_slot_absent i r : i ∉ r -> remove_slot i r = r.
Proof.
  unfold remove_slot. induction r as [|x r IH]; intros Hi; [done|].
  rewrite filter_cons_True by set_solver. f_equal. apply IH. set_solver.
Qed.

Lemma remove_slot_split q1 i q2 :
  NoDup (q1 ++ i :: q2) -> remove_slot i (q1 ++ i :: q2) = q1 ++ q2.
Proof.
  intros Hnd. apply NoDup_app in Hnd as (_ & H1 & Hnd). apply NoDup_cons in Hnd as [H2 _].
  unfold remove_slot. rewrite filter_app, filter_cons_False by tauto.
  fold (remove_slot i q1) (remove_slot i q2). rewrite !remove_slot_absent; set_solver.
Qed.

Lemma remove_walk_at s i pv n :
  remove_walk (S n) (Some i) (Some i) pv s = unlink (Some i) (Some i) pv s.
Proof. change (remove_walk (S n) (Some i) (Some i) pv s) with
  ((if ptr_eqb (Some i) (Some i) then unlink (Some i) (Some i) pv
    else c <- tget (Some i) ;; hd <- gets head ;;
         if ptr_eqb (next c) hd then ret tt else remove_walk n (Some i) (next c) (Some i)) s).
  by rewrite ptr_eqb_refl.
Qed.

(** What [unlink] does to the queue, when [prev] is the predecessor. *)
Lemma unlink_queue s q1 i q2 z :
  queue s (q1 ++ i :: q2) -> z ∈ q1 ++ q2 -> nx s z = Some i ->
  wp (unlink (Some i) (Some i) (Some z))
     (fun _ s' => queue s' (q1 ++ q2) /\ links_only s s' /\
                  head s' = (if ptr_eqb (Some i) (head s) then nx s i else head s)) s.
Proof.
  intros (Hlen & Hnd & Hall & Htl & Hhd & Hc) Hz Hzi.
  destruct (cyc_remove _ _ _ _ _ Hnd Hc Hz Hzi) as [Hc' Hlast].
  assert (exists h, head s = Some h /\ h ∈ q1 ++ i :: q2) as (h & Hh & Hhin) by (destruct q1; eauto).
  clear Hhd. rewrite Forall_forall in Hall.
  destruct (lookup_lt_is_Some_2 (tasks s) i) as [ti Hti]; [rewrite Hlen; apply Hall; set_solver|].
  destruct (lookup_lt_is_Some_2 (tasks s) z) as [tz Htz]; [rewrite Hlen; apply Hall; set_solver|].
  assert (NoDup (i :: q1 ++ q2)) as Hnd' by by rewrite Permutation_middle.
  apply NoDup_cons in Hnd' as [Hi Hnd'].
  assert (z <> i) by set_solver.
  eapply wp_mono; [apply (unlink_ok _ _ _ ti tz); done|].
  intros _ s' (Hl & Hlen' & Hnx & Hh' & Ht'). split_and!; [|done..].
  assert (exists y, nx s i = Some y /\ y ∈ q1 ++ q2) as (y & Hy & Hyin).
  { destruct (cyc_next _ _ z Hc' Hz) as (y & Hy & Hyin). rewrite upd_ne, upd_eq in Hy by done. eauto. }
  apply queue_intro with (if ptr_eqb (Some i) (Some h) then y else h).
  - congruence.
  - done.
  - apply Forall_forall. intros x Hx. apply Hall. set_solver.
  - rewrite Ht', Htl. destruct q2 as [|x q2].
    + rewrite last_snoc, ptr_eqb_refl, app_nil_r. by simpl in Hlast.
    + rewrite !last_app_cons, last_cons_cons. destruct (last (x :: q2)) as [w|] eqn:E; [|done].
      rewrite ptr_eqb_ne; [done|]. apply last_Some_elem_of in E. set_solver.
  - rewrite Hh', Hh, Hy. by destruct (ptr_eqb (Some i) (Some h)).
  - destruct (ptr_eqb_spec (Some i) (Some h)); set_solver.
  - eapply chain_ext; [|exact Hc']. intros j _. by rewrite Hnx.
Qed.

(** Removal of the head when it is the node behind the tail. *)
Lemma remove_task_head s i b :
  queue s (i :: b) -> head s = Some i ->
  wp (scheduler_remove_task (Some i))
     (fun _ s' => queue s' b /\ links_only s s') s.
Proof.
  intros Hq Hh. pose proof Hq as (Hlen & Hnd & Hall & Htl & _ & Hc).
  destruct (lookup_lt_is_Some_2 (tasks s) i) as [t Ht].
  { rewrite Hlen. rewrite Forall_forall in Hall. apply Hall. by left. }
  assert (nx s i = next t) as Hn by (unfold nx; by rewrite Ht).
  unfold scheduler_remove_task. wp_step. wp_step. rewrite Hh.
  apply wp_bind, (wp_tget _ _ t); [done|].
  destruct (decide (b = [])) as [->|Hb].
  - destruct Hc as [Hc _]. cbn in Hc. rewrite <- Hn, Hc, !ptr_eqb_refl. simpl. task_steps.
    split; [|links_tac]. split_and!; try done; [by simpl; rewrite length_insert|constructor].
  - destruct (exists_last Hb) as (p & z & ->). rewrite app_comm_cons, last_snoc in Htl.
    apply NoDup_cons in Hnd as [Hi Hnd].
    assert (exists y, next t = Some y /\ y <> i) as (y & Ey & Hy).
    { destruct Hc as [Hc _]. rewrite <- Hn, Hc. destruct p; simpl in *; eexists; split; set_solver. }
    rewrite Ey, ptr_eqb_ne by congruence. cbn [andb]. wp_step. wp_step. rewrite Htl.
    eapply wp_eq; [by apply (remove_walk_found s i i (p ++ [z]) [] i z); simpl; [..|set_solver|unfold MAX_TASKS; lia]|].
    cbn [List.last]. eapply wp_mono; [eapply (unlink_queue s [] i (p ++ [z])); [done|set_solver|]|].
    + change (i :: p ++ [z]) with ((i :: p) ++ [z]) in Hc. unfold cyc in Hc.
      by apply chain_snoc in Hc as [_ ->].
    + by intros _ s' (? & ? & _).
Qed.

(** Removal of a task that is not at the head. *)
Lemma remove_task_inner s r i t :
  queue s r -> tasks s !! i = Some t -> head s <> Some i ->
  wp (scheduler_remove_task (Some i))
     (fun _ s' => queue s' (remove_slot i r) /\ links_only s s' /\ head s' = head s) s.
Proof.
  intros Hq Ht Hnh. unfold scheduler_remove_task. wp_step. wp_step.
  destruct (decide (r = [])) as [->|Hr].
  { assert (head s = None) as E by apply Hq. rewrite E. by wp_steps. }
  destruct (queue_split _ _ Hq Hr) as (a & h & b & Er & Hh & Hc & Hnd & Hlen). rewrite Hh.
  apply wp_bind, (wp_tget _ _ t); [done|].
  assert (i <> h) as Hih by congruence. rewrite (ptr_eqb_ne (Some i) (Some h)), andb_false_r by congruence.
  wp_step. wp_step. apply NoDup_cons in Hnd as [Hh' Hnd].
  destruct (decide (i ∈ r)) as [Hin|Hni].
  - assert (i ∈ h :: b ++ a) as Hin' by set_solver.
    apply list_elem_of_split in Hin as (q1 & q2 & E). rewrite E in *.
    apply list_elem_of_split_l in Hin' as (l1 & l2 & E' & Hl1).
    destruct l1 as [|x l1]; [naive_solver|].
    destruct (exists_last (l := x :: l1)) as (p & z & Ep); [done|]. rewrite Ep in *.
    assert (exists pv, tail s = Some pv) as (pv & ->).
    { destruct Hq as (_ & _ & _ & -> & _). rewrite last_app_cons.
      destruct (last (i :: q2)) eqn:El; [eauto|]. by apply last_None in El. }
    eapply wp_eq; [apply (remove_walk_found s h i l2 (p ++ [z]) h pv)|]; try done.
    + rewrite <- E'. exact Hc.
    + destruct p; by injection E' as ->.
    + by rewrite <- E'.
    + assert (length (h :: b ++ a) = length ((p ++ [z]) ++ i :: l2)) as El by by rewrite E'.
      rewrite length_app in El. simpl in El. unfold MAX_TASKS. lia.
    + rewrite List.last_last. rewrite E', <- app_assoc in Hc.
      assert (z ∈ q1 ++ q2).
      { assert (z ∈ q1 ++ i :: q2) by (rewrite Er; cut (z ∈ h :: b ++ a); [set_solver|rewrite E'; set_solver]).
        set_solver. }
      rewrite remove_slot_split by apply Hq. eapply wp_mono; [apply (unlink_queue s q1 i q2 z); [done..|]|].
      * exact (cyc_pred _ _ _ _ _ Hc).
      * intros _ s' (? & ? & E2). rewrite E2, Hh, ptr_eqb_ne by congruence. done.
  - rewrite remove_slot_absent by done.
    eapply wp_ok; [apply (remove_walk_absent s h i (b ++ a)); try done|].
    + set_solver.
    + unfold MAX_TASKS. lia.
    + done.
Qed.

Lemma remove_task_ok s r i t :
  queue s r -> tasks s !! i = Some t -> (head s = Some i -> List.head r = Some i) ->
  wp (scheduler_remove_task (Some i))
     (fun _ s' => queue s' (remove_slot i r) /\ links_only s s') s.
Proof.
  intros Hq Ht Hal. destruct (decide (head s = Some i)) as [Hh|Hh].
  - specialize (Hal Hh). destruct r as [|x r]; [done|]. injection Hal as ->.
    change (i :: r) with ([] ++ i :: r) in *. rewrite remove_slot_split by apply Hq.
    by apply remove_task_head.
  - eapply wp_mono; [by eapply remove_task_inner|]. by intros _ s' (? & ? & _).
Qed.

Lemma add_task_ok s r i t :
  queue s r -> tasks s !! i = Some t -> 1 <= pid t ->
  wp (scheduler_add_task (Some i))
     (fun _ s' =>
        if bool_decide (i ∈ r) then s' = s
        else queue s' (r ++ [i]) /\ links_only (ready_task i s) s' /\
             head s' = match r with [] => Some i | _ => head s end) s.
Proof.
  intros Hq Ht Hpid. case_bool_decide as Hi; [|by eapply add_task_new].
  eapply wp_ok; [by eapply add_task_queued|done].
Qed.

(** The test a queue entry passes in [scheduler_get_next_task]. *)
Definition can_run (s : sched) (j : nat) : bool :=
  match tasks s !! j with
  | Some t => runnable t && task_slot_is_live (Some j) s
  | None => false
  end.

Lemma get_next_head s h :
  head s = Some h -> can_run s h = true ->
  scheduler_get_next_task s = Ok (Some h, put_head (nx s h) s).
Proof.
  intros Hh Hr. unfold can_run in Hr. destruct (tasks s !! h) as [t|] eqn:Ht; [|done].
  apply andb_true_iff in Hr as [Hrun Hlive].
  unfold scheduler_get_next_task. change (Z.to_nat (MAX_TASKS + 1)) with 33%nat.
  cbn [get_next_task]. unfold bind, gets. rewrite Hh, (tget_ok _ _ t) by done.
  rewrite Hlive, Hrun. simpl. unfold modify, ret, nx. by rewrite Ht.
Qed.
#[global] Arguments get_next_task : simpl never.

(** [n] selections in a row. *)
Fixpoint picks (n : nat) : M sched (list (option nat)) :=
  match n with
  | O => ret []
  | S n' => p <- scheduler_get_next_task ;; l <- picks n' ;; ret (p :: l)
  end.

Lemma picks_chain s l e :
  l <> [] -> chain (nx s) l e -> Forall (fun j => can_run s j = true) l ->
  picks (length l) (put_head (List.head l) s) = Ok (map Some l, put_head e s).
Proof.
  induction l as [|x l IH]; [done|]. intros Hne [Hx Hc] Hall.
  apply Forall_cons in Hall as [Hrun Hall]. cbn [length picks List.head]. unfold bind at 1.
  rewrite (get_next_head _ x) by done.
  change (nx (put_head (Some x) s) x) with (nx s x).
  change (put_head (nx s x) (put_head (Some x) s)) with (put_head (nx s x) s). rewrite Hx.
  destruct l as [|y l]; [done|]. unfold bind.
  change (Some y) with (List.head (y :: l)). by rewrite IH.
Qed.

(** Three ready tasks in the slots 0, 1 and 2, the first linked behind the
    last, and a fourth outside the queue. *)
Definition ring_task (p : Z) (n : option nat) : task :=
  mk_task p 0 TASK_STATE_READY true 0 0 0 0 0 0 10 10 0 2 10 0 0 None false (replicate 32 (-1)) n 0 0.
Definition ring3 (hd : nat) : sched :=
  mk_sched ([ring_task 1 (Some 1%nat); ring_task 2 (Some 2%nat); ring_task 3 (Some 0%nat); ring_task 4 None]
              ++ replicate 28 zero_task)
           (replicate 32 0) 0 20 0 (Some hd) (Some 2%nat) None 0 true None (replicate 8 None) 0 0 0 0 0.

Lemma ring3_queue hd : (hd < 3)%nat -> queue (ring3 hd) [0; 1; 2]%nat.
Proof.
  intros Hhd. apply queue_intro with hd; try done.
  - by apply (bool_decide_unpack _).
  - by apply (bool_decide_unpack _).
  - do 3 (destruct hd as [|hd]; [by apply (bool_decide_unpack _)|]). lia.
Qed.

(** * Properties of the ready queue *)

(** [scheduler_add_task] on a valid task: when the task is queued already
    nothing changes, otherwise it is linked behind the tail, made READY and
    given a full time slice; the order of the others, the head of a non-empty
    queue and every other field of the state are kept. *)
Theorem scheduler_add_task_spec s r i t :
  queue s r -> tasks s !! i = Some t -> 1 <= pid t ->
  wp (scheduler_add_task (Some i))
     (fun _ s' =>
        if bool_decide (i ∈ r) then s' = s
        else queue s' (r ++ [i]) /\ links_only (ready_task i s) s' /\
             head s' = match r with [] => Some i | _ => head s end) s.
Proof. apply add_task_ok. Qed.

Lemma scheduler_add_task_spec_witness :
  queue (ring3 1) [0; 1; 2]%nat /\
  wp (scheduler_add_task (Some 3%nat))
     (fun _ s' => queue s' [0; 1; 2; 3]%nat /\ head s' = Some 1%nat) (ring3 1).
Proof.
  split; [apply ring3_queue; lia|].
  assert (tasks (ring3 1) !! 3%nat = Some (ring_task 4 None)) as E by reflexivity.
  eapply wp_mono; [apply (scheduler_add_task_spec _ [0; 1; 2]%nat 3 (ring_task 4 None));
                   [apply ring3_queue; lia|exact E|by cbn; lia]|].
  intros [] s' H. cbv beta in H. rewrite bool_decide_false in H by set_solver.
  by destruct H as (? & ? & ?).
Defined.

(** C19. [scheduler_remove_task] takes exactly the given task out of the queue
    and changes nothing but links, when the task is not at the head or the head
    is the node behind the tail; it never panics. *)
Theorem scheduler_remove_task_spec s r i t :
  queue s r -> tasks s !! i = Some t -> (head s = Some i -> List.head r = Some i) ->
  wp (scheduler_remove_task (Some i))
     (fun _ s' => queue s' (remove_slot i r) /\ links_only s s') s.
Proof. apply remove_task_ok. Qed.

Lemma scheduler_remove_task_spec_witness :
  wp (scheduler_remove_task (Some 0%nat))
     (fun _ s' => queue s' [1; 2]%nat /\ links_only (ring3 1) s') (ring3 1).
Proof.
  apply (scheduler_remove_task_spec (ring3 1) [0; 1; 2]%nat 0 (ring_task 1 (Some 1%nat)));
    [apply ring3_queue; lia|reflexivity|discriminate].
Defined.

(** C40. Removing the task at the head when the head has advanced past the node
    behind the tail loses the tasks between the two: the walk starts with
    [prev = ready_queue_tail], which is not the predecessor, so the tail is
    linked to the successor of the removed task. *)
Theorem remove_rotated_head_drops s a i b z :
  queue s (a ++ i :: b ++ [z]) -> head s = Some i ->
  wp (scheduler_remove_task (Some i))
     (fun _ s' => queue s' (b ++ [z]) /\ links_only s s') s.
Proof.
  intros Hq Hh. pose proof Hq as (Hlen & Hnd & Hall & Htl & _ & Hc). rewrite Forall_forall in Hall.
  destruct (lookup_lt_is_Some_2 (tasks s) i) as [t Ht]; [rewrite Hlen; apply Hall; set_solver|].
  destruct (lookup_lt_is_Some_2 (tasks s) z) as [tz Htz]; [rewrite Hlen; apply Hall; set_solver|].
  pose proof (cyc_unlink_wrong _ _ _ _ _ Hnd Hc) as Hc'.
  assert (exists y, nx s i = Some y /\ y ∈ b ++ [z]) as (y & Hy & Hyin).
  { apply (chain_app _ a i (b ++ [z])) in Hc as [_ [Hc _]]. destruct b; simpl in *; eexists; split; set_solver. }
  apply NoDup_app in Hnd as (_ & _ & Hnd). apply NoDup_cons in Hnd as [Hi Hnd].
  rewrite app_comm_cons, app_assoc, last_snoc in Htl.
  assert (nx s i = next t) as Hn by (unfold nx; by rewrite Ht).
  unfold scheduler_remove_task. wp_step. wp_step. rewrite Hh.
  apply wp_bind, (wp_tget _ _ t); [done|].
  rewrite <- Hn, Hy, ptr_eqb_ne by set_solver. cbn [andb]. wp_step. wp_step. rewrite Htl.
  change (Z.to_nat (MAX_TASKS + 1)) with 33%nat.
  eapply wp_eq; [by apply (remove_walk_at s i (Some z) 32)|].
  eapply wp_mono; [apply (unlink_ok _ _ _ t tz); [set_solver|done..]|].
  intros _ s' (Hl & Hlen' & Hnx & Hh' & Ht'). split; [|done].
  apply queue_intro with y; try done.
  - congruence.
  - apply Forall_forall. intros x Hx. apply Hall. set_solver.
  - rewrite Ht', Htl, last_snoc, ptr_eqb_ne; set_solver.
  - by rewrite Hh', Hh, ptr_eqb_refl.
  - eapply chain_ext; [|exact Hc']. intros j _. by rewrite Hnx.
Qed.

Lemma remove_rotated_head_drops_witness :
  queue (ring3 1) [0; 1; 2]%nat /\
  wp (scheduler_remove_task (Some 1%nat))
     (fun _ s' => queue s' [2]%nat /\ links_only (ring3 1) s') (ring3 1).
Proof.
  split; [apply ring3_queue; lia|].
  apply (remove_rotated_head_drops (ring3 1) [0%nat] 1 [] 2); [apply ring3_queue; lia|reflexivity].
Defined.

(** C18. Round robin: while every queued task can run, as many selections as
    there are tasks return each of them once, in queue order from the head, and
    leave the state as it was. *)
Theorem round_robin s a h b :
  queue s (a ++ h :: b) -> head s = Some h -> Forall (fun j => can_run s j = true) (a ++ h :: b) ->
  picks (length (a ++ h :: b)) s = Ok (map Some (h :: b ++ a), s).
Proof.
  intros Hq Hh Hall. pose proof Hq as (_ & _ & _ & _ & _ & Hc). apply cyc_rotate in Hc.
  assert (length (a ++ h :: b) = length (h :: b ++ a)) as -> by (rewrite !length_app; simpl; rewrite length_app; lia).
  assert (put_head (Some h) s = s) as E by (destruct s; simpl in *; by rewrite Hh).
  rewrite <- E at 1. rewrite <- E at 2. apply (picks_chain s (h :: b ++ a) (Some h)); [done|exact Hc|].
  rewrite (Permutation_app_comm a (h :: b)) in Hall. exact Hall.
Qed.

Lemma round_robin_witness :
  picks 3 (ring3 1) = Ok ([Some 1; Some 2; Some 0]%nat, ring3 1).
Proof.
  apply (round_robin (ring3 1) [0%nat] 1 [2%nat]); [apply ring3_queue; lia|reflexivity|].
  by repeat constructor.
Defined.

End Scheduler.
