(* ===== verification/SchedInv.v ===== *)
(** The invariant of the scheduler, and that the timer interrupt keeps it
    (src/scheduler.c, scheduler_schedule_from_interrupt and what it calls).

    The circular cleanup buffer is a bounded first-in first-out queue; the
    ready queue holds tasks that can run; finished tasks wait in the cleanup
    queue and are in no other; at most the current task is RUNNING. *)
From Stdlib Require Import ZArith Lia List Bool String.
From stdpp Require Import base tactics numbers list gmap.
From S2P Require Import Prelude Task Ring Scheduler.
Open Scope Z_scope.

Module SchedInv.
Import Task Ring Scheduler.

(** * The cleanup queue *)

(** [cleanup_rep s q]: the circular buffer holds [q], oldest first. *)
Definition cleanup_rep (s : sched) (q : list nat) : Prop :=
  length (cleanup_queue s) = 8%nat /\ 0 <= cq_head s < 8 /\
  cq_count s = Z.of_nat (length q) /\ (length q <= 8)%nat /\
  cq_tail s = (cq_head s + cq_count s) mod 8 /\
  forall k x, q !! k = Some x ->
    cleanup_queue s !! Z.to_nat ((cq_head s + Z.of_nat k) mod 8) = Some (Some x).

(** Two states that differ in the cleanup buffer alone. *)
Definition erase_cleanup (s : sched) : sched :=
  put_cleanup_queue [] (put_cq_head 0 (put_cq_tail 0 (put_cq_count 0 s))).

Lemma cleanup_enqueue_ok s q t :
  cleanup_rep s q -> (length q < 8)%nat ->
  wp (cleanup_queue_enqueue (Some t))
     (fun ok s' => ok = true /\ cleanup_rep s' (q ++ [t]) /\ erase_cleanup s' = erase_cleanup s) s.
Proof.
  intros (Hlen & Hhd & Hcnt & _ & Htl & Hel) Hq. unfold cleanup_queue_enqueue.
  assert (0 <= cq_tail s < 8) as Htb by (rewrite Htl; apply Z.mod_pos_bound; lia).
  wp_step. wp_step. rewrite (proj2 (Z.leb_gt _ _)) by (unfold CLEANUP_QUEUE_SIZE; lia).
  do 4 wp_step. apply wp_bind. eapply wp_lift; [apply aset_ok; lia|]. wp_steps.
  split_and!; [done| |done]. unfold CLEANUP_QUEUE_SIZE.
  split_and!; simpl; rewrite ?length_insert, ?length_app; simpl; try lia.
  - rewrite Hcnt. u_lia.
  - rewrite Htl, Hcnt. rewrite (u32_small (Z.of_nat _ + 1)) by lia. u_lia.
  - intros k x Hk. rewrite list_lookup_insert. apply lookup_app_Some in Hk as [Hk|[Hk1 Hk2]].
    + case_decide as E; [exfalso|by apply Hel]. destruct E as [E _].
      apply lookup_lt_Some in Hk. rewrite Htl, Hcnt in E. u_lia.
    + apply list_lookup_singleton_Some in Hk2 as [Hk2 ->].
      rewrite decide_True; [done|]. rewrite Htl, Hcnt. split; [f_equal; f_equal; lia|u_lia].
Qed.

Lemma cleanup_enqueue_full s q t :
  cleanup_rep s q -> length q = 8%nat -> cleanup_queue_enqueue (Some t) s = Ok (false, s).
Proof.
  intros (_ & _ & Hcnt & _) Hq. unfold cleanup_queue_enqueue, bind, gets.
  by rewrite Hcnt, Hq.
Qed.

Lemma cleanup_dequeue_ok s q t :
  cleanup_rep s (t :: q) ->
  wp cleanup_queue_dequeue
     (fun x s' => x = Some t /\ cleanup_rep s' q /\ erase_cleanup s' = erase_cleanup s) s.
Proof.
  intros (Hlen & Hhd & Hcnt & Hmax & Htl & Hel). simpl in Hcnt, Hmax. unfold cleanup_queue_dequeue.
  wp_step. wp_step. rewrite (proj2 (Z.eqb_neq _ _)) by lia.
  pose proof (Hel 0%nat t eq_refl) as Ht. rewrite Z.add_0_r, Z.mod_small in Ht by lia.
  do 4 wp_step. apply wp_bind. eapply wp_lift; [apply aget_ok; [lia|done]|].
  apply wp_bind. eapply wp_lift; [apply aset_ok; lia|]. wp_steps.
  split_and!; [done| |done]. unfold CLEANUP_QUEUE_SIZE.
  split_and!; simpl; rewrite ?length_insert; try lia.
  - u_lia.
  - u_lia.
  - u_lia.
  - rewrite Htl, Hcnt. u_lia.
  - intros k x Hk. pose proof (lookup_lt_Some _ _ _ Hk) as Hlt. specialize (Hel (S k) x Hk).
    replace (((cq_head s +32 1) mod 8 + Z.of_nat k) mod 8) with ((cq_head s + Z.of_nat (S k)) mod 8) by u_lia.
    rewrite list_lookup_insert_ne; [done|]. u_lia.
Qed.

(** * The invariant *)

Definition finished (t : task) : bool := negb (not_finished t).

(** What holds of the tasks in the ready queue [r] and in the cleanup queue [q]. *)
Record good (s : sched) (r q : list nat) : Prop := {
  g_len : length (tasks s) = Z.to_nat MAX_TASKS;
  g_gens : length (slot_generations s) = Z.to_nat MAX_TASKS;
  g_run : forall j, j ∈ r -> can_run s j = true;
  g_live : forall j t, tasks s !! j = Some t ->
           0 <= pid t /\ (pid t <> 0 -> slot_generations s !! j = Some (generation t));
  g_cur : forall c, current s = Some c -> (c < Z.to_nat MAX_TASKS)%nat /\ c ∉ q;
  g_rep : cleanup_rep s q;
  g_nodup : NoDup q;
  g_fin : forall j, j ∈ q -> j ∉ r /\ exists t, tasks s !! j = Some t /\ finished t = true }.

(** At most one task is RUNNING, the current one. *)
Definition one_running (s : sched) : Prop :=
  forall j t, tasks s !! j = Some t -> state t = TASK_STATE_RUNNING -> current s = Some j.

Definition inv (s : sched) (r q : list nat) : Prop := queue s r /\ good s r q /\ one_running s.

(** ** The invariant does not depend on links *)

Lemma links_only_lookup s s' j t' :
  links_only s s' -> tasks s' !! j = Some t' ->
  exists t, tasks s !! j = Some t /\ set_next None t = set_next None t'.
Proof.
  intros H Hj. apply (f_equal tasks) in H. simpl in H.
  assert ((set_next None <$> tasks s) !! j = (set_next None <$> tasks s') !! j) as E by by rewrite H.
  rewrite !list_lookup_fmap, Hj in E. destruct (tasks s !! j) as [t|]; [|done].
  exists t. split; [done|]. by apply (inj Some).
Qed.

Lemma links_only_fields s s' :
  links_only s s' ->
  length (tasks s) = length (tasks s') /\ slot_generations s = slot_generations s' /\
  current s = current s' /\ enabled s = enabled s' /\ cleanup_queue s = cleanup_queue s' /\
  cq_head s = cq_head s' /\ cq_tail s = cq_tail s' /\ cq_count s = cq_count s' /\
  fpu_owner s = fpu_owner s' /\ free_slot_bitmap s = free_slot_bitmap s'.
Proof.
  intros H. unfold links_only, erase_links, put_head, put_tail, put_tasks in H. simpl in H.
  injection H as Ht. apply (f_equal length) in Ht. rewrite !length_fmap in Ht.
  split_and!; congruence.
Qed.

Lemma can_run_links s s' j : links_only s s' -> can_run s j = true -> can_run s' j = true.
Proof.
  intros H. assert (links_only s' s) as H' by by symmetry.
  destruct (links_only_fields _ _ H) as (Hl & Hg & _). unfold can_run, task_slot_is_live.
  destruct (tasks s' !! j) as [t'|] eqn:E'.
  - destruct (links_only_lookup _ _ _ _ H E') as (t & -> & Et). rewrite Hg.
    assert (state t = state t') by exact (f_equal state Et).
    assert (pid t = pid t') by exact (f_equal pid Et).
    assert (generation t = generation t') by exact (f_equal generation Et).
    unfold runnable. by simplify_eq/=; rewrite ?H0, ?H1, ?H2.
  - destruct (tasks s !! j) as [t|] eqn:E; [|done].
    destruct (links_only_lookup _ _ _ _ H' E) as (t' & ? & _). congruence.
Qed.

Lemma good_links s s' r q : links_only s s' -> good s r q -> good s' r q.
Proof.
  intros H [Hl Hg Hr Hlv Hc Hrep Hnd Hf].
  destruct (links_only_fields _ _ H) as (El & Eg & Ec & _ & Eq & Eh & Et & En & _).
  assert (links_only s' s) as H' by by symmetry. constructor; try done.
  - congruence.
  - congruence.
  - intros j Hj. by eapply can_run_links, Hr.
  - intros j t' Ht'. destruct (links_only_lookup _ _ _ _ H Ht') as (t & Ht & E). rewrite <- Eg.
    assert (pid t = pid t') as <- by exact (f_equal pid E).
    assert (generation t = generation t') as <- by exact (f_equal generation E). eauto.
  - intros c. rewrite <- Ec. apply Hc.
  - unfold cleanup_rep in *. by rewrite <- Eq, <- Eh, <- Et, <- En.
  - intros j Hj. destruct (Hf j Hj) as (Hnr & t & Ht & Hfin). split; [done|].
    destruct (links_only_lookup _ _ _ _ H' Ht) as (t' & Ht' & E). exists t'. split; [done|].
    rewrite <- Hfin. exact (f_equal finished E).
Qed.

Lemma one_running_links s s' : links_only s s' -> one_running s -> one_running s'.
Proof.
  intros H Ho j t' Ht' Hs. destruct (links_only_lookup _ _ _ _ H Ht') as (t & Ht & E).
  destruct (links_only_fields _ _ H) as (_ & _ & <- & _). apply (Ho j t Ht).
  rewrite <- Hs. exact (f_equal state E).
Qed.

(** ** Updates of one task *)

Lemma good_task s r q i t t' :
  good s r q -> tasks s !! i = Some t -> pid t' = pid t -> generation t' = generation t ->
  (i ∈ r -> runnable t' = true) -> (i ∈ q -> finished t' = true) ->
  good (put_tasks (<[i := t']> (tasks s)) s) r q.
Proof.
  intros [Hl Hg Hr Hlv Hc Hrep Hnd Hf] Hi Hp Hgen Hr' Hf'. pose proof (lookup_lt_Some _ _ _ Hi) as Hlt.
  constructor; try done; simpl.
  - by rewrite length_insert.
  - intros j Hj. specialize (Hr j Hj). unfold can_run, task_slot_is_live in *. simpl.
    rewrite list_lookup_insert. case_decide as E; [|done]. destruct E as [-> _].
    rewrite Hi in Hr. apply andb_true_iff in Hr as [_ Hr]. by rewrite Hr', Hp, Hgen.
  - intros j x Hx. rewrite list_lookup_insert in Hx. case_decide as E; [|eauto].
    destruct E as [-> _]. simplify_eq. rewrite Hp, Hgen. eauto.
  - intros j Hj. destruct (Hf j Hj) as (Hnr & x & Hx & Hfin). split; [done|].
    rewrite list_lookup_insert. case_decide as E; [|eauto]. destruct E as [-> _]. eauto.
Qed.

Lemma good_queue s r q i t :
  good s r q -> tasks s !! i = Some t -> runnable t = true -> pid t <> 0 ->
  good s (r ++ [i]) q.
Proof.
  intros [Hl Hg Hr Hlv Hc Hrep Hnd Hf] Hi Hrun Hp. constructor; try done.
  - intros j [Hj| ->%list_elem_of_singleton]%elem_of_app; [eauto|].
    unfold can_run, task_slot_is_live. rewrite Hi, Hrun.
    destruct (Hlv _ _ Hi) as [_ ->]; [|done]. by rewrite (proj2 (Z.eqb_neq _ _)), Z.eqb_refl.
  - intros j Hj. destruct (Hf j Hj) as (Hnr & x & Hx & Hfin). split; [|eauto].
    intros [?| ->%list_elem_of_singleton]%elem_of_app; [done|]. simplify_eq.
    by destruct t as [?? []].
Qed.

Lemma one_running_task s i t t' :
  one_running s -> tasks s !! i = Some t ->
  (state t' = TASK_STATE_RUNNING -> current s = Some i) ->
  one_running (put_tasks (<[i := t']> (tasks s)) s).
Proof.
  intros Ho Hi Ht' j x Hx Hs. simpl in *. rewrite list_lookup_insert in Hx.
  case_decide as E; [|by eapply Ho]. destruct E as [-> _]. simplify_eq. auto.
Qed.

(** ** Waking the sleepers *)

#[export] Instance ready_task_proper i : Proper (links_only ==> links_only) (ready_task i).
Proof.
  intros s s' H. apply links_only_intro; unfold ready_task; simpl.
  - intros j. assert ((set_next None <$> tasks s) !! j = (set_next None <$> tasks s') !! j) as E
      by exact (f_equal (fun x => tasks x !! j) H).
    rewrite !list_lookup_fmap in E. rewrite !list_lookup_alter. case_decide; [subst|done].
    destruct (tasks s !! j) as [t|], (tasks s' !! j) as [t'|]; simpl in *; try done.
    apply (inj Some) in E.
    exact (f_equal (fun x => Some (set_ticks_remaining (time_slice x) (set_state TASK_STATE_READY x))) E).
  - exact (f_equal (put_tasks (set_next None <$> tasks (ready_task i s))) H).
Qed.

(** The tasks of a list made ready, and the sleepers whose time has come. *)
Definition ready_all (l : list nat) (s : sched) : sched := foldl (fun s i => ready_task i s) s l.

#[export] Instance ready_all_proper l : Proper (links_only ==> links_only) (ready_all l).
Proof.
  induction l as [|i l IH]; intros s s' H; [done|]. unfold ready_all. simpl. apply IH.
  by apply ready_task_proper.
Qed.

Definition due (now : Z) (s : sched) (i : nat) : bool :=
  match tasks s !! i with
  | Some t => bool_decide (state t = TASK_STATE_SLEEPING) && (wake_tick t <=? now)
  | None => false
  end.

Lemma inv_sleeping_unqueued s r q i t :
  inv s r q -> tasks s !! i = Some t -> state t = TASK_STATE_SLEEPING -> i ∉ r /\ i ∉ q.
Proof.
  intros (_ & Hg & _) Ht Hs. split.
  - intros Hi%(g_run _ _ _ Hg). unfold can_run in Hi. rewrite Ht in Hi. unfold runnable in Hi.
    by rewrite Hs in Hi.
  - intros Hi%(g_fin _ _ _ Hg). destruct Hi as (_ & t' & Ht' & Hf). simplify_eq.
    unfold finished, not_finished, terminated in Hf. by rewrite Hs in Hf.
Qed.

Lemma inv_add_sleeper s r q i t :
  inv s r q -> tasks s !! i = Some t -> state t = TASK_STATE_SLEEPING -> 1 <= pid t ->
  wp (scheduler_add_task (Some i))
     (fun _ s' => inv s' (r ++ [i]) q /\ links_only (ready_task i s) s') s.
Proof.
  intros Hinv Ht Hs Hp. destruct (inv_sleeping_unqueued _ _ _ _ _ Hinv Ht Hs) as [Hr Hq].
  destruct Hinv as (Hqu & Hg & Ho).
  eapply wp_mono; [by eapply add_task_new|]. intros _ s' (Hqu' & Hl & _). split; [|done].
  split_and!; [done| |].
  - eapply good_links; [done|]. rewrite (ready_task_insert _ _ t) by done.
    eapply good_queue; [eapply good_task; try done; by intros| | |].
    + simpl. apply list_lookup_insert_eq. by eapply lookup_lt_Some.
    + done.
    + simpl. lia.
  - eapply one_running_links; [done|]. rewrite (ready_task_insert _ _ t) by done.
    by eapply one_running_task.
Qed.

Lemma ready_task_other s i j : i <> j -> tasks (ready_task i s) !! j = tasks s !! j.
Proof. intros Hne. unfold ready_task. simpl. by rewrite list_lookup_alter_ne. Qed.

Lemma due_links s s' now j : links_only s s' -> due now s j = due now s' j.
Proof.
  intros H. pose proof (f_equal (fun x => tasks x !! j) H) as E. simpl in E.
  rewrite !list_lookup_fmap in E. unfold due.
  destruct (tasks s !! j) as [t|], (tasks s' !! j) as [t'|]; simpl in *; try done.
  apply (inj Some) in E. exact (f_equal (fun t => bool_decide (state t = TASK_STATE_SLEEPING) && (wake_tick t <=? now)) E).
Qed.

Lemma due_other s now i j : i <> j -> due now (ready_task i s) j = due now s j.
Proof. intros. unfold due. by rewrite ready_task_other. Qed.

Definition has_pid (s : sched) (i : nat) : Prop := exists t, tasks s !! i = Some t /\ 1 <= pid t.

Lemma has_pid_ready s i j : has_pid s j -> has_pid (ready_task i s) j.
Proof.
  intros (t & Ht & Hp). unfold has_pid, ready_task. simpl. rewrite list_lookup_alter.
  case_decide; subst; rewrite Ht; simpl; eauto.
Qed.

Lemma has_pid_links s s' j : links_only s s' -> has_pid s j -> has_pid s' j.
Proof.
  intros H (t & Ht & Hp). symmetry in H.
  destruct (links_only_lookup _ _ _ _ H Ht) as (t' & Ht' & E). exists t'. split; [done|].
  assert (pid t' = pid t) as -> by exact (f_equal pid E). done.
Qed.

Lemma wake_sleepers_ok now l : forall s r q,
  inv s r q -> NoDup l -> Forall (has_pid s) l ->
  wp (wake_sleepers now l)
     (fun _ s' => inv s' (r ++ List.filter (due now s) l) q /\
                  links_only (ready_all (List.filter (due now s) l) s) s') s.
Proof.
  induction l as [|i l IH]; intros s r q Hinv Hnd Hp.
  { apply wp_ret. rewrite app_nil_r. done. }
  apply NoDup_cons in Hnd as [Hi Hnd]. apply Forall_cons in Hp as [(t & Ht & Hpid) Hp].
  cbn [wake_sleepers]. apply wp_bind, (wp_tget _ _ t); [done|]. apply wp_bind. cbn [List.filter].
  assert (due now s i = bool_decide (state t = TASK_STATE_SLEEPING) && (wake_tick t <=? now)) as Hd
    by (unfold due; by rewrite Ht). rewrite Hd.
  destruct (bool_decide_reflect (state t = TASK_STATE_SLEEPING)) as [Hs|Hs]; cbn [andb];
    [|apply wp_ret; by apply IH].
  destruct (wake_tick t <=? now); [|apply wp_ret; by apply IH].
  eapply wp_mono; [by eapply inv_add_sleeper|]. intros _ s1 [Hinv1 Hl1].
  assert (List.filter (due now s1) l = List.filter (due now s) l) as E.
  { apply List.filter_ext_in. intros j Hj%list_elem_of_In. rewrite <- (due_links _ _ _ _ Hl1).
    apply due_other. set_solver. }
  eapply wp_mono; [apply IH; [done|done|]|].
  - eapply Forall_impl; [exact Hp|]. intros j Hj. by apply (has_pid_links _ _ _ Hl1), has_pid_ready.
  - intros _ s' [Hinv' Hl']. rewrite E in *. rewrite <- app_assoc in Hinv'. split; [done|].
    etransitivity; [|exact Hl']. exact (ready_all_proper _ _ _ Hl1).
Qed.

(** ** Reaping finished tasks *)

(** A slot outside both queues is cleared. *)
Lemma good_clear s r q i t t' g :
  good s r q -> tasks s !! i = Some t -> i ∉ r -> i ∉ q -> pid t' = 0 ->
  good (put_slot_generations (<[i := g]> (slot_generations s))
          (put_tasks (<[i := t']> (tasks s)) s)) r q.
Proof.
  intros [Hl Hg Hr Hlv Hc Hrep Hnd Hf] Hi Hir Hiq Hp.
  constructor; try done; simpl; rewrite ?length_insert; try done.
  - intros j Hj. specialize (Hr j Hj). unfold can_run, task_slot_is_live in *. simpl.
    by rewrite !list_lookup_insert_ne by set_solver.
  - intros j x. rewrite list_lookup_insert. case_decide as E; [intros [= <-]; lia|].
    intros Hx. rewrite list_lookup_insert. destruct (Hlv _ _ Hx) as [H1 H2]. split; [done|].
    intros H3. case_decide as E'; [|by apply H2]. destruct E' as [-> _].
    exfalso. apply E. split; [done|]. by eapply lookup_lt_Some.
  - intros j Hj. rewrite list_lookup_insert_ne by set_solver. eauto.
Qed.

(** The parts of the state neither the tasks nor the queues are in. *)
Lemma good_fpu s r q v : good s r q -> good (put_fpu_owner v s) r q.
Proof. by intros []; constructor. Qed.
Lemma good_bitmap s r q v : good s r q -> good (put_free_slot_bitmap v s) r q.
Proof. by intros []; constructor. Qed.
Lemma good_head s r q v : good s r q -> good (put_head v s) r q.
Proof. by intros []; constructor. Qed.

Lemma fpu_release_ok s i (Q : unit -> sched -> Prop) :
  (forall v, Q tt (put_fpu_owner v s)) -> wp (scheduler_fpu_release (Some i)) Q s.
Proof.
  intros HQ. unfold scheduler_fpu_release. wp_steps; [done|].
  specialize (HQ (fpu_owner s)). by destruct s.
Qed.

(** [s] and [s'] agree on every task but [i], links apart. *)
Definition agree_but (i : nat) (s s' : sched) : Prop :=
  current s' = current s /\ enabled s' = enabled s /\
  forall j, j <> i -> set_next None <$> (tasks s' !! j) = set_next None <$> (tasks s !! j).

Lemma agree_links i s s' : links_only s s' -> agree_but i s s'.
Proof.
  intros H. destruct (links_only_fields _ _ H) as (_ & _ & ? & ? & _). split_and!; [done..|].
  intros j _. pose proof (f_equal (fun x => tasks x !! j) H) as E. simpl in E.
  by rewrite !list_lookup_fmap in E.
Qed.

Lemma queue_ext s s' r :
  queue s r -> length (tasks s') = length (tasks s) -> head s' = head s -> tail s' = tail s ->
  (forall j, j ∈ r -> nx s' j = nx s j) -> queue s' r.
Proof.
  intros (Hlen & Hnd & Hall & Htl & Hhd & Hc) El Eh Et Hnx. split_and!; try congruence; try done.
  - by rewrite Eh.
  - eapply chain_ext; [|exact Hc]. intros j Hj. by rewrite Hnx.
Qed.

(** Writing a task without changing its link. *)
Lemma queue_task s r i t t' :
  queue s r -> tasks s !! i = Some t -> next t' = next t ->
  queue (put_tasks (<[i := t']> (tasks s)) s) r.
Proof.
  intros Hq Ht Hn. eapply queue_ext; [exact Hq|simpl; by rewrite length_insert|done|done|].
  intros j _. unfold nx. simpl. rewrite list_lookup_insert. case_decide as E; [|done].
  destruct E as [-> _]. by rewrite Ht.
Qed.

Lemma task_free_slot_ok s i (Q : unit -> sched -> Prop) :
  (i < Z.to_nat MAX_TASKS)%nat -> length (slot_generations s) = Z.to_nat MAX_TASKS ->
  (forall g b, Q tt (put_free_slot_bitmap b
                   (put_slot_generations (<[i := g]> (slot_generations s)) s))) ->
  wp (task_free_slot_for_task (Some i)) Q s.
Proof.
  intros Hi Hlen HQ. unfold task_free_slot_for_task, task_free_slot, MAX_TASKS in *.
  rewrite (proj2 (Z.leb_le _ _)), (proj2 (Z.ltb_lt _ _)) by lia. cbn [andb].
  destruct (lookup_lt_is_Some_2 (slot_generations s) i) as [g Hg]; [by rewrite Hlen|].
  wp_step. wp_step. apply wp_bind. eapply wp_lift; [apply aget_ok; [lia|by rewrite Nat2Z.id]|].
  apply wp_bind. eapply wp_lift; [apply aset_ok; lia|]. rewrite Nat2Z.id.
  unfold atomic_set_bit. wp_steps. apply HQ.
Qed.

#[global] Arguments scheduler_fpu_release : simpl never.
#[global] Arguments task_free_slot_for_task : simpl never.

Lemma reap_ok s r q i t :
  inv s r q -> tasks s !! i = Some t -> i ∉ r -> i ∉ q ->
  wp (reap (Some i)) (fun _ s' => inv s' r q /\ agree_but i s s') s.
Proof.
  intros (Hqu & Hg & Ho) Ht Hr Hq. unfold reap. apply wp_bind.
  assert (head s <> Some i) as Hh.
  { destruct Hqu as (_ & _ & _ & _ & Hhd & _). destruct r; [congruence|]. naive_solver. }
  eapply wp_mono; [by eapply remove_task_inner|]. intros _ s1 (Hqu1 & Hl1 & Hh1).
  rewrite remove_slot_absent in Hqu1 by done.
  pose proof (good_links _ _ _ _ Hl1 Hg) as Hg1. pose proof (one_running_links _ _ Hl1 Ho) as Ho1.
  assert (exists t1, tasks s1 !! i = Some t1) as (t1 & Ht1).
  { symmetry in Hl1. destruct (links_only_lookup _ _ _ _ Hl1 Ht) as (t1 & ? & _). eauto. }
  pose proof (agree_links i _ _ Hl1) as Ha. clear - Hqu1 Hg1 Ho1 Ht1 Ha Hr Hq.
  pose proof (lookup_lt_Some _ _ _ Ht1) as Hlt.
  apply wp_bind, fpu_release_ok. intros v1. task_steps.
  apply task_free_slot_ok; [by rewrite <- (g_len _ _ _ Hg1)|by apply Hg1|]. intros g b.
  apply fpu_release_ok. intros v2. rewrite list_insert_insert_eq. split; [split_and!|].
  - eapply queue_ext; [exact Hqu1|simpl; by rewrite length_insert|done|done|].
    intros j Hj. unfold nx; simpl. rewrite list_lookup_insert_ne; [done|]. set_solver.
  - apply good_fpu, good_bitmap.
    exact (good_clear _ _ _ i t1 (set_pid 0 (set_state TASK_STATE_TERMINATED t1)) g
             (good_fpu _ _ _ v1 Hg1) Ht1 Hr Hq eq_refl).
  - intros j x. simpl. rewrite list_lookup_insert. case_decide as E; [by intros [= <-]|]. apply Ho1.
  - destruct Ha as (? & ? & Ha). split_and!; [done..|]. intros j Hj. simpl.
    rewrite list_lookup_insert_ne by done. auto.
Qed.

Lemma erase_cleanup_fields s s' :
  erase_cleanup s' = erase_cleanup s ->
  tasks s' = tasks s /\ slot_generations s' = slot_generations s /\ head s' = head s /\
  tail s' = tail s /\ current s' = current s /\ enabled s' = enabled s.
Proof.
  intros H. unfold erase_cleanup, put_cleanup_queue, put_cq_head, put_cq_tail, put_cq_count in H.
  simpl in H. injection H. intros. done.
Qed.

Lemma good_cleanup s s' r q q' :
  erase_cleanup s' = erase_cleanup s -> good s r q -> cleanup_rep s' q' -> NoDup q' ->
  (forall c, current s = Some c -> c ∉ q') ->
  (forall j, j ∈ q' -> j ∉ r /\ exists t, tasks s !! j = Some t /\ finished t = true) ->
  good s' r q'.
Proof.
  intros H [Hl Hg Hr Hlv Hc Hrep Hnd Hf] Hrep' Hnd' Hc' Hf'.
  destruct (erase_cleanup_fields _ _ H) as (Et & Eg & _ & _ & Ec & _).
  constructor; rewrite ?Et, ?Eg; try done.
  - intros j Hj. specialize (Hr j Hj). unfold can_run, task_slot_is_live in *. by rewrite Et, Eg.
  - intros c Hcc. rewrite Ec in Hcc. split; [by apply Hc|by apply Hc'].
Qed.

Lemma queue_cleanup s s' r : erase_cleanup s' = erase_cleanup s -> queue s r -> queue s' r.
Proof.
  intros H Hq. destruct (erase_cleanup_fields _ _ H) as (Et & _ & Eh & Etl & _).
  eapply queue_ext; [exact Hq|by rewrite Et|done|done|]. intros j _. unfold nx. by rewrite Et.
Qed.

Lemma one_running_cleanup s s' : erase_cleanup s' = erase_cleanup s -> one_running s -> one_running s'.
Proof.
  intros H Ho. destruct (erase_cleanup_fields _ _ H) as (Et & _ & _ & _ & Ec & _).
  unfold one_running. by rewrite Et, Ec.
Qed.

(** [s] and [s'] agree on every task outside [q], links apart. *)
Definition agree_out (q : list nat) (s s' : sched) : Prop :=
  current s' = current s /\ enabled s' = enabled s /\
  forall j, j ∉ q -> set_next None <$> (tasks s' !! j) = set_next None <$> (tasks s !! j).

Lemma drain_ok fuel : forall s r q,
  inv s r q -> (length q < fuel)%nat ->
  wp (drain_cleanup fuel) (fun _ s' => inv s' r [] /\ agree_out q s s') s.
Proof.
  induction fuel as [|fuel IH]; intros s r q Hinv Hf; [lia|].
  pose proof Hinv as (Hqu & Hg & Ho). pose proof (g_rep _ _ _ Hg) as Hrep.
  cbn [drain_cleanup]. unfold cleanup_queue_is_empty. wp_step. wp_step. wp_step. wp_step.
  destruct Hrep as (_ & _ & Hcnt & _). destruct q as [|t q].
  { rewrite Hcnt. simpl. apply wp_ret. done. }
  rewrite (proj2 (Z.eqb_neq _ _)) by (rewrite Hcnt; simpl; lia).
  apply wp_bind. eapply wp_mono; [apply (cleanup_dequeue_ok s q t), Hg|].
  intros x s1 (-> & Hrep1 & He). pose proof (g_nodup _ _ _ Hg) as Hnd.
  apply NoDup_cons in Hnd as [Htq Hnd].
  destruct (g_fin _ _ _ Hg t) as (Htr & tt' & Htt & _); [by left|].
  destruct (erase_cleanup_fields _ _ He) as (Et & _ & _ & _ & Ec & Een).
  apply wp_bind. eapply wp_mono; [apply (reap_ok s1 r q t tt'); [|by rewrite Et|done..]|].
  - split_and!; [by eapply queue_cleanup| |by eapply one_running_cleanup].
    eapply good_cleanup; try done.
    + intros c Hc. destruct (g_cur _ _ _ Hg c Hc). set_solver.
    + intros j Hj. apply (g_fin _ _ _ Hg). by right.
  - intros _ s2 (Hinv2 & Hc2 & He2 & Ha). eapply wp_mono; [apply IH; [done|simpl in Hf; lia]|].
    intros _ s3 (Hinv3 & Hc3 & He3 & Ha3). split; [done|]. split_and!; [congruence..|].
    intros j Hj. rewrite Ha3, Ha, Et by set_solver. done.
Qed.

#[global] Arguments drain_cleanup : simpl never.
#[global] Arguments wake_sleepers : simpl never.

(** ** Selection and the switch *)

Lemma queue_advance s r h : queue s r -> head s = Some h -> queue (put_head (nx s h) s) r.
Proof.
  intros Hq Hh. pose proof Hq as (Hlen & Hnd & Hall & Htl & Hhd & Hc).
  assert (h ∈ r) as Hin by (destruct r; [congruence|naive_solver]).
  destruct (cyc_next _ _ h Hc Hin) as (y & Hy & Hyin). rewrite Hy. by apply queue_intro with y.
Qed.

Lemma queue_head_in s r h : queue s r -> head s = Some h -> h ∈ r.
Proof. intros (_ & _ & _ & _ & Hhd & _) Hh. destruct r; [congruence|naive_solver]. Qed.

Lemma get_next_inv s r q :
  inv s r q ->
  wp scheduler_get_next_task
     (fun n s' => inv s' r q /\ n = head s /\ tasks s' = tasks s /\ current s' = current s) s.
Proof.
  intros (Hqu & Hg & Ho). destruct (head s) as [h|] eqn:Hh.
  - pose proof (queue_head_in _ _ _ Hqu Hh) as Hin.
    eapply wp_ok; [apply (get_next_head s h Hh), Hg, Hin|]. split; [|done].
    split_and!; [by apply queue_advance|by apply good_head|done].
  - eapply (wp_ok _ _ _ None s); [|done]. unfold scheduler_get_next_task.
    change (Z.to_nat (MAX_TASKS + 1)) with 33%nat.
    change (get_next_task 33 s) with
      ((hd <- gets head ;; match hd with None => ret None | Some _ =>
          t <- tget hd ;; live <- gets (task_slot_is_live hd) ;;
          if negb (runnable t) || negb live
          then scheduler_remove_task hd ;;; get_next_task 32
          else modify (put_head (next t)) ;;; ret hd end) s).
    unfold bind, gets. by rewrite Hh.
Qed.

(** Changing fields of one task that are neither identity, state nor link. *)
Definition same_role (t t' : task) : Prop :=
  pid t' = pid t /\ generation t' = generation t /\ state t' = state t /\ next t' = next t.

Lemma inv_role s r q i t t' :
  inv s r q -> tasks s !! i = Some t -> same_role t t' ->
  inv (put_tasks (<[i := t']> (tasks s)) s) r q.
Proof.
  intros (Hqu & Hg & Ho) Ht (Hp & Hgen & Hs & Hn). split_and!.
  - by eapply queue_task.
  - eapply good_task; try done.
    + intros Hi%(g_run _ _ _ Hg). unfold can_run in Hi. rewrite Ht in Hi.
      apply andb_true_iff in Hi as [Hi _]. unfold runnable in *. by rewrite Hs.
    + intros Hi%(g_fin _ _ _ Hg). destruct Hi as (_ & x & Hx & Hf). simplify_eq.
      unfold finished, not_finished, terminated in *. by rewrite Hs.
  - eapply one_running_task; [done|done|]. rewrite Hs. eauto.
Qed.

Lemma charge_tick_ok s r q c t :
  inv s r q -> tasks s !! c = Some t ->
  wp (charge_tick (Some c))
     (fun _ s' => inv s' r q /\ head s' = head s /\ current s' = current s /\
                  exists t', tasks s' !! c = Some t' /\ same_role t t') s.
Proof.
  intros Hinv Ht. unfold charge_tick. pose proof (lookup_lt_Some _ _ _ Ht). task_steps.
  - split_and!; try done; [by eapply inv_role|].
    rewrite list_lookup_insert_eq by done. by eexists.
  - split_and!; try done. by exists t.
Qed.

Lemma reset_slice_ok s r q c t :
  inv s r q -> tasks s !! c = Some t ->
  wp (reset_slice (Some c)) (fun _ s' => inv s' r q /\ current s' = current s) s.
Proof. intros Hinv Ht. unfold reset_slice. task_steps. split; [by eapply inv_role|done]. Qed.

Lemma good_in s r q n : good s r q -> n ∈ r -> n ∉ q /\ exists t, tasks s !! n = Some t.
Proof.
  intros Hg Hn. split; [intros Hq; by destruct (g_fin _ _ _ Hg n Hq)|].
  apply (g_run _ _ _ Hg) in Hn. unfold can_run in Hn. destruct (tasks s !! n); [eauto|done].
Qed.

Lemma good_current s r q n : good s r q -> n ∈ r -> good (put_current (Some n) s) r q.
Proof.
  intros Hg Hn. destruct (good_in _ _ _ _ Hg Hn) as (Hnq & t & Ht).
  destruct Hg as [Hl Hge Hr Hlv Hc Hrep Hnd Hf]. constructor; try done.
  intros c [= <-]. split; [|done]. rewrite <- Hl. by eapply lookup_lt_Some.
Qed.

Definition none_running (s : sched) : Prop :=
  forall j t, tasks s !! j = Some t -> state t <> TASK_STATE_RUNNING.

(** A finished task that is left goes to the cleanup queue, unless that is full. *)
Lemma retire_finished s r q c t n :
  inv s r q -> current s = Some c -> tasks s !! c = Some t -> finished t = true -> n ∈ r ->
  wp (cleanup_queue_enqueue (Some c))
     (fun _ s' => queue s' r /\ tasks s' = tasks s /\
                  exists q', good (put_current (Some n) s') r q') s.
Proof.
  intros (Hqu & Hg & Ho) Hc Ht Hf Hn. destruct (g_cur _ _ _ Hg c Hc) as [_ Hcq].
  pose proof (g_rep _ _ _ Hg) as Hrep.
  assert (c ∉ r) as Hcr.
  { intros Hi%(g_run _ _ _ Hg). unfold can_run in Hi. rewrite Ht in Hi. by destruct t as [?? []]. }
  destruct (decide (length q < 8)%nat) as [Hlt|Hge].
  - eapply wp_mono; [by apply (cleanup_enqueue_ok s q c)|]. intros ok s' (_ & Hrep' & He).
    split_and!; [by eapply queue_cleanup|by apply (erase_cleanup_fields _ _ He)|].
    exists (q ++ [c]).
    eapply (good_cleanup (put_current (Some n) s) _ r q); [|by apply good_current|exact Hrep'|..].
    + change (put_current (Some n) (erase_cleanup s') = put_current (Some n) (erase_cleanup s)).
      by rewrite He.
    + rewrite <- Permutation_cons_append. constructor; [done|apply Hg].
    + intros x [= <-]. destruct (good_in _ _ _ _ Hg Hn) as [Hnq _]. set_solver.
    + intros j [Hj| ->%list_elem_of_singleton]%elem_of_app; [by apply Hg|]. simpl. eauto.
  - eapply wp_ok; [eapply cleanup_enqueue_full; [done|]|].
    { destruct Hrep as (_ & _ & _ & ? & _). lia. }
    split_and!; try done. exists q. by apply good_current.
Qed.

Lemma retire_ok s r q c n :
  inv s r q -> current s = Some c -> n ∈ r ->
  wp (retire_prev (Some c))
     (fun _ s' => queue s' r /\ none_running s' /\ exists q', good (put_current (Some n) s') r q') s.
Proof.
  intros Hinv Hc Hn. pose proof Hinv as (Hqu & Hg & Ho). destruct (g_cur _ _ _ Hg c Hc) as [Hlt Hcq].
  rewrite <- (g_len _ _ _ Hg) in Hlt. destruct (lookup_lt_is_Some_2 _ _ Hlt) as [t Ht].
  assert (state t <> TASK_STATE_RUNNING -> none_running s) as Hnone.
  { intros Hs j x Hx Hsx. pose proof (Ho _ _ Hx Hsx). congruence. }
  unfold retire_prev. apply wp_bind, (wp_tget _ _ t); [done|].
  destruct (state t) eqn:Hs.
  - apply wp_ret. split_and!; [done|by apply Hnone|]. exists q. by apply good_current.
  - eapply wp_tupd; [exact Ht|]. split_and!.
    + by eapply queue_task.
    + intros j x Hx Hsx. simpl in Hx. rewrite list_lookup_insert in Hx. case_decide as E; [by simplify_eq|].
      pose proof (Ho _ _ Hx Hsx). apply E. split; [congruence|done].
    + exists q. apply (good_task (put_current (Some n) s) r q c t); try done; by apply good_current.
  - apply wp_ret. split_and!; [done|by apply Hnone|]. exists q. by apply good_current.
  - apply wp_ret. split_and!; [done|by apply Hnone|]. exists q. by apply good_current.
  - apply wp_bind. eapply wp_mono; [apply (retire_finished s r q c t n); try done|].
    + unfold finished, not_finished, terminated. by rewrite Hs.
    + intros ok s' (Hqu' & Et & Hg'). apply wp_ret. split_and!; try done.
      intros j x. rewrite Et. by apply Hnone.
  - apply wp_bind. eapply wp_mono; [apply (retire_finished s r q c t n); try done|].
    + unfold finished, not_finished, terminated. by rewrite Hs.
    + intros ok s' (Hqu' & Et & Hg'). apply wp_ret. split_and!; try done.
      intros j x. rewrite Et. by apply Hnone.
Qed.

Lemma dispatch_ok s r q n :
  queue s r -> none_running s -> good (put_current (Some n) s) r q -> n ∈ r ->
  wp (dispatch (Some n)) (fun _ s' => inv (put_current (Some n) s') r q) s.
Proof.
  intros Hqu Hnone Hg Hn. destruct (good_in _ _ _ _ Hg Hn) as (Hnq & t & Ht). simpl in Ht.
  unfold dispatch. task_steps. rewrite list_insert_insert_eq. split_and!.
  - exact (queue_task s r n t (set_ticks_remaining (time_slice t) (set_state TASK_STATE_RUNNING t)) Hqu Ht eq_refl).
  - by apply (good_task (put_current (Some n) s) r q n t).
  - intros j x Hx Hs. simpl in *. rewrite list_lookup_insert in Hx. case_decide as E.
    + by destruct E as [-> _].
    + by apply Hnone in Hx.
Qed.

Lemma inv_counters s r q a b n :
  inv s r q ->
  inv (put_crit_depth b (put_int_depth a s)) r q /\ inv (put_switches n s) r q.
Proof. by intros (? & [] & ?); split. Qed.

(** The whole switch from the current task to a queued one, up to the saved
    nesting depths. *)
Definition switch_tail (c n : option nat) : M sched unit :=
  incr_switches ;;; scheduler_switch_kernel_context c n.

Lemma switch_tail_ok s r q c n t :
  inv s r q -> current s = Some n -> n ∈ r -> tasks s !! c = Some t ->
  wp (switch_tail (Some c) (Some n))
     (fun _ s' => inv s' r q /\ current s' = Some n) s.
Proof.
  intros Hinv Hc Hn Ht. unfold switch_tail, incr_switches, scheduler_switch_kernel_context.
  apply (inv_counters _ _ _ 0 0 (switches s +32 1)) in Hinv as [_ Hinv].
  wp_steps. eapply wp_tupd; [exact Ht|].
  eapply (inv_role _ _ _ c t (set_saved_crit_depth (crit_depth s) (set_saved_int_depth (int_depth s) t))) in Hinv;
    [|exact Ht|done].
  pose proof Hinv as (_ & Hg & _). destruct (good_in _ _ _ _ Hg Hn) as (_ & tn & Htn).
  simpl. apply wp_bind, (wp_tget _ _ tn); [exact Htn|]. wp_steps.
  split; [|done]. by apply (inv_counters _ _ _ (saved_int_depth tn) (saved_crit_depth tn) 0) in Hinv as [Hinv _].
Qed.

Lemma active_slots_spec ts : forall k j,
  j ∈ active_slots ts k ->
  (k <= j)%nat /\ exists t, ts !! (j - k)%nat = Some t /\ pid t <> 0 /\ terminated t = false.
Proof.
  induction ts as [|t ts IH]; intros k j Hj; [by apply not_elem_of_nil in Hj|].
  simpl in Hj. apply elem_of_app in Hj as [Hj|Hj].
  - destruct (Z.eqb_spec (pid t) 0), (terminated t) eqn:E; simpl in Hj; try by apply not_elem_of_nil in Hj.
    apply list_elem_of_singleton in Hj as ->. rewrite Nat.sub_diag. split; [lia|]. by exists t.
  - destruct (IH _ _ Hj) as (Hle & t' & Ht' & Hp). split; [lia|]. exists t'. split; [|done].
    replace (j - k)%nat with (S (j - S k)) by lia. done.
Qed.

Lemma active_slots_nodup ts : forall k, NoDup (active_slots ts k).
Proof.
  induction ts as [|t ts IH]; intros k; [constructor|]. simpl. apply NoDup_app. split_and!; [|  |apply IH].
  - destruct (negb _ && negb _); [apply NoDup_singleton|constructor].
  - intros j Hj Hj'. apply active_slots_spec in Hj' as [Hle _].
    destruct (negb _ && negb _); [|by apply not_elem_of_nil in Hj].
    apply list_elem_of_singleton in Hj. lia.
Qed.

Lemma task_get_all_ok s r q n :
  good s r q -> NoDup (task_get_all n s) /\ Forall (has_pid s) (task_get_all n s).
Proof.
  intros Hg. unfold task_get_all. split.
  - apply (NoDup_app (take n (active_slots (tasks s) 0)) (drop n (active_slots (tasks s) 0))).
    rewrite take_drop. apply active_slots_nodup.
  - apply Forall_take, Forall_forall. intros j Hj.
    destruct (active_slots_spec _ _ _ Hj) as (_ & t & Ht & Hp & _). rewrite Nat.sub_0_r in Ht.
    exists t. split; [done|]. destruct (g_live _ _ _ Hg _ _ Ht). lia.
Qed.

(** A task that is not terminated. *)
Definition alive_at (s : sched) (j : nat) : bool :=
  match tasks s !! j with Some t => negb (terminated t) | None => false end.

Lemma alive_at_eq s s' j :
  set_next None <$> (tasks s' !! j) = set_next None <$> (tasks s !! j) ->
  alive_at s j = true -> alive_at s' j = true.
Proof.
  unfold alive_at. intros E. destruct (tasks s !! j) as [t|], (tasks s' !! j) as [t'|]; try done.
  apply (inj Some) in E. assert (terminated t' = terminated t) as -> by exact (f_equal terminated E).
  done.
Qed.

Lemma ready_all_alive l : forall s j, alive_at s j = true -> alive_at (ready_all l s) j = true.
Proof.
  induction l as [|i l IH]; intros s j H; [done|]. apply IH. unfold alive_at, ready_task in *. simpl.
  rewrite list_lookup_alter. case_decide; subst; [|done]. by destruct (tasks s !! _).
Qed.

Lemma ready_all_current l : forall s, current (ready_all l s) = current s.
Proof. induction l as [|i l IH]; intros s; [done|]. exact (IH (ready_task i s)). Qed.

Lemma check_exhausted_ok s r q c :
  inv s r q -> current s = Some c -> alive_at s c = true \/ r <> [] ->
  check_exhausted s = Ok (tt, s).
Proof.
  intros (Hqu & _) Hc Ha. unfold check_exhausted, bind, gets. rewrite Hc.
  destruct (head s) as [h|] eqn:Hh; [done|]. destruct Ha as [Ha|Hr].
  - unfold alive_at in Ha. destruct (tasks s !! c) as [t|] eqn:Ht; [|done].
    rewrite (tget_ok _ _ t) by done. by destruct (terminated t).
  - destruct Hqu as (_ & _ & _ & _ & Hhd & _). destruct r; [done|]. naive_solver.
Qed.

(** The end of a time slice in the interrupt path. *)
Definition slice_end (cur : option nat) : M sched unit :=
  nxt <- scheduler_get_next_task ;;
  if ptr_eqb nxt None || ptr_eqb nxt cur then reset_slice cur
  else
    retire_prev cur ;;;
    dispatch nxt ;;;
    modify (put_current nxt) ;;;
    switch_tail cur nxt.

Lemma slice_end_ok s r q c :
  inv s r q -> current s = Some c ->
  wp (slice_end (Some c))
     (fun _ s' => exists q', inv s' r q' /\
        current s' = match head s with Some h => Some h | None => Some c end) s.
Proof.
  intros Hinv Hc. assert (exists t, tasks s !! c = Some t) as (t & Ht).
  { destruct Hinv as (_ & Hg & _). destruct (g_cur _ _ _ Hg c Hc) as [Hlt _].
    rewrite <- (g_len _ _ _ Hg) in Hlt. by destruct (lookup_lt_is_Some_2 _ _ Hlt) as [t Ht]; eauto. }
  unfold slice_end. apply wp_bind. eapply wp_mono; [by eapply get_next_inv|].
  intros n s1 (Hinv1 & -> & Et & Ec). destruct (head s) as [h|] eqn:Hh; cycle 1.
  { cbn [orb ptr_eqb]. eapply wp_mono; [eapply reset_slice_ok; [done|by rewrite Et]|].
    intros _ s2 [? E2]. exists q. split; [done|]. congruence. }
  cbn [orb ptr_eqb]. destruct (ptr_eqb_spec (Some h) (Some c)) as [[= ->]|Hne].
  { rewrite orb_true_r. eapply wp_mono; [eapply reset_slice_ok; [done|by rewrite Et]|].
    intros _ s2 [? E2]. exists q. split; [done|]. congruence. }
  assert (h ∈ r) as Hin by (destruct Hinv; by eapply queue_head_in).
  rewrite (ptr_eqb_ne (Some h) None) by done. cbn [orb].
  apply wp_bind. eapply wp_mono; [apply (retire_ok s1 r q c h); [done|congruence|done]|].
  intros _ s2 (Hqu2 & Hnone & q' & Hg2).
  apply wp_bind. eapply wp_mono; [by apply (dispatch_ok s2 r q' h)|]. intros [] s3 Hinv3. cbv beta in Hinv3. wp_step. wp_step.
  pose proof Hinv3 as (_ & Hg3 & _).
  destruct (lookup_lt_is_Some_2 (tasks s3) c) as [t3 Ht3].
  { change (tasks s3) with (tasks (put_current (Some h) s3)). rewrite (g_len _ _ _ Hg3).
    destruct Hinv as (_ & Hg & _). by apply (g_cur _ _ _ Hg). }
  eapply wp_mono; [by eapply switch_tail_ok|]. intros _ s4 [? ?]. eauto.
Qed.

(** ** A state with three ready tasks and one of them current *)

Lemma ring3_rep hd : cleanup_rep (ring3 hd) [].
Proof. split_and!; try done; simpl; lia. Qed.

Lemma ring3_inv hd c : (hd < 3)%nat -> (c < 3)%nat -> inv (put_current (Some c) (ring3 hd)) [0; 1; 2]%nat [].
Proof.
  intros Hhd Hc. assert (Forall (fun t => 0 <= pid t /\ generation t = 0 /\ state t <> TASK_STATE_RUNNING)
                                (tasks (ring3 hd))) as Hall by (repeat constructor; done).
  rewrite Forall_lookup in Hall. split_and!.
  - by apply (queue_ext (ring3 hd)); [apply ring3_queue|..].
  - constructor; try done.
    + intros j Hj. do 3 (apply elem_of_cons in Hj as [->|Hj]; [done|]). by apply not_elem_of_nil in Hj.
    + intros j t Ht. destruct (Hall j t Ht) as (Hp & Hg & _). split; [done|]. intros _. rewrite Hg.
      apply (lookup_replicate_2 32). by apply lookup_lt_Some in Ht.
    + intros x [= <-]. split; [unfold MAX_TASKS; lia|apply not_elem_of_nil].
    + apply (ring3_rep hd).
    + constructor.
    + intros j Hj. by apply not_elem_of_nil in Hj.
  - intros j t Ht Hs. by destruct (Hall j t Ht) as (_ & _ & ?).
Qed.

(** * Properties *)

(** The cleanup buffer is a first-in first-out queue of at most eight tasks:
    in a state that holds [q], enqueueing appends or, when full, refuses and
    changes nothing; dequeueing takes the oldest, or gives NULL when empty; no
    other part of the state changes. *)
Theorem cleanup_queue_fifo s q t :
  cleanup_rep s q ->
  wp (cleanup_queue_enqueue (Some t))
     (fun ok s' => erase_cleanup s' = erase_cleanup s /\
        if bool_decide (length q < 8)%nat then ok = true /\ cleanup_rep s' (q ++ [t])
        else ok = false /\ s' = s) s /\
  wp cleanup_queue_dequeue
     (fun x s' => erase_cleanup s' = erase_cleanup s /\ x = List.head q /\ cleanup_rep s' (List.tail q)) s.
Proof.
  intros Hrep. split.
  - case_bool_decide.
    + eapply wp_mono; [by apply cleanup_enqueue_ok|]. by intros ok s' (-> & ? & ?).
    + eapply wp_ok; [eapply cleanup_enqueue_full; [done|]|done].
      destruct Hrep as (_ & _ & _ & ? & _). lia.
  - destruct q as [|x q].
    + apply (wp_ok _ _ _ None s); [|done]. destruct Hrep as (_ & _ & Hc & _).
      unfold cleanup_queue_dequeue, bind, gets. by rewrite Hc.
    + eapply wp_mono; [by apply cleanup_dequeue_ok|]. by intros y s' (-> & ? & ?).
Qed.

Lemma cleanup_queue_fifo_witness :
  cleanup_rep (ring3 1) [] /\
  wp cleanup_queue_dequeue (fun x s' => erase_cleanup s' = erase_cleanup (ring3 1) /\ x = None /\ cleanup_rep s' [])
     (ring3 1).
Proof. split; [exact (ring3_rep 1)|exact (proj2 (cleanup_queue_fifo (ring3 1) [] 0 (ring3_rep 1)))]. Defined.



End SchedInv.
