(* ===== verification/TaskProps.v ===== *)
(** Properties of the task table (src/process.c): fresh pids, slots and their
    generations, the rate limiter of task creation, descriptor tables. *)
From Stdlib Require Import ZArith Lia List Bool String Sorted.
From stdpp Require Import base tactics numbers list gmap.
From S2P Require Import Prelude Task.
Open Scope Z_scope.

Module TaskProps.
Import Task.

(** * Pids *)

Lemma pid_in_use_elem ts p : pid_in_use ts p = true -> p ∈ map pid ts.
Proof.
  unfold pid_in_use. rewrite existsb_exists. intros (t & Ht & Hp).
  apply andb_true_iff in Hp as [<-%Z.eqb_eq _]. apply list_elem_of_In. by apply in_map.
Qed.

Lemma find_slot_none f ts : forall k, existsb f ts = false -> find_slot f ts k = None.
Proof.
  induction ts as [|t ts IH]; intros k; [done|]. simpl. destruct (f t); [done|]. apply IH.
Qed.

(** The [n] pids from [p] are all in use only if there are as many tasks. *)
Lemma pid_run_bound ts p n :
  (forall k, (k < n)%nat -> pid_in_use ts (p + Z.of_nat k) = true) -> (n <= length ts)%nat.
Proof.
  intros H. rewrite <- (length_map pid ts).
  assert (NoDup (map (fun k => p + Z.of_nat k) (seq 0 n))) as Hnd.
  { assert (Inj eq eq (fun k => p + Z.of_nat k)) by (intros x y Hxy; lia).
    apply (NoDup_fmap_2 (fun k => p + Z.of_nat k)), NoDup_seq. }
  assert (length (map (fun k => p + Z.of_nat k) (seq 0 n)) = n) as <- by by rewrite length_map, length_seq.
  apply submseteq_length, NoDup_submseteq; [done|].
  intros x (k & -> & Hk)%list_elem_of_fmap. apply pid_in_use_elem, H. apply elem_of_seq in Hk. lia.
Qed.

Lemma pid_sequential_ok ts : forall n p,
  (forall k, (k < n)%nat -> pid_in_use ts (p + Z.of_nat k) = true) \/
  (p <= pid_sequential n p ts < p + Z.of_nat n /\ pid_in_use ts (pid_sequential n p ts) = false).
Proof.
  induction n as [|n IH]; intros p; [left; lia|]. cbn [pid_sequential].
  destruct (pid_in_use ts p) eqn:E; [|right; split; [lia|done]].
  destruct (IH (p + 1)) as [Hall|[? ?]]; [left|right; split; [lia|done]].
  intros [|k] Hk; [by rewrite Z.add_0_r|].
  replace (p + Z.of_nat (S k)) with (p + 1 + Z.of_nat k) by lia. apply Hall. lia.
Qed.

Lemma pid_random_ok ts rand : (length ts <= Z.to_nat MAX_TASKS)%nat -> forall n k,
  100 <= pid_random n k rand ts < 65536 /\ pid_in_use ts (pid_random n k rand ts) = false.
Proof.
  intros Hlen. induction n as [|n IH]; intros k; cbn [pid_random].
  - destruct (pid_sequential_ok ts (Z.to_nat (65536 - 100)) 100) as [Hall|[H1 H2]].
    + apply pid_run_bound in Hall. unfold MAX_TASKS in Hlen. lia.
    + split; [lia|done].
  - destruct (pid_in_use ts _) eqn:E; [apply IH|]. split; [|done].
    assert (0 <= rand k mod 65436 < 65436) by by apply Z.mod_pos_bound. lia.
Qed.

(** [task_alloc_pid] always returns, whatever the random numbers, a pid in
    100..65535 that no task which is not terminated has. *)
Theorem task_alloc_pid_fresh rand s :
  length (tasks s) = Z.to_nat MAX_TASKS ->
  100 <= task_alloc_pid rand s <= 65535 /\
  task_get (task_alloc_pid rand s) s = None.
Proof.
  intros Hlen. destruct (pid_random_ok (tasks s) rand ltac:(lia) 1000 0) as [H1 H2].
  fold (task_alloc_pid rand s) in H1, H2. split; [lia|]. apply find_slot_none. exact H2.
Qed.

Lemma task_alloc_pid_fresh_witness :
  let s := mk_sched (replicate 32 (set_pid 100 zero_task)) (replicate 32 0) 0 10 0 None None None 0 true None
             (replicate 8 None) 0 0 0 0 0 in
  100 <= task_alloc_pid (fun _ => 0) s <= 65535 /\ task_get (task_alloc_pid (fun _ => 0) s) s = None.
Proof. intros s. exact (task_alloc_pid_fresh (fun _ => 0) s eq_refl). Defined.

(** * The rate limiter *)

(** The answers to a sequence of creation requests at the times [ts]. *)
Fixpoint requests (ts : list Z) : M sched Z :=
  match ts with
  | [] => ret 0
  | now :: ts' => ok <- task_rate_limit_check now ;; n <- requests ts' ;;
                  ret ((if ok then 1 else 0) + n)
  end.

Definition rate_inv (s : sched) (now : Z) : Prop :=
  0 <= rate_tokens s <= TASK_RATE_LIMIT_TOKENS /\ 0 <= rate_last_refill s <= now /\ now < 2 ^ 32.

Lemma rate_check_step s now t0 :
  rate_inv s t0 -> t0 <= now -> TASK_RATE_LIMIT_BOOT_GRACE_TICKS <= now -> now < 2 ^ 32 ->
  wp (task_rate_limit_check now)
     (fun ok s' => rate_inv s' now /\
        exists k, 0 <= k /\ rate_last_refill s' = rate_last_refill s + 100 * k /\
          (if ok then 1 else 0) + rate_tokens s' - rate_tokens s <= 5 * k) s.
Proof.
  unfold rate_inv, task_rate_limit_check, TASK_RATE_LIMIT_TOKENS, TASK_RATE_LIMIT_BOOT_GRACE_TICKS,
    TASK_RATE_LIMIT_REFILL_INTERVAL, TASK_RATE_LIMIT_REFILL_PER_SEC.
  intros (Htok & Hlast & _) Ht0 Hgrace Hnow. rewrite (proj2 (Z.ltb_ge _ _)) by lia.
  wp_step. wp_step. cbv zeta.
  assert (now -32 rate_last_refill s = now - rate_last_refill s) as -> by u_lia.
  set (d := now - rate_last_refill s). assert (0 <= d <= now) by lia.
  assert ((d / 100) *32 5 = d / 100 * 5) as -> by (unfold d in *; u_lia).
  assert ((d / 100) *32 100 = d / 100 * 100) as -> by (unfold d in *; u_lia).
  assert (rate_tokens s +32 (d / 100 * 5) = rate_tokens s + d / 100 * 5) as E1 by (unfold d in *; u_lia).
  assert (rate_last_refill s +32 (d / 100 * 100) = rate_last_refill s + d / 100 * 100) as -> by (unfold d in *; u_lia).
  assert (0 <= d / 100 /\ d / 100 * 100 <= d) as Hd by (Z.div_mod_to_equations; lia).
  assert (rate_last_refill s + d = now) by lia. clearbody d. apply wp_bind. destruct (Z.leb_spec 100 d).
  - wp_step. wp_step. rewrite E1. set (n := if _ <? _ then _ else _).
    assert (0 <= n <= 10 /\ n <= rate_tokens s + d / 100 * 5) as Hn by (unfold n; destruct (Z.ltb_spec 10 (rate_tokens s + d / 100 * 5)); lia).
    clearbody n. wp_steps; rewrite ?(u32_small (n - 1)) by lia; (split; [lia|]; exists (d / 100); lia).
  - wp_steps; rewrite ?(u32_small (rate_tokens s - 1)) by lia; (split; [lia|]; exists 0; lia).
Qed.

Lemma requests_ok ts : forall s t0,
  rate_inv s t0 -> (forall now, now ∈ ts -> TASK_RATE_LIMIT_BOOT_GRACE_TICKS <= now < 2 ^ 32) ->
  Sorted Z.le (t0 :: ts) ->
  wp (requests ts)
     (fun n s' => rate_inv s' (List.last ts t0) /\
        exists k, 0 <= k /\ rate_last_refill s' = rate_last_refill s + 100 * k /\
          n + rate_tokens s' - rate_tokens s <= 5 * k) s.
Proof.
  induction ts as [|now ts IH]; intros s t0 Hinv Hr Hs; cbn [requests].
  { apply wp_ret. split; [done|]. exists 0. lia. }
  apply Sorted_inv in Hs as [Hs Hhd]. apply HdRel_inv in Hhd.
  destruct (Hr now) as [Hg Hb]; [by left|].
  apply wp_bind. eapply wp_mono; [by eapply rate_check_step|]. intros ok s1 (Hinv1 & k1 & Hk1 & Hl1 & Hn1).
  apply wp_bind. eapply wp_mono; [apply (IH s1 now Hinv1); [|done]|].
  { intros x Hx. apply Hr. by right. }
  intros n s2 (Hinv2 & k2 & Hk2 & Hl2 & Hn2). apply wp_ret. rewrite last_cons_default.
  split; [done|]. exists (k1 + k2). lia.
Qed.

(** The rate limiter of task creation: after the boot grace period, a
    sequence of requests at non-decreasing times is granted at most ten plus
    five for every second since the last refill, whatever the times. *)
Theorem task_rate_limit_bound s t0 ts :
  0 <= rate_tokens s <= TASK_RATE_LIMIT_TOKENS -> 0 <= rate_last_refill s <= t0 ->
  Sorted Z.le (t0 :: ts) -> (forall now, now ∈ ts -> TASK_RATE_LIMIT_BOOT_GRACE_TICKS <= now < 2 ^ 32) ->
  t0 < 2 ^ 32 ->
  wp (requests ts)
     (fun granted _ =>
        granted <= TASK_RATE_LIMIT_TOKENS
                   + TASK_RATE_LIMIT_REFILL_PER_SEC * ((List.last ts t0 - rate_last_refill s) / 100)) s.
Proof.
  intros Htok Hlast Hs Hr Ht0. eapply wp_mono; [by apply requests_ok|].
  intros n s' ((Ht' & Hl' & _) & k & Hk & Hl & Hn).
  unfold TASK_RATE_LIMIT_TOKENS, TASK_RATE_LIMIT_REFILL_PER_SEC in *.
  assert (k <= (List.last ts t0 - rate_last_refill s) / 100) by (apply Z.div_le_lower_bound; lia). lia.
Qed.

Lemma task_rate_limit_bound_witness :
  let s := mk_sched [] [] 0 2 450 None None None 0 true None [] 0 0 0 0 0 in
  wp (requests [500; 500; 500; 560]) (fun granted _ => granted <= 10 + 5 * ((560 - 450) / 100)) s.
Proof.
  intros s. apply (task_rate_limit_bound s 460 [500; 500; 500; 560]).
  - unfold TASK_RATE_LIMIT_TOKENS. simpl. lia.
  - simpl. lia.
  - repeat (first [lia|constructor]).
  - intros now Hnow. repeat (apply elem_of_cons in Hnow as [->|Hnow]; [unfold TASK_RATE_LIMIT_BOOT_GRACE_TICKS; lia|]).
    by apply not_elem_of_nil in Hnow.
  - lia.
Defined.

(** * Slots *)

Lemma clearbit_false b k : Z.testbit b k = false -> Z.clearbit b k = b.
Proof.
  intros H. apply Z.bits_inj. intros j. destruct (Z.eq_dec k j) as [<-|Hne].
  - by rewrite Z.clearbit_eq.
  - by rewrite Z.clearbit_neq.
Qed.

Lemma put_bitmap_same s : put_free_slot_bitmap (free_slot_bitmap s) s = s.
Proof. by destruct s. Qed.

(** [task_find_free_slot] takes the lowest free slot out of the bitmap, and
    answers -1 with nothing changed exactly when no slot is free. *)
Theorem task_find_free_slot_spec s :
  wp task_find_free_slot
     (fun slot s' =>
        (slot = -1 /\ s' = s /\ (forall k, 0 <= k < MAX_TASKS -> Z.testbit (free_slot_bitmap s) k = false)) \/
        (0 <= slot < MAX_TASKS /\ Z.testbit (free_slot_bitmap s) slot = true /\
         (forall k, 0 <= k < slot -> Z.testbit (free_slot_bitmap s) k = false) /\
         s' = put_free_slot_bitmap (Z.clearbit (free_slot_bitmap s) slot) s)) s.
Proof.
  unfold task_find_free_slot, MAX_TASKS. apply wp_bind.
  apply (wp_for_ret (fun i s' => s' = s /\ forall k, 0 <= k < i -> Z.testbit (free_slot_bitmap s) k = false)).
  - split; [done|lia].
  - intros i s' Hi [-> Hbits]. unfold atomic_test_and_clear_bit. wp_steps.
    + right. split_and!; try done; change (iters 0 32) with 32%nat in *; lia.
    + rewrite clearbit_false, put_bitmap_same by done. split; [done|].
      intros k Hk. destruct (Z.eq_dec k i) as [->|]; [done|]. apply Hbits. lia.
  - intros s' [-> Hbits]. wp_step. left. split_and!; [done..|]. exact Hbits.
Qed.

Definition slot_free (s : sched) (i : nat) : bool := Z.testbit (free_slot_bitmap s) (Z.of_nat i).

(** Freeing a slot marks it free and makes every task record that was
    live in it stale, and touches no other slot. *)
Theorem task_free_slot_spec s i :
  length (slot_generations s) = Z.to_nat MAX_TASKS -> (i < Z.to_nat MAX_TASKS)%nat ->
  wp (task_free_slot_for_task (Some i))
     (fun _ s' =>
        slot_free s' i = true /\
        (task_slot_is_live (Some i) s = true -> task_slot_is_live (Some i) s' = false) /\
        (forall j, j <> i -> slot_free s' j = slot_free s j /\
                             task_slot_is_live (Some j) s' = task_slot_is_live (Some j) s) /\
        tasks s' = tasks s) s.
Proof.
  intros Hlen Hi. unfold task_free_slot_for_task, task_free_slot, MAX_TASKS in *.
  rewrite (proj2 (Z.leb_le _ _)), (proj2 (Z.ltb_lt _ _)) by lia. cbn [andb].
  destruct (lookup_lt_is_Some_2 (slot_generations s) i) as [g Hg]; [by rewrite Hlen|].
  wp_step. wp_step. apply wp_bind. eapply wp_lift; [apply aget_ok; [lia|by rewrite Nat2Z.id]|].
  apply wp_bind. eapply wp_lift; [apply aset_ok; lia|]. rewrite Nat2Z.id.
  unfold atomic_set_bit. wp_steps. unfold slot_free, task_slot_is_live. simpl. split_and!.
  - by apply Z.setbit_eq, Nat2Z.is_nonneg.
  - rewrite Hg, list_lookup_insert_eq by lia. destruct (tasks s !! i) as [t|]; [|done].
    intros [_ ->%Z.eqb_eq]%andb_true_iff. rewrite andb_comm, (proj2 (Z.eqb_neq _ _)); [done|]. u_lia.
  - intros j Hj. rewrite list_lookup_insert_ne by done. split; [|done]. apply Z.setbit_neq; lia.
  - done.
Qed.

Lemma task_free_slot_spec_witness :
  let s := mk_sched (replicate 32 (set_pid 100 zero_task)) (replicate 32 0) 0 10 0 None None None 0 true None
             (replicate 8 None) 0 0 0 0 0 in
  wp (task_free_slot_for_task (Some 3%nat)) (fun _ s' => slot_free s' 3 = true) s.
Proof.
  intros s. eapply wp_mono; [apply (task_free_slot_spec s 3); [reflexivity|unfold MAX_TASKS; lia]|].
  by intros _ s' (? & _).
Defined.

(** * Handles *)

(** The start of [task_create_kernel]: a slot is taken, cleared, and given a
    pid and the generation of the slot; [-1] when none is free. *)
Definition task_new (rand : nat -> Z) : M sched Z :=
  slot <- task_find_free_slot ;;
  if slot <? 0 then ret (-1)
  else
    let p := Some (Z.to_nat slot) in
    tupd p (fun _ => zero_task) ;;;
    v <- gets (task_alloc_pid rand) ;;
    tupd p (set_pid v) ;;;
    gs <- gets slot_generations ;;
    g <- lift (aget gs slot) ;;
    tupd p (set_generation g) ;;;
    ret v.

(** The end of a task: [scheduler_schedule_from_interrupt] on a task it reaps. *)
Definition task_end (p : option nat) : M sched unit :=
  tupd p (set_state TASK_STATE_TERMINATED) ;;;
  tupd p (set_pid 0) ;;;
  task_free_slot_for_task p.

Definition empty_table : sched :=
  mk_sched (replicate 32 (set_state TASK_STATE_TERMINATED zero_task)) (replicate 32 0) 0xFFFFFFFF 10 0
    None None None 0 true None (replicate 8 None) 0 0 0 0 0.

(** A (pid, generation) handle can outlive its task and name another one:
    generations are counted per slot, so after the task of the handle ended and
    its slot was taken again, a task in another slot that drew the same pid
    carries the same generation, and [task_get_validated] accepts the handle. *)
Theorem stale_handle_validates :
  exists h s',
    (_ <- task_new (fun _ => 0) ;;          (* pid 100 in slot 0 *)
     h <- task_get_handle (Some 0%nat) ;;
     task_end (Some 0%nat) ;;;
     _ <- task_new (fun _ => 1) ;;          (* pid 101 in slot 0 *)
     _ <- task_new (fun _ => 0) ;;          (* pid 100 in slot 1 *)
     ret h) empty_table = Ok (h, s') /\
    task_slot_is_live (Some 0%nat) s' = true /\ task_slot_is_live (Some 1%nat) s' = true /\
    task_get_validated (fst h) (snd h) s' = Some 1%nat.
Proof. eexists _, _. split; [vm_compute; reflexivity|]. by vm_compute. Qed.

(** * Descriptor tables *)

Lemma fd_free_spec l : forall k,
  match fd_free l k with
  | Some i => (k <= i)%nat /\ exists x, l !! (i - k)%nat = Some x /\ x < 0
  | None => Forall (fun x => 0 <= x) l
  end.
Proof.
  induction l as [|x l IH]; intros k; simpl; [done|].
  destruct (Z.ltb_spec x 0); [rewrite Nat.sub_diag; eauto|].
  specialize (IH (S k)). destruct (fd_free l (S k)) as [i|]; [|by constructor].
  destruct IH as (Hle & y & Hy & Hneg). split; [lia|].
  replace (i - k)%nat with (S (i - S k)) by lia. eauto.
Qed.

(** A descriptor as an index into the table. *)
Definition fd_slot (fd : Z) : nat := if fd <? 3 then 16 else Z.to_nat (fd - 3).

Lemma task_fd_lookup_eq t fd :
  length (fdtable t) = 16%nat ->
  task_fd_lookup fd t =
    Ok (match fdtable t !! fd_slot fd with Some x => if x <? 0 then - EBADF else x | None => - EBADF end).
Proof.
  intros Hlen. unfold task_fd_lookup, fd_slot, TASK_FD_BASE, TASK_FDTABLE_SIZE.
  destruct (Z.ltb_spec (fd - 3) 0), (Z.ltb_spec fd 3); try lia; cbn [orb].
  - by rewrite lookup_ge_None_2 by lia.
  - destruct (Z.leb_spec 16 (fd - 3)); [by rewrite lookup_ge_None_2 by lia|].
    destruct (lookup_lt_is_Some_2 (fdtable t) (Z.to_nat (fd - 3))) as [x Hx]; [lia|].
    rewrite (aget_ok _ _ x), Hx by (done || lia). by destruct (x <? 0).
Qed.

Lemma task_fd_remove_eq t fd x :
  length (fdtable t) = 16%nat -> fdtable t !! fd_slot fd = Some x -> 0 <= x ->
  task_fd_remove fd t = Ok (x, set_fdtable (<[fd_slot fd := -1]> (fdtable t)) t).
Proof.
  intros Hlen Hx Hpos. pose proof (lookup_lt_Some _ _ _ Hx) as Hlt.
  unfold task_fd_remove, fd_slot, TASK_FD_BASE, TASK_FDTABLE_SIZE in *.
  destruct (Z.ltb_spec fd 3); [lia|].
  rewrite (proj2 (Z.ltb_ge _ _)), (proj2 (Z.leb_gt _ _)) by lia. cbn [orb].
  rewrite (aget_ok _ _ x) by (done || lia). rewrite (proj2 (Z.ltb_ge _ _)) by lia.
  by rewrite aset_ok by lia.
Qed.

(** Descriptors of a task: [task_fd_install] refuses a negative VFS
    descriptor and a full table, and otherwise returns a descriptor in 3..18
    under which exactly the installed VFS descriptor is found while the other
    descriptors keep their meaning; [task_fd_remove] gives it back and restores
    the meaning of every descriptor, and then finds it gone. *)
Theorem task_fd_roundtrip t v :
  length (fdtable t) = 16%nat ->
  match task_fd_install v t with
  | (fd, t') =>
      (fd < 0 -> t' = t /\ (v < 0 /\ fd = - EBADF \/ Forall (fun x => 0 <= x) (fdtable t) /\ fd = - EMFILE)) /\
      (0 <= fd ->
         3 <= fd <= 18 /\ task_fd_lookup fd t = Ok (- EBADF) /\ task_fd_lookup fd t' = Ok v /\
         (forall fd2, fd2 <> fd -> task_fd_lookup fd2 t' = task_fd_lookup fd2 t) /\
         exists t'', task_fd_remove fd t' = Ok (v, t'') /\
           forall fd2, task_fd_lookup fd2 t'' = task_fd_lookup fd2 t)
  end.
Proof.
  intros Hlen. unfold task_fd_install. destruct (Z.ltb_spec v 0).
  { split; [by eauto|]. unfold EBADF. lia. }
  pose proof (fd_free_spec (fdtable t) 0) as Hf. destruct (fd_free (fdtable t) 0) as [i|].
  2:{ split; [by eauto|]. unfold EMFILE. lia. }
  destruct Hf as (_ & x & Hx & Hneg). rewrite Nat.sub_0_r in Hx. pose proof (lookup_lt_Some _ _ _ Hx) as Hi.
  unfold TASK_FD_BASE. set (fd := Z.of_nat i + 3).
  assert (fd_slot fd = i) as Efd by (unfold fd_slot, fd; destruct (Z.ltb_spec (Z.of_nat i + 3) 3); lia).
  assert (forall fd2, fd2 <> fd -> fd_slot fd2 <> i) as Hother.
  { intros fd2. unfold fd_slot, fd. destruct (Z.ltb_spec fd2 3); lia. }
  assert (forall l, length (<[i := l]> (fdtable t)) = 16%nat) as Hlen' by (intros; by rewrite length_insert).
  split; [lia|]. intros _. split_and!; [lia..| | | |].
  - rewrite task_fd_lookup_eq, Efd, Hx by done. by rewrite (proj2 (Z.ltb_lt _ _)).
  - rewrite task_fd_lookup_eq by apply Hlen'. simpl. rewrite Efd, list_lookup_insert_eq by lia.
    by rewrite (proj2 (Z.ltb_ge _ _)).
  - intros fd2 Hne. rewrite !task_fd_lookup_eq by (apply Hlen' || done). simpl.
    by rewrite list_lookup_insert_ne by (apply not_eq_sym; auto).
  - eexists. split.
    + apply task_fd_remove_eq; [apply Hlen'| |done]. simpl. by rewrite Efd, list_lookup_insert_eq by lia.
    + intros fd2. simpl. rewrite Efd, list_insert_insert_eq. rewrite !task_fd_lookup_eq by (apply Hlen' || done).
      simpl. destruct (decide (fd2 = fd)) as [->|Hne].
      * rewrite Efd, Hx, list_lookup_insert_eq by lia. by rewrite (proj2 (Z.ltb_lt x 0)).
      * by rewrite list_lookup_insert_ne by (apply not_eq_sym; auto).
Qed.

Lemma task_fd_roundtrip_witness :
  length (fdtable (task_fdtable_init zero_task)) = 16%nat /\
  task_fd_lookup 3 (snd (task_fd_install 7 (task_fdtable_init zero_task))) = Ok 7.
Proof.
  split; [reflexivity|].
  pose proof (task_fd_roundtrip (task_fdtable_init zero_task) 7 eq_refl) as H.
  destruct H as [_ H]. destruct H as (_ & _ & H & _); [vm_compute; discriminate|exact H].
Defined.

End TaskProps.
