(* ===== verification/WaitQueue.v ===== *)
(** Wait queues (src/wait_queue.c): tasks that block until an event, woken in
    the order in which they went to sleep.

    A wait queue is named by its index in a store, as tasks are by their slot:
    [blocked_on_wq] of a task is such a name. *)
From Stdlib Require Import ZArith Lia List Bool String.
From stdpp Require Import base tactics numbers list gmap.
From S2P Require Import Prelude Task Ring Scheduler SchedInv.
Open Scope Z_scope.

Module WaitQueue.
Import Task Ring Scheduler SchedInv.

Record wait_queue := mk_wq { waiting_tasks : list (option nat); count : Z }.

(** The scheduler's state and the wait queues. *)
Record kern := mk_kern { sch : sched; wqs : list wait_queue }.
Definition put_sch (s : sched) (k : kern) : kern := mk_kern s (wqs k).
Definition put_wqs (w : list wait_queue) (k : kern) : kern := mk_kern (sch k) w.

Definition on_sched {A} (m : M sched A) : M kern A :=
  fun k => match m (sch k) with
           | Ok (a, s') => Ok (a, put_sch s' k)
           | Err e => Err e
           end.

Definition wget (q : nat) : M kern wait_queue :=
  l <- gets wqs ;; lift (aget l (Z.of_nat q)).
Definition wput (q : nat) (w : wait_queue) : M kern unit :=
  l <- gets wqs ;; l' <- lift (aset l (Z.of_nat q) w) ;; modify (put_wqs l').

(** [CRITICAL_SECTION_EXIT] (critical.h), on the nesting depth. *)
Definition critical_section_exit : M sched unit :=
  d <- gets crit_depth ;;
  if d =? 0 then ret tt else modify (put_crit_depth (d -32 1)).

(** * Operations *)

Definition wait_queue_init (wq : option nat) : M kern unit :=
  match wq with
  | None => ret tt
  | Some q => wput q (mk_wq (replicate 32 None) 0)
  end.

Definition wait_queue_count (wq : option nat) : M kern Z :=
  match wq with
  | None => ret 0
  | Some q => w <- wget q ;; ret (count w)
  end.

Definition wait_queue_is_empty (wq : option nat) : M kern bool :=
  n <- wait_queue_count wq ;; ret (n =? 0).

(** The loop that closes the gap at [i]. *)
Fixpoint shift {A} (n : nat) (i : Z) (a : list A) : result (list A) :=
  match n with
  | O => Ok a
  | S n' => match aget a (i + 1) with
            | Err e => Err e
            | Ok x => match aset a i x with
                      | Err e => Err e
                      | Ok a' => shift n' (i + 1) a'
                      end
            end
  end.

(** Shift the entries behind [i] forward, clear the last one, decrement. *)
Definition wq_drop (q : nat) (i : Z) : M kern unit :=
  w <- wget q ;;
  a <- lift (shift (iters i (count w - 1)) i (waiting_tasks w)) ;;
  a' <- lift (aset a (count w - 1) None) ;;
  wput q (mk_wq a' (count w - 1)).

(** [wait_queue_sleep] up to the call of [scheduler_yield]; false when it
    returns before. *)
Definition sleep_commit (wq : option nat) : M kern bool :=
  match wq with
  | None => on_sched critical_section_exit ;;; ret false
  | Some q =>
      cur <- on_sched scheduler_get_current_task ;;
      match cur with
      | None => on_sched critical_section_exit ;;; ret false
      | Some _ =>
          w <- wget q ;;
          if MAX_TASKS <=? count w then on_sched critical_section_exit ;;; ret false
          else
            a <- lift (aset (waiting_tasks w) (count w) cur) ;;
            wput q (mk_wq a (count w + 1)) ;;;
            on_sched (tupd cur (set_blocked_on_wq wq)) ;;;
            on_sched (scheduler_block_task cur) ;;;
            on_sched critical_section_exit ;;;
            ret true
      end
  end.

Definition wait_queue_sleep (wq : option nat) : M kern unit :=
  slept <- sleep_commit wq ;;
  if slept then on_sched scheduler_yield else ret tt.

(** The body shared by the two wake-up functions, on a queue that is not empty;
    false when the entry is NULL and the queue is reset. *)
Definition wake_first (q : nat) : M kern bool :=
  w <- wget q ;;
  t <- lift (aget (waiting_tasks w) 0) ;;
  match t with
  | None => wput q (mk_wq (waiting_tasks w) 0) ;;; ret false
  | Some _ =>
      wq_drop q 0 ;;;
      on_sched (tupd t (set_blocked_on_wq None)) ;;;
      on_sched (scheduler_wakeup_task t) ;;;
      ret true
  end.

Definition wait_queue_wakeup (wq : option nat) : M kern unit :=
  match wq with
  | None => ret tt
  | Some q => w <- wget q ;;
              if count w =? 0 then ret tt else (_ <- wake_first q ;; ret tt)
  end.

Fixpoint wakeup_loop (fuel : nat) (q : nat) : M kern unit :=
  match fuel with
  | O => fail NoTermination
  | S fuel' => w <- wget q ;;
               if 0 <? count w
               then ok <- wake_first q ;; (if ok then wakeup_loop fuel' q else ret tt)
               else ret tt
  end.

Definition wait_queue_wakeup_all (wq : option nat) : M kern unit :=
  match wq with
  | None => ret tt
  | Some q => w <- wget q ;;
              if count w =? 0 then ret tt else wakeup_loop (Z.to_nat (MAX_TASKS + 1)) q
  end.

Definition wait_queue_remove_task (task : option nat) : M kern unit :=
  match task with
  | None => ret tt
  | Some _ =>
      t <- on_sched (tget task) ;;
      match blocked_on_wq t with
      | None => ret tt
      | Some q =>
          w <- wget q ;;
          _ <- for_ret (iters 0 (count w)) 0 (fun i =>
                 x <- lift (aget (waiting_tasks w) i) ;;
                 if ptr_eqb x task then wq_drop q i ;;; ret (Some tt) else ret None) ;;
          on_sched (tupd task (set_blocked_on_wq None))
      end
  end.

(** * The queue as a list *)

Definition wrep (w : wait_queue) (l : list nat) : Prop :=
  waiting_tasks w = map Some l ++ replicate (32 - length l) None /\
  count w = Z.of_nat (length l) /\ (length l <= 32)%nat.

Lemma wp_on_sched {A} (m : M sched A) (Q : A -> kern -> Prop) k :
  wp m (fun a s' => Q a (put_sch s' k)) (sch k) -> wp (on_sched m) Q k.
Proof. unfold wp, on_sched. by destruct (m (sch k)) as [[a s']|]. Qed.

Lemma wp_wget q w (Q : wait_queue -> kern -> Prop) k :
  wqs k !! q = Some w -> Q w k -> wp (wget q) Q k.
Proof.
  intros Hw HQ. unfold wget. wp_step. wp_step.
  eapply wp_lift; [apply aget_ok; [lia|by rewrite Nat2Z.id]|done].
Qed.

Lemma wp_wput q w0 w (Q : unit -> kern -> Prop) k :
  wqs k !! q = Some w0 -> Q tt (put_wqs (<[q := w]> (wqs k)) k) -> wp (wput q w) Q k.
Proof.
  intros Hw HQ. pose proof (lookup_lt_Some _ _ _ Hw). unfold wput. wp_step. wp_step.
  apply wp_bind. eapply wp_lift; [apply aset_ok; lia|]. rewrite Nat2Z.id. by wp_step.
Qed.

(** Closing the gap: every entry behind [x] moves one place forward. *)
Lemma shift_ok {A} (mid : list A) : forall pre x suf,
  shift (length mid) (Z.of_nat (length pre)) (pre ++ x :: mid ++ suf)
  = Ok (pre ++ mid ++ List.last mid x :: suf).
Proof.
  induction mid as [|y mid IH]; intros pre x suf; [done|]. cbn [length shift].
  rewrite (aget_ok _ _ y); [|lia|].
  2:{ rewrite lookup_app_r by lia.
      by replace (Z.to_nat (Z.of_nat (length pre) + 1) - length pre)%nat with 1%nat by lia. }
  rewrite aset_ok by (rewrite length_app; simpl; lia).
  rewrite Nat2Z.id, insert_app_r_alt, Nat.sub_diag by lia. cbn [app].
  specialize (IH (pre ++ [y]) y suf). rewrite length_app, <- !app_assoc in IH. cbn [app length] in IH.
  replace (Z.of_nat (length pre) + 1) with (Z.of_nat (length pre + 1)) by lia.
  cbn [insert list_insert]. rewrite IH. rewrite last_cons_default. done.
Qed.

Lemma wq_drop_ok q w l1 x l2 k :
  wqs k !! q = Some w -> wrep w (l1 ++ x :: l2) ->
  wp (wq_drop q (Z.of_nat (length l1)))
     (fun _ k' => exists w', k' = put_wqs (<[q := w']> (wqs k)) k /\ wrep w' (l1 ++ l2)) k.
Proof.
  intros Hw (Ha & Hc & Hl). rewrite length_app in *. simpl in *. unfold wq_drop.
  apply wp_bind, (wp_wget _ w); [done|]. rewrite Hc, Ha, map_app. cbn [map].
  rewrite <- app_assoc. cbn [app].
  set (suf := replicate (32 - (length l1 + S (length l2))) None).
  replace (iters (Z.of_nat (length l1)) (Z.of_nat (length l1 + S (length l2)) - 1)) with (length (map Some l2))
    by (unfold iters; rewrite length_map; lia).
  apply wp_bind. eapply wp_lift.
  { rewrite <- (length_map Some l1). apply shift_ok. }
  apply wp_bind. eapply wp_lift.
  { apply aset_ok. rewrite !length_app, !length_map. simpl. lia. }
  eapply wp_wput; [done|]. eexists. split; [done|]. rewrite !app_assoc, <- map_app.
  rewrite insert_app_r_alt by (rewrite length_map, length_app; lia).
  replace (Z.to_nat _ - _)%nat with 0%nat by (rewrite length_map, length_app; lia).
  split_and!; simpl; rewrite ?length_app; [|lia..].
  f_equal.
  replace (32 - (length l1 + length l2))%nat with (S (32 - (length l1 + S (length l2)))) by lia. done.
Qed.

(** A task in slot [i] is blocked on the wait queue [q]. *)
Definition blocked_at (q : nat) (s : sched) (i : nat) : Prop :=
  exists t, tasks s !! i = Some t /\ state t = TASK_STATE_BLOCKED /\
            blocked_on_wq t = Some q /\ 1 <= pid t.

(** [waits k q l r]: the ready queue holds [r], and the wait queue [q] holds
    [l], the tasks blocked on it, oldest first. *)
Definition waits (k : kern) (q : nat) (l r : list nat) : Prop :=
  queue (sch k) r /\ (exists w, wqs k !! q = Some w /\ wrep w l) /\ NoDup l /\
  forall i, i ∈ l -> i ∉ r /\ blocked_at q (sch k) i.

Lemma blocked_links q s s' i : links_only s s' -> blocked_at q s i -> blocked_at q s' i.
Proof.
  intros H (t & Ht & Hs & Hb & Hp). symmetry in H.
  destruct (links_only_lookup _ _ _ _ H Ht) as (t' & Ht' & E). exists t'. split; [done|].
  pose proof (f_equal state E) as E1. pose proof (f_equal blocked_on_wq E) as E2.
  pose proof (f_equal pid E) as E3. simpl in *. split_and!; congruence.
Qed.

Lemma blocked_other q s i j t' :
  i <> j -> blocked_at q s i -> blocked_at q (put_tasks (<[j := t']> (tasks s)) s) i.
Proof. intros Hne (t & Ht & H). exists t. simpl. by rewrite list_lookup_insert_ne. Qed.

(** The task woken: ready, at the end of the ready queue, on no wait queue. *)
Definition woken (s s' : sched) (i : nat) (r : list nat) : Prop :=
  queue s' (r ++ [i]) /\
  links_only (ready_task i (put_tasks (alter (set_blocked_on_wq None) i (tasks s)) s)) s'.

Lemma wakeup_one s r i q :
  queue s r -> i ∉ r -> blocked_at q s i ->
  wp (tupd (Some i) (set_blocked_on_wq None) ;;; scheduler_wakeup_task (Some i))
     (fun _ s' => woken s s' i r) s.
Proof.
  intros Hq Hi (t & Ht & Hs & Hb & Hp). apply wp_bind. eapply wp_tupd; [done|].
  unfold woken. rewrite (alter_lookup_insert _ _ _ t) by done.
  set (s1 := put_tasks _ _). unfold scheduler_wakeup_task.
  assert (tasks s1 !! i = Some (set_blocked_on_wq None t)) as Ht1.
  { simpl. apply list_lookup_insert_eq. by eapply lookup_lt_Some. }
  apply wp_bind, (wp_tget _ _ _ _ Ht1).
  rewrite bool_decide_true by done.
  eapply wp_mono; [eapply (add_task_new s1 r); try done|by intros _ s' (? & ? & _)].
  by eapply queue_task.
Qed.

Lemma woken_blocked s s' i r q j : woken s s' i r -> j <> i -> blocked_at q s j -> blocked_at q s' j.
Proof.
  intros [_ Hl] Hne Hb. eapply blocked_links; [exact Hl|].
  destruct Hb as (t & Ht & H). exists t. split; [|done].
  rewrite ready_task_other by done. simpl. by rewrite list_lookup_alter_ne.
Qed.

Lemma wake_first_ok k q i l r :
  waits k q (i :: l) r ->
  wp (wake_first q)
     (fun ok k' => ok = true /\ waits k' q l (r ++ [i]) /\ woken (sch k) (sch k') i r /\
                   forall q2, q2 <> q -> wqs k' !! q2 = wqs k !! q2) k.
Proof.
  intros (Hq & (w & Hw & Hrep) & Hnd & Hall). apply NoDup_cons in Hnd as [Hi Hnd].
  destruct (Hall i) as [Hir Hb]; [by left|].
  unfold wake_first. apply wp_bind, (wp_wget _ w); [done|]. destruct Hrep as (Ha & Hrest).
  apply wp_bind. eapply wp_lift; [apply aget_ok; [lia|by rewrite Ha]|].
  apply wp_bind. eapply wp_mono; [by apply (wq_drop_ok q w [] i l)|].
  intros _ k1 (w' & -> & Hrep'). simpl in *.
  assert (wp (on_sched (tupd (Some i) (set_blocked_on_wq None)) ;;;
              on_sched (scheduler_wakeup_task (Some i)))
             (fun _ k' => woken (sch k) (sch k') i r /\ wqs k' = <[q := w']> (wqs k))
             (put_wqs (<[q := w']> (wqs k)) k)) as Hwake.
  { apply wp_bind, wp_on_sched. pose proof (wakeup_one _ _ _ _ Hq Hir Hb) as H.
    apply wp_bind_inv in H. eapply wp_mono; [exact H|]. intros [] s1 H1. cbv beta in H1 |- *.
    apply wp_on_sched. eapply wp_mono; [exact H1|]. by intros. }
  apply wp_bind_inv in Hwake. apply wp_bind. eapply wp_mono; [exact Hwake|].
  intros [] k1 H1. cbv beta in H1 |- *. apply wp_bind. eapply wp_mono; [exact H1|].
  intros [] k2 [Hwk Ewq]. apply wp_ret. split_and!; [done| |done|].
  - split_and!; [by apply Hwk| |done|].
    + exists w'. rewrite Ewq. split; [|done]. apply list_lookup_insert_eq. by eapply lookup_lt_Some.
    + intros j Hj. destruct (Hall j) as [Hjr Hjb]; [by right|]. assert (j <> i) by set_solver.
      split; [set_solver|]. by eapply woken_blocked.
  - intros q2 Hne. by rewrite Ewq, list_lookup_insert_ne.
Qed.

Definition ready_at (s : sched) (i : nat) : Prop :=
  exists t, tasks s !! i = Some t /\ state t = TASK_STATE_READY /\ blocked_on_wq t = None /\
            ticks_remaining t = time_slice t.

Lemma woken_lookup s s' i r j t :
  woken s s' i r -> tasks s !! j = Some t ->
  exists t', tasks s' !! j = Some t' /\
    set_next None t' = set_next None
      (if decide (i = j) then set_ticks_remaining (time_slice t)
                                (set_state TASK_STATE_READY (set_blocked_on_wq None t)) else t).
Proof.
  intros [_ Hl] Ht. symmetry in Hl.
  match type of Hl with links_only _ ?s1 =>
    assert (tasks s1 !! j = Some (if decide (i = j) then set_ticks_remaining (time_slice t)
              (set_state TASK_STATE_READY (set_blocked_on_wq None t)) else t)) as E end.
  { unfold ready_task. simpl. destruct (decide (i = j)) as [<-|Hne].
    - by rewrite !list_lookup_alter_eq, Ht.
    - by rewrite !list_lookup_alter_ne. }
  destruct (links_only_lookup _ _ _ _ Hl E) as (t' & ? & ?). eauto.
Qed.

Lemma woken_ready s s' i r t : woken s s' i r -> tasks s !! i = Some t -> ready_at s' i.
Proof.
  intros Hw Ht. destruct (woken_lookup _ _ _ _ _ _ Hw Ht) as (t' & Ht' & E).
  rewrite decide_True in E by done. exists t'. split; [done|].
  pose proof (f_equal state E). pose proof (f_equal blocked_on_wq E).
  pose proof (f_equal ticks_remaining E). pose proof (f_equal time_slice E).
  simpl in *. split_and!; congruence.
Qed.

Lemma woken_stays_ready s s' i r j : woken s s' i r -> j <> i -> ready_at s j -> ready_at s' j.
Proof.
  intros Hw Hne (t & Ht & H1 & H2 & H3). destruct (woken_lookup _ _ _ _ _ _ Hw Ht) as (t' & Ht' & E).
  rewrite decide_False in E by done. exists t'. split; [done|].
  pose proof (f_equal state E). pose proof (f_equal blocked_on_wq E).
  pose proof (f_equal ticks_remaining E). pose proof (f_equal time_slice E).
  simpl in *. split_and!; congruence.
Qed.

Lemma wakeup_loop_ok q : forall l fuel k r,
  waits k q l r -> (length l < fuel)%nat ->
  wp (wakeup_loop fuel q)
     (fun _ k' => waits k' q [] (r ++ l) /\ (forall i, i ∈ l -> ready_at (sch k') i) /\
        (forall j, j ∉ l -> ready_at (sch k) j -> ready_at (sch k') j) /\
        forall q2, q2 <> q -> wqs k' !! q2 = wqs k !! q2) k.
Proof.
  induction l as [|i l IH]; intros fuel k r Hw Hf; (destruct fuel as [|fuel]; [simpl in Hf; lia|]);
    pose proof Hw as (_ & (w & Hwq & _ & Hc & _) & Hnd & Hall); cbn [wakeup_loop];
    apply wp_bind, (wp_wget _ w _ _ Hwq); rewrite Hc; cbn [length].
  - apply wp_ret. rewrite app_nil_r. split_and!; try done. intros i Hi. by apply not_elem_of_nil in Hi.
  - rewrite (proj2 (Z.ltb_lt _ _)) by lia. apply wp_bind. eapply wp_mono; [by apply wake_first_ok|].
    intros ok k1 (-> & Hw1 & Hwk & Hother). apply NoDup_cons in Hnd as [Hi Hnd].
    eapply wp_mono; [apply IH; [exact Hw1|simpl in Hf; lia]|].
    intros _ k2 (Hw2 & Hr2 & Hst2 & Ho2). rewrite <- app_assoc in Hw2. split_and!; [done| | |].
    + intros j [->|Hj]%elem_of_cons; [|by apply Hr2]. apply Hst2; [done|].
      destruct (Hall i) as [_ (t & Ht & _)]; [by left|]. by eapply woken_ready.
    + intros j Hj Hrj. apply Hst2; [set_solver|]. eapply woken_stays_ready; [done|set_solver|done].
    + intros q2 Hne. by rewrite Ho2, Hother.
Qed.

(** Removal of a waiter. *)
Lemma remove_loop_ok k q w l1 i l2 :
  wqs k !! q = Some w -> wrep w (l1 ++ i :: l2) -> i ∉ l1 ->
  wp (for_ret (iters 0 (count w)) 0 (fun j =>
        x <- lift (aget (waiting_tasks w) j) ;;
        if ptr_eqb x (Some i) then wq_drop q j ;;; ret (Some tt) else ret None))
     (fun _ k' => exists w', k' = put_wqs (<[q := w']> (wqs k)) k /\ wrep w' (l1 ++ l2)) k.
Proof.
  intros Hw Hrep Hi. pose proof Hrep as (Ha & Hc & Hl). rewrite length_app in *. simpl in *.
  apply (wp_for_ret (fun j k' => k' = k /\ 0 <= j <= Z.of_nat (length l1))).
  - split; [done|lia].
  - intros j k' Hj [-> Hjl]. destruct (decide (j = Z.of_nat (length l1))) as [->|Hne].
    + apply wp_bind. eapply wp_lift.
      { apply aget_ok; [lia|]. rewrite Nat2Z.id, Ha, map_app, <- app_assoc.
        rewrite lookup_app_r by (rewrite length_map; lia). by rewrite length_map, Nat.sub_diag. }
      rewrite ptr_eqb_refl. apply wp_bind. eapply wp_mono; [by eapply wq_drop_ok|].
      intros [] k1 H. by apply wp_ret.
    + destruct (lookup_lt_is_Some_2 l1 (Z.to_nat j)) as [x Hx]; [lia|].
      apply wp_bind. eapply wp_lift.
      { apply aget_ok; [lia|]. rewrite Ha. apply lookup_app_l_Some.
        rewrite list_lookup_fmap, lookup_app_l by lia. by rewrite Hx. }
      rewrite ptr_eqb_ne by (intros [= ->]; by apply list_elem_of_lookup_2 in Hx).
      apply wp_ret. split; [done|lia].
  - intros k' [-> Hbad]. exfalso. rewrite Hc in Hbad. unfold iters in Hbad. lia.
Qed.

Lemma critical_exit_ok s (Q : unit -> sched -> Prop) :
  (forall d, Q tt (put_crit_depth d s)) -> wp critical_section_exit Q s.
Proof.
  intros HQ. unfold critical_section_exit. wp_steps; [|done]. specialize (HQ (crit_depth s)). by destruct s.
Qed.

Lemma wrep_snoc w l c :
  wrep w l -> (length l < 32)%nat ->
  wrep (mk_wq (<[Z.to_nat (count w) := Some c]> (waiting_tasks w)) (count w + 1)) (l ++ [c]).
Proof.
  intros (Ha & Hc & Hl) Hlt. split_and!; simpl; rewrite ?length_app; simpl; [|lia..].
  rewrite Ha, Hc, Nat2Z.id, map_app, <- app_assoc.
  rewrite insert_app_r_alt by (rewrite length_map; lia). rewrite length_map, Nat.sub_diag.
  replace (32 - length l)%nat with (S (32 - (length l + 1))) by lia. done.
Qed.

Lemma remove_slot_notin i c r : i ∉ r -> i ∉ remove_slot c r.
Proof. unfold remove_slot. rewrite list_elem_of_filter. tauto. Qed.

Lemma remove_slot_gone c r : c ∉ remove_slot c r.
Proof. unfold remove_slot. rewrite list_elem_of_filter. tauto. Qed.

(** Three tasks in the ready queue, the first of them running, and a fourth
    blocked on the only wait queue. *)
Definition kern1 : kern :=
  mk_kern
    (put_tasks (<[3%nat := set_state TASK_STATE_BLOCKED (set_blocked_on_wq (Some 0%nat) (ring_task 4 None))]>
                 (<[0%nat := set_state TASK_STATE_RUNNING (ring_task 1 (Some 1%nat))]> (tasks (ring3 1))))
       (put_current (Some 0%nat) (ring3 1)))
    [mk_wq (Some 3%nat :: replicate 31 None) 1].

Lemma kern1_waits : waits kern1 0 [3%nat] [0; 1; 2]%nat.
Proof.
  split_and!.
  - apply (queue_ext (ring3 1)); [apply ring3_queue; lia|done..|].
    intros j Hj. do 3 (apply elem_of_cons in Hj as [->|Hj]; [done|]). by apply not_elem_of_nil in Hj.
  - eexists. split; [done|]. split_and!; try done. simpl. lia.
  - apply NoDup_singleton.
  - intros i ->%list_elem_of_singleton. split; [by apply (bool_decide_unpack _)|]. eexists. by split_and!.
Qed.

(** * Properties *)

(** C31. [wait_queue_wakeup] is a no-op on an empty queue; otherwise it takes
    the task that has waited longest, makes it READY at the end of the ready
    queue with no wait queue of its own, and keeps the order of the others. *)
Theorem wait_queue_wakeup_fifo k q l r :
  waits k q l r ->
  wp (wait_queue_wakeup (Some q))
     (fun _ k' => match l with
                  | [] => k' = k
                  | i :: l' => waits k' q l' (r ++ [i]) /\ ready_at (sch k') i
                  end) k.
Proof.
  intros Hw. pose proof Hw as (_ & (w & Hwq & _ & Hc & _) & _ & Hall).
  unfold wait_queue_wakeup. apply wp_bind, (wp_wget _ w _ _ Hwq). rewrite Hc.
  destruct l as [|i l]; [by apply wp_ret|]. rewrite (proj2 (Z.eqb_neq _ _)) by (simpl; lia).
  apply wp_bind. eapply wp_mono; [by apply wake_first_ok|].
  intros ok k1 (-> & Hw1 & Hwk & _). apply wp_ret. split; [done|].
  destruct (Hall i) as [_ (t & Ht & _)]; [by left|]. by eapply woken_ready.
Qed.

Lemma wait_queue_wakeup_fifo_witness :
  wp (wait_queue_wakeup (Some 0%nat))
     (fun _ k' => waits k' 0 [] [0; 1; 2; 3]%nat /\ ready_at (sch k') 3) kern1.
Proof. exact (wait_queue_wakeup_fifo kern1 0 [3%nat] [0; 1; 2]%nat kern1_waits). Defined.

(** [wait_queue_wakeup_all] terminates, empties the queue and moves every
    waiter to the ready queue in the order in which they went to sleep, leaving
    the other wait queues alone. *)
Theorem wait_queue_wakeup_all_spec k q l r :
  waits k q l r ->
  wp (wait_queue_wakeup_all (Some q))
     (fun _ k' => waits k' q [] (r ++ l) /\ (forall i, i ∈ l -> ready_at (sch k') i) /\
                  forall q2, q2 <> q -> wqs k' !! q2 = wqs k !! q2) k.
Proof.
  intros Hw. pose proof Hw as (_ & (w & Hwq & _ & Hc & Hlen) & _).
  unfold wait_queue_wakeup_all. apply wp_bind, (wp_wget _ w _ _ Hwq). rewrite Hc.
  destruct l as [|i l].
  - apply wp_ret. rewrite app_nil_r. split_and!; try done. intros i Hi. by apply not_elem_of_nil in Hi.
  - rewrite (proj2 (Z.eqb_neq _ _)) by (simpl; lia).
    eapply wp_mono; [apply (wakeup_loop_ok q (i :: l)); [done|unfold MAX_TASKS; simpl in *; lia]|].
    by intros _ k' (? & ? & _ & ?).
Qed.

Lemma wait_queue_wakeup_all_spec_witness :
  wp (wait_queue_wakeup_all (Some 0%nat)) (fun _ k' => waits k' 0 [] [0; 1; 2; 3]%nat) kern1.
Proof.
  eapply wp_mono; [exact (wait_queue_wakeup_all_spec kern1 0 [3%nat] [0; 1; 2]%nat kern1_waits)|].
  by intros _ k' (? & _).
Defined.

(** [wait_queue_remove_task] takes a blocked task out of the queue it waits
    in, wherever it stands, keeps the order of the others, and clears its back
    pointer; the task is left BLOCKED and off the ready queue. *)
Theorem wait_queue_remove_task_spec k q l r i :
  waits k q l r -> i ∈ l ->
  wp (wait_queue_remove_task (Some i))
     (fun _ k' => waits k' q (remove_slot i l) r /\
        exists t, tasks (sch k') !! i = Some t /\ state t = TASK_STATE_BLOCKED /\ blocked_on_wq t = None) k.
Proof.
  intros (Hq & (w & Hwq & Hrep) & Hnd & Hall) Hi.
  destruct (Hall i Hi) as [Hir (t & Ht & Hs & Hb & Hp)].
  unfold wait_queue_remove_task. apply wp_bind, wp_on_sched, (wp_tget _ _ t); [done|]. rewrite Hb.
  apply wp_bind, (wp_wget _ w); [done|].
  apply list_elem_of_split_l in Hi as (l1 & l2 & -> & Hl1). rewrite remove_slot_split by done.
  apply wp_bind. eapply wp_mono; [by eapply (remove_loop_ok (put_sch (sch k) k))|].
  intros _ k1 (w' & -> & Hrep'). apply wp_on_sched. eapply wp_tupd; [exact Ht|]. simpl.
  assert (NoDup (i :: l1 ++ l2)) as Hnd' by by rewrite Permutation_middle.
  apply NoDup_cons in Hnd' as [Hil Hnd'].
  split; [split_and!|].
  - by eapply queue_task.
  - exists w'. split; [|done]. simpl. apply list_lookup_insert_eq. by eapply lookup_lt_Some.
  - done.
  - intros j Hj. destruct (Hall j) as [Hjr Hjb]; [set_solver|]. split; [done|].
    apply blocked_other; [set_solver|done].
  - eexists. split; [apply list_lookup_insert_eq; by eapply lookup_lt_Some|done].
Qed.

Lemma wait_queue_remove_task_spec_witness :
  wp (wait_queue_remove_task (Some 3%nat)) (fun _ k' => waits k' 0 [] [0; 1; 2]%nat) kern1.
Proof.
  eapply wp_mono; [apply (wait_queue_remove_task_spec kern1 0 [3%nat] [0; 1; 2]%nat 3 kern1_waits); by left|].
  by intros _ k' (? & _).
Defined.

(** [wait_queue_sleep] of the current task, up to its yield: the queue is
    never full, the task is appended to it, BLOCKED, and off the ready queue. *)
Theorem wait_queue_sleep_spec k q l r c t :
  waits k q l r -> current (sch k) = Some c -> tasks (sch k) !! c = Some t ->
  state t = TASK_STATE_RUNNING -> 1 <= pid t -> int_depth (sch k) = 0 ->
  (head (sch k) = Some c -> List.head r = Some c) ->
  wp (sleep_commit (Some q))
     (fun ok k' => ok = true /\ waits k' q (l ++ [c]) (remove_slot c r)) k.
Proof.
  intros (Hq & (w & Hwq & Hrep) & Hnd & Hall) Hc Ht Hs Hp Hd Hal.
  assert (c ∉ l) as Hcl.
  { intros Hcl. destruct (Hall c Hcl) as [_ (t' & Ht' & Hs' & _)]. congruence. }
  pose proof (lookup_lt_Some _ _ _ Ht) as Hlt. pose proof Hq as (Hlen & _).
  assert (length (c :: l) <= Z.to_nat MAX_TASKS)%nat as Hroom.
  { apply nodup_bounded_length; [by constructor|]. rewrite <- Hlen. constructor; [done|].
    apply Forall_forall. intros i Hi. destruct (Hall i Hi) as [_ (t' & Ht' & _)].
    by eapply lookup_lt_Some. }
  destruct Hrep as (Ha & Hcnt & Hl32). simpl in Hroom. unfold MAX_TASKS in Hroom.
  unfold sleep_commit. apply wp_bind, wp_on_sched, wp_gets. rewrite Hc.
  apply wp_bind, (wp_wget _ w); [done|]. rewrite (proj2 (Z.leb_gt _ _)) by (unfold MAX_TASKS; lia).
  apply wp_bind. eapply wp_lift.
  { apply aset_ok. rewrite Ha, length_app, length_map, length_replicate. lia. }
  apply wp_bind. eapply wp_wput; [done|]. apply wp_bind, wp_on_sched.
  eapply wp_tupd; [exact Ht|]. simpl. apply wp_bind, wp_on_sched. simpl.
  set (s1 := put_tasks _ _).
  assert (tasks s1 !! c = Some (set_blocked_on_wq (Some q) t)) as Ht1 by by apply list_lookup_insert_eq.
  assert (queue s1 r) as Hq1.
  { by eapply queue_task. }
  unfold scheduler_block_task. wp_step. wp_step. change (int_depth s1) with (int_depth (sch k)). rewrite Hd.
  cbn [Z.ltb Z.compare]. apply wp_bind. eapply wp_mono; [by apply (remove_task_ok s1 r c _ Hq1 Ht1)|].
  intros _ s2 [Hq2 Hl2].
  assert (exists t2, tasks s2 !! c = Some t2 /\ set_next None t2 = set_next None (set_blocked_on_wq (Some q) t))
    as (t2 & Ht2 & E2).
  { symmetry in Hl2. destruct (links_only_lookup _ _ _ _ Hl2 Ht1) as (t2 & ? & ?). eauto. }
  eapply wp_tupd; [exact Ht2|]. apply wp_bind, wp_on_sched, critical_exit_ok. intros d. apply wp_ret.
  split; [done|]. split_and!.
  - apply (queue_ext (put_tasks (<[c := set_state TASK_STATE_BLOCKED t2]> (tasks s2)) s2)); try done.
    by eapply queue_task.
  - eexists. simpl. split; [apply list_lookup_insert_eq; by eapply lookup_lt_Some|].
    by apply wrep_snoc.
  - rewrite <- Permutation_cons_append. by constructor.
  - intros i [Hi| ->%list_elem_of_singleton]%elem_of_app.
    + destruct (Hall i Hi) as [Hir Hib]. split; [by apply remove_slot_notin|].
      apply (blocked_other q s2); [set_solver|]. eapply blocked_links; [exact Hl2|].
      apply blocked_other; [set_solver|done].
    + split; [apply remove_slot_gone|]. exists (set_state TASK_STATE_BLOCKED t2).
      split; [simpl; apply list_lookup_insert_eq; by eapply lookup_lt_Some|].
      pose proof (f_equal blocked_on_wq E2). pose proof (f_equal pid E2). simpl in *.
      split_and!; [done|congruence|lia].
Qed.

Lemma wait_queue_sleep_spec_witness :
  wp (sleep_commit (Some 0%nat)) (fun ok k' => ok = true /\ waits k' 0 [3; 0]%nat [1; 2]%nat) kern1.
Proof.
  apply (wait_queue_sleep_spec kern1 0 [3%nat] [0; 1; 2]%nat 0
           (set_state TASK_STATE_RUNNING (ring_task 1 (Some 1%nat))));
    [exact kern1_waits|reflexivity|reflexivity|reflexivity|simpl; lia|reflexivity|discriminate].
Defined.

End WaitQueue.
