(* ===== verification/Mutex.v ===== *)
(** Mutexes (src/mutex.c): ownership by pid, recursive locking, and hand-over
    to the waiters in the order in which they blocked, dead ones skipped. *)
From Stdlib Require Import ZArith Lia List Bool String.
From stdpp Require Import base tactics numbers list gmap.
From S2P Require Import Prelude Task Ring Scheduler SchedInv WaitQueue.
Open Scope Z_scope.

Module Mutex.
Import Task Ring Scheduler SchedInv.

Definition MUTEX_MAX_WAITERS : Z := 16.
Definition MUTEX_FLAG_RECURSIVE : Z := 1.

(** [name] is for messages only. *)
Record mutex := mk_mutex {
  locked : bool;
  owner_pid : Z;
  lock_count : Z;
  waiters : list Z;
  waiter_gens : list Z;
  num_waiters : Z;
  flags : Z }.

Definition set_lock (l : bool) (o c : Z) (m : mutex) : mutex :=
  mk_mutex l o c (waiters m) (waiter_gens m) (num_waiters m) (flags m).
Definition set_waiters (w g : list Z) (n : Z) (m : mutex) : mutex :=
  mk_mutex (locked m) (owner_pid m) (lock_count m) w g n (flags m).

(** A mutex and the scheduler. *)
Record mkern := mk_mkern { msch : sched; mx : mutex }.
Definition put_msch (s : sched) (k : mkern) : mkern := mk_mkern s (mx k).
Definition put_mx (m : mutex) (k : mkern) : mkern := mk_mkern (msch k) m.
Definition m_sched {A} (m : M sched A) : M mkern A :=
  fun k => match m (msch k) with
           | Ok (a, s') => Ok (a, put_msch s' k)
           | Err e => Err e
           end.
Definition m_upd (f : mutex -> mutex) : M mkern unit := modify (fun k => put_mx (f (mx k)) k).

Definition recursive (m : mutex) : bool := negb (Z.land (flags m) MUTEX_FLAG_RECURSIVE =? 0).

Definition mutex_init (fl : Z) : M mkern unit :=
  modify (put_mx (mk_mutex false 0 0 (replicate 16 0) (replicate 16 0) 0 fl)).

(** The two arrays of the wait queue shifted in lockstep. *)
Fixpoint shift2 (n : nat) (i : Z) (a b : list Z) : result (list Z * list Z) :=
  match n with
  | O => Ok (a, b)
  | S n' =>
      match aget a (i + 1), aget b (i + 1) with
      | Ok x, Ok y =>
          match aset a i x, aset b i y with
          | Ok a', Ok b' => shift2 n' (i + 1) a' b'
          | _, _ => Err OutOfBounds
          end
      | _, _ => Err OutOfBounds
      end
  end.

(** What [mutex_lock] does before it returns or yields: its result, or [None]
    when it goes on to [scheduler_yield]. *)
Definition lock_commit : M mkern (option Z) :=
  cur <- m_sched scheduler_get_current_task ;;
  match cur with
  | None => m_upd (set_lock true 0 1) ;;; ret (Some 0)
  | Some _ =>
      t <- m_sched (tget cur) ;;
      m <- gets mx ;;
      if locked m && (owner_pid m =? pid t) then
        if recursive m
        then m_upd (fun m => set_lock (locked m) (owner_pid m) (lock_count m +32 1) m) ;;; ret (Some 0)
        else ret (Some (-1))
      else if negb (locked m) then m_upd (set_lock true (pid t) 1) ;;; ret (Some 0)
      else if MUTEX_MAX_WAITERS <=? num_waiters m then fail (KernelPanic "Mutex waiter queue overflow")
      else
        w <- lift (aset (waiters m) (num_waiters m) (pid t)) ;;
        g <- lift (aset (waiter_gens m) (num_waiters m) (generation t)) ;;
        m_upd (set_waiters w g (num_waiters m +32 1)) ;;;
        m_sched (scheduler_block_task cur) ;;;
        ret None
  end.

Definition mutex_lock : M mkern Z :=
  r <- lock_commit ;;
  match r with
  | Some v => ret v
  | None => m_sched scheduler_yield ;;; ret 0
  end.

Definition mutex_trylock : M mkern bool :=
  cur <- m_sched scheduler_get_current_task ;;
  match cur with
  | None => ret false
  | Some _ =>
      t <- m_sched (tget cur) ;;
      m <- gets mx ;;
      if locked m && (owner_pid m =? pid t) && recursive m
      then m_upd (fun m => set_lock (locked m) (owner_pid m) (lock_count m +32 1) m) ;;; ret true
      else if negb (locked m) then m_upd (set_lock true (pid t) 1) ;;; ret true
      else ret false
  end.

(** The search for a live waiter; true when ownership was handed over. *)
Fixpoint unlock_loop (fuel : nat) : M mkern bool :=
  match fuel with
  | O => fail NoTermination
  | S fuel' =>
      m <- gets mx ;;
      if 0 <? num_waiters m then
        p <- lift (aget (waiters m) 0) ;;
        g <- lift (aget (waiter_gens m) 0) ;;
        wg <- lift (shift2 (iters 0 (num_waiters m -32 1)) 0 (waiters m) (waiter_gens m)) ;;
        m_upd (set_waiters (fst wg) (snd wg) (num_waiters m -32 1)) ;;;
        w <- m_sched (gets (task_get_validated p g)) ;;
        match w with
        | Some _ =>
            m_upd (fun m => set_lock (locked m) p 1 m) ;;;
            m_sched (scheduler_wakeup_task w) ;;;
            ret true
        | None => unlock_loop fuel'
        end
      else ret false
  end.

Definition mutex_unlock : M mkern Z :=
  cur <- m_sched scheduler_get_current_task ;;
  match cur with
  | None => m_upd (set_lock false 0 0) ;;; ret 0
  | Some _ =>
      t <- m_sched (tget cur) ;;
      m <- gets mx ;;
      if negb (locked m) || negb (owner_pid m =? pid t) then ret (-1)
      else if 1 <? lock_count m
      then m_upd (fun m => set_lock (locked m) (owner_pid m) (lock_count m -32 1) m) ;;; ret 0
      else
        transferred <- unlock_loop (Z.to_nat (MUTEX_MAX_WAITERS + 1)) ;;
        (if transferred then ret tt else m_upd (set_lock false 0 0)) ;;;
        ret 0
  end.

Definition mutex_is_locked (k : mkern) : bool := locked (mx k).
Definition mutex_get_owner (k : mkern) : Z := owner_pid (mx k).

Definition mutex_destroy : M mkern unit :=
  m_upd (set_lock false 0 0) ;;;
  m_upd (fun m => set_waiters (waiters m) (waiter_gens m) 0 m).

(** * The wait queue as a list of (pid, generation) pairs *)

Definition mrep (m : mutex) (ws : list (Z * Z)) : Prop :=
  length (waiters m) = 16%nat /\ length (waiter_gens m) = 16%nat /\
  num_waiters m = Z.of_nat (length ws) /\ (length ws <= 16)%nat /\
  exists j1 j2, waiters m = map fst ws ++ j1 /\ waiter_gens m = map snd ws ++ j2.

(** What of a mutex is not its wait queue. *)
Definition same_lock (m m' : mutex) : Prop :=
  locked m' = locked m /\ owner_pid m' = owner_pid m /\ lock_count m' = lock_count m /\ flags m' = flags m.

Lemma wp_m_sched {A} (m : M sched A) (Q : A -> mkern -> Prop) k :
  wp m (fun a s' => Q a (put_msch s' k)) (msch k) -> wp (m_sched m) Q k.
Proof. unfold wp, m_sched. by destruct (m (msch k)) as [[a s']|]. Qed.

Lemma wp_m_upd f (Q : unit -> mkern -> Prop) k : Q tt (put_mx (f (mx k)) k) -> wp (m_upd f) Q k.
Proof. done. Qed.

Lemma shift2_shift n : forall i a b a' b',
  WaitQueue.shift n i a = Ok a' -> WaitQueue.shift n i b = Ok b' -> shift2 n i a b = Ok (a', b').
Proof.
  induction n as [|n IH]; intros i a b a' b'; simpl; [by intros [= ->] [= ->]|].
  destruct (aget a (i + 1)); [|done]. destruct (aset a i _) eqn:E1; [|done]. intros Ha.
  destruct (aget b (i + 1)); [|done]. destruct (aset b i _) eqn:E2; [|done]. intros Hb.
  rewrite ?E1, ?E2. by apply IH.
Qed.

(** Taking the first waiter off. *)
Lemma shift_first {A} (x : A) (l j : list A) :
  exists j', WaitQueue.shift (length l) 0 (x :: l ++ j) = Ok (l ++ j') /\ length j' = S (length j).
Proof. exists (List.last l x :: j). split; [exact (WaitQueue.shift_ok l [] x j)|done]. Qed.

Lemma mrep_pop m p g ws :
  mrep m ((p, g) :: ws) ->
  aget (waiters m) 0 = Ok p /\ aget (waiter_gens m) 0 = Ok g /\
  exists w' g', shift2 (iters 0 (num_waiters m -32 1)) 0 (waiters m) (waiter_gens m) = Ok (w', g') /\
    mrep (set_waiters w' g' (num_waiters m -32 1) m) ws.
Proof.
  intros (Hl1 & Hl2 & Hn & Hlen & j1 & j2 & Hw & Hg). simpl in *.
  assert (num_waiters m -32 1 = Z.of_nat (length ws)) as En by (rewrite Hn; u_lia).
  rewrite En, Hw, Hg in *. split_and!; [done..|].
  destruct (shift_first p (map fst ws) j1) as (k1 & E1 & K1).
  destruct (shift_first g (map snd ws) j2) as (k2 & E2 & K2).
  rewrite length_map in E1, E2. exists (map fst ws ++ k1), (map snd ws ++ k2).
  replace (iters 0 (Z.of_nat (length ws))) with (length ws) by (unfold iters; lia).
  split; [by apply shift2_shift|]. simpl in *. rewrite length_app, length_map in Hl1, Hl2.
  split_and!; simpl; rewrite ?length_app, ?length_map; [lia..|]. eauto.
Qed.

Lemma mrep_push m p g ws :
  mrep m ws -> (length ws < 16)%nat ->
  exists w' g', aset (waiters m) (num_waiters m) p = Ok w' /\ aset (waiter_gens m) (num_waiters m) g = Ok g' /\
    mrep (set_waiters w' g' (num_waiters m +32 1) m) (ws ++ [(p, g)]).
Proof.
  intros (Hl1 & Hl2 & Hn & Hlen & j1 & j2 & Hw & Hg) Hlt.
  rewrite !aset_ok by lia. eexists _, _. split_and!; [done..|]. rewrite Hn, Nat2Z.id.
  split_and!; simpl; rewrite ?length_insert, ?length_app; simpl; [done|done|u_lia|lia|].
  rewrite Hw, Hg in *. rewrite length_app, length_map in Hl1, Hl2.
  destruct j1 as [|y1 j1], j2 as [|y2 j2]; simpl in *; try lia.
  exists j1, j2. rewrite !map_app, <- !app_assoc, !insert_app_r_alt by (rewrite length_map; lia).
  by rewrite !length_map, !Nat.sub_diag.
Qed.

(** The first waiter that is still alive: its pid, its slot, and those behind. *)
Fixpoint next_live (s : sched) (ws : list (Z * Z)) : option (Z * nat * list (Z * Z)) :=
  match ws with
  | [] => None
  | (p, g) :: ws' => match task_get_validated p g s with
                     | Some i => Some (p, i, ws')
                     | None => next_live s ws'
                     end
  end.

Lemma find_slot_some f ts : forall k i,
  find_slot f ts k = Some i -> (k <= i)%nat /\ exists t, ts !! (i - k)%nat = Some t /\ f t = true.
Proof.
  induction ts as [|t ts IH]; intros k i; simpl; [done|]. destruct (f t) eqn:E.
  - intros [= ->]. rewrite Nat.sub_diag. split; [lia|]. by exists t.
  - intros H. destruct (IH _ _ H) as (Hle & t' & Ht' & Hf). split; [lia|]. exists t'.
    by replace (i - k)%nat with (S (i - S k)) by lia.
Qed.

Lemma validated_lookup p g s i :
  task_get_validated p g s = Some i ->
  exists t, tasks s !! i = Some t /\ pid t = p /\ generation t = g /\ terminated t = false.
Proof.
  intros H. destruct (find_slot_some _ _ _ _ H) as (_ & t & Ht & Hf). rewrite Nat.sub_0_r in Ht.
  apply andb_true_iff in Hf as [Hf Ht3]. apply andb_true_iff in Hf as [H1%Z.eqb_eq H2%Z.eqb_eq].
  exists t. split_and!; try done. by destruct (terminated t).
Qed.

(** The effect of waking the task in slot [i]. *)
Definition handed (s s' : sched) (r : list nat) (i : nat) : Prop :=
  exists t, tasks s !! i = Some t /\
    (if bool_decide (state t = TASK_STATE_BLOCKED) && negb (bool_decide (i ∈ r))
     then queue s' (r ++ [i]) /\ links_only (ready_task i s) s'
     else s' = s).

Lemma wakeup_handed s r i t :
  queue s r -> tasks s !! i = Some t -> 1 <= pid t ->
  wp (scheduler_wakeup_task (Some i)) (fun _ s' => handed s s' r i) s.
Proof.
  intros Hq Ht Hp. unfold scheduler_wakeup_task, handed. apply wp_bind, (wp_tget _ _ t); [done|].
  case_bool_decide as Hb; [|apply wp_ret; exists t; rewrite bool_decide_false by done; done].
  eapply wp_mono; [by apply (add_task_ok s r i t)|]. intros [] s' H. cbv beta in H. exists t.
  rewrite (bool_decide_true _ Hb). split; [done|]. cbn [andb].
  destruct (bool_decide (i ∈ r)); [done|]. by destruct H as (? & ? & _).
Qed.

Lemma unlock_loop_ok : forall ws fuel k r,
  queue (msch k) r -> mrep (mx k) ws -> Forall (fun w => 1 <= fst w) ws -> (length ws < fuel)%nat ->
  wp (unlock_loop fuel)
     (fun ok k' =>
        match next_live (msch k) ws with
        | None => ok = false /\ msch k' = msch k /\ mrep (mx k') [] /\ same_lock (mx k) (mx k')
        | Some (p, i, ws') =>
            ok = true /\ mrep (mx k') ws' /\ locked (mx k') = locked (mx k) /\ owner_pid (mx k') = p /\
            lock_count (mx k') = 1 /\ handed (msch k) (msch k') r i
        end) k.
Proof.
  induction ws as [|[p g] ws IH]; intros fuel k r Hq Hrep Hpos Hf; (destruct fuel as [|fuel]; [simpl in Hf; lia|]);
    pose proof Hrep as (_ & _ & Hn & _); cbn [unlock_loop next_live]; wp_step; wp_step; rewrite Hn.
  - by apply wp_ret.
  - rewrite (proj2 (Z.ltb_lt _ _)) by (simpl; lia). rewrite <- Hn.
    destruct (mrep_pop _ _ _ _ Hrep) as (E1 & E2 & w' & g' & E3 & Hrep').
    apply Forall_cons in Hpos as [Hp Hpos]. simpl in Hp, Hf.
    apply wp_bind. eapply wp_lift; [done|]. apply wp_bind. eapply wp_lift; [done|].
    apply wp_bind. eapply wp_lift; [done|]. apply wp_bind, wp_m_upd. cbn [fst snd].
    apply wp_bind, wp_m_sched, wp_gets. simpl.
    destruct (task_get_validated p g (msch k)) as [i|] eqn:Ev.
    + destruct (validated_lookup _ _ _ _ Ev) as (t & Ht & Hpt & _).
      apply wp_bind, wp_m_upd. apply wp_bind, wp_m_sched. simpl.
      eapply wp_mono; [eapply wakeup_handed; [exact Hq|exact Ht|lia]|].
      intros [] s' Hh. cbv beta in Hh. apply wp_ret. split_and!; try done.
    + eapply wp_mono; [apply (IH fuel _ r); [exact Hq|exact Hrep'|done|lia]|].
      intros ok k' H. simpl in H. destruct (next_live (msch k) ws) as [[[p' i] ws']|]; exact H.
Qed.

#[global] Arguments unlock_loop : simpl never.

(** The task in slot 0 runs and owns the mutex; two waiters, the first dead. *)
Definition mkern1 : mkern :=
  mk_mkern
    (put_tasks (<[3%nat := set_state TASK_STATE_BLOCKED (ring_task 4 None)]> (tasks (ring3 1)))
       (put_current (Some 0%nat) (ring3 1)))
    (mk_mutex true 1 1 (9 :: 4 :: replicate 14 0) (replicate 16 0) 2 0).

Lemma mkern1_queue : queue (msch mkern1) [0; 1; 2]%nat.
Proof.
  apply (queue_ext (ring3 1)); [apply ring3_queue; lia|done..|].
  intros j Hj. do 3 (apply elem_of_cons in Hj as [->|Hj]; [done|]). by apply not_elem_of_nil in Hj.
Qed.

Lemma mkern1_rep : mrep (mx mkern1) [(9, 0); (4, 0)].
Proof. split_and!; try done; [simpl; lia|]. by exists (replicate 14 0), (replicate 14 0). Qed.

(** * Properties *)

(** [mutex_unlock] by the owner of the last level hands the mutex to the
    first waiter that is still alive, in the order in which they blocked, and
    wakes it; with none alive it becomes free. Released levels of a recursive
    lock keep the owner, and anyone but the owner is refused with nothing
    changed. *)
Theorem mutex_unlock_spec k r ws c t :
  queue (msch k) r -> mrep (mx k) ws -> Forall (fun w => 1 <= fst w) ws ->
  current (msch k) = Some c -> tasks (msch k) !! c = Some t -> 0 <= lock_count (mx k) < 2 ^ 32 ->
  wp mutex_unlock
     (fun v k' =>
        if negb (locked (mx k) && (owner_pid (mx k) =? pid t)) then v = -1 /\ k' = k
        else if 1 <? lock_count (mx k) then
          v = 0 /\ msch k' = msch k /\ mrep (mx k') ws /\ locked (mx k') = true /\
          owner_pid (mx k') = pid t /\ lock_count (mx k') = lock_count (mx k) - 1
        else
          v = 0 /\
          match next_live (msch k) ws with
          | None => msch k' = msch k /\ mrep (mx k') [] /\ locked (mx k') = false /\ owner_pid (mx k') = 0
          | Some (p, i, ws') =>
              mrep (mx k') ws' /\ locked (mx k') = true /\ owner_pid (mx k') = p /\
              lock_count (mx k') = 1 /\ handed (msch k) (msch k') r i
          end) k.
Proof.
  intros Hq Hrep Hpos Hc Ht Hcnt. unfold mutex_unlock. apply wp_bind, wp_m_sched, wp_gets. rewrite Hc.
  apply wp_bind, wp_m_sched, (wp_tget _ _ t); [exact Ht|]. wp_step. wp_step.
  rewrite negb_andb. simpl.
  destruct (locked (mx k)) eqn:El, (Z.eqb_spec (owner_pid (mx k)) (pid t)) as [Eo|Eo];
    cbn [orb negb andb]; try (apply wp_ret; by destruct k).
  destruct (Z.ltb_spec 1 (lock_count (mx k))).
  - apply wp_bind, wp_m_upd, wp_ret. simpl. rewrite El. split_and!; try done; u_lia.
  - apply wp_bind. eapply wp_mono; [eapply (unlock_loop_ok ws); [exact Hq|exact Hrep|done|]|].
    { destruct Hrep as (_ & _ & _ & ? & _). unfold MUTEX_MAX_WAITERS. lia. }
    intros ok k1 H1. cbv beta in H1. simpl in H1.
    destruct (next_live (msch k) ws) as [[[p i] ws']|].
    + destruct H1 as (-> & H2 & H3 & H4 & H5 & H6). rewrite El in H3.
      apply wp_bind, wp_ret, wp_ret. split_and!; done.
    + destruct H1 as (-> & H2 & H3 & H4). apply wp_bind, wp_m_upd, wp_ret. split_and!; done.
Qed.

Lemma mutex_unlock_spec_witness :
  wp mutex_unlock
     (fun v k' => v = 0 /\ mrep (mx k') [] /\ owner_pid (mx k') = 4 /\
                  handed (msch mkern1) (msch k') [0; 1; 2]%nat 3) mkern1.
Proof.
  eapply wp_mono; [apply (mutex_unlock_spec mkern1 [0; 1; 2]%nat [(9, 0); (4, 0)] 0 (ring_task 1 (Some 1%nat)));
    [exact mkern1_queue|exact mkern1_rep|by repeat constructor|reflexivity|reflexivity|simpl; lia]|].
  intros v k' H. cbv beta in H. by destruct H as (? & ? & _ & ? & _ & ?).
Defined.



End Mutex.
