(* ===== verification/Sha256.v ===== *)
(** SHA-256 (src/sha256.c): the incremental interface with its block buffer,
    against the padding and block chaining of FIPS 180-4 on the whole message.

    Bytes and words are integers in range; a context is the C structure. *)
From Stdlib Require Import ZArith Lia List Bool String.
From stdpp Require Import base tactics numbers list gmap.
From S2P Require Import Prelude.
Open Scope Z_scope.

Module Sha256.

#[local] Arguments Nat.mul : simpl never.
#[local] Arguments Nat.div : simpl never.
#[local] Arguments Nat.modulo : simpl never.

(** The rows of the table. *)
Definition K : list Z := concat
  [[0x428a2f98; 0x71374491; 0xb5c0fbcf; 0xe9b5dba5; 0x3956c25b; 0x59f111f1; 0x923f82a4; 0xab1c5ed5];
   [0xd807aa98; 0x12835b01; 0x243185be; 0x550c7dc3; 0x72be5d74; 0x80deb1fe; 0x9bdc06a7; 0xc19bf174];
   [0xe49b69c1; 0xefbe4786; 0x0fc19dc6; 0x240ca1cc; 0x2de92c6f; 0x4a7484aa; 0x5cb0a9dc; 0x76f988da];
   [0x983e5152; 0xa831c66d; 0xb00327c8; 0xbf597fc7; 0xc6e00bf3; 0xd5a79147; 0x06ca6351; 0x14292967];
   [0x27b70a85; 0x2e1b2138; 0x4d2c6dfc; 0x53380d13; 0x650a7354; 0x766a0abb; 0x81c2c92e; 0x92722c85];
   [0xa2bfe8a1; 0xa81a664b; 0xc24b8b70; 0xc76c51a3; 0xd192e819; 0xd6990624; 0xf40e3585; 0x106aa070];
   [0x19a4c116; 0x1e376c08; 0x2748774c; 0x34b0bcb5; 0x391c0cb3; 0x4ed8aa4a; 0x5b9cca4f; 0x682e6ff3];
   [0x748f82ee; 0x78a5636f; 0x84c87814; 0x8cc70208; 0x90befffa; 0xa4506ceb; 0xbef9a3f7; 0xc67178f2]].

(** * Words *)

Definition ROR (x n : Z) : Z := Z.lor (Z.shiftr x n) (u32 (Z.shiftl x (32 - n))).
Definition CH (x y z : Z) : Z := Z.lxor (Z.land x y) (Z.land (not32 x) z).
Definition MAJ (x y z : Z) : Z := Z.lxor (Z.lxor (Z.land x y) (Z.land x z)) (Z.land y z).
Definition EP0 (x : Z) : Z := Z.lxor (Z.lxor (ROR x 2) (ROR x 13)) (ROR x 22).
Definition EP1 (x : Z) : Z := Z.lxor (Z.lxor (ROR x 6) (ROR x 11)) (ROR x 25).
Definition SIG0 (x : Z) : Z := Z.lxor (Z.lxor (ROR x 7) (ROR x 18)) (Z.shiftr x 3).
Definition SIG1 (x : Z) : Z := Z.lxor (Z.lxor (ROR x 17) (ROR x 19)) (Z.shiftr x 10).

(** * The compression function *)

(** [m[0..15]]: big-endian words of the block. *)
Fixpoint words (n : nat) (data : list Z) : list Z :=
  match n, data with
  | S n', b0 :: b1 :: b2 :: b3 :: rest =>
      Z.lor (Z.lor (Z.lor (Z.shiftl b0 24) (Z.shiftl b1 16)) (Z.shiftl b2 8)) b3 :: words n' rest
  | _, _ => []
  end.

(** [m[i] = SIG1(m[i-2]) + m[i-7] + SIG0(m[i-15]) + m[i-16]], [n] times. *)
Fixpoint extend (n : nat) (m : list Z) : list Z :=
  match n with
  | O => m
  | S n' =>
      let i := length m in
      extend n' (m ++ [((SIG1 (m !!! (i - 2)%nat) +32 m !!! (i - 7)%nat) +32 SIG0 (m !!! (i - 15)%nat))
                         +32 m !!! (i - 16)%nat])
  end.

Definition schedule (data : list Z) : list Z := extend 48 (words 16 data).

Definition round (v : list Z) (km : Z * Z) : list Z :=
  match v with
  | [a; b; c; d; e; f; g; h] =>
      let t1 := (((h +32 EP1 e) +32 CH e f g) +32 fst km) +32 snd km in
      let t2 := EP0 a +32 MAJ a b c in
      [t1 +32 t2; a; b; c; d +32 t1; e; f; g]
  | _ => v
  end.

(** The new chaining value for a block. *)
Definition compress (st data : list Z) : list Z :=
  zip_with (fun x y => x +32 y) st (foldl round st (zip K (schedule data))).

(** * Contexts *)

Record sha256_ctx := mk_ctx { state : list Z; count : Z; buffer : list Z }.
Definition put_state (v : list Z) (c : sha256_ctx) : sha256_ctx := mk_ctx v (count c) (buffer c).
Definition put_count (v : Z) (c : sha256_ctx) : sha256_ctx := mk_ctx (state c) v (buffer c).
Definition put_buffer (v : list Z) (c : sha256_ctx) : sha256_ctx := mk_ctx (state c) (count c) v.

Definition sha256_transform (data : list Z) : M sha256_ctx unit :=
  st <- gets state ;; modify (put_state (compress st data)).

Definition IV : list Z :=
  [0x6a09e667; 0xbb67ae85; 0x3c6ef372; 0xa54ff53a; 0x510e527f; 0x9b05688c; 0x1f83d9ab; 0x5be0cd19].

Definition sha256_init : M sha256_ctx unit :=
  modify (put_count 0) ;;; modify (put_state IV).

(** [memcpy(&ctx->buffer[off], src, length src)] *)
Definition buf_copy (off : Z) (src : list Z) : M sha256_ctx unit :=
  b <- gets buffer ;;
  if (off <? 0) || (Z.of_nat (length b) <? off + Z.of_nat (length src)) then fail OutOfBounds
  else modify (put_buffer (take (Z.to_nat off) b ++ src ++ drop (Z.to_nat off + length src) b)).

(** [ctx->buffer[i] = v] *)
Definition buf_set (i v : Z) : M sha256_ctx unit :=
  b <- gets buffer ;; b' <- lift (aset b i v) ;; modify (put_buffer b').

(** [while (len >= 64)]: whole blocks straight from the input; the rest. *)
Fixpoint full_blocks (fuel : nat) (p : list Z) : M sha256_ctx (list Z) :=
  match fuel with
  | O => fail NoTermination
  | S fuel' => if 64 <=? Z.of_nat (length p)
               then sha256_transform (take 64 p) ;;; full_blocks fuel' (drop 64 p)
               else ret p
  end.

(** The buffered part: what is left of the input after the partial block. *)
Definition fill_partial (data : list Z) (buflen : Z) : M sha256_ctx (list Z) :=
  if 0 <? buflen then
    let to_copy := Z.min (64 - buflen) (Z.of_nat (length data)) in
    buf_copy buflen (take (Z.to_nat to_copy) data) ;;;
    (if buflen + to_copy =? 64 then b <- gets buffer ;; sha256_transform b else ret tt) ;;;
    ret (drop (Z.to_nat to_copy) data)
  else ret data.

Definition sha256_update (data : list Z) : M sha256_ctx unit :=
  c <- gets count ;;
  let buflen := Z.land c 63 in
  modify (put_count (u64 (c + Z.of_nat (length data)))) ;;;
  p <- fill_partial data buflen ;;
  p' <- full_blocks (S (length p)) p ;;
  if 0 <? Z.of_nat (length p') then buf_copy 0 p' else ret tt.

(** [while (buflen < hi) ctx->buffer[buflen++] = 0] *)
Fixpoint zero_fill (fuel : nat) (buflen hi : Z) : M sha256_ctx unit :=
  match fuel with
  | O => fail NoTermination
  | S fuel' => if buflen <? hi then buf_set buflen 0 ;;; zero_fill fuel' (buflen + 1) hi else ret tt
  end.

(** The eight length bytes, from the last one up. *)
Fixpoint put_length (n : nat) (i bitlen : Z) : M sha256_ctx unit :=
  match n with
  | O => ret tt
  | S n' => buf_set (63 - i) (u8 (Z.shiftr bitlen (i * 8))) ;;; put_length n' (i + 1) bitlen
  end.

Definition word_bytes (w : Z) : list Z :=
  [u8 (Z.shiftr w 24); u8 (Z.shiftr w 16); u8 (Z.shiftr w 8); u8 w].

Definition sha256_final : M sha256_ctx (list Z) :=
  c <- gets count ;;
  let buflen := Z.land c 63 in
  buf_set buflen 0x80 ;;;
  buflen <- (if 56 <? buflen + 1
             then zero_fill 65 (buflen + 1) 64 ;;;
                  b <- gets buffer ;; sha256_transform b ;;; ret 0
             else ret (buflen + 1)) ;;
  zero_fill 65 buflen 56 ;;;
  put_length 8 0 (u64 (c * 8)) ;;;
  b <- gets buffer ;;
  sha256_transform b ;;;
  st <- gets state ;;
  ret (concat (map word_bytes st)).

Definition sha256 (data : list Z) : M sha256_ctx (list Z) :=
  sha256_init ;;; sha256_update data ;;; sha256_final.

(** * The reference: FIPS 180-4 on the whole message *)

(** The chaining value after [n] blocks. *)
Fixpoint chain (n : nat) (st msg : list Z) : list Z :=
  match n with
  | O => st
  | S n' => chain n' (compress st (take 64 msg)) (drop 64 msg)
  end.

Definition be64 (v : Z) : list Z := map (fun i => u8 (Z.shiftr v (i * 8))) [7; 6; 5; 4; 3; 2; 1; 0].

(** One bit, the least number of zeros that aligns, the length in bits. *)
Definition padding (len : nat) : list Z :=
  0x80 :: replicate (Z.to_nat ((55 - Z.of_nat len) mod 64)) 0 ++ be64 (8 * Z.of_nat len).
Definition pad (msg : list Z) : list Z := msg ++ padding (length msg).

Definition digest (msg : list Z) : list Z :=
  concat (map word_bytes (chain (length (pad msg) / 64) IV (pad msg))).

Lemma chain_add a b st msg : chain (a + b) st msg = chain b (chain a st msg) (drop (64 * a) msg).
Proof.
  revert st msg. induction a as [|a IH]; intros st msg; [done|]. cbn [chain Nat.add]. rewrite IH.
  by rewrite drop_drop; replace (64 + 64 * a)%nat with (64 * S a)%nat by lia.
Qed.

Lemma blocks_app n st a b : (64 * n <= length a)%nat -> chain n st (a ++ b) = chain n st a.
Proof.
  revert st a. induction n as [|n IH]; intros st a Hn; [done|]. cbn [chain].
  rewrite take_app_le, drop_app_le by lia. apply IH. rewrite length_drop. lia.
Qed.

(** * The context after a message *)

Definition absorbed (c : sha256_ctx) (msg : list Z) : Prop :=
  state c = chain (length msg / 64) IV msg /\
  length (buffer c) = 64%nat /\
  take (length msg mod 64) (buffer c) = drop (64 * (length msg / 64)) msg.

Definition rep (c : sha256_ctx) (msg : list Z) : Prop :=
  count c = Z.of_nat (length msg) /\ absorbed c msg.

(** After [q] blocks of [msg], with [p] still to go. *)
Definition at_block (c : sha256_ctx) (msg : list Z) (q : nat) (p : list Z) : Prop :=
  state c = chain q IV msg /\ length (buffer c) = 64%nat /\
  p = drop (64 * q) msg /\ (64 * q <= length msg)%nat.

Lemma transform_ok c msg q p :
  at_block c msg q p -> (64 <= length p)%nat ->
  at_block (put_state (compress (state c) (take 64 p)) c) msg (S q) (drop 64 p).
Proof.
  intros (Hst & Hb & -> & Hq) Hp. rewrite length_drop in Hp. split_and!; [|done| |lia].
  - cbn [state put_state]. rewrite Hst. replace (S q) with (q + 1)%nat by lia. by rewrite chain_add.
  - rewrite drop_drop. f_equal. lia.
Qed.

Lemma full_blocks_ok msg : forall fuel c q p,
  at_block c msg q p -> (length p < fuel)%nat ->
  wp (full_blocks fuel p)
     (fun p' c' => at_block c' msg (length msg / 64) p' /\ (length p' < 64)%nat /\ count c' = count c) c.
Proof.
  induction fuel as [|fuel IH]; intros c q p Hat Hf; [lia|]. cbn [full_blocks].
  destruct (Z.leb_spec 64 (Z.of_nat (length p))).
  - unfold sha256_transform. wp_steps.
    eapply wp_mono; [apply (IH _ (S q)); [apply transform_ok; [done|lia]|rewrite length_drop; lia]|].
    done.
  - apply wp_ret. destruct Hat as (Hst & Hb & Ep & Hq).
    assert (q = length msg / 64)%nat as <-.
    { apply (f_equal length) in Ep. rewrite length_drop in Ep.
      apply Nat.div_unique with (length p); lia. }
    split_and!; try done. lia.
Qed.

#[local] Arguments full_blocks : simpl never.

Lemma full_blocks_nil fuel c : full_blocks (S fuel) [] c = Ok ([], c).
Proof. done. Qed.

Lemma buf_copy_ok c off src (Q : unit -> sha256_ctx -> Prop) :
  0 <= off -> length (buffer c) = 64%nat -> off + Z.of_nat (length src) <= 64 ->
  Q tt (put_buffer (take (Z.to_nat off) (buffer c) ++ src ++
                    drop (Z.to_nat off + length src) (buffer c)) c) ->
  wp (buf_copy off src) Q c.
Proof.
  intros H0 Hb Hle HQ. unfold buf_copy. wp_step. wp_step.
  rewrite (proj2 (Z.ltb_ge _ _)), (proj2 (Z.ltb_ge _ _)) by lia. by wp_step.
Qed.

Lemma put_buffer_state c b : state (put_buffer b c) = state c.
Proof. done. Qed.

(** Topping up the partial block. *)
Lemma fill_partial_ok c msg data :
  absorbed c msg ->
  wp (fill_partial data (Z.of_nat (length msg mod 64)))
     (fun p c' => count c' = count c /\
        (at_block c' (msg ++ data) ((length msg + 63) / 64) p \/
         (p = [] /\ (length msg mod 64 + length data < 64)%nat /\
          state c' = state c /\ length (buffer c') = 64%nat /\
          take (length msg mod 64 + length data) (buffer c') = drop (64 * (length msg / 64)) (msg ++ data)))) c.
Proof.
  intros (Hst & Hb & Hbuf). set (r := (length msg mod 64)%nat) in *. set (q := (length msg / 64)%nat) in *.
  assert (length msg = 64 * q + r /\ r < 64)%nat as [Hlen Hr].
  { split; [apply Nat.div_mod; lia|apply Nat.mod_upper_bound; lia]. }
  unfold fill_partial. destruct (Z.ltb_spec 0 (Z.of_nat r)) as [Hr0|Hr0].
  - assert ((length msg + 63) / 64 = S q)%nat as ->.
    { symmetry. apply Nat.div_unique with (r - 1)%nat; lia. }
    set (tc := Z.min (64 - Z.of_nat r) (Z.of_nat (length data))).
    assert (0 <= tc <= 64 - Z.of_nat r /\ tc <= Z.of_nat (length data)) as [Htc1 Htc2] by lia.
    apply wp_bind, buf_copy_ok; [lia|done|rewrite length_take; lia|]. rewrite length_take_le, Nat2Z.id by lia.
    rewrite Hbuf. set (A := drop (64 * q) msg).
    assert (length A = r) as HA by (unfold A; rewrite length_drop; lia).
    assert (drop (64 * q) (msg ++ data) = A ++ data) as HD by (rewrite drop_app_le by lia; done).
    destruct (Z.eqb_spec (Z.of_nat r + tc) 64) as [E64|E64].
    + rewrite (drop_ge (buffer c)) by lia. rewrite app_nil_r.
      unfold sha256_transform. wp_steps. split; [done|]. left.
      assert (at_block (put_buffer (A ++ take (Z.to_nat tc) data) c) (msg ++ data) q (A ++ data)) as Hat.
      { split_and!; [|cbn [buffer put_buffer]; rewrite length_app, length_take; lia|done|rewrite length_app; lia].
        rewrite put_buffer_state, Hst. symmetry. apply blocks_app. lia. }
      apply transform_ok in Hat; [|rewrite length_app; lia].
      rewrite take_app_ge, drop_app_ge in Hat by lia.
      replace (64 - length A)%nat with (Z.to_nat tc) in Hat by lia. exact Hat.
    + assert (Z.to_nat tc = length data) as Etc by lia. wp_steps. split; [done|]. right.
      rewrite Etc, drop_all, firstn_all. split_and!; [done|lia|done| |].
      * cbn [buffer put_buffer]. rewrite !length_app, length_drop. lia.
      * cbn [buffer put_buffer]. rewrite app_assoc, take_app_le, HD by (rewrite length_app; lia).
        apply take_ge. rewrite length_app. lia.
  - assert (r = 0%nat) as Er by lia. apply wp_ret. split; [done|]. left.
    replace ((length msg + 63) / 64)%nat with q by (apply Nat.div_unique with 63%nat; lia).
    split_and!; [|done| |rewrite length_app; lia].
    + rewrite Hst. symmetry. apply blocks_app. lia.
    + rewrite drop_app_ge by lia. by replace (64 * q - length msg)%nat with 0%nat by lia.
Qed.

(** The two ways [sha256_update] ends. *)
Lemma rep_done c msg :
  at_block c msg (length msg / 64) (drop (64 * (length msg / 64)) msg) -> count c = Z.of_nat (length msg) ->
  take (length msg mod 64) (buffer c) = drop (64 * (length msg / 64)) msg -> rep c msg.
Proof. intros (? & ? & _ & _) ? ?. by split_and!. Qed.

Lemma sha256_update_ok c msg data :
  rep c msg -> Z.of_nat (length (msg ++ data)) < 2 ^ 64 ->
  wp (sha256_update data) (fun _ c' => rep c' (msg ++ data)) c.
Proof.
  intros Hrep Hmax. pose proof Hrep as (Hc & Hst & Hb & Hbuf). unfold sha256_update.
  wp_step. wp_step. cbv zeta. wp_step. wp_step. rewrite Hc.
  assert (Z.land (Z.of_nat (length msg)) 63 = Z.of_nat (length msg mod 64)) as ->.
  { change 63 with (Z.ones 6). rewrite Z.land_ones by lia. by rewrite Nat2Z.inj_mod. }
  set (c1 := put_count _ c). rewrite length_app in Hmax.
  assert (count c1 = Z.of_nat (length (msg ++ data))) as Hc1 by (simpl; rewrite length_app; u_lia).
  apply wp_bind. eapply wp_mono; [apply (fill_partial_ok c1 msg); by split_and!|].
  intros p c2 (Hc2 & [Hat|Hdone]).
  - apply wp_bind. eapply wp_mono; [apply (full_blocks_ok (msg ++ data) _ _ _ _ Hat); lia|].
    intros p' c3 (Hat3 & Hp' & Hc3). pose proof Hat3 as (Hst3 & Hb3 & Ep' & _).
    assert (length p' = length (msg ++ data) mod 64)%nat as Hl.
    { rewrite Ep', length_drop. pose proof (Nat.div_mod (length (msg ++ data)) 64 ltac:(lia)). lia. }
    destruct (Z.ltb_spec 0 (Z.of_nat (length p'))).
    + apply buf_copy_ok; [lia|done|lia|]. split; [by rewrite <- Hc1, <- Hc2, <- Hc3|].
      split_and!; [done| |]; cbn [buffer put_buffer].
      * rewrite !length_app, length_take, length_drop. lia.
      * rewrite take_0, <- Hl, <- Ep'. cbn [app]. by rewrite take_app_length.
    + apply wp_ret. split; [by rewrite <- Hc1, <- Hc2, <- Hc3|]. split_and!; [done|done|].
      rewrite <- Hl, <- Ep'. destruct p'; [done|simpl in *; lia].
  - destruct Hdone as (-> & Hlt & Hst2 & Hb2 & Hbuf2). apply wp_bind.
    eapply wp_ok; [apply full_blocks_nil|]. apply wp_ret. split; [by rewrite <- Hc1, <- Hc2|].
    pose proof (Nat.div_mod (length msg) 64 ltac:(lia)) as Hdm.
    assert (length (msg ++ data) / 64 = length msg / 64)%nat as E1.
    { symmetry. rewrite length_app. apply Nat.div_unique with (length msg mod 64 + length data)%nat; lia. }
    assert (length (msg ++ data) mod 64 = length msg mod 64 + length data)%nat as E2.
    { symmetry. rewrite length_app. apply Nat.mod_unique with (length msg / 64)%nat; lia. }
    split_and!; rewrite ?E1, ?E2; [|done|done].
    rewrite Hst2. change (state c1) with (state c). rewrite Hst. symmetry. apply blocks_app. lia.
Qed.

(** * Padding *)

(** The buffer starts with [p]. *)
Definition starts (c : sha256_ctx) (p : list Z) : Prop :=
  length (buffer c) = 64%nat /\ exists rest, buffer c = p ++ rest.
Definition kept (c c' : sha256_ctx) : Prop := state c' = state c /\ count c' = count c.

Lemma buf_set_ok c p v :
  starts c p -> (length p < 64)%nat ->
  wp (buf_set (Z.of_nat (length p)) v) (fun _ c' => starts c' (p ++ [v]) /\ kept c c') c.
Proof.
  intros [Hb [rest E]] Hp. unfold buf_set. wp_step. wp_step. apply wp_bind.
  eapply wp_lift; [apply aset_ok; lia|]. wp_step. split; [|done].
  rewrite Nat2Z.id. split; cbn [buffer put_buffer].
  - by rewrite length_insert.
  - rewrite E in *. rewrite length_app in Hb. destruct rest as [|x rest]; [simpl in Hb; lia|].
    exists rest. rewrite insert_app_r_alt, Nat.sub_diag by lia. by rewrite <- app_assoc.
Qed.

Lemma zero_fill_ok hi : (hi <= 64)%nat -> forall fuel c p,
  starts c p -> (length p <= hi)%nat -> (hi - length p < fuel)%nat ->
  wp (zero_fill fuel (Z.of_nat (length p)) (Z.of_nat hi))
     (fun _ c' => starts c' (p ++ replicate (hi - length p) 0) /\ kept c c') c.
Proof.
  intros Hhi. induction fuel as [|fuel IH]; intros c p Hs Hp Hf; [lia|]. cbn [zero_fill].
  destruct (Z.ltb_spec (Z.of_nat (length p)) (Z.of_nat hi)).
  - apply wp_bind. eapply wp_mono; [apply buf_set_ok; [done|lia]|]. intros _ c1 [Hs1 [Hk1 Hk1']].
    replace (Z.of_nat (length p) + 1) with (Z.of_nat (length (p ++ [0]))) by (rewrite length_app; simpl; lia).
    eapply wp_mono; [apply IH; [done|rewrite length_app; simpl; lia..]|].
    intros _ c2 [Hs2 [Hk2 Hk2']]. split; [|split; congruence].
    rewrite length_app, <- app_assoc in Hs2. simpl in Hs2.
    replace (hi - length p)%nat with (S (hi - (length p + 1))) by lia. done.
  - apply wp_ret. replace (hi - length p)%nat with 0%nat by lia. by rewrite app_nil_r.
Qed.

Lemma put_length_ok c p bitlen :
  starts c p -> length p = 56%nat ->
  wp (put_length 8 0 bitlen) (fun _ c' => buffer c' = p ++ be64 bitlen /\ kept c c') c.
Proof.
  intros [Hb [rest E]] Hp. rewrite E, length_app in Hb.
  destruct rest as [|x0 [|x1 [|x2 [|x3 [|x4 [|x5 [|x6 [|x7 [|x8 rest]]]]]]]]]; simpl in Hb; try lia.
  unfold put_length, buf_set.
  do 8 (apply wp_bind; wp_step; wp_step; apply wp_bind; eapply wp_lift;
        [cbn [buffer put_buffer]; rewrite ?E; apply aset_ok; rewrite length_app, Hp; simpl; lia|];
        wp_step; cbn [buffer put_buffer]; rewrite insert_app_r_alt by lia; rewrite Hp).
  apply wp_ret. split; [|done]. done.
Qed.

#[local] Arguments zero_fill : simpl never.
#[local] Arguments put_length : simpl never.

(** The chaining value of the padded message, by its last one or two blocks. *)
Lemma chain_pad_one msg b1 :
  drop (64 * (length msg / 64)) msg ++ padding (length msg) = b1 -> length b1 = 64%nat ->
  chain (length (pad msg) / 64) IV (pad msg) = compress (chain (length msg / 64) IV msg) b1.
Proof.
  intros E Hl. pose proof (Nat.div_mod (length msg) 64 ltac:(lia)) as Hdm.
  pose proof (f_equal length E) as El. rewrite length_app, length_drop in El.
  assert (length (pad msg) / 64 = length msg / 64 + 1)%nat as ->.
  { symmetry. apply Nat.div_unique with 0%nat; [lia|]. unfold pad. rewrite length_app. lia. }
  rewrite chain_add. unfold pad. rewrite blocks_app by lia. rewrite drop_app_le by lia. rewrite E.
  cbn [chain]. by rewrite take_ge by lia.
Qed.

Lemma chain_pad_two msg b1 b2 :
  drop (64 * (length msg / 64)) msg ++ padding (length msg) = b1 ++ b2 ->
  length b1 = 64%nat -> length b2 = 64%nat ->
  chain (length (pad msg) / 64) IV (pad msg)
  = compress (compress (chain (length msg / 64) IV msg) b1) b2.
Proof.
  intros E Hl1 Hl2. pose proof (Nat.div_mod (length msg) 64 ltac:(lia)) as Hdm.
  pose proof (f_equal length E) as El. rewrite !length_app, length_drop in El.
  assert (length (pad msg) / 64 = length msg / 64 + 2)%nat as ->.
  { symmetry. apply Nat.div_unique with 0%nat; [lia|]. unfold pad. rewrite length_app. lia. }
  rewrite chain_add. unfold pad. rewrite blocks_app by lia. rewrite drop_app_le by lia. rewrite E.
  cbn [chain]. rewrite take_app_le, take_ge by lia. rewrite drop_app_ge, Hl1, drop_0 by lia.
  by rewrite take_ge by lia.
Qed.

Lemma starts_full c p : starts c p -> length p = 64%nat -> length (buffer c) = 64%nat /\ buffer c = p.
Proof.
  intros [Hb [rest E]] Hp. split; [done|]. rewrite E in *. rewrite length_app in Hb.
  destruct rest; [by rewrite app_nil_r|simpl in Hb; lia].
Qed.

(** From a partly filled last block to the digest. *)
Lemma last_block_ok c p msg st :
  starts c p -> state c = st -> (length p <= 56)%nat ->
  (forall b, b = p ++ replicate (56 - length p) 0 ++ be64 (8 * Z.of_nat (length msg)) ->
             compress st b = chain (length (pad msg) / 64) IV (pad msg)) ->
  wp (zero_fill 65 (Z.of_nat (length p)) 56 ;;;
      put_length 8 0 (8 * Z.of_nat (length msg)) ;;;
      b <- gets buffer ;; sha256_transform b ;;; st <- gets state ;; ret (concat (map word_bytes st)))
     (fun h _ => h = digest msg) c.
Proof.
  intros Hs Hst Hp Hb. apply wp_bind. change 56 with (Z.of_nat 56).
  eapply wp_mono; [apply zero_fill_ok; [lia|done|lia..]|]. intros _ c1 [Hs1 [Hk1 _]].
  apply wp_bind. eapply wp_mono; [apply put_length_ok; [done|rewrite length_app, length_replicate; lia]|].
  intros _ c2 [Hb2 [Hk2 _]]. unfold sha256_transform. wp_steps.
  unfold digest. rewrite <- (Hb (buffer c2)); [by rewrite Hk2, Hk1, Hst|]. by rewrite Hb2, <- app_assoc.
Qed.

Lemma sha256_final_ok c msg :
  rep c msg -> 8 * Z.of_nat (length msg) < 2 ^ 64 ->
  wp sha256_final (fun h _ => h = digest msg) c.
Proof.
  intros (Hc & Hst & Hb & Hbuf) Hmax. unfold sha256_final. wp_step. wp_step. cbv zeta. rewrite Hc.
  set (r := (length msg mod 64)%nat) in *. set (A := drop (64 * (length msg / 64)) msg) in *.
  assert (r < 64)%nat as Hr by (apply Nat.mod_upper_bound; lia).
  assert (length A = r) as HA.
  { unfold A. rewrite length_drop. pose proof (Nat.div_mod (length msg) 64 ltac:(lia)). lia. }
  assert (Z.land (Z.of_nat (length msg)) 63 = Z.of_nat (length A)) as ->.
  { rewrite HA. unfold r. change 63 with (Z.ones 6). rewrite Z.land_ones by lia. by rewrite Nat2Z.inj_mod. }
  assert ((55 - Z.of_nat (length msg)) mod 64 = (55 - Z.of_nat r) mod 64) as Epad.
  { unfold r. rewrite Nat2Z.inj_mod. by rewrite Zminus_mod_idemp_r. }
  assert (u64 (Z.of_nat (length msg) * 8) = 8 * Z.of_nat (length msg)) as -> by u_lia.
  apply wp_bind. eapply wp_mono; [apply buf_set_ok; [|lia]|].
  { split; [done|]. exists (drop r (buffer c)). rewrite <- Hbuf. by rewrite take_drop. }
  intros _ c1 [Hs1 [Hk1 _]]. rewrite Hst in Hk1.
  replace (Z.of_nat (length A) + 1) with (Z.of_nat (length (A ++ [128]))) by (rewrite length_app; simpl; lia).
  assert (length (A ++ [128]) = S r) as HA1 by (rewrite length_app; simpl; lia).
  destruct (Z.ltb_spec 56 (Z.of_nat (length (A ++ [128])))) as [Hbig|Hsmall].
  - apply wp_bind. apply wp_bind. change 64 with (Z.of_nat 64).
    eapply wp_mono; [apply zero_fill_ok; [lia|done|lia..]|]. intros _ c2 [Hs2 [Hk2 _]].
    unfold sha256_transform at 1. do 7 wp_step. rewrite HA1 in Hs2.
    set (B1 := (A ++ [128]) ++ replicate (64 - S r) 0) in *.
    assert (length B1 = 64%nat) as HB1 by (unfold B1; rewrite length_app, HA1, length_replicate; lia).
    destruct (starts_full _ _ Hs2 HB1) as [Hl2 ->].
    apply (last_block_ok _ [] msg (compress (chain (length msg / 64) IV msg) B1)).
    + split; [exact Hl2|]. by eexists.
    + cbn [state put_state]. by rewrite Hk2, Hk1.
    + simpl. lia.
    + intros B2 ->. cbn [app length Nat.sub]. symmetry. apply chain_pad_two; [|done|by rewrite length_app].
      unfold B1, padding. rewrite Epad, <- !app_assoc. cbn [app]. do 2 f_equal. rewrite !app_assoc. f_equal.
      rewrite <- replicate_add. f_equal. rewrite Z.mod_eq by lia.
      replace ((55 - Z.of_nat r) / 64) with (-1) by (apply Z.div_unique with (119 - Z.of_nat r); lia). lia.
  - apply wp_bind, wp_ret. cbv beta.
    apply (last_block_ok _ (A ++ [128]) msg (chain (length msg / 64) IV msg)); [done|done|lia|].
    intros B ->. symmetry. apply chain_pad_one.
    + unfold padding. rewrite Epad, <- !app_assoc. cbn [app]. do 4 f_equal. rewrite HA1, Z.mod_small; lia.
    + rewrite (length_app (A ++ [128])), (length_app (replicate _ _)), length_replicate, HA1. simpl. lia.
Qed.

(** * The message schedule *)

Definition next_word (m : list Z) (t : nat) : Z :=
  ((SIG1 (m !!! (t - 2)%nat) +32 m !!! (t - 7)%nat) +32 SIG0 (m !!! (t - 15)%nat)) +32 m !!! (t - 16)%nat.

Lemma next_word_app m l t : (16 <= t <= length m)%nat -> next_word (m ++ l) t = next_word m t.
Proof. intros H. unfold next_word. by rewrite !lookup_total_app_l by lia. Qed.

Lemma extend_spec n : forall m, (16 <= length m)%nat ->
  exists l, extend n m = m ++ l /\ length l = n /\
    forall t, (length m <= t < length m + n)%nat -> extend n m !!! t = next_word (extend n m) t.
Proof.
  induction n as [|n IH]; intros m Hm; cbn [extend].
  - exists []. rewrite app_nil_r. split_and!; [done..|]. lia.
  - set (w := _ +32 _). change w with (next_word m (length m)) in *. clear w.
    set (w := next_word m (length m)).
    destruct (IH (m ++ [w])) as (l & E & Hl & Hrec); [rewrite length_app; simpl; lia|].
    exists (w :: l). rewrite E, <- app_assoc. split_and!; [done|simpl; lia|].
    intros t Ht. rewrite E, <- app_assoc in Hrec. cbn [app] in *.
    destruct (decide (t = length m)) as [->|Hne].
    + rewrite next_word_app by lia. by rewrite lookup_total_app_r, Nat.sub_diag by lia.
    + apply Hrec. rewrite length_app. simpl. lia.
Qed.

Lemma words_spec n : forall data t, length data = (4 * n)%nat -> (t < n)%nat ->
  length (words n data) = n /\
  words n data !!! t = Z.lor (Z.lor (Z.lor (Z.shiftl (data !!! (4 * t)%nat) 24)
                       (Z.shiftl (data !!! (4 * t + 1)%nat) 16)) (Z.shiftl (data !!! (4 * t + 2)%nat) 8))
                       (data !!! (4 * t + 3)%nat).
Proof.
  induction n as [|n IH]; intros data t Hl Ht; [lia|].
  destruct data as [|b0 [|b1 [|b2 [|b3 data]]]]; simpl in Hl; try lia. cbn [words length].
  destruct n as [|n].
  - replace t with 0%nat by lia. split; [by destruct data|done].
  - destruct t as [|t]; [split; [|done]; f_equal; destruct (IH data 0%nat); [lia..|done]|].
    destruct (IH data t) as [H1 H2]; [lia..|]. split; [by rewrite H1|].
    replace (4 * S t)%nat with (S (S (S (S (4 * t))))) by lia. exact H2.
Qed.

(** * Properties *)

(** A message fed in pieces. *)
Fixpoint updates (chunks : list (list Z)) : M sha256_ctx unit :=
  match chunks with
  | [] => ret tt
  | d :: ds => sha256_update d ;;; updates ds
  end.

Lemma updates_ok chunks : forall c msg,
  rep c msg -> Z.of_nat (length (msg ++ concat chunks)) < 2 ^ 64 ->
  wp (updates chunks) (fun _ c' => rep c' (msg ++ concat chunks)) c.
Proof.
  induction chunks as [|d ds IH]; intros c msg Hrep Hmax; cbn [updates concat].
  - apply wp_ret. by rewrite app_nil_r.
  - cbn [concat] in Hmax. rewrite app_assoc in *. rewrite length_app in Hmax. apply wp_bind.
    eapply wp_mono; [apply sha256_update_ok; [done|lia]|]. intros [] c1 Hrep1. cbv beta in Hrep1.
    apply IH; [done|]. rewrite length_app. lia.
Qed.

Lemma sha256_ok c msg : length (buffer c) = 64%nat -> 8 * Z.of_nat (length msg) < 2 ^ 64 ->
  wp (sha256 msg) (fun h _ => h = digest msg) c.
Proof.
  intros Hb Hmax. unfold sha256, sha256_init. do 4 wp_step. apply wp_bind.
  eapply wp_mono; [apply (sha256_update_ok _ [])|].
  - split; [done|]. by split_and!.
  - cbn [app]. lia.
  - intros [] c1 Hrep. cbn [app] in Hrep. by apply sha256_final_ok.
Qed.


Definition ctx0 : sha256_ctx := mk_ctx [] 0 (replicate 64 0).


(** The digest of the three bytes 'abc' is the one FIPS 180-4 gives. *)
Theorem sha256_abc :
  exists c, sha256 [0x61; 0x62; 0x63] ctx0 =
    Ok ([0xba; 0x78; 0x16; 0xbf; 0x8f; 0x01; 0xcf; 0xea; 0x41; 0x41; 0x40; 0xde; 0x5d; 0xae; 0x22; 0x23;
         0xb0; 0x03; 0x61; 0xa3; 0x96; 0x17; 0x7a; 0x9c; 0xb4; 0x10; 0xff; 0x61; 0xf2; 0x00; 0x15; 0xad], c).
Proof. eexists. lazy. reflexivity. Qed.

(** The message schedule of a block: sixteen big-endian words, and from
    there on the FIPS 180-4 recurrence. *)
Theorem schedule_fips data :
  length data = 64%nat ->
  length (schedule data) = 64%nat /\
  (forall t, (t < 16)%nat ->
     schedule data !!! t = Z.lor (Z.lor (Z.lor (Z.shiftl (data !!! (4 * t)%nat) 24)
       (Z.shiftl (data !!! (4 * t + 1)%nat) 16)) (Z.shiftl (data !!! (4 * t + 2)%nat) 8))
       (data !!! (4 * t + 3)%nat)) /\
  (forall t, (16 <= t < 64)%nat -> schedule data !!! t = next_word (schedule data) t).
Proof.
  intros Hd. destruct (words_spec 16 data 0%nat) as [Hw _]; [lia..|].
  destruct (extend_spec 48 (words 16 data)) as (l & E & Hl & Hrec); [lia|].
  unfold schedule. rewrite Hw in Hrec. split_and!.
  - rewrite E, length_app. lia.
  - intros t Ht. rewrite E, lookup_total_app_l by lia. by apply (words_spec 16 data t).
  - intros t Ht. apply Hrec. lia.
Qed.

Lemma schedule_fips_witness :
  length (replicate 64 0) = 64%nat /\ length (schedule (replicate 64 0)) = 64%nat.
Proof. split; [reflexivity|]. exact (proj1 (schedule_fips (replicate 64 0) eq_refl)). Defined.

End Sha256.
