(* ===== verification/Sha512.v ===== *)
(** SHA-512 (src/sha512.c): the incremental interface, which moves every byte
    through the block buffer, against the padding and block chaining of
    FIPS 180-4 on the whole message. *)
From Stdlib Require Import ZArith Lia List Bool String.
From stdpp Require Import base tactics numbers list gmap.
From S2P Require Import Prelude.
Open Scope Z_scope.

Module Sha512.

#[local] Arguments Nat.mul : simpl never.
#[local] Arguments Nat.div : simpl never.
#[local] Arguments Nat.modulo : simpl never.

Notation "x +64 y" := (u64 (x + y)) (at level 50, left associativity) : c_scope.

Definition K512 : list Z :=
  [0x428a2f98d728ae22; 0x7137449123ef65cd; 0xb5c0fbcfec4d3b2f; 0xe9b5dba58189dbbc;
   0x3956c25bf348b538; 0x59f111f1b605d019; 0x923f82a4af194f9b; 0xab1c5ed5da6d8118;
   0xd807aa98a3030242; 0x12835b0145706fbe; 0x243185be4ee4b28c; 0x550c7dc3d5ffb4e2;
   0x72be5d74f27b896f; 0x80deb1fe3b1696b1; 0x9bdc06a725c71235; 0xc19bf174cf692694;
   0xe49b69c19ef14ad2; 0xefbe4786384f25e3; 0x0fc19dc68b8cd5b5; 0x240ca1cc77ac9c65;
   0x2de92c6f592b0275; 0x4a7484aa6ea6e483; 0x5cb0a9dcbd41fbd4; 0x76f988da831153b5;
   0x983e5152ee66dfab; 0xa831c66d2db43210; 0xb00327c898fb213f; 0xbf597fc7beef0ee4;
   0xc6e00bf33da88fc2; 0xd5a79147930aa725; 0x06ca6351e003826f; 0x142929670a0e6e70;
   0x27b70a8546d22ffc; 0x2e1b21385c26c926; 0x4d2c6dfc5ac42aed; 0x53380d139d95b3df;
   0x650a73548baf63de; 0x766a0abb3c77b2a8; 0x81c2c92e47edaee6; 0x92722c851482353b;
   0xa2bfe8a14cf10364; 0xa81a664bbc423001; 0xc24b8b70d0f89791; 0xc76c51a30654be30;
   0xd192e819d6ef5218; 0xd69906245565a910; 0xf40e35855771202a; 0x106aa07032bbd1b8;
   0x19a4c116b8d2d0c8; 0x1e376c085141ab53; 0x2748774cdf8eeb99; 0x34b0bcb5e19b48a8;
   0x391c0cb3c5c95a63; 0x4ed8aa4ae3418acb; 0x5b9cca4f7763e373; 0x682e6ff3d6b2b8a3;
   0x748f82ee5defb2fc; 0x78a5636f43172f60; 0x84c87814a1f0ab72; 0x8cc702081a6439ec;
   0x90befffa23631e28; 0xa4506cebde82bde9; 0xbef9a3f7b2c67915; 0xc67178f2e372532b;
   0xca273eceea26619c; 0xd186b8c721c0c207; 0xeada7dd6cde0eb1e; 0xf57d4f7fee6ed178;
   0x06f067aa72176fba; 0x0a637dc5a2c898a6; 0x113f9804bef90dae; 0x1b710b35131c471b;
   0x28db77f523047d84; 0x32caab7b40c72493; 0x3c9ebe0a15c9bebc; 0x431d67c49c100d4c;
   0x4cc5d4becb3e42b6; 0x597f299cfc657e2a; 0x5fcb6fab3ad6faec; 0x6c44198c4a475817].

(** * Words *)

Definition not64 (x : Z) : Z := u64 (Z.lnot x).
Definition ROTR64 (x n : Z) : Z := Z.lor (Z.shiftr x n) (u64 (Z.shiftl x (64 - n))).
Definition SHR64 (x n : Z) : Z := Z.shiftr x n.
Definition CH64 (x y z : Z) : Z := Z.lxor (Z.land x y) (Z.land (not64 x) z).
Definition MAJ64 (x y z : Z) : Z := Z.lxor (Z.lxor (Z.land x y) (Z.land x z)) (Z.land y z).
Definition SIGMA0 (x : Z) : Z := Z.lxor (Z.lxor (ROTR64 x 28) (ROTR64 x 34)) (ROTR64 x 39).
Definition SIGMA1 (x : Z) : Z := Z.lxor (Z.lxor (ROTR64 x 14) (ROTR64 x 18)) (ROTR64 x 41).
Definition sigma0 (x : Z) : Z := Z.lxor (Z.lxor (ROTR64 x 1) (ROTR64 x 8)) (SHR64 x 7).
Definition sigma1 (x : Z) : Z := Z.lxor (Z.lxor (ROTR64 x 19) (ROTR64 x 61)) (SHR64 x 6).

(** * The compression function *)

Fixpoint be_word64 (acc : Z) (bytes : list Z) (shift : Z) : Z :=
  match bytes with
  | [] => acc
  | b :: bytes' => be_word64 (Z.lor acc (Z.shiftl b shift)) bytes' (shift - 8)
  end.

(** [W[0..15]]: big-endian words of the block. *)
Fixpoint words64 (n : nat) (data : list Z) : list Z :=
  match n with
  | O => []
  | S n' => be_word64 0 (take 8 data) 56 :: words64 n' (drop 8 data)
  end.

(** [W[i] = sigma1(W[i-2]) + W[i-7] + sigma0(W[i-15]) + W[i-16]], [n] times. *)
Fixpoint extend64 (n : nat) (w : list Z) : list Z :=
  match n with
  | O => w
  | S n' =>
      let i := length w in
      extend64 n' (w ++ [((sigma1 (w !!! (i - 2)%nat) +64 w !!! (i - 7)%nat) +64 sigma0 (w !!! (i - 15)%nat))
                           +64 w !!! (i - 16)%nat])
  end.

Definition schedule64 (data : list Z) : list Z := extend64 64 (words64 16 data).

Definition round64 (v : list Z) (kw : Z * Z) : list Z :=
  match v with
  | [a; b; c; d; e; f; g; h] =>
      let t1 := (((h +64 SIGMA1 e) +64 CH64 e f g) +64 fst kw) +64 snd kw in
      let t2 := SIGMA0 a +64 MAJ64 a b c in
      [t1 +64 t2; a; b; c; d +64 t1; e; f; g]
  | _ => v
  end.

(** The new chaining value for a block. *)
Definition compress64 (st data : list Z) : list Z :=
  zip_with (fun x y => x +64 y) st (foldl round64 st (zip K512 (schedule64 data))).

(** * Contexts *)

Record sha512_ctx := mk_ctx512 { state : list Z; bitcount : Z * Z; buffer : list Z; buflen : Z }.
Definition put_state (v : list Z) (c : sha512_ctx) : sha512_ctx := mk_ctx512 v (bitcount c) (buffer c) (buflen c).
Definition put_bitcount (v : Z * Z) (c : sha512_ctx) : sha512_ctx := mk_ctx512 (state c) v (buffer c) (buflen c).
Definition put_buffer (v : list Z) (c : sha512_ctx) : sha512_ctx := mk_ctx512 (state c) (bitcount c) v (buflen c).
Definition put_buflen (v : Z) (c : sha512_ctx) : sha512_ctx := mk_ctx512 (state c) (bitcount c) (buffer c) v.

Definition sha512_transform (data : list Z) : M sha512_ctx unit :=
  st <- gets state ;; modify (put_state (compress64 st data)).

Definition IV512 : list Z :=
  [0x6a09e667f3bcc908; 0xbb67ae8584caa73b; 0x3c6ef372fe94f82b; 0xa54ff53a5f1d36f1;
   0x510e527fade682d1; 0x9b05688c2b3e6c1f; 0x1f83d9abfb41bd6b; 0x5be0cd19137e2179].

Definition sha512_init : M sha512_ctx unit :=
  modify (put_state IV512) ;;; modify (put_bitcount (0, 0)) ;;; modify (put_buflen 0) ;;;
  modify (put_buffer (replicate 128 0)).

(** The 128-bit bit counter, low half first. *)
Definition count_bits (len64 : Z) (bc : Z * Z) : Z * Z :=
  let lo := u64 (fst bc + u64 (Z.shiftl len64 3)) in
  let hi := if lo <? fst bc then u64 (snd bc + 1) else snd bc in
  (lo, u64 (hi + Z.shiftr len64 61)).

(** One turn of the byte loop. *)
Definition absorb_byte (b : Z) : M sha512_ctx unit :=
  n <- gets buflen ;; buf <- gets buffer ;;
  buf' <- lift (aset buf n b) ;;
  modify (put_buffer buf') ;;; modify (put_buflen (u32 (n + 1))) ;;;
  if u32 (n + 1) =? 128 then sha512_transform buf' ;;; modify (put_buflen 0) else ret tt.

Fixpoint absorb (data : list Z) : M sha512_ctx unit :=
  match data with
  | [] => ret tt
  | b :: data' => absorb_byte b ;;; absorb data'
  end.

Definition sha512_update (data : list Z) : M sha512_ctx unit :=
  bc <- gets bitcount ;;
  modify (put_bitcount (count_bits (Z.of_nat (length data)) bc)) ;;; absorb data.

(** Eight bytes of a word, most significant first. *)
Definition be_bytes64 (v : Z) : list Z := map (fun s => Z.land (Z.shiftr v s) 255) [56; 48; 40; 32; 24; 16; 8; 0].

Definition sha512_final : M sha512_ctx (list Z) :=
  bc <- gets bitcount ;; n <- gets buflen ;;
  let bits := be_bytes64 (snd bc) ++ be_bytes64 (fst bc) in
  let padlen := if n <? 112 then u32 (112 - n) else u32 (240 - n) in
  let pad := 0x80 :: replicate (Z.to_nat padlen - 1) 0 in
  (if 128 <? padlen then fail OutOfBounds else ret tt) ;;;
  sha512_update pad ;;;
  sha512_update bits ;;;
  st <- gets state ;; ret (concat (map be_bytes64 st)).

(** The context is a local variable: its contents before [sha512_init] do not
    matter and it is gone afterwards. *)
Definition blank_ctx : sha512_ctx := mk_ctx512 [] (0, 0) (replicate 128 0) 0.

Definition sha512 (data : list Z) : result (list Z) :=
  match (sha512_init ;;; sha512_update data ;;; sha512_final) blank_ctx with
  | Ok (h, _) => Ok h
  | Err f => Err f
  end.

(** * The reference: FIPS 180-4 on the whole message *)

(** The chaining value after [n] blocks. *)
Fixpoint chain64 (n : nat) (st msg : list Z) : list Z :=
  match n with
  | O => st
  | S n' => chain64 n' (compress64 st (take 128 msg)) (drop 128 msg)
  end.

(** Sixteen bytes, most significant first. *)
Definition be128 (v : Z) : list Z :=
  map (fun s => v / 2 ^ s mod 256) [120; 112; 104; 96; 88; 80; 72; 64; 56; 48; 40; 32; 24; 16; 8; 0].

(** One bit, the least number of zeros that aligns, the length in bits. *)
Definition padding64 (len : nat) : list Z :=
  0x80 :: replicate (Z.to_nat ((111 - Z.of_nat len) mod 128)) 0 ++ be128 (8 * Z.of_nat len).
Definition pad64 (msg : list Z) : list Z := msg ++ padding64 (length msg).

Definition digest512 (msg : list Z) : list Z :=
  concat (map be_bytes64 (chain64 (length (pad64 msg) / 128) IV512 (pad64 msg))).

Lemma chain64_add a b st msg : chain64 (a + b) st msg = chain64 b (chain64 a st msg) (drop (128 * a) msg).
Proof.
  revert st msg. induction a as [|a IH]; intros st msg; [done|]. cbn [chain64 Nat.add]. rewrite IH.
  by rewrite drop_drop; replace (128 + 128 * a)%nat with (128 * S a)%nat by lia.
Qed.

Lemma chain64_app n st a b : (128 * n <= length a)%nat -> chain64 n st (a ++ b) = chain64 n st a.
Proof.
  revert st a. induction n as [|n IH]; intros st a Hn; [done|]. cbn [chain64].
  rewrite take_app_le, drop_app_le by lia. apply IH. rewrite length_drop. lia.
Qed.

(** * The context after a message *)

Definition absorbed (c : sha512_ctx) (msg : list Z) : Prop :=
  state c = chain64 (length msg / 128) IV512 msg /\
  length (buffer c) = 128%nat /\ buflen c = Z.of_nat (length msg mod 128) /\
  take (length msg mod 128) (buffer c) = drop (128 * (length msg / 128)) msg.

Lemma absorb_byte_ok c msg b :
  absorbed c msg ->
  wp (absorb_byte b) (fun _ c' => absorbed c' (msg ++ [b]) /\ bitcount c' = bitcount c) c.
Proof.
  intros (Hst & Hb & Hn & Hbuf). set (q := (length msg / 128)%nat) in *. set (r := (length msg mod 128)%nat) in *.
  assert (length msg = 128 * q + r /\ r < 128)%nat as [Hlen Hr].
  { split; [apply Nat.div_mod; lia|apply Nat.mod_upper_bound; lia]. }
  unfold absorb_byte. do 4 wp_step. apply wp_bind.
  rewrite Hn. eapply wp_lift; [apply aset_ok; lia|]. rewrite Nat2Z.id. do 4 wp_step.
  rewrite u32_small by lia.
  assert (take (S r) (<[r:=b]> (buffer c)) = drop (128 * q) (msg ++ [b])) as Hfill.
  { rewrite drop_app_le, <- Hbuf by lia. erewrite take_S_r; [|apply list_lookup_insert_eq; lia].
    by rewrite take_insert_ge by lia. }
  destruct (Z.eqb_spec (Z.of_nat r + 1) 128) as [E|E].
  - unfold sha512_transform. wp_steps. split; [|done].
    assert (r = 127%nat) as Er by lia.
    assert (length (msg ++ [b]) = 128 * S q + 0)%nat as El by (rewrite length_app; simpl; lia).
    assert (length (msg ++ [b]) / 128 = S q)%nat as Eq by (symmetry; apply Nat.div_unique with 0%nat; lia).
    assert (length (msg ++ [b]) mod 128 = 0)%nat as Em by (symmetry; apply Nat.mod_unique with (S q); lia).
    unfold absorbed. rewrite Eq, Em. split_and!; cbn [state buffer buflen put_state put_buffer put_buflen].
    + replace (S q) with (q + 1)%nat by lia. rewrite chain64_add, chain64_app, <- Hst by lia.
      cbn [chain64]. f_equal. rewrite <- Hfill, Er, take_take, take_ge; [done|]. rewrite length_insert. lia.
    + by rewrite length_insert.
    + done.
    + rewrite drop_ge; [done|lia].
  - wp_steps. split; [|done].
    assert (length (msg ++ [b]) = 128 * q + S r)%nat as El by (rewrite length_app; simpl; lia).
    assert (length (msg ++ [b]) / 128 = q)%nat as Eq by (symmetry; apply Nat.div_unique with (S r); lia).
    assert (length (msg ++ [b]) mod 128 = S r)%nat as Em by (symmetry; apply Nat.mod_unique with q; lia).
    unfold absorbed. rewrite Eq, Em. split_and!; cbn [state buffer buflen put_state put_buffer put_buflen].
    + by rewrite chain64_app by lia.
    + by rewrite length_insert.
    + lia.
    + done.
Qed.

#[local] Arguments absorb_byte : simpl never.

Lemma absorb_ok data : forall c msg,
  absorbed c msg ->
  wp (absorb data) (fun _ c' => absorbed c' (msg ++ data) /\ bitcount c' = bitcount c) c.
Proof.
  induction data as [|b data IH]; intros c msg H; cbn [absorb].
  - apply wp_ret. by rewrite app_nil_r.
  - apply wp_bind. eapply wp_mono; [by apply absorb_byte_ok|]. intros [] c1 [H1 E1].
    eapply wp_mono; [by apply IH|]. intros [] c2 [H2 E2]. by rewrite <- app_assoc, E1 in *.
Qed.

Lemma count_bits_ok n len bc :
  bc = (u64 (8 * n), 8 * n / 2 ^ 64) -> 0 <= n -> 0 <= len < 2 ^ 32 -> 8 * (n + len) < 2 ^ 128 ->
  count_bits len bc = (u64 (8 * (n + len)), 8 * (n + len) / 2 ^ 64).
Proof.
  intros -> Hn Hlen Hmax. unfold count_bits. cbn [fst snd]. rewrite Z.shiftl_mul_pow2, Z.shiftr_div_pow2 by lia.
  rewrite (Z.div_small len) by lia. rewrite (u64_small (len * 2 ^ 3)) by lia.
  assert (0 <= 8 * (n + len) / 2 ^ 64 < 2 ^ 64) by (Z.div_mod_to_equations; lia).
  unfold u64. f_equal.
  - rewrite Zplus_mod_idemp_l. f_equal. lia.
  - destruct (Z.ltb_spec ((((8 * n) mod 2 ^ 64) + len * 2 ^ 3) mod 2 ^ 64) ((8 * n) mod 2 ^ 64));
      Z.div_mod_to_equations; lia.
Qed.

Definition rep512 (c : sha512_ctx) (msg : list Z) : Prop :=
  bitcount c = (u64 (8 * Z.of_nat (length msg)), 8 * Z.of_nat (length msg) / 2 ^ 64) /\ absorbed c msg.

Lemma sha512_update_absorbed c msg data :
  absorbed c msg -> wp (sha512_update data) (fun _ c' => absorbed c' (msg ++ data)) c.
Proof.
  intros H. unfold sha512_update. do 4 wp_step. eapply wp_mono; [by apply (absorb_ok data _ msg)|].
  by intros [] c' [? _].
Qed.

Lemma sha512_update_ok c msg data :
  rep512 c msg -> Z.of_nat (length data) < 2 ^ 32 -> 8 * Z.of_nat (length (msg ++ data)) < 2 ^ 128 ->
  wp (sha512_update data) (fun _ c' => rep512 c' (msg ++ data)) c.
Proof.
  intros [Hc H] Hlen Hmax. unfold sha512_update. do 4 wp_step.
  eapply wp_mono; [by apply (absorb_ok data _ msg)|]. intros [] c' [H' E]. split; [|done].
  rewrite length_app, Nat2Z.inj_add in *. rewrite E. cbn [bitcount put_bitcount]. by apply count_bits_ok; [|lia..].
Qed.

(** * Padding *)

Lemma land_255 x s : 0 <= s -> Z.land (Z.shiftr x s) 255 = x / 2 ^ s mod 256.
Proof. intros Hs. change 255 with (Z.ones 8). by rewrite Z.land_ones, Z.shiftr_div_pow2 by lia. Qed.

Lemma be128_halves v : 0 <= v -> be_bytes64 (v / 2 ^ 64) ++ be_bytes64 (u64 v) = be128 v.
Proof.
  intros Hv. unfold be_bytes64, be128. cbn [map app]. rewrite !land_255 by lia.
  assert (forall s, 0 <= s -> v / 2 ^ 64 / 2 ^ s = v / 2 ^ (64 + s)) as Hhi.
  { intros s Hs. by rewrite Z.div_div, <- Z.pow_add_r by lia. }
  assert (forall s, 0 <= s <= 56 -> u64 v / 2 ^ s mod 256 = v / 2 ^ s mod 256) as Hlo.
  { intros s Hs. change 256 with (2 ^ 8). unfold u64. rewrite <- !Z.land_ones, <- !Z.shiftr_div_pow2 by lia.
    apply Z.bits_inj'. intros i Hi. rewrite !Z.land_spec, !Z.shiftr_spec, Z.land_spec, !Z.testbit_ones by lia.
    destruct (Z.ltb_spec i 8); [|by rewrite !andb_false_r].
    rewrite (proj2 (Z.ltb_lt (i + s) 64)), (proj2 (Z.leb_le 0 (i + s))) by lia. by rewrite andb_true_r. }
  rewrite !Hhi, !Hlo by lia. done.
Qed.

Lemma pad_zeros len r :
  (r = len mod 128)%nat ->
  (if Z.of_nat r <? 112 then u32 (112 - Z.of_nat r) else u32 (240 - Z.of_nat r))
  = 1 + (111 - Z.of_nat len) mod 128.
Proof.
  intros Hr. assert (r < 128)%nat by (subst; apply Nat.mod_upper_bound; lia).
  assert ((111 - Z.of_nat len) mod 128 = (111 - Z.of_nat r) mod 128) as ->.
  { subst r. rewrite Nat2Z.inj_mod. by rewrite Zminus_mod_idemp_r. }
  destruct (Z.ltb_spec (Z.of_nat r) 112); rewrite u32_small by lia.
  - rewrite Z.mod_small; lia.
  - rewrite Z.mod_eq by lia.
    replace ((111 - Z.of_nat r) / 128) with (-1) by (apply Z.div_unique with (239 - Z.of_nat r); lia). lia.
Qed.

#[local] Arguments be_bytes64 : simpl never.
#[local] Arguments app : simpl never.

Lemma sha512_final_ok c msg :
  rep512 c msg -> wp sha512_final (fun h _ => h = digest512 msg) c.
Proof.
  intros [Hc H]. pose proof H as (_ & _ & Hn & _). unfold sha512_final. do 4 wp_step. cbv zeta.
  rewrite Hc, Hn, (pad_zeros (length msg)) by done. cbn [fst snd]. rewrite be128_halves by lia.
  pose proof (Z.mod_pos_bound (111 - Z.of_nat (length msg)) 128 ltac:(lia)).
  rewrite (proj2 (Z.ltb_ge _ _)) by lia. do 2 wp_step. apply wp_bind.
  eapply wp_mono; [by apply sha512_update_absorbed|]. intros [] c1 H1. cbv beta in H1. apply wp_bind.
  eapply wp_mono; [by apply sha512_update_absorbed|]. intros [] c2 H2. cbv beta in H2. wp_steps.
  replace ((msg ++ _) ++ _) with (pad64 msg) in H2; [by rewrite (proj1 H2)|].
  unfold pad64, padding64. rewrite <- app_assoc. set (z := (111 - _) mod 128) in *.
  by replace (Z.to_nat (1 + z) - 1)%nat with (Z.to_nat z) by lia.
Qed.

#[local] Arguments app : simpl nomatch.

(** * Properties *)

(** A message fed in pieces. *)
Fixpoint updates512 (chunks : list (list Z)) : M sha512_ctx unit :=
  match chunks with
  | [] => ret tt
  | d :: ds => sha512_update d ;;; updates512 ds
  end.

Lemma updates512_ok chunks : forall c msg,
  rep512 c msg -> Forall (fun d => Z.of_nat (length d) < 2 ^ 32) chunks ->
  8 * Z.of_nat (length (msg ++ concat chunks)) < 2 ^ 128 ->
  wp (updates512 chunks) (fun _ c' => rep512 c' (msg ++ concat chunks)) c.
Proof.
  induction chunks as [|d ds IH]; intros c msg Hrep Hd Hmax; cbn [updates512 concat].
  - apply wp_ret. by rewrite app_nil_r.
  - apply Forall_cons in Hd as [Hd Hds]. cbn [concat] in Hmax. rewrite app_assoc in *.
    rewrite length_app in Hmax. apply wp_bind.
    eapply wp_mono; [apply sha512_update_ok; [done|done|lia]|]. intros [] c1 Hrep1. cbv beta in Hrep1.
    apply IH; [done|done|]. rewrite length_app. lia.
Qed.

Lemma init_rep c : wp sha512_init (fun _ c' => rep512 c' []) c.
Proof. unfold sha512_init. wp_steps. split; [done|]. by split_and!. Qed.

Lemma incremental512 c chunks :
  Forall (fun d => Z.of_nat (length d) < 2 ^ 32) chunks ->
  8 * Z.of_nat (length (concat chunks)) < 2 ^ 128 ->
  wp (sha512_init ;;; updates512 chunks ;;; sha512_final) (fun h _ => h = digest512 (concat chunks)) c.
Proof.
  intros Hd Hmax. apply wp_bind. eapply wp_mono; [apply init_rep|]. intros [] c1 H1. apply wp_bind.
  eapply wp_mono; [by apply (updates512_ok chunks _ [])|]. intros [] c2 H2. by apply sha512_final_ok.
Qed.

Lemma sha512_ok data : Z.of_nat (length data) < 2 ^ 32 -> sha512 data = Ok (digest512 data).
Proof.
  intros Hd. apply wp_value, wp_bind. eapply wp_mono; [apply init_rep|]. intros [] c1 H1. apply wp_bind.
  eapply wp_mono; [apply (sha512_update_ok _ [] data H1 Hd); cbn [app]; lia|]. intros [] c2 H2.
  by apply sha512_final_ok.
Qed.

Lemma round64_length v kw : length (round64 v kw) = length v.
Proof. by destruct v as [|? [|? [|? [|? [|? [|? [|? [|? [|? ?]]]]]]]]]. Qed.

Lemma compress64_length st data : length (compress64 st data) = length st.
Proof.
  unfold compress64. rewrite length_zip_with. assert (forall l v, length (foldl round64 v l) = length v) as H.
  { induction l as [|kw l IH]; intros v; [done|]. cbn [foldl]. by rewrite IH, round64_length. }
  rewrite H. lia.
Qed.

Lemma chain64_length n : forall st msg, length (chain64 n st msg) = length st.
Proof. induction n as [|n IH]; intros st msg; [done|]. cbn [chain64]. by rewrite IH, compress64_length. Qed.

Lemma digest512_length msg : length (digest512 msg) = 64%nat.
Proof.
  unfold digest512. set (st := chain64 _ _ _). assert (length st = 8%nat) as Hl by apply chain64_length.
  by do 9 (destruct st as [|? st]; [try discriminate Hl|]); [|discriminate Hl].
Qed.

(** SHA-512: initialising any context, feeding a message in pieces of any
    sizes a [size_t] can hold and finalising returns the FIPS 180-4 digest of the
    concatenation, up to the 2^128 bits the counter holds, with no access
    outside the block buffer. *)
Theorem sha512_incremental c chunks :
  Forall (fun d => Z.of_nat (length d) < 2 ^ 32) chunks ->
  8 * Z.of_nat (length (concat chunks)) < 2 ^ 128 ->
  wp (sha512_init ;;; updates512 chunks ;;; sha512_final) (fun h _ => h = digest512 (concat chunks)) c.
Proof. apply incremental512. Qed.

Lemma sha512_incremental_witness :
  wp (sha512_init ;;; updates512 [[0x61]; []; [0x62; 0x63]] ;;; sha512_final)
     (fun h _ => h = digest512 [0x61; 0x62; 0x63]) blank_ctx.
Proof.
  apply (sha512_incremental blank_ctx [[0x61]; []; [0x62; 0x63]]); [|simpl; lia].
  repeat constructor; simpl; lia.
Defined.

End Sha512.
