(* ===== verification/Aes.v ===== *)
(** AES-256 (src/crypto.c, lines 30-382): key schedule, the round
    transformations on the 16-byte state, the block functions and the CBC and CTR
    modes, on bytes as integers in 0..255.

    [aes_xtime] is a macro whose argument is not parenthesised: [aes_xtime] below
    is its expansion on a single operand, [aes_xtime_xor] its expansion on an
    argument of the form [a ^ b]. *)
From Stdlib Require Import ZArith Lia List Bool Btauto.
From stdpp Require Import base tactics numbers list.
From S2P Require Import Prelude.
Open Scope Z_scope.

Module Aes.

Definition AES_BLOCK_SIZE : nat := 16.
Definition AES_ROUNDS : nat := 14.

Definition aes_sbox : list Z :=
  [0x63; 0x7c; 0x77; 0x7b; 0xf2; 0x6b; 0x6f; 0xc5; 0x30; 0x01; 0x67; 0x2b; 0xfe; 0xd7; 0xab; 0x76;
   0xca; 0x82; 0xc9; 0x7d; 0xfa; 0x59; 0x47; 0xf0; 0xad; 0xd4; 0xa2; 0xaf; 0x9c; 0xa4; 0x72; 0xc0;
   0xb7; 0xfd; 0x93; 0x26; 0x36; 0x3f; 0xf7; 0xcc; 0x34; 0xa5; 0xe5; 0xf1; 0x71; 0xd8; 0x31; 0x15;
   0x04; 0xc7; 0x23; 0xc3; 0x18; 0x96; 0x05; 0x9a; 0x07; 0x12; 0x80; 0xe2; 0xeb; 0x27; 0xb2; 0x75;
   0x09; 0x83; 0x2c; 0x1a; 0x1b; 0x6e; 0x5a; 0xa0; 0x52; 0x3b; 0xd6; 0xb3; 0x29; 0xe3; 0x2f; 0x84;
   0x53; 0xd1; 0x00; 0xed; 0x20; 0xfc; 0xb1; 0x5b; 0x6a; 0xcb; 0xbe; 0x39; 0x4a; 0x4c; 0x58; 0xcf;
   0xd0; 0xef; 0xaa; 0xfb; 0x43; 0x4d; 0x33; 0x85; 0x45; 0xf9; 0x02; 0x7f; 0x50; 0x3c; 0x9f; 0xa8;
   0x51; 0xa3; 0x40; 0x8f; 0x92; 0x9d; 0x38; 0xf5; 0xbc; 0xb6; 0xda; 0x21; 0x10; 0xff; 0xf3; 0xd2;
   0xcd; 0x0c; 0x13; 0xec; 0x5f; 0x97; 0x44; 0x17; 0xc4; 0xa7; 0x7e; 0x3d; 0x64; 0x5d; 0x19; 0x73;
   0x60; 0x81; 0x4f; 0xdc; 0x22; 0x2a; 0x90; 0x88; 0x46; 0xee; 0xb8; 0x14; 0xde; 0x5e; 0x0b; 0xdb;
   0xe0; 0x32; 0x3a; 0x0a; 0x49; 0x06; 0x24; 0x5c; 0xc2; 0xd3; 0xac; 0x62; 0x91; 0x95; 0xe4; 0x79;
   0xe7; 0xc8; 0x37; 0x6d; 0x8d; 0xd5; 0x4e; 0xa9; 0x6c; 0x56; 0xf4; 0xea; 0x65; 0x7a; 0xae; 0x08;
   0xba; 0x78; 0x25; 0x2e; 0x1c; 0xa6; 0xb4; 0xc6; 0xe8; 0xdd; 0x74; 0x1f; 0x4b; 0xbd; 0x8b; 0x8a;
   0x70; 0x3e; 0xb5; 0x66; 0x48; 0x03; 0xf6; 0x0e; 0x61; 0x35; 0x57; 0xb9; 0x86; 0xc1; 0x1d; 0x9e;
   0xe1; 0xf8; 0x98; 0x11; 0x69; 0xd9; 0x8e; 0x94; 0x9b; 0x1e; 0x87; 0xe9; 0xce; 0x55; 0x28; 0xdf;
   0x8c; 0xa1; 0x89; 0x0d; 0xbf; 0xe6; 0x42; 0x68; 0x41; 0x99; 0x2d; 0x0f; 0xb0; 0x54; 0xbb; 0x16].

Definition aes_inv_sbox : list Z :=
  [0x52; 0x09; 0x6a; 0xd5; 0x30; 0x36; 0xa5; 0x38; 0xbf; 0x40; 0xa3; 0x9e; 0x81; 0xf3; 0xd7; 0xfb;
   0x7c; 0xe3; 0x39; 0x82; 0x9b; 0x2f; 0xff; 0x87; 0x34; 0x8e; 0x43; 0x44; 0xc4; 0xde; 0xe9; 0xcb;
   0x54; 0x7b; 0x94; 0x32; 0xa6; 0xc2; 0x23; 0x3d; 0xee; 0x4c; 0x95; 0x0b; 0x42; 0xfa; 0xc3; 0x4e;
   0x08; 0x2e; 0xa1; 0x66; 0x28; 0xd9; 0x24; 0xb2; 0x76; 0x5b; 0xa2; 0x49; 0x6d; 0x8b; 0xd1; 0x25;
   0x72; 0xf8; 0xf6; 0x64; 0x86; 0x68; 0x98; 0x16; 0xd4; 0xa4; 0x5c; 0xcc; 0x5d; 0x65; 0xb6; 0x92;
   0x6c; 0x70; 0x48; 0x50; 0xfd; 0xed; 0xb9; 0xda; 0x5e; 0x15; 0x46; 0x57; 0xa7; 0x8d; 0x9d; 0x84;
   0x90; 0xd8; 0xab; 0x00; 0x8c; 0xbc; 0xd3; 0x0a; 0xf7; 0xe4; 0x58; 0x05; 0xb8; 0xb3; 0x45; 0x06;
   0xd0; 0x2c; 0x1e; 0x8f; 0xca; 0x3f; 0x0f; 0x02; 0xc1; 0xaf; 0xbd; 0x03; 0x01; 0x13; 0x8a; 0x6b;
   0x3a; 0x91; 0x11; 0x41; 0x4f; 0x67; 0xdc; 0xea; 0x97; 0xf2; 0xcf; 0xce; 0xf0; 0xb4; 0xe6; 0x73;
   0x96; 0xac; 0x74; 0x22; 0xe7; 0xad; 0x35; 0x85; 0xe2; 0xf9; 0x37; 0xe8; 0x1c; 0x75; 0xdf; 0x6e;
   0x47; 0xf1; 0x1a; 0x71; 0x1d; 0x29; 0xc5; 0x89; 0x6f; 0xb7; 0x62; 0x0e; 0xaa; 0x18; 0xbe; 0x1b;
   0xfc; 0x56; 0x3e; 0x4b; 0xc6; 0xd2; 0x79; 0x20; 0x9a; 0xdb; 0xc0; 0xfe; 0x78; 0xcd; 0x5a; 0xf4;
   0x1f; 0xdd; 0xa8; 0x33; 0x88; 0x07; 0xc7; 0x31; 0xb1; 0x12; 0x10; 0x59; 0x27; 0x80; 0xec; 0x5f;
   0x60; 0x51; 0x7f; 0xa9; 0x19; 0xb5; 0x4a; 0x0d; 0x2d; 0xe5; 0x7a; 0x9f; 0x93; 0xc9; 0x9c; 0xef;
   0xa0; 0xe0; 0x3b; 0x4d; 0xae; 0x2a; 0xf5; 0xb0; 0xc8; 0xeb; 0xbb; 0x3c; 0x83; 0x53; 0x99; 0x61;
   0x17; 0x2b; 0x04; 0x7e; 0xba; 0x77; 0xd6; 0x26; 0xe1; 0x69; 0x14; 0x63; 0x55; 0x21; 0x0c; 0x7d].

Definition aes_rcon : list Z := [0x00; 0x01; 0x02; 0x04; 0x08; 0x10; 0x20; 0x40; 0x80; 0x1b; 0x36].

(** [((x << 1) ^ (((x >> 7) & 1) * 0x1b))] *)
Definition aes_xtime (x : Z) : Z := Z.lxor (Z.shiftl x 1) (Z.land (Z.shiftr x 7) 1 * 0x1b).

(** [((a ^ b << 1) ^ (((a ^ b >> 7) & 1) * 0x1b))]: the shifts bind tighter than [^]. *)
Definition aes_xtime_xor (a b : Z) : Z :=
  Z.lxor (Z.lxor a (Z.shiftl b 1)) (Z.land (Z.lxor a (Z.shiftr b 7)) 1 * 0x1b).

Definition sbox (x : Z) : Z := aes_sbox !!! Z.to_nat x.
Definition inv_sbox (x : Z) : Z := aes_inv_sbox !!! Z.to_nat x.

(** [(w >> s) & 0xff] *)
Definition byte_of (w s : Z) : Z := Z.land (Z.shiftr w s) 0xff.
Definition word_of (b0 b1 b2 b3 : Z) : Z :=
  Z.lor (Z.lor (Z.lor (Z.shiftl b0 24) (Z.shiftl b1 16)) (Z.shiftl b2 8)) b3.

(** * Key schedule *)

Fixpoint key_words (key : list Z) : list Z :=
  match key with
  | b0 :: b1 :: b2 :: b3 :: key' => word_of b0 b1 b2 b3 :: key_words key'
  | _ => []
  end.

(** [temp] of the expansion step [i]. *)
Definition key_temp (i : nat) (temp : Z) : Z :=
  if (i mod 8 =? 0)%nat then
    Z.lxor (word_of (sbox (byte_of temp 16)) (sbox (byte_of temp 8)) (sbox (byte_of temp 0)) (sbox (byte_of temp 24)))
           (Z.shiftl (aes_rcon !!! (i / 8)%nat) 24)
  else if (i mod 8 =? 4)%nat then
    word_of (sbox (byte_of temp 24)) (sbox (byte_of temp 16)) (sbox (byte_of temp 8)) (sbox (byte_of temp 0))
  else temp.

(** [n] further words behind [rk]. *)
Fixpoint expand (n : nat) (rk : list Z) : list Z :=
  match n with
  | O => rk
  | S n' =>
      let i := length rk in
      expand n' (rk ++ [Z.lxor (rk !!! (i - 8)%nat) (key_temp i (rk !!! (i - 1)%nat))])
  end.

Definition aes_key_expansion (key : list Z) : list Z :=
  expand (4 * (AES_ROUNDS + 1) - 8) (key_words (take 32 key)).

(** * Round transformations *)

Definition aes_sub_bytes (state : list Z) : list Z := map sbox state.
Definition aes_inv_sub_bytes (state : list Z) : list Z := map inv_sbox state.

Definition aes_shift_rows (state : list Z) : list Z :=
  match state with
  | [s0; s1; s2; s3; s4; s5; s6; s7; s8; s9; s10; s11; s12; s13; s14; s15] =>
      [s0; s5; s10; s15; s4; s9; s14; s3; s8; s13; s2; s7; s12; s1; s6; s11]
  | _ => state
  end.

Definition aes_inv_shift_rows (state : list Z) : list Z :=
  match state with
  | [s0; s1; s2; s3; s4; s5; s6; s7; s8; s9; s10; s11; s12; s13; s14; s15] =>
      [s0; s13; s10; s7; s4; s1; s14; s11; s8; s5; s2; s15; s12; s9; s6; s3]
  | _ => state
  end.

Definition lxor3 (a b c : Z) : Z := Z.lxor (Z.lxor a b) c.
Definition lxor4 (a b c d : Z) : Z := Z.lxor (lxor3 a b c) d.
Definition lxor5 (a b c d e : Z) : Z := Z.lxor (lxor4 a b c d) e.

(** The body of the column loop. *)
Definition mix_column (t0 t1 t2 t3 : Z) : list Z :=
  [u8 (lxor4 (aes_xtime t0) (Z.lxor (aes_xtime t1) t1) t2 t3);
   u8 (lxor4 t0 (aes_xtime t1) (Z.lxor (aes_xtime t2) t2) t3);
   u8 (lxor4 t0 t1 (aes_xtime t2) (Z.lxor (aes_xtime t3) t3));
   u8 (lxor4 (Z.lxor (aes_xtime t0) t0) t1 t2 (aes_xtime t3))].

Definition inv_mix_column (t0 t1 t2 t3 : Z) : list Z :=
  let x2 := u8 (lxor4 (aes_xtime t0) (aes_xtime t1) (aes_xtime t2) (aes_xtime t3)) in
  let x4 := u8 (aes_xtime x2) in
  let x8 := u8 (aes_xtime x4) in
  [u8 (lxor5 t0 x2 x4 x8 (aes_xtime_xor t0 t2));
   u8 (lxor5 t1 x2 x4 x8 (aes_xtime_xor t1 t3));
   u8 (lxor5 t2 x2 x4 x8 (aes_xtime_xor t0 t2));
   u8 (lxor5 t3 x2 x4 x8 (aes_xtime_xor t1 t3))].

Fixpoint columns (f : Z -> Z -> Z -> Z -> list Z) (state : list Z) : list Z :=
  match state with
  | t0 :: t1 :: t2 :: t3 :: rest => f t0 t1 t2 t3 ++ columns f rest
  | _ => []
  end.

Definition aes_mix_columns (state : list Z) : list Z := columns mix_column state.
Definition aes_inv_mix_columns (state : list Z) : list Z := columns inv_mix_column state.

Definition key_bytes (w : Z) : list Z := [byte_of w 24; byte_of w 16; byte_of w 8; byte_of w 0].

(** The round key is the four words from [round_key] on. *)
Definition aes_add_round_key (state : list Z) (round_key : list Z) : list Z :=
  zip_with Z.lxor state (concat (map key_bytes (take 4 round_key))).

(** * Blocks *)

Record aes_ctx := mk_aes { round_keys : list Z; iv : list Z; num_rounds : nat }.

(** [aes_init] on the context [ctx]; the vector is left alone without [iv]. *)
Definition aes_init (ctx : aes_ctx) (key : list Z) (iv0 : option (list Z)) : aes_ctx :=
  mk_aes (aes_key_expansion key)
         (match iv0 with Some v => take AES_BLOCK_SIZE v | None => iv ctx end) AES_ROUNDS.

Definition round_key (ctx : aes_ctx) (round : nat) : list Z := drop (round * 4) (round_keys ctx).

Definition enc_round (ctx : aes_ctx) (state : list Z) (round : nat) : list Z :=
  aes_add_round_key (aes_mix_columns (aes_shift_rows (aes_sub_bytes state))) (round_key ctx round).

Definition aes_encrypt_block (ctx : aes_ctx) (plaintext : list Z) : list Z :=
  let state := aes_add_round_key (take 16 plaintext) (round_keys ctx) in
  let state := foldl (enc_round ctx) state (seq 1 (num_rounds ctx - 1)) in
  aes_add_round_key (aes_shift_rows (aes_sub_bytes state)) (round_key ctx (num_rounds ctx)).

Definition dec_round (ctx : aes_ctx) (state : list Z) (round : nat) : list Z :=
  aes_inv_mix_columns (aes_add_round_key (aes_inv_sub_bytes (aes_inv_shift_rows state)) (round_key ctx round)).

Definition aes_decrypt_block (ctx : aes_ctx) (ciphertext : list Z) : list Z :=
  let state := aes_add_round_key (take 16 ciphertext) (round_key ctx (num_rounds ctx)) in
  let state := foldl (dec_round ctx) state (rev (seq 1 (num_rounds ctx - 1))) in
  aes_add_round_key (aes_inv_sub_bytes (aes_inv_shift_rows state)) (round_keys ctx).

(** * Modes *)

(** The CBC loop over [n] blocks. *)
Fixpoint cbc_enc (ctx : aes_ctx) (n : nat) (iv plaintext : list Z) : list Z :=
  match n with
  | O => []
  | S n' =>
      let c := aes_encrypt_block ctx (zip_with Z.lxor (take AES_BLOCK_SIZE plaintext) iv) in
      c ++ cbc_enc ctx n' c (drop AES_BLOCK_SIZE plaintext)
  end.

(** What is written to the output; nothing on a length that is not a positive
    multiple of the block size. *)
Definition aes_cbc_encrypt (ctx : aes_ctx) (plaintext : list Z) : option (list Z) :=
  let len := length plaintext in
  if (len =? 0)%nat || negb (len mod AES_BLOCK_SIZE =? 0)%nat then None
  else Some (cbc_enc ctx (len / AES_BLOCK_SIZE) (iv ctx) plaintext).

Fixpoint cbc_dec (ctx : aes_ctx) (n : nat) (iv ciphertext : list Z) : list Z :=
  match n with
  | O => []
  | S n' =>
      let next_iv := take AES_BLOCK_SIZE ciphertext in
      zip_with Z.lxor (aes_decrypt_block ctx next_iv) iv ++
      cbc_dec ctx n' next_iv (drop AES_BLOCK_SIZE ciphertext)
  end.

Definition aes_cbc_decrypt (ctx : aes_ctx) (ciphertext : list Z) : option (list Z) :=
  let len := length ciphertext in
  if (len =? 0)%nat || negb (len mod AES_BLOCK_SIZE =? 0)%nat then None
  else Some (cbc_dec ctx (len / AES_BLOCK_SIZE) (iv ctx) ciphertext).

(** [for (j = 15; j >= 0; j--) if (++counter[j] != 0) break], on the reversed bytes. *)
Fixpoint increment (rcounter : list Z) : list Z :=
  match rcounter with
  | [] => []
  | b :: rest => let b' := u8 (b + 1) in if b' =? 0 then b' :: increment rest else b' :: rest
  end.

Definition next_counter (counter : list Z) : list Z := rev (increment (rev counter)).

(** The CTR loop, with fuel for its number of turns. *)
Fixpoint ctr (ctx : aes_ctx) (fuel : nat) (counter plaintext : list Z) : list Z :=
  match fuel, plaintext with
  | _, [] => []
  | O, _ => []
  | S fuel', _ =>
      zip_with Z.lxor (take AES_BLOCK_SIZE plaintext) (aes_encrypt_block ctx counter) ++
      ctr ctx fuel' (next_counter counter) (drop AES_BLOCK_SIZE plaintext)
  end.

Definition aes_ctr_encrypt (ctx : aes_ctx) (plaintext : list Z) : list Z :=
  ctr ctx (length plaintext) (iv ctx) plaintext.

(** * Bytes *)

Definition is_byte (x : Z) : Prop := 0 <= x < 256.
Notation bytes := (Forall is_byte).

Lemma u8_lxor a b : u8 (Z.lxor a b) = Z.lxor (u8 a) (u8 b).
Proof.
  unfold u8. apply Z.bits_inj'. intros n Hn. rewrite Z.lxor_spec, !Z.testbit_mod_pow2, Z.lxor_spec by lia.
  by destruct (n <? 8).
Qed.

Lemma byte_u8 x : is_byte (u8 x).
Proof. apply u8_range. Qed.

Lemma byte_lxor a b : is_byte a -> is_byte b -> is_byte (Z.lxor a b).
Proof. intros Ha Hb. rewrite <- (u8_small a Ha), <- (u8_small b Hb), <- u8_lxor. apply byte_u8. Qed.

Lemma byte_byte_of w s : is_byte (byte_of w s).
Proof. unfold byte_of. change 255 with (Z.ones 8). rewrite Z.land_ones by lia. apply byte_u8. Qed.

(** Facts about one byte, by inspection of the 256 values. *)
Lemma byte_cases (P : Z -> bool) :
  forallb P (map Z.of_nat (seq 0 256)) = true -> forall x, is_byte x -> P x = true.
Proof.
  intros H x Hx. rewrite forallb_forall in H. apply H, in_map_iff. exists (Z.to_nat x).
  split; [unfold is_byte in Hx; lia|]. apply in_seq. unfold is_byte in Hx. lia.
Qed.

Lemma sbox_byte x : is_byte x -> is_byte (sbox x).
Proof.
  intros Hx. pose proof (byte_cases (fun x => (0 <=? sbox x) && (sbox x <? 256)) eq_refl x Hx) as H.
  apply andb_prop in H as [?%Z.leb_le ?%Z.ltb_lt]. by split.
Qed.

Lemma inv_sbox_sbox x : is_byte x -> inv_sbox (sbox x) = x.
Proof. intros Hx. by apply Z.eqb_eq, (byte_cases (fun x => inv_sbox (sbox x) =? x) eq_refl). Qed.

(** Multiplication by [x] in GF(2^8). *)
Definition mulx (x : Z) : Z := u8 (aes_xtime x).

Lemma mulx_lxor a b : mulx (Z.lxor a b) = Z.lxor (mulx a) (mulx b).
Proof.
  unfold mulx, aes_xtime. rewrite Z.shiftl_lxor, Z.shiftr_lxor.
  change 1 with (Z.ones 1). rewrite !Z.land_ones by lia. change (2 ^ 1) with 2.
  rewrite !u8_lxor. set (A := Z.shiftr a 7). set (B := Z.shiftr b 7).
  assert (Z.lxor A B mod 2 = Z.lxor (A mod 2) (B mod 2)) as ->.
  { rewrite !Zmod_odd, <- !Z.bit0_odd, Z.lxor_spec. by destruct (Z.testbit A 0), (Z.testbit B 0). }
  pose proof (Z.mod_pos_bound A 2 ltac:(lia)). pose proof (Z.mod_pos_bound B 2 ltac:(lia)).
  assert (u8 (Z.lxor (A mod 2) (B mod 2) * 27) = Z.lxor (u8 (A mod 2 * 27)) (u8 (B mod 2 * 27))) as ->.
  { assert (A mod 2 = 0 \/ A mod 2 = 1) as [-> | ->] by lia; assert (B mod 2 = 0 \/ B mod 2 = 1) as [-> | ->] by lia; done. }
  apply Z.bits_inj'. intros n Hn. rewrite !Z.lxor_spec. btauto.
Qed.

(** * The inverse cipher of FIPS 197 *)

Definition mul9 (x : Z) : Z := Z.lxor (mulx (mulx (mulx x))) x.
Definition mulb (x : Z) : Z := lxor3 (mulx (mulx (mulx x))) (mulx x) x.
Definition muld (x : Z) : Z := lxor3 (mulx (mulx (mulx x))) (mulx (mulx x)) x.
Definition mule (x : Z) : Z := lxor3 (mulx (mulx (mulx x))) (mulx (mulx x)) (mulx x).

Definition fips_inv_mix_column (t0 t1 t2 t3 : Z) : list Z :=
  [lxor4 (mule t0) (mulb t1) (muld t2) (mul9 t3); lxor4 (mul9 t0) (mule t1) (mulb t2) (muld t3);
   lxor4 (muld t0) (mul9 t1) (mule t2) (mulb t3); lxor4 (mulb t0) (muld t1) (mul9 t2) (mule t3)].

Definition fips_dec_round (ctx : aes_ctx) (state : list Z) (round : nat) : list Z :=
  columns fips_inv_mix_column
    (aes_add_round_key (aes_inv_sub_bytes (aes_inv_shift_rows state)) (round_key ctx round)).

Definition fips_decrypt_block (ctx : aes_ctx) (ciphertext : list Z) : list Z :=
  let state := aes_add_round_key (take 16 ciphertext) (round_key ctx (num_rounds ctx)) in
  let state := foldl (fips_dec_round ctx) state (rev (seq 1 (num_rounds ctx - 1))) in
  aes_add_round_key (aes_inv_sub_bytes (aes_inv_shift_rows state)) (round_keys ctx).

Ltac xor_bits := apply Z.bits_inj'; intros ? _; rewrite ?Z.lxor_spec; btauto.

Lemma mix_column_mulx t0 t1 t2 t3 :
  is_byte t0 -> is_byte t1 -> is_byte t2 -> is_byte t3 ->
  mix_column t0 t1 t2 t3 =
  [lxor4 (mulx t0) (Z.lxor (mulx t1) t1) t2 t3; lxor4 t0 (mulx t1) (Z.lxor (mulx t2) t2) t3;
   lxor4 t0 t1 (mulx t2) (Z.lxor (mulx t3) t3); lxor4 (Z.lxor (mulx t0) t0) t1 t2 (mulx t3)].
Proof.
  intros H0 H1 H2 H3. unfold mix_column, lxor4, lxor3, mulx. rewrite !u8_lxor.
  by rewrite !(u8_small t0), !(u8_small t1), !(u8_small t2), !(u8_small t3).
Qed.

Lemma mix_column_inverse t0 t1 t2 t3 u0 u1 u2 u3 :
  is_byte t0 -> is_byte t1 -> is_byte t2 -> is_byte t3 ->
  mix_column t0 t1 t2 t3 = [u0; u1; u2; u3] -> fips_inv_mix_column u0 u1 u2 u3 = [t0; t1; t2; t3].
Proof.
  intros H0 H1 H2 H3. rewrite mix_column_mulx by done. intros [= <- <- <- <-].
  unfold fips_inv_mix_column, mul9, mulb, muld, mule, lxor4, lxor3. rewrite !mulx_lxor.
  repeat apply f_equal2; try done; xor_bits.
Qed.

Lemma mix_column_shape t0 t1 t2 t3 :
  exists u0 u1 u2 u3, mix_column t0 t1 t2 t3 = [u0; u1; u2; u3] /\ bytes [u0; u1; u2; u3].
Proof. do 4 eexists. split; [reflexivity|]. repeat constructor; apply byte_u8. Qed.

(** * States *)

Definition state_ok (st : list Z) : Prop := length st = 16%nat /\ bytes st.

Lemma state_cases st : state_ok st ->
  exists s0 s1 s2 s3 s4 s5 s6 s7 s8 s9 s10 s11 s12 s13 s14 s15,
    st = [s0; s1; s2; s3; s4; s5; s6; s7; s8; s9; s10; s11; s12; s13; s14; s15].
Proof.
  intros [Hl _]. do 16 (destruct st as [|? st]; [discriminate|]). destruct st; [|discriminate]. by do 16 eexists.
Qed.

Lemma sub_bytes_ok st :
  state_ok st -> state_ok (aes_sub_bytes st) /\ aes_inv_sub_bytes (aes_sub_bytes st) = st.
Proof.
  intros [Hl Hb]. unfold state_ok, aes_sub_bytes, aes_inv_sub_bytes. rewrite length_map, map_map. split_and!.
  - done.
  - apply Forall_map. eapply Forall_impl; [done|]. apply sbox_byte.
  - clear Hl. induction Hb as [|x st Hx Hst IH]; [done|]. cbn [map]. by rewrite inv_sbox_sbox, IH.
Qed.

Lemma shift_rows_ok st :
  state_ok st -> state_ok (aes_shift_rows st) /\ aes_inv_shift_rows (aes_shift_rows st) = st.
Proof.
  intros H. destruct (state_cases st H) as
    (s0 & s1 & s2 & s3 & s4 & s5 & s6 & s7 & s8 & s9 & s10 & s11 & s12 & s13 & s14 & s15 & ->).
  destruct H as [_ H]. split; [|done]. split; [done|]. cbn [aes_shift_rows].
  rewrite !Forall_cons in *. tauto.
Qed.

Lemma columns_inverse f g st :
  (forall t0 t1 t2 t3, bytes [t0; t1; t2; t3] ->
     exists u0 u1 u2 u3, f t0 t1 t2 t3 = [u0; u1; u2; u3] /\ bytes [u0; u1; u2; u3] /\
                         g u0 u1 u2 u3 = [t0; t1; t2; t3]) ->
  state_ok st -> state_ok (columns f st) /\ columns g (columns f st) = st.
Proof.
  intros Hf H. destruct (state_cases st H) as
    (s0 & s1 & s2 & s3 & s4 & s5 & s6 & s7 & s8 & s9 & s10 & s11 & s12 & s13 & s14 & s15 & ->).
  destruct H as [_ H]. rewrite !Forall_cons in H.
  destruct (Hf s0 s1 s2 s3) as (a0 & a1 & a2 & a3 & Ea & Ha & Ga); [rewrite !Forall_cons; tauto|].
  destruct (Hf s4 s5 s6 s7) as (b0 & b1 & b2 & b3 & Eb & Hb & Gb); [rewrite !Forall_cons; tauto|].
  destruct (Hf s8 s9 s10 s11) as (c0 & c1 & c2 & c3 & Ec & Hc & Gc); [rewrite !Forall_cons; tauto|].
  destruct (Hf s12 s13 s14 s15) as (d0 & d1 & d2 & d3 & Ed & Hd & Gd); [rewrite !Forall_cons; tauto|].
  cbn [columns]. rewrite Ea, Eb, Ec, Ed. cbn [app columns]. rewrite Ga, Gb, Gc, Gd. split; [|done].
  split; [done|]. rewrite !Forall_cons in *. tauto.
Qed.

Lemma mix_columns_ok st :
  state_ok st -> state_ok (aes_mix_columns st) /\ columns fips_inv_mix_column (aes_mix_columns st) = st.
Proof.
  apply columns_inverse. intros t0 t1 t2 t3 H. rewrite !Forall_cons in H. destruct H as (? & ? & ? & ? & _).
  destruct (mix_column_shape t0 t1 t2 t3) as (u0 & u1 & u2 & u3 & E & Hu). exists u0, u1, u2, u3.
  split_and!; [done|done|]. by apply mix_column_inverse.
Qed.

Lemma key_bytes_ok w : length (key_bytes w) = 4%nat /\ bytes (key_bytes w).
Proof. split; [done|]. repeat constructor; apply byte_byte_of. Qed.

Lemma round_bytes_ok rk :
  (4 <= length rk)%nat -> state_ok (concat (map key_bytes (take 4 rk))).
Proof.
  intros Hl. destruct rk as [|w0 [|w1 [|w2 [|w3 rk]]]]; simpl in Hl; try lia.
  cbn [take map concat]. split; [done|]. rewrite !Forall_app. split_and!; (apply key_bytes_ok || constructor).
Qed.

Lemma zip_lxor_inverse a b : (length a <= length b)%nat -> zip_with Z.lxor (zip_with Z.lxor a b) b = a.
Proof.
  revert b. induction a as [|x a IH]; intros [|y b] Hl; simpl in *; try done; try lia.
  f_equal; [|apply IH; lia]. by rewrite Z.lxor_assoc, Z.lxor_nilpotent, Z.lxor_0_r.
Qed.

Lemma zip_lxor_bytes a b : bytes a -> bytes b -> bytes (zip_with Z.lxor a b).
Proof.
  intros Ha. revert b. induction Ha as [|x a Hx Ha IH]; intros b Hb; [done|].
  destruct Hb as [|y b Hy Hb]; [done|]. cbn [zip_with]. constructor; [by apply byte_lxor|by apply IH].
Qed.

Lemma add_round_key_ok st rk :
  state_ok st -> (4 <= length rk)%nat ->
  state_ok (aes_add_round_key st rk) /\ aes_add_round_key (aes_add_round_key st rk) rk = st.
Proof.
  intros [Hl Hb] Hrk. destruct (round_bytes_ok rk Hrk) as [Hl' Hb']. unfold aes_add_round_key. split; [split|].
  - rewrite length_zip_with. lia.
  - by apply zip_lxor_bytes.
  - apply zip_lxor_inverse. lia.
Qed.

(** A context as [aes_init] leaves it. *)
Definition ctx_ok (ctx : aes_ctx) : Prop :=
  (1 <= num_rounds ctx)%nat /\ length (round_keys ctx) = (4 * (num_rounds ctx + 1))%nat.

Lemma round_key_length ctx r : ctx_ok ctx -> (r <= num_rounds ctx)%nat -> (4 <= length (round_key ctx r))%nat.
Proof. intros [_ H] Hr. unfold round_key. rewrite length_drop, H. lia. Qed.

Lemma enc_round_ok ctx st r :
  ctx_ok ctx -> (r <= num_rounds ctx)%nat -> state_ok st ->
  state_ok (enc_round ctx st r) /\
  fips_dec_round ctx (aes_shift_rows (aes_sub_bytes (enc_round ctx st r))) r = aes_shift_rows (aes_sub_bytes st).
Proof.
  intros Hc Hr Hst. unfold enc_round. pose proof (round_key_length ctx r Hc Hr) as Hk.
  destruct (sub_bytes_ok st Hst) as [H1 E1]. destruct (shift_rows_ok _ H1) as [H2 E2].
  destruct (mix_columns_ok _ H2) as [H3 E3]. destruct (add_round_key_ok _ _ H3 Hk) as [H4 E4].
  destruct (sub_bytes_ok _ H4) as [H5 E5]. destruct (shift_rows_ok _ H5) as [H6 E6].
  split; [done|]. unfold fips_dec_round. by rewrite E6, E5, E4, E3.
Qed.

(** The rounds, from the state before the last substitution back. *)
Lemma rounds_inverse ctx st n :
  ctx_ok ctx -> (n < num_rounds ctx)%nat -> state_ok st ->
  let st' := foldl (enc_round ctx) st (seq 1 n) in
  state_ok st' /\
  aes_inv_sub_bytes (aes_inv_shift_rows
    (foldl (fips_dec_round ctx) (aes_shift_rows (aes_sub_bytes st')) (rev (seq 1 n)))) = st.
Proof.
  intros Hc Hn Hst. induction n as [|n IH]; cbn zeta.
  - cbn [seq rev foldl]. destruct (sub_bytes_ok st Hst) as [H1 E1]. destruct (shift_rows_ok _ H1) as [H2 E2].
    by rewrite E2, E1.
  - destruct IH as [IH1 IH2]; [lia|]. rewrite seq_S, foldl_app, rev_app_distr. cbn [foldl rev app].
    set (s := foldl (enc_round ctx) st (seq 1 n)) in *.
    destruct (enc_round_ok ctx s (1 + n) Hc ltac:(lia) IH1) as [H1 E1]. split; [done|].
    by rewrite E1.
Qed.

Lemma encrypt_block_ok ctx p :
  ctx_ok ctx -> state_ok p ->
  state_ok (aes_encrypt_block ctx p) /\ fips_decrypt_block ctx (aes_encrypt_block ctx p) = p.
Proof.
  intros Hc Hp. pose proof Hc as [Hn Hrk]. unfold aes_encrypt_block, fips_decrypt_block. cbn zeta.
  rewrite (take_ge p) by (destruct Hp; lia).
  destruct (add_round_key_ok p (round_keys ctx) Hp ltac:(lia)) as [H0 E0].
  destruct (rounds_inverse ctx _ (num_rounds ctx - 1) Hc ltac:(lia) H0) as [H1 E1].
  set (st := foldl (enc_round ctx) _ _) in *.
  destruct (sub_bytes_ok st H1) as [H2 _]. destruct (shift_rows_ok _ H2) as [H3 _].
  destruct (add_round_key_ok _ _ H3 (round_key_length ctx (num_rounds ctx) Hc ltac:(lia))) as [H4 E4].
  split; [done|]. rewrite take_ge by (destruct H4; lia). by rewrite E4, E1, E0.
Qed.

Lemma expand_length n : forall rk, length (expand n rk) = (length rk + n)%nat.
Proof.
  induction n as [|n IH]; intros rk; cbn [expand]; [lia|]. rewrite IH, length_app. simpl. lia.
Qed.

Lemma key_words_length n : forall key, length key = (4 * n)%nat -> length (key_words key) = n.
Proof.
  induction n as [|n IH]; intros key Hl; [by destruct key|].
  destruct key as [|b0 [|b1 [|b2 [|b3 key]]]]; simpl in Hl; try lia. cbn [key_words length].
  rewrite IH; lia.
Qed.

Lemma aes_init_ok ctx key iv0 : length key = 32%nat -> ctx_ok (aes_init ctx key iv0).
Proof.
  intros Hk. split; [unfold aes_init, AES_ROUNDS; simpl; lia|]. cbn [aes_init round_keys num_rounds].
  unfold aes_key_expansion. rewrite expand_length, (key_words_length 8); [done|]. rewrite length_take. lia.
Qed.

(** * Counter mode *)

Fixpoint le_val (l : list Z) : Z := match l with [] => 0 | x :: l' => x + 256 * le_val l' end.
(** The number a block of bytes spells, most significant byte first. *)
Definition be_val (l : list Z) : Z := le_val (rev l).

Lemma le_val_bound l : bytes l -> 0 <= le_val l < 256 ^ Z.of_nat (length l).
Proof.
  induction 1 as [|x l Hx Hl IH]; [done|]. cbn [le_val length]. unfold is_byte in Hx.
  rewrite Nat2Z.inj_succ, Z.pow_succ_r by lia. lia.
Qed.

Lemma increment_ok l :
  bytes l -> bytes (increment l) /\ length (increment l) = length l /\
  le_val (increment l) = (le_val l + 1) mod 256 ^ Z.of_nat (length l).
Proof.
  induction 1 as [|x l Hx Hl (IH1 & IH2 & IH3)]; [by split_and!; [|..|rewrite Z.mod_1_r]|].
  cbn [increment length]. unfold is_byte in Hx. pose proof (le_val_bound l Hl) as Hv.
  set (N := 256 ^ Z.of_nat (length l)) in *.
  assert (256 ^ Z.of_nat (S (length l)) = 256 * N) as -> by (rewrite Nat2Z.inj_succ, Z.pow_succ_r by lia; done).
  destruct (Z.eqb_spec (u8 (x + 1)) 0) as [E|E]; (split_and!; [by constructor; [apply byte_u8|]|cbn [length]; lia|]); cbn [le_val].
  - assert (x = 255) as -> by u_lia. rewrite IH3, E.
    replace (255 + 256 * le_val l + 1) with (256 * (le_val l + 1)) by lia.
    rewrite Zmult_mod_distr_l. lia.
  - assert (x < 255) by (unfold u8 in E; destruct (Z.eq_dec x 255) as [->|]; [done|lia]).
    rewrite u8_small, Z.mod_small by nia. lia.
Qed.

Lemma next_counter_ok c :
  state_ok c -> state_ok (next_counter c) /\ be_val (next_counter c) = (be_val c + 1) mod 2 ^ 128.
Proof.
  intros [Hl Hb]. destruct (increment_ok (rev c)) as (H1 & H2 & H3); [by apply Forall_rev|].
  rewrite length_rev in H2, H3. unfold next_counter, be_val. rewrite rev_involutive, H3, Hl.
  split; [|done]. split; [by rewrite length_rev, H2|by apply Forall_rev].
Qed.

Definition counter_at (ctx : aes_ctx) (i : nat) : list Z := Nat.iter i next_counter (iv ctx).

Lemma iter_counter c i :
  state_ok c ->
  state_ok (Nat.iter i next_counter c) /\ be_val (Nat.iter i next_counter c) = (be_val c + Z.of_nat i) mod 2 ^ 128.
Proof.
  intros Hc. induction i as [|i [IH1 IH2]].
  - split; [done|]. rewrite Z.add_0_r. symmetry. apply Z.mod_small. destruct Hc as [Hl Hb].
    pose proof (le_val_bound (rev c) ltac:(by apply Forall_rev)) as H. rewrite length_rev, Hl in H. exact H.
  - cbn [Nat.iter nat_rect]. destruct (next_counter_ok _ IH1) as [H1 H2]. split; [done|].
    etransitivity; [exact H2|]. rewrite IH2, Zplus_mod_idemp_l. f_equal. lia.
Qed.

Lemma ctr_length ctx : forall fuel c p,
  ctx_ok ctx -> state_ok c -> (length p <= fuel)%nat -> length (ctr ctx fuel c p) = length p.
Proof.
  induction fuel as [|fuel IH]; intros c p Hctx Hc Hf; [by destruct p; simpl in *; [|lia]|].
  destruct p as [|x p]; [done|]. cbn [ctr]. rewrite length_app, length_zip_with.
  destruct (encrypt_block_ok ctx c Hctx Hc) as [[El _] _].
  rewrite IH; [|done|by apply next_counter_ok|rewrite length_drop; simpl in *; unfold AES_BLOCK_SIZE; lia].
  rewrite length_take, length_drop, El. unfold AES_BLOCK_SIZE. lia.
Qed.

(** Byte [j] of the output. *)
Lemma ctr_lookup ctx : forall fuel c p j b,
  ctx_ok ctx -> state_ok c -> (length p <= fuel)%nat -> p !! j = Some b ->
  ctr ctx fuel c p !! j =
  Some (Z.lxor b (aes_encrypt_block ctx (Nat.iter (j / 16) next_counter c) !!! (j mod 16)%nat)).
Proof.
  induction fuel as [|fuel IH]; intros c p j b Hctx Hc Hf Hj; [by destruct p; simpl in *; [|lia]|].
  destruct p as [|x p]; [done|]. cbn [ctr]. pose proof (lookup_lt_Some _ _ _ Hj) as Hlt.
  destruct (encrypt_block_ok ctx c Hctx Hc) as [[El _] _]. set (P := x :: p) in *.
  assert (length (zip_with Z.lxor (take AES_BLOCK_SIZE P) (aes_encrypt_block ctx c)) = Nat.min 16 (length P)) as Hz.
  { rewrite length_zip_with, length_take, El. unfold AES_BLOCK_SIZE. lia. }
  destruct (decide (j < 16)%nat) as [Hj16|Hj16].
  - rewrite lookup_app_l by lia. rewrite Nat.div_small, Nat.mod_small by lia.
    destruct (lookup_lt_is_Some_2 (aes_encrypt_block ctx c) j ltac:(lia)) as [e He].
    erewrite lookup_zip_with_Some. exists b, e. split_and!; [|by rewrite lookup_take_lt by (unfold AES_BLOCK_SIZE; lia)|done].
    f_equal. by apply list_lookup_total_correct.
  - rewrite lookup_app_r, Hz, Nat.min_l by lia.
    rewrite (IH _ _ (j - 16)%nat b); [|done|by apply next_counter_ok| |].
    + assert (j / 16 = S ((j - 16) / 16))%nat as Ed.
      { replace j with (1 * 16 + (j - 16))%nat at 1 by lia. rewrite Nat.div_add_l by lia. lia. }
      assert (j mod 16 = (j - 16) mod 16)%nat as ->.
      { replace j with ((j - 16) + 1 * 16)%nat at 1 by lia. by rewrite Nat.Div0.mod_add. }
      rewrite Ed. do 4 f_equal. symmetry. apply Nat.iter_succ_r.
    + rewrite length_drop. unfold P, AES_BLOCK_SIZE in *. simpl in *. lia.
    + rewrite lookup_drop. unfold AES_BLOCK_SIZE. by replace (16 + (j - 16))%nat with j by lia.
Qed.

(** * Properties *)

(** AES-256 encryption of a block is a permutation of the 16-byte blocks
    for every key: the result is a block of bytes and the inverse cipher of
    FIPS 197 recovers the plaintext from it. *)
Theorem aes_encrypt_block_invertible ctx key iv0 p :
  length key = 32%nat -> length p = 16%nat -> bytes p ->
  let c := aes_init ctx key iv0 in
  length (aes_encrypt_block c p) = 16%nat /\ bytes (aes_encrypt_block c p) /\
  fips_decrypt_block c (aes_encrypt_block c p) = p.
Proof.
  intros Hk Hl Hb c. destruct (encrypt_block_ok c p) as [[H1 H2] H3]; [by apply aes_init_ok|done|done].
Qed.

Definition key0 : list Z := map Z.of_nat (seq 0 32).
Definition block0 : list Z := map (fun i => 17 * Z.of_nat i) (seq 0 16).
Definition blank_aes : aes_ctx := mk_aes [] (replicate 16 0) 0.

Lemma aes_encrypt_block_invertible_witness :
  let c := aes_init blank_aes key0 None in
  length (aes_encrypt_block c block0) = 16%nat /\ bytes (aes_encrypt_block c block0) /\
  fips_decrypt_block c (aes_encrypt_block c block0) = block0.
Proof.
  apply (aes_encrypt_block_invertible blank_aes key0 None block0); [reflexivity|reflexivity|].
  unfold block0. cbn. repeat constructor; done.
Defined.


(** C33. CTR mode: byte [j] of the output is byte [j] of the input combined with
    byte [j mod 16] of the encrypted counter block [j / 16], which spells the
    initial vector plus [j / 16] modulo 2^128; applying it twice is the identity. *)
Theorem aes_ctr_spec ctx key v p :
  length key = 32%nat -> length v = 16%nat -> bytes v ->
  let c := aes_init ctx key (Some v) in
  (forall j b, p !! j = Some b ->
     be_val (counter_at c (j / 16)) = (be_val v + Z.of_nat (j / 16)) mod 2 ^ 128 /\
     aes_ctr_encrypt c p !! j =
     Some (Z.lxor b (aes_encrypt_block c (counter_at c (j / 16)) !!! (j mod 16)%nat))) /\
  aes_ctr_encrypt c (aes_ctr_encrypt c p) = p.
Proof.
  intros Hk Hl Hb c. pose proof (aes_init_ok ctx key (Some v) Hk : ctx_ok c) as Hc.
  assert (iv c = v) as Hiv by (unfold c, aes_init; cbn [iv]; apply take_ge; unfold AES_BLOCK_SIZE; lia).
  assert (state_ok (iv c)) as Hv by (rewrite Hiv; by split).
  pose proof (ctr_length c (length p) (iv c) p Hc Hv ltac:(lia)) as Hlen. split.
  - intros j b Hj. split; [unfold counter_at; rewrite Hiv in *; by apply iter_counter|].
    by apply ctr_lookup.
  - apply list_eq. intros j. unfold aes_ctr_encrypt. destruct (p !! j) as [b|] eqn:Hj.
    + rewrite (ctr_lookup c _ _ _ j _ Hc Hv (Nat.le_refl _) (ctr_lookup c _ _ _ j b Hc Hv (Nat.le_refl _) Hj)).
      by rewrite Z.lxor_assoc, Z.lxor_nilpotent, Z.lxor_0_r.
    + apply lookup_ge_None in Hj. apply lookup_ge_None.
      rewrite (ctr_length c _ _ _ Hc Hv), Hlen by lia. done.
Qed.

Lemma aes_ctr_spec_witness :
  aes_ctr_encrypt (aes_init blank_aes key0 (Some block0))
    (aes_ctr_encrypt (aes_init blank_aes key0 (Some block0)) [1; 2; 3]) = [1; 2; 3].
Proof.
  refine (proj2 (aes_ctr_spec blank_aes key0 block0 [1; 2; 3] _ _ _)); [reflexivity|reflexivity|].
  unfold block0. cbn. repeat constructor; done.
Defined.

End Aes.
