(* ===== verification/Hmac.v ===== *)
(** HMAC-SHA512, PBKDF2 and the comparison of tags (src/crypto.c, lines 384-465
    and 740-873), against RFC 2104 and RFC 2898. *)
From Stdlib Require Import ZArith Lia List Bool String.
From stdpp Require Import base tactics numbers list.
From S2P Require Import Prelude Sha512.
Open Scope Z_scope.

Module Hmac.
Import Sha512.

#[local] Arguments Nat.mul : simpl never.
#[local] Arguments Nat.div : simpl never.
#[local] Arguments Nat.modulo : simpl never.

Definition HMAC_IPAD : Z := 0x36.
Definition HMAC_OPAD : Z := 0x5c.
Definition SHA512_BLOCK_SIZE : nat := 128.
Definition HMAC_OUTPUT_SIZE : nat := 64.

Record hmac_ctx := mk_hmac { key : list Z; hash_ctx : sha512_ctx }.

(** A hash operation on the embedded context. *)
Definition on_hash {A} (m : M sha512_ctx A) : M hmac_ctx A :=
  fun c => match m (hash_ctx c) with
           | Ok (a, h) => Ok (a, mk_hmac (key c) h)
           | Err f => Err f
           end.

Definition xor_pad (pad : Z) (k : list Z) : list Z := map (fun b => Z.lxor b pad) k.

(** [padded_key] of [hmac_init]. *)
Definition padded_key (k : list Z) : result (list Z) :=
  if (SHA512_BLOCK_SIZE <? length k)%nat
  then match sha512 k with
       | Ok h => Ok (h ++ replicate (SHA512_BLOCK_SIZE - 64) 0)
       | Err f => Err f
       end
  else Ok (k ++ replicate (SHA512_BLOCK_SIZE - length k) 0).

Definition hmac_init (k : list Z) : M hmac_ctx unit :=
  pk <- lift (padded_key k) ;;
  modify (fun c => mk_hmac pk (hash_ctx c)) ;;;
  on_hash sha512_init ;;;
  on_hash (sha512_update (xor_pad HMAC_IPAD pk)).

Definition hmac_update (data : list Z) : M hmac_ctx unit := on_hash (sha512_update data).

(** The outer hash runs in a local context. *)
Definition outer_hash (k inner : list Z) : result (list Z) :=
  match (sha512_init ;;; sha512_update (xor_pad HMAC_OPAD k) ;;; sha512_update inner ;;; sha512_final) blank_ctx with
  | Ok (h, _) => Ok h
  | Err f => Err f
  end.

Definition hmac_final : M hmac_ctx (list Z) :=
  inner <- on_hash sha512_final ;;
  k <- gets key ;;
  lift (outer_hash k inner).

Definition blank_hmac : hmac_ctx := mk_hmac [] blank_ctx.

(** [crypto_secure_zero] on the context. *)
Definition hmac_destroy : M hmac_ctx unit :=
  modify (fun _ => mk_hmac (replicate 128 0) (mk_ctx512 (replicate 8 0) (0, 0) (replicate 128 0) 0)).

Definition local_mac (m : M hmac_ctx (list Z)) : result (list Z) :=
  match m blank_hmac with Ok (t, _) => Ok t | Err f => Err f end.

Definition hmac_sha512 (k data : list Z) : result (list Z) :=
  local_mac (hmac_init k ;;; hmac_update data ;;; t <- hmac_final ;; hmac_destroy ;;; ret t).

(** [diff |= a[i] ^ b[i]] over the first [len] bytes. *)
Fixpoint diff_loop (diff : Z) (a b : list Z) : Z :=
  match a, b with
  | x :: a', y :: b' => diff_loop (u8 (Z.lor diff (Z.lxor x y))) a' b'
  | _, _ => diff
  end.

Definition crypto_constant_time_compare (a b : list Z) (len : nat) : bool :=
  diff_loop 0 (take len a) (take len b) =? 0.

Definition hmac_verify (mac1 mac2 : list Z) (len : nat) : bool := crypto_constant_time_compare mac1 mac2 len.

(** * PBKDF2 *)

(** [U_1], with the block index in four bytes behind the salt. *)
Definition first_block (password salt : list Z) (block_index : Z) : result (list Z) :=
  let counter := [Z.land (Z.shiftr block_index 24) 0xff; Z.land (Z.shiftr block_index 16) 0xff;
                  Z.land (Z.shiftr block_index 8) 0xff; Z.land block_index 0xff] in
  local_mac (hmac_init password ;;; hmac_update salt ;;; hmac_update counter ;;; hmac_final).

(** The loop [for (i = 1; i < iterations; i++)]. *)
Fixpoint xor_rounds (n : nat) (password block temp : list Z) : result (list Z) :=
  match n with
  | O => Ok block
  | S n' => match hmac_sha512 password temp with
            | Ok temp' => xor_rounds n' password (zip_with Z.lxor block temp') temp'
            | Err f => Err f
            end
  end.

Definition pbkdf2_block (password salt : list Z) (iterations block_index : Z) : result (list Z) :=
  match first_block password salt block_index with
  | Ok block => xor_rounds (Z.to_nat (iterations - 1)) password block block
  | Err f => Err f
  end.

(** The loop [while (key_len > 0)]; every turn but the last writes 64 bytes. *)
Fixpoint pbkdf2_loop (fuel : nat) (password salt : list Z) (iterations block_index : Z) (key_len : nat)
    : result (list Z) :=
  match key_len, fuel with
  | O, _ => Ok []
  | _, O => Err NoTermination
  | _, S fuel' =>
      match pbkdf2_block password salt iterations block_index with
      | Ok block =>
          let copy_len := Nat.min key_len HMAC_OUTPUT_SIZE in
          match pbkdf2_loop fuel' password salt iterations (u32 (block_index + 1)) (key_len - copy_len) with
          | Ok rest => Ok (take copy_len block ++ rest)
          | Err f => Err f
          end
      | Err f => Err f
      end
  end.

Definition pbkdf2_hmac_sha512 (password salt : list Z) (iterations : Z) (key_len : nat) : result (list Z) :=
  pbkdf2_loop (S key_len) password salt iterations 1 key_len.

(** * RFC 2104 and RFC 2898 *)

Definition block_key (k : list Z) : list Z :=
  let k' := if (128 <? length k)%nat then digest512 k else k in k' ++ replicate (128 - length k') 0.

Definition hmac_spec (k msg : list Z) : list Z :=
  digest512 (xor_pad 0x5c (block_key k) ++ digest512 (xor_pad 0x36 (block_key k) ++ msg)).

(** [T_i]: the exclusive or of [c] iterates. *)
Fixpoint iterates (c : nat) (k u : list Z) : list Z :=
  match c with
  | O => u
  | S c' => zip_with Z.lxor u (iterates c' k (hmac_spec k u))
  end.

Definition be32 (i : Z) : list Z := [i / 2 ^ 24 mod 256; i / 2 ^ 16 mod 256; i / 2 ^ 8 mod 256; i mod 256].

Definition derived_block (k salt : list Z) (c : nat) (i : Z) : list Z :=
  iterates (c - 1) k (hmac_spec k (salt ++ be32 i)).

Definition pbkdf2_spec (k salt : list Z) (c key_len : nat) : list Z :=
  take key_len (concat (map (fun i => derived_block k salt c (Z.of_nat i)) (seq 1 ((key_len + 63) / 64)))).

(** * The code computes them *)

Lemma wp_on_hash {A} (m : M sha512_ctx A) Q c :
  wp m (fun a h => Q a (mk_hmac (key c) h)) (hash_ctx c) -> wp (on_hash m) Q c.
Proof. unfold wp, on_hash. by destruct (m (hash_ctx c)) as [[a h]|]. Qed.

Lemma padded_key_ok k : Z.of_nat (length k) < 2 ^ 32 -> padded_key k = Ok (block_key k).
Proof.
  intros Hk. unfold padded_key, block_key, SHA512_BLOCK_SIZE.
  destruct (Nat.ltb_spec 128 (length k)) as [Hl|Hl]; [|done]. rewrite sha512_ok by done.
  by rewrite digest512_length.
Qed.

Lemma block_key_length k : length (block_key k) = 128%nat.
Proof.
  unfold block_key. rewrite length_app, length_replicate. destruct (Nat.ltb_spec 128 (length k)); [|lia].
  rewrite digest512_length. lia.
Qed.

Lemma xor_pad_length p k : length (xor_pad p k) = length k.
Proof. apply length_map. Qed.

(** A started computation that has seen [msg]. *)
Definition hrep (k : list Z) (c : hmac_ctx) (msg : list Z) : Prop :=
  key c = block_key k /\ rep512 (hash_ctx c) (xor_pad 0x36 (block_key k) ++ msg).

Lemma hmac_init_ok k c : Z.of_nat (length k) < 2 ^ 32 -> wp (hmac_init k) (fun _ c' => hrep k c' []) c.
Proof.
  intros Hk. unfold hmac_init. apply wp_bind. eapply wp_lift; [by apply padded_key_ok|]. do 2 wp_step.
  apply wp_bind, wp_on_hash. eapply wp_mono; [apply init_rep|]. intros [] h1 H1. apply wp_on_hash.
  cbn [key hash_ctx]. eapply wp_mono.
  { apply (sha512_update_ok h1 [] _ H1); cbn [app]; rewrite xor_pad_length, block_key_length; lia. }
  intros [] h2 H2. split; [done|]. by rewrite app_nil_r.
Qed.

Lemma hmac_update_ok k c msg data :
  hrep k c msg -> Z.of_nat (length data) < 2 ^ 32 -> Z.of_nat (length (msg ++ data)) < 2 ^ 124 ->
  wp (hmac_update data) (fun _ c' => hrep k c' (msg ++ data)) c.
Proof.
  intros [Hk H] Hd Hmax. apply wp_on_hash. eapply wp_mono.
  { apply (sha512_update_ok _ _ _ H Hd). rewrite !length_app, xor_pad_length, block_key_length in *. lia. }
  intros [] h' H'. split; [done|]. by rewrite app_assoc.
Qed.

Lemma outer_hash_ok k inner :
  length k = 128%nat -> length inner = 64%nat ->
  outer_hash k inner = Ok (digest512 (xor_pad 0x5c k ++ inner)).
Proof.
  intros Hk Hi. apply wp_value, wp_bind. eapply wp_mono; [apply init_rep|]. intros [] h1 H1. apply wp_bind.
  eapply wp_mono; [apply (sha512_update_ok _ [] _ H1); cbn [app]; rewrite xor_pad_length; lia|].
  intros [] h2 H2. apply wp_bind. cbn [app] in H2.
  eapply wp_mono; [apply (sha512_update_ok _ _ _ H2); rewrite ?length_app, ?xor_pad_length; lia|].
  intros [] h3 H3. by apply sha512_final_ok.
Qed.

Lemma hmac_final_ok k c msg : hrep k c msg -> wp hmac_final (fun t _ => t = hmac_spec k msg) c.
Proof.
  intros [Hk H]. unfold hmac_final. apply wp_bind, wp_on_hash.
  eapply wp_mono; [by apply sha512_final_ok|]. intros inner h ->. cbv beta. do 2 wp_step. cbn [key]. rewrite Hk.
  eapply wp_lift; [apply outer_hash_ok; [apply block_key_length|apply digest512_length]|]. done.
Qed.

Lemma hmac_sha512_ok k data :
  Z.of_nat (length k) < 2 ^ 32 -> Z.of_nat (length data) < 2 ^ 32 ->
  hmac_sha512 k data = Ok (hmac_spec k data).
Proof.
  intros Hk Hd. apply wp_value, wp_bind. eapply wp_mono; [by apply hmac_init_ok|]. intros [] c1 H1. apply wp_bind.
  eapply wp_mono; [apply (hmac_update_ok k c1 [] data H1 Hd); cbn [app]; lia|]. intros [] c2 H2. apply wp_bind.
  eapply wp_mono; [by apply hmac_final_ok|]. intros t c3 ->. unfold hmac_destroy. wp_steps. done.
Qed.

Lemma hmac_spec_length k m : length (hmac_spec k m) = 64%nat.
Proof. apply digest512_length. Qed.

Lemma first_block_ok k salt i :
  Z.of_nat (length k) < 2 ^ 32 -> Z.of_nat (length salt) < 2 ^ 32 ->
  first_block k salt i = Ok (hmac_spec k (salt ++ be32 i)).
Proof.
  intros Hk Hs. apply wp_value, wp_bind. eapply wp_mono; [by apply hmac_init_ok|]. intros [] c1 H1. apply wp_bind.
  eapply wp_mono; [apply (hmac_update_ok k c1 [] salt H1 Hs); cbn [app]; lia|]. intros [] c2 H2. apply wp_bind.
  cbn [app] in H2. eapply wp_mono; [apply (hmac_update_ok k c2 salt _ H2); [simpl; lia|rewrite length_app; simpl; lia]|].
  intros [] c3 H3. cbv beta in H3.
  replace [_; _; _; _] with (be32 i) in H3; [by apply hmac_final_ok|].
  unfold be32. change 255 with (Z.ones 8). by rewrite !Z.land_ones, !Z.shiftr_div_pow2 by lia.
Qed.

Lemma iterates_length c k : forall u, length u = 64%nat -> length (iterates c k u) = 64%nat.
Proof.
  induction c as [|c IH]; intros u Hu; [done|]. cbn [iterates]. rewrite length_zip_with, IH; [lia|].
  apply hmac_spec_length.
Qed.

Lemma zip_lxor_assoc a : forall b c,
  zip_with Z.lxor (zip_with Z.lxor a b) c = zip_with Z.lxor a (zip_with Z.lxor b c).
Proof.
  induction a as [|x a IH]; intros [|y b] [|z c]; try done. cbn [zip_with]. by rewrite Z.lxor_assoc, IH.
Qed.

Lemma zip_lxor_zeros n : forall l, length l = n -> zip_with Z.lxor (replicate n 0) l = l.
Proof. induction n as [|n IH]; intros [|x l] Hl; try done. cbn. f_equal. apply IH. by injection Hl. Qed.

Lemma xor_rounds_ok n k : Z.of_nat (length k) < 2 ^ 32 -> forall a t,
  length t = 64%nat ->
  xor_rounds n k (zip_with Z.lxor a t) t = Ok (zip_with Z.lxor a (iterates n k t)).
Proof.
  intros Hk. induction n as [|n IH]; intros a t Ht; [done|]. cbn [xor_rounds iterates].
  rewrite hmac_sha512_ok by lia. rewrite IH by apply hmac_spec_length. by rewrite zip_lxor_assoc.
Qed.

Lemma pbkdf2_block_ok k salt c i :
  Z.of_nat (length k) < 2 ^ 32 -> Z.of_nat (length salt) < 2 ^ 32 -> 0 <= c ->
  pbkdf2_block k salt c i = Ok (derived_block k salt (Z.to_nat c) i).
Proof.
  intros Hk Hs Hc. unfold pbkdf2_block, derived_block. rewrite first_block_ok by done.
  set (u := hmac_spec _ _). assert (length u = 64%nat) as Hu by apply hmac_spec_length.
  rewrite <- (zip_lxor_zeros 64 u Hu) at 1. rewrite xor_rounds_ok by done.
  replace (Z.to_nat c - 1)%nat with (Z.to_nat (c - 1)) by lia.
  by rewrite zip_lxor_zeros by by apply iterates_length.
Qed.

Lemma derived_block_length k salt c i : length (derived_block k salt c i) = 64%nat.
Proof. apply iterates_length, hmac_spec_length. Qed.

Lemma pbkdf2_loop_ok k salt c :
  Z.of_nat (length k) < 2 ^ 32 -> Z.of_nat (length salt) < 2 ^ 32 -> 0 <= c ->
  forall fuel i len, (len < fuel)%nat -> Z.of_nat (i + (len + 63) / 64) <= 2 ^ 32 ->
  pbkdf2_loop fuel k salt c (Z.of_nat i) len =
  Ok (take len (concat (map (fun j => derived_block k salt (Z.to_nat c) (Z.of_nat j)) (seq i ((len + 63) / 64))))).
Proof.
  intros Hk Hs Hc. induction fuel as [|fuel IH]; intros i len Hf Hmax; [lia|].
  destruct len as [|len]; [done|]. cbn [pbkdf2_loop]. rewrite pbkdf2_block_ok by done.
  set (L := S len) in *. set (n := Nat.min L HMAC_OUTPUT_SIZE). unfold HMAC_OUTPUT_SIZE in n.
  assert ((L + 63) / 64 = S ((L - n + 63) / 64))%nat as En.
  { unfold n. destruct (Nat.min_spec L 64) as [[H ->]|[H ->]].
    - rewrite Nat.sub_diag. symmetry. apply Nat.div_unique with (L - 1)%nat; [lia|]. cbn [Nat.add]. change (63 / 64)%nat with 0%nat. lia.
    - replace (L + 63)%nat with (1 * 64 + (L - 64 + 63))%nat by lia. rewrite Nat.div_add_l by lia. lia. }
  rewrite En in *. cbn [seq map concat].
  destruct (decide (L <= 64)%nat) as [Hle|Hgt].
  - assert (n = L) as -> by lia. rewrite Nat.sub_diag in *. cbn [pbkdf2_loop].
    replace (pbkdf2_loop fuel _ _ _ _ 0) with (Ok (A := list Z) []) by by destruct fuel.
    rewrite app_nil_r, take_app_le by (rewrite derived_block_length; lia). done.
  - assert (n = 64%nat) as -> by lia.
    assert (u32 (Z.of_nat i + 1) = Z.of_nat (S i)) as Ei.
    { assert (1 <= (L - 64 + 63) / 64)%nat by (apply Nat.div_le_lower_bound; lia). rewrite u32_small; lia. }
    rewrite Ei, IH by lia. f_equal.
    rewrite take_ge by (rewrite derived_block_length; lia).
    rewrite (take_app_ge (derived_block _ _ _ _)) by (rewrite derived_block_length; lia).
    by rewrite derived_block_length.
Qed.

Lemma diff_loop_ok a : forall b d,
  length a = length b -> Forall (fun x => 0 <= x < 256) a -> Forall (fun x => 0 <= x < 256) b -> 0 <= d < 256 ->
  (diff_loop d a b = 0 <-> d = 0 /\ a = b).
Proof.
  induction a as [|x a IH]; intros [|y b] d Hl Ha Hb Hd; try done; cbn [diff_loop]; [tauto|].
  apply Forall_cons in Ha as [Hx Ha]. apply Forall_cons in Hb as [Hy Hb]. injection Hl as Hl.
  rewrite IH; [|done..|apply u8_range].
  assert (u8 (Z.lor d (Z.lxor x y)) = Z.lor d (Z.lxor x y)) as ->.
  { unfold u8. apply Z.bits_inj'. intros n Hn. rewrite Z.testbit_mod_pow2, Z.lor_spec, Z.lxor_spec by lia.
    destruct (Z.ltb_spec n 8) as [|Hn8]; [done|]. assert (forall z, 0 <= z < 256 -> Z.testbit z n = false) as H0.
    { intros z Hz. rewrite <- (Z.mod_small z (2 ^ 8)) by lia. apply Z.mod_pow2_bits_high. lia. }
    by rewrite !H0. }
  rewrite Z.lor_eq_0_iff, Z.lxor_eq_0_iff. split; [intros [[-> ->] ->]; done|intros [-> [= -> ->]]; done].
Qed.

(** * Properties *)

(** C16. HMAC-SHA512 computes the function of RFC 2104 for every key and every
    message up to the largest [size_t], keys longer than a block included. *)
Theorem hmac_sha512_rfc2104 k data :
  Z.of_nat (length k) < 2 ^ 32 -> Z.of_nat (length data) < 2 ^ 32 ->
  hmac_sha512 k data = Ok (hmac_spec k data).
Proof. apply hmac_sha512_ok. Qed.

Lemma hmac_sha512_rfc2104_witness :
  hmac_sha512 (replicate 131 0xaa) [0x61] = Ok (hmac_spec (replicate 131 0xaa) [0x61]).
Proof. apply (hmac_sha512_rfc2104 (replicate 131 0xaa) [0x61]); cbn; lia. Defined.

(** C32. [pbkdf2_hmac_sha512] terminates and returns the key RFC 2898 derives,
    for every number of iterations (zero counts as one) and every key length. *)
Theorem pbkdf2_rfc2898 password salt iterations key_len :
  Z.of_nat (length password) < 2 ^ 32 -> Z.of_nat (length salt) < 2 ^ 32 ->
  0 <= iterations < 2 ^ 32 -> Z.of_nat key_len < 2 ^ 32 ->
  pbkdf2_hmac_sha512 password salt iterations key_len =
    Ok (pbkdf2_spec password salt (Z.to_nat iterations) key_len).
Proof.
  intros Hp Hs Hi Hl. unfold pbkdf2_hmac_sha512. change 1 with (Z.of_nat 1).
  rewrite pbkdf2_loop_ok; [done|done|done|lia|lia|].
  assert ((key_len + 63) / 64 <= key_len / 64 + 1)%nat.
  { transitivity ((1 * 64 + key_len) / 64)%nat; [apply Nat.Div0.div_le_mono; lia|]. rewrite Nat.div_add_l; lia. }
  pose proof (Nat.div_mod key_len 64 ltac:(lia)). lia.
Qed.

Lemma pbkdf2_rfc2898_witness :
  pbkdf2_hmac_sha512 [0x70] [0x73] 2 65 = Ok (pbkdf2_spec [0x70] [0x73] 2 65).
Proof. apply (pbkdf2_rfc2898 [0x70] [0x73] 2 65); cbn; lia. Defined.

(** [crypto_constant_time_compare] (and [hmac_verify]) answers true exactly
    when the first [len] bytes agree. *)
Theorem constant_time_compare_spec a b len :
  (len <= length a)%nat -> (len <= length b)%nat ->
  Forall (fun x => 0 <= x < 256) a -> Forall (fun x => 0 <= x < 256) b ->
  crypto_constant_time_compare a b len = true <-> take len a = take len b.
Proof.
  intros Ha Hb Fa Fb. unfold crypto_constant_time_compare. rewrite Z.eqb_eq, diff_loop_ok.
  - tauto.
  - rewrite !length_take. lia.
  - by apply Forall_take.
  - by apply Forall_take.
  - lia.
Qed.

Lemma constant_time_compare_spec_witness :
  crypto_constant_time_compare [1; 2] [1; 3] 2 = true <-> take 2 [1; 2] = take 2 [1; 3].
Proof. apply (constant_time_compare_spec [1; 2] [1; 3] 2); [cbn; lia..| |]; repeat constructor; lia. Defined.

End Hmac.
