(* ===== verification/Csprng.v ===== *)
(** The random number generator (src/crypto.c, lines 467-738 and 875-1142):
    ChaCha20, the generator that runs it in counter mode, reseeding through
    HMAC, and the collection and validation of entropy.

    What the hardware delivers (time stamp counter, RDRAND, timer ticks, stack
    and heap addresses, the pool of src/entropy.c) is the record [samples], one
    for each call of [crypto_collect_entropy].  Critical sections only mask
    interrupts and are not part of the state. *)
From Stdlib Require Import ZArith Lia List Bool String.
From stdpp Require Import base tactics numbers list.
From S2P Require Import Prelude Sha512 Hmac.
Open Scope Z_scope.

Module Csprng.
Import Hmac.

#[local] Arguments Nat.mul : simpl never.
#[local] Arguments Nat.div : simpl never.
#[local] Arguments Nat.modulo : simpl never.

(** * ChaCha20 *)

Definition rotl32 (x n : Z) : Z := Z.lor (u32 (Z.shiftl x n)) (Z.shiftr x (32 - n)).

(** [state[x] += state[y]; state[z] ^= state[x]; state[z] = rotl32(state[z], n)] *)
Definition quarter_step (x y z : nat) (n : Z) (st : list Z) : list Z :=
  let vx := st !!! x +32 st !!! y in
  <[z := rotl32 (Z.lxor (st !!! z) vx) n]> (<[x := vx]> st).

Definition chacha20_quarter_round (st : list Z) (a b c d : nat) : list Z :=
  quarter_step c d b 7 (quarter_step a b d 8 (quarter_step c d b 12 (quarter_step a b d 16 st))).

(** Column rounds, then diagonal rounds. *)
Definition double_round (st : list Z) : list Z :=
  let st := chacha20_quarter_round st 0 4 8 12 in
  let st := chacha20_quarter_round st 1 5 9 13 in
  let st := chacha20_quarter_round st 2 6 10 14 in
  let st := chacha20_quarter_round st 3 7 11 15 in
  let st := chacha20_quarter_round st 0 5 10 15 in
  let st := chacha20_quarter_round st 1 6 11 12 in
  let st := chacha20_quarter_round st 2 7 8 13 in
  chacha20_quarter_round st 3 4 9 14.

Definition le_bytes32 (w : Z) : list Z :=
  [Z.land w 0xff; Z.land (Z.shiftr w 8) 0xff; Z.land (Z.shiftr w 16) 0xff; Z.land (Z.shiftr w 24) 0xff].

Definition chacha20_block (input : list Z) : list Z :=
  let state := Nat.iter 10 double_round input in
  concat (map le_bytes32 (zip_with (fun s i => s +32 i) state input)).

(** * The generator *)

Record csprng_ctx := mk_csprng {
  state : list Z; counter : Z; bytes_generated : Z; initialized : bool }.
Definition put_state v c := mk_csprng v (counter c) (bytes_generated c) (initialized c).
Definition put_counter v c := mk_csprng (state c) v (bytes_generated c) (initialized c).
Definition put_bytes v c := mk_csprng (state c) (counter c) v (initialized c).

Definition CSPRNG_SEED_SIZE : nat := 32.
Definition CSPRNG_RESEED_COUNT : Z := 1048576.

Fixpoint le_words (n : nat) (seed : list Z) : list Z :=
  match n, seed with
  | S n', b0 :: b1 :: b2 :: b3 :: rest =>
      Z.lor (Z.lor (Z.lor (Z.shiftl b0 0) (Z.shiftl b1 8)) (Z.shiftl b2 16)) (Z.shiftl b3 24) :: le_words n' rest
  | _, _ => []
  end.

Definition CHACHA_CONSTANTS : list Z := [0x61707865; 0x3320646e; 0x79622d32; 0x6b206574].

Definition csprng_init (seed : list Z) : csprng_ctx :=
  mk_csprng (CHACHA_CONSTANTS ++ le_words 8 seed ++ [0; 0; 0; 0]) 0 0 true.

(** [new_seed] has 64 bytes, of which [csprng_init] reads 32. *)
Definition csprng_reseed (ctx : csprng_ctx) (entropy : list Z) : result csprng_ctx :=
  let old_state := concat (map le_bytes32 (take 8 (drop 4 (state ctx)))) in
  match hmac_sha512 old_state entropy with
  | Ok new_seed => Ok (csprng_init new_seed)
  | Err f => Err f
  end.

(** * Entropy *)

Record samples := mk_samples {
  tsc_deltas : list Z;           (* one per turn of the timing loop *)
  pit_ticks : Z;
  stack_addr : Z; heap_addr : Z;
  entropy_bytes : list Z;        (* entropy_get_bytes(..., 128) *)
  rdrand : option (list (option Z)) (* with RDRAND: what each try delivers *) }.

(** [pool[pool_idx++ % 256] ^= b], for the bytes in order. *)
Fixpoint mix (bs : list Z) (pool : list Z) (idx : nat) : list Z * nat :=
  match bs with
  | [] => (pool, idx)
  | b :: bs' => let i := (idx mod 256)%nat in mix bs' (<[i := Z.lxor (pool !!! i) (u8 b)]> pool) (S idx)
  end.

Definition byte_at (v s : Z) : Z := Z.land (Z.shiftr v s) 0xff.

Definition delta_bytes (d : Z) : list Z := [byte_at d 0; byte_at d 8; byte_at d 16].
Definition rand_bytes (r : option Z) : list Z :=
  match r with Some v => [byte_at v 0; byte_at v 8; byte_at v 16; byte_at v 24] | None => [] end.

(** Everything that is mixed into the pool, in order. *)
Definition source_bytes (s : samples) : list Z :=
  concat (map delta_bytes (take 100 (tsc_deltas s))) ++
  [byte_at (pit_ticks s) 0; byte_at (pit_ticks s) 8; byte_at (pit_ticks s) 16; byte_at (pit_ticks s) 24] ++
  [byte_at (stack_addr s) 0; byte_at (stack_addr s) 8; byte_at (heap_addr s) 0; byte_at (heap_addr s) 8] ++
  take 128 (entropy_bytes s) ++
  match rdrand s with Some rs => concat (map rand_bytes (take 32 rs)) | None => [] end.

Definition entropy_pool (s : samples) : list Z := fst (mix (source_bytes s) (replicate 256 0) 0).

Definition count_byte (data : list Z) (b : Z) : Z := Z.of_nat (length (filter (fun x => x = b) data)).
Definition byte_values : list Z := map Z.of_nat (seq 0 256).

Definition unique_bytes (data : list Z) : Z :=
  Z.of_nat (length (filter (fun b => 0 < count_byte data b) byte_values)).
Definition max_freq (data : list Z) : Z := foldl Z.max 0 (map (count_byte data) byte_values).

(** [*(uint32_t* )(data + i)] *)
Definition word_at (data : list Z) (i : nat) : list Z := take 4 (drop i data).

(** The inner loop from [j]: the number of matches counted so far, or [None]
    when it exceeds three. *)
Fixpoint count_matches (data : list Z) (pattern : list Z) (js : list nat) (matches : nat) : option nat :=
  match js with
  | [] => Some matches
  | j :: js' =>
      if decide (word_at data j = pattern)
      then if (3 <? S matches)%nat then None else count_matches data pattern js' (S matches)
      else count_matches data pattern js' matches
  end.

(** The offsets [lo, lo + 4, ...] below [hi]. *)
Definition offsets (lo hi : nat) : list nat := map (fun k => (lo + 4 * k)%nat) (seq 0 ((hi - lo + 3) / 4)).

Fixpoint pattern_loop (data : list Z) (idxs : list nat) (matches : nat) : bool :=
  match idxs with
  | [] => true
  | i :: idxs' =>
      match count_matches data (word_at data i) (offsets (i + 4) (length data - 4)) matches with
      | Some m => pattern_loop data idxs' m
      | None => false
      end
  end.

(** [len] is at least 8 in every call, so [len - 8] does not wrap. *)
Definition validate_entropy_quality (data : list Z) : bool :=
  let len := Z.of_nat (length data) in
  if unique_bytes data <? 100 then false
  else if (len * 30) / 100 <? max_freq data then false
  else pattern_loop data (offsets 0 (length data - 8)) 0.

(** The output bytes past the first 64: rehash with a counter. *)
Fixpoint more_output (fuel : nat) (hash : list Z) (offset len : nat) : result (list Z) :=
  match fuel with
  | O => Err NoTermination
  | S fuel' =>
      if (offset <? len)%nat then
        match Sha512.sha512 (hash ++ concat (map le_bytes32 [Z.of_nat (offset / 64); 0])) with
        | Ok hash' =>
            match more_output fuel' hash' (offset + 64) len with
            | Ok rest => Ok (take (Nat.min (len - offset) 64) hash' ++ rest)
            | Err f => Err f
            end
        | Err f => Err f
        end
      else Ok []
  end.

(** [None]: the pool fails validation and the output is left unfilled. *)
Definition crypto_collect_entropy (s : samples) (len : nat) : result (option (list Z)) :=
  let pool := entropy_pool s in
  if negb (validate_entropy_quality pool) then Ok None
  else match Sha512.sha512 pool with
       | Ok hash => match more_output (S len) hash 64 len with
                    | Ok rest => Ok (Some (take (Nat.min len 64) hash ++ rest))
                    | Err f => Err f
                    end
       | Err f => Err f
       end.

(** * Random bytes *)

(** The loop [while (len > 0)]. *)
Fixpoint generate (fuel len : nat) (ctx : csprng_ctx) : result (list Z * csprng_ctx) :=
  match len, fuel with
  | O, _ => Ok ([], ctx)
  | _, O => Err NoTermination
  | _, S fuel' =>
      let st := <[13%nat := u32 (Z.shiftr (counter ctx) 32)]> (<[12%nat := u32 (counter ctx)]> (state ctx)) in
      let block := chacha20_block st in
      let copy_len := Nat.min len 64 in
      let ctx' := mk_csprng st (u64 (counter ctx + 1)) (u32 (bytes_generated ctx + Z.of_nat copy_len)) (initialized ctx) in
      match generate fuel' (len - copy_len) ctx' with
      | Ok (rest, ctx'') => Ok (take copy_len block ++ rest, ctx'')
      | Err f => Err f
      end
  end.

(** The automatic reseed at the byte limit. *)
Definition auto_reseed (s : samples) (ctx : csprng_ctx) : result csprng_ctx :=
  if CSPRNG_RESEED_COUNT <=? bytes_generated ctx then
    match crypto_collect_entropy s 64 with
    | Ok (Some fresh) => csprng_reseed ctx fresh
    | Ok None => Ok ctx
    | Err f => Err f
    end
  else Ok ctx.

Definition csprng_random_bytes (s : samples) (len : nat) : M csprng_ctx (list Z) :=
  fun ctx =>
    if negb (initialized ctx) then Err (KernelPanic "CSPRNG used before crypto_init()")
    else match auto_reseed s ctx with
         | Ok ctx' => generate (S len) len ctx'
         | Err f => Err f
         end.

(** The result word, little endian. *)
Fixpoint le_value (bs : list Z) : Z := match bs with [] => 0 | b :: bs' => b + 256 * le_value bs' end.

Definition csprng_random_u32 (s : samples) : M csprng_ctx Z := bs <- csprng_random_bytes s 4 ;; ret (le_value bs).
Definition csprng_random_u64 (s : samples) : M csprng_ctx Z := bs <- csprng_random_bytes s 8 ;; ret (le_value bs).

(** [csprng_destroy]: [crypto_secure_zero] on the context. *)
Definition csprng_destroy (ctx : csprng_ctx) : csprng_ctx := mk_csprng (replicate 16 0) 0 0 false.

Definition PERIODIC_RESEED_INTERVAL : Z := 6000.

(** The global generator and [last_periodic_reseed_time]. *)
Definition csprng_periodic_reseed (now : Z) (s : samples) : M (csprng_ctx * Z) unit :=
  fun g =>
    let '(ctx, last) := g in
    if now -32 last <? PERIODIC_RESEED_INTERVAL then Ok (tt, g)
    else match crypto_collect_entropy s 64 with
         | Ok (Some fresh) => match csprng_reseed ctx fresh with
                              | Ok ctx' => Ok (tt, (ctx', now))
                              | Err f => Err f
                              end
         | Ok None => Ok (tt, g)
         | Err f => Err f
         end.

Definition crypto_init (s : samples) : M csprng_ctx unit :=
  fun _ =>
    match crypto_collect_entropy s CSPRNG_SEED_SIZE with
    | Ok (Some seed) => Ok (tt, csprng_init seed)
    | Ok None => Err (KernelPanic "Insufficient entropy for cryptographic operations")
    | Err f => Err f
    end.

(** * The key stream *)

(** The input block of counter value [n]. *)
Definition with_counter (st : list Z) (n : Z) : list Z :=
  <[13%nat := u32 (Z.shiftr n 32)]> (<[12%nat := u32 n]> st).

(** [k] blocks of key stream from counter value [n] on. *)
Definition keystream (st : list Z) (n : Z) (k : nat) : list Z :=
  concat (map (fun i => chacha20_block (with_counter st (u64 (n + Z.of_nat i)))) (seq 0 k)).

Definition blocks_for (len : nat) : nat := ((len + 63) / 64)%nat.

Lemma with_counter_twice st a b : with_counter (with_counter st a) b = with_counter st b.
Proof.
  unfold with_counter. rewrite (list_insert_insert_ne _ 12 13) by lia. by rewrite !list_insert_insert_eq.
Qed.

Lemma quarter_step_length x y z n st : length (quarter_step x y z n st) = length st.
Proof. unfold quarter_step. by rewrite !length_insert. Qed.

Lemma quarter_round_length st a b c d : length (chacha20_quarter_round st a b c d) = length st.
Proof. unfold chacha20_quarter_round. by rewrite !quarter_step_length. Qed.

Lemma rounds_length n st : length (Nat.iter n double_round st) = length st.
Proof.
  induction n as [|n IH]; [done|]. rewrite Nat.iter_succ. unfold double_round at 1. by rewrite !quarter_round_length.
Qed.

Lemma block_length input : length input = 16%nat -> length (chacha20_block input) = 64%nat.
Proof.
  intros Hl. unfold chacha20_block. set (st := Nat.iter _ _ _).
  assert (length st = 16%nat) as Hst by (unfold st; by rewrite rounds_length).
  set (l := zip_with _ _ _). assert (length l = 16%nat) as Hz by (unfold l; rewrite length_zip_with; lia).
  clearbody l. do 16 (destruct l as [|? l]; [discriminate|]). by destruct l.
Qed.

Lemma keystream_S st n k : keystream st n (S k) = chacha20_block (with_counter st (u64 n)) ++ keystream st (n + 1) k.
Proof.
  unfold keystream. cbn [seq map concat]. rewrite Z.add_0_r. f_equal. f_equal.
  rewrite <- seq_shift, map_map. apply map_ext. intros i. do 3 f_equal. lia.
Qed.

Lemma keystream_u64 st n k : keystream st (u64 n) k = keystream st n k.
Proof.
  unfold keystream. f_equal. apply map_ext. intros i. do 2 f_equal. unfold u64. by rewrite Zplus_mod_idemp_l.
Qed.

Lemma keystream_state st a n k : keystream (with_counter st a) n k = keystream st n k.
Proof. unfold keystream. f_equal. apply map_ext. intros i. by rewrite with_counter_twice. Qed.

Lemma blocks_for_S len : (0 < len)%nat -> blocks_for len = S (blocks_for (len - Nat.min len 64)).
Proof.
  intros H. unfold blocks_for. destruct (Nat.min_spec len 64) as [[Hl ->]|[Hl ->]].
  - rewrite Nat.sub_diag. symmetry. apply Nat.div_unique with (len - 1)%nat; [lia|].
    change ((0 + 63) / 64)%nat with 0%nat. lia.
  - replace (len + 63)%nat with (1 * 64 + (len - 64 + 63))%nat by lia. rewrite Nat.div_add_l by lia. lia.
Qed.

Lemma with_counter_length st n : length (with_counter st n) = length st.
Proof. unfold with_counter. by rewrite !length_insert. Qed.

(** What the loop leaves of the context. *)
Definition advanced (ctx ctx' : csprng_ctx) (len : nat) : Prop :=
  take 12 (state ctx') = take 12 (state ctx) /\ drop 14 (state ctx') = drop 14 (state ctx) /\
  length (state ctx') = length (state ctx) /\
  counter ctx' = u64 (counter ctx + Z.of_nat (blocks_for len)) /\
  bytes_generated ctx' = u32 (bytes_generated ctx + Z.of_nat len) /\ initialized ctx' = initialized ctx.

Lemma advanced_refl ctx :
  0 <= counter ctx < 2 ^ 64 -> 0 <= bytes_generated ctx < 2 ^ 32 -> advanced ctx ctx 0.
Proof.
  intros Hc Hb. unfold advanced. change (blocks_for 0) with 0%nat. rewrite !Z.add_0_r, u64_small, u32_small by lia.
  by split_and!.
Qed.

Lemma generate_ok : forall fuel len ctx,
  (len < fuel)%nat -> length (state ctx) = 16%nat ->
  0 <= counter ctx < 2 ^ 64 -> 0 <= bytes_generated ctx < 2 ^ 32 ->
  exists ctx', generate fuel len ctx =
      Ok (take len (keystream (state ctx) (counter ctx) (blocks_for len)), ctx') /\ advanced ctx ctx' len.
Proof.
  induction fuel as [|fuel IH]; intros len ctx Hf Hst Hc Hb; [lia|].
  destruct len as [|len]; [exists ctx; split; [done|by apply advanced_refl]|]. cbn [generate].
  set (L := S len) in *. set (n := Nat.min L 64). fold (with_counter (state ctx) (counter ctx)).
  set (ctx1 := mk_csprng (with_counter _ _) _ _ _).
  destruct (IH (L - n)%nat ctx1) as (ctx' & E & H1 & H2 & H3 & H4 & H5 & H6).
  { lia. } { cbn [ctx1 state]. by rewrite with_counter_length. } { apply u64_range. } { apply u32_range. }
  rewrite E. exists ctx'. split.
  - do 2 f_equal. rewrite (blocks_for_S L) by lia. fold n. cbn [ctx1 state counter].
    rewrite keystream_state, keystream_u64, keystream_S, (u64_small (counter ctx)) by lia.
    set (B := chacha20_block _). assert (length B = 64%nat) as HB by (apply block_length; by rewrite with_counter_length).
    destruct (Nat.min_spec L 64) as [[HL Hn]|[HL Hn]].
    + assert (n = L) as -> by lia. rewrite Nat.sub_diag, (take_app_le B), take_0, app_nil_r by lia. done.
    + assert (n = 64%nat) as -> by lia. rewrite (take_app_ge B) by lia. rewrite (take_ge B) by lia. by rewrite HB.
  - cbn [ctx1 state counter bytes_generated initialized] in *. unfold with_counter in H1, H2.
    split_and!.
    + by rewrite H1, !take_insert_ge by lia.
    + by rewrite H2, !drop_insert_lt by lia.
    + by rewrite H3, with_counter_length.
    + rewrite H4, (blocks_for_S L) by lia. fold n. unfold u64. rewrite Zplus_mod_idemp_l. f_equal. lia.
    + rewrite H5. unfold u32. rewrite Zplus_mod_idemp_l. f_equal. lia.
    + done.
Qed.

(** * Entropy collection returns *)

Lemma mix_length bs : forall pool idx, length (fst (mix bs pool idx)) = length pool.
Proof. induction bs as [|b bs IH]; intros pool idx; [done|]. cbn [mix]. by rewrite IH, length_insert. Qed.

Lemma more_output_ok : forall fuel hash offset len,
  length hash = 64%nat -> (0 < fuel)%nat -> (len <= offset + 64 * (fuel - 1))%nat ->
  exists out, more_output fuel hash offset len = Ok out /\ length out = (len - offset)%nat.
Proof.
  induction fuel as [|fuel IH]; intros hash offset len Hh H0 Hf; [lia|]. cbn [more_output].
  destruct (Nat.ltb_spec offset len) as [Hlt|Hge]; [|exists []; split; [done|simpl; lia]].
  rewrite Sha512.sha512_ok by (rewrite length_app; change (length (concat _)) with 8%nat; lia).
  destruct (IH (Sha512.digest512 (hash ++ concat (map le_bytes32 [Z.of_nat (offset / 64); 0]))) (offset + 64)%nat len)
    as (out & E & Hout); [apply Sha512.digest512_length|lia|lia|].
  rewrite E. eexists. split; [done|]. rewrite length_app, length_take, Sha512.digest512_length, Hout. lia.
Qed.

Lemma collect_ok s len :
  exists r, crypto_collect_entropy s len = Ok r /\
    (r = None <-> validate_entropy_quality (entropy_pool s) = false) /\
    forall out, r = Some out -> length out = len.
Proof.
  unfold crypto_collect_entropy. destruct (validate_entropy_quality (entropy_pool s)); cbn [negb].
  2:{ exists None. by split_and!. }
  assert (length (entropy_pool s) = 256%nat) as Hp by (unfold entropy_pool; by rewrite mix_length).
  rewrite Sha512.sha512_ok by lia. set (h := Sha512.digest512 _).
  assert (length h = 64%nat) as Hh by apply Sha512.digest512_length.
  destruct (more_output_ok (S len) h 64 len Hh) as (out & -> & Hout); [lia..|].
  eexists. split_and!; [done|done|]. intros o [= <-]. rewrite length_app, length_take, Hout. lia.
Qed.

Definition wf_csprng (ctx : csprng_ctx) : Prop :=
  length (state ctx) = 16%nat /\ 0 <= counter ctx < 2 ^ 64 /\ 0 <= bytes_generated ctx < 2 ^ 32.

Lemma le_words_length n : forall l, (4 * n <= length l)%nat -> length (le_words n l) = n.
Proof.
  induction n as [|n IH]; intros l Hl; [done|]. destruct l as [|b0 [|b1 [|b2 [|b3 l]]]]; simpl in Hl; try lia.
  cbn [le_words length]. rewrite IH; lia.
Qed.

Lemma csprng_init_wf seed : (32 <= length seed)%nat -> wf_csprng (csprng_init seed).
Proof.
  intros Hl. split; [|split; cbn; lia]. unfold csprng_init. cbn [state].
  rewrite !length_app, le_words_length; [done|lia].
Qed.

(** The generator key as bytes, which a reseed mixes with the entropy. *)
Definition key_bytes (ctx : csprng_ctx) : list Z := concat (map le_bytes32 (take 8 (drop 4 (state ctx)))).

Lemma key_bytes_length ctx : length (state ctx) = 16%nat -> length (key_bytes ctx) = 32%nat.
Proof.
  destruct ctx as [st c b i]. unfold key_bytes. cbn [state]. intros H.
  do 16 (destruct st as [|? st]; [discriminate|]). by destruct st.
Qed.

Lemma csprng_reseed_ok ctx e :
  wf_csprng ctx -> Z.of_nat (length e) < 2 ^ 32 -> csprng_reseed ctx e = Ok (csprng_init (hmac_spec (key_bytes ctx) e)).
Proof.
  intros [Hst _] He. unfold csprng_reseed. fold (key_bytes ctx).
  rewrite hmac_sha512_ok; [done| |done]. rewrite key_bytes_length by done. lia.
Qed.

(** * Properties *)

(** The context the bytes of a request come from: reseeded at the byte limit
    when the entropy passes validation. *)
Definition source_ctx (s : samples) (ctx : csprng_ctx) : csprng_ctx :=
  if bytes_generated ctx <? 1048576 then ctx
  else match crypto_collect_entropy s 64 with
       | Ok (Some e) => csprng_init (hmac_spec (key_bytes ctx) e)
       | _ => ctx
       end.

Lemma random_bytes_ok s len ctx :
  wf_csprng ctx -> initialized ctx = true ->
  let src := source_ctx s ctx in
  wf_csprng src /\
  exists ctx', csprng_random_bytes s len ctx =
      Ok (take len (keystream (state src) (counter src) (blocks_for len)), ctx') /\
    advanced src ctx' len /\
    (len <= length (keystream (state src) (counter src) (blocks_for len)))%nat.
Proof.
  intros Hwf Hi src. destruct (collect_ok s 64) as (r & Er & _ & Hr).
  assert (wf_csprng src /\ auto_reseed s ctx = Ok src) as [Hsrc Ea].
  { unfold src, source_ctx, auto_reseed, CSPRNG_RESEED_COUNT. rewrite Z.leb_antisym. destruct (_ <? _); [done|].
    cbn [negb]. rewrite Er. destruct r as [e|]; [|done]. rewrite csprng_reseed_ok; [|done|rewrite (Hr e) by done; lia].
    split; [|done]. apply csprng_init_wf. rewrite hmac_spec_length. lia. }
  split; [done|]. unfold csprng_random_bytes. rewrite Hi, Ea. cbn [negb].
  destruct Hsrc as (H1 & H2 & H3). destruct (generate_ok (S len) len src) as (ctx' & E & H); [lia|done..|].
  exists ctx'. split_and!; [done|done|]. clear E H. unfold keystream, blocks_for.
  assert (forall n k, length (concat (map (fun i => chacha20_block (with_counter (state src) (u64 (counter src + Z.of_nat i)))) (seq n k)))
          = (64 * k)%nat) as Hlen.
  { intros n k. revert n. induction k as [|k IH]; intros n; [done|]. cbn [seq map concat].
    rewrite length_app, IH, block_length; [lia|]. by rewrite with_counter_length. }
  rewrite Hlen. pose proof (Nat.div_mod (len + 63) 64 ltac:(lia)).
  pose proof (Nat.mod_upper_bound (len + 63) 64 ltac:(lia)). lia.
Qed.

Lemma le_bytes32_bytes w : Forall (fun b => 0 <= b < 256) (le_bytes32 w).
Proof.
  unfold le_bytes32. change 255 with (Z.ones 8). repeat constructor; rewrite Z.land_ones by lia;
    apply Z.mod_pos_bound; lia.
Qed.

Lemma keystream_bytes st n k : Forall (fun b => 0 <= b < 256) (keystream st n k).
Proof.
  apply Forall_concat, Forall_map, Forall_true. intros i. apply Forall_concat, Forall_map, Forall_true.
  intros w. apply le_bytes32_bytes.
Qed.

(** What a client needs: [len] bytes and a context that can go on. *)
Lemma random_bytes_client s len ctx :
  wf_csprng ctx -> initialized ctx = true ->
  wp (csprng_random_bytes s len)
     (fun bs ctx' => length bs = len /\ Forall (fun b => 0 <= b < 256) bs /\ wf_csprng ctx' /\ initialized ctx' = true) ctx.
Proof.
  intros Hwf Hi. destruct (random_bytes_ok s len ctx Hwf Hi) as (Hsrc & ctx' & E & Hadv & Hlen).
  eapply wp_ok; [exact E|]. destruct Hsrc as (H1 & _ & _). destruct Hadv as (_ & _ & A3 & A4 & A5 & A6). split_and!.
  - rewrite length_take. lia.
  - apply Forall_take, keystream_bytes.
  - split; [congruence|]. rewrite A4, A5. split; [apply u64_range|apply u32_range].
  - rewrite A6. unfold source_ctx. destruct (_ <? _); [done|]. by destruct (crypto_collect_entropy s 64) as [[e|]|].
Qed.

(** A request for [len] random bytes from a seeded context returns the next
    [len] bytes of the ChaCha20 key stream of the (reseeded where due) context and
    moves the 64-bit block counter past every block it used, so no block is used
    twice; it never faults, whatever the entropy sources deliver. *)
Theorem csprng_random_bytes_spec s len ctx :
  wf_csprng ctx -> initialized ctx = true ->
  let src := source_ctx s ctx in
  wf_csprng src /\
  exists ctx', csprng_random_bytes s len ctx =
      Ok (take len (keystream (state src) (counter src) (blocks_for len)), ctx') /\
    advanced src ctx' len /\
    (len <= length (keystream (state src) (counter src) (blocks_for len)))%nat.
Proof. apply random_bytes_ok. Qed.

Definition no_samples : samples := mk_samples [] 0 0 0 [] None.

Lemma csprng_random_bytes_spec_witness :
  wf_csprng (source_ctx no_samples (csprng_init (replicate 32 7))).
Proof.
  refine (proj1 (csprng_random_bytes_spec no_samples 100 (csprng_init (replicate 32 7)) _ eq_refl)).
  apply csprng_init_wf. cbn. lia.
Defined.

(** The block function has the known answer of RFC 8439 section 2.3.2, and a
    context that was never seeded panics instead of producing the key stream of
    the zero key. *)
Theorem chacha20_known_answer s len :
  chacha20_block (CHACHA_CONSTANTS ++ le_words 8 (map Z.of_nat (seq 0 32)) ++ [1; 0x09000000; 0x4a000000; 0]) =
    [0x10; 0xf1; 0xe7; 0xe4; 0xd1; 0x3b; 0x59; 0x15; 0x50; 0x0f; 0xdd; 0x1f; 0xa3; 0x20; 0x71; 0xc4;
     0xc7; 0xd1; 0xf4; 0xc7; 0x33; 0xc0; 0x68; 0x03; 0x04; 0x22; 0xaa; 0x9a; 0xc3; 0xd4; 0x6c; 0x4e;
     0xd2; 0x82; 0x64; 0x46; 0x07; 0x9f; 0xaa; 0x09; 0x14; 0xc2; 0xd7; 0x05; 0xd9; 0x8b; 0x02; 0xa2;
     0xb5; 0x12; 0x9c; 0xd1; 0xde; 0x16; 0x4e; 0xb9; 0xcb; 0xd0; 0x83; 0xe8; 0xa2; 0x50; 0x3c; 0x4e] /\
  forall ctx, csprng_random_bytes s len (csprng_destroy ctx) = Err (KernelPanic "CSPRNG used before crypto_init()").
Proof. split; [by vm_compute|done]. Qed.

End Csprng.
