(* ===== verification/P256.v ===== *)
(** 256-bit integers and modular arithmetic (src/ecdsa.c, the big-integer part):
    eight 32-bit words, least significant first, against the integers.

    The C functions read each word of their operands before they write the word
    of the same index of the result, so a result may alias an operand. *)
From Stdlib Require Import ZArith Zpow_facts Lia List Bool String.
From stdpp Require Import base tactics numbers list gmap.
From S2P Require Import Prelude.
Open Scope Z_scope.

Module P256.

Definition P256_WORDS : nat := 8.
Definition P256_BYTES : nat := 32.

(** [p256_int_t]: the words [d[0..7]]. *)
Definition p256_int := list Z.

Definition p256_p : p256_int :=
  [0xFFFFFFFF; 0xFFFFFFFF; 0xFFFFFFFF; 0x00000000; 0x00000000; 0x00000000; 0x00000001; 0xFFFFFFFF].
Definition p256_a : p256_int :=
  [0xFFFFFFFC; 0xFFFFFFFF; 0xFFFFFFFF; 0x00000000; 0x00000000; 0x00000000; 0x00000001; 0xFFFFFFFF].
Definition p256_b : p256_int :=
  [0x27D2604B; 0x3BCE3C3E; 0xCC53B0F6; 0x651D06B0; 0x769886BC; 0xB3EBBD55; 0xAA3A93E7; 0x5AC635D8].
Definition p256_n : p256_int :=
  [0xFC632551; 0xF3B9CAC2; 0xA7179E84; 0xBCE6FAAD; 0xFFFFFFFF; 0xFFFFFFFF; 0x00000000; 0xFFFFFFFF].

Definition p256_int_zero : p256_int := replicate P256_WORDS 0.

(** A word in the lowest place. *)
Definition small (v : Z) : p256_int := v :: replicate 7 0.

Definition be_word (b0 b1 b2 b3 : Z) : Z :=
  Z.lor (Z.lor (Z.lor (Z.shiftl b0 24) (Z.shiftl b1 16)) (Z.shiftl b2 8)) b3.

(** The loop writes [d[7]], [d[6]], ... : the words in reading order. *)
Fixpoint be_words (bytes : list Z) : list Z :=
  match bytes with
  | b0 :: b1 :: b2 :: b3 :: rest => be_word b0 b1 b2 b3 :: be_words rest
  | _ => []
  end.

Definition p256_int_from_bytes (bytes : list Z) : p256_int := rev (be_words (take P256_BYTES bytes)).

Definition word_to_bytes (w : Z) : list Z :=
  [Z.land (Z.shiftr w 24) 255; Z.land (Z.shiftr w 16) 255; Z.land (Z.shiftr w 8) 255; Z.land w 255].

Definition p256_int_to_bytes (a : p256_int) : list Z := concat (map word_to_bytes (rev a)).

(** From the most significant word down. *)
Fixpoint cmp_words (a b : list Z) : Z :=
  match a, b with
  | x :: a', y :: b' => if y <? x then 1 else if x <? y then -1 else cmp_words a' b'
  | _, _ => 0
  end.

Definition p256_int_cmp (a b : p256_int) : Z := cmp_words (rev a) (rev b).

Definition p256_int_is_zero (a : p256_int) : bool := forallb (fun x => x =? 0) a.

Fixpoint add_words (a b : list Z) (carry : Z) : list Z * Z :=
  match a, b with
  | x :: a', y :: b' =>
      let sum := u64 (x + y + carry) in
      let '(c, carry') := add_words a' b' (Z.shiftr sum 32) in (u32 sum :: c, carry')
  | _, _ => ([], carry)
  end.

Definition p256_add (a b : p256_int) : p256_int * Z :=
  let '(c, carry) := add_words a b 0 in (c, u32 carry).

Fixpoint sub_words (a b : list Z) (borrow : Z) : list Z * Z :=
  match a, b with
  | x :: a', y :: b' =>
      let diff := u64 (x - y - borrow) in
      let '(c, borrow') := sub_words a' b' (Z.land (Z.shiftr diff 32) 1) in (u32 diff :: c, borrow')
  | _, _ => ([], borrow)
  end.

Definition p256_sub (a b : p256_int) : p256_int * Z :=
  let '(c, borrow) := sub_words a b 0 in (c, u32 borrow).

Definition nonzero (x : Z) : bool := negb (x =? 0).

(** [if (carry || p256_int_cmp(x, m) >= 0) p256_sub(x, x, m)] *)
Definition reduce_once (x : p256_int * Z) (m : p256_int) : p256_int :=
  if nonzero (snd x) || (0 <=? p256_int_cmp (fst x) m) then fst (p256_sub (fst x) m) else fst x.

Definition p256_mod_add (a b m : p256_int) : p256_int := reduce_once (p256_add a b) m.

Definition p256_mod_sub (a b m : p256_int) : p256_int :=
  let '(temp, borrow) := p256_sub a b in
  if nonzero borrow then fst (p256_add temp m) else temp.

(** The inner multiplication loop: [row] is [product[i ..]]. *)
Fixpoint mul_row (x : Z) (b row : list Z) (carry : Z) : list Z :=
  match b, row with
  | y :: b', r :: row' =>
      let p := u64 (r + x * y + carry) in
      u32 p :: mul_row x b' row' (Z.shiftr p 32)
  | [], _ :: row' => u32 carry :: row'
  | _, [] => []
  end.

(** The outer loop: after row [i], [product[i]] is final. *)
Fixpoint mul_rows (a b row : list Z) : list Z :=
  match a with
  | [] => row
  | x :: a' => match mul_row x b row 0 with
               | [] => []
               | r :: row' => r :: mul_rows a' b row'
               end
  end.

Definition product (a b : p256_int) : list Z := mul_rows a b (replicate (2 * P256_WORDS) 0).

(** One bit of the reduction: double, reduce, add the bit, reduce. *)
Definition reduce_bit (m : p256_int) (w : Z) (result : p256_int) (shift : Z) : p256_int :=
  let result := reduce_once (p256_add result result) m in
  if nonzero (Z.land (Z.shiftr w (31 - shift)) 1)
  then reduce_once (p256_add result (small 1)) m
  else result.

Definition shifts : list Z := map Z.of_nat (seq 0 32).

Definition reduce_word (m : p256_int) (result : p256_int) (w : Z) : p256_int :=
  foldl (reduce_bit m w) result shifts.

Definition p256_mod_mul (a b m : p256_int) : p256_int :=
  foldl (reduce_word m) p256_int_zero (rev (product a b)).

(** Square-and-multiply over the bits of a word of the exponent. *)
Definition inv_bit (m : p256_int) (w : Z) (s : p256_int * p256_int) (bit : Z) : p256_int * p256_int :=
  let '(result, base) := s in
  ((if nonzero (Z.land (Z.shiftr w bit) 1) then p256_mod_mul result base m else result),
   p256_mod_mul base base m).

Definition p256_mod_inv (a m : p256_int) : p256_int :=
  let exp := fst (p256_sub m (small 2)) in
  fst (foldl (fun s w => foldl (inv_bit m w) s shifts) (small 1, a) exp).

(** * Values *)

Fixpoint val (l : list Z) : Z :=
  match l with [] => 0 | x :: l' => x + 2 ^ 32 * val l' end.

Definition words (l : list Z) : Prop := Forall (fun x => 0 <= x < 2 ^ 32) l.

(** [2 ^ (32 * n)] *)
Definition pw (n : nat) : Z := 2 ^ (32 * Z.of_nat n).

Lemma pw_S n : pw (S n) = 2 ^ 32 * pw n.
Proof. unfold pw. rewrite <- Z.pow_add_r by lia. f_equal. lia. Qed.
Lemma pw_pos n : 0 < pw n.
Proof. apply Z.pow_pos_nonneg; lia. Qed.

Lemma val_bound l : words l -> 0 <= val l < pw (length l).
Proof.
  induction 1 as [|x l Hx Hl IH]; [done|]. cbn [val length]. rewrite pw_S. lia.
Qed.

Lemma val_app a b : val (a ++ b) = val a + pw (length a) * val b.
Proof.
  induction a as [|x a IH]; cbn [app val length]; [unfold pw; lia|]. rewrite IH, pw_S. lia.
Qed.

Lemma val_zeros n : val (replicate n 0) = 0.
Proof. induction n as [|n IH]; [done|]. cbn [replicate val]. lia. Qed.

Lemma words_zeros n : words (replicate n 0).
Proof. apply Forall_replicate. lia. Qed.

(** A number of the type [p256_int_t]. *)
Definition wf (a : p256_int) : Prop := words a /\ length a = P256_WORDS.

Lemma wf_bound a : wf a -> 0 <= val a < 2 ^ 256.
Proof. intros [Hw Hl]. pose proof (val_bound a Hw) as H. by rewrite Hl in H. Qed.

Lemma wf_small v : 0 <= v < 2 ^ 32 -> wf (small v) /\ val (small v) = v.
Proof.
  intros Hv. split; [split; [constructor; [done|apply words_zeros]|done]|].
  unfold small. cbn [val]. rewrite val_zeros. lia.
Qed.

(** * Addition, subtraction, comparison *)

Lemma add_words_ok a : forall b c,
  words a -> words b -> length a = length b -> 0 <= c <= 1 ->
  let '(r, c') := add_words a b c in
  words r /\ length r = length a /\ 0 <= c' <= 1 /\ val r + pw (length a) * c' = val a + val b + c.
Proof.
  induction a as [|x a IH]; intros [|y b] c Ha Hb Hl Hc; try done.
  { simpl. split_and!; try done; try lia. unfold pw. lia. }
  apply Forall_cons in Ha as [Hx Ha]. apply Forall_cons in Hb as [Hy Hb]. injection Hl as Hl.
  cbn [add_words]. rewrite u64_small by lia. rewrite Z.shiftr_div_pow2 by lia.
  assert (0 <= (x + y + c) / 2 ^ 32 <= 1) as Hc' by (Z.div_mod_to_equations; lia).
  specialize (IH b _ Ha Hb Hl Hc'). destruct (add_words a b _) as [r c'].
  destruct IH as (Hr & Hlr & Hcr & Hv). cbn [val length]. rewrite pw_S, Hlr.
  split_and!; [|done|lia..|].
  - constructor; [|done]. u_lia.
  - assert (x + y + c = u32 (x + y + c) + 2 ^ 32 * ((x + y + c) / 2 ^ 32)) as E
      by (unfold u32; Z.div_mod_to_equations; lia). lia.
Qed.

Lemma sub_step x y c :
  0 <= x < 2 ^ 32 -> 0 <= y < 2 ^ 32 -> 0 <= c <= 1 ->
  let d := u64 (x - y - c) in
  let c' := Z.land (Z.shiftr d 32) 1 in
  0 <= u32 d < 2 ^ 32 /\ 0 <= c' <= 1 /\ u32 d - 2 ^ 32 * c' = x - y - c.
Proof.
  intros Hx Hy Hc d c'.
  assert (c' = d / 2 ^ 32 mod 2) as ->.
  { unfold c'. change 1 with (Z.ones 1). rewrite Z.land_ones by lia. by rewrite Z.shiftr_div_pow2 by lia. }
  assert (d = x - y - c \/ x - y - c < 0 /\ d = x - y - c + 2 ^ 64) as Hd by (unfold d; u_lia).
  clearbody d. unfold u32. Z.div_mod_to_equations. lia.
Qed.

Lemma sub_words_ok a : forall b c,
  words a -> words b -> length a = length b -> 0 <= c <= 1 ->
  let '(r, c') := sub_words a b c in
  words r /\ length r = length a /\ 0 <= c' <= 1 /\ val r - pw (length a) * c' = val a - val b - c.
Proof.
  induction a as [|x a IH]; intros [|y b] c Ha Hb Hl Hc; try done.
  { simpl. split_and!; try done; try lia. unfold pw. lia. }
  apply Forall_cons in Ha as [Hx Ha]. apply Forall_cons in Hb as [Hy Hb]. injection Hl as Hl.
  cbn [sub_words]. destruct (sub_step x y c Hx Hy Hc) as (Hd & Hc' & E).
  set (d := u64 (x - y - c)) in *. set (c1 := Z.land _ 1) in *.
  specialize (IH b c1 Ha Hb Hl Hc'). destruct (sub_words a b c1) as [r c'].
  destruct IH as (Hr & Hlr & Hcr & Hv). cbn [val length]. rewrite pw_S, Hlr.
  split_and!; [by constructor|done|lia..].
Qed.

Lemma p256_add_ok a b : wf a -> wf b ->
  let '(r, c) := p256_add a b in
  wf r /\ 0 <= c <= 1 /\ val r + 2 ^ 256 * c = val a + val b.
Proof.
  intros [Ha La] [Hb Lb]. unfold p256_add. pose proof (add_words_ok a b 0 Ha Hb ltac:(congruence) ltac:(lia)) as H.
  destruct (add_words a b 0) as [r c]. destruct H as (Hr & Hl & Hc & Hv).
  rewrite u32_small by lia. rewrite La in *. change (pw P256_WORDS) with (2 ^ 256) in Hv.
  split_and!; done || lia.
Qed.

Lemma p256_sub_ok a b : wf a -> wf b ->
  let '(r, c) := p256_sub a b in
  wf r /\ 0 <= c <= 1 /\ val r - 2 ^ 256 * c = val a - val b.
Proof.
  intros [Ha La] [Hb Lb]. unfold p256_sub. pose proof (sub_words_ok a b 0 Ha Hb ltac:(congruence) ltac:(lia)) as H.
  destruct (sub_words a b 0) as [r c]. destruct H as (Hr & Hl & Hc & Hv).
  rewrite u32_small by lia. rewrite La in *. change (pw P256_WORDS) with (2 ^ 256) in Hv.
  split_and!; done || lia.
Qed.

Lemma cmp_words_ok a : forall b,
  words a -> words b -> length a = length b ->
  cmp_words (rev a) (rev b) = match val a ?= val b with Lt => -1 | Eq => 0 | Gt => 1 end.
Proof.
  induction a as [|x a IH] using rev_ind; intros b Ha Hb Hl.
  { destruct b; [done|simpl in Hl; lia]. }
  destruct b as [|y b _] using rev_ind; [rewrite length_app in Hl; simpl in Hl; lia|].
  rewrite !length_app in Hl. simpl in Hl. assert (length a = length b) as Hl' by lia.
  apply Forall_app in Ha as [Ha Hx], Hb as [Hb Hy].
  apply Forall_singleton in Hx. apply Forall_singleton in Hy.
  rewrite !rev_app_distr. cbn [rev app cmp_words].
  pose proof (val_bound a Ha) as Ba. pose proof (val_bound b Hb) as Bb.
  rewrite !val_app. cbn [val]. rewrite Hl' in *. rewrite !Z.mul_0_r, !Z.add_0_r.
  destruct (Z.ltb_spec y x).
  - symmetry. rewrite (proj2 (Z.compare_gt_iff _ _)); [done|nia].
  - destruct (Z.ltb_spec x y).
    + rewrite (proj2 (Z.compare_lt_iff _ _)); [done|nia].
    + assert (x = y) as -> by lia. rewrite IH by done.
      by rewrite !(Z.add_comm (val _)), Z.add_compare_mono_l.
Qed.

Lemma p256_int_cmp_ok a b : wf a -> wf b ->
  p256_int_cmp a b = match val a ?= val b with Lt => -1 | Eq => 0 | Gt => 1 end.
Proof. intros [Ha La] [Hb Lb]. apply cmp_words_ok; congruence. Qed.

Lemma cmp_ge a b : wf a -> wf b -> (0 <=? p256_int_cmp a b) = (val b <=? val a).
Proof.
  intros Ha Hb. rewrite p256_int_cmp_ok by done. unfold Z.leb. rewrite (Z.compare_antisym (val a) (val b)).
  by destruct (val a ?= val b).
Qed.

Lemma p256_int_is_zero_ok a : wf a -> p256_int_is_zero a = (val a =? 0).
Proof.
  intros [Ha _]. unfold p256_int_is_zero. induction Ha as [|x a Hx Ha IH]; [done|].
  cbn [forallb val]. rewrite IH. pose proof (val_bound a Ha).
  destruct (Z.eqb_spec x 0), (Z.eqb_spec (val a) 0), (Z.eqb_spec (x + 2 ^ 32 * val a) 0); try done; lia.
Qed.

(** * Modular addition and subtraction *)

(** A value below twice the modulus, given as a word vector and a carry. *)
Lemma reduce_once_ok r c m :
  wf r -> wf m -> 0 <= c <= 1 -> val r + 2 ^ 256 * c < 2 * val m ->
  wf (reduce_once (r, c) m) /\ val (reduce_once (r, c) m) = (val r + 2 ^ 256 * c) mod val m.
Proof.
  intros Hr Hm Hc Hlt. pose proof (wf_bound r Hr). pose proof (wf_bound m Hm).
  unfold reduce_once, nonzero. cbn [fst snd]. rewrite cmp_ge by done.
  pose proof (p256_sub_ok r m Hr Hm) as Hs. destruct (p256_sub r m) as [d bo]. cbn [fst].
  destruct Hs as (Hd & Hbo & Hv). pose proof (wf_bound d Hd).
  assert (c = 0 \/ c = 1) as [-> | ->] by lia; cbn [Z.eqb negb orb].
  - destruct (Z.leb_spec (val m) (val r)); split; try done.
    + apply Z.mod_unique with 1; lia.
    + symmetry. rewrite Z.mul_0_r, Z.add_0_r. apply Z.mod_small. lia.
  - split; [done|]. apply Z.mod_unique with 1; lia.
Qed.

Lemma p256_mod_add_ok a b m :
  wf a -> wf b -> wf m -> val a < val m -> val b < val m ->
  wf (p256_mod_add a b m) /\ val (p256_mod_add a b m) = (val a + val b) mod val m.
Proof.
  intros Ha Hb Hm La Lb. unfold p256_mod_add. pose proof (p256_add_ok a b Ha Hb) as H.
  destruct (p256_add a b) as [r c]. destruct H as (Hr & Hc & Hv). rewrite <- Hv.
  apply reduce_once_ok; try done. lia.
Qed.

Lemma p256_mod_sub_ok a b m :
  wf a -> wf b -> wf m -> val a < val m -> val b < val m ->
  wf (p256_mod_sub a b m) /\ val (p256_mod_sub a b m) = (val a - val b) mod val m.
Proof.
  intros Ha Hb Hm La Lb. unfold p256_mod_sub. pose proof (p256_sub_ok a b Ha Hb) as H.
  destruct (p256_sub a b) as [t bo]. destruct H as (Ht & Hbo & Hv).
  pose proof (wf_bound a Ha). pose proof (wf_bound b Hb). pose proof (wf_bound t Ht).
  pose proof (p256_add_ok t m Ht Hm) as Hs. destruct (p256_add t m) as [d c]. cbn [fst].
  destruct Hs as (Hd & Hc & Hvd). pose proof (wf_bound d Hd). pose proof (wf_bound m Hm).
  assert (bo = 0 \/ bo = 1) as [-> | ->] by lia; unfold nonzero; cbn [Z.eqb negb].
  - split; [done|]. symmetry. rewrite Z.mod_small; lia.
  - split; [done|]. apply Z.mod_unique with (-1); lia.
Qed.

(** * Multiplication *)

Lemma mul_row_ok x b : forall r1 rest c,
  0 <= x < 2 ^ 32 -> words b -> words r1 -> length r1 = length b -> 0 <= c < 2 ^ 32 ->
  exists r2, mul_row x b (r1 ++ 0 :: rest) c = r2 ++ rest /\ words r2 /\ length r2 = S (length b) /\
             val r2 = val r1 + x * val b + c.
Proof.
  induction b as [|y b IH]; intros [|r r1] rest c Hx Hb Hr Hl Hc; try done.
  { exists [c]. cbn. rewrite u32_small by lia. split_and!; try done; [by constructor|lia]. }
  apply Forall_cons in Hb as [Hy Hb]. apply Forall_cons in Hr as [Hr Hr1]. injection Hl as Hl.
  cbn [mul_row app]. assert (0 <= r + x * y + c < 2 ^ 64) as Hp by nia.
  rewrite u64_small by done. rewrite Z.shiftr_div_pow2 by lia.
  set (p := r + x * y + c) in *. assert (0 <= p / 2 ^ 32 < 2 ^ 32) as Hq by (Z.div_mod_to_equations; lia).
  destruct (IH r1 rest (p / 2 ^ 32) Hx Hb Hr1 Hl Hq) as (r2 & -> & Hw & Hl2 & Hv).
  exists (u32 p :: r2). cbn [app length val]. split_and!; [done| |by rewrite Hl2|].
  - constructor; [u_lia|done].
  - rewrite Hv. assert (p = u32 p + 2 ^ 32 * (p / 2 ^ 32)) as E by (unfold u32; Z.div_mod_to_equations; lia).
    unfold p in E at 1. lia.
Qed.

Lemma mul_rows_ok b : words b -> forall a r1,
  words a -> words r1 -> length r1 = length b ->
  let l := mul_rows a b (r1 ++ replicate (length a) 0) in
  words l /\ length l = (length a + length b)%nat /\ val l = val r1 + val a * val b.
Proof.
  intros Hb. induction a as [|x a IH]; intros r1 Ha Hr Hl; cbn [mul_rows length replicate].
  { rewrite app_nil_r. split_and!; [done|done|simpl; lia]. }
  apply Forall_cons in Ha as [Hx Ha].
  destruct (mul_row_ok x b r1 (replicate (length a) 0) 0 Hx Hb Hr Hl ltac:(lia)) as (r2 & -> & Hw & Hl2 & Hv).
  destruct r2 as [|r r2]; [done|]. cbn [app]. apply Forall_cons in Hw as [Hr0 Hw]. injection Hl2 as Hl2.
  destruct (IH r2 Ha Hw Hl2) as (Hw' & Hl' & Hv'). cbn [val length] in *.
  split_and!; [by constructor|by rewrite Hl'|]. rewrite Hv'. lia.
Qed.

Lemma product_ok a b : wf a -> wf b -> words (product a b) /\ val (product a b) = val a * val b.
Proof.
  intros [Ha La] [Hb Lb]. unfold product.
  replace (replicate (2 * P256_WORDS) 0) with (replicate P256_WORDS 0 ++ replicate (length a) 0)
    by (rewrite La; done).
  destruct (mul_rows_ok b Hb a (replicate P256_WORDS 0) Ha (words_zeros _) ltac:(by rewrite length_replicate))
    as (H1 & _ & H2). split; [done|]. rewrite H2, val_zeros. lia.
Qed.

(** * Reduction *)

Section Reduction.
Context (m : p256_int) (Hm : wf m) (Hpos : 0 < val m).

Lemma reduce_bit_ok w r s :
  wf r -> val r < val m -> 0 <= w -> 0 <= s <= 31 ->
  wf (reduce_bit m w r s) /\
  val (reduce_bit m w r s) = (2 * val r + w / 2 ^ (31 - s) mod 2) mod val m.
Proof.
  intros Hr Hlt Hw Hs. unfold reduce_bit. pose proof (wf_bound r Hr).
  pose proof (p256_add_ok r r Hr Hr) as H1. destruct (p256_add r r) as [t c].
  destruct H1 as (Ht & Hc & Hv). destruct (reduce_once_ok t c m Ht Hm Hc) as [Hr1 Hv1]; [lia|].
  set (r1 := reduce_once (t, c) m) in *. rewrite Hv in Hv1.
  assert (Z.land (Z.shiftr w (31 - s)) 1 = w / 2 ^ (31 - s) mod 2) as ->.
  { change 1 with (Z.ones 1). rewrite Z.land_ones, Z.shiftr_div_pow2 by lia. done. }
  set (bit := w / 2 ^ (31 - s) mod 2). assert (0 <= bit < 2) as Hbit by (apply Z.mod_pos_bound; lia).
  unfold nonzero. pose proof (Z.mod_pos_bound (val r + val r) (val m) Hpos).
  destruct (Z.eqb_spec bit 0) as [E|E]; cbn [negb].
  - split; [done|]. rewrite Hv1, E. f_equal. lia.
  - destruct (wf_small 1 ltac:(lia)) as [H1 V1].
    pose proof (p256_add_ok r1 (small 1) Hr1 H1) as Ha. destruct (p256_add r1 (small 1)) as [t2 c2].
    destruct Ha as (Ht2 & Hc2 & Hv2).
    destruct (reduce_once_ok t2 c2 m Ht2 Hm Hc2) as [Hr2 Hw2].
    { rewrite Hv2, V1, Hv1. lia. }
    split; [done|]. rewrite Hw2, Hv2, V1, Hv1. rewrite Zplus_mod_idemp_l. f_equal. lia.
Qed.

Lemma reduce_bits_ok w R : 0 <= w < 2 ^ 32 -> forall n k r,
  (k + n = 32)%nat -> wf r -> val r = (R * 2 ^ Z.of_nat k + w / 2 ^ (32 - Z.of_nat k)) mod val m ->
  let r' := foldl (reduce_bit m w) r (map Z.of_nat (seq k n)) in
  wf r' /\ val r' = (R * 2 ^ 32 + w) mod val m.
Proof.
  intros Hw. induction n as [|n IH]; intros k r Hk Hr Hv; cbn [seq map foldl].
  { split; [done|]. rewrite Hv. replace k with 32%nat by lia. f_equal. rewrite Z.div_1_r. lia. }
  pose proof (Z.mod_pos_bound (R * 2 ^ Z.of_nat k + w / 2 ^ (32 - Z.of_nat k)) (val m) Hpos).
  destruct (reduce_bit_ok w r (Z.of_nat k) Hr ltac:(lia) ltac:(lia) ltac:(lia)) as [Hr' Hv'].
  apply IH; [lia|done|]. rewrite Hv', Hv.
  rewrite <- (Zplus_mod_idemp_l (2 * _)), Zmult_mod_idemp_r, Zplus_mod_idemp_l. f_equal.
  replace (32 - Z.of_nat k) with (Z.succ (31 - Z.of_nat k)) by lia.
  replace (32 - Z.of_nat (S k)) with (31 - Z.of_nat k) by lia.
  rewrite Z.pow_succ_r, Nat2Z.inj_succ, Z.pow_succ_r by lia. rewrite (Z.mul_comm 2 (2 ^ (31 - _))).
  rewrite <- Z.div_div by (try apply Z.pow_nonzero; lia).
  pose proof (Z.div_mod (w / 2 ^ (31 - Z.of_nat k)) 2 ltac:(lia)). lia.
Qed.

Lemma reduce_word_ok w r :
  0 <= w < 2 ^ 32 -> wf r -> val r < val m ->
  wf (reduce_word m r w) /\ val (reduce_word m r w) = (val r * 2 ^ 32 + w) mod val m.
Proof.
  intros Hw Hr Hlt. apply (reduce_bits_ok w (val r) Hw 32 0 r); [lia|done|].
  pose proof (wf_bound r Hr). change (Z.of_nat 0) with 0. rewrite Z.sub_0_r, Z.div_small by lia.
  rewrite Z.mul_1_r, Z.add_0_r. symmetry. apply Z.mod_small. lia.
Qed.

Lemma reduce_words_ok l : words l ->
  let r := foldl (reduce_word m) p256_int_zero (rev l) in
  wf r /\ val r = val l mod val m.
Proof.
  induction 1 as [|x l Hx Hl IH].
  - split; [split; [apply words_zeros|done]|]. simpl rev. cbn [foldl]. unfold p256_int_zero. by rewrite val_zeros.
  - cbn [rev]. rewrite foldl_app. cbn [foldl]. destruct IH as [Hr Hv].
    set (r := foldl _ _ (rev l)) in *.
    pose proof (Z.mod_pos_bound (val l) (val m) Hpos).
    destruct (reduce_word_ok x r Hx Hr ltac:(lia)) as [Hr' Hv']. split; [done|].
    rewrite Hv', Hv. cbn [val]. rewrite <- Zplus_mod_idemp_l, Zmult_mod_idemp_l, Zplus_mod_idemp_l.
    f_equal. lia.
Qed.

Lemma p256_mod_mul_ok a b :
  wf a -> wf b ->
  wf (p256_mod_mul a b m) /\ val (p256_mod_mul a b m) = (val a * val b) mod val m.
Proof.
  intros Ha Hb. destruct (product_ok a b Ha Hb) as [Hw Hv]. rewrite <- Hv.
  by apply reduce_words_ok.
Qed.

(** * Inversion *)

Lemma inv_bits_ok w : 0 <= w -> forall n k r b,
  wf r -> wf b ->
  let '(r', b') := foldl (inv_bit m w) (r, b) (map Z.of_nat (seq k n)) in
  wf r' /\ wf b' /\ (val r < val m -> val r' < val m) /\
  val r' mod val m = (val r * val b ^ ((w / 2 ^ Z.of_nat k) mod 2 ^ Z.of_nat n)) mod val m /\
  val b' mod val m = (val b ^ (2 ^ Z.of_nat n)) mod val m.
Proof.
  intros Hw. induction n as [|n IH]; intros k r b Hr Hb; cbn [seq map foldl].
  { split_and!; try done; [|by rewrite Z.pow_1_r].
    change (2 ^ Z.of_nat 0) with 1. by rewrite Z.mod_1_r, Z.pow_0_r, Z.mul_1_r. }
  cbn [inv_bit].
  assert (Z.land (Z.shiftr w (Z.of_nat k)) 1 = (w / 2 ^ Z.of_nat k) mod 2) as ->.
  { change 1 with (Z.ones 1). rewrite Z.land_ones, Z.shiftr_div_pow2 by lia. done. }
  set (q := w / 2 ^ Z.of_nat k). assert (0 <= q) as Hq by (apply Z.div_pos; lia).
  destruct (p256_mod_mul_ok r b Hr Hb) as [Hrb Hvrb]. destruct (p256_mod_mul_ok b b Hb Hb) as [Hbb Hvbb].
  pose proof (Z.mod_pos_bound (val r * val b) (val m) Hpos).
  set (r1 := if nonzero _ then _ else _).
  assert (wf r1 /\ (val r < val m -> val r1 < val m) /\
          val r1 mod val m = (val r * val b ^ (q mod 2)) mod val m) as (Hr1 & Hlt1 & Hv1).
  { unfold r1, nonzero. pose proof (Z.mod_pos_bound q 2 ltac:(lia)).
    destruct (Z.eqb_spec (q mod 2) 0) as [->|E]; cbn [negb].
    - by rewrite Z.pow_0_r, Z.mul_1_r.
    - replace (q mod 2) with 1 by lia. rewrite Z.pow_1_r, Hvrb, Zmod_mod. split_and!; done || lia. }
  clearbody r1. specialize (IH (S k) r1 _ Hr1 Hbb).
  destruct (foldl (inv_bit m w) _ _) as [r' b']. destruct IH as (Hr' & Hb' & Hlt' & Hv' & Hvb').
  assert (w / 2 ^ Z.of_nat (S k) = q / 2) as Eq.
  { unfold q. rewrite Nat2Z.inj_succ, Z.pow_succ_r, Z.mul_comm by lia.
    rewrite Z.div_div by (try apply Z.pow_nonzero; lia). done. }
  rewrite Eq in Hv'. set (h := (q / 2) mod 2 ^ Z.of_nat n) in *.
  assert (0 <= h) as Hh by (apply Z.mod_pos_bound; apply Z.pow_pos_nonneg; lia).
  assert (forall e, 0 <= e -> val (p256_mod_mul b b m) ^ e mod val m = val b ^ (2 * e) mod val m) as Hsq.
  { intros e He. rewrite Hvbb, <- Zpower_mod by done. by rewrite Z.pow_mul_r, Z.pow_2_r by lia. }
  split_and!; [done|done|by auto| |].
  - rewrite Hv', Zmult_mod, Hsq, Hv1, <- Zmult_mod by done. f_equal.
    rewrite <- Z.mul_assoc, <- Z.pow_add_r by (pose proof (Z.mod_pos_bound q 2); lia). do 2 f_equal.
    unfold h. rewrite Nat2Z.inj_succ, Z.pow_succ_r by lia.
    rewrite (Z.rem_mul_r q 2 (2 ^ Z.of_nat n)) by (try apply Z.pow_nonzero; try apply Z.pow_pos_nonneg; lia). done.
  - rewrite Hvb', Hsq by (apply Z.pow_nonneg; lia). by rewrite Nat2Z.inj_succ, Z.pow_succ_r by lia.
Qed.

(** The base of the little-endian words. *)
Definition word_base : Z := Eval cbv in 2 ^ 32.
#[local] Opaque word_base.

(** One digit [w] of an exponent in base [B]. *)
Lemma pow_digit r r1 b1 w e B (b M : Z) :
  0 <= w -> 0 <= B -> 0 <= e ->
  r1 mod M = (r * b ^ w) mod M -> b1 mod M = b ^ B mod M ->
  (r1 * b1 ^ e) mod M = (r * b ^ (w + B * e)) mod M.
Proof.
  intros Hw HB He Hr Hb.
  rewrite Zmult_mod, Hr, <- (Z.mod_pow_l b1), Hb, Z.mod_pow_l, <- Zmult_mod.
  rewrite Z.pow_add_r, Z.pow_mul_r by nia. f_equal. ring.
Qed.

Lemma inv_words_ok e : words e -> forall r b,
  wf r -> wf b ->
  let '(r', _) := foldl (fun s w => foldl (inv_bit m w) s shifts) (r, b) e in
  wf r' /\ (val r < val m -> val r' < val m) /\
  val r' mod val m = (val r * val b ^ val e) mod val m.
Proof.
  induction 1 as [|w e Hw He IH]; intros r b Hr Hb; cbn [foldl].
  { split_and!; try done. cbn [val]. by rewrite Z.pow_0_r, Z.mul_1_r. }
  pose proof (inv_bits_ok w ltac:(lia) 32 0 r b Hr Hb) as Hbits. fold shifts in Hbits.
  rewrite Z.pow_0_r, Z.div_1_r in Hbits. change (2 ^ Z.of_nat 32) with word_base in Hbits.
  rewrite (Z.mod_small w word_base Hw) in Hbits.
  destruct (foldl (inv_bit m w) (r, b) shifts) as [r1 b1].
  destruct Hbits as (Hr1 & Hb1 & Hlt1 & Hv1 & Hvb1).
  specialize (IH r1 b1 Hr1 Hb1). destruct (foldl _ (r1, b1) e) as [r' b'].
  destruct IH as (Hr' & Hlt' & Hv'). split_and!; [done|by auto|].
  rewrite Hv'. cbn [val]. pose proof (val_bound e He).
  apply (pow_digit _ _ (val b1) w _ word_base); [apply Hw|done|apply H|exact Hv1|exact Hvb1].
Qed.

End Reduction.

Lemma p256_mod_inv_ok a m :
  wf a -> wf m -> 2 <= val m ->
  wf (p256_mod_inv a m) /\ val (p256_mod_inv a m) = (val a ^ (val m - 2)) mod val m.
Proof.
  intros Ha Hm H2. unfold p256_mod_inv. destruct (wf_small 2 ltac:(lia)) as [W2 V2].
  destruct (wf_small 1 ltac:(lia)) as [W1 V1].
  pose proof (p256_sub_ok m (small 2) Hm W2) as Hs. destruct (p256_sub m (small 2)) as [e bo].
  destruct Hs as (He & Hbo & Hve). cbn [fst]. pose proof (wf_bound e He). pose proof (wf_bound m Hm).
  assert (val e = val m - 2) as Ee by lia.
  pose proof (inv_words_ok m Hm ltac:(lia) e (proj1 He) (small 1) a W1 Ha) as Hinv.
  destruct (foldl _ (small 1, a) e) as [r b]. destruct Hinv as (Hr & Hlt & Hv). cbn [fst].
  split; [done|]. pose proof (wf_bound r Hr). rewrite V1, Z.mul_1_l, Ee in Hv.
  rewrite <- Hv, Z.mod_small by lia. done.
Qed.

(** * Byte strings *)

Lemma byte_word b0 b1 b2 b3 :
  0 <= b0 < 256 -> 0 <= b1 < 256 -> 0 <= b2 < 256 -> 0 <= b3 < 256 ->
  be_word b0 b1 b2 b3 = ((b0 * 256 + b1) * 256 + b2) * 256 + b3.
Proof.
  intros H0 H1 H2 H3. unfold be_word. rewrite !Z.shiftl_mul_pow2 by lia.
  replace (Z.lor (b0 * 2 ^ 24) (b1 * 2 ^ 16)) with ((b0 * 256 + b1) * 2 ^ 16).
  2:{ rewrite lor_add by lia. lia. }
  replace (Z.lor ((b0 * 256 + b1) * 2 ^ 16) (b2 * 2 ^ 8)) with (((b0 * 256 + b1) * 256 + b2) * 2 ^ 8).
  2:{ rewrite lor_add by lia. lia. }
  rewrite lor_add by lia. lia.
Qed.

Lemma word_to_bytes_eq w :
  word_to_bytes w = [w / 2 ^ 24 mod 256; w / 2 ^ 16 mod 256; w / 2 ^ 8 mod 256; w mod 256].
Proof.
  unfold word_to_bytes. change 255 with (Z.ones 8). by rewrite !Z.land_ones, !Z.shiftr_div_pow2 by lia.
Qed.

Notation bytes := (Forall (fun b => 0 <= b < 256)).

Lemma be_words_to_bytes l : words l -> be_words (concat (map word_to_bytes l)) = l.
Proof.
  induction 1 as [|w l Hw Hl IH]; [done|]. cbn [map concat]. rewrite word_to_bytes_eq. cbn [app be_words]. rewrite IH.
  f_equal. rewrite byte_word by (apply Z.mod_pos_bound; lia). Z.div_mod_to_equations; lia.
Qed.

Lemma be_words_bytes n : forall l, length l = (4 * n)%nat -> bytes l ->
  length (be_words l) = n /\ words (be_words l) /\ concat (map word_to_bytes (be_words l)) = l.
Proof.
  induction n as [|n IH]; intros l Hl Hb; [destruct l; [split_and!; by constructor|discriminate]|].
  destruct l as [|b0 [|b1 [|b2 [|b3 l]]]]; simpl in Hl; try lia. rewrite !Forall_cons in Hb.
  destruct Hb as (H0 & H1 & H2 & H3 & Hb). destruct (IH l ltac:(lia) Hb) as (IH1 & IH2 & IH3).
  cbn [be_words length map concat]. rewrite IH1, IH3, word_to_bytes_eq. rewrite byte_word by done. split_and!; [done| |].
  - constructor; [lia|done].
  - cbn [app]. repeat f_equal; Z.div_mod_to_equations; lia.
Qed.

(** The number a byte string spells, most significant byte first. *)
Definition be_number (l : list Z) : Z := foldl (fun a b => 256 * a + b) 0 l.

Lemma foldl_number l : forall a, foldl (fun a b => 256 * a + b) a l = a * 256 ^ Z.of_nat (length l) + be_number l.
Proof.
  unfold be_number. induction l as [|b l IH]; intros a; cbn [foldl length]; [simpl; lia|].
  rewrite IH, (IH (256 * 0 + b)), Nat2Z.inj_succ, Z.pow_succ_r by lia. lia.
Qed.

Lemma val_be_words n : forall l, length l = (4 * n)%nat -> bytes l -> val (rev (be_words l)) = be_number l.
Proof.
  induction n as [|n IH]; intros l Hl Hb; [by destruct l|].
  destruct l as [|b0 [|b1 [|b2 [|b3 l]]]]; simpl in Hl; try lia. rewrite !Forall_cons in Hb.
  destruct Hb as (H0 & H1 & H2 & H3 & Hb). cbn [be_words rev]. rewrite val_app, IH by (done || lia).
  destruct (be_words_bytes n l ltac:(lia) Hb) as (IH1 & _ & _). rewrite length_rev, IH1. cbn [val].
  rewrite byte_word by done. unfold be_number at 2. cbn [foldl]. rewrite foldl_number.
  assert (256 ^ Z.of_nat (length l) = pw n) as ->; [|lia].
  unfold pw. change 256 with (2 ^ 8). rewrite <- Z.pow_mul_r by lia. f_equal. lia.
Qed.

(** * Properties *)

(** The modular operations compute in Z/m: for operands in range, sum,
    difference and product are the ones of the integers modulo [m], and the
    results are again eight-word numbers. *)
Theorem p256_mod_arith a b m :
  wf a -> wf b -> wf m -> val a < val m -> val b < val m ->
  (wf (p256_mod_add a b m) /\ val (p256_mod_add a b m) = (val a + val b) mod val m) /\
  (wf (p256_mod_sub a b m) /\ val (p256_mod_sub a b m) = (val a - val b) mod val m) /\
  (wf (p256_mod_mul a b m) /\ val (p256_mod_mul a b m) = (val a * val b) mod val m).
Proof.
  intros Ha Hb Hm La Lb. pose proof (wf_bound a Ha). split_and!; try apply p256_mod_add_ok; try apply p256_mod_sub_ok;
    try (apply p256_mod_mul_ok); try done; lia.
Qed.

Lemma p256_mod_arith_witness :
  val (p256_mod_mul (small 5) (small 6) (small 7)) = (5 * 6) mod 7.
Proof.
  refine (proj2 (proj2 (proj2 (p256_mod_arith (small 5) (small 6) (small 7) _ _ _ _ _)))); try (apply wf_small; lia);
    vm_compute; reflexivity.
Defined.

(** Serialisation: 32 bytes give the number they spell big endian, and
    converting back and forth is the identity in both directions. *)
Theorem p256_bytes_roundtrip a b :
  wf a -> length b = 32%nat -> bytes b ->
  p256_int_from_bytes (p256_int_to_bytes a) = a /\
  wf (p256_int_from_bytes b) /\ val (p256_int_from_bytes b) = be_number b /\
  p256_int_to_bytes (p256_int_from_bytes b) = b.
Proof.
  intros [Ha La] Hl Hb. unfold p256_int_from_bytes, p256_int_to_bytes.
  rewrite (take_ge b) by (unfold P256_BYTES; lia). destruct (be_words_bytes 8 b Hl Hb) as (H1 & H2 & H3). split_and!.
  - rewrite take_ge.
    + by rewrite be_words_to_bytes, rev_involutive by by apply Forall_rev.
    + rewrite <- length_rev in La. revert La. generalize (rev a) as l. intros l Hl8.
      do 9 (destruct l as [|? l]; [try discriminate; cbn; unfold P256_BYTES; lia|]). discriminate.
  - split; [by apply Forall_rev|by rewrite length_rev].
  - by apply (val_be_words 8).
  - by rewrite rev_involutive.
Qed.

Lemma p256_bytes_roundtrip_witness :
  p256_int_from_bytes (p256_int_to_bytes (small 5)) = small 5.
Proof.
  refine (proj1 (p256_bytes_roundtrip (small 5) (replicate 32 1) _ eq_refl _)).
  - apply wf_small. lia.
  - apply Forall_replicate. lia.
Defined.

End P256.
