(* ===== verification/P256Prime.v ===== *)
(** Two facts about the curve that src/ecdsa.c relies on; no code is modelled here.

    The field prime of P-256 is a prime (p256_mod_inv computes inverses by
    Fermat's little theorem): Pocklington's criterion, with the chain of
    certificates that ends in primes small enough for trial division.  And the
    curve has no point with y = 0 (p256_point_double divides by 2 y). *)
From Stdlib Require Import ZArith Znumtheory Zpow_facts Zmod Lia List Bool.
From S2P Require Import Prelude.
Import ListNotations.
Open Scope Z_scope.

Module P256Prime.

(** * Powers modulo [n] *)

(** Square and multiply, with a function that replaces a number by a congruent one. *)
Fixpoint pow_red (red : Z -> Z) (a : Z) (e : positive) : Z :=
  match e with
  | xH => a
  | xO e => let s := pow_red red a e in red (s * s)
  | xI e => let s := pow_red red a e in red (red (s * s) * a)
  end.

Lemma pow_red_ok red n a e :
  (forall x, red x mod n = x mod n) -> pow_red red a e mod n = a ^ Zpos e mod n.
Proof.
  intros Hred. assert (forall x y, x mod n = y mod n -> x * x mod n = y * y mod n) as Hsq.
  { intros x y E. now rewrite Zmult_mod, E, <- Zmult_mod. }
  induction e as [e IH|e IH|]; cbn [pow_red].
  - rewrite Hred, Zmult_mod, Hred, (Hsq _ _ IH), <- Zmult_mod. f_equal.
    rewrite Pos2Z.inj_xI, Z.pow_add_r, Z.pow_1_r, Z.mul_comm, Z.pow_twice_r by lia. ring.
  - rewrite Hred, (Hsq _ _ IH). f_equal. now rewrite Pos2Z.inj_xO, Z.pow_twice_r.
  - now rewrite Z.pow_1_r.
Qed.

(** * Pocklington's criterion *)

(** One prime factor [q] with its cofactor [k] and the inverse [u] of [a ^ k - 1]. *)
Definition check (red : Z -> Z) (n a : Z) (q k : positive) (u : Z) : bool :=
  let b := pow_red red a k in
  (pow_red red b q mod n =? 1) && ((b - 1) * u mod n =? 1).

Lemma mod_factor n r x y : (r | n) -> x mod n = y mod n -> x mod r = y mod r.
Proof. intros Hd E. now rewrite <- (Z.mod_mod_divide x n r Hd), E, Z.mod_mod_divide. Qed.

(** [b] is 1 modulo [r] when [b ^ q] and [b ^ (r - 1)] are, for coprime exponents. *)
Lemma coprime_powers r b q :
  1 < r -> 0 < q -> Z.coprime q (r - 1) ->
  b ^ q mod r = 1 -> b ^ (r - 1) mod r = 1 -> b mod r = 1.
Proof.
  intros Hr Hq Hco Hbq Hbr. destruct (Z.gcd_bezout _ _ _ Hco) as (x & y & Hxy).
  pose (m := r - 1). pose (u := x mod m + m). assert (0 < m) by (unfold m; lia).
  assert (exists w, 0 <= w /\ u * q = 1 + w * m) as (w & Hw & E).
  { pose proof (Z.mod_pos_bound x m ltac:(lia)). pose proof (Z.div_mod x m ltac:(lia)).
    assert (u * q = 1 + (q - y - (x / m) * q) * m) as E.
    { unfold u. replace (x mod m) with (x - m * (x / m)) by lia. fold m in Hxy. nia. }
    eexists. split; [|exact E]. assert (1 <= u * q) by (unfold u; nia). nia. }
  assert (b * (b ^ m) ^ w = (b ^ q) ^ u) as Epow.
  { rewrite <- !Z.pow_mul_r, (Z.mul_comm q u), E, Z.pow_add_r, Z.pow_1_r by nia. now rewrite Z.mul_comm with (n := m). }
  apply (f_equal (fun z => z mod r)) in Epow.
  rewrite Zmult_mod, <- (Z.mod_pow_l (b ^ m)), <- (Z.mod_pow_l (b ^ q)) in Epow.
  fold m in Hbr. rewrite Hbr, Hbq, !Z.pow_1_l in Epow by (unfold u in *; nia).
  now rewrite (Z.mod_small 1 r), Z.mul_1_r, Z.mod_mod in Epow by lia.
Qed.

Lemma check_divides red n a q k u r :
  1 < n -> (forall x, red x mod n = x mod n) -> check red n a q k u = true ->
  Z.prime (Zpos q) -> Z.prime r -> (r | n) -> (Zpos q | r - 1).
Proof.
  intros Hn Hred Hc Hq Hr Hd. unfold check in Hc. set (b := pow_red red a k) in Hc.
  apply andb_prop in Hc as [H1%Z.eqb_eq H2%Z.eqb_eq]. rewrite (pow_red_ok red n b q Hred) in H1.
  pose proof (Z.prime_ge_2 r Hr) as Hr2.
  assert (forall z, z mod n = 1 -> z mod r = 1) as Hone.
  { intros z Hz. rewrite (mod_factor n r z 1 Hd); [apply Z.mod_small; lia|]. rewrite Hz. symmetry. apply Z.mod_small. lia. }
  apply Hone in H1, H2.
  destruct (Z.eq_dec ((r - 1) mod Zpos q) 0) as [H0|Hnd]; [now apply Z.mod_divide|exfalso].
  assert (b mod r = 1) as Hb1.
  { apply (coprime_powers r b (Zpos q)); [lia..| |assumption|].
    - apply Z.coprime_prime_l; [assumption|]. now rewrite <- Z.mod_divide.
    - apply Z.fermat_nz; [assumption|]. intros H0. rewrite <- Z.mod_pow_l, H0, Z.pow_0_l in H1 by lia.
      now rewrite Z.mod_0_l in H1 by lia. }
  rewrite Zmult_mod, Zminus_mod, Hb1, (Z.mod_small 1 r) in H2 by lia. now rewrite Z.mod_0_l in H2 by lia.
Qed.

(** A number that is not prime has a prime divisor up to its square root. *)
Lemma prime_divisor n : 1 < n -> exists r, Z.prime r /\ (r | n).
Proof.
  induction n as [n IH] using (well_founded_induction (Z.lt_wf 0)). intros Hn.
  destruct (prime_dec n) as [Hp|Hp]; [exists n; split; [now apply prime_alt|apply Z.divide_refl]|].
  destruct (not_prime_divide n Hn Hp) as (d & Hd & Hdn).
  destruct (IH d ltac:(lia) ltac:(lia)) as (r & Hr & Hrd). exists r. split; [assumption|].
  now apply Z.divide_trans with d.
Qed.

Lemma small_divisor n : 1 < n -> ~ Z.prime n -> exists r, Z.prime r /\ (r | n) /\ r * r <= n.
Proof.
  intros Hn Hp. rewrite prime_alt in Hp. destruct (not_prime_divide n Hn Hp) as (d & Hd & [e He]).
  assert (1 < e) by nia.
  assert (exists f, 1 < f /\ (f | n) /\ f * f <= n) as (f & Hf & Hfn & Hff).
  { destruct (Z_le_gt_dec d e); [exists d|exists e]; (split; [lia|]); (split; [|nia]).
    - now exists e.
    - exists d. lia. }
  destruct (prime_divisor f Hf) as (r & Hr & Hrf). exists r. split; [assumption|].
  pose proof (Z.prime_ge_2 r Hr). apply (Z.divide_pos_le r f) in Hrf as Hle; [|lia].
  split; [now apply Z.divide_trans with f|nia].
Qed.

Lemma pocklington red n a q k u :
  1 < n -> (forall x, red x mod n = x mod n) -> n <= Zpos q * Zpos q ->
  Z.prime (Zpos q) -> check red n a q k u = true -> Z.prime n.
Proof.
  intros Hn Hred Hle Hq Hc. destruct (prime_dec n) as [Hp|Hp]; [now apply prime_alt|exfalso].
  rewrite <- prime_alt in Hp. destruct (small_divisor n Hn Hp) as (r & Hr & Hd & Hrr).
  pose proof (check_divides red n a q k u r Hn Hred Hc Hq Hr Hd) as Hqr. pose proof (Z.prime_ge_2 r Hr).
  apply Z.divide_pos_le in Hqr; [|lia]. nia.
Qed.

Lemma pocklington2 red n a q1 k1 u1 q2 k2 u2 :
  1 < n -> (forall x, red x mod n = x mod n) ->
  n <= (Zpos q1 * Zpos q2) * (Zpos q1 * Zpos q2) -> q1 <> q2 ->
  Z.prime (Zpos q1) -> Z.prime (Zpos q2) ->
  check red n a q1 k1 u1 = true -> check red n a q2 k2 u2 = true -> Z.prime n.
Proof.
  intros Hn Hred Hle Hne Hq1 Hq2 Hc1 Hc2.
  destruct (prime_dec n) as [Hp|Hp]; [now apply prime_alt|exfalso].
  rewrite <- prime_alt in Hp. destruct (small_divisor n Hn Hp) as (r & Hr & Hd & Hrr).
  pose proof (check_divides _ _ _ _ _ _ r Hn Hred Hc1 Hq1 Hr Hd) as H1.
  pose proof (check_divides _ _ _ _ _ _ r Hn Hred Hc2 Hq2 Hr Hd) as [x Hx].
  pose proof (Z.prime_ge_2 r Hr). rewrite Hx in H1. apply Z.divide_prime_mul in H1; [|assumption].
  destruct H1 as [[y Hy]|H1].
  - assert (r - 1 = y * (Zpos q1 * Zpos q2)) as E by (rewrite Hx, Hy; ring).
    set (q := Zpos q1 * Zpos q2) in *. assert (0 < q) by (unfold q; lia). assert (1 <= y) by nia.
    assert (q < r) by nia. assert (q * q < r * r) by (apply Z.mul_lt_mono_nonneg; lia). lia.
  - apply Z.divide_prime_prime in H1; [congruence|assumption..].
Qed.

(** Trial division. *)
Lemma trial n :
  1 < n -> forallb (fun d => negb (n mod Z.of_nat d =? 0)) (seq 2 (Z.to_nat (Z.sqrt n) - 1)) = true ->
  Z.prime n.
Proof.
  intros Hn Ht. destruct (prime_dec n) as [Hp|Hp]; [now apply prime_alt|exfalso].
  rewrite <- prime_alt in Hp. destruct (small_divisor n Hn Hp) as (r & Hr & Hd & Hrr).
  pose proof (Z.prime_ge_2 r Hr). apply Z.sqrt_le_square in Hrr; [|lia..].
  rewrite forallb_forall in Ht. specialize (Ht (Z.to_nat r)). rewrite Z2Nat.id in Ht by lia.
  apply Z.mod_divide in Hd; [|lia]. rewrite Hd in Ht. discriminate Ht. apply in_seq. lia.
Qed.

(** * The certificates *)

Lemma prime_313 : Z.prime 313.
Proof. now apply trial. Qed.

Lemma prime_5 : Z.prime 5.
Proof. now apply trial. Qed.

Lemma prime_704251 : Z.prime 704251.
Proof.
  apply (pocklington2 (fun x => x mod 704251) _ 2
    313 2250 512127
    5 140850 306580);
    [reflexivity|intros; now apply Z.mod_mod|now vm_compute|now vm_compute|apply prime_313|apply prime_5|vm_compute; reflexivity..].
Qed.

Lemma prime_4349 : Z.prime 4349.
Proof. now apply trial. Qed.

Lemma prime_78283 : Z.prime 78283.
Proof.
  apply (pocklington (fun x => x mod 78283) _ 2 4349 18
    45308);
    [reflexivity|intros; now apply Z.mod_mod|now vm_compute|apply prime_4349|vm_compute; reflexivity].
Qed.

Lemma prime_46076956964474543 : Z.prime 46076956964474543.
Proof.
  apply (pocklington2 (fun x => x mod 46076956964474543) _ 2
    704251 65426896042 14499061334772664
    78283 588594675274 41560644167870315);
    [reflexivity|intros; now apply Z.mod_mod|now vm_compute|now vm_compute|apply prime_704251|apply prime_78283|vm_compute; reflexivity..].
Qed.

Lemma prime_3677 : Z.prime 3677.
Proof. now apply trial. Qed.

Lemma prime_197 : Z.prime 197.
Proof. now apply trial. Qed.

Lemma prime_66417393611 : Z.prime 66417393611.
Proof.
  apply (pocklington2 (fun x => x mod 66417393611) _ 2
    3677 18062930 49445954925
    197 337144130 51215684949);
    [reflexivity|intros; now apply Z.mod_mod|now vm_compute|now vm_compute|apply prime_3677|apply prime_197|vm_compute; reflexivity..].
Qed.

Lemma prime_11290956913871 : Z.prime 11290956913871.
Proof.
  apply (pocklington (fun x => x mod 11290956913871) _ 2 66417393611 170
    4247528171144);
    [reflexivity|intros; now apply Z.mod_mod|now vm_compute|apply prime_66417393611|vm_compute; reflexivity].
Qed.

Lemma prime_150bit : Z.prime 774023187263532362759620327192479577272145303.
Proof.
  apply (pocklington2 (fun x => x mod 774023187263532362759620327192479577272145303) _ 2
    46076956964474543 16798487535978261528513091914 632032488684931311808149900400938671518447982
    11290956913871 68552487904071337216976429044362 320823578353898442153005187681585320549721256);
    [reflexivity|intros; now apply Z.mod_mod|now vm_compute|now vm_compute|apply prime_46076956964474543|apply prime_11290956913871|vm_compute; reflexivity..].
Qed.

Lemma prime_160bit : Z.prime 835945042244614951780389953367877943453916927241.
Proof.
  apply (pocklington (fun x => x mod 835945042244614951780389953367877943453916927241) _ 2 774023187263532362759620327192479577272145303 1080
    829816007257442285709994915664332448456883264405);
    [reflexivity|intros; now apply Z.mod_mod|now vm_compute|apply prime_150bit|vm_compute; reflexivity].
Qed.

(** The field prime, as the polynomial in [2 ^ 32] that makes reduction a sum of
    shifted copies of the high half. *)
Definition field_prime : Z := 2 ^ 256 - 2 ^ 224 + 2 ^ 192 + 2 ^ 96 - 1.

Definition fold_high (x : Z) : Z :=
  let hi := Z.shiftr x 256 in
  Z.land x (Z.ones 256) + (Z.shiftl hi 224 - Z.shiftl hi 192 - Z.shiftl hi 96 + hi).

Definition solinas (x : Z) : Z := Nat.iter 9 fold_high x.

Lemma fold_high_ok x : fold_high x mod field_prime = x mod field_prime.
Proof.
  unfold fold_high. rewrite Z.land_ones, Z.shiftr_div_pow2, !Z.shiftl_mul_pow2 by lia.
  pose proof (Z.div_mod x (2 ^ 256) ltac:(lia)) as E. set (hi := x / 2 ^ 256) in *.
  replace (_ + _) with (x + (- hi) * field_prime) by (unfold field_prime; lia). apply Z_mod_plus_full.
Qed.

Lemma solinas_ok x : solinas x mod field_prime = x mod field_prime.
Proof. unfold solinas. generalize 9%nat. induction n as [|n IH]; [reflexivity|]. cbn. now rewrite fold_high_ok. Qed.

Lemma prime_field_prime : Z.prime field_prime.
Proof.
  apply (pocklington solinas _ 2 835945042244614951780389953367877943453916927241
    138516389665330497628477975950
    35893950584104763925847036954507472337811148100266109799856099637894785463246);
    [reflexivity|apply solinas_ok|now vm_compute|apply prime_160bit|vm_compute; reflexivity].
Qed.

(** * The curve has no point of order two

    The polynomial x^3 - 3x + b has no root modulo the field prime: with a root r
    and u + 1/u = r, the cube of u would be one of the two solutions of
    C^2 + bC + 1 = 0, and their power (p - 1) / 3 is not 1. *)

Definition curve_b : Z := 0x5AC635D8AA3A93E7B3EBBD55769886BC651D06B0CC53B0F63BCE3C3E27D2604B.

(** A square root of [curve_b ^ 2 - 4] and the inverse of 2. *)
Definition root_disc : Z := 18204275045333271803850252468056031438057061776906233838328249308827409745899.
Definition half : Z := (field_prime + 1) / 2.

Section Roots.
Context (q b s h r iw : Z).
Hypothesis q_prime : Z.prime q.
Notation "x ≡ y" := (q | x - y) (at level 70).
Hypothesis disc : s * s ≡ b * b - 4.
Hypothesis halves : 2 * h ≡ 1.
Hypothesis root : r * r * r - 3 * r + b ≡ 0.
Hypothesis inverse : iw * (r * r - 1) ≡ 1.

Let t : Z := s * iw.
Let u : Z := (r + t) * h.
Let v : Z := (r - t) * h.
Let c : Z := (s - b) * h.
Let c' : Z := (- s - b) * h.

Lemma square_t : t * t ≡ r * r - 4.
Proof.
  destruct disc as [x Hx], root as [y Hy], inverse as [z Hz]. unfold t.
  exists ((r * r - 4) * z * (2 + z * q) + iw * iw * (x + y * (b + 3 * r - r * r * r))).
  transitivity ((r * r - 4) * (z * q) * (2 + z * q) + iw * iw * (x * q + (y * q) * (b + 3 * r - r * r * r))); [|ring].
  rewrite <- Hx, <- Hy, <- Hz. ring.
Qed.

Lemma product_uv : u * v ≡ 1.
Proof.
  destruct square_t as [x Hx], halves as [y Hy]. unfold u, v. exists (y * (2 * h + 1) - h * h * x).
  transitivity ((y * q) * (2 * h + 1) - h * h * (x * q)); [|ring]. rewrite <- Hx, <- Hy. ring.
Qed.

Lemma cubes_uv : u * u * u + v * v * v ≡ - b.
Proof.
  destruct product_uv as [x Hx], halves as [y Hy], root as [z Hz].
  assert (u + v - r = r * y * q) as Hs by (unfold u, v; rewrite <- Z.mul_assoc, <- Hy; ring).
  exists (r * y * ((u + v) * (u + v) + (u + v) * r + r * r) - 3 * (x * (u + v) + r * y) + z).
  transitivity ((r * y * q) * ((u + v) * (u + v) + (u + v) * r + r * r) - 3 * ((x * q) * (u + v) + r * y * q) + z * q); [|ring].
  rewrite <- Hs, <- Hx, <- Hz. ring.
Qed.

Lemma product_c : c * c' ≡ 1.
Proof.
  destruct disc as [x Hx], halves as [y Hy]. unfold c, c'. exists (y * (2 * h + 1) - h * h * x).
  transitivity ((y * q) * (2 * h + 1) - h * h * (x * q)); [|ring]. rewrite <- Hx, <- Hy. ring.
Qed.

Lemma cube_is_c : u * u * u ≡ c \/ u * u * u ≡ c'.
Proof.
  apply Z.divide_prime_mul; [assumption|].
  destruct product_uv as [x Hx], cubes_uv as [y Hy], product_c as [z Hz], halves as [k Hk].
  exists (u * u * u * y - x * ((u * v) * (u * v) + u * v + 1) + b * k * (u * u * u) + z).
  transitivity (u * u * u * (y * q) - (x * q) * ((u * v) * (u * v) + u * v + 1) + b * (k * q) * (u * u * u) + z * q); [|ring].
  rewrite <- Hx, <- Hy, <- Hz, <- Hk. unfold c, c'. ring.
Qed.

Lemma cong_pow x y e : x ≡ y -> x ^ e mod q = y ^ e mod q.
Proof.
  intros H. assert (x mod q = y mod q) as E by (apply Z.cong_iff_ex; destruct H as [k Hk]; exists k; lia).
  now rewrite <- Z.mod_pow_l, E, Z.mod_pow_l.
Qed.

Lemma cube_power e : 0 <= e -> 3 * e = q - 1 -> c ^ e mod q = 1.
Proof.
  intros He E. pose proof (Z.prime_ge_2 q q_prime) as Hq.
  assert (forall x, u * u * u ≡ x -> x ^ e mod q = 1) as Hu.
  { intros x Hx. rewrite <- (cong_pow _ _ e Hx). replace (u * u * u) with (u ^ 3) by ring.
    rewrite <- Z.pow_mul_r, E by lia. apply Z.fermat_nz; [assumption|]. intros H0.
    apply Z.mod_divide in H0; [|lia]. destruct product_uv as [k Hk], H0 as [m Hm].
    assert (q | 1) as Hd by (exists (m * v - k); lia). apply Z.divide_1_r in Hd. lia. }
  destruct cube_is_c as [H|H]; [now apply Hu|]. apply Hu in H.
  pose proof (cong_pow _ _ e product_c) as P. rewrite Z.pow_mul_l, Z.pow_1_l in P by assumption.
  rewrite <- Zmult_mod_idemp_r, H, Z.mul_1_r, (Z.mod_small 1) in P by lia. exact P.
Qed.
End Roots.

Lemma fermat_inverse q w : Z.prime q -> w mod q <> 0 -> (q | w ^ (q - 2) * w - 1).
Proof.
  intros Hq Hw. pose proof (Z.prime_ge_2 q Hq). apply Z.mod_divide; [lia|].
  rewrite Zminus_mod, (Z.mul_comm (_ ^ _)), <- Z.pow_succ_r by lia.
  replace (Z.succ (q - 2)) with (q - 1) by lia. rewrite (Z.fermat_nz q w Hq Hw), (Z.mod_small 1) by lia. apply Zmod_0_l.
Qed.

Definition cube_e : positive := Eval vm_compute in Z.to_pos ((field_prime - 1) / 3).

Lemma not_cube :
  (pow_red solinas (((root_disc - curve_b) * half) mod field_prime) cube_e mod field_prime =? 1) = false.
Proof. vm_compute. reflexivity. Qed.

Lemma no_root r : (r * r * r - 3 * r + curve_b) mod field_prime <> 0.
Proof.
  intros Hr. pose proof prime_field_prime as Hp. pose proof (Z.prime_ge_2 _ Hp) as H2.
  assert (field_prime | r * r * r - 3 * r + curve_b - 0) as Hroot.
  { rewrite Z.sub_0_r. apply Z.mod_divide; [lia|assumption]. }
  assert (field_prime | root_disc * root_disc - (curve_b * curve_b - 4)) as Hdisc.
  { apply Z.mod_divide; [lia|]. vm_compute. reflexivity. }
  assert (field_prime | 2 * half - 1) as Hhalf by (apply Z.mod_divide; [lia|]; vm_compute; reflexivity).
  destruct (Z.eq_dec ((r * r - 1) mod field_prime) 0) as [E|E].
  - apply Z.mod_divide in E; [|lia].
    assert (field_prime | curve_b * curve_b - 4) as Hb.
    { destruct Hroot as [x Hx], E as [y Hy].
      exists (x * (curve_b + 3 * r - r * r * r) + (r * r - 4) * (r * r - 1) * y).
      generalize dependent field_prime. intros q **.
      transitivity ((x * q) * (curve_b + 3 * r - r * r * r) + (r * r - 4) * (r * r - 1) * (y * q)); [|ring].
      rewrite <- Hx, <- Hy. ring. }
    apply Z.mod_divide in Hb; [|lia]. vm_compute in Hb. discriminate.
  - assert (3 * Zpos cube_e = field_prime - 1) as He by reflexivity.
    pose proof (cube_power field_prime curve_b root_disc half r _ Hp Hdisc Hhalf Hroot (fermat_inverse _ _ Hp E)
                  (Zpos cube_e) (Pos2Z.is_nonneg _) He) as Hpow.
    rewrite <- Z.mod_pow_l, <- (pow_red_ok solinas _ _ _ solinas_ok) in Hpow.
    pose proof not_cube as Hc. rewrite Hpow in Hc. discriminate.
Qed.

End P256Prime.
