(* ===== verification/Ecdsa.v ===== *)
(** ECDSA on P-256 (src/ecdsa.c, lines 113-133 and 318-654): points, scalar
    multiplication, key pairs, signing and verification, on top of the modular
    arithmetic of P256.v and the generator of Csprng.v.

    The loops that draw random numbers until one is in range have no bound in the
    code; their models take one sample of the entropy sources for each draw and
    stop with [NoTermination] when the list of samples is used up. *)
From Stdlib Require Import ZArith Zdiv Znumtheory Zmod Lia List Bool String.
From stdpp Require Import base tactics numbers list.
From S2P Require Import Prelude P256 P256Prime Csprng.
Open Scope Z_scope.

Module Ecdsa.
Import P256.

(** * Points *)

Record p256_point := mk_point { px : p256_int; py : p256_int; is_infinity : bool }.

Definition p256_G : p256_point := mk_point
  [0xD898C296; 0xF4A13945; 0x2DEB33A0; 0x77037D81; 0x63A440F2; 0xF8BCE6E5; 0xE12C4247; 0x6B17D1F2]
  [0x37BF51F5; 0xCBB64068; 0x6B315ECE; 0x2BCE3357; 0x7C0F9E16; 0x8EE7EB4A; 0xFE1A7F9B; 0x4FE342E2]
  false.

Definition p256_point_zero : p256_point := mk_point p256_int_zero p256_int_zero true.

Definition p256_point_is_infinity (p : p256_point) : bool := is_infinity p.

Definition p256_point_on_curve (point : p256_point) : bool :=
  if is_infinity point then true
  else
    let x2 := p256_mod_mul (px point) (px point) p256_p in
    let x3 := p256_mod_mul x2 (px point) p256_p in
    let ax := p256_mod_mul p256_a (px point) p256_p in
    let rhs := p256_mod_add x3 ax p256_p in
    let rhs := p256_mod_add rhs p256_b p256_p in
    let lhs := p256_mod_mul (py point) (py point) p256_p in
    p256_int_cmp lhs rhs =? 0.

Definition p256_point_copy (src : p256_point) : p256_point := src.

(** [xr] and [yr] from the slope, as both addition and doubling end. *)
Definition chord_y (slope px xr py : p256_int) : p256_int :=
  let temp := p256_mod_sub px xr p256_p in
  let temp := p256_mod_mul slope temp p256_p in
  p256_mod_sub temp py p256_p.

Definition p256_point_double (P : p256_point) : p256_point :=
  if is_infinity P then p256_point_zero
  else
    let x2 := p256_mod_mul (px P) (px P) p256_p in
    let temp := p256_mod_add x2 x2 p256_p in
    let three_x2 := p256_mod_add temp x2 p256_p in
    let temp := p256_mod_add three_x2 p256_a p256_p in
    let two_y := p256_mod_add (py P) (py P) p256_p in
    let two_y := p256_mod_inv two_y p256_p in
    let slope := p256_mod_mul temp two_y p256_p in
    let temp := p256_mod_mul slope slope p256_p in
    let two_x := p256_mod_add (px P) (px P) p256_p in
    let xr := p256_mod_sub temp two_x p256_p in
    mk_point xr (chord_y slope (px P) xr (py P)) false.

Definition p256_point_add (P Q : p256_point) : p256_point :=
  if is_infinity P then p256_point_copy Q
  else if is_infinity Q then p256_point_copy P
  else if p256_int_cmp (px P) (px Q) =? 0 then
    if p256_int_cmp (py P) (py Q) =? 0 then p256_point_double P else p256_point_zero
  else
    let temp := p256_mod_sub (py Q) (py P) p256_p in
    let denom := p256_mod_sub (px Q) (px P) p256_p in
    let denom := p256_mod_inv denom p256_p in
    let slope := p256_mod_mul temp denom p256_p in
    let temp := p256_mod_mul slope slope p256_p in
    let temp := p256_mod_sub temp (px P) p256_p in
    let xr := p256_mod_sub temp (px Q) p256_p in
    mk_point xr (chord_y slope (px P) xr (py P)) false.

(** Bit [i] of the scalar: add, then double except behind the last bit. *)
Definition mul_step (k : p256_int) (s : p256_point * p256_point) (i : nat) : p256_point * p256_point :=
  let '(result, temp) := s in
  let word := (i / 32)%nat in
  let bit := Z.of_nat (i mod 32) in
  let result := if nonzero (Z.land (Z.shiftr (k !!! word) bit) 1) then p256_point_add result temp else result in
  let temp := if (i <? P256_WORDS * 32 - 1)%nat then p256_point_double temp else temp in
  (result, temp).

Definition p256_point_mul (k : p256_int) (P : p256_point) : p256_point :=
  fst (foldl (mul_step k) (p256_point_zero, P) (seq 0 (P256_WORDS * 32))).

(** * Keys *)

Record ecdsa_keypair := mk_keypair { private_key : p256_int; public_key : p256_point }.
Record ecdsa_signature := mk_sig { sig_r : p256_int; sig_s : p256_int }.

(** [0 < k < n], the condition both rejection loops wait for. *)
Definition in_range (k : p256_int) : bool :=
  negb (p256_int_is_zero k || (0 <=? p256_int_cmp k p256_n)).

Fixpoint random_scalar (ss : list Csprng.samples) : M Csprng.csprng_ctx p256_int :=
  match ss with
  | [] => fail NoTermination
  | s :: ss' =>
      random <- Csprng.csprng_random_bytes s P256_BYTES ;;
      let k := p256_int_from_bytes random in
      if in_range k then ret k else random_scalar ss'
  end.

Definition ecdsa_derive_public_key (private_key : p256_int) : p256_point := p256_point_mul private_key p256_G.

Definition ecdsa_generate_keypair (ss : list Csprng.samples) : M Csprng.csprng_ctx ecdsa_keypair :=
  d <- random_scalar ss ;; ret (mk_keypair d (ecdsa_derive_public_key d)).

Definition ecdsa_import_private_key (bytes : list Z) : p256_int := p256_int_from_bytes bytes.
Definition ecdsa_export_private_key (private_key : p256_int) : list Z := p256_int_to_bytes private_key.
Definition ecdsa_import_public_key (bytes : list Z) : p256_point :=
  mk_point (p256_int_from_bytes bytes) (p256_int_from_bytes (drop P256_BYTES bytes)) false.
Definition ecdsa_export_public_key (public_key : p256_point) : list Z :=
  p256_int_to_bytes (px public_key) ++ p256_int_to_bytes (py public_key).
Definition ecdsa_import_signature (bytes : list Z) : ecdsa_signature :=
  mk_sig (p256_int_from_bytes bytes) (p256_int_from_bytes (drop P256_BYTES bytes)).
Definition ecdsa_export_signature (s : ecdsa_signature) : list Z :=
  p256_int_to_bytes (sig_r s) ++ p256_int_to_bytes (sig_s s).

(** * Signatures *)

(** [if (p256_int_cmp(&z, &p256_n) >= 0) p256_sub(&z, &z, &p256_n)] *)
Definition reduce_n (z : p256_int) : p256_int :=
  if 0 <=? p256_int_cmp z p256_n then fst (p256_sub z p256_n) else z.

(** One turn of the signing loop behind the draw of [k].  With [r = 0] the
    [continue] leaves [signature->s] as it was. *)
Definition sign_with (z private_key k : p256_int) (signature : ecdsa_signature) : ecdsa_signature :=
  let r := reduce_n (px (p256_point_mul k p256_G)) in
  if p256_int_is_zero r then mk_sig r (sig_s signature)
  else
    let k_inv := p256_mod_inv k p256_n in
    let temp := p256_mod_mul r private_key p256_n in
    let temp := p256_mod_add z temp p256_n in
    mk_sig r (p256_mod_mul k_inv temp p256_n).

(** The signing loop; one list of samples for each turn.  The loop condition,
    which [continue] also leads to, only looks at [signature->s]. *)
Fixpoint sign_loop (sss : list (list Csprng.samples)) (z private_key : p256_int) (signature : ecdsa_signature)
    : M Csprng.csprng_ctx ecdsa_signature :=
  match sss with
  | [] => fail NoTermination
  | ss :: sss' =>
      k <- random_scalar ss ;;
      let signature := sign_with z private_key k signature in
      if p256_int_is_zero (sig_s signature) then sign_loop sss' z private_key signature else ret signature
  end.

Definition ecdsa_sign (sss : list (list Csprng.samples)) (signature : ecdsa_signature) (hash : list Z)
    (private_key : p256_int) : M Csprng.csprng_ctx ecdsa_signature :=
  sign_loop sss (reduce_n (p256_int_from_bytes hash)) private_key signature.

Definition ecdsa_verify (signature : ecdsa_signature) (hash : list Z) (public_key : p256_point) : bool :=
  if is_infinity public_key || negb (p256_point_on_curve public_key) then false
  else if p256_int_is_zero (sig_r signature) || (0 <=? p256_int_cmp (sig_r signature) p256_n) then false
  else if p256_int_is_zero (sig_s signature) || (0 <=? p256_int_cmp (sig_s signature) p256_n) then false
  else
    let z := reduce_n (p256_int_from_bytes hash) in
    let w := p256_mod_inv (sig_s signature) p256_n in
    let u1 := p256_mod_mul z w p256_n in
    let u2 := p256_mod_mul (sig_r signature) w p256_n in
    let point1 := p256_point_mul u1 p256_G in
    let point2 := p256_point_mul u2 public_key in
    let R := p256_point_add point1 point2 in
    if is_infinity R then false
    else p256_int_cmp (sig_r signature) (reduce_n (px R)) =? 0.

Definition ecdsa_init : bool := p256_point_on_curve p256_G.

(** * The curve over the integers modulo p *)

(** The parameters as numbers.  They are sealed: the proofs use the equations
    and never compute with them. *)
Definition p_aux : seal P256Prime.field_prime.
Proof. by eexists. Qed.
Definition p : Z := p_aux.(unseal).
Lemma p_eq : p = P256Prime.field_prime.
Proof. exact p_aux.(seal_eq). Qed.

Definition curve_a_aux : seal (val p256_a).
Proof. by eexists. Qed.
Definition curve_a : Z := curve_a_aux.(unseal).
Lemma curve_a_eq : curve_a = val p256_a.
Proof. exact curve_a_aux.(seal_eq). Qed.

Definition curve_b_aux : seal (val p256_b).
Proof. by eexists. Qed.
Definition curve_b : Z := curve_b_aux.(unseal).
Lemma curve_b_eq : curve_b = val p256_b.
Proof. exact curve_b_aux.(seal_eq). Qed.

Definition order_aux : seal (val p256_n).
Proof. by eexists. Qed.
Definition order : Z := order_aux.(unseal).
Lemma order_eq : val p256_n = order.
Proof. symmetry. exact order_aux.(seal_eq). Qed.

(** y^2 = x^3 + a x + b (mod p) *)
Definition on_curve (x y : Z) : Prop := (y * y) mod p = (x * x * x + curve_a * x + curve_b) mod p.

Lemma val_p : val p256_p = p.
Proof. rewrite p_eq. by vm_compute. Qed.

Lemma p_prime : Z.prime p.
Proof. rewrite p_eq. apply P256Prime.prime_field_prime. Qed.

Lemma p_odd : 2 < p.
Proof. rewrite p_eq. by vm_compute. Qed.

Lemma p_pos : 0 < p.
Proof. pose proof p_odd. lia. Qed.

Lemma curve_a_p : curve_a = p - 3.
Proof. rewrite p_eq, curve_a_eq. by vm_compute. Qed.

Lemma curve_no_root r : (r * r * r - 3 * r + curve_b) mod p <> 0.
Proof.
  rewrite p_eq, curve_b_eq. replace (val p256_b) with P256Prime.curve_b by by vm_compute. apply P256Prime.no_root.
Qed.

Lemma wf_p : wf p256_p.
Proof. split; [|done]. repeat constructor; done. Qed.
Lemma wf_n : wf p256_n.
Proof. split; [|done]. repeat constructor; done. Qed.
Lemma wf_a : wf p256_a /\ val p256_a < p.
Proof. split; [split; [repeat constructor; done|done]|]. rewrite p_eq. by vm_compute. Qed.
Lemma wf_b : wf p256_b /\ val p256_b < p.
Proof. split; [split; [repeat constructor; done|done]|]. rewrite p_eq. by vm_compute. Qed.

(** A reduced field element. *)
Definition fe (a : p256_int) : Prop := wf a /\ val a < p.

Lemma fe_bound a : fe a -> 0 <= val a < p.
Proof. intros [Ha Hl]. pose proof (wf_bound a Ha). lia. Qed.

Lemma fe_mod a : fe a -> val a mod p = val a.
Proof. intros H%fe_bound. by apply Z.mod_small. Qed.

Lemma fe_mul a b : wf a -> wf b -> fe (p256_mod_mul a b p256_p) /\ val (p256_mod_mul a b p256_p) = (val a * val b) mod p.
Proof.
  intros Ha Hb. destruct (p256_mod_mul_ok p256_p wf_p ltac:(rewrite val_p; apply p_pos) a b Ha Hb) as [H1 H2].
  rewrite val_p in H2. split; [|done]. split; [done|]. rewrite H2. apply Z.mod_pos_bound, p_pos.
Qed.

Lemma fe_add a b : fe a -> fe b -> fe (p256_mod_add a b p256_p) /\ val (p256_mod_add a b p256_p) = (val a + val b) mod p.
Proof.
  intros [Ha La] [Hb Lb]. destruct (p256_mod_add_ok a b p256_p Ha Hb wf_p) as [H1 H2]; rewrite ?val_p in *; [done..|].
  split; [|done]. split; [done|]. rewrite H2. apply Z.mod_pos_bound, p_pos.
Qed.

Lemma fe_sub a b : fe a -> fe b -> fe (p256_mod_sub a b p256_p) /\ val (p256_mod_sub a b p256_p) = (val a - val b) mod p.
Proof.
  intros [Ha La] [Hb Lb]. destruct (p256_mod_sub_ok a b p256_p Ha Hb wf_p) as [H1 H2]; rewrite ?val_p in *; [done..|].
  split; [|done]. split; [done|]. rewrite H2. apply Z.mod_pos_bound, p_pos.
Qed.

Lemma pow_pred a m : 2 <= m -> a ^ (m - 2) * a = a ^ (m - 1).
Proof. intros Hm. rewrite Z.mul_comm, <- Z.pow_succ_r by lia. f_equal. lia. Qed.

Lemma fe_inv a : fe a -> val a <> 0 -> fe (p256_mod_inv a p256_p) /\ (val (p256_mod_inv a p256_p) * val a) mod p = 1.
Proof.
  intros Ha H0. pose proof (fe_bound a Ha) as Hb.
  destruct (p256_mod_inv_ok a p256_p (proj1 Ha) wf_p) as [H1 H2]; rewrite val_p in *; [apply Z.prime_ge_2, p_prime|].
  split; [split; [done|]; rewrite H2; apply Z.mod_pos_bound, p_pos|].
  rewrite H2, Zmult_mod_idemp_l, pow_pred by apply Z.prime_ge_2, p_prime.
  apply Z.fermat_nz; [apply p_prime|by rewrite Z.mod_small].
Qed.

Lemma on_curve_ok pt :
  wf (px pt) -> wf (py pt) -> is_infinity pt = false ->
  p256_point_on_curve pt = true <-> on_curve (val (px pt)) (val (py pt)).
Proof.
  intros Hx Hy Hi. unfold p256_point_on_curve. rewrite Hi. destruct wf_a as [Ha La]. destruct wf_b as [Hb Lb].
  destruct (fe_mul _ _ Hx Hx) as [F1 V1]. set (x2 := p256_mod_mul _ _ _) in *.
  destruct (fe_mul x2 _ (proj1 F1) Hx) as [F2 V2]. set (x3 := p256_mod_mul x2 _ _) in *.
  destruct (fe_mul _ _ Ha Hx) as [F3 V3]. set (ax := p256_mod_mul p256_a _ _) in *.
  destruct (fe_add x3 ax F2 F3) as [F4 V4]. set (r1 := p256_mod_add x3 ax _) in *.
  destruct (fe_add r1 p256_b F4 (conj Hb Lb)) as [F5 V5]. set (r2 := p256_mod_add r1 _ _) in *.
  destruct (fe_mul _ _ Hy Hy) as [F6 V6]. set (l := p256_mod_mul (py pt) _ _) in *.
  rewrite Z.eqb_eq, p256_int_cmp_ok by (apply F5 || apply F6). unfold on_curve. rewrite curve_a_eq, curve_b_eq.
  assert (val r2 = (val (px pt) * val (px pt) * val (px pt) + val p256_a * val (px pt) + val p256_b) mod p) as <-.
  { rewrite V5, V4, V3, V2, V1. rewrite Zmult_mod_idemp_l, <- Zplus_mod, Zplus_mod_idemp_l. done. }
  rewrite <- V6. destruct (Z.compare_spec (val l) (val r2)); split; intros; lia.
Qed.

(** * Closure *)

Notation "x ≡ y" := (p | x - y) (at level 70).

Lemma cong_mod x y : x ≡ y <-> x mod p = y mod p.
Proof. rewrite Z.cong_iff_ex. split; intros [k Hk]; exists k; lia. Qed.

Lemma cong_of_mod x y : x = y mod p -> x ≡ y.
Proof. intros ->. rewrite cong_mod, Z.mod_mod; [done|]. pose proof p_pos. lia. Qed.

Lemma on_curve_cong x y : on_curve x y <-> y * y ≡ x * x * x + curve_a * x + curve_b.
Proof. unfold on_curve. by rewrite cong_mod. Qed.

(** The third point of the line through two points of the curve (or of the
    tangent, when they are the same) with slope [l], reflected. *)
Lemma chord_on_curve x1 y1 x2 y2 l x3 y3 :
  y1 * y1 ≡ x1 * x1 * x1 + curve_a * x1 + curve_b ->
  l * (x2 - x1) ≡ y2 - y1 -> l * (y1 + y2) ≡ x1 * x1 + x1 * x2 + x2 * x2 + curve_a ->
  x3 ≡ l * l - x1 - x2 -> y3 ≡ l * (x1 - x3) - y1 ->
  y3 * y3 ≡ x3 * x3 * x3 + curve_a * x3 + curve_b.
Proof.
  intros [e He] [f Hf] [u Hu] [v Hv] [w Hw].
  exists ((u + l * f) * (x3 - x1) + e - (x3 - x1) * (x3 - x2) * v + w * (y3 + l * (x1 - x3) - y1)).
  generalize dependent p. intros q He Hf Hu Hv Hw.
  assert (y3 = l * (x1 - x3) - y1 + w * q) as -> by lia.
  transitivity ((u * q + l * (f * q)) * (x3 - x1) + e * q - (x3 - x1) * (x3 - x2) * (v * q)
                + w * q * (2 * (l * (x1 - x3) - y1) + w * q)); [|ring].
  rewrite <- Hu, <- Hf, <- He, <- Hv. ring.
Qed.

(** The chord: subtracting the equations of two points. *)
Lemma secant x1 y1 x2 y2 l :
  y1 * y1 ≡ x1 * x1 * x1 + curve_a * x1 + curve_b -> y2 * y2 ≡ x2 * x2 * x2 + curve_a * x2 + curve_b ->
  l * (x2 - x1) ≡ y2 - y1 ->
  (x2 - x1) * (l * (y1 + y2)) ≡ (x2 - x1) * (x1 * x1 + x1 * x2 + x2 * x2 + curve_a).
Proof.
  intros [e He] [f Hf] [g Hg]. exists (g * (y1 + y2) + f - e). generalize dependent p. intros q He Hf Hg.
  transitivity ((y1 + y2) * (g * q) + f * q - e * q); [|ring]. rewrite <- He, <- Hf, <- Hg. ring.
Qed.

(** Dividing by an invertible number. *)
Lemma slope_ok t d i l : l = (t * i) mod p -> (i * d) mod p = 1 -> l * d ≡ t.
Proof.
  intros -> Hi. apply cong_mod. rewrite Zmult_mod_idemp_l. replace (t * i * d) with (t * (i * d)) by ring.
  rewrite <- Zmult_mod_idemp_r, Hi. f_equal. ring.
Qed.

Lemma cong_cancel a b d : ~ (p | d) -> d * a ≡ d * b -> a ≡ b.
Proof.
  intros Hd H. replace (d * a - d * b) with (d * (a - b)) in H by ring.
  apply Z.divide_prime_mul in H; [|apply p_prime]. tauto.
Qed.

(** A point as the operations produce it: reduced coordinates, and on the curve
    unless it is the point at infinity. *)
Definition valid (P : p256_point) : Prop :=
  fe (px P) /\ fe (py P) /\ (is_infinity P = false -> on_curve (val (px P)) (val (py P))).

Lemma fe_zero : fe p256_int_zero.
Proof. split; [split; [apply words_zeros|done]|]. unfold p256_int_zero. rewrite val_zeros. apply p_pos. Qed.

Lemma valid_zero : valid p256_point_zero.
Proof. split; [apply fe_zero|]. split; [apply fe_zero|done]. Qed.

Lemma chord_y_ok l x1 x3 y1 :
  fe l -> fe x1 -> fe x3 -> fe y1 ->
  fe (chord_y l x1 x3 y1) /\ val (chord_y l x1 x3 y1) ≡ val l * (val x1 - val x3) - val y1.
Proof.
  intros Hl H1 H3 Hy. unfold chord_y. destruct (fe_sub x1 x3 H1 H3) as [F1 V1].
  destruct (fe_mul l _ (proj1 Hl) (proj1 F1)) as [F2 V2]. destruct (fe_sub _ y1 F2 Hy) as [F3 V3].
  split; [done|]. apply cong_of_mod. rewrite V3, V2, V1.
  by rewrite Zmult_mod_idemp_r, Zminus_mod_idemp_l.
Qed.

Lemma fe_ne_not_divides a : fe a -> val a <> 0 -> ~ (p | val a).
Proof. intros Ha H0 Hd. pose proof (fe_bound a Ha). apply Z.divide_pos_le in Hd; lia. Qed.

Lemma triple_mod x A q :
  (((((x * x) mod q + (x * x) mod q) mod q + (x * x) mod q) mod q + A) mod q)
  = (x * x + x * x + x * x + A) mod q.
Proof.
  rewrite Zplus_mod_idemp_l, <- Zplus_mod, <- Zplus_mod_idemp_l, <- Zplus_mod, Zplus_mod_idemp_l. done.
Qed.

Lemma sub2_mod L a b q : ((L mod q - a) mod q - b) mod q = (L - a - b) mod q.
Proof. rewrite Zminus_mod_idemp_l, <- !Z.sub_add_distr, Zminus_mod_idemp_l. done. Qed.

(** No point of the curve has y = 0. *)
Lemma valid_y P : valid P -> is_infinity P = false -> val (py P) <> 0.
Proof.
  intros (Hx & Hy & Hc) Hi H0. specialize (Hc Hi). unfold on_curve in Hc. rewrite H0 in Hc.
  apply (curve_no_root (val (px P))). rewrite <- (Zmod_0_l p). rewrite Z.mul_0_l in Hc. rewrite Hc.
  apply cong_mod. exists (- val (px P)). rewrite curve_a_p. ring.
Qed.

Lemma double_valid P : valid P -> valid (p256_point_double P).
Proof.
  intros HP. pose proof (valid_y P HP) as H0. destruct HP as (Hx & Hy & Hc). unfold p256_point_double. destruct (is_infinity P); [apply valid_zero|].
  specialize (Hc eq_refl). specialize (H0 eq_refl). destruct wf_a as [Wa La].
  destruct (fe_mul _ _ (proj1 Hx) (proj1 Hx)) as [F1 V1]. set (x2 := p256_mod_mul (px P) _ _) in *.
  destruct (fe_add x2 x2 F1 F1) as [F2 V2]. destruct (fe_add _ x2 F2 F1) as [F3 V3].
  destruct (fe_add _ p256_a F3 (conj Wa La)) as [F4 V4]. set (t := p256_mod_add _ p256_a _) in *.
  destruct (fe_add _ _ Hy Hy) as [F5 V5]. set (yy := p256_mod_add (py P) _ _) in *.
  assert (val yy <> 0) as Hyy.
  { rewrite V5. intros E. apply Z.mod_divide in E; [|pose proof p_pos; lia].
    replace (val (py P) + val (py P)) with (2 * val (py P)) in E by ring.
    apply Z.divide_prime_mul in E as [E|E]; [|by apply (fe_ne_not_divides (py P))|apply p_prime].
    apply Z.divide_pos_le in E; [|lia]. pose proof p_odd. lia. }
  destruct (fe_inv yy F5 Hyy) as [F6 V6]. set (i := p256_mod_inv yy _) in *.
  destruct (fe_mul t i (proj1 F4) (proj1 F6)) as [F7 V7]. set (l := p256_mod_mul t i _) in *.
  destruct (fe_mul l l (proj1 F7) (proj1 F7)) as [F8 V8]. destruct (fe_add _ _ Hx Hx) as [F9 V9].
  destruct (fe_sub _ _ F8 F9) as [F10 V10]. set (xr := p256_mod_sub _ (p256_mod_add (px P) _ _) _) in *.
  destruct (chord_y_ok l (px P) xr (py P) F7 Hx F10 Hy) as [F11 V11].
  split; [done|]. split; [done|]. intros _. apply on_curve_cong. rewrite on_curve_cong in Hc.
  apply (chord_on_curve (val (px P)) (val (py P)) (val (px P)) (val (py P)) (val l)); [done| | | |done].
  - exists 0. ring.
  - pose proof (slope_ok _ _ _ _ V7 V6) as Hs. rewrite V5 in Hs.
    apply cong_mod. rewrite cong_mod in Hs. rewrite Zmult_mod_idemp_r in Hs. rewrite Hs, V4, V3, V2, V1.
    rewrite curve_a_eq. rewrite Z.mod_mod by (pose proof p_pos; lia).
    apply triple_mod.
  - apply cong_of_mod. cbn [px]. rewrite V10, V9, V8. rewrite <- Zminus_mod. f_equal. ring.
Qed.

Lemma fe_eq a b : fe a -> fe b -> (p256_int_cmp a b =? 0) = (val a =? val b).
Proof.
  intros Ha Hb. rewrite p256_int_cmp_ok by (apply Ha || apply Hb).
  destruct (Z.compare_spec (val a) (val b)), (Z.eqb_spec (val a) (val b)); done || lia.
Qed.

Lemma add_valid P Q :
  valid P -> valid Q -> valid (p256_point_add P Q).
Proof.
  intros HP HQ. unfold p256_point_add. destruct (is_infinity P) eqn:EP; [done|].
  destruct (is_infinity Q) eqn:EQ; [done|]. pose proof HP as (Hx & Hy & Hc). pose proof HQ as (Hx' & Hy' & Hc').
  rewrite !fe_eq by done. destruct (Z.eqb_spec (val (px P)) (val (px Q))) as [Ex|Ex].
  { destruct (_ =? _); [by apply double_valid|apply valid_zero]. }
  specialize (Hc EP). specialize (Hc' EQ). rewrite on_curve_cong in Hc, Hc'.
  destruct (fe_sub _ _ Hy' Hy) as [F1 V1]. set (t := p256_mod_sub (py Q) _ _) in *.
  destruct (fe_sub _ _ Hx' Hx) as [F2 V2]. set (d := p256_mod_sub (px Q) _ _) in *.
  assert (~ (p | val (px Q) - val (px P))) as Hnd.
  { intros Hd%cong_mod. rewrite !fe_mod in Hd by done. congruence. }
  assert (val d <> 0) as Hd0.
  { rewrite V2. intros E. apply Z.mod_divide in E; [done|]. pose proof p_pos. lia. }
  destruct (fe_inv d F2 Hd0) as [F3 V3]. set (i := p256_mod_inv d _) in *.
  destruct (fe_mul t i (proj1 F1) (proj1 F3)) as [F4 V4]. set (l := p256_mod_mul t i _) in *.
  destruct (fe_mul l l (proj1 F4) (proj1 F4)) as [F5 V5]. destruct (fe_sub _ _ F5 Hx) as [F6 V6].
  destruct (fe_sub _ _ F6 Hx') as [F7 V7]. set (xr := p256_mod_sub _ (px Q) _) in *.
  destruct (chord_y_ok l (px P) xr (py P) F4 Hx F7 Hy) as [F8 V8].
  split; [done|]. split; [done|]. intros _. apply on_curve_cong.
  assert (val l * (val (px Q) - val (px P)) ≡ val (py Q) - val (py P)) as Hs.
  { pose proof (slope_ok _ _ _ _ V4 V3) as Hs. rewrite V1, V2, cong_mod in Hs. apply cong_mod.
    by rewrite Zmult_mod_idemp_r, Z.mod_mod in Hs by (pose proof p_pos; lia). }
  apply (chord_on_curve (val (px P)) (val (py P)) (val (px Q)) (val (py Q)) (val l)); [done|done| | |done].
  - apply (cong_cancel _ _ (val (px Q) - val (px P)) Hnd).
    apply secant; assumption.
  - apply cong_of_mod. cbn [px]. rewrite V7, V6, V5. apply sub2_mod.
Qed.

Lemma mul_steps_valid k l : forall R T, valid R -> valid T ->
  let '(R', T') := foldl (mul_step k) (R, T) l in valid R' /\ valid T'.
Proof.
  induction l as [|i l IH]; intros R T HR HT; [done|]. cbn [foldl mul_step]. apply IH.
  - destruct (nonzero _); [by apply add_valid|done].
  - destruct (_ <? _)%nat; [by apply double_valid|done].
Qed.

Lemma mul_valid k P : valid P -> valid (p256_point_mul k P).
Proof.
  intros HP. unfold p256_point_mul. pose proof (mul_steps_valid k (seq 0 (P256_WORDS * 32)) _ P valid_zero HP) as H.
  destruct (foldl _ _ _) as [R T]. apply H.
Qed.

Lemma valid_G : valid p256_G.
Proof.
  assert (forall l, words l -> length l = 8%nat -> val l < P256Prime.field_prime -> fe l) as Hfe.
  { intros l Hw Hl Hv. split; [by split|by rewrite p_eq]. }
  split; [|split].
  - apply Hfe; [repeat constructor; done|done|by vm_compute].
  - apply Hfe; [repeat constructor; done|done|by vm_compute].
  - intros _. unfold on_curve. rewrite p_eq, curve_a_eq, curve_b_eq. by vm_compute.
Qed.

Lemma valid_on_curve P : valid P -> p256_point_on_curve P = true.
Proof.
  intros (Hx & Hy & Hc). destruct (is_infinity P) eqn:E; [unfold p256_point_on_curve; by rewrite E|].
  apply on_curve_ok; [apply Hx|apply Hy|done|by apply Hc].
Qed.

(** * Signatures *)

Lemma n_bounds : 2 <= order /\ 2 ^ 256 < 2 * order.
Proof. rewrite <- order_eq. by vm_compute. Qed.

Lemma reduce_n_ok z : wf z -> wf (reduce_n z) /\ val (reduce_n z) = val z mod order.
Proof.
  intros Hz. unfold reduce_n. rewrite (cmp_ge z p256_n Hz wf_n), order_eq. pose proof (wf_bound z Hz).
  destruct n_bounds as (? & ?). destruct (Z.leb_spec order (val z)) as [Hge|Hlt].
  - pose proof (p256_sub_ok z p256_n Hz wf_n) as Hs. destruct (p256_sub z p256_n) as [r c]. destruct Hs as (Hr & Hc & Hv).
    rewrite order_eq in Hv. cbn [fst]. split; [done|]. pose proof (wf_bound r Hr). symmetry.
    rewrite <- (Z.mod_small (val r) order) by lia. replace (val z) with (val r + 1 * order) by lia. apply Z_mod_plus_full.
  - split; [done|]. symmetry. apply Z.mod_small. lia.
Qed.

(** The range check both the loops and the verification make. *)
Lemma range_ok k : wf k -> (p256_int_is_zero k || (0 <=? p256_int_cmp k p256_n)) = negb ((1 <=? val k) && (val k <? order)).
Proof.
  intros Hk. rewrite p256_int_is_zero_ok, (cmp_ge k p256_n Hk wf_n), order_eq by done. pose proof (wf_bound k Hk).
  destruct (Z.eqb_spec (val k) 0), (Z.leb_spec order (val k)), (Z.leb_spec 1 (val k)), (Z.ltb_spec (val k) order); done || lia.
Qed.

Lemma fe_n a b : wf a -> wf b ->
  wf (p256_mod_mul a b p256_n) /\ val (p256_mod_mul a b p256_n) = (val a * val b) mod order.
Proof.
  intros Ha Hb. rewrite <- order_eq. apply p256_mod_mul_ok; [apply wf_n| |done|done].
  rewrite order_eq. pose proof n_bounds. lia.
Qed.

(** What FIPS 186 asks of a signature: ranges, and the x coordinate of
    u1 G + u2 Q, with the inverse of s written as its power n - 2. *)
Definition accepts (r s z : Z) (Q : p256_point) : Prop :=
  is_infinity Q = false /\ on_curve (val (px Q)) (val (py Q)) /\ 1 <= r < order /\ 1 <= s < order /\
  exists u1 u2, wf u1 /\ wf u2 /\
    val u1 = (z * (s ^ (order - 2) mod order)) mod order /\ val u2 = (r * (s ^ (order - 2) mod order)) mod order /\
    let R := p256_point_add (p256_point_mul u1 p256_G) (p256_point_mul u2 Q) in
    is_infinity R = false /\ val (px R) mod order = r.

Lemma in_range_iff k : wf k -> negb (p256_int_is_zero k || (0 <=? p256_int_cmp k p256_n)) = true <-> 1 <= val k < order.
Proof. intros Hk. rewrite range_ok, negb_involutive, andb_true_iff, Z.leb_le, Z.ltb_lt by done. lia. Qed.

(** The equation at the end of the verification. *)
Definition final_check (sg : ecdsa_signature) (u1 u2 : p256_int) (Q : p256_point) : bool :=
  let R := p256_point_add (p256_point_mul u1 p256_G) (p256_point_mul u2 Q) in
  if is_infinity R then false else p256_int_cmp (sig_r sg) (reduce_n (px R)) =? 0.

Lemma final_check_ok sg u1 u2 Q :
  valid Q -> wf (sig_r sg) -> final_check sg u1 u2 Q = true <->
  let R := p256_point_add (p256_point_mul u1 p256_G) (p256_point_mul u2 Q) in
  is_infinity R = false /\ val (px R) mod order = val (sig_r sg).
Proof.
  intros HQ Hr. unfold final_check. set (R := p256_point_add _ _). cbn zeta.
  assert (valid R) as (Hx & _ & _) by (apply add_valid; apply mul_valid; [apply valid_G|done]).
  clearbody R.
  destruct (is_infinity R); [split; [done|by intros [? _]]|].
  destruct (reduce_n_ok (px R) (proj1 Hx)) as [Hw Hv]. rewrite Z.eqb_eq, p256_int_cmp_ok, Hv by done.
  destruct (Z.compare_spec (val (sig_r sg)) (val (px R) mod order)); split; intros; lia || (by split) || tauto.
Qed.

#[local] Opaque p256_point_add p256_point_mul p256_mod_mul p256_mod_inv p256_int_cmp.

Lemma verify_eq sg hash Q :
  ecdsa_verify sg hash Q =
  negb (is_infinity Q) && p256_point_on_curve Q &&
  negb (p256_int_is_zero (sig_r sg) || (0 <=? p256_int_cmp (sig_r sg) p256_n)) &&
  negb (p256_int_is_zero (sig_s sg) || (0 <=? p256_int_cmp (sig_s sg) p256_n)) &&
  final_check sg (p256_mod_mul (reduce_n (p256_int_from_bytes hash)) (p256_mod_inv (sig_s sg) p256_n) p256_n)
                 (p256_mod_mul (sig_r sg) (p256_mod_inv (sig_s sg) p256_n) p256_n) Q.
Proof.
  unfold ecdsa_verify, final_check. destruct (is_infinity Q); [done|]. destruct (p256_point_on_curve Q); [|done].
  cbn [negb orb andb]. destruct (p256_int_is_zero (sig_r sg) || _); [done|].
  destruct (p256_int_is_zero (sig_s sg) || _); done.
Qed.

Lemma inv_n s : wf s -> wf (p256_mod_inv s p256_n) /\ val (p256_mod_inv s p256_n) = val s ^ (order - 2) mod order.
Proof. intros Hs. rewrite <- order_eq. apply p256_mod_inv_ok; [done|apply wf_n|]. rewrite order_eq. apply n_bounds. Qed.

(** A number is determined by its value. *)
Lemma val_inj_gen l : forall l', words l -> words l' -> length l = length l' -> val l = val l' -> l = l'.
Proof.
  induction l as [|x l IH]; intros [|y l'] H H' Hl Hv; try done.
  apply Forall_cons in H as [Hx H]. apply Forall_cons in H' as [Hy H']. cbn [val] in Hv.
  assert (x = y) as -> by (Z.div_mod_to_equations; lia). f_equal. apply IH; [done|done|by injection Hl|lia].
Qed.

Lemma val_inj a b : wf a -> wf b -> val a = val b -> a = b.
Proof. intros [Ha La] [Hb Lb]. apply val_inj_gen; congruence. Qed.

(** * Properties *)

(** Inversion: for a prime modulus and an operand that is not a multiple of
    it, [p256_mod_inv] returns the inverse. *)
Theorem p256_mod_inv_inverse a m :
  wf a -> wf m -> Z.prime (val m) -> val a mod val m <> 0 ->
  wf (p256_mod_inv a m) /\ (val (p256_mod_inv a m) * val a) mod val m = 1.
Proof.
  intros Ha Hm Hp H0. pose proof (Z.prime_ge_2 _ Hp) as H2.
  destruct (p256_mod_inv_ok a m Ha Hm H2) as [H1 Hv]. split; [done|].
  rewrite Hv, Zmult_mod_idemp_l, pow_pred by done. by apply Z.fermat_nz.
Qed.

Lemma p256_mod_inv_inverse_witness :
  wf (p256_mod_inv (small 2) (small 3)) /\
  (val (p256_mod_inv (small 2) (small 3)) * val (small 2)) mod val (small 3) = 1.
Proof.
  destruct (wf_small 2 ltac:(lia)) as [W2 V2]. destruct (wf_small 3 ltac:(lia)) as [W3 V3].
  apply (p256_mod_inv_inverse (small 2) (small 3) W2 W3); rewrite V3; [apply Z.prime_3|rewrite V2; done].
Defined.

(** The point operations are closed: from points with reduced coordinates
    that are on the curve or at infinity, addition, doubling and multiplication by
    any scalar give such points again; the base point is one, and every one passes
    [p256_point_on_curve]. *)
Theorem p256_points_closed P Q k :
  valid P -> valid Q ->
  valid p256_G /\ valid (p256_point_double P) /\ valid (p256_point_add P Q) /\ valid (p256_point_mul k P) /\
  p256_point_on_curve (p256_point_mul k P) = true.
Proof.
  intros HP HQ. split_and!; [apply valid_G|by apply double_valid|by apply add_valid|by apply mul_valid|].
  by apply valid_on_curve, mul_valid.
Qed.

Lemma p256_points_closed_witness : valid (p256_point_mul (small 3) p256_G).
Proof.
  refine (proj1 (proj2 (proj2 (proj2 (p256_points_closed p256_G p256_G (small 3) _ _))))); apply valid_G.
Defined.



Lemma from_bytes_wf l : length l = 32%nat -> Forall (fun b => 0 <= b < 256) l -> wf (p256_int_from_bytes l).
Proof.
  intros Hl Hb. destruct (be_words_bytes 8 l Hl Hb) as (W1 & W2 & _). unfold p256_int_from_bytes.
  rewrite take_ge by (unfold P256_BYTES; lia). split; [by apply Forall_rev|by rewrite length_rev].
Qed.

Lemma random_scalar_ok ss : forall ctx,
  Csprng.wf_csprng ctx -> Csprng.initialized ctx = true ->
  match random_scalar ss ctx with
  | Ok (k, ctx') => wf k /\ 1 <= val k < order /\ Csprng.wf_csprng ctx' /\ Csprng.initialized ctx' = true
  | Err f => f = NoTermination
  end.
Proof.
  induction ss as [|s ss IH]; intros ctx Hc Hi; [done|]. cbn [random_scalar]. unfold bind at 1.
  pose proof (Csprng.random_bytes_client s P256_BYTES ctx Hc Hi) as H. unfold wp in H.
  destruct (Csprng.csprng_random_bytes s P256_BYTES ctx) as [[bs ctx']|]; [|done].
  destruct H as (Hl & Hb & Hc' & Hi'). pose proof (from_bytes_wf bs Hl Hb) as Hk.
  destruct (in_range (p256_int_from_bytes bs)) eqn:E; [|by apply IH].
  apply (in_range_iff _ Hk) in E. exact (conj Hk (conj E (conj Hc' Hi'))).
Qed.

Lemma unit_range x y q : 0 <= x < 2 ^ 256 -> x <> 0 -> x = y mod q -> 2 <= q -> 1 <= x < q.
Proof. intros Hx H0 E Hq. pose proof (Z.mod_pos_bound y q ltac:(lia)). lia. Qed.

Lemma sign_with_ok z d k sg :
  wf z -> val z < order -> wf d -> wf k -> wf (sig_s sg) -> val (sig_s sg) = 0 ->
  let sg' := sign_with z d k sg in
  wf (sig_s sg') /\ (val (sig_s sg') <> 0 -> 1 <= val (sig_r sg') < order /\ 1 <= val (sig_s sg') < order).
Proof.
  intros Wz Lz Wd Wk Ws Vs. cbn zeta. unfold sign_with.
  assert (valid (p256_point_mul k p256_G)) as (Hx & _ & _) by apply mul_valid, valid_G.
  destruct (reduce_n_ok _ (proj1 Hx)) as [Wr Vr]. set (r := reduce_n _) in *. clearbody r.
  rewrite p256_int_is_zero_ok by done. pose proof n_bounds as (Hn & _).
  destruct (Z.eqb_spec (val r) 0) as [E|E]; cbn [sig_r sig_s].
  { split; [exact Ws|]. intros H. contradiction. }
  destruct (inv_n k Wk) as [Wi _]. destruct (fe_n r d Wr Wd) as [W1 V1].
  pose proof (Z.mod_pos_bound (val r * val d) order ltac:(lia)) as B1.
  destruct (p256_mod_add_ok z _ p256_n Wz W1 wf_n) as [W2 _]; [rewrite order_eq; lia..|].
  destruct (fe_n _ _ Wi W2) as [W3 V3]. split; [done|]. intros Hne.
  split; [apply (unit_range _ _ _ (wf_bound _ Wr) E Vr Hn)|].
  apply (unit_range _ _ _ (wf_bound _ W3) Hne V3 Hn).
Qed.

Lemma sign_loop_ok sss z d : forall sg ctx,
  Csprng.wf_csprng ctx -> Csprng.initialized ctx = true -> wf d -> wf (sig_s sg) -> val (sig_s sg) = 0 ->
  wf z /\ val z < order ->
  match sign_loop sss z d sg ctx with
  | Ok (sg', _) => 1 <= val (sig_r sg') < order /\ 1 <= val (sig_s sg') < order
  | Err f => f = NoTermination
  end.
Proof.
  induction sss as [|ss sss IH]; intros sg ctx Hc Hi Hd Ws Vs [Wz Lz]; [done|]. cbn [sign_loop]. unfold bind at 1.
  pose proof (random_scalar_ok ss ctx Hc Hi) as H. destruct (random_scalar ss ctx) as [[k ctx']|]; [|done].
  destruct H as (Wk & _ & Hc' & Hi'). destruct (sign_with_ok z d k sg Wz Lz Hd Wk Ws Vs) as [Ws' Hrange].
  rewrite p256_int_is_zero_ok by done. destruct (Z.eqb_spec (val (sig_s (sign_with z d k sg))) 0) as [E|E].
  - apply IH; [assumption..|exact (conj Wz Lz)].
  - exact (Hrange E).
Qed.

(** Key generation from a seeded generator returns the first draw in
    1..n-1 as the private key, with its public key, a point that passes the checks
    of verification; it neither faults nor panics, and only rejected draws keep it
    going. *)
Theorem ecdsa_generate_keypair_spec s ss ctx :
  Csprng.wf_csprng ctx -> Csprng.initialized ctx = true ->
  exists bs ctx1, Csprng.csprng_random_bytes s P256_BYTES ctx = Ok (bs, ctx1) /\
  let d := p256_int_from_bytes bs in
  if (1 <=? val d) && (val d <? order)
  then ecdsa_generate_keypair (s :: ss) ctx = Ok (mk_keypair d (ecdsa_derive_public_key d), ctx1) /\
       valid (ecdsa_derive_public_key d) /\ p256_point_on_curve (ecdsa_derive_public_key d) = true
  else ecdsa_generate_keypair (s :: ss) ctx = ecdsa_generate_keypair ss ctx1 /\
       Csprng.wf_csprng ctx1 /\ Csprng.initialized ctx1 = true.
Proof.
  intros Hc Hi. pose proof (Csprng.random_bytes_client s P256_BYTES ctx Hc Hi) as (bs & ctx1 & E & H)%wp_elim.
  destruct H as (Hl & Hb & Hc' & Hi'). exists bs, ctx1. split; [done|]. cbn zeta.
  pose proof (range_ok _ (from_bytes_wf bs Hl Hb)) as Hr. unfold ecdsa_generate_keypair. cbn [random_scalar].
  unfold bind. rewrite E. unfold in_range. rewrite Hr, negb_involutive. destruct (_ && _).
  - assert (valid (ecdsa_derive_public_key (p256_int_from_bytes bs))) as Hv by apply mul_valid, valid_G.
    split; [done|]. split; [done|by apply valid_on_curve].
  - by split.
Qed.

Lemma ecdsa_generate_keypair_spec_witness :
  exists bs ctx1,
    Csprng.csprng_random_bytes Csprng.no_samples P256_BYTES (Csprng.csprng_init (replicate 32 1)) = Ok (bs, ctx1).
Proof.
  refine (let '(ex_intro _ bs (ex_intro _ ctx1 (conj E _))) :=
            ecdsa_generate_keypair_spec Csprng.no_samples [] (Csprng.csprng_init (replicate 32 1)) _ eq_refl in
          ex_intro _ bs (ex_intro _ ctx1 E)).
  apply Csprng.csprng_init_wf. cbn. lia.
Defined.

(** Signing with a signature buffer whose s is zero: every result has r and
    s in 1..n-1, as verification demands, and the only way not to return is to use
    up the given draws. *)
Theorem ecdsa_sign_range sss sg hash d ctx :
  Csprng.wf_csprng ctx -> Csprng.initialized ctx = true ->
  wf d -> wf (sig_s sg) -> val (sig_s sg) = 0 -> length hash = 32%nat -> Forall (fun b => 0 <= b < 256) hash ->
  match ecdsa_sign sss sg hash d ctx with
  | Ok (sg', _) => 1 <= val (sig_r sg') < order /\ 1 <= val (sig_s sg') < order
  | Err f => f = NoTermination
  end.
Proof.
  intros Hc Hi Hd Ws Vs Hl Hb. apply sign_loop_ok; [assumption..|].
  destruct (reduce_n_ok _ (from_bytes_wf hash Hl Hb)) as [Wz Vz]. split; [done|]. rewrite Vz.
  apply Z.mod_pos_bound. pose proof n_bounds. lia.
Qed.

Lemma ecdsa_sign_range_witness :
  match ecdsa_sign [[Csprng.no_samples]] (mk_sig p256_int_zero p256_int_zero) (replicate 32 7) (small 5)
          (Csprng.csprng_init (replicate 32 1)) with
  | Ok (sg', _) => 1 <= val (sig_r sg') < order /\ 1 <= val (sig_s sg') < order
  | Err f => f = NoTermination
  end.
Proof.
  apply (ecdsa_sign_range [[Csprng.no_samples]] (mk_sig p256_int_zero p256_int_zero)).
  - apply Csprng.csprng_init_wf. cbn. lia.
  - reflexivity.
  - apply wf_small. lia.
  - apply fe_zero.
  - apply val_zeros.
  - reflexivity.
  - apply Forall_replicate. lia.
Defined.

(** A public key is accepted as on the curve with a coordinate that is not
    reduced: two different encodings of the point with x = 0 both pass. *)
Theorem unreduced_key_on_curve :
  let y := [0x174F93F4; 0x28BF856A; 0x1DAE8717; 0x541C2AF3; 0x84A06BB6; 0x2433BD5D; 0x0E2F83D7; 0x66485C78] in
  val p256_p <= val (px (mk_point p256_p y false)) /\
  p256_point_on_curve (mk_point p256_p y false) = true /\
  p256_point_on_curve (mk_point p256_int_zero y false) = true.
Proof.
  set (y := [0x174F93F4; _; _; _; _; _; _; _]). assert (wf y) as Hy by (split; [repeat constructor; done|done]).
  split_and!; [done| |].
  - apply on_curve_ok; [apply wf_p|done|done|]. unfold on_curve. rewrite p_eq, curve_a_eq, curve_b_eq. by vm_compute.
  - apply on_curve_ok; [apply fe_zero|done|done|]. unfold on_curve. rewrite p_eq, curve_a_eq, curve_b_eq. by vm_compute.
Qed.

End Ecdsa.
