(* ===== verification/NetHdr.v ===== *)
(** Packets (src/net.h): byte order conversion and the fields of the IPv4, TCP
    and UDP headers.  A packet is the list of the bytes of its buffer; reading
    outside of it is a fault. *)
From Stdlib Require Import ZArith Lia List Bool.
From stdpp Require Import base tactics numbers list.
From S2P Require Import Prelude.
Open Scope Z_scope.

Module NetHdr.

(** * Byte order *)

Definition htons (hostshort : Z) : Z :=
  u16 (Z.lor (u16 (Z.shiftr hostshort 8)) (u16 (Z.shiftl hostshort 8))).
Definition ntohs (netshort : Z) : Z :=
  u16 (Z.lor (u16 (Z.shiftr netshort 8)) (u16 (Z.shiftl netshort 8))).
Definition htonl (hostlong : Z) : Z :=
  Z.lor (Z.lor (Z.lor (Z.land (Z.shiftr hostlong 24) 0x000000FF)
                      (Z.land (Z.shiftr hostlong 8) 0x0000FF00))
               (Z.land (u32 (Z.shiftl hostlong 8)) 0x00FF0000))
        (Z.land (u32 (Z.shiftl hostlong 24)) 0xFF000000).
Definition ntohl (netlong : Z) : Z :=
  Z.lor (Z.lor (Z.lor (Z.land (Z.shiftr netlong 24) 0x000000FF)
                      (Z.land (Z.shiftr netlong 8) 0x0000FF00))
               (Z.land (u32 (Z.shiftl netlong 8)) 0x00FF0000))
        (Z.land (u32 (Z.shiftl netlong 24)) 0xFF000000).

(** [field = htons(v)] and [field = htonl(v)], as the bytes in memory. *)
Definition net_bytes16 (v : Z) : list Z := let w := htons v in [w mod 256; w / 256].
Definition net_bytes32 (v : Z) : list Z :=
  let w := htonl v in [w mod 256; w / 256 mod 256; w / 65536 mod 256; w / 16777216].

(** * Reading a buffer *)

Section Reading.
Context {St : Type}.
Implicit Types (p : list Z) (off : Z).

(** [*p], [*(uint16_t* )p] and [*(uint32_t* )p] at an offset of the buffer; the
    machine is little-endian. *)
Definition load8 p off : M St Z := lift (aget p off).
Definition load16 p off : M St Z :=
  b0 <- load8 p off ;; b1 <- load8 p (off + 1) ;; ret (b0 + 256 * b1).
Definition load32 p off : M St Z :=
  w0 <- load16 p off ;; w1 <- load16 p (off + 2) ;; ret (w0 + 65536 * w1).

(** [ntohs(p->field)] and [ntohl( *(uint32_t* )p->field)]. *)
Definition net16 p off : M St Z := w <- load16 p off ;; ret (ntohs w).
Definition net32 p off : M St Z := w <- load32 p off ;; ret (ntohl w).
End Reading.

(** Sizes of the headers and offsets of their fields. *)
Definition sizeof_ip_header : Z := 20.
Definition sizeof_tcp_header : Z := 20.
Definition sizeof_udp_header : Z := 8.
Definition ip_version_ihl : Z := 0.
Definition ip_total_length : Z := 2.
Definition ip_flags_fragment : Z := 6.
Definition ip_ttl : Z := 8.
Definition ip_protocol : Z := 9.
Definition ip_checksum : Z := 10.
Definition ip_src_ip : Z := 12.
Definition ip_dest_ip : Z := 16.
Definition l4_src_port : Z := 0.
Definition l4_dest_port : Z := 2.
Definition tcp_sequence_number : Z := 4.
Definition tcp_acknowledgement_number : Z := 8.
Definition tcp_offset_reserved : Z := 12.
Definition tcp_flags : Z := 13.
Definition tcp_window_size : Z := 14.
Definition tcp_checksum : Z := 16.
Definition udp_length : Z := 4.
Definition udp_checksum : Z := 6.
Definition sizeof_eth_header : Z := 14.
Definition sizeof_arp_header : Z := 28.

Definition IPPROTO_ICMP : Z := 1.
Definition IPPROTO_TCP : Z := 6.
Definition IPPROTO_UDP : Z := 17.
Definition TCP_FIN : Z := 0x01.
Definition TCP_SYN : Z := 0x02.
Definition TCP_RST : Z := 0x04.
Definition TCP_PSH : Z := 0x08.
Definition TCP_ACK : Z := 0x10.
Definition ETH_TYPE_IPV4 : Z := 0x0800.
Definition ETH_TYPE_ARP : Z := 0x0806.
Definition ARP_HTYPE_ETHERNET : Z := 1.
Definition ARP_PTYPE_IPV4 : Z := 0x0800.
Definition ARP_OP_REQUEST : Z := 1.
Definition ARP_OP_REPLY : Z := 2.

(** * What the fields are *)

Notation byte b := (0 <= b < 256).
Definition bytes (p : list Z) : Prop := Forall (fun b => byte b) p.

(** The big-endian numbers of a buffer, where it has them. *)
Definition at8 (p : list Z) (off : Z) : Z := p !!! Z.to_nat off.
Definition be16 (p : list Z) (off : Z) : Z := 256 * at8 p off + at8 p (off + 1).
Definition be32 (p : list Z) (off : Z) : Z := 65536 * be16 p off + be16 p (off + 2).

Lemma be16_swap a b : byte a -> byte b -> ntohs (a + 256 * b) = 256 * a + b.
Proof.
  intros Ha Hb. unfold ntohs. rewrite Z.shiftr_div_pow2, Z.shiftl_mul_pow2 by lia.
  replace (u16 ((a + 256 * b) / 2 ^ 8)) with b by u_lia.
  replace (u16 ((a + 256 * b) * 2 ^ 8)) with (a * 2 ^ 8) by u_lia.
  rewrite Z.lor_comm, lor_add by lia. u_lia.
Qed.

(** A field of a word, as [&] with a mask takes it. *)
Lemma land_field z lo w : 0 <= lo -> 0 <= w ->
  Z.land z (Z.ones w * 2 ^ lo) = (z / 2 ^ lo) mod 2 ^ w * 2 ^ lo.
Proof.
  intros Hlo Hw. apply Z.bits_inj'. intros n Hn.
  rewrite Z.land_spec, !Z.mul_pow2_bits by lia. destruct (Z.ltb_spec n lo).
  - rewrite !(Z.testbit_neg_r _ (n - lo)) by lia. apply andb_false_r.
  - rewrite Z.testbit_ones, Z.testbit_mod_pow2, <- Z.shiftr_div_pow2, Z.shiftr_spec by lia.
    replace (n - lo + lo) with n by lia. destruct (Z.leb_spec 0 (n - lo)); [|lia].
    simpl. apply andb_comm.
Qed.

Lemma be32_swap a b c d : byte a -> byte b -> byte c -> byte d ->
  ntohl ((a + 256 * b) + 65536 * (c + 256 * d)) = 65536 * (256 * a + b) + (256 * c + d).
Proof.
  intros Ha Hb Hc Hd. unfold ntohl. rewrite !Z.shiftr_div_pow2, !Z.shiftl_mul_pow2 by lia.
  set (w := a + 256 * b + 65536 * (c + 256 * d)).
  change 0x000000FF with (Z.ones 8 * 2 ^ 0). change 0x0000FF00 with (Z.ones 8 * 2 ^ 8).
  change 0x00FF0000 with (Z.ones 8 * 2 ^ 16). change 0xFF000000 with (Z.ones 8 * 2 ^ 24).
  rewrite !land_field by lia.
  replace (w / 2 ^ 24 / 2 ^ 0 mod 2 ^ 8 * 2 ^ 0) with d by (subst w; u_lia).
  replace (w / 2 ^ 8 / 2 ^ 8 mod 2 ^ 8 * 2 ^ 8) with (c * 2 ^ 8) by (subst w; u_lia).
  replace (u32 (w * 2 ^ 8) / 2 ^ 16 mod 2 ^ 8 * 2 ^ 16) with (b * 2 ^ 16) by (subst w; u_lia).
  replace (u32 (w * 2 ^ 24) / 2 ^ 24 mod 2 ^ 8 * 2 ^ 24) with (a * 2 ^ 24) by (subst w; u_lia).
  rewrite (Z.lor_comm d), lor_add by lia.
  rewrite (Z.lor_comm _ (b * _)), lor_add by lia.
  rewrite (Z.lor_comm _ (a * _)), lor_add by lia. lia.
Qed.

Section Fields.
Context {St : Type}.
Implicit Types (p : list Z) (off : Z).

Lemma at8_byte p off : bytes p -> byte (at8 p off).
Proof.
  intros H. unfold at8. rewrite list_lookup_total_alt.
  destruct (p !! Z.to_nat off) as [b|] eqn:E; simpl; [|split; done].
  by apply (Forall_lookup_1 _ _ _ _ H E).
Qed.

Lemma load8_ok p off (Q : Z -> St -> Prop) s :
  0 <= off < Z.of_nat (length p) -> Q (at8 p off) s -> wp (load8 p off) Q s.
Proof.
  intros H HQ. destruct (aget_range p off H) as (b & Hb & E). eapply wp_lift; [exact E|].
  unfold at8 in HQ. by rewrite (list_lookup_total_correct _ _ _ Hb) in HQ.
Qed.

Lemma net16_ok p off (Q : Z -> St -> Prop) s :
  bytes p -> 0 <= off -> off + 2 <= Z.of_nat (length p) -> Q (be16 p off) s -> wp (net16 p off) Q s.
Proof.
  intros Hp H0 H HQ. unfold net16, load16. apply wp_bind, wp_bind, load8_ok; [lia|].
  apply wp_bind, load8_ok; [lia|]. apply wp_ret, wp_ret.
  rewrite be16_swap by by apply at8_byte. exact HQ.
Qed.

Lemma net32_ok p off (Q : Z -> St -> Prop) s :
  bytes p -> 0 <= off -> off + 4 <= Z.of_nat (length p) -> Q (be32 p off) s -> wp (net32 p off) Q s.
Proof.
  intros Hp H0 H HQ. unfold net32, load32, load16.
  do 3 apply wp_bind. apply load8_ok; [lia|]. apply wp_bind, load8_ok; [lia|]. apply wp_ret.
  do 2 apply wp_bind. apply load8_ok; [lia|]. apply wp_bind, load8_ok; [lia|]. do 3 apply wp_ret.
  rewrite be32_swap by by apply at8_byte. exact HQ.
Qed.

Lemma be16_range p off : bytes p -> 0 <= be16 p off < 65536.
Proof. intros H. pose proof (at8_byte p off H). pose proof (at8_byte p (off + 1) H). unfold be16. lia. Qed.
Lemma be32_range p off : bytes p -> 0 <= be32 p off < 4294967296.
Proof. intros H. pose proof (be16_range p off H). pose proof (be16_range p (off + 2) H). unfold be32. lia. Qed.
End Fields.

(** Bytes written with [htons] and [htonl] read back. *)
Lemma net_bytes16_eq v : 0 <= v < 65536 -> net_bytes16 v = [v / 256; v mod 256].
Proof.
  intros Hv. unfold net_bytes16, htons. rewrite Z.shiftr_div_pow2, Z.shiftl_mul_pow2 by lia.
  replace (u16 (v / 2 ^ 8)) with (v / 256) by u_lia.
  replace (u16 (v * 2 ^ 8)) with (v mod 256 * 2 ^ 8) by u_lia.
  rewrite Z.lor_comm, lor_add by (Z.to_euclidean_division_equations; lia).
  replace (u16 (v mod 256 * 2 ^ 8 + v / 256)) with (v mod 256 * 256 + v / 256) by u_lia.
  f_equal; [|f_equal]; Z.to_euclidean_division_equations; lia.
Qed.

Lemma net_bytes32_eq v : 0 <= v < 4294967296 ->
  net_bytes32 v = [v / 16777216; v / 65536 mod 256; v / 256 mod 256; v mod 256].
Proof.
  intros Hv. unfold net_bytes32. change htonl with ntohl.
  set (d := v / 16777216). set (c := v / 65536 mod 256). set (b := v / 256 mod 256). set (a := v mod 256).
  assert (byte a /\ byte b /\ byte c /\ byte d) as (Ha & Hb & Hc & Hd)
    by (unfold a, b, c, d; repeat split; Z.to_euclidean_division_equations; lia).
  replace v with (a + 256 * b + 65536 * (c + 256 * d)) by (unfold a, b, c, d; Z.to_euclidean_division_equations; lia).
  rewrite be32_swap by done. clearbody a b c d.
  repeat f_equal; Z.to_euclidean_division_equations; lia.
Qed.

End NetHdr.
