(* ===== verification/Firewall.v ===== *)
(** The packet filter (src/firewall.c): rules, connection tracking, rate
    limits, attack detectors, and the decision on a packet.

    [pit_get_ticks] is the argument [now]: the filter runs with interrupts
    masked, so one call sees one time.  Records that go to the audit log and
    the console are left out; the counters behind them are kept. *)
From Stdlib Require Import ZArith Lia List Bool String.
From stdpp Require Import base tactics numbers list.
From S2P Require Import Prelude NetHdr.
Open Scope Z_scope.

Module Firewall.
Import NetHdr.

(** * Data *)

Definition FIREWALL_MAX_RULES : Z := 64.
Definition FIREWALL_MAX_CONNECTIONS : Z := 128.
Definition FIREWALL_RATE_LIMIT_WINDOW : Z := 1000.
Definition FIREWALL_SYN_THRESHOLD : Z := 100.
Definition FIREWALL_PORTSCAN_THRESHOLD : Z := 20.
Definition GLOBAL_RATE_LIMIT : Z := 3200.
Definition DHCP_SERVER_PORT : Z := 67.
Definition DHCP_CLIENT_PORT : Z := 68.

Inductive firewall_action :=
| FW_ACTION_ACCEPT | FW_ACTION_DROP | FW_ACTION_REJECT | FW_ACTION_LOG | FW_ACTION_LOG_DROP.
#[export] Instance firewall_action_eq_dec : EqDecision firewall_action.
Proof. solve_decision. Defined.

Record firewall_rule := mk_rule {
  r_src_ip : Z; r_src_ip_mask : Z; r_dst_ip : Z; r_dst_ip_mask : Z;
  r_src_port : Z; r_dst_port : Z; r_protocol : Z;
  r_action : firewall_action; r_enabled : bool; r_bidirectional : bool;
  r_packet_count : Z; r_byte_count : Z; r_description : string; r_priority : Z }.
Definition put_counts (pc bc : Z) (r : firewall_rule) : firewall_rule :=
  mk_rule (r_src_ip r) (r_src_ip_mask r) (r_dst_ip r) (r_dst_ip_mask r) (r_src_port r) (r_dst_port r)
    (r_protocol r) (r_action r) (r_enabled r) (r_bidirectional r) pc bc (r_description r) (r_priority r).
Definition put_enabled (e : bool) (r : firewall_rule) : firewall_rule :=
  mk_rule (r_src_ip r) (r_src_ip_mask r) (r_dst_ip r) (r_dst_ip_mask r) (r_src_port r) (r_dst_port r)
    (r_protocol r) (r_action r) e (r_bidirectional r) (r_packet_count r) (r_byte_count r)
    (r_description r) (r_priority r).
(** [{0}] and [memset] to zero. *)
Definition zero_rule : firewall_rule :=
  mk_rule 0 0 0 0 0 0 0 FW_ACTION_ACCEPT false false 0 0 EmptyString 0.

Inductive conn_state :=
| CONN_STATE_NEW | CONN_STATE_ESTABLISHED | CONN_STATE_RELATED | CONN_STATE_INVALID | CONN_STATE_CLOSED.
#[export] Instance conn_state_eq_dec : EqDecision conn_state.
Proof. solve_decision. Defined.

(** The sequence and acknowledgement numbers and [packets_recv] are never
    written after the entry is cleared. *)
Record connection_entry := mk_conn {
  c_src_ip : Z; c_dst_ip : Z; c_src_port : Z; c_dst_port : Z; c_protocol : Z;
  c_state : conn_state; c_created_time : Z; c_last_seen : Z; c_packets_sent : Z; c_active : bool }.
Definition put_conn_state (st : conn_state) (c : connection_entry) : connection_entry :=
  mk_conn (c_src_ip c) (c_dst_ip c) (c_src_port c) (c_dst_port c) (c_protocol c) st
    (c_created_time c) (c_last_seen c) (c_packets_sent c) (c_active c).
Definition put_seen (now sent : Z) (c : connection_entry) : connection_entry :=
  mk_conn (c_src_ip c) (c_dst_ip c) (c_src_port c) (c_dst_port c) (c_protocol c) (c_state c)
    (c_created_time c) now sent (c_active c).
Definition zero_conn : connection_entry := mk_conn 0 0 0 0 0 CONN_STATE_NEW 0 0 0 false.

Record rate_limit_entry := mk_rate {
  rl_src_ip : Z; rl_packet_count : Z; rl_window_start : Z; rl_total_dropped : Z; rl_last_seen : Z }.

Record attack_detector := mk_detector {
  d_src_ip : Z; d_ports_scanned : list Z; d_port_count : Z; d_last_scan_time : Z;
  d_syn_count : Z; d_syn_window_start : Z }.
Definition put_syn (n start : Z) (d : attack_detector) : attack_detector :=
  mk_detector (d_src_ip d) (d_ports_scanned d) (d_port_count d) (d_last_scan_time d) n start.
Definition put_ports (ports : list Z) (n t : Z) (d : attack_detector) : attack_detector :=
  mk_detector (d_src_ip d) ports n t (d_syn_count d) (d_syn_window_start d).
Definition zero_detector : attack_detector := mk_detector 0 (replicate 64 0) 0 0 0 0.

Record firewall_stats := mk_stats {
  packets_total : Z; packets_accepted : Z; packets_dropped : Z; packets_rejected : Z;
  syn_floods_detected : Z; port_scans_detected : Z; rate_limit_hits : Z }.
Definition zero_stats : firewall_stats := mk_stats 0 0 0 0 0 0 0.

(** The static variables of the file. *)
Record fw := mk_fw {
  rules : list firewall_rule; rule_count : Z;
  connections : list connection_entry; connection_count : Z;
  rate_limits : list rate_limit_entry; rate_limit_count : Z;
  attack_detectors : list attack_detector; detector_count : Z;
  stats : firewall_stats; firewall_enabled : bool;
  global_packet_count : Z; global_window_start : Z }.

Definition put_rules v n s := mk_fw v n (connections s) (connection_count s) (rate_limits s)
  (rate_limit_count s) (attack_detectors s) (detector_count s) (stats s) (firewall_enabled s)
  (global_packet_count s) (global_window_start s).
Definition put_connections v n s := mk_fw (rules s) (rule_count s) v n (rate_limits s)
  (rate_limit_count s) (attack_detectors s) (detector_count s) (stats s) (firewall_enabled s)
  (global_packet_count s) (global_window_start s).
Definition put_rates v n s := mk_fw (rules s) (rule_count s) (connections s) (connection_count s) v n
  (attack_detectors s) (detector_count s) (stats s) (firewall_enabled s)
  (global_packet_count s) (global_window_start s).
Definition put_detectors v n s := mk_fw (rules s) (rule_count s) (connections s) (connection_count s)
  (rate_limits s) (rate_limit_count s) v n (stats s) (firewall_enabled s)
  (global_packet_count s) (global_window_start s).
Definition put_stats v s := mk_fw (rules s) (rule_count s) (connections s) (connection_count s)
  (rate_limits s) (rate_limit_count s) (attack_detectors s) (detector_count s) v (firewall_enabled s)
  (global_packet_count s) (global_window_start s).
Definition put_global n t s := mk_fw (rules s) (rule_count s) (connections s) (connection_count s)
  (rate_limits s) (rate_limit_count s) (attack_detectors s) (detector_count s) (stats s)
  (firewall_enabled s) n t.

Definition on_stats (f : firewall_stats -> firewall_stats) : M fw unit :=
  modify (fun s => put_stats (f (stats s)) s).
Definition count_total : M fw unit := on_stats (fun t => mk_stats (u64 (packets_total t + 1))
  (packets_accepted t) (packets_dropped t) (packets_rejected t) (syn_floods_detected t)
  (port_scans_detected t) (rate_limit_hits t)).
Definition count_accepted : M fw unit := on_stats (fun t => mk_stats (packets_total t)
  (u64 (packets_accepted t + 1)) (packets_dropped t) (packets_rejected t) (syn_floods_detected t)
  (port_scans_detected t) (rate_limit_hits t)).
Definition count_dropped : M fw unit := on_stats (fun t => mk_stats (packets_total t)
  (packets_accepted t) (u64 (packets_dropped t + 1)) (packets_rejected t) (syn_floods_detected t)
  (port_scans_detected t) (rate_limit_hits t)).
Definition count_syn_flood : M fw unit := on_stats (fun t => mk_stats (packets_total t)
  (packets_accepted t) (packets_dropped t) (packets_rejected t) (u64 (syn_floods_detected t + 1))
  (port_scans_detected t) (rate_limit_hits t)).
Definition count_port_scan : M fw unit := on_stats (fun t => mk_stats (packets_total t)
  (packets_accepted t) (packets_dropped t) (packets_rejected t) (syn_floods_detected t)
  (u64 (port_scans_detected t + 1)) (rate_limit_hits t)).
Definition count_rate_hit : M fw unit := on_stats (fun t => mk_stats (packets_total t)
  (packets_accepted t) (packets_dropped t) (packets_rejected t) (syn_floods_detected t)
  (port_scans_detected t) (u64 (rate_limit_hits t + 1))).

(** [stats.packets_accepted++; return true] and its counterpart. *)
Definition accept : M fw bool := count_accepted ;;; ret true.
Definition drop_packet : M fw bool := count_dropped ;;; ret false.

(** * Matching *)

Definition ip_matches (packet_ip rule_ip mask : Z) : bool :=
  (rule_ip =? 0) || (Z.land packet_ip mask =? Z.land rule_ip mask).
Definition port_matches (packet_port rule_port : Z) : bool :=
  (rule_port =? 0) || (packet_port =? rule_port).

Definition is_bogon_ip (ip : Z) : bool :=
  if Z.land ip 0xFF000000 =? 0x00000000 then true
  else if Z.land ip 0xFF000000 =? 0x7F000000 then true
  else if Z.land ip 0xFFFF0000 =? 0xA9FE0000 then true
  else if Z.land ip 0xF0000000 =? 0xE0000000 then true
  else if (Z.land ip 0xF0000000 =? 0xF0000000) && negb (ip =? 0xFFFFFFFF) then true
  else if ip =? 0xFFFFFFFF then true
  else false.

(** * Connection tracking; a pointer into the table is an index. *)

Definition conn_get (i : Z) : M fw connection_entry :=
  l <- gets connections ;; lift (aget l i).
Definition conn_put (i : Z) (c : connection_entry) : M fw unit :=
  l <- gets connections ;; l' <- lift (aset l i c) ;;
  modify (fun s => put_connections l' (connection_count s) s).

Definition conn_is (src_ip dst_ip src_port dst_port protocol : Z) (c : connection_entry) : bool :=
  c_active c &&
  ((c_src_ip c =? src_ip) && (c_dst_ip c =? dst_ip) &&
   (c_src_port c =? src_port) && (c_dst_port c =? dst_port) && (c_protocol c =? protocol) ||
   (c_src_ip c =? dst_ip) && (c_dst_ip c =? src_ip) &&
   (c_src_port c =? dst_port) && (c_dst_port c =? src_port) && (c_protocol c =? protocol)).

Definition find_connection (src_ip dst_ip src_port dst_port protocol : Z) : M fw (option Z) :=
  scan connections FIREWALL_MAX_CONNECTIONS (conn_is src_ip dst_ip src_port dst_port protocol).

(** [for (i = 1; i < n; i++) if (time(i) < oldest) oldest = ...] *)
Fixpoint oldest_from {A} (time : A -> Z) (l : list A) (i best best_time : Z) : Z :=
  match l with
  | [] => best
  | x :: l' => if time x <? best_time then oldest_from time l' (i + 1) i (time x)
               else oldest_from time l' (i + 1) best best_time
  end.
Definition oldest {A} (time : A -> Z) (l : list A) : Z :=
  match l with [] => 0 | x :: l' => oldest_from time l' 1 0 (time x) end.

Definition new_conn (now src_ip dst_ip src_port dst_port protocol : Z) : connection_entry :=
  mk_conn src_ip dst_ip src_port dst_port protocol CONN_STATE_NEW now now 0 true.

Definition create_connection (now src_ip dst_ip src_port dst_port protocol : Z) : M fw Z :=
  let conn := new_conn now src_ip dst_ip src_port dst_port protocol in
  free <- scan connections FIREWALL_MAX_CONNECTIONS (fun c => negb (c_active c)) ;;
  match free with
  | Some i =>
      conn_put i conn ;;;
      modify (fun s => put_connections (connections s) (connection_count s + 1) s) ;;;
      ret i
  | None =>
      i <- gets (fun s => oldest c_last_seen (connections s)) ;;
      conn_put i conn ;;;
      ret i
  end.

Definition firewall_track_outgoing (now src_ip dst_ip src_port dst_port protocol : Z) : M fw unit :=
  if negb (protocol =? IPPROTO_TCP) && negb (protocol =? IPPROTO_UDP) then ret tt else
  r <- find_connection src_ip dst_ip src_port dst_port protocol ;;
  i <- match r with
       | Some i => ret i
       | None => create_connection now src_ip dst_ip src_port dst_port protocol
       end ;;
  c <- conn_get i ;;
  conn_put i (put_seen now (c_packets_sent c) (put_conn_state CONN_STATE_ESTABLISHED c)).

(** * Rate limiting *)

Definition rate_get (i : Z) : M fw rate_limit_entry :=
  l <- gets rate_limits ;; lift (aget l i).
Definition rate_put (i : Z) (e : rate_limit_entry) : M fw unit :=
  l <- gets rate_limits ;; l' <- lift (aset l i e) ;;
  modify (fun s => put_rates l' (rate_limit_count s) s).

Definition check_global_limit (now : Z) : M fw bool :=
  start <- gets global_window_start ;;
  if FIREWALL_RATE_LIMIT_WINDOW <? now -32 start then
    modify (put_global 1 now) ;;; ret true
  else
    n <- gets global_packet_count ;;
    modify (put_global (n +32 1) start) ;;;
    if GLOBAL_RATE_LIMIT <? n +32 1 then count_rate_hit ;;; ret false
    else ret true.

(** The body of the loop for the entry [i] of the source. *)
Definition charge_source (now i : Z) : M fw bool :=
  e <- rate_get i ;;
  if FIREWALL_RATE_LIMIT_WINDOW <? now -32 rl_window_start e then
    rate_put i (mk_rate (rl_src_ip e) 1 now (rl_total_dropped e) now) ;;; ret true
  else
    let n := rl_packet_count e +32 1 in
    if 100 <? n then
      rate_put i (mk_rate (rl_src_ip e) n (rl_window_start e) (rl_total_dropped e +32 1) now) ;;;
      count_rate_hit ;;; ret false
    else
      rate_put i (mk_rate (rl_src_ip e) n (rl_window_start e) (rl_total_dropped e) now) ;;; ret true.

Definition check_rate_limit (now src_ip : Z) : M fw bool :=
  ok <- check_global_limit now ;;
  if negb ok then ret false else
  n <- gets rate_limit_count ;;
  r <- scan rate_limits n (fun e => rl_src_ip e =? src_ip) ;;
  match r with
  | Some i => charge_source now i
  | None =>
      if n <? 32 then
        rate_put n (mk_rate src_ip 1 now 0 now) ;;;
        modify (fun s => put_rates (rate_limits s) (n + 1) s) ;;;
        ret true
      else
        lru_index <- gets (fun s => oldest rl_last_seen (rate_limits s)) ;;
        rate_put lru_index (mk_rate src_ip 1 now 0 now) ;;;
        ret true
  end.

(** * Attack detection *)

Definition det_get (i : Z) : M fw attack_detector :=
  l <- gets attack_detectors ;; lift (aget l i).
Definition det_put (i : Z) (d : attack_detector) : M fw unit :=
  l <- gets attack_detectors ;; l' <- lift (aset l i d) ;;
  modify (fun s => put_detectors l' (detector_count s) s).

(** The detector of a source, taken from the table or created if there is room. *)
Definition find_detector (src_ip : Z) : M fw (option Z) :=
  n <- gets detector_count ;;
  r <- scan attack_detectors n (fun d => d_src_ip d =? src_ip) ;;
  match r with
  | Some i => ret (Some i)
  | None =>
      if n <? 16 then
        modify (fun s => put_detectors (attack_detectors s) (n + 1) s) ;;;
        det_put n (mk_detector src_ip (replicate 64 0) 0 0 0 0) ;;;
        ret (Some n)
      else ret None
  end.

Definition detect_syn_flood (now src_ip flags : Z) : M fw unit :=
  if Z.land flags TCP_SYN =? 0 then ret tt else
  r <- find_detector src_ip ;;
  match r with
  | None => ret tt
  | Some i =>
      d <- det_get i ;;
      if 1000 <? now -32 d_syn_window_start d then det_put i (put_syn 1 now d)
      else
        let n := d_syn_count d +32 1 in
        if FIREWALL_SYN_THRESHOLD <? n then
          count_syn_flood ;;; det_put i (put_syn 0 (d_syn_window_start d) d)
        else det_put i (put_syn n (d_syn_window_start d) d)
  end.

Definition detect_port_scan (now src_ip dst_port : Z) : M fw unit :=
  r <- find_detector src_ip ;;
  match r with
  | None => ret tt
  | Some i =>
      d <- det_get i ;;
      seen <- scan (fun _ => d_ports_scanned d) (d_port_count d) (fun p => p =? dst_port) ;;
      match seen with
      | Some _ => ret tt
      | None =>
          if d_port_count d <? 64 then
            ports <- lift (aset (d_ports_scanned d) (d_port_count d) dst_port) ;;
            let n := u8 (d_port_count d + 1) in
            if FIREWALL_PORTSCAN_THRESHOLD <=? n then
              count_port_scan ;;; det_put i (put_ports ports 0 now d)
            else det_put i (put_ports ports n now d)
          else ret tt
      end
  end.

(** * Rules *)

Definition rule_get (i : Z) : M fw firewall_rule :=
  l <- gets rules ;; lift (aget l i).
Definition rule_put (i : Z) (r : firewall_rule) : M fw unit :=
  l <- gets rules ;; l' <- lift (aset l i r) ;;
  modify (fun s => put_rules l' (rule_count s) s).

Definition is_deny (a : firewall_action) : bool :=
  match a with
  | FW_ACTION_DROP | FW_ACTION_REJECT | FW_ACTION_LOG_DROP => true
  | FW_ACTION_ACCEPT | FW_ACTION_LOG => false
  end.

(** What a packet offers the rules. *)
Record flow := mk_flow { f_src_ip : Z; f_dst_ip : Z; f_src_port : Z; f_dst_port : Z; f_protocol : Z }.

Definition rule_applies (f : flow) (r : firewall_rule) : bool :=
  ((r_protocol r =? 0) || (r_protocol r =? f_protocol f)) &&
  ip_matches (f_src_ip f) (r_src_ip r) (r_src_ip_mask r) &&
  ip_matches (f_dst_ip f) (r_dst_ip r) (r_dst_ip_mask r) &&
  port_matches (f_src_port f) (r_src_port r) &&
  port_matches (f_dst_port f) (r_dst_port r).

(** The tests of the loop body, in the pass over one priority. *)
Definition rule_hit (f : flow) (prio pass : Z) (r : firewall_rule) : bool :=
  r_enabled r && (r_priority r =? prio) && eqb (pass =? 0) (is_deny (r_action r)) && rule_applies f r.

Definition charge_rule (i pkt_len : Z) : M fw unit :=
  r <- rule_get i ;;
  rule_put i (put_counts (r_packet_count r +32 1)
    (if 0xFFFFFFFF - pkt_len <? r_byte_count r then pkt_len else r_byte_count r +32 pkt_len) r).

Definition match_rule (ip : list Z) (src_port dst_port : Z) : M fw (option Z) :=
  src_ip <- net32 ip ip_src_ip ;;
  dst_ip <- net32 ip ip_dest_ip ;;
  protocol <- load8 ip ip_protocol ;;
  n <- gets rule_count ;;
  let f := mk_flow src_ip dst_ip src_port dst_port protocol in
  r <- for_ret 1000 0 (fun prio => for_ret 2 0 (fun pass => scan rules n (rule_hit f prio pass))) ;;
  match r with
  | Some i =>
      pkt_len <- net16 ip ip_total_length ;;
      charge_rule i pkt_len ;;;
      ret (Some i)
  | None => ret None
  end.

(** * The filter *)

(** The part of [firewall_check_packet] behind the header checks: rate limit,
    tracked connections, rules. *)
Definition filter_flow (now : Z) (ip : list Z) (src_ip dst_ip src_port dst_port protocol : Z) : M fw bool :=
  ok <- check_rate_limit now src_ip ;;
  if negb ok then drop_packet else
  conn <- find_connection src_ip dst_ip src_port dst_port protocol ;;
  established <- match conn with
                 | Some i =>
                     c <- conn_get i ;;
                     conn_put i (put_seen now (c_packets_sent c +32 1) c) ;;;
                     ret (bool_decide (c_state c = CONN_STATE_ESTABLISHED))
                 | None => ret false
                 end ;;
  if (established : bool) then accept else
  r <- match_rule ip src_port dst_port ;;
  match r with
  | Some k =>
      rule <- rule_get k ;;
      if negb (is_deny (r_action rule)) then
        match conn with
        | None =>
            if (protocol =? IPPROTO_TCP) || (protocol =? IPPROTO_UDP) then
              i <- create_connection now src_ip dst_ip src_port dst_port protocol ;;
              c <- conn_get i ;;
              conn_put i (put_conn_state CONN_STATE_ESTABLISHED c)
            else ret tt
        | Some _ => ret tt
        end ;;;
        accept
      else drop_packet
  | None => drop_packet
  end.

Definition is_dhcp (src_port dst_port : Z) : bool :=
  (src_port =? DHCP_SERVER_PORT) && (dst_port =? DHCP_CLIENT_PORT) ||
  (src_port =? DHCP_CLIENT_PORT) && (dst_port =? DHCP_SERVER_PORT).

(** Behind the DHCP exception: bogon sources, TCP ports, detectors. *)
Definition inspect (now : Z) (ip : list Z) (ihl src_ip dst_ip protocol udp_src udp_dst : Z) : M fw bool :=
  let packet_len := Z.of_nat (length ip) in
  if is_bogon_ip src_ip then drop_packet else
  if (protocol =? IPPROTO_TCP) && (packet_len <? ihl + sizeof_tcp_header) then drop_packet else
  ports <- (if protocol =? IPPROTO_TCP then
              src_port <- net16 ip (ihl + l4_src_port) ;;
              dst_port <- net16 ip (ihl + l4_dest_port) ;;
              flags <- load8 ip (ihl + tcp_flags) ;;
              detect_syn_flood now src_ip flags ;;;
              ret (src_port, dst_port)
            else ret (udp_src, udp_dst)) ;;
  let (src_port, dst_port) := ports in
  (if 0 <? dst_port then detect_port_scan now src_ip dst_port else ret tt) ;;;
  filter_flow now ip src_ip dst_ip src_port dst_port protocol.

(** Addresses, UDP ports and the DHCP exception. *)
Definition dispatch (now : Z) (ip : list Z) (ihl : Z) : M fw bool :=
  let packet_len := Z.of_nat (length ip) in
  src_ip <- net32 ip ip_src_ip ;;
  dst_ip <- net32 ip ip_dest_ip ;;
  protocol <- load8 ip ip_protocol ;;
  if protocol =? IPPROTO_UDP then
    if packet_len <? ihl + sizeof_udp_header then drop_packet else
    src_port <- net16 ip (ihl + l4_src_port) ;;
    dst_port <- net16 ip (ihl + l4_dest_port) ;;
    if is_dhcp src_port dst_port then accept
    else inspect now ip ihl src_ip dst_ip protocol src_port dst_port
  else inspect now ip ihl src_ip dst_ip protocol 0 0.

(** The buffer has [packet_len] bytes. *)
Definition firewall_check_packet (now : Z) (ip : list Z) : M fw bool :=
  let packet_len := Z.of_nat (length ip) in
  enabled <- gets firewall_enabled ;;
  if negb enabled then ret true else
  if packet_len <? sizeof_ip_header then drop_packet else
  version_ihl <- load8 ip ip_version_ihl ;;
  let ihl := u8 (Z.land version_ihl 0x0F * 4) in
  if (ihl <? sizeof_ip_header) || (packet_len <? ihl) then drop_packet else
  ip_total_len <- net16 ip ip_total_length ;;
  if packet_len <? ip_total_len then drop_packet else
  flags_fragment <- net16 ip ip_flags_fragment ;;
  if negb (Z.land flags_fragment 0x2000 =? 0) || negb (Z.land flags_fragment 0x1FFF =? 0)
  then drop_packet else
  count_total ;;;
  dispatch now ip ihl.

(** * Configuration *)

Definition firewall_init (s : fw) : fw :=
  mk_fw (replicate 64 zero_rule) 0 (replicate 128 zero_conn) 0 (rate_limits s) 0
    (attack_detectors s) 0 zero_stats true (global_packet_count s) (global_window_start s).

Definition firewall_add_rule (rule : firewall_rule) : M fw Z :=
  n <- gets rule_count ;;
  if FIREWALL_MAX_RULES <=? n then ret (-1) else
  rule_put n (put_counts 0 0 (put_enabled true rule)) ;;;
  modify (fun s => put_rules (rules s) (n + 1) s) ;;;
  ret n.

Definition firewall_remove_rule (rule_id : Z) : M fw Z :=
  n <- gets rule_count ;;
  if (rule_id <? 0) || (n <=? rule_id) then ret (-1) else
  for_each (iters rule_id (n - 1)) rule_id (fun i => r <- rule_get (i + 1) ;; rule_put i r) ;;;
  modify (fun s => put_rules (rules s) (n - 1) s) ;;;
  ret 0.

Definition firewall_set_rule_enabled (rule_id : Z) (enabled : bool) : M fw Z :=
  n <- gets rule_count ;;
  if (rule_id <? 0) || (n <=? rule_id) then ret (-1) else
  r <- rule_get rule_id ;;
  rule_put rule_id (put_enabled enabled r) ;;;
  ret 0.

Definition firewall_get_stats : M fw firewall_stats := gets stats.
Definition firewall_clear_rules : M fw unit :=
  modify (fun s => put_rules (replicate 64 zero_rule) 0 s).
Definition firewall_clear_connections : M fw unit :=
  modify (fun s => put_connections (replicate 128 zero_conn) 0 s).

(** [safe_strcpy(rule.description, description, 63)] into a zeroed array. *)
Definition rule_text (description : string) : string := substring 0 62 description.

Definition firewall_allow_outgoing : M fw unit := ret tt.
Definition firewall_allow_established : M fw unit := ret tt.
Definition firewall_allow_port (port protocol : Z) (description : string) : M fw unit :=
  _ <- firewall_add_rule (mk_rule 0 0 0 0 0 port protocol FW_ACTION_ACCEPT false true 0 0
                            (rule_text description) 50) ;; ret tt.
Definition firewall_allow_icmp : M fw unit :=
  _ <- firewall_add_rule (mk_rule 0 0 0 0 0 0 IPPROTO_ICMP FW_ACTION_ACCEPT false false 0 0
                            (rule_text "Allow ICMP") 50) ;; ret tt.
Definition block_rule (ip : Z) : firewall_rule :=
  mk_rule ip 0xFFFFFFFF 0 0 0 0 0 FW_ACTION_DROP false false 0 0 (rule_text "Blocked IP") 0.
Definition firewall_block_ip (ip : Z) : M fw unit := _ <- firewall_add_rule (block_rule ip) ;; ret tt.

(** * The invariant *)

Definition det_ok (d : attack_detector) : Prop :=
  length (d_ports_scanned d) = 64%nat /\ 0 <= d_port_count d < 20.
Definition actives (l : list connection_entry) : Z :=
  Z.of_nat (length (List.filter c_active l)).

(** The tables have the sizes of the C arrays, the counters stay inside of
    them, and [connection_count] counts the active entries. *)
Record fw_inv (s : fw) : Prop := mk_inv {
  inv_rules : length (rules s) = 64%nat;
  inv_rule_count : 0 <= rule_count s <= 64;
  inv_conns : length (connections s) = 128%nat;
  inv_conn_count : connection_count s = actives (connections s);
  inv_rates : length (rate_limits s) = 32%nat;
  inv_rate_count : 0 <= rate_limit_count s <= 32;
  inv_dets : length (attack_detectors s) = 16%nat;
  inv_det_count : 0 <= detector_count s <= 16;
  inv_det_ok : Forall det_ok (attack_detectors s) }.

(** What a packet leaves alone besides the tables it is recorded in. *)
Record same_decisions (s s' : fw) : Prop := mk_same {
  same_total : packets_total (stats s') = packets_total (stats s);
  same_accepted : packets_accepted (stats s') = packets_accepted (stats s);
  same_dropped : packets_dropped (stats s') = packets_dropped (stats s);
  same_enabled : firewall_enabled s' = firewall_enabled s }.
Record same_rules (s s' : fw) : Prop := mk_same_rules {
  same_rule_list : rules s' = rules s;
  same_rule_count : rule_count s' = rule_count s }.
Record same_conns (s s' : fw) : Prop := mk_same_conns {
  same_conn_list : connections s' = connections s }.
Record same_rates (s s' : fw) : Prop := mk_same_rates {
  same_rate_list : rate_limits s' = rate_limits s;
  same_rate_count : rate_limit_count s' = rate_limit_count s;
  same_global_count : global_packet_count s' = global_packet_count s;
  same_global_start : global_window_start s' = global_window_start s }.

(** A state with the invariant, opened. *)
Ltac inv_open H :=
  destruct H as [Hrl Hrc Hcl Hcc Hel Hec Hdl Hdc Hdo].

Section Tables.
Implicit Types s : fw.

Lemma rule_get_ok i s (Q : firewall_rule -> fw -> Prop) :
  fw_inv s -> 0 <= i < 64 -> (forall r, rules s !! Z.to_nat i = Some r -> Q r s) -> wp (rule_get i) Q s.
Proof.
  intros H Hi HQ. destruct (aget_range (rules s) i) as (r & Hr & E); [rewrite (inv_rules s H); lia|].
  apply wp_bind, wp_gets. eapply wp_lift; [exact E|]. by apply HQ.
Qed.

Lemma rule_put_ok i r s (Q : unit -> fw -> Prop) :
  fw_inv s -> 0 <= i < 64 -> Q tt (put_rules (<[Z.to_nat i := r]> (rules s)) (rule_count s) s) ->
  wp (rule_put i r) Q s.
Proof.
  intros H Hi HQ. apply wp_bind, wp_gets, wp_bind. eapply wp_lift.
  - apply aset_ok. rewrite (inv_rules s H). lia.
  - exact HQ.
Qed.

Lemma flow_get_ok i c s (Q : connection_entry -> fw -> Prop) :
  0 <= i -> connections s !! Z.to_nat i = Some c -> Q c s -> wp (conn_get i) Q s.
Proof. intros Hi Hc HQ. apply wp_bind, wp_gets. eapply wp_lift; [by apply aget_ok|done]. Qed.

Lemma flow_put_ok i c s (Q : unit -> fw -> Prop) :
  fw_inv s -> 0 <= i < 128 ->
  Q tt (put_connections (<[Z.to_nat i := c]> (connections s)) (connection_count s) s) ->
  wp (conn_put i c) Q s.
Proof.
  intros H Hi HQ. apply wp_bind, wp_gets, wp_bind. eapply wp_lift.
  - apply aset_ok. rewrite (inv_conns s H). lia.
  - exact HQ.
Qed.

Lemma rate_put_ok i e s (Q : unit -> fw -> Prop) :
  fw_inv s -> 0 <= i < 32 ->
  Q tt (put_rates (<[Z.to_nat i := e]> (rate_limits s)) (rate_limit_count s) s) ->
  wp (rate_put i e) Q s.
Proof.
  intros H Hi HQ. apply wp_bind, wp_gets, wp_bind. eapply wp_lift.
  - apply aset_ok. rewrite (inv_rates s H). lia.
  - exact HQ.
Qed.

Lemma det_put_ok i d s (Q : unit -> fw -> Prop) :
  length (attack_detectors s) = 16%nat -> 0 <= i < 16 ->
  Q tt (put_detectors (<[Z.to_nat i := d]> (attack_detectors s)) (detector_count s) s) ->
  wp (det_put i d) Q s.
Proof.
  intros H Hi HQ. apply wp_bind, wp_gets, wp_bind. eapply wp_lift.
  - apply aset_ok. lia.
  - exact HQ.
Qed.

(** ** Detectors *)

(** What the detectors change. *)
Definition det_frame s s' : Prop :=
  fw_inv s' /\ same_decisions s s' /\ same_rules s s' /\ same_conns s s' /\ same_rates s s'.

Lemma det_frame_refl s : fw_inv s -> det_frame s s.
Proof. intros H. unfold det_frame. split; [done|]. split_and!; by constructor. Qed.

Lemma det_frame_trans s1 s2 s3 : det_frame s1 s2 -> det_frame s2 s3 -> det_frame s1 s3.
Proof.
  intros (_ & [] & [] & [] & []) (H & [] & [] & [] & []).
  split; [exact H|]. split_and!; constructor; congruence.
Qed.

Lemma det_write s i d t :
  fw_inv s -> 0 <= i -> det_ok d ->
  packets_total t = packets_total (stats s) -> packets_accepted t = packets_accepted (stats s) ->
  packets_dropped t = packets_dropped (stats s) ->
  det_frame s (put_detectors (<[Z.to_nat i := d]> (attack_detectors s)) (detector_count s) (put_stats t s)).
Proof.
  intros [] Hi Hd. split; [|split_and!; by constructor].
  constructor; simpl; rewrite ?length_insert; try done. by apply Forall_insert.
Qed.

Lemma find_detector_ok src s (Q : option Z -> fw -> Prop) :
  fw_inv s ->
  (forall s', det_frame s s' -> Q None s') ->
  (forall s' i d, det_frame s s' -> 0 <= i < 16 -> attack_detectors s' !! Z.to_nat i = Some d ->
     det_ok d -> Q (Some i) s') ->
  wp (find_detector src) Q s.
Proof.
  intros H HN HS. pose proof H as Hinv. inv_open H. unfold find_detector.
  apply wp_bind, wp_gets, wp_bind. apply scan_ok; [lia|]. intros [i|] Hr.
  - apply wp_ret. destruct Hr as (Hi & (d & (Hd & Hlt)%lookup_take_Some & _) & _).
    apply (HS s i d); [by apply det_frame_refl|lia|done|]. by apply (Forall_lookup_1 _ _ _ _ Hdo Hd).
  - destruct (Z.ltb_spec (detector_count s) 16); [|by apply wp_ret, HN, det_frame_refl].
    apply wp_bind, wp_modify, wp_bind, det_put_ok; simpl; [done|lia|]. apply wp_ret.
    eapply HS.
    + split; [|split_and!; by constructor].
      constructor; simpl; rewrite ?length_insert; try done; [lia|]. by apply Forall_insert.
    + lia.
    + simpl. apply lookup_insert_len. lia.
    + done.
Qed.

Lemma detect_syn_flood_ok now src flags s (Q : unit -> fw -> Prop) :
  fw_inv s -> (forall s', det_frame s s' -> Q tt s') -> wp (detect_syn_flood now src flags) Q s.
Proof.
  intros H HQ. unfold detect_syn_flood. destruct (Z.eqb_spec (Z.land flags TCP_SYN) 0).
  { by apply wp_ret, HQ, det_frame_refl. }
  apply wp_bind, find_detector_ok; [done|intros; by apply wp_ret, HQ|].
  intros s' i d Hf Hi Hd Hok. apply wp_bind, wp_bind, wp_gets.
  eapply wp_lift; [by apply aget_ok; [lia|]|].
  assert (fw_inv s') as Hs by apply Hf. pose proof (inv_dets s' Hs).
  assert (forall n w, det_ok (put_syn n w d)) as Hsyn by (intros; exact Hok).
  wp_step; [|wp_step].
  - apply det_put_ok; [done|lia|]. apply HQ. eapply det_frame_trans; [exact Hf|].
    by apply (det_write s' i _ (stats s')); [| lia |..].
  - apply wp_bind, wp_modify, det_put_ok; [done|lia|]. apply HQ. eapply det_frame_trans; [exact Hf|].
    by apply (det_write s' i _ _); [| lia |..].
  - apply det_put_ok; [done|lia|]. apply HQ. eapply det_frame_trans; [exact Hf|].
    by apply (det_write s' i _ (stats s')); [| lia |..].
Qed.

Lemma detect_port_scan_ok now src port s (Q : unit -> fw -> Prop) :
  fw_inv s -> (forall s', det_frame s s' -> Q tt s') -> wp (detect_port_scan now src port) Q s.
Proof.
  intros H HQ. unfold detect_port_scan.
  apply wp_bind, find_detector_ok; [done|intros; by apply wp_ret, HQ|].
  intros s' i d Hf Hi Hd [Hlen Hcnt]. apply wp_bind, wp_bind, wp_gets.
  eapply wp_lift; [by apply aget_ok; [lia|]|].
  assert (fw_inv s') as Hs by apply Hf. pose proof (inv_dets s' Hs).
  apply wp_bind, scan_ok; [lia|]. intros [?|] _; [by apply wp_ret, HQ|].
  destruct (Z.ltb_spec (d_port_count d) 64); [|lia].
  apply wp_bind. eapply wp_lift; [apply aset_ok; lia|].
  rewrite u8_small by lia. cbv zeta. destruct (Z.leb_spec FIREWALL_PORTSCAN_THRESHOLD (d_port_count d + 1)).
  - apply wp_bind, wp_modify, det_put_ok; [done|lia|]. apply HQ. eapply det_frame_trans; [exact Hf|].
    apply (det_write s' i _ _); [done|lia| |done..]. split; simpl; [by rewrite length_insert|lia].
  - apply det_put_ok; [done|lia|]. apply HQ. eapply det_frame_trans; [exact Hf|].
    apply (det_write s' i _ (stats s')); [done|lia| |done..].
    unfold FIREWALL_PORTSCAN_THRESHOLD in *. split; simpl; [by rewrite length_insert|lia].
Qed.

(** ** Rate limits *)

(** The packet is inside the limits of the filter and of its source. *)
Definition global_ok s now : bool :=
  (FIREWALL_RATE_LIMIT_WINDOW <? now -32 global_window_start s) ||
  (global_packet_count s +32 1 <=? GLOBAL_RATE_LIMIT).
Definition source_ok s now src : bool :=
  match List.find (fun e => rl_src_ip e =? src) (take (Z.to_nat (rate_limit_count s)) (rate_limits s)) with
  | Some e => (FIREWALL_RATE_LIMIT_WINDOW <? now -32 rl_window_start e) || (rl_packet_count e +32 1 <=? 100)
  | None => true
  end.
Definition within_rate s now src : bool := global_ok s now && source_ok s now src.

Definition rate_frame s s' : Prop :=
  fw_inv s' /\ same_decisions s s' /\ same_rules s s' /\ same_conns s s'.
(** The global window after a packet. *)
Definition global_step s now s' : Prop :=
  if FIREWALL_RATE_LIMIT_WINDOW <? now -32 global_window_start s
  then global_packet_count s' = 1 /\ global_window_start s' = now
  else global_packet_count s' = global_packet_count s +32 1 /\
       global_window_start s' = global_window_start s.

Lemma oldest_from_range {A} (time : A -> Z) l i best t :
  0 <= best < i -> 0 <= oldest_from time l i best t < i + Z.of_nat (length l).
Proof.
  revert i best t. induction l as [|x l IH]; intros i best t H; cbn [oldest_from length]; [lia|].
  destruct (time x <? t); [specialize (IH (i + 1) i (time x))|specialize (IH (i + 1) best t)]; lia.
Qed.

Lemma oldest_range {A} (time : A -> Z) l : l <> [] -> 0 <= oldest time l < Z.of_nat (length l).
Proof.
  destruct l as [|x l]; [done|]. intros _. unfold oldest.
  pose proof (oldest_from_range time l 1 0 (time x)). cbn [length]. lia.
Qed.

Lemma check_global_ok now s (Q : bool -> fw -> Prop) :
  fw_inv s ->
  (forall s', rate_frame s s' -> rate_limits s' = rate_limits s -> rate_limit_count s' = rate_limit_count s ->
     global_step s now s' -> Q (global_ok s now) s') ->
  wp (check_global_limit now) Q s.
Proof.
  intros H HQ. pose proof H as H'. inv_open H'. unfold check_global_limit, global_ok, global_step in *.
  apply wp_bind, wp_gets. wp_step.
  - apply wp_bind, wp_modify, wp_ret. simpl in HQ. apply HQ; [|done..].
    split; [by constructor|split_and!; by constructor].
  - apply wp_bind, wp_gets, wp_bind, wp_modify. simpl in HQ. rewrite Z.ltb_antisym.
    destruct (global_packet_count s +32 1 <=? GLOBAL_RATE_LIMIT) eqn:E; simpl.
    + apply wp_ret, HQ; [|done..]. split; [by constructor|split_and!; by constructor].
    + apply wp_bind, wp_modify, wp_ret, HQ; [|done..]. split; [by constructor|split_and!; by constructor].
Qed.

Lemma rate_write s i e n t :
  fw_inv s -> 0 <= n <= 32 ->
  packets_total t = packets_total (stats s) -> packets_accepted t = packets_accepted (stats s) ->
  packets_dropped t = packets_dropped (stats s) ->
  rate_frame s (put_stats t (put_rates (<[Z.to_nat i := e]> (rate_limits s)) n s)).
Proof.
  intros [] Hn. split; [|split_and!; by constructor].
  constructor; simpl; rewrite ?length_insert; done.
Qed.

Lemma rate_frame_trans s1 s2 s3 : rate_frame s1 s2 -> rate_frame s2 s3 -> rate_frame s1 s3.
Proof.
  intros (_ & [] & [] & []) (H & [] & [] & []).
  split; [exact H|]. split_and!; constructor; congruence.
Qed.

Lemma charge_source_ok now i e s (Q : bool -> fw -> Prop) :
  fw_inv s -> 0 <= i -> rate_limits s !! Z.to_nat i = Some e ->
  (forall s', rate_frame s s' -> global_packet_count s' = global_packet_count s ->
     global_window_start s' = global_window_start s ->
     Q ((FIREWALL_RATE_LIMIT_WINDOW <? now -32 rl_window_start e) || (rl_packet_count e +32 1 <=? 100)) s') ->
  wp (charge_source now i) Q s.
Proof.
  intros H Hi He HQ. pose proof (lookup_lt_Some _ _ _ He) as Hlt. rewrite (inv_rates s H) in Hlt.
  pose proof (inv_rate_count s H).
  unfold charge_source. apply wp_bind, wp_bind, wp_gets. eapply wp_lift; [by apply aget_ok|].
  cbv zeta. rewrite (Z.ltb_antisym _ 100). wp_step.
  - apply wp_bind, rate_put_ok; [done|lia|]. apply wp_ret, HQ; [|done..].
    by apply (rate_write s i _ _ (stats s)).
  - destruct (rl_packet_count e +32 1 <=? 100); simpl.
    + apply wp_bind, rate_put_ok; [done|lia|]. apply wp_ret, HQ; [|done..].
      by apply (rate_write s i _ _ (stats s)).
    + apply wp_bind, rate_put_ok; [done|lia|]. apply wp_bind, wp_modify, wp_ret, HQ; [|done..].
      by apply rate_write.
Qed.

Lemma check_rate_limit_ok now src s (Q : bool -> fw -> Prop) :
  fw_inv s ->
  (forall s', rate_frame s s' -> global_step s now s' -> Q (within_rate s now src) s') ->
  wp (check_rate_limit now src) Q s.
Proof.
  intros H HQ. unfold check_rate_limit. apply wp_bind, check_global_ok; [done|].
  intros s1 Hf Hl Hc Hg. unfold within_rate in HQ.
  destruct (global_ok s now); simpl in *; [|by apply wp_ret, HQ].
  assert (fw_inv s1) as H1 by apply Hf.
  assert (forall s2, rate_frame s1 s2 -> global_packet_count s2 = global_packet_count s1 ->
            global_window_start s2 = global_window_start s1 -> Q (source_ok s now src) s2) as HQ1.
  { intros s2 H2 E1 E2. apply HQ; [by eapply rate_frame_trans|].
    unfold global_step in *. rewrite E1, E2. exact Hg. }
  clear HQ. pose proof (inv_rates s1 H1). pose proof (inv_rate_count s1 H1).
  unfold source_ok in HQ1. rewrite <- Hl, <- Hc in HQ1.
  apply wp_bind, wp_gets, wp_bind, scan_ok; [lia|]. intros r Hr.
  rewrite (found_find _ _ _ Hr) in HQ1. destruct r as [i|].
  - destruct Hr as (Hi & (e & He & _) & _). rewrite He in HQ1.
    apply lookup_take_Some in He as [He _]. by apply (charge_source_ok now i e).
  - wp_step; [|apply wp_bind, wp_gets].
    + apply wp_bind, rate_put_ok; [done|lia|]. apply wp_bind, wp_modify, wp_ret, HQ1; [|done..].
      by apply (rate_write s1 (rate_limit_count s1) _ (rate_limit_count s1 + 1) (stats s1)); [|lia|..].
    + assert (0 <= oldest rl_last_seen (rate_limits s1) < Z.of_nat (length (rate_limits s1))).
      { apply oldest_range. intros E. by rewrite E in *. }
      apply wp_bind, rate_put_ok; [done|lia|]. apply wp_ret, HQ1; [|done..].
      by apply (rate_write s1 _ _ (rate_limit_count s1) (stats s1)).
Qed.

(** ** Connections *)

Lemma actives_insert l i c d :
  l !! i = Some d ->
  actives (<[i := c]> l) = actives l + (if c_active c then 1 else 0) - (if c_active d then 1 else 0).
Proof.
  unfold actives. revert i. induction l as [|x l IH]; intros [|i] Hd; simpl in *; try done.
  - injection Hd as ->. destruct (c_active c), (c_active d); simpl; lia.
  - specialize (IH i Hd). destruct (c_active x); cbn [length]; lia.
Qed.

(** Same state of the filter but for the connections. *)
Record conn_frame s s' : Prop := mk_conn_frame {
  cf_inv : fw_inv s'; cf_dec : same_decisions s s'; cf_rules : same_rules s s'; cf_rates : same_rates s s' }.

Lemma conn_frame_trans s1 s2 s3 : conn_frame s1 s2 -> conn_frame s2 s3 -> conn_frame s1 s3.
Proof. intros [_ [] [] []] [H [] [] []]. constructor; [exact H|constructor; congruence..]. Qed.

Lemma conn_write s i c d :
  fw_inv s -> connections s !! i = Some d -> c_active c = c_active d ->
  conn_frame s (put_connections (<[i := c]> (connections s)) (connection_count s) s).
Proof.
  intros [] Hd Hact. constructor; [|by constructor..].
  constructor; simpl; rewrite ?length_insert; try done. rewrite (actives_insert _ _ _ _ Hd), Hact. lia.
Qed.

Lemma create_connection_ok now si di sp dp pr s (Q : Z -> fw -> Prop) :
  fw_inv s ->
  (forall i s', conn_frame s s' -> 0 <= i < 128 ->
     connections s' = <[Z.to_nat i := new_conn now si di sp dp pr]> (connections s) -> Q i s') ->
  wp (create_connection now si di sp dp pr) Q s.
Proof.
  intros H HQ. pose proof H as H'. inv_open H'. unfold create_connection.
  apply wp_bind, scan_ok; [rewrite Hcl; done|]. intros [i|] Hr.
  - destruct Hr as (Hi & (d & (Hd & Hlt)%lookup_take_Some & Hp) & _). apply negb_true_iff in Hp.
    change (Z.to_nat FIREWALL_MAX_CONNECTIONS) with 128%nat in Hlt.
    apply wp_bind, flow_put_ok; [done|lia|]. apply wp_bind, wp_modify, wp_ret, HQ; [|lia|done].
    constructor; [|by constructor..].
    constructor; simpl; rewrite ?length_insert; try done. rewrite (actives_insert _ _ _ _ Hd), Hp. simpl. lia.
  - assert (0 <= oldest c_last_seen (connections s) < Z.of_nat (length (connections s))).
    { apply oldest_range. intros E. by rewrite E in *. }
    apply wp_bind, wp_gets, wp_bind, flow_put_ok; [done|lia|]. apply wp_ret, HQ; [|lia|done].
    destruct (lookup_lt_is_Some_2 (connections s) (Z.to_nat (oldest c_last_seen (connections s)))) as [d Hd]; [lia|].
    eapply conn_write; [done|exact Hd|]. simpl in Hr.
    specialize (Hr (Z.to_nat (oldest c_last_seen (connections s))) d).
    rewrite lookup_take_lt in Hr by (change (Z.to_nat FIREWALL_MAX_CONNECTIONS) with 128%nat; lia).
    specialize (Hr Hd). by apply negb_false_iff in Hr.
Qed.

(** ** Rules *)

Definition ruleset s : list firewall_rule := take (Z.to_nat (rule_count s)) (rules s).

(** Rules that can decide about a flow: priorities from 1000 on are never
    looked at. *)
Definition candidate (f : flow) (r : firewall_rule) : bool :=
  r_enabled r && rule_applies f r && (0 <=? r_priority r) && (r_priority r <? 1000).
(** Lower numbers first, and refusals first within one priority. *)
Definition rank (r : firewall_rule) : Z :=
  2 * r_priority r + (if is_deny (r_action r) then 0 else 1).
(** The rule [r] at [i] decides: it has the lowest rank of the candidates,
    and of those of its rank it stands first. *)
Definition best (f : flow) (rs : list firewall_rule) (i : nat) (r : firewall_rule) : Prop :=
  rs !! i = Some r /\ candidate f r = true /\
  forall j r', rs !! j = Some r' -> candidate f r' = true ->
    rank r < rank r' \/ rank r = rank r' /\ (i <= j)%nat.

Lemma rule_hit_rank f prio pass r :
  0 <= prio < 1000 -> 0 <= pass < 2 ->
  rule_hit f prio pass r = candidate f r && (rank r =? 2 * prio + pass).
Proof.
  intros Hp Hq. unfold rule_hit, candidate, rank. destruct (r_enabled r); [|done].
  destruct (rule_applies f r); [|by rewrite !andb_false_r]. rewrite !andb_true_r. simpl.
  destruct (is_deny (r_action r)), (Z.eqb_spec (r_priority r) prio), (Z.eqb_spec pass 0),
    (Z.leb_spec 0 (r_priority r)), (Z.ltb_spec (r_priority r) 1000); simpl;
    symmetry; first [apply Z.eqb_eq; lia | apply Z.eqb_neq; lia | done | lia].
Qed.

(** The scan over priorities and passes. *)
Lemma rule_search_ok f s (Q : option Z -> fw -> Prop) :
  fw_inv s ->
  ((forall j r, ruleset s !! j = Some r -> candidate f r = false) -> Q None s) ->
  (forall i r, 0 <= i -> best f (ruleset s) (Z.to_nat i) r -> Q (Some i) s) ->
  wp (for_ret 1000 0 (fun prio => for_ret 2 0 (fun pass => scan rules (rule_count s) (rule_hit f prio pass)))) Q s.
Proof.
  intros H HN HS. pose proof (inv_rules s H). pose proof (inv_rule_count s H).
  set (none_below k := forall j r, ruleset s !! j = Some r -> candidate f r = true -> k <= rank r).
  apply (wp_for_ret (fun prio s' => s' = s /\ none_below (2 * prio))).
  - split; [done|]. intros j r _. unfold candidate, rank. destruct (is_deny (r_action r)); lia.
  - intros prio ? Hp [-> Hb]. cbn in Hp.
    apply (wp_for_ret (fun pass s' => s' = s /\ none_below (2 * prio + pass))).
    + split; [done|]. by replace (2 * prio + 0) with (2 * prio) by lia.
    + intros pass ? Hq [-> Hb']. cbn in Hq. apply scan_ok; [lia|]. intros [i|] Hr.
      * destruct Hr as (Hi & (r & Hr & Hhit) & Hno). rewrite rule_hit_rank in Hhit by lia.
        apply andb_true_iff in Hhit as [Hc Hk%Z.eqb_eq]. apply (HS i r Hi). split; [done|]. split; [done|].
        intros j r' Hj Hc'. specialize (Hb' j r' Hj Hc'). destruct (Z.eq_dec (rank r') (rank r)); [|lia].
        right. split; [done|]. destruct (decide (Z.to_nat i <= j)%nat); [done|]. exfalso.
        specialize (Hno j r'). rewrite rule_hit_rank, Hc' in Hno by lia.
        assert ((rank r' =? 2 * prio + pass) = false) by (apply Hno; [lia|done]). lia.
      * split; [done|]. intros j r Hj Hc. specialize (Hb' j r Hj Hc). specialize (Hr j r Hj).
        rewrite rule_hit_rank, Hc in Hr by lia. simpl in Hr. lia.
    + intros ? [-> Hb']. split; [done|]. by replace (2 * (prio + 1)) with (2 * prio + (0 + Z.of_nat 2)) by lia.
  - intros ? [-> Hb]. apply HN. intros j r Hj. destruct (candidate f r) eqn:Hc; [|done].
    specialize (Hb j r Hj Hc). unfold candidate, rank in *. destruct (is_deny (r_action r)); lia.
Qed.

(** Same rules, up to their counters. *)
Definition kept s s' : Prop :=
  rule_count s' = rule_count s /\ map (put_counts 0 0) (rules s') = map (put_counts 0 0) (rules s).

Lemma kept_refl s s' : same_rules s s' -> kept s s'.
Proof. intros [E1 E2]. split; [done|]. by rewrite E1. Qed.
Lemma kept_trans s1 s2 s3 : kept s1 s2 -> kept s2 s3 -> kept s1 s3.
Proof. intros [] []. split; congruence. Qed.

(** The flow of a packet with these ports. *)
Definition flow_at (ip : list Z) (src_port dst_port : Z) : flow :=
  mk_flow (be32 ip ip_src_ip) (be32 ip ip_dest_ip) src_port dst_port (at8 ip ip_protocol).

Definition rule_frame s s' : Prop :=
  fw_inv s' /\ same_decisions s s' /\ kept s s' /\ same_conns s s' /\ same_rates s s'.

Lemma match_rule_ok ip sp dp s (Q : option Z -> fw -> Prop) :
  fw_inv s -> bytes ip -> 20 <= Z.of_nat (length ip) ->
  ((forall j r, ruleset s !! j = Some r -> candidate (flow_at ip sp dp) r = false) -> Q None s) ->
  (forall i r s', 0 <= i < 64 -> best (flow_at ip sp dp) (ruleset s) (Z.to_nat i) r -> rule_frame s s' ->
     (exists r', rules s' !! Z.to_nat i = Some r' /\ r_action r' = r_action r) -> Q (Some i) s') ->
  wp (match_rule ip sp dp) Q s.
Proof.
  intros H Hb Hlen HN HS. unfold match_rule, ip_src_ip, ip_dest_ip, ip_protocol, ip_total_length.
  apply wp_bind, net32_ok; [done|lia..|]. apply wp_bind, net32_ok; [done|lia..|].
  apply wp_bind, load8_ok; [lia|]. apply wp_bind, wp_gets. cbv zeta. apply wp_bind.
  apply rule_search_ok; [done|intros Hno; apply wp_ret, HN, Hno|].
  intros i r Hi Hbest. pose proof H as H'. inv_open H'.
  destruct Hbest as (Hr & Hrest). pose proof Hr as (Hr' & Hlt)%lookup_take_Some.
  apply wp_bind, net16_ok; [done|lia..|]. apply wp_bind, wp_bind, rule_get_ok; [done|lia|].
  intros r0 Hr0. assert (r0 = r) as -> by congruence. apply rule_put_ok; [done|lia|]. apply wp_ret.
  eapply HS; [lia|by split| |].
  - split; [constructor; simpl; rewrite ?length_insert; done|]. split_and!; try by constructor.
    split; [done|]. simpl. rewrite list_fmap_insert. apply list_insert_id.
    rewrite list_lookup_fmap, Hr0. done.
  - simpl. eexists. split; [apply lookup_insert_len; lia|done].
Qed.

Lemma best_unique f rs i r j r' : best f rs i r -> best f rs j r' -> r = r'.
Proof.
  intros (Hi & Hc & Hbest) (Hj & Hc' & Hbest').
  destruct (Hbest j r' Hj Hc'), (Hbest' i r Hi Hc); try lia.
  assert (i = j) as -> by lia. congruence.
Qed.

(** ** The decision *)

(** The flow belongs to a connection that is tracked as established. *)
Definition established s (f : flow) : bool :=
  match List.find (conn_is (f_src_ip f) (f_dst_ip f) (f_src_port f) (f_dst_port f) (f_protocol f))
          (connections s) with
  | Some c => bool_decide (c_state c = CONN_STATE_ESTABLISHED)
  | None => false
  end.
(** The deciding rule accepts. *)
Definition permits (f : flow) (rs : list firewall_rule) : Prop :=
  exists i r, best f rs i r /\ is_deny (r_action r) = false.

(** The outcome of a packet in the counters. *)
Definition decided s s' (b : bool) : Prop :=
  packets_accepted (stats s') = (if b then u64 (packets_accepted (stats s) + 1) else packets_accepted (stats s)) /\
  packets_dropped (stats s') = (if b then packets_dropped (stats s) else u64 (packets_dropped (stats s) + 1)) /\
  firewall_enabled s' = firewall_enabled s.

(** What happens on the way to the decision. *)
Definition reached s s' : Prop :=
  fw_inv s' /\ kept s s' /\
  packets_accepted (stats s') = packets_accepted (stats s) /\
  packets_dropped (stats s') = packets_dropped (stats s) /\
  firewall_enabled s' = firewall_enabled s.

Lemma reached_trans s1 s2 s3 : reached s1 s2 -> reached s2 s3 -> reached s1 s3.
Proof.
  intros (_ & K1 & ? & ? & ?) (Hs & K2 & ? & ? & ?). split; [exact Hs|].
  split; [by eapply kept_trans|]. split_and!; congruence.
Qed.

Lemma reached_same s s' : fw_inv s' -> same_decisions s s' -> same_rules s s' -> reached s s'.
Proof. intros H [] K. split; [done|]. split; [by apply kept_refl|done]. Qed.

Lemma accept_ok s1 s (Q : bool -> fw -> Prop) :
  reached s1 s -> (forall s', fw_inv s' -> kept s1 s' -> decided s1 s' true -> Q true s') -> wp accept Q s.
Proof.
  intros ([] & K & E1 & E2 & E3) HQ. apply wp_bind, wp_modify, wp_ret, HQ; [by constructor|exact K|].
  unfold decided. simpl. by rewrite E1, E2, E3.
Qed.

Lemma drop_ok s1 s (Q : bool -> fw -> Prop) :
  reached s1 s -> (forall s', fw_inv s' -> kept s1 s' -> decided s1 s' false -> Q false s') -> wp drop_packet Q s.
Proof.
  intros ([] & K & E1 & E2 & E3) HQ. apply wp_bind, wp_modify, wp_ret, HQ; [by constructor|exact K|].
  unfold decided. simpl. by rewrite E1, E2, E3.
Qed.

(** The connection of a flow is looked up and stamped. *)
Lemma stamp_ok now f s (k : option Z -> bool -> M fw bool) (R : bool -> fw -> Prop) :
  fw_inv s ->
  (forall conn s', reached s s' -> same_rules s s' -> wp (k conn (established s f)) R s') ->
  wp (conn <- find_connection (f_src_ip f) (f_dst_ip f) (f_src_port f) (f_dst_port f) (f_protocol f) ;;
      b <- match conn with
           | Some i => c <- conn_get i ;; conn_put i (put_seen now (c_packets_sent c +32 1) c) ;;;
                       ret (bool_decide (c_state c = CONN_STATE_ESTABLISHED))
           | None => ret false
           end ;; k conn b) R s.
Proof.
  intros H HR. pose proof (inv_conns s H) as Hl. apply wp_bind, scan_ok; [rewrite Hl; done|].
  intros r Hr. rewrite take_ge in Hr by (rewrite Hl; done). unfold established in HR.
  rewrite (found_find _ _ _ Hr) in HR. apply wp_bind. destruct r as [i|].
  - destruct Hr as (Hi & (c & Hc & _) & _). rewrite Hc in HR. pose proof (lookup_lt_Some _ _ _ Hc).
    apply wp_bind, (flow_get_ok i c); [done..|]. apply wp_bind, flow_put_ok; [done|lia|]. apply wp_ret.
    assert (conn_frame s (put_connections (<[Z.to_nat i:=put_seen now (c_packets_sent c +32 1) c]> (connections s))
              (connection_count s) s)) as Hf by by eapply conn_write.
    apply HR; [apply reached_same; apply Hf|apply Hf].
  - apply wp_ret, HR; [|done]. by apply reached_same.
Qed.

(** A connection for a flow a rule accepted. *)
Lemma track_ok now (conn : option Z) si di sp dp pr s (Q : unit -> fw -> Prop) :
  fw_inv s -> (forall s', reached s s' -> Q tt s') ->
  wp (match conn with
      | None => if (pr =? IPPROTO_TCP) || (pr =? IPPROTO_UDP) then
                  i <- create_connection now si di sp dp pr ;; c <- conn_get i ;;
                  conn_put i (put_conn_state CONN_STATE_ESTABLISHED c)
                else ret tt
      | Some _ => ret tt
      end) Q s.
Proof.
  intros H HQ. assert (reached s s) by by apply reached_same.
  destruct conn; [by apply wp_ret, HQ|]. wp_step; [|by apply HQ].
  apply wp_bind, create_connection_ok; [done|]. intros i s' Hf Hi E. pose proof (inv_conns s' (cf_inv _ _ Hf)) as Hl.
  assert (connections s' !! Z.to_nat i = Some (new_conn now si di sp dp pr)) as Hc.
  { rewrite E in *. rewrite length_insert in Hl. apply lookup_insert_len. lia. }
  apply wp_bind. eapply flow_get_ok; [lia|exact Hc|]. apply flow_put_ok; [apply Hf|lia|]. apply HQ.
  assert (conn_frame s' (put_connections (<[Z.to_nat i:=put_conn_state CONN_STATE_ESTABLISHED (new_conn now si di sp dp pr)]> (connections s'))
            (connection_count s') s')) as Hf2 by (eapply conn_write; [apply Hf|exact Hc|done]).
  pose proof (conn_frame_trans _ _ _ Hf Hf2) as [? ? ? ?]. by apply reached_same.
Qed.

Lemma filter_flow_ok now ip sp dp s1 s (Q : bool -> fw -> Prop) :
  fw_inv s -> bytes ip -> 20 <= Z.of_nat (length ip) -> reached s1 s ->
  let f := flow_at ip sp dp in
  (forall b s', (b = true <-> within_rate s now (f_src_ip f) = true /\ (established s f = true \/ permits f (ruleset s))) ->
     fw_inv s' -> kept s1 s' -> decided s1 s' b -> Q b s') ->
  wp (filter_flow now ip (f_src_ip f) (f_dst_ip f) sp dp (f_protocol f)) Q s.
Proof.
  intros H Hb Hlen H1 f HQ. unfold filter_flow. apply wp_bind, check_rate_limit_ok; [done|].
  intros s2 (H2 & D2 & R2 & [C2]) _. destruct (within_rate s now (f_src_ip f)); cbn [negb].
  2:{ eapply drop_ok; [eapply reached_trans; [exact H1|by apply reached_same]|].
      intros. apply HQ; [|done..]. split; [done|by intros [? _]]. }
  assert (reached s1 s2) as H12 by (eapply reached_trans; [exact H1|by apply reached_same]).
  apply (stamp_ok now f s2); [done..|]. intros conn s3 H23 R3.
  assert (reached s1 s3) as H13 by by eapply reached_trans.
  replace (established s2 f) with (established s f) by (unfold established; by rewrite C2).
  destruct (established s f).
  { eapply accept_ok; [exact H13|]. intros. apply HQ; [|done..]. split; [by intros _; split; [|left]|done]. }
  assert (ruleset s3 = ruleset s) as Ers.
  { unfold ruleset. destruct R3 as [-> ->]. destruct R2 as [-> ->]. done. }
  apply wp_bind, match_rule_ok; [apply H13|done|done| |].
  - intros Hno. eapply drop_ok; [exact H13|]. intros. apply HQ; [|done..]. split; [done|].
    intros [_ [?|(i & r & (Hi & Hc & _) & _)]]; [done|]. rewrite <- Ers in Hi.
    specialize (Hno i r Hi). fold f in Hno. congruence.
  - intros i r s4 Hi Hbest (H4 & [] & K4 & _) (r' & Hr' & Ea). fold f in Hbest. rewrite Ers in Hbest.
    assert (reached s1 s4) as H14. { eapply reached_trans; [exact H13|]. done. }
    apply wp_bind, rule_get_ok; [done|lia|]. intros r0 Hr0. assert (r0 = r') as -> by congruence. rewrite Ea.
    destruct (is_deny (r_action r)) eqn:Ed; cbn [negb].
    + eapply drop_ok; [exact H14|]. intros. apply HQ; [|done..]. split; [done|].
      intros [_ [?|(j & r2 & Hb2 & Hd2)]]; [done|]. rewrite (best_unique _ _ _ _ _ _ Hbest Hb2) in Ed. congruence.
    + apply wp_bind, track_ok; [done|]. intros s5 H5. eapply accept_ok; [exact (reached_trans _ _ _ H14 H5)|].
      intros. apply HQ; [|done..]. split; [|done]. intros _. split; [done|]. right. by exists (Z.to_nat i), r.
Qed.

(** ** Packets *)

Definition header_len (ip : list Z) : Z := 4 * (at8 ip ip_version_ihl mod 16).
(** The header and the total length fit in the buffer. *)
Definition well_formed (ip : list Z) : Prop :=
  20 <= Z.of_nat (length ip) /\ 20 <= header_len ip <= Z.of_nat (length ip) /\
  be16 ip ip_total_length <= Z.of_nat (length ip).
(** Neither more fragments nor a fragment offset. *)
Definition unfragmented (ip : list Z) : Prop := be16 ip ip_flags_fragment mod 2 ^ 14 = 0.
Definition l4_fits (ip : list Z) : Prop :=
  (at8 ip ip_protocol = IPPROTO_UDP -> header_len ip + 8 <= Z.of_nat (length ip)) /\
  (at8 ip ip_protocol = IPPROTO_TCP -> header_len ip + 20 <= Z.of_nat (length ip)).
Definition has_ports (ip : list Z) : bool :=
  (at8 ip ip_protocol =? IPPROTO_UDP) || (at8 ip ip_protocol =? IPPROTO_TCP).
Definition flow_of (ip : list Z) : flow :=
  if has_ports ip then flow_at ip (be16 ip (header_len ip)) (be16 ip (header_len ip + 2)) else flow_at ip 0 0.
Definition dhcp_packet (ip : list Z) : Prop :=
  at8 ip ip_protocol = IPPROTO_UDP /\ is_dhcp (f_src_port (flow_of ip)) (f_dst_port (flow_of ip)) = true.

(** What the filter lets through. *)
Definition passes s now (ip : list Z) : Prop :=
  let f := flow_of ip in
  is_bogon_ip (f_src_ip f) = false /\ within_rate s now (f_src_ip f) = true /\
  (established s f = true \/ permits f (ruleset s)).
Definition admitted s now (ip : list Z) : Prop :=
  firewall_enabled s = false \/
  well_formed ip /\ unfragmented ip /\ l4_fits ip /\ (dhcp_packet ip \/ passes s now ip).

Lemma ihl_ok b : byte b -> u8 (Z.land b 0x0F * 4) = 4 * (b mod 16).
Proof.
  intros Hb. change 0x0F with (Z.ones 4). rewrite Z.land_ones by lia. change (2 ^ 4) with 16.
  u_lia.
Qed.

Lemma fragment_ok z :
  negb (Z.land z 0x2000 =? 0) || negb (Z.land z 0x1FFF =? 0) = negb (z mod 2 ^ 14 =? 0).
Proof.
  change 0x2000 with (Z.ones 1 * 2 ^ 13). change 0x1FFF with (Z.ones 13).
  rewrite land_field, Z.land_ones by lia. rewrite <- negb_andb. f_equal.
  change (2 ^ 1) with 2. change (2 ^ 14) with (2 ^ 13 * 2). rewrite Z.rem_mul_r by lia.
  change (2 ^ 13) with 8192.
  destruct (Z.eqb_spec ((z / 8192) mod 2 * 8192) 0), (Z.eqb_spec (z mod 8192) 0),
    (Z.eqb_spec (z mod 8192 + 8192 * ((z / 8192) mod 2)) 0); simpl; try done;
  Z.to_euclidean_division_equations; lia.
Qed.

Lemma passes_frame s s' now ip :
  same_rules s s' -> same_conns s s' -> same_rates s s' -> passes s' now ip <-> passes s now ip.
Proof.
  intros [E1 E2] [E3] [E4 E5 E6 E7].
  unfold passes, within_rate, global_ok, source_ok, established, ruleset.
  by rewrite E1, E2, E3, E4, E5, E6, E7.
Qed.

Lemma scan_ports_ok now src dp s (Q : unit -> fw -> Prop) :
  fw_inv s -> (forall s', det_frame s s' -> Q tt s') ->
  wp (if 0 <? dp then detect_port_scan now src dp else ret tt) Q s.
Proof.
  intros H HQ. wp_step; [by apply detect_port_scan_ok|]. by apply HQ, det_frame_refl.
Qed.

Lemma det_reached s s' : det_frame s s' -> reached s s'.
Proof. intros (? & ? & ? & _). by apply reached_same. Qed.

(** From the ports on. *)
Lemma ports_filter_ok now ip s1 s (Q : bool -> fw -> Prop) :
  fw_inv s -> bytes ip -> 20 <= Z.of_nat (length ip) -> reached s1 s ->
  let f := flow_of ip in
  is_bogon_ip (f_src_ip f) = false ->
  (forall b s', (b = true <-> passes s now ip) -> fw_inv s' -> kept s1 s' -> decided s1 s' b -> Q b s') ->
  wp ((if 0 <? f_dst_port f then detect_port_scan now (f_src_ip f) (f_dst_port f) else ret tt) ;;;
      filter_flow now ip (f_src_ip f) (f_dst_ip f) (f_src_port f) (f_dst_port f) (f_protocol f)) Q s.
Proof.
  intros H Hb Hlen H1 f Hbog HQ. apply wp_bind, scan_ports_ok; [done|]. intros s2 Hf.
  assert (f = flow_at ip (f_src_port f) (f_dst_port f)) as Ef.
  { unfold f, flow_of. by destruct (has_ports ip). }
  pose proof (filter_flow_ok now ip (f_src_port f) (f_dst_port f) s1 s2) as Hfilter.
  cbv zeta in Hfilter. rewrite <- Ef in Hfilter. apply Hfilter; [apply Hf|done..| |].
  - eapply reached_trans; [exact H1|by apply det_reached].
  - intros b s3 Hiff. apply HQ. destruct Hf as (_ & _ & ? & ? & ?).
    rewrite <- (passes_frame s s2) by done. unfold passes. fold f. rewrite Hiff. tauto.
Qed.

(** Behind the DHCP exception. *)
Lemma inspect_ok now ip s1 s (Q : bool -> fw -> Prop) :
  fw_inv s -> bytes ip -> well_formed ip -> reached s1 s ->
  (at8 ip ip_protocol = IPPROTO_UDP -> header_len ip + 8 <= Z.of_nat (length ip)) ->
  (forall b s', (b = true <-> l4_fits ip /\ passes s now ip) ->
     fw_inv s' -> kept s1 s' -> decided s1 s' b -> Q b s') ->
  let udp := at8 ip ip_protocol =? IPPROTO_UDP in
  wp (inspect now ip (header_len ip) (be32 ip ip_src_ip) (be32 ip ip_dest_ip) (at8 ip ip_protocol)
        (if udp then be16 ip (header_len ip) else 0) (if udp then be16 ip (header_len ip + 2) else 0)) Q s.
Proof.
  intros H Hb (Hlen & Hihl & _) H1 Hudp HQ udp. unfold inspect. cbv zeta.
  assert (f_src_ip (flow_of ip) = be32 ip ip_src_ip) as Es by (unfold flow_of; by destruct (has_ports ip)).
  assert (f_dst_ip (flow_of ip) = be32 ip ip_dest_ip) as Ed by (unfold flow_of; by destruct (has_ports ip)).
  assert (f_protocol (flow_of ip) = at8 ip ip_protocol) as Ep by (unfold flow_of; by destruct (has_ports ip)).
  destruct (is_bogon_ip (be32 ip ip_src_ip)) eqn:Hbog.
  { eapply drop_ok; [exact H1|]. intros. apply HQ; [|done..]. split; [done|].
    intros (_ & Hn & _). congruence. }
  destruct (Z.eqb_spec (at8 ip ip_protocol) IPPROTO_TCP) as [Et|Et]; simpl andb.
  - destruct (Z.ltb_spec (Z.of_nat (length ip)) (header_len ip + sizeof_tcp_header)) as [Hshort|Hfits];
      unfold sizeof_tcp_header in *.
    { eapply drop_ok; [exact H1|]. intros. apply HQ; [|done..]. split; [done|].
      intros ([_ Hf] & _). specialize (Hf Et). lia. }
    assert (flow_of ip = flow_at ip (be16 ip (header_len ip)) (be16 ip (header_len ip + 2))) as Ef.
    { unfold flow_of, has_ports. by rewrite Et. }
    unfold l4_src_port, l4_dest_port, tcp_flags. rewrite Z.add_0_r.
    apply wp_bind, wp_bind, net16_ok; [done|lia..|]. apply wp_bind, net16_ok; [done|lia..|].
    apply wp_bind, load8_ok; [lia|]. apply wp_bind, detect_syn_flood_ok; [done|]. intros s2 Hf2. apply wp_ret.
    pose proof (ports_filter_ok now ip s1 s2 Q) as Hpf. cbv zeta in Hpf. rewrite Es, Ed, Ep, Ef in Hpf.
    apply Hpf; [apply Hf2|done|done| |done|].
    + eapply reached_trans; [exact H1|by apply det_reached].
    + intros b s3 Hiff. apply HQ. destruct Hf2 as (_ & _ & ? & ? & ?).
      rewrite (passes_frame s s2) in Hiff by done. rewrite Hiff. unfold l4_fits. tauto.
  - apply wp_bind, wp_ret. pose proof (ports_filter_ok now ip s1 s Q) as Hpf. cbv zeta in Hpf.
    rewrite Es, Ed, Ep in Hpf.
    replace (if udp then be16 ip (header_len ip) else 0) with (f_src_port (flow_of ip)).
    2:{ unfold flow_of, has_ports, udp. destruct (Z.eqb_spec (at8 ip ip_protocol) IPPROTO_UDP); [done|].
        simpl. by destruct (Z.eqb_spec (at8 ip ip_protocol) IPPROTO_TCP). }
    replace (if udp then be16 ip (header_len ip + 2) else 0) with (f_dst_port (flow_of ip)).
    2:{ unfold flow_of, has_ports, udp. destruct (Z.eqb_spec (at8 ip ip_protocol) IPPROTO_UDP); [done|].
        simpl. by destruct (Z.eqb_spec (at8 ip ip_protocol) IPPROTO_TCP). }
    apply Hpf; [done..|]. intros b s3 Hiff. apply HQ. rewrite Hiff. unfold l4_fits. tauto.
Qed.

Lemma dispatch_packet_ok now ip s1 s (Q : bool -> fw -> Prop) :
  fw_inv s -> bytes ip -> well_formed ip -> reached s1 s ->
  (forall b s', (b = true <-> l4_fits ip /\ (dhcp_packet ip \/ passes s now ip)) ->
     fw_inv s' -> kept s1 s' -> decided s1 s' b -> Q b s') ->
  wp (dispatch now ip (header_len ip)) Q s.
Proof.
  intros H Hb Hwf H1 HQ. pose proof Hwf as (Hlen & Hihl & _). unfold dispatch. cbv zeta.
  pose proof (inspect_ok now ip s1 s) as Hins. cbv zeta in Hins.
  unfold ip_src_ip, ip_dest_ip in *.
  apply wp_bind, net32_ok; [done|lia..|]. apply wp_bind, net32_ok; [done|lia..|].
  apply wp_bind, load8_ok; [unfold ip_protocol; lia|].
  destruct (Z.eqb_spec (at8 ip ip_protocol) IPPROTO_UDP) as [Eu|Eu].
  - destruct (Z.ltb_spec (Z.of_nat (length ip)) (header_len ip + sizeof_udp_header)) as [Hs|Hs];
      unfold sizeof_udp_header in *.
    { eapply drop_ok; [exact H1|]. intros. apply HQ; [|done..]. split; [done|].
      intros ([Hf _] & _). specialize (Hf Eu). lia. }
    unfold l4_src_port, l4_dest_port. rewrite Z.add_0_r.
    apply wp_bind, net16_ok; [done|lia..|]. apply wp_bind, net16_ok; [done|lia..|].
    assert (dhcp_packet ip <-> is_dhcp (be16 ip (header_len ip)) (be16 ip (header_len ip + 2)) = true) as Hd.
    { unfold dhcp_packet, flow_of, has_ports. rewrite Eu. simpl. tauto. }
    assert (l4_fits ip) as Hfits by (split; [done|by rewrite Eu]).
    destruct (is_dhcp _ _).
    + eapply accept_ok; [exact H1|]. intros. apply HQ; [|done..]. tauto.
    + apply Hins; [done..|]. intros b s' Hiff. apply HQ. rewrite Hiff, Hd. intuition congruence.
  - apply Hins; [done..|]. intros b s' Hiff. apply HQ. rewrite Hiff. unfold dhcp_packet. tauto.
Qed.

Lemma check_packet_ok now ip s :
  fw_inv s -> bytes ip ->
  wp (firewall_check_packet now ip) (fun b s' =>
    fw_inv s' /\ (b = true <-> admitted s now ip) /\ kept s s' /\
    (firewall_enabled s = true -> decided s s' b)) s.
Proof.
  intros H Hb. unfold firewall_check_packet, admitted. cbv zeta. apply wp_bind, wp_gets.
  assert (reached s s) as H0 by by apply reached_same.
  destruct (firewall_enabled s) eqn:Hen; cbn [negb].
  2:{ apply wp_ret. split; [done|]. split; [by split; [left|]|]. split; [by apply kept_refl|done]. }
  match goal with |- wp _ ?Q _ => assert (~ (well_formed ip /\ unfragmented ip) -> wp drop_packet Q s) as Hdrop end.
  { intros Hno. eapply drop_ok; [exact H0|]. intros s2 ? ? ?. split; [done|]. split; [|done].
    split; [done|]. intros [?|(? & ? & _)]; [done|]. exfalso. by apply Hno. }
  destruct (Z.ltb_spec (Z.of_nat (length ip)) sizeof_ip_header) as [Hs|Hlen]; unfold sizeof_ip_header in *.
  { apply Hdrop. intros ((Hl & _) & _). lia. }
  apply wp_bind, load8_ok; [unfold ip_version_ihl; lia|]. rewrite ihl_ok by by apply at8_byte. fold (header_len ip).
  destruct (Z.ltb_spec (header_len ip) 20), (Z.ltb_spec (Z.of_nat (length ip)) (header_len ip)); cbn [orb];
    try (apply Hdrop; intros ((_ & Hl & _) & _); lia).
  apply wp_bind, net16_ok; [done|unfold ip_total_length; lia..|].
  destruct (Z.ltb_spec (Z.of_nat (length ip)) (be16 ip ip_total_length)) as [Htl|Htl].
  { apply Hdrop. intros ((_ & _ & Hl) & _). lia. }
  assert (well_formed ip) as Hwf by done.
  apply wp_bind, net16_ok; [done|unfold ip_flags_fragment; lia..|]. rewrite fragment_ok.
  destruct (Z.eqb_spec (be16 ip ip_flags_fragment mod 2 ^ 14) 0) as [Hfrag|Hfrag]; cbn [negb].
  2:{ apply Hdrop. by intros (_ & Hu). }
  apply wp_bind, wp_modify, (dispatch_packet_ok now ip s); [by destruct H|done..|by destruct H|].
  intros b s' Hiff ? ? ?. split; [done|]. split; [|done]. rewrite Hiff, (passes_frame s) by done.
  unfold unfragmented. intuition congruence.
Qed.

End Tables.

(** ** Outgoing flows *)

Lemma conn_is_sym a b p q pr c : conn_is a b p q pr c = conn_is b a q p pr c.
Proof. unfold conn_is. f_equal. apply orb_comm. Qed.

Lemma find_insert {A} (p : A -> bool) l i x :
  (i < length l)%nat -> p x = true -> (forall j y, (j < i)%nat -> l !! j = Some y -> p y = false) ->
  List.find p (<[i := x]> l) = Some x.
Proof.
  revert i. induction l as [|y l IH]; intros [|i] Hi Hx Hno; simpl in *; try lia.
  - by rewrite Hx.
  - rewrite (Hno 0%nat y) by (done || lia). apply IH; [lia|done|].
    intros j z Hj Hz. apply (Hno (S j)); [lia|done].
Qed.

Lemma find_ext {A} (p q : A -> bool) l : (forall x, p x = q x) -> List.find p l = List.find q l.
Proof. intros E. induction l as [|x l IH]; simpl; [done|]. by rewrite E, IH. Qed.

Lemma conn_is_new now a b p q pr st : conn_is a b p q pr (put_seen now 0 (put_conn_state st (new_conn now a b p q pr))) = true.
Proof. unfold conn_is. simpl. by rewrite !Z.eqb_refl. Qed.

Lemma track_outgoing_ok now a b p q pr s :
  fw_inv s -> (pr = IPPROTO_TCP \/ pr = IPPROTO_UDP) ->
  wp (firewall_track_outgoing now a b p q pr) (fun _ s' =>
    conn_frame s s' /\ exists c, List.find (conn_is a b p q pr) (connections s') = Some c /\
      c_state c = CONN_STATE_ESTABLISHED) s.
Proof.
  intros H Hpr. pose proof (inv_conns s H) as Hl. unfold firewall_track_outgoing.
  replace (negb (pr =? IPPROTO_TCP) && negb (pr =? IPPROTO_UDP)) with false by by destruct Hpr as [-> | ->].
  apply wp_bind, scan_ok; [rewrite Hl; done|]. intros r Hr. rewrite take_ge in Hr by (rewrite Hl; done).
  destruct r as [i|]; apply wp_bind.
  - destruct Hr as (Hi & (c & Hc & Hp) & Hno). pose proof (lookup_lt_Some _ _ _ Hc).
    apply wp_ret, wp_bind, (flow_get_ok i c); [done..|]. apply flow_put_ok; [done|lia|]. split.
    + by eapply conn_write.
    + eexists. split; [apply find_insert; [done|exact Hp|exact Hno]|done].
  - apply create_connection_ok; [done|]. intros i s' Hf Hi E. pose proof (inv_conns s' (cf_inv _ _ Hf)) as Hl'.
    assert (connections s' !! Z.to_nat i = Some (new_conn now a b p q pr)) as Hc.
    { rewrite E. apply lookup_insert_len. lia. }
    apply wp_bind. eapply flow_get_ok; [lia|exact Hc|]. apply flow_put_ok; [apply Hf|lia|]. split.
    + eapply conn_frame_trans; [exact Hf|]. eapply conn_write; [apply Hf|exact Hc|done].
    + eexists. split; [apply find_insert|done].
      * lia.
      * apply conn_is_new.
      * intros j y Hj. rewrite E, list_lookup_insert_ne by lia. apply Hr.
Qed.

End Firewall.
