(* ===== verification/FirewallProps.v ===== *)
(** Properties of the packet filter: the decision on a packet, blocking,
    replies, bursts and the rule table. *)
From Stdlib Require Import ZArith Lia List Bool String.
From stdpp Require Import base tactics numbers list.
From S2P Require Import Prelude NetHdr Firewall.
Open Scope Z_scope.

Module FirewallProps.
Import NetHdr Firewall.

(** An empty filter. *)
Definition fw0 : fw := firewall_init (mk_fw [] 0 [] 0 (replicate 32 (mk_rate 0 0 0 0 0)) 0
  (replicate 16 zero_detector) 0 zero_stats true 0 0).

Lemma fw0_inv : fw_inv fw0.
Proof. constructor; vm_compute; try done; try lia. repeat constructor; done. Qed.

(** A UDP datagram of 28 bytes. *)
Definition udp_packet (src dst : list Z) (sp dp : Z) : list Z :=
  [0x45; 0; 0; 28; 0; 0; 0; 0; 64; 17; 0; 0] ++ src ++ dst ++
  [sp / 256; sp mod 256; dp / 256; dp mod 256; 0; 8; 0; 0].
Definition query_reply : list Z := udp_packet [10; 0; 2; 3] [10; 0; 2; 15] 53 4000.

Lemma query_reply_bytes : bytes query_reply.
Proof. repeat constructor; vm_compute; done. Qed.

(** C3. For every buffer, truncated or malformed ones included, the filter
    terminates without reading outside of it or of its tables, keeps the
    invariant, and lets the packet through exactly when it is switched off or
    the packet is well-formed, unfragmented, its transport header fits, and it
    is DHCP or else comes from a routable source within its rate and belongs to
    an established connection or is accepted by the deciding rule: the enabled
    matching rule of the lowest priority number below 1000, refusals before
    acceptances, earlier before later.  Without such a rule it is dropped.  The
    rules change in their counters only, and exactly one of the counters of
    accepted and dropped packets goes up. *)
Theorem firewall_check_packet_spec now ip s :
  fw_inv s -> bytes ip ->
  exists b s', firewall_check_packet now ip s = Ok (b, s') /\
    fw_inv s' /\ (b = true <-> admitted s now ip) /\ kept s s' /\
    (firewall_enabled s = true -> decided s s' b).
Proof. intros H Hb. by apply wp_elim, check_packet_ok. Qed.

Lemma firewall_check_packet_spec_witness :
  exists b s', firewall_check_packet 5 query_reply fw0 = Ok (b, s') /\ fw_inv s'.
Proof.
  destruct (firewall_check_packet_spec 5 query_reply fw0 fw0_inv query_reply_bytes) as (b & s' & E & H & _).
  exists b, s'. split; [exact E|exact H].
Defined.

(** ** Blocking *)

(** The rule table up to counters. *)
Definition blocked (addr : Z) (s : fw) : Prop :=
  exists r, In r (ruleset s) /\ put_counts 0 0 r = put_enabled true (block_rule addr).

Lemma blocked_kept addr s s' : kept s s' -> blocked addr s -> blocked addr s'.
Proof.
  intros [E1 E2] (r & Hr & Er).
  assert (map (put_counts 0 0) (ruleset s') = map (put_counts 0 0) (ruleset s)) as E.
  { unfold ruleset. rewrite <- !firstn_map, E1, E2. done. }
  apply (in_map (put_counts 0 0)) in Hr. rewrite <- E in Hr. apply in_map_iff in Hr as (r' & Er' & Hr').
  exists r'. split; [done|]. congruence.
Qed.

Lemma blocked_refused addr s f : blocked addr s -> f_src_ip f = addr -> ~ permits f (ruleset s).
Proof.
  intros (r & Hr & Er) Hf (i & r' & (_ & Hc & Hbest) & Hd).
  apply list_elem_of_In, list_elem_of_lookup in Hr as [j Hj].
  assert (candidate f r = true) as Hcr.
  { destruct r. unfold put_counts in Er. simpl in Er. injection Er as -> -> -> -> -> -> -> -> -> -> _ ->.
    unfold candidate, rule_applies, ip_matches, port_matches. cbn. rewrite Hf, Z.eqb_refl, orb_true_r. done. }
  assert (rank r = 0) as Hk.
  { destruct r. unfold put_counts in Er. simpl in Er. by injection Er as -> -> -> -> -> -> -> -> -> -> _ ->. }
  unfold candidate in Hc. specialize (Hbest j r Hj Hcr). rewrite Hk in Hbest.
  unfold rank in Hbest. rewrite Hd in Hbest. lia.
Qed.

Lemma add_rule_ok r s :
  fw_inv s -> rule_count s < 64 ->
  wp (firewall_add_rule r) (fun i s' => fw_inv s' /\ i = rule_count s /\
    ruleset s' = ruleset s ++ [put_counts 0 0 (put_enabled true r)] /\
    connections s' = connections s /\ firewall_enabled s' = firewall_enabled s) s.
Proof.
  intros H Hlt. pose proof H as H'. inv_open H'. unfold firewall_add_rule.
  apply wp_bind, wp_gets. unfold FIREWALL_MAX_RULES. destruct (Z.leb_spec 64 (rule_count s)); [lia|].
  apply wp_bind, rule_put_ok; [done|lia|]. apply wp_bind, wp_modify, wp_ret. simpl. split_and!; try done.
  - constructor; simpl; rewrite ?length_insert; try done. lia.
  - unfold ruleset. simpl. replace (Z.to_nat (rule_count s + 1)) with (S (Z.to_nat (rule_count s))) by lia.
    rewrite (take_S_r _ _ (put_counts 0 0 (put_enabled true r))).
    + by rewrite take_insert_ge.
    + apply lookup_insert_len. lia.
Qed.

(** Packets at their times. *)
Fixpoint packets (l : list (Z * list Z)) : M fw unit :=
  match l with
  | [] => ret tt
  | (now, ip) :: l' => _ <- firewall_check_packet now ip ;; packets l'
  end.

Lemma packets_ok l s :
  fw_inv s -> firewall_enabled s = true -> Forall (fun p => bytes (snd p)) l ->
  wp (packets l) (fun _ s' => fw_inv s' /\ firewall_enabled s' = true /\ kept s s') s.
Proof.
  revert s. induction l as [|[now ip] l IH]; intros s H Hen Hl.
  { apply wp_ret. split_and!; [done..|]. by apply kept_refl. }
  apply Forall_cons in Hl as [Hip Hl]. simpl. apply wp_bind.
  eapply wp_mono; [by apply check_packet_ok|]. intros b s' (H' & _ & K & D).
  destruct (D Hen) as (_ & _ & Hen'). rewrite Hen in Hen'.
  eapply wp_mono; [by apply IH|]. intros [] s2 (? & ? & ?). split_and!; [done..|]. by eapply kept_trans.
Qed.

(** After [firewall_block_ip] with room in the rule table, and after any
    sequence of further packets, a packet of the blocked source gets in only as
    DHCP or as part of a connection that is tracked as established, whatever
    rules accept it; and those two do get in: the block stops neither. *)
Theorem firewall_block_ip_spec addr l now ip s :
  fw_inv s -> firewall_enabled s = true -> rule_count s < 64 ->
  Forall (fun p => bytes (snd p)) l -> bytes ip -> be32 ip ip_src_ip = addr ->
  exists s1 s2 b s3,
    firewall_block_ip addr s = Ok (tt, s1) /\ packets l s1 = Ok (tt, s2) /\
    firewall_check_packet now ip s2 = Ok (b, s3) /\
    (b = true <-> well_formed ip /\ unfragmented ip /\ l4_fits ip /\
       (dhcp_packet ip \/ is_bogon_ip addr = false /\ within_rate s2 now addr = true /\
                          established s2 (flow_of ip) = true)).
Proof.
  intros H Hen Hlt Hl Hb Hsrc.
  assert (wp (firewall_block_ip addr) (fun _ s1 => fw_inv s1 /\ firewall_enabled s1 = true /\ blocked addr s1) s)
    as (s1 & E1 & H1 & Hen1 & Hbl)%wp_elim_unit.
  { apply wp_bind. eapply wp_mono; [by apply add_rule_ok|]. intros i s1 (H1 & _ & Er & _ & Ee).
    apply wp_ret. split_and!; [done|congruence|]. eexists. rewrite Er.
    split; [apply in_or_app; right; by left|done]. }
  destruct (wp_elim_unit _ _ _ (packets_ok l s1 H1 Hen1 Hl)) as (s2 & E2 & H2 & Hen2 & K).
  destruct (wp_elim _ _ _ (check_packet_ok now ip s2 H2 Hb)) as (b & s3 & E3 & _ & Hiff & _).
  exists s1, s2, b, s3. split_and!; [done..|]. rewrite Hiff. unfold admitted, passes. rewrite Hen2.
  assert (f_src_ip (flow_of ip) = addr) as Hf by (rewrite <- Hsrc; unfold flow_of; by destruct (has_ports ip)).
  rewrite Hf. pose proof (blocked_refused addr s2 (flow_of ip) (blocked_kept _ _ _ K Hbl) Hf).
  intuition congruence.
Qed.

Lemma firewall_block_ip_spec_witness :
  exists s1 s2 b s3,
    firewall_block_ip (be32 query_reply 12) fw0 = Ok (tt, s1) /\ packets [(1, query_reply)] s1 = Ok (tt, s2) /\
    firewall_check_packet 5 query_reply s2 = Ok (b, s3).
Proof.
  destruct (firewall_block_ip_spec (be32 query_reply 12) [(1, query_reply)] 5 query_reply fw0 fw0_inv eq_refl)
    as (s1 & s2 & b & s3 & E1 & E2 & E3 & _);
    [reflexivity|constructor; [exact query_reply_bytes|constructor]|exact query_reply_bytes|reflexivity|].
  exists s1, s2, b, s3. split; [exact E1|]. split; [exact E2|exact E3].
Defined.

(** ** Replies *)

(** Once an outgoing TCP or UDP packet is recorded, a well-formed reply to
    it (addresses and ports swapped, same protocol) from a routable source
    within its rate is let through, whatever the rules say. *)
Theorem firewall_reply_admitted t now ip s :
  let f := flow_of ip in
  fw_inv s -> firewall_enabled s = true -> bytes ip -> has_ports ip = true ->
  well_formed ip -> unfragmented ip -> l4_fits ip ->
  is_bogon_ip (f_src_ip f) = false -> within_rate s now (f_src_ip f) = true ->
  exists s1 s2,
    firewall_track_outgoing t (f_dst_ip f) (f_src_ip f) (f_dst_port f) (f_src_port f) (f_protocol f) s
      = Ok (tt, s1) /\
    firewall_check_packet now ip s1 = Ok (true, s2).
Proof.
  intros f H Hen Hb Hports Hwf Hu Hl4 Hbog Hrate.
  assert (f_protocol f = IPPROTO_TCP \/ f_protocol f = IPPROTO_UDP) as Hpr.
  { unfold f, flow_of. rewrite Hports. unfold has_ports in Hports. simpl. lia. }
  pose proof (track_outgoing_ok t (f_dst_ip f) (f_src_ip f) (f_dst_port f) (f_src_port f) _ s H Hpr) as Ht.
  apply wp_elim_unit in Ht as (s1 & E1 & [H1 [_ _ _ Hen1] Hr1 [R1 R2 R3 R4]] & c & Hc & Hst).
  destruct (wp_elim _ _ _ (check_packet_ok now ip s1 H1 Hb)) as (b & s2 & E2 & _ & Hiff & _).
  exists s1, s2. split; [done|]. rewrite E2. replace b with true; [done|]. symmetry. apply Hiff. right.
  split_and!; [done..|]. right. fold f. split_and!; [done| |left].
  - unfold within_rate, global_ok, source_ok in *. by rewrite R1, R2, R3, R4.
  - unfold established. fold f. replace (List.find _ _) with (Some c); [by rewrite bool_decide_true|].
    rewrite <- Hc. apply find_ext. intros x. apply conn_is_sym.
Qed.

Lemma firewall_reply_admitted_witness :
  exists s1 s2,
    firewall_track_outgoing 3 (f_dst_ip (flow_of query_reply)) (f_src_ip (flow_of query_reply)) 4000 53 17 fw0
      = Ok (tt, s1) /\
    firewall_check_packet 5 query_reply s1 = Ok (true, s2).
Proof.
  apply (firewall_reply_admitted 3 5 query_reply fw0 fw0_inv eq_refl query_reply_bytes);
    vm_compute; repeat split; intros; congruence.
Defined.

(** ** Bursts *)

(** Requests of a packet for a source at a time; the number let through. *)
Fixpoint requests (l : list (Z * Z)) : M fw Z :=
  match l with
  | [] => ret 0
  | (now, src) :: l' =>
      b <- check_rate_limit now src ;; n <- requests l' ;; ret ((if b : bool then 1 else 0) + n)
  end.

Fixpoint ordered (t : Z) (l : list (Z * Z)) (last : Z) : Prop :=
  match l with
  | [] => True
  | (now, _) :: l' => t <= now <= last /\ ordered now l' last
  end.

Lemma check_rate_limit_step now src s :
  fw_inv s ->
  wp (check_rate_limit now src) (fun b s' => fw_inv s' /\ global_step s now s' /\
    (b = true -> global_ok s now = true)) s.
Proof.
  intros H. apply check_rate_limit_ok; [done|]. intros s' (H' & _) Hg. split_and!; [done..|].
  unfold within_rate. by intros (? & _)%andb_true_iff.
Qed.

(** Inside a window, what is left of its budget. *)
Lemma requests_window l s t last :
  fw_inv s -> 0 <= global_packet_count s -> global_packet_count s + Z.of_nat (length l) < 2 ^ 32 ->
  0 <= global_window_start s <= t -> last <= global_window_start s + 1000 -> last < 2 ^ 32 -> ordered t l last ->
  wp (requests l) (fun n _ => n <= Z.max 0 (3200 - global_packet_count s)) s.
Proof.
  revert s t. induction l as [|[now src] l IH]; intros s t H H0 Hlen Hw Hlast Hmax Hord; simpl.
  { apply wp_ret. lia. }
  destruct Hord as [Hnow Hord]. cbn [length] in Hlen. apply wp_bind.
  eapply wp_mono; [by apply check_rate_limit_step|]. intros b s' (H' & Hg & Hb).
  unfold global_step, global_ok, FIREWALL_RATE_LIMIT_WINDOW, GLOBAL_RATE_LIMIT in *.
  rewrite !(u32_small (now - _)) in * by lia. rewrite (u32_small (_ + 1)) in * by lia.
  destruct (Z.ltb_spec 1000 (now - global_window_start s)); [lia|]. destruct Hg as [E1 E2].
  apply wp_bind. eapply wp_mono; [apply (IH s' now); try done; lia|].
  intros n s'' Hn. cbv beta in Hn. apply wp_ret. rewrite E1 in Hn. destruct b; [specialize (Hb eq_refl)|]; lia.
Qed.

(** Before the first window of the interval starts. *)
Lemma requests_interval l s t0 t last :
  fw_inv s -> 0 <= global_packet_count s -> global_packet_count s + Z.of_nat (length l) < 2 ^ 32 ->
  0 <= global_window_start s < 2 ^ 32 -> 0 <= t0 <= t -> last <= t0 + 1000 -> last < 2 ^ 32 -> ordered t l last ->
  wp (requests l) (fun n _ => n <= Z.max 0 (3200 - global_packet_count s) + 3200) s.
Proof.
  revert s t. induction l as [|[now src] l IH]; intros s t H H0 Hlen Hw Ht Hlast Hmax Hord; simpl.
  { apply wp_ret. lia. }
  destruct Hord as [Hnow Hord]. cbn [length] in Hlen. apply wp_bind.
  eapply wp_mono; [by apply check_rate_limit_step|]. intros b s' (H' & Hg & Hb).
  unfold global_step, global_ok, FIREWALL_RATE_LIMIT_WINDOW, GLOBAL_RATE_LIMIT in *.
  rewrite (u32_small (_ + 1)) in * by lia.
  destruct (Z.ltb_spec 1000 (now -32 global_window_start s)); destruct Hg as [E1 E2]; apply wp_bind.
  - eapply wp_mono; [apply (requests_window l s' now last); try done; lia|].
    intros n s'' Hn. cbv beta in Hn. apply wp_ret. destruct b; lia.
  - eapply wp_mono; [apply (IH s' now); try done; lia|].
    intros n s'' Hn. cbv beta in Hn. apply wp_ret. rewrite E1 in Hn. destruct b; [specialize (Hb eq_refl)|]; lia.
Qed.

(** Whatever the sources, the rate limiter lets at most 6400 packets pass in
    an interval of 1000 ticks: twice the global limit of 3200, since a window
    may end inside of the interval; from a fresh window at its start on, at
    most 3200. *)
Theorem rate_limit_burst l s t0 :
  fw_inv s -> 0 <= global_packet_count s -> global_packet_count s + Z.of_nat (length l) < 2 ^ 32 ->
  0 <= global_window_start s < 2 ^ 32 -> 0 <= t0 -> t0 + 1000 < 2 ^ 32 -> ordered t0 l (t0 + 1000) ->
  exists n s', requests l s = Ok (n, s') /\ n <= 6400 /\
    (global_window_start s = t0 -> n <= 3200).
Proof.
  intros H H0 Hlen Hw Ht0 Hmax Hord.
  destruct (wp_elim _ _ _ (requests_interval l s t0 t0 (t0 + 1000) H H0 Hlen Hw ltac:(lia) ltac:(lia) Hmax Hord))
    as (n & s' & E & Hn).
  exists n, s'. split; [done|]. split; [lia|]. intros Hstart.
  pose proof (requests_window l s t0 (t0 + 1000) H H0 Hlen ltac:(lia) ltac:(lia) Hmax Hord) as Hwin.
  pose proof (wp_result _ _ _ _ _ Hwin E) as Hn'. cbv beta in Hn'. lia.
Qed.

Lemma rate_limit_burst_witness :
  exists n s', requests [(7, 1); (7, 2); (9, 1)] fw0 = Ok (n, s') /\ n <= 6400.
Proof.
  destruct (rate_limit_burst [(7, 1); (7, 2); (9, 1)] fw0 0 fw0_inv) as (n & s' & E & Hn & _);
    [vm_compute; repeat split; congruence..|].
  exists n, s'. split; [exact E|exact Hn].
Defined.

(** ** The rule table *)

Lemma shift_down_ok k i s :
  fw_inv s -> 0 <= i -> i + Z.of_nat k < 64 ->
  wp (for_each k i (fun i => r <- rule_get (i + 1) ;; rule_put i r)) (fun _ s' =>
    fw_inv s' /\ rule_count s' = rule_count s /\ connections s' = connections s /\
    rules s' = take (Z.to_nat i) (rules s) ++ take k (drop (S (Z.to_nat i)) (rules s)) ++
               drop (Z.to_nat i + k) (rules s)) s.
Proof.
  revert i s. induction k as [|k IH]; intros i s H Hi Hk; simpl.
  { apply wp_ret. split_and!; [done..|]. rewrite Nat.add_0_r. by rewrite take_drop. }
  apply wp_bind, wp_bind, rule_get_ok; [done|lia|]. intros r Hr. apply rule_put_ok; [done|lia|].
  set (s1 := put_rules _ _ s). pose proof (inv_rules s H) as Hl.
  assert (fw_inv s1) as H1.
  { destruct H. constructor; simpl; rewrite ?length_insert; done. }
  eapply wp_mono; [apply (IH (i + 1) s1 H1); lia|]. intros [] s2 (H2 & Ec & Ecn & Er).
  split_and!; [done..|]. rewrite Er. replace (Z.to_nat (i + 1)) with (S (Z.to_nat i)) in * by lia. simpl.
  rewrite (take_S_r _ _ r) by (apply lookup_insert_len; lia).
  rewrite take_insert_ge by lia. rewrite !drop_insert_lt by lia.
  rewrite (drop_S _ r (S (Z.to_nat i))) by done. cbn [take]. rewrite <- app_assoc. simpl.
  by replace (S (Z.to_nat i + k))%nat with (Z.to_nat i + S k)%nat by lia.
Qed.

Lemma remove_rule_ok id s :
  fw_inv s -> 0 <= id < rule_count s ->
  wp (firewall_remove_rule id) (fun r s' => r = 0 /\ fw_inv s' /\
    ruleset s' = delete (Z.to_nat id) (ruleset s)) s.
Proof.
  intros H Hid. pose proof H as H'. inv_open H'. unfold firewall_remove_rule. apply wp_bind, wp_gets.
  replace ((id <? 0) || (rule_count s <=? id)) with false by lia.
  apply wp_bind. eapply wp_mono; [apply shift_down_ok; [done|lia|unfold iters; lia]|].
  intros [] s1 (H1 & Ec & _ & Er). apply wp_bind, wp_modify, wp_ret. split; [done|]. split.
  - destruct H1. constructor; simpl; try done. lia.
  - unfold ruleset. simpl. rewrite Er, delete_take_drop, take_take, Nat.min_l by lia.
    set (l := rules s) in *. unfold iters.
    replace (Z.to_nat (rule_count s - 1 - id)) with (Z.to_nat (rule_count s) - S (Z.to_nat id))%nat by lia.
    rewrite take_app_ge by (rewrite length_take; lia). rewrite length_take, Nat.min_l by lia.
    replace (Z.to_nat (rule_count s - 1) - Z.to_nat id)%nat with (Z.to_nat (rule_count s) - S (Z.to_nat id))%nat by lia.
    rewrite skipn_firstn_comm. f_equal.
    rewrite take_app_le by (rewrite length_take, length_drop; lia).
    by rewrite take_take, Nat.min_id.
Qed.

(** The rule table behaves as a list of at most 64 rules: adding appends an
    enabled rule with fresh counters and answers its index, or answers -1 with
    nothing changed when the table is full; removing deletes exactly the rule
    of an index, keeping the order of the others, and any other index is
    refused with nothing changed; so removing the rule just added restores the
    list. *)
Theorem firewall_rules_spec r id s :
  fw_inv s ->
  (rule_count s < 64 -> exists s1 s2,
     firewall_add_rule r s = Ok (rule_count s, s1) /\ fw_inv s1 /\
     ruleset s1 = ruleset s ++ [put_counts 0 0 (put_enabled true r)] /\
     firewall_remove_rule (rule_count s) s1 = Ok (0, s2) /\ ruleset s2 = ruleset s) /\
  (rule_count s = 64 -> firewall_add_rule r s = Ok (-1, s)) /\
  (0 <= id < rule_count s -> exists s1,
     firewall_remove_rule id s = Ok (0, s1) /\ fw_inv s1 /\ ruleset s1 = delete (Z.to_nat id) (ruleset s)) /\
  (~ 0 <= id < rule_count s -> firewall_remove_rule id s = Ok (-1, s)).
Proof.
  intros H. split_and!.
  - intros Hlt. destruct (wp_elim _ _ _ (add_rule_ok r s H Hlt)) as (i & s1 & E1 & H1 & -> & Er & _).
    assert (length (ruleset s) = Z.to_nat (rule_count s)) as Hl.
    { unfold ruleset. pose proof (inv_rules s H). rewrite length_take. lia. }
    assert (rule_count s1 = rule_count s + 1) as Hc1.
    { apply (f_equal length) in Er. rewrite length_app, Hl in Er. unfold ruleset in Er.
      pose proof (inv_rules s1 H1). pose proof (inv_rule_count s1 H1). pose proof (inv_rule_count s H).
      rewrite length_take in Er. simpl in Er. lia. }
    pose proof (inv_rule_count s H).
    destruct (wp_elim _ _ _ (remove_rule_ok (rule_count s) s1 H1 ltac:(lia))) as (z & s2 & E2 & -> & _ & Er2).
    exists s1, s2. split_and!; [done..|]. rewrite Er2, Er, <- Hl, delete_take_drop.
    rewrite take_app_length, drop_ge by (rewrite length_app; simpl; lia). apply app_nil_r.
  - intros Hfull. unfold firewall_add_rule, bind, gets. by rewrite Hfull.
  - intros Hid. destruct (wp_elim _ _ _ (remove_rule_ok id s H Hid)) as (z & s1 & E & -> & ? & ?). by exists s1.
  - intros Hid. unfold firewall_remove_rule, bind, gets.
    by replace ((id <? 0) || (rule_count s <=? id)) with true by lia.
Qed.

Lemma firewall_rules_spec_witness :
  exists s1 s2, firewall_add_rule (block_rule 5) fw0 = Ok (0, s1) /\
    firewall_remove_rule 0 s1 = Ok (0, s2) /\ ruleset s2 = [].
Proof.
  destruct (firewall_rules_spec (block_rule 5) 0 fw0 fw0_inv) as (H1 & _).
  destruct H1 as (s1 & s2 & E1 & _ & _ & E2 & E3); [reflexivity|].
  exists s1, s2. split; [exact E1|]. split; [exact E2|exact E3].
Defined.

End FirewallProps.
