(* ===== verification/Checksum.v ===== *)
(** Internet checksums: [calculate_checksum] and [calculate_l4_checksum] of
    src/net.c and [calculate_icmp_checksum] of src/icmp.c, against the
    one's-complement sum of RFC 1071. *)
From Stdlib Require Import ZArith Lia List Bool.
From stdpp Require Import base tactics numbers list.
From S2P Require Import Prelude NetHdr.
Open Scope Z_scope.

Module Checksum.
Import NetHdr.

(** [((uint16_t)b0 << 8) | b1] *)
Definition word16 (b0 b1 : Z) : Z := Z.lor (Z.shiftl b0 8) b1.

(** The loop over the 16-bit words and the odd byte behind them. *)
Fixpoint sum_words (sum : Z) (bs : list Z) : Z :=
  match bs with
  | b0 :: b1 :: bs' => sum_words (sum +32 word16 b0 b1) bs'
  | [b0] => sum +32 Z.shiftl b0 8
  | [] => sum
  end.

(** [while (sum >> 16) sum = (sum & 0xFFFF) + (sum >> 16)] *)
Fixpoint fold_sum (fuel : nat) (sum : Z) : result Z :=
  match fuel with
  | O => Err NoTermination
  | S fuel' =>
      if Z.shiftr sum 16 =? 0 then Ok sum
      else fold_sum fuel' (Z.land sum 0xFFFF +32 Z.shiftr sum 16)
  end.

Definition finish (sum : Z) : result Z :=
  match fold_sum 3 sum with Ok s => Ok (u16 (not32 s)) | Err f => Err f end.

Definition calculate_checksum (bs : list Z) : result Z := finish (sum_words 0 bs).

Definition calculate_l4_checksum (src_ip dest_ip : list Z) (protocol : Z) (segment : list Z) : result Z :=
  let sum := 0 +32 word16 (src_ip !!! 0%nat) (src_ip !!! 1%nat) in
  let sum := sum +32 word16 (src_ip !!! 2%nat) (src_ip !!! 3%nat) in
  let sum := sum +32 word16 (dest_ip !!! 0%nat) (dest_ip !!! 1%nat) in
  let sum := sum +32 word16 (dest_ip !!! 2%nat) (dest_ip !!! 3%nat) in
  let sum := sum +32 u16 protocol in
  let sum := sum +32 u16 (Z.of_nat (length segment)) in
  finish (sum_words sum segment).

(** The words as the machine reads them, low byte first. *)
Fixpoint sum_words_le (sum : Z) (bs : list Z) : Z :=
  match bs with
  | b0 :: b1 :: bs' => sum_words_le (sum +32 (b0 + 256 * b1)) bs'
  | [b0] => sum +32 b0
  | [] => sum
  end.
Definition calculate_icmp_checksum (data : list Z) : result Z :=
  match data with [] => Ok 0xFFFF | _ => finish (sum_words_le 0 data) end.

(** * The one's-complement sum *)

Fixpoint total (bs : list Z) : Z :=
  match bs with
  | b0 :: b1 :: bs' => (256 * b0 + b1) + total bs'
  | [b0] => 256 * b0
  | [] => 0
  end.
Fixpoint total_le (bs : list Z) : Z :=
  match bs with
  | b0 :: b1 :: bs' => (b0 + 256 * b1) + total_le bs'
  | [b0] => b0
  | [] => 0
  end.

(** Addition modulo 65535, where 0 is only the sum of zeros. *)
Definition ones (t : Z) : Z := if t =? 0 then 0 else (t - 1) mod 65535 + 1.
Definition checksum (bs : list Z) : Z := 65535 - ones (total bs).

(** Induction over pairs of bytes. *)
Lemma pairs_ind (P : list Z -> Prop) :
  P [] -> (forall a, P [a]) -> (forall a b l, P l -> P (a :: b :: l)) -> forall l, P l.
Proof.
  intros H0 H1 H2 l. assert (P l /\ forall a, P (a :: l)) as [H _]; [|done].
  induction l as [|b l [IH1 IH2]]; [by split|]. split; [done|]. intros a. by apply H2.
Qed.

Lemma word16_eq b0 b1 : byte b0 -> byte b1 -> word16 b0 b1 = 256 * b0 + b1.
Proof. intros H0 H1. unfold word16. rewrite Z.shiftl_mul_pow2, lor_add by lia. lia. Qed.

Lemma bytes_cons b l : bytes (b :: l) <-> byte b /\ bytes l.
Proof. unfold bytes. by rewrite Forall_cons. Qed.

Lemma total_range bs : bytes bs -> 0 <= total bs <= 65535 * ((Z.of_nat (length bs) + 1) / 2).
Proof.
  induction bs as [|a|a b l IH] using pairs_ind; intros H; simpl total.
  - done.
  - apply bytes_cons in H as [Ha _]. simpl length. change ((Z.of_nat 1 + 1) / 2) with 1. lia.
  - apply bytes_cons in H as [Ha H]. apply bytes_cons in H as [Hb Hl]. specialize (IH Hl).
    replace (Z.of_nat (length (a :: b :: l)) + 1) with (Z.of_nat (length l) + 1 + 1 * 2) by (simpl; lia).
    rewrite Z.div_add by lia. lia.
Qed.

Lemma total_le_range bs : bytes bs -> 0 <= total_le bs <= 65535 * ((Z.of_nat (length bs) + 1) / 2).
Proof.
  induction bs as [|a|a b l IH] using pairs_ind; intros H; simpl total_le.
  - done.
  - apply bytes_cons in H as [Ha _]. simpl length. change ((Z.of_nat 1 + 1) / 2) with 1. lia.
  - apply bytes_cons in H as [Ha H]. apply bytes_cons in H as [Hb Hl]. specialize (IH Hl).
    replace (Z.of_nat (length (a :: b :: l)) + 1) with (Z.of_nat (length l) + 1 + 1 * 2) by (simpl; lia).
    rewrite Z.div_add by lia. lia.
Qed.

Lemma sum_words_total sum bs : bytes bs -> 0 <= sum < 4294967296 ->
  sum_words sum bs = u32 (sum + total bs).
Proof.
  revert sum. induction bs as [|a|a b l IH] using pairs_ind; intros sum H Hs; simpl.
  - rewrite u32_small by lia. lia.
  - rewrite Z.shiftl_mul_pow2 by lia. f_equal. lia.
  - apply bytes_cons in H as [Ha H]. apply bytes_cons in H as [Hb Hl].
    rewrite IH, word16_eq by (done || apply u32_range). u_lia.
Qed.

Lemma sum_words_le_total sum bs : bytes bs -> 0 <= sum < 4294967296 ->
  sum_words_le sum bs = u32 (sum + total_le bs).
Proof.
  revert sum. induction bs as [|a|a b l IH] using pairs_ind; intros sum H Hs; simpl.
  - rewrite u32_small by lia. lia.
  - done.
  - apply bytes_cons in H as [Ha H]. apply bytes_cons in H as [Hb Hl].
    rewrite IH by (done || apply u32_range). u_lia.
Qed.

(** Three turns are enough for every 32-bit sum. *)
Lemma fold_sum_ok t : 0 <= t < 4294967296 -> fold_sum 3 t = Ok (ones t).
Proof.
  intros Ht. assert (forall f s, 0 <= s < 65536 -> fold_sum (S f) s = Ok s) as Hend.
  { intros f s Hs. cbn [fold_sum]. rewrite Z.shiftr_div_pow2, Z.div_small by (simpl; lia). done. }
  assert (forall f s, 65536 <= s < 4294967296 ->
    fold_sum (S f) s = fold_sum f (s mod 65536 + s / 65536)) as Hstep.
  { intros f s Hs. cbn [fold_sum]. rewrite Z.shiftr_div_pow2 by lia. change 0xFFFF with (Z.ones 16).
    rewrite Z.land_ones by lia. change (2 ^ 16) with 65536.
    destruct (Z.eqb_spec (s / 65536) 0); [Z.to_euclidean_division_equations; lia|].
    rewrite u32_small; [done|]. Z.to_euclidean_division_equations; lia. }
  unfold ones. destruct (Z.eqb_spec t 0) as [->|]; [by rewrite Hend|].
  destruct (Z.lt_ge_cases t 65536).
  { rewrite Hend by lia. f_equal. Z.to_euclidean_division_equations; lia. }
  rewrite Hstep by lia. set (t1 := t mod 65536 + t / 65536).
  assert (1 <= t1 < 131072 /\ t = t1 + 65535 * (t / 65536)) as [H1 E1]
    by (unfold t1; Z.to_euclidean_division_equations; lia).
  assert ((t - 1) mod 65535 = (t1 - 1) mod 65535) as ->.
  { rewrite E1 at 1. replace (t1 + 65535 * (t / 65536) - 1) with (t1 - 1 + t / 65536 * 65535) by lia.
    apply Z.mod_add. lia. }
  clearbody t1. destruct (Z.lt_ge_cases t1 65536).
  { rewrite Hend by lia. f_equal. Z.to_euclidean_division_equations; lia. }
  rewrite Hstep by lia. rewrite Hend by (Z.to_euclidean_division_equations; lia).
  f_equal. Z.to_euclidean_division_equations; lia.
Qed.

Lemma ones_range t : 0 <= ones t <= 65535.
Proof. unfold ones. destruct (Z.eqb_spec t 0); Z.to_euclidean_division_equations; lia. Qed.

Lemma finish_ok t : 0 <= t < 4294967296 -> finish t = Ok (65535 - ones t).
Proof.
  intros Ht. unfold finish. rewrite fold_sum_ok by done. f_equal. pose proof (ones_range t).
  unfold not32, Z.lnot. u_lia.
Qed.

Section Sums.
Context (bs : list Z) (Hbs : bytes bs) (Hlen : Z.of_nat (length bs) <= 131072).

Lemma calculate_checksum_ok : calculate_checksum bs = Ok (checksum bs).
Proof.
  pose proof (total_range bs Hbs). unfold calculate_checksum. rewrite sum_words_total by (done || lia).
  rewrite u32_small, finish_ok; [done|..]; Z.to_euclidean_division_equations; lia.
Qed.

Lemma icmp_total : total_le bs mod 65535 = (256 * total bs) mod 65535 /\ (total_le bs = 0 <-> total bs = 0).
Proof.
  revert Hbs. clear Hlen. induction bs as [|a|a b l IH] using pairs_ind; intros H; simpl.
  - done.
  - apply bytes_cons in H as [Ha _]. split; [|lia]. replace (256 * (256 * a)) with (a + a * 65535) by lia.
    by rewrite Z.mod_add by lia.
  - apply bytes_cons in H as [Ha H]. apply bytes_cons in H as [Hb Hl]. destruct (IH Hl) as [IH1 IH2].
    pose proof (total_range l Hl). pose proof (total_le_range l Hl). split; [|lia].
    rewrite Z.add_mod, IH1, <- Z.add_mod by lia.
    replace (256 * (256 * a + b + total l)) with (a + 256 * b + 256 * total l + a * 65535) by lia.
    by rewrite Z.mod_add by lia.
Qed.
End Sums.

(** Two checksummed messages with sums that differ by a swap of the bytes. *)
Lemma ones_swap t u : 0 <= t -> 0 <= u ->
  u mod 65535 = (256 * t) mod 65535 -> (u = 0 <-> t = 0) -> ones u = ntohs (ones t).
Proof.
  intros Ht Hu Hmod Hz. unfold ones.
  destruct (Z.eqb_spec u 0), (Z.eqb_spec t 0); try (exfalso; tauto); [done|].
  set (x := (t - 1) mod 65535 + 1). assert (1 <= x <= 65535) as Hx by (unfold x; Z.to_euclidean_division_equations; lia).
  assert (ntohs x = 256 * (x mod 256) + x / 256) as ->.
  { rewrite <- be16_swap by (Z.to_euclidean_division_equations; lia). f_equal. Z.to_euclidean_division_equations; lia. }
  assert ((256 * t) mod 65535 = (256 * x) mod 65535) as E.
  { unfold x. rewrite <- Z.mul_mod_idemp_r by lia. symmetry. rewrite <- Z.mul_mod_idemp_r by lia.
    do 2 f_equal. rewrite Z.add_mod_idemp_l by lia. f_equal. lia. }
  rewrite E in Hmod. replace (256 * x) with (256 * (x mod 256) + x / 256 + x / 256 * 65535) in Hmod
    by (Z.to_euclidean_division_equations; lia).
  rewrite Z.mod_add in Hmod by lia. assert (1 <= 256 * (x mod 256) + x / 256 <= 65535) as Hy
    by (Z.to_euclidean_division_equations; lia).
  set (y := 256 * (x mod 256) + x / 256) in *. clearbody y. clear - Hu Hmod Hy n.
  Z.to_euclidean_division_equations; lia.
Qed.

(** The ICMP routine computes the same checksum, with its bytes swapped. *)
Lemma calculate_icmp_checksum_ok bs : bytes bs -> Z.of_nat (length bs) <= 131072 ->
  calculate_icmp_checksum bs = Ok (ntohs (checksum bs)).
Proof.
  intros Hbs Hlen. pose proof (total_range bs Hbs). pose proof (total_le_range bs Hbs) as Hle.
  destruct (icmp_total bs Hbs) as [H1 H2].
  assert (calculate_icmp_checksum bs = finish (sum_words_le 0 bs)) as -> by by destruct bs.
  rewrite sum_words_le_total, u32_small by (done || lia || (Z.to_euclidean_division_equations; lia)).
  rewrite finish_ok by (Z.to_euclidean_division_equations; lia). f_equal.
  rewrite (ones_swap (total bs)) by (done || lia). unfold checksum. pose proof (ones_range (total bs)) as Hr.
  set (x := ones (total bs)) in *. clearbody x.
  assert (forall y, 0 <= y <= 65535 -> ntohs y = 256 * (y mod 256) + y / 256) as Hswap.
  { intros y Hy. rewrite <- be16_swap by (Z.to_euclidean_division_equations; lia).
    f_equal. Z.to_euclidean_division_equations; lia. }
  rewrite !Hswap by lia. Z.to_euclidean_division_equations; lia.
Qed.

Lemma total_app l1 l2 : Nat.even (length l1) = true -> total (l1 ++ l2) = total l1 + total l2.
Proof.
  induction l1 as [|a|a b l IH] using pairs_ind; intros He; simpl in *; [done..|]. rewrite IH by done. lia.
Qed.

(** The pseudo header in front of a segment. *)
Definition pseudo (src_ip dest_ip : list Z) (protocol : Z) (len : nat) : list Z :=
  src_ip ++ dest_ip ++ [0; protocol; Z.of_nat len / 256; Z.of_nat len mod 256].

Lemma calculate_l4_checksum_ok src dst protocol seg :
  bytes src -> length src = 4%nat -> bytes dst -> length dst = 4%nat -> byte protocol ->
  bytes seg -> Z.of_nat (length seg) < 65536 ->
  calculate_l4_checksum src dst protocol seg = Ok (checksum (pseudo src dst protocol (length seg) ++ seg)).
Proof.
  intros Hs Ls Hd Ld Hp Hb Hlen. destruct src as [|s0 [|s1 [|s2 [|s3 [|]]]]]; try done.
  destruct dst as [|d0 [|d1 [|d2 [|d3 [|]]]]]; try done. unfold bytes in Hs, Hd. decompose_Forall.
  unfold calculate_l4_checksum, checksum. cbn [lookup_total list_lookup_total].
  cbn [pseudo app total]. pose proof (total_range seg Hb). rewrite !word16_eq by lia.
  rewrite (u16_small protocol), (u16_small (Z.of_nat (length seg))) by lia.
  rewrite sum_words_total by (done || apply u32_range).
  assert (Z.of_nat (length seg) = 256 * (Z.of_nat (length seg) / 256) + Z.of_nat (length seg) mod 256) as El
    by (apply Z.div_mod; lia).
  assert (0 <= total seg <= 65535 * 32768) by (Z.to_euclidean_division_equations; lia).
  repeat match goal with
  | |- context [u32 ?x] => lazymatch x with context [u32 _] => fail | _ => rewrite (u32_small x) by lia end
  end.
  rewrite finish_ok by lia. do 3 f_equal. lia.
Qed.

(** Setting the checksum field, at an even offset, to the checksum of the
    message with the field cleared makes the whole message sum to nothing. *)
Lemma checksum_verifies pre post :
  bytes pre -> bytes post -> Nat.even (length pre) = true ->
  let c := checksum (pre ++ [0; 0] ++ post) in
  checksum (pre ++ [c / 256; c mod 256] ++ post) = 0.
Proof.
  intros Hpre Hpost He c. set (t := total pre + total post).
  pose proof (total_range _ Hpre). pose proof (total_range _ Hpost).
  assert (c = 65535 - ones t) as Ec by (unfold c, checksum; rewrite !total_app by done; do 2 f_equal; simpl; lia).
  pose proof (ones_range t). clearbody c. unfold checksum. rewrite !total_app by done.
  replace (total pre + (total [c / 256; c mod 256] + total post)) with (t + c)
    by (simpl; unfold t; Z.to_euclidean_division_equations; lia).
  assert (0 <= t) as Ht by (unfold t; lia). clearbody t. subst c. unfold ones in *.
  destruct (Z.eqb_spec t 0) as [->|]; [done|].
  destruct (Z.eqb_spec (t + (65535 - ((t - 1) mod 65535 + 1))) 0); Z.to_euclidean_division_equations; lia.
Qed.
(** A changed byte changes the sum by less than 65535. *)
Lemma total_insert bs k b b' : bs !! k = Some b ->
  total (<[k := b']> bs) = total bs + (b' - b) * (if Nat.even k then 256 else 1).
Proof.
  revert k. induction bs as [|x|x y l IH] using pairs_ind; intros [|[|k]] E; simplify_eq/=; try lia.
  rewrite IH by done. lia.
Qed.

Lemma checksum_zero bs : bytes bs -> checksum bs = 0 -> total bs mod 65535 = 0.
Proof.
  intros Hb. pose proof (total_range bs Hb). unfold checksum, ones.
  destruct (Z.eqb_spec (total bs) 0); [lia|]. Z.to_euclidean_division_equations; lia.
Qed.



End Checksum.
