(* ===== verification/Link.v ===== *)
(** The lower half of src/net.c: the addresses of the host, the ARP cache with
    its pending requests, the choice of the next hop, and the frames handed to
    the driver.

    Addresses are lists of bytes.  [sent] lists the frames [e1000_send] was
    called with, the latest last; the driver behind it is not part of the model.
    [ticks] is the value of [get_timer_ticks] during a call. *)
From Stdlib Require Import ZArith Lia List Bool.
From stdpp Require Import base tactics numbers list.
From S2P Require Import Prelude NetHdr Checksum Firewall.
Open Scope Z_scope.

Module Link.
Import NetHdr Checksum.

Definition ARP_CACHE_SIZE : nat := 16.
Definition ARP_TIMEOUT_TICKS : Z := 6000.
Definition ARP_MAX_PENDING_REQUESTS : nat := 16.
Definition ARP_REQUEST_INTERVAL_TICKS : Z := 500.
Definition ARP_PENDING_TIMEOUT_TICKS : Z := 1000.

Record arp_cache_entry := mk_entry { ip : list Z; mac : list Z; last_used : Z; valid : bool }.
Record arp_pending_request := mk_pending { p_ip : list Z; last_request_time : Z; pending : bool }.

Record link := mk_link {
  my_mac : list Z; my_ip : list Z; subnet_mask : list Z; gateway_ip : list Z;
  arp_cache : list arp_cache_entry; arp_pending_requests : list arp_pending_request;
  arp_requests_dropped : Z; arp_learned : Z; arp_unsolicited_new : Z; arp_change_refused : Z;
  arp_evicted : Z; filter : Firewall.fw; sent : list (list Z) }.

Section Updates.
Implicit Types s : link.
Definition put_config i m g s := mk_link (my_mac s) i m g (arp_cache s) (arp_pending_requests s)
  (arp_requests_dropped s) (arp_learned s) (arp_unsolicited_new s) (arp_change_refused s) (arp_evicted s)
  (filter s) (sent s).
Definition put_cache c s := mk_link (my_mac s) (my_ip s) (subnet_mask s) (gateway_ip s) c
  (arp_pending_requests s) (arp_requests_dropped s) (arp_learned s) (arp_unsolicited_new s)
  (arp_change_refused s) (arp_evicted s) (filter s) (sent s).
Definition put_pending q s := mk_link (my_mac s) (my_ip s) (subnet_mask s) (gateway_ip s) (arp_cache s)
  q (arp_requests_dropped s) (arp_learned s) (arp_unsolicited_new s)
  (arp_change_refused s) (arp_evicted s) (filter s) (sent s).
Definition put_counters d l u c e s := mk_link (my_mac s) (my_ip s) (subnet_mask s) (gateway_ip s)
  (arp_cache s) (arp_pending_requests s) d l u c e (filter s) (sent s).
Definition put_filter f s := mk_link (my_mac s) (my_ip s) (subnet_mask s) (gateway_ip s) (arp_cache s)
  (arp_pending_requests s) (arp_requests_dropped s) (arp_learned s) (arp_unsolicited_new s)
  (arp_change_refused s) (arp_evicted s) f (sent s).
Definition put_sent l s := mk_link (my_mac s) (my_ip s) (subnet_mask s) (gateway_ip s) (arp_cache s)
  (arp_pending_requests s) (arp_requests_dropped s) (arp_learned s) (arp_unsolicited_new s)
  (arp_change_refused s) (arp_evicted s) (filter s) l.
End Updates.

(** Running an operation of the packet filter. *)
Definition on_filter {A} (m : M Firewall.fw A) : M link A := zoom filter put_filter m.

(** An operation of this layer in a protocol above it. *)
Definition lower {St A} (m : M link A) : M (link * St) A := zoom fst (fun l s => (l, snd s)) m.

Definition e1000_send (frame : list Z) : M link unit := modify (fun s => put_sent (sent s ++ [frame]) s).

(** A frame built in a buffer of [size] bytes. *)
Definition in_buffer (size : Z) (frame : list Z) : result (list Z) :=
  if size <? Z.of_nat (length frame) then Err OutOfBounds else Ok frame.

(** [memcmp(a, b, n) == 0] on whole addresses. *)
Definition same (a b : list Z) : bool := bool_decide (a = b).
Definition is_zero (a : list Z) : bool := forallb (fun x => x =? 0) a.

(** * Addresses *)

Definition set_my_ip_from_array (new_ip : list Z) : M link unit :=
  modify (fun s => put_config new_ip (subnet_mask s) (gateway_ip s) s).

(** [None] for a null pointer. *)
Definition set_network_config (i m g : option (list Z)) : M link unit :=
  modify (fun s => put_config (default (my_ip s) i) (default (subnet_mask s) m) (default (gateway_ip s) g) s).

(** [(a\[k\] & mask\[k\]) == (b\[k\] & mask\[k\])] for all four bytes. *)
Definition same_net (mask a b : list Z) : bool :=
  forallb (fun k => Z.land (a !!! k) (mask !!! k) =? Z.land (b !!! k) (mask !!! k)) (seq 0 4).

Definition net_is_broadcast_ip (a : list Z) (s : link) : bool :=
  if forallb (fun k => a !!! k =? 255) (seq 0 4) then true else
  if is_zero (my_ip s) then false else
  let m := subnet_mask s in
  if (Z.land (Z.land (m !!! 0%nat) (m !!! 1%nat)) (m !!! 2%nat) =? 0xFF) && (Z.land (m !!! 3%nat) 0xFE =? 0xFE)
  then false
  else forallb (fun k => a !!! k =? u8 (Z.lor (my_ip s !!! k) (u8 (Z.lnot (m !!! k))))) (seq 0 4).

Definition is_invalid_arp_sender_ip (a : list Z) (s : link) : bool :=
  if net_is_broadcast_ip a s then true else
  if forallb (fun k => a !!! k =? 0) (seq 0 4) then true else
  if (224 <=? a !!! 0%nat) && (a !!! 0%nat <=? 239) then true else
  a !!! 0%nat =? 127.

Definition is_valid_arp_ip (a : list Z) (s : link) : bool :=
  if same a (gateway_ip s) then true else
  if is_zero (my_ip s) then true else
  same_net (subnet_mask s) a (my_ip s).

Definition is_zero_mac (m : list Z) : bool := forallb (fun k => m !!! k =? 0) (seq 0 6).
Definition is_valid_arp_sender_mac (m : list Z) (s : link) : bool :=
  if is_zero_mac m then false else
  if negb (Z.land (m !!! 0%nat) 0x01 =? 0) then false else
  negb (same m (my_mac s)).

(** * The cache *)

Definition invalidate (e : arp_cache_entry) : arp_cache_entry :=
  mk_entry (ip e) [0; 0; 0; 0; 0; 0] (last_used e) false.
Definition arp_cache_evict_expired (ticks : Z) : M link unit := modify (fun s =>
  put_cache (map (fun e => if valid e && (ARP_TIMEOUT_TICKS <? ticks -32 last_used e) then invalidate e else e)
                 (arp_cache s)) s).

Definition forget (q : arp_pending_request) : arp_pending_request :=
  mk_pending [0; 0; 0; 0] (last_request_time q) false.

(** The loop of [arp_pending_request_matches], which drops expired requests in
    front of the match. *)
Fixpoint match_pending (ticks : Z) (a : list Z) (l : list arp_pending_request)
  : bool * list arp_pending_request :=
  match l with
  | [] => (false, [])
  | q :: l' =>
      if pending q && negb (ARP_PENDING_TIMEOUT_TICKS <? ticks -32 last_request_time q) && same (p_ip q) a
      then (true, l)
      else
        let '(b, l'') := match_pending ticks a l' in
        (b, (if pending q && (ARP_PENDING_TIMEOUT_TICKS <? ticks -32 last_request_time q) then forget q else q) :: l'')
  end.
Definition arp_pending_request_matches (ticks : Z) (a : list Z) : M link bool :=
  r <- gets (fun s => match_pending ticks a (arp_pending_requests s)) ;;
  modify (put_pending (snd r)) ;;;
  ret (fst r).

Definition arp_pending_request_clear (a : list Z) : M link unit := modify (fun s =>
  put_pending (map (fun q => if pending q && same (p_ip q) a then forget q else q) (arp_pending_requests s)) s).

(** The first index with [p]. *)
Fixpoint index_of {A} (p : A -> bool) (l : list A) : option nat :=
  match l with
  | [] => None
  | x :: l' => if p x then Some 0%nat else option_map S (index_of p l')
  end.

Definition entry_for (a : list Z) (e : arp_cache_entry) : bool := valid e && same (ip e) a.
Definition arp_cache_find_index (a : list Z) (s : link) : option nat := index_of (entry_for a) (arp_cache s).
Definition arp_cache_contains_ip (a : list Z) (s : link) : bool :=
  match arp_cache_find_index a s with Some _ => true | None => false end.

(** The first entry with the lowest [time], as the scan from index 1 finds it. *)
Definition lru_index {A} (time : A -> Z) (l : list A) : nat := Z.to_nat (Firewall.oldest time l).

Inductive arp_update_result :=
| ARP_UPD_IGNORED | ARP_UPD_REFRESHED | ARP_UPD_LEARNED | ARP_UPD_UNSOLICITED | ARP_UPD_CHANGE_REFUSED.

Definition put_entry (i : nat) (e : arp_cache_entry) (s : link) : link := put_cache (<[i := e]> (arp_cache s)) s.

Definition arp_cache_update_status (ticks : Z) (a m : list Z) : M link arp_update_result :=
  ignored <- gets (fun s => is_invalid_arp_sender_ip a s || negb (is_valid_arp_ip a s) ||
                            negb (is_valid_arp_sender_mac m s) || same a (my_ip s)) ;;
  if ignored then ret ARP_UPD_IGNORED else
  has_pending_request <- arp_pending_request_matches ticks a ;;
  cache <- gets arp_cache ;;
  match index_of (entry_for a) cache with
  | Some i =>
      e <- lift (aget cache (Z.of_nat i)) ;;
      if negb (same (mac e) m) && negb has_pending_request then ret ARP_UPD_CHANGE_REFUSED else
      modify (put_entry i (mk_entry (ip e) m ticks (valid e))) ;;;
      arp_pending_request_clear a ;;;
      ret ARP_UPD_REFRESHED
  | None =>
      if negb has_pending_request then ret ARP_UPD_UNSOLICITED else
      match index_of (fun e => negb (valid e)) cache with
      | Some i =>
          modify (put_entry i (mk_entry a m ticks true)) ;;;
          arp_pending_request_clear a ;;;
          ret ARP_UPD_LEARNED
      | None =>
          modify (fun s => put_counters (arp_requests_dropped s) (arp_learned s) (arp_unsolicited_new s)
                             (arp_change_refused s) (arp_evicted s +32 1) s) ;;;
          modify (put_entry (lru_index last_used cache) (mk_entry a m ticks true)) ;;;
          arp_pending_request_clear a ;;;
          ret ARP_UPD_LEARNED
      end
  end.
Definition arp_cache_update (ticks : Z) (a m : list Z) : M link unit :=
  _ <- arp_cache_update_status ticks a m ;; ret tt.

Definition arp_count_update (r : arp_update_result) : M link unit := modify (fun s =>
  match r with
  | ARP_UPD_LEARNED => put_counters (arp_requests_dropped s) (arp_learned s +32 1) (arp_unsolicited_new s)
                         (arp_change_refused s) (arp_evicted s) s
  | ARP_UPD_UNSOLICITED => put_counters (arp_requests_dropped s) (arp_learned s) (arp_unsolicited_new s +32 1)
                             (arp_change_refused s) (arp_evicted s) s
  | ARP_UPD_CHANGE_REFUSED => put_counters (arp_requests_dropped s) (arp_learned s) (arp_unsolicited_new s)
                                (arp_change_refused s +32 1) (arp_evicted s) s
  | _ => s
  end).

(** * Frames *)

Definition broadcast_mac : list Z := [255; 255; 255; 255; 255; 255].
Definition eth_frame (dest src : list Z) (ethertype : Z) (payload : list Z) : list Z :=
  dest ++ src ++ net_bytes16 ethertype ++ payload.

Definition arp_packet (op : Z) (sender_mac sender_ip target_mac target_ip : list Z) : list Z :=
  net_bytes16 ARP_HTYPE_ETHERNET ++ net_bytes16 ARP_PTYPE_IPV4 ++ [6; 4] ++ net_bytes16 op ++
  sender_mac ++ sender_ip ++ target_mac ++ target_ip.

Definition send_arp_announcement : M link unit :=
  mm <- gets my_mac ;; mi <- gets my_ip ;;
  e1000_send (eth_frame broadcast_mac mm ETH_TYPE_ARP (arp_packet ARP_OP_REQUEST mm mi [0; 0; 0; 0; 0; 0] mi)).

Definition send_arp_packet (target_ip : list Z) : M link unit :=
  mm <- gets my_mac ;; mi <- gets my_ip ;;
  e1000_send (eth_frame broadcast_mac mm ETH_TYPE_ARP
                (arp_packet ARP_OP_REQUEST mm mi [0; 0; 0; 0; 0; 0] target_ip)).

(** Step 2 clears the flag only. *)
Definition expire (ticks : Z) (q : arp_pending_request) : arp_pending_request :=
  if pending q && (ARP_PENDING_TIMEOUT_TICKS <? ticks -32 last_request_time q)
  then mk_pending (p_ip q) (last_request_time q) false else q.

Definition track_request (ticks : Z) (target_ip : list Z) (s : link) : link :=
  let reqs := map (expire ticks) (arp_pending_requests s) in
  let new := mk_pending target_ip ticks true in
  match index_of (fun q => negb (pending q)) reqs with
  | Some i => put_pending (<[i := new]> reqs) s
  | None =>
      put_pending (<[lru_index last_request_time reqs := new]> reqs)
        (put_counters (arp_requests_dropped s +32 1) (arp_learned s) (arp_unsolicited_new s)
           (arp_change_refused s) (arp_evicted s) s)
  end.

Definition send_arp_request (ticks : Z) (target_ip : list Z) : M link unit :=
  reqs <- gets arp_pending_requests ;;
  match index_of (fun q => pending q && same (p_ip q) target_ip) reqs with
  | Some i =>
      q <- lift (aget reqs (Z.of_nat i)) ;;
      if ticks -32 last_request_time q <? ARP_REQUEST_INTERVAL_TICKS then ret tt else
      modify (put_pending (<[i := mk_pending (p_ip q) ticks true]> reqs)) ;;;
      send_arp_packet target_ip
  | None =>
      modify (track_request ticks target_ip) ;;;
      send_arp_packet target_ip
  end.

(** The address found; [None] for a null pointer. *)
Definition arp_lookup (ticks : Z) (a : list Z) : M link (option (list Z)) :=
  arp_cache_evict_expired ticks ;;;
  cache <- gets arp_cache ;;
  match index_of (entry_for a) cache with
  | Some i =>
      e <- lift (aget cache (Z.of_nat i)) ;;
      modify (put_entry i (mk_entry (ip e) (mac e) ticks (valid e))) ;;;
      ret (Some (mac e))
  | None =>
      gw <- gets gateway_ip ;;
      if same a gw then ret None else
      match index_of (entry_for gw) cache with
      | Some i => e <- lift (aget cache (Z.of_nat i)) ;; ret (Some (mac e))
      | None => ret None
      end
  end.

Definition get_route_mac (ticks : Z) (dest_ip : list Z) : M link (option (list Z)) :=
  is_local <- gets (fun s => same_net (subnet_mask s) (my_ip s) dest_ip) ;;
  if is_local then
    ask <- gets (fun s => negb (arp_cache_contains_ip dest_ip s) && negb (is_invalid_arp_sender_ip dest_ip s)) ;;
    (if ask then send_arp_request ticks dest_ip else ret tt) ;;;
    dest_mac <- arp_lookup ticks dest_ip ;;
    match dest_mac with
    | None => send_arp_request ticks dest_ip ;;; ret None
    | Some m => ret (Some m)
    end
  else
    gw <- gets gateway_ip ;;
    gateway_mac <- arp_lookup ticks gw ;;
    match gateway_mac with
    | None => send_arp_request ticks gw ;;; ret None
    | Some m => ret (Some m)
    end.

(** ** Received ARP packets *)

(** [take]/[drop] of the packed header at the offsets of its fields. *)
Definition field (p : list Z) (off n : nat) : list Z := take n (drop off p).

(** [arp]: the 28 bytes of the ARP header; [eth_src]: the source address of the
    frame. *)
Definition handle_arp (ticks : Z) (arp eth_src : list Z) : M link unit :=
  hw_type <- net16 arp 0 ;;
  if negb (hw_type =? ARP_HTYPE_ETHERNET) then ret tt else
  proto_type <- net16 arp 2 ;;
  if negb (proto_type =? ARP_PTYPE_IPV4) then ret tt else
  hlen <- load8 arp 4 ;; plen <- load8 arp 5 ;;
  if negb (hlen =? 6) || negb (plen =? 4) then ret tt else
  op <- net16 arp 6 ;;
  if negb (op =? ARP_OP_REQUEST) && negb (op =? ARP_OP_REPLY) then ret tt else
  let sender_mac := field arp 8 6 in
  let sender_ip := field arp 14 4 in
  let target_ip := field arp 24 4 in
  refused <- gets (fun s => is_invalid_arp_sender_ip sender_ip s || negb (is_valid_arp_sender_mac sender_mac s) ||
                            negb (is_valid_arp_ip sender_ip s)) ;;
  if refused then ret tt else
  if op =? ARP_OP_REQUEST then
    mi <- gets my_ip ;;
    if is_zero mi then ret tt else
    r <- arp_cache_update_status ticks sender_ip sender_mac ;;
    arp_count_update r ;;;
    if same target_ip mi then
      mm <- gets my_mac ;;
      e1000_send (eth_frame eth_src mm ETH_TYPE_ARP
                    (take 6 arp ++ net_bytes16 ARP_OP_REPLY ++ mm ++ mi ++ sender_mac ++ sender_ip))
    else ret tt
  else
    r <- arp_cache_update_status ticks sender_ip sender_mac ;;
    arp_count_update r.

(** * IP packets *)

(** The header of 20 bytes with its checksum. *)
Definition ip_header (total_length id protocol : Z) (src dst : list Z) : result (list Z) :=
  let h c := [0x45; 0] ++ net_bytes16 total_length ++ net_bytes16 id ++ [0; 0; 64; protocol] ++ c ++ src ++ dst in
  match calculate_checksum (h [0; 0]) with
  | Ok c => Ok (h (net_bytes16 c))
  | Err f => Err f
  end.

(** The transport header in front of [c], the checksum field, and what follows. *)
Definition l4_segment (src dst : list Z) (protocol : Z) (head tail : list Z) (zero_as : Z) : result (list Z) :=
  match calculate_l4_checksum src dst protocol (head ++ [0; 0] ++ tail) with
  | Ok c => let w := if htons c =? 0 then zero_as else c in Ok (head ++ net_bytes16 w ++ tail)
  | Err f => Err f
  end.

(** [ntohl( *(uint32_t* )ip)] *)
Definition ip_word (a : list Z) : Z :=
  ntohl (((a !!! 0%nat) + 256 * (a !!! 1%nat)) + 65536 * ((a !!! 2%nat) + 256 * (a !!! 3%nat))).

Definition send_udp_packet (ticks : Z) (dest_ip dest_mac : list Z) (src_port dest_port : Z) (data : list Z)
  : M link unit :=
  mm <- gets my_mac ;; mi <- gets my_ip ;;
  let udp_len := 8 + Z.of_nat (length data) in
  let ip_len := 20 + udp_len in
  udp <- lift (l4_segment mi dest_ip IPPROTO_UDP
                 (net_bytes16 src_port ++ net_bytes16 dest_port ++ net_bytes16 udp_len) data 0xFFFF) ;;
  hdr <- lift (ip_header ip_len 0x2000 IPPROTO_UDP mi dest_ip) ;;
  on_filter (Firewall.firewall_track_outgoing ticks (ip_word mi) (ip_word dest_ip) src_port dest_port IPPROTO_UDP) ;;;
  e1000_send (eth_frame dest_mac mm ETH_TYPE_IPV4 (hdr ++ udp)).

(** * The cache as a relation *)

Section Index.
Context {A : Type} (p : A -> bool).
Implicit Types l : list A.

Lemma index_of_Some l i : index_of p l = Some i -> exists x, l !! i = Some x /\ p x = true.
Proof.
  revert i. induction l as [|y l IH]; intros i E; [done|]. simpl in E. destruct (p y) eqn:Ey.
  - injection E as <-. by exists y.
  - destruct (index_of p l) as [j|]; [|done]. injection E as <-. apply (IH j eq_refl).
Qed.

Lemma index_of_None l x : index_of p l = None -> x ∈ l -> p x = false.
Proof.
  induction l as [|y l IH]; intros E Hx; [by apply not_elem_of_nil in Hx|]. simpl in E.
  destruct (p y) eqn:Ey; [done|]. destruct (index_of p l); [done|].
  apply elem_of_cons in Hx as [->|Hx]; [done|by apply IH].
Qed.

Lemma index_of_lt l i : index_of p l = Some i -> (i < length l)%nat.
Proof. intros (x & Hx & _)%index_of_Some. by apply lookup_lt_Some in Hx. Qed.
End Index.

Lemma same_eq a b : same a b = true <-> a = b.
Proof. apply bool_decide_eq_true. Qed.

(** The cache maps an address. *)
Definition maps (s : link) (a m : list Z) : Prop :=
  exists e, e ∈ arp_cache s /\ valid e = true /\ ip e = a /\ mac e = m.

(** A request for an address was sent at most ten seconds ago and not answered
    yet. *)
Definition asked (s : link) (ticks : Z) (a : list Z) : Prop :=
  exists q, q ∈ arp_pending_requests s /\ pending q = true /\ p_ip q = a /\
    ticks -32 last_request_time q <= ARP_PENDING_TIMEOUT_TICKS.

(** The same, less than five seconds ago. *)
Definition requested (s : link) (ticks : Z) (a : list Z) : Prop :=
  exists q, q ∈ arp_pending_requests s /\ pending q = true /\ p_ip q = a /\
    ticks -32 last_request_time q < ARP_REQUEST_INTERVAL_TICKS.

Lemma requested_asked s t t' a : requested s t a -> t' -32 t <= 500 -> asked s t' a.
Proof.
  intros (q & Hq & Hp & Ha & Ht) H. exists q. split_and!; try done.
  unfold ARP_REQUEST_INTERVAL_TICKS, ARP_PENDING_TIMEOUT_TICKS, u32 in *. Z.to_euclidean_division_equations; lia.
Qed.

(** No address has two valid entries. *)
Definition functional (c : list arp_cache_entry) : Prop :=
  forall i j e e', c !! i = Some e -> c !! j = Some e' -> valid e = true -> valid e' = true ->
    ip e = ip e' -> i = j.

Notation addr n a := (bytes a /\ length a = n%nat).

Lemma zeros_addr n : addr n (replicate n 0).
Proof. split; [by apply Forall_replicate|apply length_replicate]. Qed.

(** The sizes of the tables and addresses, and the invariant of the filter. *)
Record link_inv (s : link) : Prop := mk_link_inv {
  li_mac : addr 6 (my_mac s); li_ip : addr 4 (my_ip s);
  li_cache : length (arp_cache s) = ARP_CACHE_SIZE;
  li_macs : Forall (fun e => addr 6 (mac e)) (arp_cache s);
  li_unique : functional (arp_cache s);
  li_pending : length (arp_pending_requests s) = ARP_MAX_PENDING_REQUESTS;
  li_filter : Firewall.fw_inv (filter s) }.

Record same_config (s s' : link) : Prop := mk_same_config {
  sc_mac : my_mac s' = my_mac s; sc_ip : my_ip s' = my_ip s;
  sc_mask : subnet_mask s' = subnet_mask s; sc_gateway : gateway_ip s' = gateway_ip s }.

Lemma same_config_refl s : same_config s s.
Proof. by constructor. Qed.
Lemma same_config_trans s1 s2 s3 : same_config s1 s2 -> same_config s2 s3 -> same_config s1 s3.
Proof. intros [] []. constructor; congruence. Qed.

(** What answers to ARP may change: with [asked] fixed to the state before. *)
Record arp_safe (ticks : Z) (s s' : link) : Prop := mk_arp_safe {
  as_maps : forall a m, maps s' a m -> maps s a m \/ asked s ticks a;
  as_config : same_config s s' }.

Lemma match_pending_true ticks a l :
  fst (match_pending ticks a l) = true <->
  exists q, q ∈ l /\ pending q = true /\ p_ip q = a /\ ticks -32 last_request_time q <= ARP_PENDING_TIMEOUT_TICKS.
Proof.
  induction l as [|q l IH]; simpl.
  { split; [done|]. intros (q & Hq & _). by apply not_elem_of_nil in Hq. }
  destruct (pending q && negb (ARP_PENDING_TIMEOUT_TICKS <? ticks -32 last_request_time q) && same (p_ip q) a) eqn:E.
  - simpl. split; [intros _|done]. exists q. apply andb_true_iff in E as [E Es]. apply andb_true_iff in E as [Ep Et].
    apply same_eq in Es. split_and!; [by left|done..|]. lia.
  - destruct (match_pending ticks a l) as [b l']. simpl in *. rewrite IH. split.
    + intros (x & Hx & H). exists x. split; [by right|done].
    + intros (x & [->|Hx]%elem_of_cons & Hp & Ha & Ht); [|by exists x].
      exfalso. rewrite Hp, (proj2 (same_eq _ _) Ha) in E. lia.
Qed.

Lemma match_pending_length ticks a l : length (snd (match_pending ticks a l)) = length l.
Proof.
  induction l as [|q l IH]; simpl; [done|].
  destruct (pending q && _ && _); [done|]. destruct (match_pending ticks a l). simpl in *. by f_equal.
Qed.

(** Matching and clearing leave fewer requests. *)
Lemma match_pending_sub ticks a l q : q ∈ snd (match_pending ticks a l) -> pending q = true -> q ∈ l.
Proof.
  revert q. induction l as [|x l IH]; simpl; intros q Hq Hp; [done|].
  destruct (pending x && _ && _); [done|]. destruct (match_pending ticks a l) as [b l']. simpl in *.
  apply elem_of_cons in Hq as [->|Hq]; [|right; by apply IH]. destruct (pending x && _); [done|by left].
Qed.

Lemma functional_insert c i e : functional c -> (forall j x, j <> i -> c !! j = Some x -> valid x = true -> ip x <> ip e) ->
  functional (<[i := e]> c).
Proof.
  intros Hf Hno j k x y Hx Hy Vx Vy E.
  destruct (decide (j = i)) as [->|Hj], (decide (k = i)) as [->|Hk]; [done|..].
  - rewrite list_lookup_insert_ne in Hy by done. exfalso. apply lookup_lt_Some in Hx as Hi.
    rewrite length_insert in Hi. rewrite list_lookup_insert_eq in Hx by done. injection Hx as <-. by eapply Hno.
  - rewrite list_lookup_insert_ne in Hx by done. exfalso. apply lookup_lt_Some in Hy as Hi.
    rewrite length_insert in Hi. rewrite list_lookup_insert_eq in Hy by done. injection Hy as <-. by eapply Hno.
  - rewrite list_lookup_insert_ne in Hx, Hy by done. by eapply Hf.
Qed.

Lemma elem_of_insert {A} (l : list A) i x y : y ∈ <[i := x]> l -> y = x \/ y ∈ l.
Proof.
  intros [j Hj]%list_elem_of_lookup. destruct (decide (j = i)) as [->|Hne].
  - left. apply lookup_lt_Some in Hj as Hi. rewrite length_insert in Hi.
    rewrite list_lookup_insert_eq in Hj by done. congruence.
  - right. rewrite list_lookup_insert_ne in Hj by done. by apply list_elem_of_lookup_2 in Hj.
Qed.

(** * Updates of the cache *)

(** The parts an update of the cache leaves alone; pending requests only
    disappear. *)
Record arp_step (ticks : Z) (s s' : link) : Prop := mk_arp_step {
  st_inv : link_inv s'; st_safe : arp_safe ticks s s';
  st_sent : sent s' = sent s; st_filter : filter s' = filter s;
  st_asked : forall t b, asked s' t b -> asked s t b }.

(** An entry written at a time. *)
Definition stored (s : link) (u : Z) (a m : list Z) : Prop :=
  exists e, e ∈ arp_cache s /\ valid e = true /\ ip e = a /\ mac e = m /\ last_used e = u.

Lemma stored_maps s u a m : stored s u a m -> maps s a m.
Proof. intros (e & He & Hv & Ea & Em & _). by exists e. Qed.

(** A sender the cache takes notice of. *)
Definition credible (a m : list Z) (s : link) : bool :=
  negb (is_invalid_arp_sender_ip a s || negb (is_valid_arp_ip a s) || negb (is_valid_arp_sender_mac m s) ||
        same a (my_ip s)).

(** What the result of [arp_cache_update_status] says. *)
Definition updated (ticks : Z) (a m : list Z) (s s' : link) (r : arp_update_result) : Prop :=
  match r with
  | ARP_UPD_IGNORED => s' = s /\ credible a m s = false
  | ARP_UPD_REFRESHED => (maps s a m \/ asked s ticks a) /\ (exists m', maps s a m') /\ stored s' ticks a m
  | ARP_UPD_LEARNED => asked s ticks a /\ (forall m', ~ maps s a m') /\ stored s' ticks a m
  | ARP_UPD_UNSOLICITED => ~ asked s ticks a /\ (forall m', ~ maps s a m') /\ arp_cache s' = arp_cache s
  | ARP_UPD_CHANGE_REFUSED =>
      ~ asked s ticks a /\ (exists m', m' <> m /\ maps s a m') /\ arp_cache s' = arp_cache s
  end.

Lemma arp_safe_cache ticks s s' : same_config s s' -> arp_cache s' = arp_cache s -> arp_safe ticks s s'.
Proof. intros Hc E. constructor; [|done]. unfold maps. rewrite E. by left. Qed.

Section Update.
Context (ticks : Z) (a m : list Z) (Hm : addr 6 m).

(** Clearing and the write behind it, in all three places. *)
Lemma write_entry_ok i u r s0 s (Q : arp_update_result -> link -> Prop) :
  link_inv s -> arp_step ticks s0 s -> asked s0 ticks a \/ maps s0 a m ->
  (i < length (arp_cache s))%nat ->
  (forall j x, j <> i -> arp_cache s !! j = Some x -> valid x = true -> ip x <> a) ->
  (forall s', arp_step ticks s0 s' -> stored s' u a m -> Q r s') ->
  wp (modify (put_entry i (mk_entry a m u true)) ;;; arp_pending_request_clear a ;;; ret r) Q s.
Proof.
  intros [Hmac Hip Hc Hmacs Hf Hp Hfw] [_ [Hmaps Hcfg] Hsent Hfil Hasked] Hok Hi Hno HQ.
  apply wp_bind, wp_modify, wp_bind, wp_modify, wp_ret, HQ.
  - constructor; simpl; try done.
    + constructor; simpl; try done; rewrite ?length_insert, ?length_map; try done.
      * apply Forall_insert; [done|done].
      * by apply functional_insert.
    + constructor; simpl; [|by destruct Hcfg; constructor]. intros b m' (e & He & Hv & <- & <-).
      simpl in He. apply elem_of_insert in He as [->|He]; simpl.
      * destruct Hok; [by right|by left].
      * apply Hmaps. by exists e.
    + intros t b (q & Hq & Hpq & Hb & Ht). simpl in Hq. apply Hasked. apply list_elem_of_fmap in Hq as (x & -> & Hx).
      destruct (pending x && same (p_ip x) a) eqn:E; [done|]. by exists x.
  - eexists. split; [apply list_elem_of_lookup_2 with i; simpl; by apply list_lookup_insert_eq|done].
Qed.

Lemma pending_matches_ok s (Q : bool -> link -> Prop) :
  link_inv s ->
  (forall b s', arp_step ticks s s' -> arp_cache s' = arp_cache s -> (b = true <-> asked s ticks a) -> Q b s') ->
  wp (arp_pending_request_matches ticks a) Q s.
Proof.
  intros [] HQ. unfold arp_pending_request_matches. apply wp_bind, wp_gets, wp_bind, wp_modify, wp_ret, HQ.
  - constructor; simpl; try done.
    + constructor; simpl; try done. by rewrite match_pending_length.
    + by apply arp_safe_cache.
    + intros t b (q & Hq & Hpq & H). exists q. split; [|done]. simpl in Hq. by apply match_pending_sub in Hq.
  - done.
  - apply match_pending_true.
Qed.

Lemma update_status_ok s (Q : arp_update_result -> link -> Prop) :
  link_inv s ->
  (forall r s', arp_step ticks s s' -> updated ticks a m s s' r -> Q r s') ->
  wp (arp_cache_update_status ticks a m) Q s.
Proof.
  intros Hs HQ. unfold arp_cache_update_status. apply wp_bind, wp_gets.
  destruct (_ || same a (my_ip s)) eqn:Ecred.
  { apply wp_ret, HQ; [|by unfold updated, credible; rewrite Ecred]. constructor; [done|by apply arp_safe_cache|done..]. }
  apply wp_bind, pending_matches_ok; [done|]. intros b s1 H1 Ec Hb. apply wp_bind, wp_gets. rewrite Ec.
  assert (forall x, x ∈ arp_cache s1 -> entry_for a x = false -> valid x = true -> ip x <> a) as Hother.
  { unfold entry_for. intros x _ E Hv Hx. rewrite Hv in E. simpl in E. apply same_eq in Hx. congruence. }
  destruct (index_of (entry_for a) (arp_cache s)) as [i|] eqn:Ei.
  - apply index_of_Some in Ei as (e & He & Hfor). unfold entry_for in Hfor. apply andb_true_iff in Hfor as [Hv Hip].
    apply same_eq in Hip. pose proof (lookup_lt_Some _ _ _ He) as Hlt.
    assert (maps s a (mac e)) as Hme by (exists e; split_and!; [by eapply list_elem_of_lookup_2|done..]).
    apply wp_bind. eapply wp_lift; [apply aget_ok; [lia|]; rewrite Nat2Z.id; exact He|].
    destruct (negb (same (mac e) m) && negb b) eqn:Eref.
    + apply wp_ret, HQ; [done|]. assert (mac e <> m) as Hne.
      { intros E. apply same_eq in E. rewrite E in Eref. done. }
      split_and!; [rewrite <- Hb; destruct b; [by rewrite andb_false_r in Eref|done]|by exists (mac e)|done].
    + rewrite Hip, Hv. assert (asked s ticks a \/ maps s a m) as Hok.
      { destruct (same (mac e) m) eqn:E; [apply same_eq in E as <-; by right|]. left. apply Hb. by destruct b. }
      apply (write_entry_ok i ticks _ s); [apply H1|done..|rewrite Ec; done| |].
      * intros j x Hj Hx Hvx Hipx. apply Hj. rewrite Ec in Hx. eapply (li_unique s Hs); [exact Hx|exact He|done..|congruence].
      * intros s' Hst Hmp. apply HQ; [done|]. split_and!; [tauto|by exists (mac e)|done].
  - assert (forall m', ~ maps s a m') as Hnone.
    { intros m' (e & He & Hv & Hip & _). pose proof (index_of_None _ _ _ Ei He) as E. unfold entry_for in E.
      rewrite Hv in E. simpl in E. apply same_eq in Hip. congruence. }
    assert (forall j x i, j <> i -> arp_cache s1 !! j = Some x -> valid x = true -> ip x <> a) as Hno.
    { intros j x i _ Hx Hv. apply Hother; [by eapply list_elem_of_lookup_2| |done].
      rewrite Ec in Hx. apply (index_of_None _ _ _ Ei). by eapply list_elem_of_lookup_2. }
    destruct b; simpl negb; cbv iota.
    2: { apply wp_ret, HQ; [done|]. split_and!; [|done..]. rewrite <- Hb. done. }
    assert (asked s ticks a) as Hask by by apply Hb.
    assert (forall s', arp_step ticks s s' -> stored s' ticks a m -> Q ARP_UPD_LEARNED s') as HL
      by (intros s' Hst Hmp; apply HQ; done).
    destruct (index_of (fun e => negb (valid e)) (arp_cache s)) as [i|] eqn:Ef.
    + apply index_of_lt in Ef. apply (write_entry_ok i ticks _ s); [apply H1|done|by left|by rewrite Ec|..|done].
      intros j x. apply Hno.
    + assert (lru_index last_used (arp_cache s) < length (arp_cache s))%nat as Hlru.
      { unfold lru_index. pose proof (Firewall.oldest_range last_used (arp_cache s)) as Hr.
        pose proof (li_cache s Hs) as Hl. unfold ARP_CACHE_SIZE in Hl.
        destruct (arp_cache s); [done|]. specialize (Hr ltac:(done)). lia. }
      apply wp_bind, wp_modify. destruct H1 as [[] [Hmaps []] ? ? Has].
      apply (write_entry_ok _ ticks _ s); [by constructor| |by left|simpl; by rewrite Ec|..|done].
      * constructor; [by constructor| |done..]. constructor; [exact Hmaps|by constructor].
      * intros j x. apply Hno.
Qed.
End Update.

(** * Sending *)

(** What sending changes: mappings may expire, frames are added, and the filter
    records flows. *)
Record out_step (s s' : link) : Prop := mk_out_step {
  os_inv : link_inv s'; os_config : same_config s s';
  os_maps : forall a m, maps s' a m -> maps s a m;
  os_sent : exists l, sent s' = sent s ++ l;
  os_filter : Firewall.conn_frame (filter s) (filter s') }.

Lemma out_step_trans s1 s2 s3 : out_step s1 s2 -> out_step s2 s3 -> out_step s1 s3.
Proof.
  intros [I1 C1 M1 [l1 S1] F1] [I2 C2 M2 [l2 S2] F2]. constructor.
  - done.
  - by eapply same_config_trans.
  - eauto.
  - exists (l1 ++ l2). by rewrite S2, S1, app_assoc.
  - by eapply Firewall.conn_frame_trans.
Qed.

Lemma filter_refl s : link_inv s -> Firewall.conn_frame (filter s) (filter s).
Proof. intros []. by constructor. Qed.

Lemma out_step_refl s : link_inv s -> out_step s s.
Proof. intros H. constructor; [done..|exists []; by rewrite app_nil_r|by apply filter_refl]. Qed.

Lemma arp_safe_out ticks s1 s2 s3 : arp_safe ticks s1 s2 -> out_step s2 s3 -> arp_safe ticks s1 s3.
Proof. intros [M C] []. constructor; [eauto|by eapply same_config_trans]. Qed.

(** Changes of the tables that add no mapping. *)
Lemma out_step_tables s s' :
  link_inv s -> my_mac s' = my_mac s -> my_ip s' = my_ip s -> subnet_mask s' = subnet_mask s ->
  gateway_ip s' = gateway_ip s -> arp_cache s' = arp_cache s -> filter s' = filter s ->
  length (arp_pending_requests s') = ARP_MAX_PENDING_REQUESTS -> (exists l, sent s' = sent s ++ l) -> out_step s s'.
Proof.
  intros H E1 E2 E3 E4 E5 E6 Hl Hs. pose proof H as [].
  constructor; [|by constructor|unfold maps; by rewrite E5|done|rewrite E6; by apply filter_refl].
  constructor; rewrite ?E1, ?E2, ?E5, ?E6; done.
Qed.

Lemma e1000_send_ok frame s (Q : unit -> link -> Prop) :
  link_inv s ->
  (forall s', out_step s s' -> sent s' = sent s ++ [frame] -> filter s' = filter s ->
              arp_pending_requests s' = arp_pending_requests s -> Q tt s') ->
  wp (e1000_send frame) Q s.
Proof.
  intros H HQ. apply wp_modify, HQ; [|done..]. apply out_step_tables; try done; [apply H|by eexists].
Qed.

Lemma lru_lt {A} (time : A -> Z) l : l <> [] -> (lru_index time l < length l)%nat.
Proof. intros Hl. unfold lru_index. pose proof (Firewall.oldest_range time l Hl). lia. Qed.

(** The request for an address: one frame, or none within five seconds of the
    last; afterwards the address is asked for. *)
Lemma send_arp_request_ok ticks a s (Q : unit -> link -> Prop) :
  link_inv s -> 0 <= ticks < 2 ^ 32 ->
  (forall s', out_step s s' -> requested s' ticks a -> filter s' = filter s ->
     (exists l, sent s' = sent s ++ l /\ (length l <= 1)%nat) -> Q tt s') ->
  wp (send_arp_request ticks a) Q s.
Proof.
  intros H Ht HQ. pose proof (li_pending s H) as Hp. unfold send_arp_request. apply wp_bind, wp_gets.
  assert (forall reqs i new, length reqs = ARP_MAX_PENDING_REQUESTS -> (i < length reqs)%nat ->
    new = mk_pending a ticks true -> forall s1, out_step s s1 -> filter s1 = filter s -> sent s1 = sent s ->
    arp_pending_requests s1 = <[i := new]> reqs ->
    wp (send_arp_packet a) Q s1) as Hsend.
  { intros reqs i new Hl Hi -> s1 H1 Ef Es Ep. unfold send_arp_packet. apply wp_bind, wp_gets, wp_bind, wp_gets.
    apply e1000_send_ok; [apply H1|]. intros s2 H2 Es2 Ef2 Ep2. apply HQ.
    - by eapply out_step_trans.
    - exists (mk_pending a ticks true). rewrite Ep2, Ep. split_and!; try done.
      + apply list_elem_of_lookup_2 with i. by apply list_lookup_insert_eq.
      + simpl. rewrite Z.sub_diag. done.
    - congruence.
    - rewrite Es2, Es. by eexists. }
  destruct (index_of _ (arp_pending_requests s)) as [i|] eqn:Ei.
  - pose proof (index_of_lt _ _ _ Ei) as Hi. apply index_of_Some in Ei as (q & Hq & Hqa).
    apply andb_true_iff in Hqa as [Hpq Hip]. apply same_eq in Hip.
    apply wp_bind. eapply wp_lift; [apply aget_ok; [lia|]; rewrite Nat2Z.id; exact Hq|].
    destruct (Z.ltb_spec (ticks -32 last_request_time q) ARP_REQUEST_INTERVAL_TICKS) as [Hlt|Hge].
    + apply wp_ret, HQ; [by apply out_step_refl|exists q|done|exists []; rewrite app_nil_r; split; [done|simpl; lia]].
      split_and!; [by eapply list_elem_of_lookup_2|done..].
    + rewrite Hip. apply wp_bind, wp_modify. eapply (Hsend (arp_pending_requests s) i); try done.
      apply out_step_tables; try done; [simpl; by rewrite length_insert|exists []; by rewrite app_nil_r].
  - apply wp_bind, wp_modify. unfold track_request. set (reqs := map (expire ticks) (arp_pending_requests s)).
    assert (length reqs = ARP_MAX_PENDING_REQUESTS) as Hl by (unfold reqs; by rewrite length_map).
    clearbody reqs.
    destruct (index_of (fun q => negb (pending q)) reqs) as [i|] eqn:Ef.
    + eapply (Hsend reqs i); try done; [by eapply index_of_lt|].
      apply out_step_tables; try done; [simpl; by rewrite length_insert|exists []; by rewrite app_nil_r].
    + eapply (Hsend reqs (lru_index last_request_time reqs)); try done; [apply lru_lt; by destruct reqs|].
      apply out_step_tables; try done; [simpl; by rewrite length_insert|exists []; by rewrite app_nil_r].
Qed.

(** * Looking up *)

(** A mapping used in the last sixty seconds. *)
Definition live (s : link) (ticks : Z) (a m : list Z) : Prop :=
  exists e, e ∈ arp_cache s /\ valid e = true /\ ticks -32 last_used e <= ARP_TIMEOUT_TICKS /\ ip e = a /\ mac e = m.

Definition evicted (ticks : Z) (e : arp_cache_entry) : arp_cache_entry :=
  if valid e && (ARP_TIMEOUT_TICKS <? ticks -32 last_used e) then invalidate e else e.

Lemma evicted_valid ticks e : valid (evicted ticks e) = true ->
  evicted ticks e = e /\ ticks -32 last_used e <= ARP_TIMEOUT_TICKS.
Proof.
  unfold evicted. destruct (valid e) eqn:Ev; simpl; [|congruence].
  destruct (Z.ltb_spec ARP_TIMEOUT_TICKS (ticks -32 last_used e)); [done|]. intros _. split; [done|lia].
Qed.

Lemma evict_ok ticks s (Q : unit -> link -> Prop) :
  link_inv s ->
  (forall s', out_step s s' -> sent s' = sent s -> filter s' = filter s ->
     arp_pending_requests s' = arp_pending_requests s ->
     (forall a m, maps s' a m <-> live s ticks a m) -> Q tt s') ->
  wp (arp_cache_evict_expired ticks) Q s.
Proof.
  intros H HQ. pose proof H as [Hmac Hip Hc Hmacs Hf Hp Hfw]. apply wp_modify.
  assert (forall a m, maps (put_cache (map (evicted ticks) (arp_cache s)) s) a m <-> live s ticks a m) as Hlive.
  { intros a m. split.
    - intros (e & He & Hv & <- & <-). simpl in He. apply list_elem_of_fmap in He as (x & -> & Hx).
      apply evicted_valid in Hv as Hx'. destruct Hx' as [E Ht]. rewrite E in *. by exists x.
    - intros (e & He & Hv & Ht & <- & <-). exists e. split_and!; try done. simpl. apply list_elem_of_fmap.
      exists e. split; [|done]. unfold evicted. rewrite Hv. by destruct (Z.ltb_spec ARP_TIMEOUT_TICKS (ticks -32 last_used e)); [lia|]. }
  apply HQ; [|done..|exact Hlive]. constructor; [|by constructor| |exists []; by rewrite app_nil_r|exact (filter_refl s H)].
  - constructor; simpl; try done.
    + by rewrite length_map.
    + apply Forall_fmap. eapply Forall_impl; [exact Hmacs|]. intros e [He1 He2]. simpl. change (addr 6 (mac (evicted ticks e))).
      unfold evicted. destruct (valid e && _); [|done]. split; [repeat constructor|]; done.
    + intros i j e e' Hi Hj Hv Hv' E. rewrite list_lookup_fmap in Hi, Hj.
      destruct (arp_cache s !! i) as [x|] eqn:Ex; [|done]. destruct (arp_cache s !! j) as [y|] eqn:Ey; [|done].
      simpl in Hi, Hj. injection Hi as <-. injection Hj as <-.
      destruct (evicted_valid ticks x Hv) as [Exx _]. destruct (evicted_valid ticks y Hv') as [Eyy _].
      change (valid (evicted ticks x) = true) in Hv. change (valid (evicted ticks y) = true) in Hv'.
      change (ip (evicted ticks x) = ip (evicted ticks y)) in E. rewrite Exx, Eyy in *. by eapply Hf.
  - intros a m Hm. apply Hlive in Hm as (e & ? & ? & _ & ? & ?). by exists e.
Qed.

(** An entry that exists, as the scan finds it. *)
Lemma find_entry a (s : link) :
  match index_of (entry_for a) (arp_cache s) with
  | Some i => exists e, arp_cache s !! i = Some e /\ valid e = true /\ ip e = a /\ maps s a (mac e)
  | None => forall m, ~ maps s a m
  end.
Proof.
  destruct (index_of (entry_for a) (arp_cache s)) as [i|] eqn:Ei.
  - apply index_of_Some in Ei as (e & He & Hfor). unfold entry_for in Hfor. apply andb_true_iff in Hfor as [Hv Hip].
    apply same_eq in Hip. exists e. split_and!; try done. exists e. split_and!; try done. by eapply list_elem_of_lookup_2.
  - intros m (e & He & Hv & Hip & _). pose proof (index_of_None _ _ _ Ei He) as E. unfold entry_for in E.
    rewrite Hv in E. simpl in E. apply same_eq in Hip. congruence.
Qed.

Lemma maps_addr s a m : link_inv s -> maps s a m -> addr 6 m.
Proof. intros [] (e & He & _ & _ & <-). rewrite Forall_forall in li_macs0. by apply li_macs0. Qed.

(** What a lookup finds: the address itself, else the gateway. *)
Definition looked_up (s : link) (ticks : Z) (a : list Z) (r : option (list Z)) : Prop :=
  match r with
  | Some m => live s ticks a m \/ (forall m', ~ live s ticks a m') /\ a <> gateway_ip s /\ live s ticks (gateway_ip s) m
  | None => (forall m, ~ live s ticks a m) /\ (forall m, ~ live s ticks (gateway_ip s) m)
  end.

Lemma arp_lookup_ok ticks a s (Q : option (list Z) -> link -> Prop) :
  link_inv s ->
  (forall r s', out_step s s' -> sent s' = sent s -> filter s' = filter s ->
     looked_up s ticks a r -> (forall m, r = Some m -> addr 6 m) -> Q r s') ->
  wp (arp_lookup ticks a) Q s.
Proof.
  intros H HQ. unfold arp_lookup. apply wp_bind, evict_ok; [done|]. intros s1 H1 Es Ef Ep Hl.
  assert (forall m, maps s1 a m -> addr 6 m) as Hadr by (intros m; apply maps_addr, H1).
  apply wp_bind, wp_gets. pose proof (find_entry a s1) as Hfind. destruct (index_of (entry_for a) (arp_cache s1)) as [i|].
  - destruct Hfind as (e & He & Hv & Hip & Hme). pose proof (lookup_lt_Some _ _ _ He) as Hlt.
    apply wp_bind. eapply wp_lift; [apply aget_ok; [lia|]; rewrite Nat2Z.id; exact He|].
    apply wp_bind, wp_modify, wp_ret. pose proof (os_inv _ _ H1) as [? ? ? Hmacs Hf ? ?]. apply HQ; [|done..| |].
    + eapply out_step_trans; [exact H1|]. constructor; [|by constructor| |exists []; by rewrite app_nil_r|exact (filter_refl s1 (os_inv _ _ H1))].
      * constructor; simpl; try done.
        -- by rewrite length_insert.
        -- apply Forall_insert; [done|]. simpl. by eapply (Forall_lookup_1 _ _ _ _ Hmacs).
        -- apply functional_insert; [done|]. intros j x Hj Hx Hvx Hipx. apply Hj. by eapply Hf.
      * intros b m (x & Hx & Hvx & <- & <-). simpl in Hx. apply elem_of_insert in Hx as [->|Hx]; [by rewrite Hip|by exists x].
    + left. by apply Hl.
    + intros m [= <-]. by apply Hadr.
  - apply wp_bind, wp_gets. assert (gateway_ip s1 = gateway_ip s) as -> by apply (os_config _ _ H1).
    assert (forall m, ~ live s ticks a m) as Hno by (intros m Hm; by apply (Hfind m), Hl).
    destruct (same a (gateway_ip s)) eqn:Eg.
    + apply same_eq in Eg as Eg'. apply wp_ret, HQ; try done. split; [done|]. by rewrite <- Eg'.
    + assert (a <> gateway_ip s) as Hne by (intros E; apply same_eq in E; congruence).
      pose proof (find_entry (gateway_ip s) s1) as Hgw.
      destruct (index_of (entry_for (gateway_ip s)) (arp_cache s1)) as [i|].
      * destruct Hgw as (e & He & _ & _ & Hme). apply wp_bind.
        eapply wp_lift; [apply aget_ok; [lia|]; rewrite Nat2Z.id; exact He|]. apply wp_ret, HQ; try done.
        -- right. split_and!; [done..|]. by apply Hl.
        -- intros m [= <-]. by apply (maps_addr s1 (gateway_ip s)); [apply H1|].
      * apply wp_ret, HQ; try done. split; [done|]. intros m Hm. by apply (Hgw m), Hl.
Qed.

(** The next hop: the host itself on the own network, else the gateway. *)
Definition next_hop (s : link) (dest : list Z) : list Z :=
  if same_net (subnet_mask s) (my_ip s) dest then dest else gateway_ip s.

Lemma live_out s s' ticks a m : arp_cache s' = arp_cache s -> live s' ticks a m <-> live s ticks a m.
Proof. intros E. unfold live. by rewrite E. Qed.

(** Asking for an address does not touch the cache. *)
Lemma send_arp_request_cache ticks a s s' : send_arp_request ticks a s = Ok (tt, s') -> arp_cache s' = arp_cache s.
Proof.
  unfold send_arp_request, bind, gets, lift, ret, modify, send_arp_packet, e1000_send, track_request.
  destruct (index_of _ _) as [i|].
  - destruct (aget _ _) as [q|]; [|done]. destruct (_ <? _); intros [= <-]; done.
  - destruct (index_of _ _); intros [= <-]; done.
Qed.

Lemma request_cache_ok ticks a s (Q : unit -> link -> Prop) :
  link_inv s -> 0 <= ticks < 2 ^ 32 ->
  (forall s', out_step s s' -> requested s' ticks a -> filter s' = filter s -> arp_cache s' = arp_cache s -> Q tt s') ->
  wp (send_arp_request ticks a) Q s.
Proof.
  intros H Ht HQ.
  assert (wp (send_arp_request ticks a) (fun _ s' => out_step s s' /\ requested s' ticks a /\ filter s' = filter s) s)
    as (s' & E & H1 & H2 & H3)%wp_elim_unit by (apply send_arp_request_ok; [done..|]; by intros).
  eapply wp_ok; [exact E|]. apply HQ; try done. by eapply send_arp_request_cache.
Qed.

Lemma get_route_mac_ok ticks dest s (Q : option (list Z) -> link -> Prop) :
  link_inv s -> 0 <= ticks < 2 ^ 32 ->
  (forall r s', out_step s s' -> filter s' = filter s -> looked_up s ticks (next_hop s dest) r ->
     (forall m, r = Some m -> addr 6 m) -> (r = None -> requested s' ticks (next_hop s dest)) -> Q r s') ->
  wp (get_route_mac ticks dest) Q s.
Proof.
  intros H Ht HQ. unfold get_route_mac, next_hop in *. apply wp_bind, wp_gets.
  assert (forall hop s1, out_step s s1 -> filter s1 = filter s -> arp_cache s1 = arp_cache s ->
    (if same_net (subnet_mask s) (my_ip s) dest then dest else gateway_ip s) = hop ->
    wp (r <- arp_lookup ticks hop ;; match r with
        | Some m => ret (Some m) | None => send_arp_request ticks hop ;;; ret None end) Q s1) as Htail.
  { intros hop s1 H1 Ef1 Ec Eh. rewrite Eh in HQ. apply wp_bind, arp_lookup_ok; [apply H1|].
    intros r s2 H2 Es Ef2 Hr Hadr.
    assert (looked_up s ticks hop r) as Hr'.
    { assert (gateway_ip s1 = gateway_ip s) as Eg by apply (os_config _ _ H1). unfold looked_up in *. rewrite Eg in Hr.
      assert (forall b m, live s1 ticks b m <-> live s ticks b m) as El by (intros; by apply live_out).
      destruct r; setoid_rewrite <- El; exact Hr. }
    assert (out_step s s2) as H12 by by eapply out_step_trans.
    destruct r as [m|].
    - apply wp_ret, HQ; try done. congruence.
    - apply wp_bind, request_cache_ok; [apply H2|done|]. intros s3 H3 Has Ef3 _. apply wp_ret, HQ; try done.
      + by eapply out_step_trans.
      + congruence. }
  destruct (same_net (subnet_mask s) (my_ip s) dest) eqn:El.
  - apply wp_bind, wp_gets, wp_bind. destruct (_ && _).
    + apply request_cache_ok; [done..|]. intros s1 H1 _ Ef Ec. by apply Htail.
    + apply wp_ret. apply Htail; [by apply out_step_refl|done..].
  - apply wp_bind, wp_gets. apply Htail; [by apply out_step_refl|done..].
Qed.

(** * Received ARP packets *)

Lemma field_length p off n : (off + n <= length p)%nat -> length (field p off n) = n.
Proof. intros H. unfold field. rewrite length_take, length_drop. lia. Qed.
Lemma field_bytes p off n : bytes p -> bytes (field p off n).
Proof. intros H. by apply Forall_take, Forall_drop. Qed.

Lemma arp_count_ok r s (Q : unit -> link -> Prop) :
  (forall s', s' = s \/ (exists d l u c e, s' = put_counters d l u c e s) -> Q tt s') -> wp (arp_count_update r) Q s.
Proof. intros HQ. apply wp_modify, HQ. destruct r; [by left|by left|right..]; by repeat eexists. Qed.

Lemma out_step_counters s d l u c e : link_inv s -> out_step s (put_counters d l u c e s).
Proof. intros H. apply out_step_tables; try done; [apply H|exists []; by rewrite app_nil_r]. Qed.

(** A received ARP packet adds no mapping that was not asked for, sends at most
    one frame and does not concern the filter. *)
Lemma handle_arp_ok ticks arp eth_src s (Q : unit -> link -> Prop) :
  link_inv s -> bytes arp -> (28 <= length arp)%nat ->
  (forall s', link_inv s' -> arp_safe ticks s s' -> filter s' = filter s ->
     (forall t b, asked s' t b -> asked s t b) ->
     (exists l, sent s' = sent s ++ l /\ (length l <= 1)%nat) -> Q tt s') ->
  wp (handle_arp ticks arp eth_src) Q s.
Proof.
  intros H Hb Hl HQ. unfold handle_arp.
  assert (Q tt s) as Hnop by (apply HQ; [done|by apply arp_safe_cache|done..|exists []; rewrite app_nil_r; split; [done|simpl; lia]]).
  apply wp_bind, net16_ok; [done|lia..|]. destruct (negb _); [by apply wp_ret|].
  apply wp_bind, net16_ok; [done|lia..|]. destruct (negb _); [by apply wp_ret|].
  apply wp_bind, load8_ok; [lia|]. apply wp_bind, load8_ok; [lia|]. destruct (_ || _); [by apply wp_ret|].
  apply wp_bind, net16_ok; [done|lia..|]. destruct (_ && _); [by apply wp_ret|].
  apply wp_bind, wp_gets. destruct (_ || _); [by apply wp_ret|].
  assert (addr 6 (field arp 8 6)) as Hm by (split; [by apply field_bytes|apply field_length; lia]).
  assert (forall s1 s2, arp_step ticks s s1 -> s2 = s1 \/ (exists d l u c e, s2 = put_counters d l u c e s1) ->
    out_step s1 s2 /\ sent s2 = sent s /\ filter s2 = filter s /\ (forall t b, asked s2 t b -> asked s t b)) as Hcount.
  { intros s1 s2 [I A Es Ef Ha] [->|(d & l & u & c & e & ->)].
    - split_and!; [by apply out_step_refl|done..].
    - split_and!; [by apply out_step_counters|done..]. }
  destruct (_ =? ARP_OP_REQUEST).
  - apply wp_bind, wp_gets. destruct (is_zero (my_ip s)); [by apply wp_ret|].
    apply wp_bind, update_status_ok; [done..|]. intros r s1 H1 _. apply wp_bind, arp_count_ok. intros s2 H2.
    destruct (Hcount s1 s2 H1 H2) as (O12 & Es & Ef & Ha). assert (arp_safe ticks s s2) as Hs2.
    { eapply arp_safe_out; [apply H1|done]. }
    destruct (same (field arp 24 4) (my_ip s)).
    + apply wp_bind, wp_gets, e1000_send_ok; [apply O12|]. intros s3 H3 Es3 Ef3 Ep3. apply HQ.
      * apply H3.
      * by eapply arp_safe_out.
      * congruence.
      * intros t b. unfold asked. rewrite Ep3. apply Ha.
      * rewrite Es3, Es. by eexists.
    + apply wp_ret, HQ; [apply O12|done..|]. exists []. rewrite app_nil_r. split; [done|simpl; lia].
  - apply wp_bind, update_status_ok; [done..|]. intros r s1 H1 _. apply arp_count_ok. intros s2 H2.
    destruct (Hcount s1 s2 H1 H2) as (O12 & Es & Ef & Ha). apply HQ; [apply O12| |done..|].
    + eapply arp_safe_out; [apply H1|done].
    + exists []. rewrite app_nil_r. split; [done|simpl; lia].
Qed.

(** * IP packets *)

(** A header of 20 bytes whose checksum verifies. *)
Definition ip_header_of (total id protocol : Z) (src dst h : list Z) : Prop :=
  exists c0 c1, h = [0x45; 0; total / 256; total mod 256; id / 256; id mod 256; 0; 0; 64; protocol; c0; c1] ++ src ++ dst /\
    bytes h /\ checksum h = 0.

(** A transport header and payload whose checksum, the field behind [head],
    verifies with the pseudo header. *)
Definition segment_of (src dst : list Z) (protocol : Z) (head tail seg : list Z) : Prop :=
  exists c0 c1, seg = head ++ [c0; c1] ++ tail /\ bytes seg /\
    checksum (pseudo src dst protocol (length seg) ++ seg) = 0.

Lemma div256 v : 0 <= v < 65536 -> byte (v / 256) /\ byte (v mod 256).
Proof. intros H. split; Z.to_euclidean_division_equations; lia. Qed.

Lemma net_bytes16_bytes v : 0 <= v < 65536 -> bytes (net_bytes16 v).
Proof. intros H. rewrite net_bytes16_eq by done. destruct (div256 v H). repeat constructor; lia. Qed.
Lemma net_bytes32_bytes v : 0 <= v < 4294967296 -> bytes (net_bytes32 v).
Proof. intros H. rewrite net_bytes32_eq by done. repeat constructor; Z.to_euclidean_division_equations; lia. Qed.

Lemma checksum_range bs : 0 <= checksum bs < 65536.
Proof. unfold checksum. pose proof (ones_range (total bs)). lia. Qed.

Lemma ip_header_ok total id protocol src dst :
  0 <= total < 65536 -> 0 <= id < 65536 -> byte protocol -> addr 4 src -> addr 4 dst ->
  exists h, ip_header total id protocol src dst = Ok h /\ ip_header_of total id protocol src dst h.
Proof.
  intros Ht Hi Hp [Hs Ls] [Hd Ld]. destruct (div256 _ Ht), (div256 _ Hi). unfold ip_header.
  rewrite !net_bytes16_eq by done. set (pre := [0x45; 0; total / 256; total mod 256; id / 256; id mod 256; 0; 0; 64; protocol]).
  assert (bytes pre) as Hpre by (repeat constructor; lia).
  assert (bytes (src ++ dst)) as Hpost by by apply Forall_app.
  change ([0x45; 0] ++ [total / 256; total mod 256] ++ [id / 256; id mod 256] ++ [0; 0; 64; protocol] ++ [0; 0] ++ src ++ dst)
    with (pre ++ [0; 0] ++ src ++ dst).
  rewrite calculate_checksum_ok.
  - set (c := checksum (pre ++ [0; 0] ++ src ++ dst)). pose proof (checksum_range (pre ++ [0; 0] ++ src ++ dst)) as Hc.
    fold c in Hc. rewrite net_bytes16_eq by done. eexists. split; [done|]. exists (c / 256), (c mod 256).
    split; [done|]. destruct (div256 _ Hc). split.
    + change (bytes (pre ++ [c / 256; c mod 256] ++ src ++ dst)). apply Forall_app. split; [done|].
      apply Forall_app. split; [repeat constructor; lia|done].
    + by apply (checksum_verifies pre (src ++ dst)).
  - apply Forall_app. split; [done|]. apply Forall_app. split; [repeat constructor; lia|done].
  - rewrite !length_app, Ls, Ld. simpl. lia.
Qed.

(** A field of all ones is another writing of 0. *)
Lemma checksum_ffff pre post : bytes pre -> bytes post -> Nat.even (length pre) = true ->
  checksum (pre ++ [0; 0] ++ post) = 0 -> checksum (pre ++ [255; 255] ++ post) = 0.
Proof.
  intros H1 H2 He. unfold checksum. rewrite !total_app by done. simpl total.
  pose proof (total_range _ H1). pose proof (total_range _ H2). unfold ones.
  set (t := total pre + (256 * 0 + 0 + 0 + total post)).
  replace (total pre + (256 * 255 + 255 + 0 + total post)) with (t + 65535) by (unfold t; lia).
  assert (0 <= t) as Ht by (unfold t; lia). clearbody t.
  destruct (Z.eqb_spec t 0), (Z.eqb_spec (t + 65535) 0); try lia.
  replace (t + 65535 - 1) with (t - 1 + 1 * 65535) by lia. rewrite Z.mod_add by lia. done.
Qed.

Lemma l4_segment_ok src dst protocol head tail zero_as :
  addr 4 src -> addr 4 dst -> byte protocol -> bytes head -> bytes tail -> Nat.even (length head) = true ->
  Z.of_nat (length head + 2 + length tail) < 65536 -> (zero_as = 0 \/ zero_as = 65535) ->
  exists seg, l4_segment src dst protocol head tail zero_as = Ok seg /\ segment_of src dst protocol head tail seg.
Proof.
  intros [Hs Ls] [Hd Ld] Hp Hh Ht He Hl Hz. unfold l4_segment.
  assert (forall c0 c1, byte c0 -> byte c1 -> bytes (head ++ [c0; c1] ++ tail)) as Hbs.
  { intros. apply Forall_app. split; [done|]. apply Forall_app. split; [repeat constructor; lia|done]. }
  assert (forall c0 c1, length (head ++ [c0; c1] ++ tail) = (length head + 2 + length tail)%nat) as Hlen
    by (intros; rewrite !length_app; simpl; lia).
  rewrite calculate_l4_checksum_ok; [|done..|by apply Hbs|rewrite Hlen; lia]. rewrite Hlen.
  set (n := (length head + 2 + length tail)%nat) in *. set (ps := pseudo src dst protocol n).
  assert (bytes ps /\ Nat.even (length ps) = true) as [Hps Heps].
  { unfold ps, pseudo. split.
    - apply Forall_app. split; [done|]. apply Forall_app. split; [done|].
      destruct (div256 (Z.of_nat n)); [lia|]. repeat constructor; lia.
    - by rewrite !length_app, Ls, Ld. }
  assert (bytes (ps ++ head) /\ Nat.even (length (ps ++ head)) = true) as [Hph Heph].
  { split; [by apply Forall_app|]. rewrite length_app, Nat.even_add, Heps, He. done. }
  rewrite (app_assoc ps head). set (c := checksum ((ps ++ head) ++ [0; 0] ++ tail)).
  pose proof (checksum_range ((ps ++ head) ++ [0; 0] ++ tail)) as Hc. fold c in Hc.
  set (w := if htons c =? 0 then zero_as else c).
  assert (0 <= w < 65536) as Hw by (unfold w; destruct (htons c =? 0), Hz; lia).
  rewrite net_bytes16_eq by done. eexists. split; [done|]. exists (w / 256), (w mod 256).
  destruct (div256 w Hw) as [B0 B1]. split_and!; [done|by apply Hbs|]. rewrite Hlen. fold n ps. rewrite app_assoc.
  assert (checksum ((ps ++ head) ++ [c / 256; c mod 256] ++ tail) = 0) as Hv by by apply checksum_verifies.
  unfold w. destruct (Z.eqb_spec (htons c) 0) as [E|]; [|done].
  assert (c = 0) as Ec.
  { pose proof (net_bytes16_eq c Hc) as En. unfold net_bytes16 in En. rewrite E in En. injection En as E1 E2.
    simpl in E1, E2. Z.to_euclidean_division_equations; lia. }
  rewrite Ec in Hv. destruct Hz as [-> | ->]; [done|]. by apply checksum_ffff.
Qed.

Lemma on_filter_ok {A} (m : M Firewall.fw A) s (Q : A -> link -> Prop) :
  wp m (fun a f => Q a (put_filter f s)) (filter s) -> wp (on_filter m) Q s.
Proof. apply wp_zoom. Qed.

Lemma lower_ok {St A} (m : M link A) (s : link * St) (Q : A -> link * St -> Prop) :
  wp m (fun a l => Q a (l, snd s)) (fst s) -> wp (lower m) Q s.
Proof. exact (wp_zoom fst (fun l s => (l, snd s)) m Q s). Qed.

(** An IP packet in an Ethernet frame. *)
Definition ip_frame (dest_mac src_mac src dst : list Z) (protocol id : Z) (head tail frame : list Z) : Prop :=
  exists h seg, frame = eth_frame dest_mac src_mac ETH_TYPE_IPV4 (h ++ seg) /\
    ip_header_of (20 + Z.of_nat (length seg)) id protocol src dst h /\ segment_of src dst protocol head tail seg.

(** The filter holds the flow as established. *)
Definition tracked (f : Firewall.fw) (src dst sp dp protocol : Z) : Prop :=
  exists c, List.find (Firewall.conn_is src dst sp dp protocol) (Firewall.connections f) = Some c /\
    Firewall.c_state c = Firewall.CONN_STATE_ESTABLISHED.

(** Recording the flow and sending, the end of every sender. *)
Lemma track_send_ok ticks sw dw sp dp protocol frame s (Q : unit -> link -> Prop) :
  link_inv s -> protocol = IPPROTO_TCP \/ protocol = IPPROTO_UDP ->
  (forall s', out_step s s' -> sent s' = sent s ++ [frame] -> tracked (filter s') sw dw sp dp protocol -> Q tt s') ->
  wp (on_filter (Firewall.firewall_track_outgoing ticks sw dw sp dp protocol) ;;; e1000_send frame) Q s.
Proof.
  intros H Hp HQ. apply wp_bind, on_filter_ok. eapply wp_mono; [apply Firewall.track_outgoing_ok; [apply H|done]|].
  intros [] f [Hf Hc]. assert (out_step s (put_filter f s)) as H1.
  { destruct H. constructor; [constructor; try done; apply Hf|by constructor|done|exists []; by rewrite app_nil_r|done]. }
  apply e1000_send_ok; [apply H1|]. intros s' H2 Es Ef _. apply HQ; [by eapply out_step_trans|done|].
  unfold tracked. by rewrite Ef.
Qed.

Lemma send_udp_packet_ok ticks dst dmac sp dp data s (Q : unit -> link -> Prop) :
  link_inv s -> addr 4 dst -> 0 <= sp < 65536 -> 0 <= dp < 65536 -> bytes data -> Z.of_nat (length data) <= 65507 ->
  (forall s' frame, out_step s s' -> sent s' = sent s ++ [frame] ->
     ip_frame dmac (my_mac s) (my_ip s) dst IPPROTO_UDP 0x2000
       (net_bytes16 sp ++ net_bytes16 dp ++ net_bytes16 (8 + Z.of_nat (length data))) data frame ->
     tracked (filter s') (ip_word (my_ip s)) (ip_word dst) sp dp IPPROTO_UDP -> Q tt s') ->
  wp (send_udp_packet ticks dst dmac sp dp data) Q s.
Proof.
  intros H Hd Hsp Hdp Hb Hl HQ. pose proof (li_ip s H) as Hi. unfold send_udp_packet.
  apply wp_bind, wp_gets, wp_bind, wp_gets. set (head := net_bytes16 sp ++ _).
  assert (bytes head /\ length head = 6%nat) as [Hh Lh].
  { split; [|done]. repeat (apply Forall_app; split); apply net_bytes16_bytes; lia. }
  destruct (l4_segment_ok (my_ip s) dst IPPROTO_UDP head data 0xFFFF) as (seg & E1 & Hseg);
    [done..|by rewrite Lh|rewrite Lh; lia|by right|].
  destruct (ip_header_ok (20 + (8 + Z.of_nat (length data))) 0x2000 IPPROTO_UDP (my_ip s) dst) as (h & E2 & Hh2);
    [lia|done..|].
  apply wp_bind. eapply wp_lift; [exact E1|]. apply wp_bind. eapply wp_lift; [exact E2|].
  apply track_send_ok; [done|by right|]. intros s' H' Es Ht. eapply HQ; [done|exact Es| |done].
  exists h, seg. split_and!; [done| |done]. destruct Hseg as (c0 & c1 & -> & _ & _).
  rewrite !length_app, Lh. simpl length. by replace (Z.of_nat (6 + (2 + length data))) with (8 + Z.of_nat (length data)) by lia.
Qed.

End Link.
