(* ===== verification/LinkProps.v ===== *)
(** Theorems about the lower half of the network stack: no packet puts an
    address into the ARP cache that was not asked for, and a route that was
    missing is found after the answer. *)
From Stdlib Require Import ZArith Lia List Bool.
From stdpp Require Import base tactics numbers list.
From S2P Require Import Prelude NetHdr Checksum Firewall FirewallProps Link.
Open Scope Z_scope.

Module LinkProps.
Import NetHdr Link.

(** ** A state for examples *)

Definition host : list Z := [10; 0; 2; 15].
Definition server : list Z := [10; 0; 2; 2].
Definition server_mac : list Z := [82; 85; 10; 0; 2; 2].
Definition no_entry : arp_cache_entry := mk_entry (replicate 4 0) (replicate 6 0) 0 false.
Definition no_request : arp_pending_request := mk_pending (replicate 4 0) 0 false.
Definition link0 : link :=
  mk_link [82; 84; 0; 18; 52; 86] host [255; 255; 255; 0] server
    (mk_entry server server_mac 0 true :: replicate 15 no_entry) (replicate 16 no_request) 0 0 0 0 0 FirewallProps.fw0 [].
Lemma server_addr : addr 4 server.
Proof. split; [repeat constructor; lia|done]. Qed.

Lemma link0_inv : link_inv link0.
Proof.
  constructor; try done.
  - split; [repeat constructor; lia|done].
  - split; [repeat constructor; lia|done].
  - constructor; [split; [repeat constructor; lia|done]|]. apply Forall_replicate. apply zeros_addr.
  - intros i j e e' Hi Hj Vi Vj _. unfold link0 in *. cbn [arp_cache] in *.
    assert (forall k x, (mk_entry server server_mac 0 true :: replicate 15 no_entry) !! k = Some x -> valid x = true -> k = 0%nat) as Hv.
    { intros [|k] x Hx Vx; [done|]. cbn [lookup] in Hx. apply lookup_replicate in Hx as [-> _]. done. }
    by rewrite (Hv i e), (Hv j e').
  - apply FirewallProps.fw0_inv.
Qed.

(** ** Unsolicited answers *)

(** Received ARP packets, each with its time and the sender of its frame. *)
Fixpoint arp_packets (l : list (Z * (list Z * list Z))) : M link unit :=
  match l with
  | [] => ret tt
  | (ticks, (arp, eth_src)) :: l' => handle_arp ticks arp eth_src ;;; arp_packets l'
  end.

Lemma arp_packets_ok l s (Q : unit -> link -> Prop) :
  link_inv s -> Forall (fun x => bytes (fst (snd x)) /\ (28 <= length (fst (snd x)))%nat) l ->
  (forall s', link_inv s' -> same_config s s' ->
     (forall a m, maps s' a m -> maps s a m \/ exists t, t ∈ map fst l /\ asked s t a) ->
     (forall t a, asked s' t a -> asked s t a) ->
     (exists f, sent s' = sent s ++ f /\ (length f <= length l)%nat) -> Q tt s') ->
  wp (arp_packets l) Q s.
Proof.
  revert s Q. induction l as [|[t [arp eth]] l IH]; intros s Q H Hl HQ; cbn [arp_packets].
  { apply wp_ret, HQ; [done|apply same_config_refl|by auto|done|]. exists []. by rewrite app_nil_r. }
  apply Forall_cons in Hl as [[Hb Hlen] Hl]. apply wp_bind, handle_arp_ok; [done..|].
  intros s1 I1 [M1 C1] _ A1 (f1 & E1 & L1). apply IH; [done..|]. intros s2 I2 C2 M2 A2 (f2 & E2 & L2).
  apply HQ; [done|by eapply same_config_trans| |by auto|].
  - intros a m Hm. apply M2 in Hm as [Hm|(t' & Ht' & Ha)].
    + apply M1 in Hm as [Hm|Ha]; [by left|right]. exists t. split; [by left|done].
    + right. exists t'. split; [by right|by apply A1].
  - exists (f1 ++ f2). rewrite E2, E1, app_assoc, length_app. split; [done|]. simpl. lia.
Qed.

(** C11. No ARP poisoning: whatever ARP packets arrive, requests or replies with
    any contents, they are handled without a fault and keep the invariant (one
    entry per address among it) and the addresses of the host; every mapping
    in the cache afterwards was there before or is for an address a request of
    this host was waiting for, so that neither an unsolicited answer nor a
    request can redirect an address; and each is answered by at most one frame. *)
Theorem arp_no_poisoning l s :
  link_inv s -> Forall (fun x => bytes (fst (snd x)) /\ (28 <= length (fst (snd x)))%nat) l ->
  exists s', arp_packets l s = Ok (tt, s') /\ link_inv s' /\ same_config s s' /\
    (forall a m, maps s' a m -> maps s a m \/ exists t, t ∈ map fst l /\ asked s t a) /\
    (exists f, sent s' = sent s ++ f /\ (length f <= length l)%nat).
Proof. intros H Hl. apply wp_exists, arp_packets_ok; [done..|]. intros s' I C M _ F. by split_and!. Qed.

(** Two answers for the gateway, of another station. *)
Definition forged (m : list Z) : list Z := arp_packet ARP_OP_REPLY m server broadcast_mac host.

Lemma arp_no_poisoning_witness :
  exists s', arp_packets [(5, (forged [2; 0; 0; 0; 0; 1], broadcast_mac)); (7, (forged [2; 0; 0; 0; 0; 2], broadcast_mac))] link0
    = Ok (tt, s') /\ link_inv s'.
Proof.
  destruct (arp_no_poisoning [(5, (forged [2; 0; 0; 0; 0; 1], broadcast_mac)); (7, (forged [2; 0; 0; 0; 0; 2], broadcast_mac))]
    link0 link0_inv) as (s' & E & I & _).
  - repeat (apply List.Forall_cons || apply List.Forall_nil); vm_compute; repeat split; try (repeat constructor; congruence); lia.
  - exists s'. split; [exact E|exact I].
Defined.

(** ** Routes *)

(** A reply that names [m] for [a]. *)
Definition is_reply (arp a m : list Z) : Prop :=
  bytes arp /\ (28 <= length arp)%nat /\ be16 arp 0 = ARP_HTYPE_ETHERNET /\ be16 arp 2 = ARP_PTYPE_IPV4 /\
  at8 arp 4 = 6 /\ at8 arp 5 = 4 /\ be16 arp 6 = ARP_OP_REPLY /\ field arp 8 6 = m /\ field arp 14 4 = a.

Lemma credible_config a m s s' : same_config s s' -> credible a m s' = credible a m s.
Proof.
  intros [E1 E2 E3 E4]. unfold credible, is_invalid_arp_sender_ip, is_valid_arp_ip, is_valid_arp_sender_mac, net_is_broadcast_ip.
  by rewrite E1, E2, E3, E4.
Qed.

Lemma reply_ok ticks arp eth a m s (Q : unit -> link -> Prop) :
  link_inv s -> is_reply arp a m -> credible a m s = true -> asked s ticks a ->
  (forall s', link_inv s' -> same_config s s' -> stored s' ticks a m -> Q tt s') ->
  wp (handle_arp ticks arp eth) Q s.
Proof.
  intros H (Hb & Hl & E0 & E2 & E4 & E5 & E6 & Em & Ea) Hc Hask HQ. unfold handle_arp.
  apply wp_bind, net16_ok; [done|lia..|]. rewrite E0. apply wp_bind, net16_ok; [done|lia..|]. rewrite E2.
  apply wp_bind, load8_ok; [lia|]. apply wp_bind, load8_ok; [lia|]. rewrite E4, E5.
  apply wp_bind, net16_ok; [done|lia..|]. rewrite E6, Em, Ea. cbn [negb orb andb Z.eqb Pos.eqb].
  apply wp_bind, wp_gets. pose proof Hc as Hc'. unfold credible in Hc'. apply negb_true_iff in Hc'.
  apply orb_false_iff in Hc' as [[[H1 H2]%orb_false_iff H3]%orb_false_iff _]. rewrite H1, H2, H3. cbn [orb].
  assert (addr 6 m) as Hm by (subst m; split; [by apply field_bytes|apply field_length; lia]).
  apply wp_bind, update_status_ok; [done..|]. intros r s1 Hst Hup. apply arp_count_ok. intros s2 Hs2.
  assert (stored s1 ticks a m) as Hs1.
  { destruct r; simpl in Hup; [destruct Hup; congruence|apply Hup..|destruct Hup; done|destruct Hup; done]. }
  destruct Hst as [I1 [_ C1] _ _ _]. destruct Hs2 as [->|(d & l & u & c & e & ->)]; apply HQ; try done.
  - by apply (os_inv s1), out_step_counters.
  - destruct C1. by constructor.
Qed.

Lemma stored_live s u t a m : stored s u a m -> t -32 u <= ARP_TIMEOUT_TICKS -> live s t a m.
Proof. intros (e & He & Hv & Ea & Em & Eu) Ht. exists e. split_and!; try done. by rewrite Eu. Qed.

Lemma live_functional s t a m m' : link_inv s -> live s t a m -> live s t a m' -> m = m'.
Proof.
  intros H (e & (i & Hi)%list_elem_of_lookup_1 & V & _ & E & Em) (e' & (j & Hj)%list_elem_of_lookup_1 & V' & _ & E' & Em').
  assert (i = j) as -> by (eapply (li_unique s H); [exact Hi|exact Hj|done..|congruence]). congruence.
Qed.

(** Routes are found: where neither the next hop of a destination (itself on
    the local network, else the gateway) nor the gateway is known, asking for the
    route gives none but sends for the next hop; when a believable reply of it
    arrives within five seconds, the destination is routed to the address it
    names for the next sixty seconds. *)
Theorem arp_resolves t0 t1 t2 dest arp eth m s :
  link_inv s -> 0 <= t0 < 2 ^ 32 -> 0 <= t2 < 2 ^ 32 ->
  (forall m', ~ live s t0 (next_hop s dest) m') -> (forall m', ~ live s t0 (gateway_ip s) m') ->
  is_reply arp (next_hop s dest) m -> credible (next_hop s dest) m s = true ->
  t1 -32 t0 <= 500 -> t2 -32 t1 <= 6000 ->
  exists s1 s2 s3, get_route_mac t0 dest s = Ok (None, s1) /\ handle_arp t1 arp eth s1 = Ok (tt, s2) /\
    get_route_mac t2 dest s2 = Ok (Some m, s3) /\ link_inv s3.
Proof.
  intros H Ht0 Ht2 Hhop Hgw Hr Hc H01 H12.
  assert (wp (get_route_mac t0 dest) (fun r s1 => r = None /\ link_inv s1 /\ same_config s s1 /\ requested s1 t0 (next_hop s dest)) s)
    as (r & s1 & E1 & -> & I1 & C1 & R1)%wp_elim.
  { apply get_route_mac_ok; [done..|]. intros [m'|] s1 O _ Hl _ Ha; [|split_and!; [done|apply O..|by apply Ha]].
    exfalso. destruct Hl as [Hl|(_ & _ & Hl)]; [by eapply Hhop|by eapply Hgw]. }
  assert (wp (handle_arp t1 arp eth) (fun _ s2 => link_inv s2 /\ same_config s1 s2 /\ stored s2 t1 (next_hop s dest) m) s1)
    as (s2 & E2 & I2 & C2 & S2)%wp_elim_unit.
  { eapply reply_ok; [done|exact Hr|by rewrite (credible_config _ _ s)|by eapply requested_asked|]. by intros. }
  assert (next_hop s2 dest = next_hop s dest) as En.
  { destruct (same_config_trans _ _ _ C1 C2) as [_ Ei Em Eg]. unfold next_hop. by rewrite Ei, Em, Eg. }
  assert (live s2 t2 (next_hop s2 dest) m) as Hlive by (rewrite En; by eapply stored_live).
  assert (wp (get_route_mac t2 dest) (fun r s3 => r = Some m /\ link_inv s3) s2) as (r & s3 & E3 & -> & I3)%wp_elim.
  { apply get_route_mac_ok; [done..|]. intros [m'|] s3 O _ Hl _ _; (split; [|apply O]).
    - f_equal. destruct Hl as [Hl|(Hno & _)]; [by eapply live_functional|by destruct (Hno m)].
    - exfalso. destruct Hl as [Hno _]. by destruct (Hno m). }
  by exists s1, s2, s3.
Qed.

Definition peer_ip : list Z := [10; 0; 2; 9].
Definition link1 : link := put_cache (replicate 16 no_entry) link0.

Lemma link1_empty t a m : ~ live link1 t a m.
Proof.
  intros (e & He & Hv & _). unfold link1 in He. cbn [arp_cache put_cache] in He.
  apply list_elem_of_lookup_1 in He as [i Hi]. apply lookup_replicate in Hi as [-> _]. done.
Qed.
Lemma link1_inv : link_inv link1.
Proof.
  destruct link0_inv. constructor; try done.
  - apply Forall_replicate. apply zeros_addr.
  - intros i j e e' Hi _ Hv _ _. unfold link1 in Hi. cbn [arp_cache put_cache] in Hi.
    apply lookup_replicate in Hi as [-> _]. done.
Qed.

Lemma arp_resolves_witness :
  exists s1 s2 s3, get_route_mac 100 peer_ip link1 = Ok (None, s1) /\
    handle_arp 150 (arp_packet ARP_OP_REPLY server_mac peer_ip broadcast_mac host) server_mac s1 = Ok (tt, s2) /\
    get_route_mac 900 peer_ip s2 = Ok (Some server_mac, s3) /\ link_inv s3.
Proof.
  apply (arp_resolves 100 150 900 peer_ip (arp_packet ARP_OP_REPLY server_mac peer_ip broadcast_mac host) server_mac
    server_mac link1 link1_inv);
    [lia|lia|intros m'; apply link1_empty|intros m'; apply link1_empty| |reflexivity|vm_compute; congruence|vm_compute; congruence].
  split; [repeat constructor; vm_compute; congruence|]. repeat split; vm_compute; lia.
Defined.

End LinkProps.
