(* ===== verification/Tcp.v ===== *)
(** The TCP stack (src/tcp.c): the connection table, the state machine for
    received segments, the socket calls and the timers.

    Operations run on the lower layer of [Link] and the tables of this file.
    [ticks] is the value of [get_timer_ticks], [self] the current task if there
    is one, random numbers are arguments.  The critical sections are left out:
    every operation is one step.  Fields of the control block that no code reads
    (snd_wl1, snd_wl2, last_ack_time, retransmit_time, retransmit_count,
    ack_pending) are left out as well. *)
From Stdlib Require Import ZArith Lia List Bool.
From stdpp Require Import base tactics numbers list.
From S2P Require Import Prelude NetHdr Checksum Firewall Link Sha256.
Open Scope Z_scope.

Module Tcp.
Import NetHdr Link.

Definition TCP_MAX_CONNECTIONS : nat := 8.
Definition TCP_RX_BUFFER_SIZE : Z := 2048.
Definition TCP_TX_BUFFER_SIZE : Z := 2048.
Definition TCP_MAX_SEGMENT_SIZE : Z := 1460.
Definition TCP_INITIAL_WINDOW : Z := 4096.
Definition TCP_TIME_WAIT_TIMEOUT : Z := 30000.
Definition TCP_FIN_WAIT_2_TIMEOUT : Z := 60000.
Definition TCP_SYN_SENT_TIMEOUT_MS : Z := 10000.
Definition TCP_ZERO_WINDOW_PROBE_INTERVAL_MS : Z := 5000.
Definition RST_FIN_MIN_INTERVAL_MS : Z := 100.
Definition TCP_PORT_QUARANTINE_SLOTS : nat := 16.
Definition TCP_MAX_HALF_OPEN_CONNECTIONS : nat := 4.
Definition TCP_USER_MAX_SOCKETS : nat := 2.
Definition TCP_ROOT_RESERVED_SOCKETS : nat := 2.
Definition TIME_WAIT_EVICTION_THRESHOLD : nat := 4.
Definition TCP_SOCKET_OWNER_KERNEL : Z := 0xFFFFFFFF.
Definition TCP_SOCKET_FULL : Z := -1.
Definition TCP_SOCKET_LIMIT : Z := -2.
Definition EPHEMERAL_PORT_START : Z := 49152.
Definition EPHEMERAL_PORT_COUNT : Z := 16384.
Definition MAX_PORT_SEARCH_ATTEMPTS : nat := 64.

(** ** Sequence numbers *)

Definition int32 (x : Z) : Z := if x <? 2 ^ 31 then x else x - 2 ^ 32.
Definition TCP_SEQ_GT (a b : Z) : bool := 0 <? int32 (a -32 b).
Definition TCP_SEQ_LEQ (a b : Z) : bool := int32 (a -32 b) <=? 0.
Definition tcp_time_before (a b : Z) : bool := int32 (a -32 b) <? 0.

Inductive tcp_state :=
| TCP_CLOSED | TCP_LISTEN | TCP_SYN_SENT | TCP_SYN_RECEIVED | TCP_ESTABLISHED | TCP_FIN_WAIT_1
| TCP_FIN_WAIT_2 | TCP_CLOSE_WAIT | TCP_CLOSING | TCP_LAST_ACK | TCP_TIME_WAIT.
#[export] Instance tcp_state_eq_dec : EqDecision tcp_state.
Proof. solve_decision. Defined.
(** The value of the enumerator. *)
Definition state_num (st : tcp_state) : Z :=
  match st with
  | TCP_CLOSED => 0 | TCP_LISTEN => 1 | TCP_SYN_SENT => 2 | TCP_SYN_RECEIVED => 3 | TCP_ESTABLISHED => 4
  | TCP_FIN_WAIT_1 => 5 | TCP_FIN_WAIT_2 => 6 | TCP_CLOSE_WAIT => 7 | TCP_CLOSING => 8 | TCP_LAST_ACK => 9
  | TCP_TIME_WAIT => 10
  end.
Definition is_state (st st' : tcp_state) : bool := bool_decide (st = st').

(** ** Circular buffers *)

(** [rx_buffer], [rx_head], [rx_tail], and the same for [tx]. *)
Record ring := mk_ring { buffer : list Z; head : Z; tail : Z }.

Definition ring_available (r : ring) : Z :=
  if tail r <=? head r then u16 (head r - tail r) else u16 (TCP_RX_BUFFER_SIZE - tail r + head r).
Definition ring_free (r : ring) : Z := u16 (TCP_RX_BUFFER_SIZE - ring_available r - 1).

(** The loop that copies bytes in. *)
Fixpoint ring_put (data : list Z) (r : ring) : result ring :=
  match data with
  | [] => Ok r
  | b :: data' =>
      match aset (buffer r) (head r) b with
      | Ok buf => ring_put data' (mk_ring buf (u16 ((head r + 1) mod TCP_RX_BUFFER_SIZE)) (tail r))
      | Err f => Err f
      end
  end.
(** The loop that copies [n] bytes out. *)
Fixpoint ring_get (n : nat) (r : ring) : result (list Z * ring) :=
  match n with
  | O => Ok ([], r)
  | S n' =>
      match aget (buffer r) (tail r) with
      | Ok b =>
          match ring_get n' (mk_ring (buffer r) (head r) (u16 ((tail r + 1) mod TCP_RX_BUFFER_SIZE))) with
          | Ok (bs, r') => Ok (b :: bs, r')
          | Err f => Err f
          end
      | Err f => Err f
      end
  end.

(** ** Control blocks *)

Record peer := mk_peer { remote_ip : list Z; remote_mac : list Z; local_port : Z; remote_port : Z }.
Record seqs := mk_seqs {
  snd_una : Z; snd_nxt : Z; snd_wnd : Z; iss : Z; rcv_nxt : Z; rcv_wnd : Z; irs : Z }.
Record timers := mk_timers {
  time_wait_start : Z; fin_wait_2_start : Z; syn_sent_start : Z; zero_window_probe_time : Z; close_start : Z }.
Record owner := mk_owner { owner_uid : Z; owner_pid : Z; owner_generation : Z; orphaned : bool }.

Record tcp_connection := mk_conn {
  state : tcp_state; in_use : bool; who : peer; sq : seqs; tm : timers; rx : ring; tx : ring;
  fin_sent : bool; fin_received : bool; own : owner }.

Section Updates.
Implicit Types c : tcp_connection.
Definition put_state v c := mk_conn v (in_use c) (who c) (sq c) (tm c) (rx c) (tx c) (fin_sent c) (fin_received c) (own c).
Definition put_in_use v c := mk_conn (state c) v (who c) (sq c) (tm c) (rx c) (tx c) (fin_sent c) (fin_received c) (own c).
Definition put_who v c := mk_conn (state c) (in_use c) v (sq c) (tm c) (rx c) (tx c) (fin_sent c) (fin_received c) (own c).
Definition put_sq v c := mk_conn (state c) (in_use c) (who c) v (tm c) (rx c) (tx c) (fin_sent c) (fin_received c) (own c).
Definition put_tm v c := mk_conn (state c) (in_use c) (who c) (sq c) v (rx c) (tx c) (fin_sent c) (fin_received c) (own c).
Definition put_rx v c := mk_conn (state c) (in_use c) (who c) (sq c) (tm c) v (tx c) (fin_sent c) (fin_received c) (own c).
Definition put_tx v c := mk_conn (state c) (in_use c) (who c) (sq c) (tm c) (rx c) v (fin_sent c) (fin_received c) (own c).
Definition put_fin v w c := mk_conn (state c) (in_use c) (who c) (sq c) (tm c) (rx c) (tx c) v w (own c).
Definition put_own v c := mk_conn (state c) (in_use c) (who c) (sq c) (tm c) (rx c) (tx c) (fin_sent c) (fin_received c) v.

Definition put_snd una nxt wnd c :=
  put_sq (mk_seqs una nxt wnd (iss (sq c)) (rcv_nxt (sq c)) (rcv_wnd (sq c)) (irs (sq c))) c.
Definition put_rcv nxt wnd c :=
  put_sq (mk_seqs (snd_una (sq c)) (snd_nxt (sq c)) (snd_wnd (sq c)) (iss (sq c)) nxt wnd (irs (sq c))) c.
Definition put_snd_nxt v c := put_snd (snd_una (sq c)) v (snd_wnd (sq c)) c.
Definition put_snd_una v c := put_snd v (snd_nxt (sq c)) (snd_wnd (sq c)) c.
Definition put_rcv_nxt v c := put_rcv v (rcv_wnd (sq c)) c.
Definition put_rcv_wnd v c := put_rcv (rcv_nxt (sq c)) v c.
Definition put_time_wait v c := put_tm (mk_timers v (fin_wait_2_start (tm c)) (syn_sent_start (tm c))
  (zero_window_probe_time (tm c)) (close_start (tm c))) c.
Definition put_fin_wait_2 v c := put_tm (mk_timers (time_wait_start (tm c)) v (syn_sent_start (tm c))
  (zero_window_probe_time (tm c)) (close_start (tm c))) c.
Definition put_syn_sent v c := put_tm (mk_timers (time_wait_start (tm c)) (fin_wait_2_start (tm c)) v
  (zero_window_probe_time (tm c)) (close_start (tm c))) c.
Definition put_probe v c := put_tm (mk_timers (time_wait_start (tm c)) (fin_wait_2_start (tm c))
  (syn_sent_start (tm c)) v (close_start (tm c))) c.
Definition put_close v c := put_tm (mk_timers (time_wait_start (tm c)) (fin_wait_2_start (tm c))
  (syn_sent_start (tm c)) (zero_window_probe_time (tm c)) v) c.
(** [state = TCP_CLOSED; in_use = false] *)
Definition release c := put_in_use false (put_state TCP_CLOSED c).
End Updates.

(** [memset(conn, 0, sizeof(tcp_connection_t))] *)
Definition zero_ring : ring := mk_ring (replicate 2048 0) 0 0.
Definition zero_connection : tcp_connection :=
  mk_conn TCP_CLOSED false (mk_peer (replicate 4 0) (replicate 6 0) 0 0) (mk_seqs 0 0 0 0 0 0 0)
    (mk_timers 0 0 0 0 0) zero_ring zero_ring false false (mk_owner 0 0 0 false).

#[export] Instance connection_inhabited : Inhabited tcp_connection := populate zero_connection.

(** The counters of src/net.c for this file. *)
Inductive counter :=
| tcp_no_connection | tcp_drop_malformed | tcp_drop_flood | tcp_drop_sequence | tcp_rx_full | tcp_peer_reset
| tcp_zero_window | tcp_send_refused | tcp_connect_refused | tcp_table_full | tcp_timed_out | tcp_tw_evicted.
#[export] Instance counter_eq_dec : EqDecision counter.
Proof. solve_decision. Defined.

(** Port and end of the quarantine. *)
Record tcp := mk_tcp {
  tcp_connections : list tcp_connection; tcp_port_quarantine : list (Z * Z);
  last_rst_time : list Z; last_fin_time : list Z;
  isn_secret_key : list Z; isn_secret_initialized : bool; counts : counter -> Z }.

Section Tables.
Implicit Types t : tcp.
Definition put_connections v t := mk_tcp v (tcp_port_quarantine t) (last_rst_time t) (last_fin_time t)
  (isn_secret_key t) (isn_secret_initialized t) (counts t).
Definition put_quarantine v t := mk_tcp (tcp_connections t) v (last_rst_time t) (last_fin_time t)
  (isn_secret_key t) (isn_secret_initialized t) (counts t).
Definition put_flood r f t := mk_tcp (tcp_connections t) (tcp_port_quarantine t) r f
  (isn_secret_key t) (isn_secret_initialized t) (counts t).
Definition put_secret k b t := mk_tcp (tcp_connections t) (tcp_port_quarantine t) (last_rst_time t)
  (last_fin_time t) k b (counts t).
Definition put_counts v t := mk_tcp (tcp_connections t) (tcp_port_quarantine t) (last_rst_time t)
  (last_fin_time t) (isn_secret_key t) (isn_secret_initialized t) v.
End Tables.

Notation net := (link * tcp)%type.

Definition gets_tcp {A} (f : tcp -> A) : M net A := gets (fun s => f (snd s)).
Definition on_tcp (f : tcp -> tcp) : M net unit := modify (fun s => (fst s, f (snd s))).
Definition conn_get (i : nat) : M net tcp_connection :=
  l <- gets_tcp tcp_connections ;; lift (aget l (Z.of_nat i)).
Definition conn_put (i : nat) (c : tcp_connection) : M net unit :=
  l <- gets_tcp tcp_connections ;; l' <- lift (aset l (Z.of_nat i) c) ;; on_tcp (put_connections l').
Definition conn_upd (i : nat) (f : tcp_connection -> tcp_connection) : M net unit :=
  c <- conn_get i ;; conn_put i (f c).
Definition count (k : counter) : M net unit := on_tcp (fun t =>
  put_counts (fun d => if bool_decide (d = k) then counts t k +32 1 else counts t d) t).

(** [get_timer_ticks() * 10] *)
Definition tcp_get_time_ms (ticks : Z) : Z := ticks *32 10.

(** The fields of the current task the stack reads. *)
Record caller := mk_caller { uid : Z; euid : Z; pid : Z; generation : Z }.

(** * Counting, ports *)

Definition count_conns (p : tcp_connection -> bool) (t : tcp) : nat := length (List.filter p (tcp_connections t)).
Definition tcp_count_half_open_connections : tcp -> nat :=
  count_conns (fun c => in_use c && (is_state (state c) TCP_SYN_SENT || is_state (state c) TCP_SYN_RECEIVED)).
Definition tcp_count_time_wait_connections : tcp -> nat :=
  count_conns (fun c => in_use c && is_state (state c) TCP_TIME_WAIT).

(** The slot [tcp_quarantine_port] overwrites: the first empty or expired one,
    else the one closest to its end. *)
Fixpoint quarantine_victim (now : Z) (l : list (Z * Z)) (i victim : nat) (victim_until : Z) : nat :=
  match l with
  | [] => victim
  | (port, until) :: l' =>
      if (port =? 0) || negb (tcp_time_before now until) then i
      else if tcp_time_before until victim_until then quarantine_victim now l' (S i) i until
      else quarantine_victim now l' (S i) victim victim_until
  end.
Definition tcp_quarantine_port (now port until_ms : Z) (t : tcp) : tcp :=
  let q := tcp_port_quarantine t in
  put_quarantine (<[quarantine_victim now q 0 0 (snd (q !!! 0%nat)) := (port, until_ms)]> q) t.

(** The index of the oldest connection in TIME_WAIT and its start. *)
Fixpoint oldest_time_wait (l : list tcp_connection) (i : nat) (best : option nat) (oldest : Z) : option nat * Z :=
  match l with
  | [] => (best, oldest)
  | c :: l' =>
      if in_use c && is_state (state c) TCP_TIME_WAIT && (time_wait_start (tm c) <? oldest)
      then oldest_time_wait l' (S i) (Some i) (time_wait_start (tm c))
      else oldest_time_wait l' (S i) best oldest
  end.
Definition tcp_evict_oldest_time_wait (ticks : Z) : M net bool :=
  r <- gets_tcp (fun t => oldest_time_wait (tcp_connections t) 0 None 0xFFFFFFFF) ;;
  match r with
  | (Some i, oldest) =>
      count tcp_tw_evicted ;;;
      c <- conn_get i ;;
      on_tcp (tcp_quarantine_port (tcp_get_time_ms ticks) (local_port (who c)) (oldest +32 TCP_TIME_WAIT_TIMEOUT)) ;;;
      conn_upd i release ;;;
      ret true
  | (None, _) => ret false
  end.

Definition tcp_validate_sequence (seq expected window : Z) : bool :=
  if seq =? expected then true else seq -32 expected <? window.

(** [key]: the 32 random bytes of the first call. *)
Definition tcp_generate_isn (ticks : Z) (key local_ip : list Z) (lport : Z) (rip : list Z) (rport : Z) : M net Z :=
  init <- gets_tcp isn_secret_initialized ;;
  (if init then ret tt else on_tcp (put_secret key true)) ;;;
  k <- gets_tcp isn_secret_key ;;
  let m := tcp_get_time_ms ticks *32 250 in
  let prf_input := local_ip ++ [u8 (Z.shiftr lport 8); u8 (Z.land lport 0xFF)] ++
                   rip ++ [u8 (Z.shiftr rport 8); u8 (Z.land rport 0xFF)] ++ k in
  hash <- lift (match Sha256.sha256 prf_input (Sha256.mk_ctx [] 0 (replicate 64 0)) with
                | Ok (h, _) => Ok h | Err f => Err f end) ;;
  let f := Z.lor (Z.lor (Z.lor (u32 (Z.shiftl (hash !!! 0%nat) 24)) (u32 (Z.shiftl (hash !!! 1%nat) 16)))
                        (u32 (Z.shiftl (hash !!! 2%nat) 8))) (hash !!! 3%nat) in
  ret (m +32 f).

Definition tcp_port_is_free (port now : Z) (t : tcp) : bool :=
  if existsb (fun c => in_use c && (local_port (who c) =? port)) (tcp_connections t) then false
  else negb (existsb (fun q => (fst q =? port) && tcp_time_before now (snd q)) (tcp_port_quarantine t)).

(** [draws]: the 16-bit numbers drawn. *)
Fixpoint allocate_loop (attempts : nat) (now : Z) (draws : nat -> Z) (t : tcp) : Z :=
  match attempts with
  | O => 0
  | S n =>
      let r := draws (MAX_PORT_SEARCH_ATTEMPTS - attempts)%nat in
      let port := u16 (EPHEMERAL_PORT_START + r mod EPHEMERAL_PORT_COUNT) in
      if tcp_port_is_free port now t then port else allocate_loop n now draws t
  end.
Definition tcp_allocate_port (ticks : Z) (draws : nat -> Z) (t : tcp) : Z :=
  allocate_loop MAX_PORT_SEARCH_ATTEMPTS (tcp_get_time_ms ticks) draws t.

Definition is_connection (rip : list Z) (rport lport : Z) (c : tcp_connection) : bool :=
  in_use c && (local_port (who c) =? lport) && (remote_port (who c) =? rport) && same (remote_ip (who c)) rip.
Definition tcp_find_connection (rip : list Z) (rport lport : Z) (t : tcp) : option nat :=
  index_of (is_connection rip rport lport) (tcp_connections t).

(** * Sending *)

Definition MAX_TCP_PACKET_SIZE : Z := 1514.

(** The header in front of the checksum. *)
Definition tcp_head (c : tcp_connection) (flags : Z) : list Z :=
  net_bytes16 (local_port (who c)) ++ net_bytes16 (remote_port (who c)) ++ net_bytes32 (snd_nxt (sq c)) ++
  net_bytes32 (rcv_nxt (sq c)) ++ [0x50; flags] ++ net_bytes16 (ring_free (rx c)).

(** [data] empty: no payload. *)
Definition tcp_send_segment (ticks : Z) (i : nat) (flags : Z) (data : list Z) : M net unit :=
  c <- conn_get i ;;
  let packet_len := sizeof_eth_header + (sizeof_ip_header + (sizeof_tcp_header + Z.of_nat (length data))) in
  let data := if MAX_TCP_PACKET_SIZE <? packet_len
              then take (Z.to_nat (MAX_TCP_PACKET_SIZE - sizeof_eth_header - sizeof_ip_header - sizeof_tcp_header)) data
              else data in
  let tcp_len := sizeof_tcp_header + Z.of_nat (length data) in
  mm <- lower (gets my_mac) ;; mi <- lower (gets my_ip) ;;
  seg <- lift (l4_segment mi (remote_ip (who c)) IPPROTO_TCP (tcp_head c flags) ([0; 0] ++ data) 0) ;;
  hdr <- lift (ip_header (sizeof_ip_header + tcp_len) 0x4000 IPPROTO_TCP mi (remote_ip (who c))) ;;
  lower (on_filter (Firewall.firewall_track_outgoing ticks (ip_word mi) (ip_word (remote_ip (who c)))
                      (local_port (who c)) (remote_port (who c)) IPPROTO_TCP) ;;;
         e1000_send (eth_frame (remote_mac (who c)) mm ETH_TYPE_IPV4 (hdr ++ seg))) ;;;
  if (0 <? Z.of_nat (length data)) || negb (Z.land flags (Z.lor TCP_SYN TCP_FIN) =? 0) then
    let nxt := snd_nxt (sq c) +32 Z.of_nat (length data) in
    let nxt := if Z.land flags TCP_SYN =? 0 then nxt else nxt +32 1 in
    let nxt := if Z.land flags TCP_FIN =? 0 then nxt else nxt +32 1 in
    conn_upd i (put_snd_nxt nxt)
  else ret tt.

(** * Received segments *)

Section Stack.
Variable ticks : Z.
Notation now := (tcp_get_time_ms ticks).

Definition has (flags bit : Z) : bool := negb (Z.land flags bit =? 0).

Definition tcp_fin_in_order (c : tcp_connection) (seq : Z) (data_len : nat) : bool :=
  seq +32 Z.of_nat data_len =? rcv_nxt (sq c).

(** Whether a RST or FIN comes too fast after the last one; else its time is
    recorded. *)
Definition rst_too_fast (i : nat) : M net bool :=
  l <- gets_tcp last_rst_time ;; last <- lift (aget l (Z.of_nat i)) ;;
  if now -32 last <? RST_FIN_MIN_INTERVAL_MS then ret true else
  l' <- lift (aset l (Z.of_nat i) now) ;; on_tcp (fun t => put_flood l' (last_fin_time t) t) ;;; ret false.
Definition fin_too_fast (i : nat) : M net bool :=
  l <- gets_tcp last_fin_time ;; last <- lift (aget l (Z.of_nat i)) ;;
  if now -32 last <? RST_FIN_MIN_INTERVAL_MS then ret true else
  l' <- lift (aset l (Z.of_nat i) now) ;; on_tcp (fun t => put_flood (last_rst_time t) l' t) ;;; ret false.

Definition process_rst (i : nat) (flags seq ack : Z) : M net unit :=
  fast <- rst_too_fast i ;;
  if fast then count tcp_drop_flood else
  c <- conn_get i ;;
  if (state_num TCP_ESTABLISHED <=? state_num (state c)) &&
     negb (tcp_validate_sequence seq (rcv_nxt (sq c)) (rcv_wnd (sq c))) then count tcp_drop_sequence else
  if is_state (state c) TCP_SYN_SENT && (negb (has flags TCP_ACK) || negb (ack =? snd_nxt (sq c)))
  then count tcp_drop_sequence else
  count tcp_peer_reset ;;; conn_upd i release.

Definition process_syn_sent (i : nat) (flags seq ack window : Z) : M net unit :=
  c <- conn_get i ;;
  if (Z.land flags (Z.lor TCP_SYN TCP_ACK) =? Z.lor TCP_SYN TCP_ACK) && (ack =? snd_nxt (sq c)) then
    conn_put i (put_state TCP_ESTABLISHED
      (put_sq (mk_seqs ack (snd_nxt (sq c)) window (iss (sq c)) (seq +32 1) (rcv_wnd (sq c)) seq) c)) ;;;
    tcp_send_segment ticks i TCP_ACK []
  else ret tt.

Definition process_syn_received (i : nat) (flags ack window : Z) : M net unit :=
  c <- conn_get i ;;
  if has flags TCP_ACK && (ack =? snd_nxt (sq c)) then
    conn_put i (put_state TCP_ESTABLISHED (put_snd ack (snd_nxt (sq c)) window c))
  else ret tt.

(** The data of a segment in ESTABLISHED; [true]: the function returns. *)
Definition process_data (i : nat) (seq : Z) (data : list Z) : M net bool :=
  c <- conn_get i ;;
  if (0 <? Z.of_nat (length data)) && (seq =? rcv_nxt (sq c)) then
    if ring_free (rx c) <? Z.of_nat (length data) then
      count tcp_rx_full ;;; conn_put i (put_rcv_wnd 0 c) ;;; tcp_send_segment ticks i TCP_ACK [] ;;; ret true
    else
      r <- lift (ring_put data (rx c)) ;;
      conn_put i (put_rcv (rcv_nxt (sq c) +32 Z.of_nat (length data)) (ring_free r) (put_rx r c)) ;;;
      tcp_send_segment ticks i TCP_ACK [] ;;; ret false
  else ret false.

Definition process_established (i : nat) (flags seq ack window : Z) (data : list Z) : M net unit :=
  c <- conn_get i ;;
  if negb (tcp_validate_sequence seq (rcv_nxt (sq c)) (rcv_wnd (sq c))) then
    count tcp_drop_sequence ;;; tcp_send_segment ticks i TCP_ACK []
  else
  (if has flags TCP_ACK && TCP_SEQ_GT ack (snd_una (sq c)) && TCP_SEQ_LEQ ack (snd_nxt (sq c))
   then conn_put i (put_snd ack (snd_nxt (sq c)) window c) else ret tt) ;;;
  stop <- process_data i seq data ;;
  if stop : bool then ret tt else
  c <- conn_get i ;;
  if has flags TCP_FIN && tcp_fin_in_order c seq (length data) then
    fast <- fin_too_fast i ;;
    if fast : bool then count tcp_drop_flood else
    conn_upd i (fun c => put_state TCP_CLOSE_WAIT (put_fin (fin_sent c) true (put_rcv_nxt (rcv_nxt (sq c) +32 1) c))) ;;;
    tcp_send_segment ticks i TCP_ACK []
  else ret tt.

(** The FIN of the peer in FIN_WAIT_1 and FIN_WAIT_2. *)
Definition process_peer_fin (i : nat) (flags seq : Z) (data_len : nat) : M net unit :=
  c <- conn_get i ;;
  if has flags TCP_FIN && tcp_fin_in_order c seq data_len then
    let c := put_fin (fin_sent c) true (put_rcv_nxt (rcv_nxt (sq c) +32 1) c) in
    conn_put i (if is_state (state c) TCP_FIN_WAIT_2 then put_time_wait now (put_state TCP_TIME_WAIT c)
                else put_state TCP_CLOSING c) ;;;
    tcp_send_segment ticks i TCP_ACK []
  else ret tt.

Definition process_fin_wait_1 (i : nat) (flags seq ack : Z) (data_len : nat) : M net unit :=
  c <- conn_get i ;;
  (if has flags TCP_ACK && (ack =? snd_nxt (sq c))
   then conn_put i (put_fin_wait_2 now (put_state TCP_FIN_WAIT_2 (put_snd_una ack c))) else ret tt) ;;;
  process_peer_fin i flags seq data_len.

Definition tcp_process_segment (i : nat) (flags seq ack window : Z) (data : list Z) : M net unit :=
  if has flags TCP_RST then process_rst i flags seq ack else
  c <- conn_get i ;;
  (if (window =? 0) && (0 <? snd_wnd (sq c)) then count tcp_zero_window else ret tt) ;;;
  match state c with
  | TCP_SYN_SENT => process_syn_sent i flags seq ack window
  | TCP_SYN_RECEIVED => process_syn_received i flags ack window
  | TCP_ESTABLISHED => process_established i flags seq ack window data
  | TCP_FIN_WAIT_1 => process_fin_wait_1 i flags seq ack (length data)
  | TCP_FIN_WAIT_2 => process_peer_fin i flags seq (length data)
  | TCP_CLOSING =>
      if has flags TCP_ACK && (ack =? snd_nxt (sq c))
      then conn_put i (put_time_wait now (put_state TCP_TIME_WAIT c)) else ret tt
  | TCP_CLOSE_WAIT => if has flags TCP_ACK then conn_put i (put_snd_una ack c) else ret tt
  | TCP_LAST_ACK =>
      if has flags TCP_ACK && (ack =? snd_nxt (sq c)) then conn_put i (release c) else ret tt
  | TCP_TIME_WAIT | TCP_CLOSED | TCP_LISTEN => ret tt
  end.

Definition tcp_handle_packet (src_ip segment : list Z) : M net unit :=
  if Z.of_nat (length segment) <? sizeof_tcp_header then ret tt else
  src_port <- net16 segment l4_src_port ;; dest_port <- net16 segment l4_dest_port ;;
  off <- load8 segment tcp_offset_reserved ;;
  let data_offset_words := Z.shiftr off 4 in
  let data_offset := u8 (data_offset_words * 4) in
  if (data_offset_words <? 5) || (15 <? data_offset_words) then count tcp_drop_malformed else
  if Z.of_nat (length segment) <? data_offset then count tcp_drop_malformed else
  r <- gets_tcp (tcp_find_connection src_ip src_port dest_port) ;;
  match r with
  | Some i =>
      flags <- load8 segment tcp_flags ;;
      seq <- net32 segment tcp_sequence_number ;; ack <- net32 segment tcp_acknowledgement_number ;;
      window <- net16 segment tcp_window_size ;;
      tcp_process_segment i flags seq ack window (drop (Z.to_nat data_offset) segment)
  | None => count tcp_no_connection
  end.

(** * Sockets *)

Definition tcp_init : M net unit := on_tcp (put_connections
  (replicate TCP_MAX_CONNECTIONS (put_rcv_wnd TCP_RX_BUFFER_SIZE zero_connection))).

Variable self : option caller.

Definition tcp_current_owner_uid : Z :=
  match self with Some t => u32 (uid t) | None => TCP_SOCKET_OWNER_KERNEL end.
Definition stamp : owner :=
  match self with
  | Some t => mk_owner tcp_current_owner_uid (pid t) (generation t) false
  | None => mk_owner tcp_current_owner_uid 0 0 false
  end.

(** A slot that is or can be made free. *)
Definition is_available (c : tcp_connection) : bool := negb (in_use c) || is_state (state c) TCP_TIME_WAIT.
(** A socket its owner still holds. *)
Definition is_held (u : Z) (c : tcp_connection) : bool :=
  negb (is_available c) && (owner_uid (own c) =? u) && negb (fin_sent c) && negb (orphaned (own c)).
Definition tcp_socket_over_limit (t : tcp) : bool :=
  match self with
  | None => false
  | Some me =>
      if uid me =? 0 then false else
      (TCP_USER_MAX_SOCKETS <=? count_conns (is_held (u32 (uid me))) t)%nat ||
      (count_conns is_available t <=? TCP_ROOT_RESERVED_SOCKETS)%nat
  end.

Definition tcp_task_cleanup (p gen : Z) : M net unit :=
  if p =? 0 then ret tt else
  on_tcp (fun t => put_connections (map (fun c =>
    if negb (in_use c) || negb (owner_pid (own c) =? p) || negb (owner_generation (own c) =? gen) then c
    else if is_state (state c) TCP_CLOSED || is_state (state c) TCP_LISTEN
    then put_in_use false (put_own (mk_owner (owner_uid (own c)) 0 0 (orphaned (own c))) c)
    else put_own (mk_owner (owner_uid (own c)) 0 0 true) c) (tcp_connections t)) t).

Definition in_range (sockfd : Z) : bool := (0 <=? sockfd) && (sockfd <? Z.of_nat TCP_MAX_CONNECTIONS).

Definition tcp_owner_visible (sockfd : Z) (t : tcp) : bool :=
  if negb (in_range sockfd) then false else
  match self with
  | None => true
  | Some me => (euid me =? 0) || (owner_uid (own (tcp_connections t !!! Z.to_nat sockfd)) =? u32 (uid me))
  end.

Definition fresh_connection : tcp_connection :=
  put_own stamp (put_rcv_wnd TCP_RX_BUFFER_SIZE (put_in_use true zero_connection)).

(** The first free slot. *)
Definition take_slot : M net (option Z) :=
  r <- gets_tcp (fun t => index_of (fun c => negb (in_use c)) (tcp_connections t)) ;;
  match r with
  | Some i => conn_put i fresh_connection ;;; ret (Some (Z.of_nat i))
  | None => ret None
  end.

Definition tcp_socket : M net Z :=
  over <- gets_tcp tcp_socket_over_limit ;;
  if over then ret TCP_SOCKET_LIMIT else
  r <- take_slot ;;
  match r with
  | Some i => ret i
  | None =>
      n <- gets_tcp tcp_count_time_wait_connections ;;
      r <- (if (TIME_WAIT_EVICTION_THRESHOLD <=? n)%nat
            then e <- tcp_evict_oldest_time_wait ticks ;; if e : bool then take_slot else ret None
            else ret None) ;;
      match r with
      | Some i => ret i
      | None => count tcp_table_full ;;; ret TCP_SOCKET_FULL
      end
  end.

(** [draws]: for the port; [key]: for the first sequence number. *)
Definition tcp_connect (draws : nat -> Z) (key : list Z) (sockfd : Z) (rip : list Z) (rport : Z) : M net Z :=
  if negb (in_range sockfd) then ret (-1) else
  let i := Z.to_nat sockfd in
  c <- conn_get i ;;
  if negb (in_use c) || negb (is_state (state c) TCP_CLOSED) then ret (-1) else
  half_open <- gets_tcp tcp_count_half_open_connections ;;
  if (TCP_MAX_HALF_OPEN_CONNECTIONS <=? half_open)%nat then count tcp_connect_refused ;;; ret (-1) else
  free <- gets_tcp (tcp_allocate_port ticks draws) ;;
  let lport := if local_port (who c) =? 0 then free else local_port (who c) in
  conn_put i (put_who (mk_peer rip (remote_mac (who c)) lport rport) c) ;;;
  if lport =? 0 then count tcp_connect_refused ;;; ret (-1) else
  rmac <- lower (get_route_mac ticks rip) ;;
  match rmac with
  | None => count tcp_connect_refused ;;; ret (-1)
  | Some m =>
      conn_upd i (fun c => put_who (mk_peer rip m lport rport) c) ;;;
      mi <- lower (gets my_ip) ;;
      isn <- tcp_generate_isn ticks key mi lport rip rport ;;
      conn_upd i (fun c => put_syn_sent now (put_state TCP_SYN_SENT
        (put_sq (mk_seqs isn (isn +32 1) TCP_INITIAL_WINDOW isn (rcv_nxt (sq c)) (rcv_wnd (sq c)) (irs (sq c))) c))) ;;;
      tcp_send_segment ticks i TCP_SYN [] ;;;
      ret 0
  end.

Definition tcp_send (sockfd : Z) (data : list Z) : M net Z :=
  if negb (in_range sockfd) then count tcp_send_refused ;;; ret (-1) else
  let i := Z.to_nat sockfd in
  c <- conn_get i ;;
  if negb (in_use c) || negb (is_state (state c) TCP_ESTABLISHED) then count tcp_send_refused ;;; ret (-1) else
  let space := u16 (TCP_TX_BUFFER_SIZE - ring_available (tx c) - 1) in
  let data := take (Z.to_nat space) data in
  if Z.of_nat (length data) =? 0 then ret 0 else
  r <- lift (ring_put data (tx c)) ;;
  let to_send := Z.min (Z.of_nat (length data)) TCP_MAX_SEGMENT_SIZE in
  br <- lift (ring_get (Z.to_nat to_send) r) ;;
  conn_put i (put_tx (snd br) c) ;;;
  tcp_send_segment ticks i (Z.lor TCP_ACK TCP_PSH) (fst br) ;;;
  ret to_send.

(** The bytes stored in the buffer of the caller come with the result. *)
Definition tcp_recv (sockfd len : Z) : M net (Z * list Z) :=
  if negb (in_range sockfd) then ret (-1, []) else
  let i := Z.to_nat sockfd in
  c <- conn_get i ;;
  if negb (in_use c) || is_state (state c) TCP_CLOSED then ret (-1, []) else
  let available := ring_available (rx c) in
  if available =? 0 then ret (0, []) else
  let to_read := if len <? available then len else available in
  let old_rcv_wnd := u16 (rcv_wnd (sq c)) in
  br <- lift (ring_get (Z.to_nat to_read) (rx c)) ;;
  let new_rcv_wnd := ring_free (snd br) in
  conn_put i (put_rcv_wnd new_rcv_wnd (put_rx (snd br) c)) ;;;
  (if ((old_rcv_wnd =? 0) && (0 <? new_rcv_wnd)) || (old_rcv_wnd + 512 <? new_rcv_wnd)
   then tcp_send_segment ticks i TCP_ACK [] else ret tt) ;;;
  ret (to_read, fst br).

Definition tcp_close (sockfd : Z) : M net Z :=
  if negb (in_range sockfd) then ret (-1) else
  let i := Z.to_nat sockfd in
  c <- conn_get i ;;
  if negb (in_use c) then ret (-1) else
  match state c with
  | TCP_ESTABLISHED =>
      conn_put i (put_state TCP_FIN_WAIT_1 (put_close now (put_fin true (fin_received c) c))) ;;;
      tcp_send_segment ticks i (Z.lor TCP_ACK TCP_FIN) [] ;;; ret 0
  | TCP_CLOSE_WAIT =>
      conn_put i (put_state TCP_LAST_ACK (put_close now (put_fin true (fin_received c) c))) ;;;
      tcp_send_segment ticks i (Z.lor TCP_ACK TCP_FIN) [] ;;; ret 0
  | TCP_CLOSED | TCP_LISTEN | TCP_SYN_SENT | TCP_SYN_RECEIVED => conn_put i (release c) ;;; ret 0
  | _ => ret 0
  end.

Definition tcp_is_connected (sockfd : Z) (t : tcp) : bool :=
  in_range sockfd && (let c := tcp_connections t !!! Z.to_nat sockfd in in_use c && is_state (state c) TCP_ESTABLISHED).
Definition tcp_get_state (sockfd : Z) (t : tcp) : tcp_state :=
  if in_range sockfd then state (tcp_connections t !!! Z.to_nat sockfd) else TCP_CLOSED.
Definition tcp_available (sockfd : Z) (t : tcp) : Z :=
  if in_range sockfd then
    let c := tcp_connections t !!! Z.to_nat sockfd in if in_use c then ring_available (rx c) else 0
  else 0.

Record tcp_snapshot_t := mk_snapshot {
  sn_state : Z; sn_connected : Z; sn_available : Z; sn_remote_ip : list Z; sn_local_port : Z; sn_remote_port : Z }.
Definition tcp_snapshot (sockfd : Z) (t : tcp) : option tcp_snapshot_t :=
  if negb (in_range sockfd) then None else
  let c := tcp_connections t !!! Z.to_nat sockfd in
  if negb (in_use c) || negb (tcp_owner_visible sockfd t) then None else
  Some (mk_snapshot (state_num (state c)) (if is_state (state c) TCP_ESTABLISHED then 1 else 0)
          (ring_available (rx c)) (remote_ip (who c)) (local_port (who c)) (remote_port (who c))).
Definition tcp_visible_mask (t : tcp) : Z :=
  fold_left (fun mask i => if in_use (tcp_connections t !!! i) && tcp_owner_visible (Z.of_nat i) t
                           then Z.lor mask (Z.shiftl 1 (Z.of_nat i)) else mask)
            (seq 0 TCP_MAX_CONNECTIONS) 0.

(** * Timers *)

Definition expired (current start limit : Z) : bool := limit <? current -32 start.

Definition tick_syn (current : Z) (i : nat) : M net unit :=
  c <- conn_get i ;;
  if (is_state (state c) TCP_SYN_SENT || is_state (state c) TCP_SYN_RECEIVED) &&
     expired current (syn_sent_start (tm c)) TCP_SYN_SENT_TIMEOUT_MS
  then count tcp_timed_out ;;; conn_put i (release c) else ret tt.

Definition tick_closing (current : Z) (i : nat) : M net unit :=
  c <- conn_get i ;;
  if (is_state (state c) TCP_FIN_WAIT_1 || is_state (state c) TCP_CLOSING || is_state (state c) TCP_LAST_ACK) &&
     fin_sent c && expired current (close_start (tm c)) TCP_FIN_WAIT_2_TIMEOUT
  then conn_put i (release c) else ret tt.

Definition tick_time_wait (current : Z) (i : nat) : M net unit :=
  c <- conn_get i ;;
  if is_state (state c) TCP_TIME_WAIT && expired current (time_wait_start (tm c)) TCP_TIME_WAIT_TIMEOUT
  then conn_put i (release c) else ret tt.

Definition tick_fin_wait_2 (current : Z) (i : nat) : M net unit :=
  c <- conn_get i ;;
  if is_state (state c) TCP_FIN_WAIT_2 && (0 <? fin_wait_2_start (tm c)) &&
     expired current (fin_wait_2_start (tm c)) TCP_FIN_WAIT_2_TIMEOUT
  then count tcp_timed_out ;;; conn_put i (release c) else ret tt.

Definition tick_probe (current : Z) (i : nat) : M net unit :=
  c <- conn_get i ;;
  if is_state (state c) TCP_ESTABLISHED && (snd_wnd (sq c) =? 0) && (0 <? ring_available (tx c)) &&
     ((TCP_ZERO_WINDOW_PROBE_INTERVAL_MS <=? current -32 zero_window_probe_time (tm c)) ||
      (zero_window_probe_time (tm c) =? 0))
  then
    probe_byte <- lift (aget (buffer (tx c)) (tail (tx c))) ;;
    tcp_send_segment ticks i (Z.lor TCP_PSH TCP_ACK) [probe_byte] ;;;
    conn_upd i (fun c' => put_probe current (put_snd_nxt (snd_nxt (sq c)) c'))
  else ret tt.

Definition tcp_tick_slot (i : nat) (current : Z) : M net unit :=
  c <- conn_get i ;;
  (if in_use c && orphaned (own c) then
     conn_put i (put_own (mk_owner (owner_uid (own c)) (owner_pid (own c)) (owner_generation (own c)) false) c) ;;;
     _ <- tcp_close (Z.of_nat i) ;; ret tt
   else ret tt) ;;;
  c <- conn_get i ;;
  if negb (in_use c) then ret tt else
  tick_syn current i ;;; tick_closing current i ;;; tick_time_wait current i ;;;
  tick_fin_wait_2 current i ;;; tick_probe current i.

Definition tcp_tick (current : Z) : M net unit :=
  for_each TCP_MAX_CONNECTIONS 0 (fun i => tcp_tick_slot (Z.to_nat i) current).
End Stack.

End Tcp.
