(* ===== verification/TcpInv.v ===== *)
(** The invariant of the TCP stack and what its operations do: circular buffers
    as queues, sending a segment, and the steps of the state machine. *)
From Stdlib Require Import ZArith Lia List Bool.
From stdpp Require Import base tactics numbers list.
From S2P Require Import Prelude NetHdr Checksum Firewall Link Sha256 Tcp.
Open Scope Z_scope.

Module TcpInv.
Import NetHdr Link Tcp.

(** * Circular buffers are queues *)

Record ring_ok (r : ring) : Prop := mk_ring_ok {
  ro_length : length (buffer r) = 2048%nat; ro_bytes : bytes (buffer r);
  ro_head : 0 <= head r < 2048; ro_tail : 0 <= tail r < 2048 }.

Definition used (r : ring) : Z := (head r - tail r) mod 2048.
Definition content (r : ring) : list Z :=
  map (fun k => buffer r !!! Z.to_nat ((tail r + Z.of_nat k) mod 2048)) (seq 0 (Z.to_nat (used r))).

Section Rings.
Implicit Types r : ring.

Lemma used_range r : 0 <= used r < 2048.
Proof. apply Z.mod_pos_bound. lia. Qed.
Lemma content_length r : Z.of_nat (length (content r)) = used r.
Proof. unfold content. rewrite length_map, length_seq. pose proof (used_range r). lia. Qed.

Lemma available_used r : ring_ok r -> ring_available r = used r.
Proof.
  intros [_ _ Hh Ht]. unfold ring_available, used, TCP_RX_BUFFER_SIZE.
  destruct (Z.leb_spec (tail r) (head r)); rewrite u16_small by lia; Z.to_euclidean_division_equations; lia.
Qed.
Lemma free_used r : ring_ok r -> ring_free r = 2047 - used r.
Proof.
  intros H. unfold ring_free, TCP_RX_BUFFER_SIZE. rewrite available_used by done. pose proof (used_range r).
  rewrite u16_small by lia. lia.
Qed.

Lemma at_byte (l : list Z) k : bytes l -> byte (l !!! k).
Proof.
  intros H. rewrite list_lookup_total_alt. destruct (l !! k) as [b|] eqn:E; simpl; [|lia].
  by apply (Forall_lookup_1 _ _ _ _ H E).
Qed.
Lemma content_bytes r : ring_ok r -> bytes (content r).
Proof. intros [_ Hb _ _]. unfold content, bytes. apply Forall_fmap, Forall_true. intros k. by apply at_byte. Qed.

Lemma put_one r b : ring_ok r -> byte b -> used r < 2047 ->
  let r' := mk_ring (<[Z.to_nat (head r) := b]> (buffer r)) (u16 ((head r + 1) mod 2048)) (tail r) in
  ring_ok r' /\ content r' = content r ++ [b].
Proof.
  intros [Hl Hb Hh Ht] Hbyte Hu r'. assert (u16 ((head r + 1) mod 2048) = (head r + 1) mod 2048) as Eh
    by (apply u16_small; Z.to_euclidean_division_equations; lia).
  split.
  { constructor; simpl; [by rewrite length_insert|by apply Forall_insert|rewrite Eh|done].
    apply Z.mod_pos_bound. lia. }
  assert (used r' = used r + 1) as Eu.
  { unfold used, r' in *. simpl. rewrite Eh. Z.to_euclidean_division_equations; lia. }
  unfold content. rewrite Eu. pose proof (used_range r) as Hr.
  replace (Z.to_nat (used r + 1)) with (S (Z.to_nat (used r))) by lia. rewrite seq_S, map_app. f_equal.
  - apply map_ext_in. intros k [_ Hk]%in_seq. unfold r'. cbn [buffer tail].
    apply list_lookup_total_insert_ne. unfold used in *. Z.to_euclidean_division_equations; lia.
  - cbn [map]. f_equal. unfold r'. cbn [buffer tail].
    replace (Z.to_nat ((tail r + Z.of_nat (0 + Z.to_nat (used r))) mod 2048)) with (Z.to_nat (head r)).
    + apply list_lookup_total_insert_eq. lia.
    + unfold used in *. Z.to_euclidean_division_equations; lia.
Qed.

Lemma get_one r : ring_ok r -> 0 < used r ->
  let r' := mk_ring (buffer r) (head r) (u16 ((tail r + 1) mod 2048)) in
  ring_ok r' /\ content r = buffer r !!! Z.to_nat (tail r) :: content r'.
Proof.
  intros [Hl Hb Hh Ht] Hu r'. assert (u16 ((tail r + 1) mod 2048) = (tail r + 1) mod 2048) as Et
    by (apply u16_small; Z.to_euclidean_division_equations; lia).
  split.
  { constructor; simpl; [done..|rewrite Et]. apply Z.mod_pos_bound. lia. }
  assert (used r' = used r - 1) as Eu.
  { unfold used, r' in *. simpl. rewrite Et. Z.to_euclidean_division_equations; lia. }
  unfold content. rewrite Eu. replace (Z.to_nat (used r)) with (S (Z.to_nat (used r - 1))) by lia.
  cbn [seq map]. f_equal.
  - f_equal. f_equal. Z.to_euclidean_division_equations; lia.
  - rewrite <- seq_shift, map_map. apply map_ext. intros k. unfold r'. cbn [buffer tail]. rewrite Et.
    do 2 f_equal. rewrite Zplus_mod_idemp_l. f_equal. lia.
Qed.

(** Copying in appends. *)
Lemma ring_put_ok data r : ring_ok r -> bytes data -> Z.of_nat (length data) <= 2047 - used r ->
  exists r', ring_put data r = Ok r' /\ ring_ok r' /\ content r' = content r ++ data.
Proof.
  revert r. induction data as [|b data IH]; intros r Hr Hd Hu; cbn [ring_put].
  { exists r. by rewrite app_nil_r. }
  apply Forall_cons in Hd as [Hb Hd]. cbn [length] in Hu. pose proof (used_range r).
  rewrite aset_ok by (rewrite (ro_length r Hr); destruct Hr; lia).
  destruct (put_one r b Hr Hb ltac:(lia)) as [Hr1 Ec]. unfold TCP_RX_BUFFER_SIZE.
  set (r1 := mk_ring _ _ _) in *. destruct (IH r1 Hr1 Hd) as (r' & E & Hr' & Ec').
  - rewrite <- content_length, Ec, length_app in *. simpl. pose proof (content_length r). lia.
  - exists r'. split_and!; [done..|]. by rewrite Ec', Ec, <- app_assoc.
Qed.

(** Copying out takes from the front. *)
Lemma ring_get_ok n r : ring_ok r -> Z.of_nat n <= used r ->
  exists r', ring_get n r = Ok (take n (content r), r') /\ ring_ok r' /\ content r' = drop n (content r).
Proof.
  revert r. induction n as [|n IH]; intros r Hr Hn; cbn [ring_get].
  { exists r. by rewrite drop_0. }
  destruct (get_one r Hr ltac:(lia)) as [Hr1 Ec]. unfold TCP_RX_BUFFER_SIZE. set (r1 := mk_ring _ _ _) in *.
  destruct (aget_range (buffer r) (tail r)) as (b & Hb & E); [rewrite (ro_length r Hr); destruct Hr; lia|].
  rewrite E. destruct (IH r1 Hr1) as (r' & E' & Hr' & Ec').
  - pose proof (content_length r) as H1. pose proof (content_length r1) as H2. rewrite Ec in H1. simpl in H1. lia.
  - exists r'. rewrite E', Ec. rewrite (list_lookup_total_correct _ _ _ Hb). split_and!; [done..|]. by rewrite Ec'.
Qed.
End Rings.

(** * The invariant *)

Notation word x := (0 <= x < 4294967296).

Record conn_ok (c : tcp_connection) : Prop := mk_conn_ok {
  co_rx : ring_ok (rx c); co_tx : ring_ok (tx c);
  co_ip : addr 4 (remote_ip (who c)); co_mac : addr 6 (remote_mac (who c));
  co_lport : 0 <= local_port (who c) < 65536; co_rport : 0 <= remote_port (who c) < 65536;
  co_nxt : word (snd_nxt (sq c)); co_rcv : word (rcv_nxt (sq c)); co_wnd : 0 <= rcv_wnd (sq c) <= 2048 }.

Record tcp_inv (s : net) : Prop := mk_tcp_inv {
  ti_link : link_inv (fst s);
  ti_length : length (tcp_connections (snd s)) = TCP_MAX_CONNECTIONS;
  ti_conns : Forall conn_ok (tcp_connections (snd s));
  ti_quarantine : length (tcp_port_quarantine (snd s)) = TCP_PORT_QUARANTINE_SLOTS;
  ti_rst : length (last_rst_time (snd s)) = TCP_MAX_CONNECTIONS;
  ti_fin : length (last_fin_time (snd s)) = TCP_MAX_CONNECTIONS;
  ti_key : length (isn_secret_key (snd s)) = 32%nat }.

(** Control block [i] becomes [c'], the lower layer may send. *)
Record step (i : nat) (c' : tcp_connection) (s s' : net) : Prop := mk_step {
  sp_inv : tcp_inv s'; sp_out : out_step (fst s) (fst s');
  sp_conns : tcp_connections (snd s') = <[i := c']> (tcp_connections (snd s));
  sp_quarantine : tcp_port_quarantine (snd s') = tcp_port_quarantine (snd s) }.

Notation conn_at s i c := (tcp_connections (snd s) !! i = Some c).

Section Steps.
Implicit Types (s : net) (c : tcp_connection) (i : nat).

Lemma step_trans i c1 c2 s1 s2 s3 : step i c1 s1 s2 -> step i c2 s2 s3 -> step i c2 s1 s3.
Proof.
  intros [_ O1 C1 Q1] [I O2 C2 Q2]. constructor; [done|by eapply out_step_trans| |congruence].
  by rewrite C2, C1, list_insert_insert_eq.
Qed.

Lemma step_refl i c s : tcp_inv s -> conn_at s i c -> step i c s s.
Proof. intros H Hc. constructor; [done|apply out_step_refl, H|by rewrite list_insert_id|done]. Qed.

Lemma step_at i c c' s s' : conn_at s i c -> step i c' s s' -> conn_at s' i c'.
Proof. intros Hc [_ _ E _]. rewrite E. apply list_lookup_insert_eq. by apply lookup_lt_Some in Hc. Qed.

Lemma conn_at_ok i c s : tcp_inv s -> conn_at s i c -> conn_ok c /\ (i < 8)%nat.
Proof.
  intros H Hc. split; [by apply (Forall_lookup_1 _ _ _ _ (ti_conns s H) Hc)|].
  apply lookup_lt_Some in Hc. by rewrite (ti_length s H) in Hc.
Qed.

Lemma conn_get_ok i c s (Q : tcp_connection -> net -> Prop) : conn_at s i c -> Q c s -> wp (conn_get i) Q s.
Proof.
  intros Hc HQ. unfold conn_get, gets_tcp. apply wp_bind, wp_gets. eapply wp_lift; [|exact HQ].
  apply aget_ok; [lia|]. by rewrite Nat2Z.id.
Qed.

Lemma conn_put_ok i c c' s (Q : unit -> net -> Prop) :
  tcp_inv s -> conn_at s i c -> conn_ok c' ->
  (forall s', step i c' s s' -> fst s' = fst s -> Q tt s') -> wp (conn_put i c') Q s.
Proof.
  intros H Hc Hok HQ. destruct (conn_at_ok i c s H Hc) as [_ Hi]. pose proof H as [].
  unfold conn_put, gets_tcp, on_tcp. apply wp_bind, wp_gets, wp_bind.
  eapply wp_lift; [apply aset_ok; rewrite ti_length0; unfold TCP_MAX_CONNECTIONS; lia|].
  rewrite Nat2Z.id. apply wp_modify, HQ; [|done]. constructor; simpl; try done.
  - constructor; simpl; try done; [by rewrite length_insert|by apply Forall_insert].
  - by apply out_step_refl.
Qed.

Lemma conn_upd_ok i c f s (Q : unit -> net -> Prop) :
  tcp_inv s -> conn_at s i c -> conn_ok (f c) ->
  (forall s', step i (f c) s s' -> fst s' = fst s -> Q tt s') -> wp (conn_upd i f) Q s.
Proof. intros H Hc Hok HQ. unfold conn_upd. apply wp_bind. eapply conn_get_ok; [exact Hc|]. by eapply conn_put_ok. Qed.

Lemma count_ok k i c s (Q : unit -> net -> Prop) :
  tcp_inv s -> conn_at s i c -> (forall s', step i c s s' -> fst s' = fst s -> Q tt s') -> wp (count k) Q s.
Proof.
  intros H Hc HQ. apply wp_modify, HQ; [|done]. constructor; simpl; [|apply out_step_refl, H|by rewrite list_insert_id|done].
  by destruct H.
Qed.


(** ** Sending a segment *)

Definition advance (c : tcp_connection) (flags : Z) (data : list Z) : Z :=
  snd_nxt (sq c) +32 (Z.of_nat (length data) + (if has flags TCP_SYN then 1 else 0) + (if has flags TCP_FIN then 1 else 0)).

Definition tcp_frame (l : link) (c : tcp_connection) (flags : Z) (data frame : list Z) : Prop :=
  ip_frame (remote_mac (who c)) (my_mac l) (my_ip l) (remote_ip (who c)) IPPROTO_TCP 0x4000
    (tcp_head c flags) ([0; 0] ++ data) frame.

Lemma put_snd_nxt_id c : put_snd_nxt (snd_nxt (sq c)) c = c.
Proof. by destruct c as [? ? ? [] ? ? ? ? ? ?]. Qed.

Lemma tcp_head_bytes c flags : conn_ok c -> byte flags -> bytes (tcp_head c flags) /\ length (tcp_head c flags) = 16%nat.
Proof.
  intros [Hrx _ _ _ Hl Hr Hn Hv _] Hf. pose proof (free_used _ Hrx) as Hfree. pose proof (used_range (rx c)).
  split; [|done]. unfold tcp_head. repeat (apply Forall_app; split);
    try apply net_bytes16_bytes; try apply net_bytes32_bytes; try lia. repeat constructor; lia.
Qed.

Lemma send_ok ticks i c flags data s (Q : unit -> net -> Prop) :
  tcp_inv s -> conn_at s i c -> byte flags -> bytes data -> Z.of_nat (length data) <= 1460 ->
  (forall s' frame, step i (put_snd_nxt (advance c flags data) c) s s' ->
     sent (fst s') = sent (fst s) ++ [frame] -> tcp_frame (fst s) c flags data frame ->
     tracked (filter (fst s')) (ip_word (my_ip (fst s))) (ip_word (remote_ip (who c)))
       (local_port (who c)) (remote_port (who c)) IPPROTO_TCP -> Q tt s') ->
  wp (tcp_send_segment ticks i flags data) Q s.
Proof.
  intros H Hc Hf Hd Hl HQ. destruct (conn_at_ok i c s H Hc) as [Hok Hi]. pose proof (ti_link s H) as Hli.
  destruct (tcp_head_bytes c flags Hok Hf) as [Hhb Hhl].
  unfold tcp_send_segment. apply wp_bind. eapply conn_get_ok; [exact Hc|].
  unfold MAX_TCP_PACKET_SIZE, sizeof_eth_header, sizeof_ip_header, sizeof_tcp_header.
  destruct (Z.ltb_spec 1514 (14 + (20 + (20 + Z.of_nat (length data))))); [lia|].
  apply wp_bind, lower_ok, wp_gets, wp_bind, lower_ok, wp_gets. rewrite <- !surjective_pairing.
  destruct (l4_segment_ok (my_ip (fst s)) (remote_ip (who c)) IPPROTO_TCP (tcp_head c flags) ([0; 0] ++ data) 0)
    as (seg & E1 & Hseg); [apply Hli|apply Hok|done|done|..|by left|].
  { apply Forall_app. split; [repeat constructor; lia|done]. }
  { by rewrite Hhl. }
  { rewrite Hhl, length_app. simpl. lia. }
  destruct (ip_header_ok (20 + (20 + Z.of_nat (length data))) 0x4000 IPPROTO_TCP (my_ip (fst s)) (remote_ip (who c)))
    as (h & E2 & Hh); [lia|done|done|apply Hli|apply Hok|].
  apply wp_bind. eapply wp_lift; [exact E1|]. apply wp_bind. eapply wp_lift; [exact E2|].
  apply wp_bind, lower_ok, track_send_ok; [done|by left|]. intros l' Ho Es Ht.
  set (s1 := (l', snd s)). assert (step i c s s1) as H1.
  { pose proof H as []. constructor; simpl; [constructor; try done; apply Ho|done|by rewrite list_insert_id|done]. }
  set (frame := eth_frame _ _ _ _) in Es.
  assert (tcp_frame (fst s) c flags data frame) as Hfr.
  { exists h, seg. split_and!; [done| |done]. destruct Hseg as (c0 & c1 & -> & _ & _).
    rewrite !length_app, Hhl. simpl length. by replace (Z.of_nat (16 + (2 + (2 + length data)))) with (20 + Z.of_nat (length data)) by lia. }
  cbv zeta. set (a := if Z.land flags TCP_SYN =? 0 then snd_nxt (sq c) +32 Z.of_nat (length data)
                      else (snd_nxt (sq c) +32 Z.of_nat (length data)) +32 1).
  set (nxt := if Z.land flags TCP_FIN =? 0 then a else a +32 1).
  assert (nxt = advance c flags data) as En.
  { unfold nxt, a, advance, has. destruct (Z.land flags TCP_SYN =? 0), (Z.land flags TCP_FIN =? 0);
      cbn [negb]; u_lia. }
  destruct ((0 <? Z.of_nat (length data)) || _) eqn:Eadv.
  - rewrite En. eapply conn_upd_ok; [apply H1|exact Hc| |].
    + destruct Hok. constructor; simpl; try done. apply u32_range.
    + intros s' H2 El. eapply HQ; [by eapply step_trans|rewrite El; exact Es|done|by rewrite El].
  - apply wp_ret. eapply HQ; [|exact Es|done..]. rewrite <- En. unfold nxt, a.
    apply orb_false_iff in Eadv as [E0 Efl]. apply negb_false_iff, Z.eqb_eq in Efl.
    assert (Z.of_nat (length data) = 0) as -> by lia.
    assert (Z.land flags TCP_SYN = 0 /\ Z.land flags TCP_FIN = 0) as [-> ->].
    { split; apply Z.bits_inj'; intros n Hn; apply (f_equal (fun z => Z.testbit z n)) in Efl;
        rewrite Z.land_spec, Z.lor_spec, Z.bits_0 in *; destruct (Z.testbit flags n); try done;
        simpl in *; by apply orb_false_iff in Efl as [? ?]. }
    rewrite Z.add_0_r, u32_small by apply Hok. simpl. by rewrite put_snd_nxt_id.
Qed.
End Steps.

(** * Segments *)

Definition in_window (seq expected window : Z) : Prop := seq = expected \/ seq -32 expected < window.

(** RFC 793, 3.4 and RFC 5961, 3.2. *)
Definition rst_acceptable (c : tcp_connection) (flags seq ack : Z) : Prop :=
  match state c with
  | TCP_CLOSED | TCP_LISTEN | TCP_SYN_RECEIVED => True
  | TCP_SYN_SENT => has flags TCP_ACK = true /\ ack = snd_nxt (sq c)
  | _ => in_window seq (rcv_nxt (sq c)) (rcv_wnd (sq c))
  end.

(** Our FIN, the last thing sent, is acknowledged. *)
Definition acks_all (c : tcp_connection) (flags ack : Z) : Prop := has flags TCP_ACK = true /\ ack = snd_nxt (sq c).
(** The FIN of the segment comes next in the stream, behind its data. *)
Definition fin_next (c : tcp_connection) (flags seq : Z) (len : nat) : Prop :=
  has flags TCP_FIN = true /\ seq +32 Z.of_nat len = rcv_nxt (sq c).

(** The edges a segment can take a connection along: state and use after it. *)
Inductive edge (c : tcp_connection) (flags seq ack : Z) (len : nat) : tcp_state -> bool -> Prop :=
| edge_stay : edge c flags seq ack len (state c) (in_use c)
| edge_reset : has flags TCP_RST = true -> rst_acceptable c flags seq ack -> edge c flags seq ack len TCP_CLOSED false
| edge_syn_ack : state c = TCP_SYN_SENT -> has flags TCP_SYN = true -> acks_all c flags ack ->
    edge c flags seq ack len TCP_ESTABLISHED (in_use c)
| edge_ack : state c = TCP_SYN_RECEIVED -> acks_all c flags ack -> edge c flags seq ack len TCP_ESTABLISHED (in_use c)
| edge_fin : state c = TCP_ESTABLISHED -> has flags TCP_FIN = true ->
    in_window seq (rcv_nxt (sq c)) (rcv_wnd (sq c)) -> edge c flags seq ack len TCP_CLOSE_WAIT (in_use c)
| edge_fin_acked : state c = TCP_FIN_WAIT_1 -> acks_all c flags ack -> edge c flags seq ack len TCP_FIN_WAIT_2 (in_use c)
| edge_both : state c = TCP_FIN_WAIT_1 -> acks_all c flags ack -> fin_next c flags seq len ->
    edge c flags seq ack len TCP_TIME_WAIT (in_use c)
| edge_simultaneous : state c = TCP_FIN_WAIT_1 -> fin_next c flags seq len -> edge c flags seq ack len TCP_CLOSING (in_use c)
| edge_peer_fin : state c = TCP_FIN_WAIT_2 -> fin_next c flags seq len -> edge c flags seq ack len TCP_TIME_WAIT (in_use c)
| edge_closing : state c = TCP_CLOSING -> acks_all c flags ack -> edge c flags seq ack len TCP_TIME_WAIT (in_use c)
| edge_last_ack : state c = TCP_LAST_ACK -> acks_all c flags ack -> edge c flags seq ack len TCP_CLOSED false.

(** What a segment does to a connection. *)
Record effect (c : tcp_connection) (flags seq ack : Z) (data : list Z) (c' : tcp_connection) : Prop := mk_effect {
  ef_ok : conn_ok c';
  ef_who : who c' = who c; ef_own : own c' = own c; ef_tx : tx c' = tx c; ef_fin : fin_sent c' = fin_sent c;
  ef_nxt : snd_nxt (sq c') = snd_nxt (sq c);
  ef_edge : edge c flags seq ack (length data) (state c') (in_use c');
  ef_data : content (rx c') = content (rx c) /\ (state c = TCP_ESTABLISHED -> state c' = TCP_ESTABLISHED ->
              rcv_nxt (sq c') = rcv_nxt (sq c)) \/
            state c = TCP_ESTABLISHED /\ seq = rcv_nxt (sq c) /\ content (rx c') = content (rx c) ++ data /\
            (state c' = TCP_ESTABLISHED -> rcv_nxt (sq c') = rcv_nxt (sq c) +32 Z.of_nat (length data));
  ef_irs : state c = TCP_SYN_SENT -> state c' = TCP_ESTABLISHED -> rcv_nxt (sq c') = seq +32 1 }.

Ltac cok :=
  match goal with
  | H : conn_ok ?c |- conn_ok _ => destruct H; constructor; simpl; auto using u32_range; try done; try lia
  end.

Lemma has_both flags a b : Z.land flags (Z.lor a b) = Z.lor a b -> a <> 0 -> b <> 0 ->
  has flags a = true /\ has flags b = true.
Proof.
  intros E Ha Hb. unfold has.
  assert (Z.land flags a = a /\ Z.land flags b = b) as [-> ->].
  { split; apply Z.bits_inj'; intros n Hn; apply (f_equal (fun z => Z.testbit z n)) in E;
      rewrite !Z.land_spec, !Z.lor_spec in *; destruct (Z.testbit flags n), (Z.testbit a n), (Z.testbit b n); done. }
  by destruct (Z.eqb_spec a 0), (Z.eqb_spec b 0).
Qed.

Lemma is_state_true st st' : is_state st st' = true <-> st = st'.
Proof. apply bool_decide_eq_true. Qed.

(** All of an [effect] but its edge. *)
Ltac effect_of :=
  constructor; simpl; try done; [cok| |left; split; [done|congruence]|..]; try congruence.

Section Segments.
Context (ticks : Z) (i : nat).
Implicit Types (s : net) (c : tcp_connection) (Q : unit -> net -> Prop).
Notation now := (tcp_get_time_ms ticks).

Lemma ack_ok c s Q : tcp_inv s -> conn_at s i c ->
  (forall s' frame, step i c s s' -> sent (fst s') = sent (fst s) ++ [frame] -> Q tt s') ->
  wp (tcp_send_segment ticks i TCP_ACK []) Q s.
Proof.
  intros H Hc HQ. destruct (conn_at_ok i c s H Hc) as [Hok _].
  eapply send_ok; [done|exact Hc|done|constructor|simpl; lia|]. intros s' frame Hst Hs _ _.
  apply (HQ s' frame); [|done]. replace (advance c TCP_ACK []) with (snd_nxt (sq c)) in Hst; [by rewrite put_snd_nxt_id in Hst|].
  unfold advance. simpl. rewrite Z.add_0_r, u32_small by apply Hok. done.
Qed.

Lemma effect_stay c flags seq ack data : conn_ok c -> effect c flags seq ack data c.
Proof. intros Hok. constructor; try done; [constructor|by left|congruence]. Qed.

(** The rate limiters. *)
Lemma fast_ok (m : M net bool) c s (Q : bool -> net -> Prop) :
  (m = rst_too_fast ticks i \/ m = fin_too_fast ticks i) ->
  tcp_inv s -> conn_at s i c -> (forall b s', step i c s s' -> fst s' = fst s -> Q b s') -> wp m Q s.
Proof.
  intros Hm H Hc HQ. destruct (conn_at_ok i c s H Hc) as [Hok Hi]. pose proof H as [].
  assert (forall t', tcp_connections t' = tcp_connections (snd s) -> tcp_port_quarantine t' = tcp_port_quarantine (snd s) ->
    length (last_rst_time t') = 8%nat -> length (last_fin_time t') = 8%nat -> isn_secret_key t' = isn_secret_key (snd s) ->
    step i c s (fst s, t')) as Hst.
  { intros t' E1 E2 E3 E4 E5. constructor; simpl; [constructor; simpl; rewrite ?E1, ?E2, ?E5; done|by apply out_step_refl|by rewrite E1, list_insert_id|done]. }
  destruct Hm as [-> | ->]; unfold rst_too_fast, fin_too_fast, gets_tcp, on_tcp; apply wp_bind, wp_gets, wp_bind.
  - destruct (aget_range (last_rst_time (snd s)) (Z.of_nat i)) as (x & _ & E); [rewrite ti_rst0; unfold TCP_MAX_CONNECTIONS; lia|].
    eapply wp_lift; [exact E|]. destruct (_ <? _); [apply wp_ret, HQ; [by apply step_refl|done]|].
    apply wp_bind. eapply wp_lift; [apply aset_ok; rewrite ti_rst0; unfold TCP_MAX_CONNECTIONS; lia|].
    apply wp_bind, wp_modify, wp_ret, HQ; [|done]. apply Hst; simpl; try done. by rewrite length_insert.
  - destruct (aget_range (last_fin_time (snd s)) (Z.of_nat i)) as (x & _ & E); [rewrite ti_fin0; unfold TCP_MAX_CONNECTIONS; lia|].
    eapply wp_lift; [exact E|]. destruct (_ <? _); [apply wp_ret, HQ; [by apply step_refl|done]|].
    apply wp_bind. eapply wp_lift; [apply aset_ok; rewrite ti_fin0; unfold TCP_MAX_CONNECTIONS; lia|].
    apply wp_bind, wp_modify, wp_ret, HQ; [|done]. apply Hst; simpl; try done. by rewrite length_insert.
Qed.

Lemma validate_ok seq expected window : tcp_validate_sequence seq expected window = true -> in_window seq expected window.
Proof. unfold tcp_validate_sequence, in_window. destruct (Z.eqb_spec seq expected); [by left|right; lia]. Qed.
Lemma validate_refused seq expected window : tcp_validate_sequence seq expected window = false -> ~ in_window seq expected window.
Proof. unfold tcp_validate_sequence, in_window. destruct (Z.eqb_spec seq expected); [done|]. lia. Qed.

Lemma process_rst_ok c flags seq ack data s Q : tcp_inv s -> conn_at s i c -> has flags TCP_RST = true ->
  (forall s' c', step i c' s s' -> effect c flags seq ack data c' -> Q tt s') ->
  wp (process_rst ticks i flags seq ack) Q s.
Proof.
  intros H Hc Hrst HQ. destruct (conn_at_ok i c s H Hc) as [Hok Hi].
  assert (effect c flags seq ack data c) as Hstay by by apply effect_stay.
  unfold process_rst. apply wp_bind, (fast_ok _ c); [by left|done..|]. intros fast s1 H1 _.
  assert (conn_at s1 i c) as Hc1 by by eapply step_at.
  assert (forall k, wp (count k) Q s1) as Hdrop.
  { intros k. eapply count_ok; [apply H1|done|]. intros s2 H2 _. eapply HQ; [by eapply step_trans|done]. }
  destruct fast; [apply Hdrop|]. apply wp_bind. eapply conn_get_ok; [exact Hc1|].
  destruct ((state_num TCP_ESTABLISHED <=? state_num (state c)) && _) eqn:E1; [apply Hdrop|].
  destruct (is_state (state c) TCP_SYN_SENT && _) eqn:E2; [apply Hdrop|].
  apply wp_bind. eapply count_ok; [apply H1|done|]. intros s2 H2 _.
  assert (conn_at s2 i c) as Hc2 by by eapply step_at.
  eapply conn_upd_ok; [apply H2|done|cok|]. intros s3 H3 _. eapply HQ; [eapply step_trans; [exact H1|by eapply step_trans]|].
  constructor; simpl; try done; [cok| |by left].
  apply edge_reset; [done|]. unfold rst_acceptable, is_state in *. unfold state_num in E1.
  destruct (state c); try done; simpl in E1, E2;
    try (apply negb_false_iff in E1; by apply validate_ok).
  apply orb_false_iff in E2 as [E2 E3]. apply negb_false_iff in E2. apply negb_false_iff, Z.eqb_eq in E3. done.
Qed.
Lemma syn_sent_ok c flags seq ack window data s Q : tcp_inv s -> conn_at s i c -> state c = TCP_SYN_SENT ->
  (forall s' c', step i c' s s' -> effect c flags seq ack data c' -> Q tt s') ->
  wp (process_syn_sent ticks i flags seq ack window) Q s.
Proof.
  intros H Hc Hst HQ. destruct (conn_at_ok i c s H Hc) as [Hok Hi].
  unfold process_syn_sent. apply wp_bind. eapply conn_get_ok; [exact Hc|].
  destruct (Z.eqb_spec (Z.land flags (Z.lor TCP_SYN TCP_ACK)) (Z.lor TCP_SYN TCP_ACK)) as [Ef|], (Z.eqb_spec ack (snd_nxt (sq c))) as [Ea|];
    try (apply wp_ret; eapply HQ; [by apply step_refl|by apply effect_stay]).
  cbn [andb]. apply wp_bind. eapply conn_put_ok; [done|exact Hc|cok|]. intros s1 H1 _.
  eapply ack_ok; [apply H1|by eapply step_at|]. intros s2 frame H2 _. eapply HQ; [by eapply step_trans|].
  apply has_both in Ef as [Hsyn Hack]; [|done..].
  effect_of. by apply edge_syn_ack.
Qed.

Lemma syn_received_ok c flags seq ack window data s Q : tcp_inv s -> conn_at s i c -> state c = TCP_SYN_RECEIVED ->
  (forall s' c', step i c' s s' -> effect c flags seq ack data c' -> Q tt s') ->
  wp (process_syn_received i flags ack window) Q s.
Proof.
  intros H Hc Hst HQ. destruct (conn_at_ok i c s H Hc) as [Hok Hi].
  unfold process_syn_received. apply wp_bind. eapply conn_get_ok; [exact Hc|].
  destruct (has flags TCP_ACK) eqn:Ef, (Z.eqb_spec ack (snd_nxt (sq c))) as [Ea|];
    try (apply wp_ret; eapply HQ; [by apply step_refl|by apply effect_stay]).
  cbn [andb]. eapply conn_put_ok; [done|exact Hc|cok|]. intros s1 H1 _. eapply HQ; [done|].
  effect_of. by apply edge_ack.
Qed.

(** The data part: everything but the window fields. *)
Record data_effect c seq data c' (stop : bool) : Prop := mk_data_effect {
  de_ok : conn_ok c'; de_state : state c' = state c; de_use : in_use c' = in_use c;
  de_who : who c' = who c; de_own : own c' = own c; de_tx : tx c' = tx c; de_fin : fin_sent c' = fin_sent c;
  de_snd : snd_nxt (sq c') = snd_nxt (sq c);
  de_data : content (rx c') = content (rx c) /\ rcv_nxt (sq c') = rcv_nxt (sq c) \/
            seq = rcv_nxt (sq c) /\ content (rx c') = content (rx c) ++ data /\
            rcv_nxt (sq c') = rcv_nxt (sq c) +32 Z.of_nat (length data) }.

Lemma process_data_ok c seq data s (Q : bool -> net -> Prop) : tcp_inv s -> conn_at s i c -> bytes data ->
  (forall b s' c', step i c' s s' -> data_effect c seq data c' b -> Q b s') ->
  wp (process_data ticks i seq data) Q s.
Proof.
  intros H Hc Hd HQ. destruct (conn_at_ok i c s H Hc) as [Hok Hi]. pose proof (co_rx c Hok) as Hrx.
  unfold process_data. apply wp_bind. eapply conn_get_ok; [exact Hc|].
  destruct ((0 <? Z.of_nat (length data)) && (seq =? rcv_nxt (sq c))) eqn:E.
  2: { apply wp_ret. eapply HQ; [by apply step_refl|]. constructor; try done. by left. }
  apply andb_true_iff in E as [_ Eseq]. apply Z.eqb_eq in Eseq.
  destruct (Z.ltb_spec (ring_free (rx c)) (Z.of_nat (length data))) as [Hfull|Hfit].
  - apply wp_bind. eapply count_ok; [done|exact Hc|]. intros s1 H1 _.
    assert (conn_at s1 i c) as Hc1 by by eapply step_at.
    apply wp_bind. eapply conn_put_ok; [apply H1|exact Hc1|cok|]. intros s2 H2 _.
    apply wp_bind. eapply ack_ok; [apply H2|by eapply step_at|]. intros s3 frame H3 _. apply wp_ret.
    eapply HQ; [eapply step_trans; [exact H1|by eapply step_trans]|].
    constructor; simpl; try done; [cok|by left].
  - rewrite free_used in Hfit by done. destruct (ring_put_ok data (rx c) Hrx Hd Hfit) as (r & Er & Hr & Ec).
    apply wp_bind. eapply wp_lift; [exact Er|].
    assert (0 <= ring_free r <= 2048) as Hfr by (rewrite free_used by done; pose proof (used_range r); lia).
    apply wp_bind. eapply conn_put_ok; [done|exact Hc|cok|]. intros s1 H1 _.
    apply wp_bind. eapply ack_ok; [apply H1|by eapply step_at|]. intros s2 frame H2 _. apply wp_ret.
    eapply HQ; [by eapply step_trans|]. constructor; simpl; try done; [cok|by right].
Qed.

Lemma established_ok c flags seq ack window data s Q :
  tcp_inv s -> conn_at s i c -> state c = TCP_ESTABLISHED -> bytes data ->
  (forall s' c', step i c' s s' -> effect c flags seq ack data c' -> Q tt s') ->
  wp (process_established ticks i flags seq ack window data) Q s.
Proof.
  intros H Hc Hst Hd HQ. destruct (conn_at_ok i c s H Hc) as [Hok Hi].
  unfold process_established. apply wp_bind. eapply conn_get_ok; [exact Hc|].
  destruct (tcp_validate_sequence seq (rcv_nxt (sq c)) (rcv_wnd (sq c))) eqn:Ev; cbn [negb].
  2: { apply wp_bind. eapply count_ok; [done|exact Hc|]. intros s1 H1 _. eapply ack_ok; [apply H1|by eapply step_at|].
       intros s2 frame H2 _. eapply HQ; [by eapply step_trans|by apply effect_stay]. }
  apply validate_ok in Ev. apply wp_bind.
  set (c1 := if has flags TCP_ACK && TCP_SEQ_GT ack (snd_una (sq c)) && TCP_SEQ_LEQ ack (snd_nxt (sq c))
             then put_snd ack (snd_nxt (sq c)) window c else c).
  assert (wp (if has flags TCP_ACK && TCP_SEQ_GT ack (snd_una (sq c)) && TCP_SEQ_LEQ ack (snd_nxt (sq c))
              then conn_put i (put_snd ack (snd_nxt (sq c)) window c) else ret tt) (fun _ s1 => step i c1 s s1) s) as Hack.
  { unfold c1. destruct (_ && _ && _); [eapply conn_put_ok; [done|exact Hc|cok|done]|by apply wp_ret, step_refl]. }
  assert (state c1 = state c /\ in_use c1 = in_use c /\ who c1 = who c /\ own c1 = own c /\ tx c1 = tx c /\ rx c1 = rx c /\
    fin_sent c1 = fin_sent c /\ snd_nxt (sq c1) = snd_nxt (sq c) /\ rcv_nxt (sq c1) = rcv_nxt (sq c)) as (F1 & F2 & F3 & F4 & F5 & F6 & F7 & F8 & F9).
  { unfold c1. by destruct (_ && _ && _). }
  clearbody c1. eapply wp_mono; [exact Hack|]. intros [] s1 H1. assert (conn_at s1 i c1) as Hc1 by by eapply step_at.
  apply wp_bind, (process_data_ok c1); [apply H1|done..|]. intros stop s2 c2 H2 D.
  assert (step i c2 s s2) as H12 by by eapply step_trans.
  assert (effect c flags seq ack data c2) as Heff2.
  { destruct D as [D1 D2 D3 D4 D5 D6 D7 D8 D9]. constructor; try congruence.
    - rewrite D2, F1, D3, F2. apply edge_stay.
    - rewrite F6, F9 in D9. destruct D9 as [[E1 E2]|(E1 & E2 & E3)]; [by left|right]. by rewrite Hst. }
  destruct stop; [by apply wp_ret; eapply HQ|]. assert (conn_at s2 i c2) as Hc2 by by eapply step_at.
  apply wp_bind. eapply conn_get_ok; [exact Hc2|].
  destruct (has flags TCP_FIN && tcp_fin_in_order c2 seq (length data)) eqn:Efin.
  2: { apply wp_ret. by eapply HQ. }
  apply andb_true_iff in Efin as [Efl _]. apply wp_bind, (fast_ok _ c2); [by right|apply H2|done|]. intros fast s3 H3 _.
  assert (conn_at s3 i c2) as Hc3 by by eapply step_at. destruct fast.
  { eapply count_ok; [apply H3|done|]. intros s4 H4 _. eapply HQ; [|done].
    eapply step_trans; [exact H12|by eapply step_trans]. }
  pose proof (ef_ok _ _ _ _ _ _ Heff2) as Hok2.
  apply wp_bind. eapply conn_upd_ok; [apply H3|exact Hc3|cok|]. intros s4 H4 _.
  eapply ack_ok; [apply H4|by eapply step_at|]. intros s5 frame H5 _.
  eapply HQ; [eapply step_trans; [exact H12|eapply step_trans; [exact H3|by eapply step_trans]]|].
  destruct D as [D1 D2 D3 D4 D5 D6 D7 D8 D9].
  constructor; simpl; try congruence.
  - cok.
  - rewrite D3, F2. by apply edge_fin.
  - rewrite F6, F9 in D9. destruct D9 as [[E1 E2]|(E1 & E2 & E3)]; [by left|right]. rewrite Hst. split_and!; done.
Qed.

Lemma peer_fin_ok c flags seq len s Q : tcp_inv s -> conn_at s i c ->
  (forall s' c', step i c' s s' ->
     (c' = c \/ fin_next c flags seq len /\
        exists c1, c1 = put_fin (fin_sent c) true (put_rcv_nxt (rcv_nxt (sq c) +32 1) c) /\
        c' = if is_state (state c) TCP_FIN_WAIT_2 then put_time_wait now (put_state TCP_TIME_WAIT c1)
             else put_state TCP_CLOSING c1) -> Q tt s') ->
  wp (process_peer_fin ticks i flags seq len) Q s.
Proof.
  intros H Hc HQ. destruct (conn_at_ok i c s H Hc) as [Hok Hi].
  unfold process_peer_fin. apply wp_bind. eapply conn_get_ok; [exact Hc|].
  destruct (has flags TCP_FIN && tcp_fin_in_order c seq len) eqn:E.
  2: { apply wp_ret. eapply HQ; [by apply step_refl|by left]. }
  apply andb_true_iff in E as [E1 E2]. apply Z.eqb_eq in E2. cbv zeta. cbn [state put_fin put_rcv_nxt put_rcv put_sq].
  apply wp_bind. eapply conn_put_ok; [done|exact Hc|destruct (is_state (state c) TCP_FIN_WAIT_2); cok|]. intros s1 H1 _.
  eapply ack_ok; [apply H1|by eapply step_at|]. intros s2 frame H2 _. eapply HQ; [by eapply step_trans|].
  right. split; [done|]. eexists. split; [reflexivity|done].
Qed.

Lemma fin_wait_1_ok c flags seq ack data s Q : tcp_inv s -> conn_at s i c -> state c = TCP_FIN_WAIT_1 ->
  (forall s' c', step i c' s s' -> effect c flags seq ack data c' -> Q tt s') ->
  wp (process_fin_wait_1 ticks i flags seq ack (length data)) Q s.
Proof.
  intros H Hc Hst HQ. destruct (conn_at_ok i c s H Hc) as [Hok Hi].
  unfold process_fin_wait_1. apply wp_bind. eapply conn_get_ok; [exact Hc|]. apply wp_bind.
  destruct (has flags TCP_ACK && (ack =? snd_nxt (sq c))) eqn:Ea.
  - apply andb_true_iff in Ea as [Ea1 Ea2]. apply Z.eqb_eq in Ea2.
    eapply conn_put_ok; [done|exact Hc|cok|]. intros s1 H1 _.
    eapply peer_fin_ok; [apply H1|by eapply step_at|]. intros s2 c' H2 Hc'. eapply HQ; [by eapply step_trans|].
    destruct Hc' as [->|[[F1 F2] (c1 & -> & ->)]]; simpl in *; effect_of.
    + by apply edge_fin_acked.
    + by apply edge_both.
  - apply wp_ret. eapply peer_fin_ok; [done|exact Hc|]. intros s2 c' H2 Hc'. eapply HQ; [done|].
    destruct Hc' as [->|[F (c1 & -> & ->)]]; [by apply effect_stay|]. rewrite Hst. simpl.
    effect_of. by apply edge_simultaneous.
Qed.

Lemma process_segment_ok c flags seq ack window data s Q : tcp_inv s -> conn_at s i c -> bytes data ->
  (forall s' c', step i c' s s' -> effect c flags seq ack data c' -> Q tt s') ->
  wp (tcp_process_segment ticks i flags seq ack window data) Q s.
Proof.
  intros H Hc Hd HQ. unfold tcp_process_segment.
  destruct (has flags TCP_RST) eqn:Er; [by eapply process_rst_ok|].
  apply wp_bind. eapply conn_get_ok; [exact Hc|]. apply wp_bind.
  apply (wp_mono _ (fun _ s1 => step i c s s1)).
  { destruct (_ && _); [eapply count_ok; [done|exact Hc|]; by intros|by apply wp_ret, step_refl]. }
  intros [] s1 H1. assert (conn_at s1 i c) as Hc1 by by eapply step_at. destruct (conn_at_ok i c s H Hc) as [Hok Hi].
  assert (forall s' c', step i c' s1 s' -> effect c flags seq ack data c' -> Q tt s') as HQ1.
  { intros s' c' H' He. eapply HQ; [by eapply step_trans|done]. }
  assert (Q tt s1) as Hstay by (eapply HQ; [done|by apply effect_stay]).
  pose proof (sp_inv _ _ _ _ H1) as I1.
  destruct (state c) eqn:Est; try (by apply wp_ret).
  - by eapply syn_sent_ok.
  - by eapply syn_received_ok.
  - by eapply established_ok.
  - by eapply fin_wait_1_ok.
  - eapply peer_fin_ok; [done|exact Hc1|]. intros s' c' H' Hc'. eapply HQ1; [done|].
    destruct Hc' as [->|[F (c1 & -> & ->)]]; [by apply effect_stay|]. rewrite Est. simpl.
    effect_of. by apply edge_peer_fin.
  - destruct (has flags TCP_ACK) eqn:Ea; [|by apply wp_ret].
    eapply conn_put_ok; [done|exact Hc1|cok|]. intros s' H' _. eapply HQ1; [done|].
    effect_of. apply edge_stay.
  - destruct (has flags TCP_ACK && _) eqn:Ea; [|by apply wp_ret]. apply andb_true_iff in Ea as [Ea1 Ea2].
    apply Z.eqb_eq in Ea2. eapply conn_put_ok; [done|exact Hc1|cok|]. intros s' H' _. eapply HQ1; [done|].
    effect_of. by apply edge_closing.
  - destruct (has flags TCP_ACK && _) eqn:Ea; [|by apply wp_ret]. apply andb_true_iff in Ea as [Ea1 Ea2].
    apply Z.eqb_eq in Ea2. eapply conn_put_ok; [done|exact Hc1|cok|]. intros s' H' _. eapply HQ1; [done|].
    effect_of. by apply edge_last_ack.
Qed.
End Segments.

(** ** Whole packets *)

Section Packets.
Context (ticks : Z).
Implicit Types (s : net) (c : tcp_connection).

(** Only counters change. *)
Record quiet s s' : Prop := mk_quiet {
  q_inv : tcp_inv s'; q_link : fst s' = fst s; q_conns : tcp_connections (snd s') = tcp_connections (snd s);
  q_quarantine : tcp_port_quarantine (snd s') = tcp_port_quarantine (snd s) }.

Lemma quiet_refl s : tcp_inv s -> quiet s s.
Proof. by constructor. Qed.
Lemma count_quiet k s (Q : unit -> net -> Prop) : tcp_inv s -> (forall s', quiet s s' -> Q tt s') -> wp (count k) Q s.
Proof. intros H HQ. apply wp_modify, HQ. constructor; simpl; try done. by destruct H. Qed.

(** The header of a segment and its payload. *)
Definition offset_of (seg : list Z) : Z := at8 seg tcp_offset_reserved / 16 * 4.
Definition payload (seg : list Z) : list Z := drop (Z.to_nat (offset_of seg)) seg.
Definition well_formed (seg : list Z) : Prop := 20 <= offset_of seg <= Z.of_nat (length seg).

(** What a packet does: nothing but counting, or one segment for the connection
    it belongs to. *)
Definition handled (src seg : list Z) (s s' : net) : Prop :=
  match tcp_find_connection src (be16 seg l4_src_port) (be16 seg l4_dest_port) (snd s) with
  | Some i =>
      exists c c', conn_at s i c /\ step i c' s s' /\
        effect c (at8 seg tcp_flags) (be32 seg tcp_sequence_number) (be32 seg tcp_acknowledgement_number) (payload seg) c'
  | None => quiet s s'
  end.

(** A packet taken apart. *)
Lemma packet_cases src seg s (Q : unit -> net -> Prop) :
  tcp_inv s -> bytes seg ->
  (~ well_formed seg -> forall s', quiet s s' -> Q tt s') ->
  (well_formed seg ->
   match tcp_find_connection src (be16 seg l4_src_port) (be16 seg l4_dest_port) (snd s) with
   | Some i => wp (tcp_process_segment ticks i (at8 seg tcp_flags) (be32 seg tcp_sequence_number)
                     (be32 seg tcp_acknowledgement_number) (be16 seg tcp_window_size) (payload seg)) Q s
   | None => forall s', quiet s s' -> Q tt s'
   end) ->
  wp (tcp_handle_packet ticks src seg) Q s.
Proof.
  intros H Hb Hbad HQ. unfold tcp_handle_packet, payload, well_formed, offset_of, sizeof_tcp_header in *.
  destruct (Z.ltb_spec (Z.of_nat (length seg)) 20).
  { apply wp_ret, Hbad; [lia|by apply quiet_refl]. }
  apply wp_bind, net16_ok; [done|unfold l4_src_port; lia..|]. apply wp_bind, net16_ok; [done|unfold l4_dest_port; lia..|].
  apply wp_bind, load8_ok; [unfold tcp_offset_reserved; lia|]. pose proof (at8_byte seg tcp_offset_reserved Hb) as Ho.
  rewrite Z.shiftr_div_pow2 by lia. change (2 ^ 4) with 16. set (w := at8 seg tcp_offset_reserved / 16) in *.
  assert (0 <= w < 16) as Hw by (unfold w; Z.to_euclidean_division_equations; lia).
  rewrite u8_small by lia. cbv zeta.
  destruct (Z.ltb_spec w 5), (Z.ltb_spec 15 w); cbn [orb];
    try (apply count_quiet; [done|]; intros s' Hq; apply Hbad; [lia|done]); [].
  destruct (Z.ltb_spec (Z.of_nat (length seg)) (w * 4)).
  { apply count_quiet; [done|]. intros s' Hq. apply Hbad; [lia|done]. }
  apply wp_bind, wp_gets. specialize (HQ ltac:(lia)).
  destruct (tcp_find_connection _ _ _ _) as [i|]; [|by apply count_quiet].
  apply wp_bind, load8_ok; [unfold tcp_flags; lia|].
  do 2 (apply wp_bind, net32_ok; [done|unfold tcp_sequence_number, tcp_acknowledgement_number; lia..|]).
  by apply wp_bind, net16_ok; [done|unfold tcp_window_size; lia..|].
Qed.

Lemma handle_packet_ok src seg s (Q : unit -> net -> Prop) :
  tcp_inv s -> bytes seg ->
  (forall s', ~ well_formed seg -> quiet s s' -> Q tt s') ->
  (forall s', well_formed seg -> handled src seg s s' -> Q tt s') ->
  wp (tcp_handle_packet ticks src seg) Q s.
Proof.
  intros H Hb Hbad HQ. apply packet_cases; [done..|by eauto|]. intros Hwf. specialize (fun s' => HQ s' Hwf).
  unfold handled in HQ. destruct (tcp_find_connection _ _ _ _) as [i|] eqn:Ei; [|done].
  unfold tcp_find_connection in Ei. apply index_of_Some in Ei as (c & Hc & _).
  eapply process_segment_ok; [done|exact Hc|by apply Forall_drop|]. intros s' c' Hst He. apply HQ. eauto.
Qed.

Lemma handled_inv src seg s s' : handled src seg s s' -> tcp_inv s'.
Proof. unfold handled. destruct (tcp_find_connection _ _ _ _); [intros (? & ? & _ & [] & _)|intros []]; done. Qed.
End Packets.

End TcpInv.
