(* ===== verification/TcpCalls.v ===== *)
(** What the socket calls and the timers of the TCP stack do. *)
From Stdlib Require Import ZArith Lia List Bool.
From stdpp Require Import base tactics numbers list.
From S2P Require Import Prelude NetHdr Checksum Firewall Link Sha256 Tcp TcpInv.
Open Scope Z_scope.

Module TcpCalls.
Import NetHdr Link Tcp TcpInv.

(** What calls and timers leave alone: the peer, the received bytes and the
    place in the stream of the peer; the state only moves towards the end. *)
Definition ending (st : tcp_state) : bool :=
  match st with TCP_LISTEN | TCP_SYN_SENT | TCP_SYN_RECEIVED | TCP_ESTABLISHED => false | _ => true end.
Record calm (c c' : tcp_connection) : Prop := mk_calm {
  cm_ok : conn_ok c'; cm_who : who c' = who c; cm_rx : rx c' = rx c; cm_rcv : rcv_nxt (sq c') = rcv_nxt (sq c);
  cm_state : state c' = state c \/ ending (state c') = true }.

Lemma calm_refl c : conn_ok c -> calm c c.
Proof. intros H. constructor; auto. Qed.
Lemma calm_trans c1 c2 c3 : calm c1 c2 -> calm c2 c3 -> calm c1 c3.
Proof. intros [? ? ? ? [E1|E1]] [? ? ? ? [E2|E2]]; constructor; try congruence; rewrite ?E2; auto. Qed.

(** Decides which of two states is which. *)
Ltac states :=
  repeat match goal with
  | |- context [is_state ?a ?b] =>
      let v := eval vm_compute in (is_state a b) in
      match v with true => idtac | false => idtac end; change (is_state a b) with v
  end; cbn [andb orb].

Ltac calmly := match goal with H : conn_ok ?c |- calm _ _ => constructor; simpl; auto; cok end.

Section Calls.
Context (ticks : Z).
Implicit Types (s : net) (c : tcp_connection) (i : nat).

(** A segment of our own, with what it does to the control block. *)
Lemma segment_ok i c flags data s (Q : unit -> net -> Prop) :
  tcp_inv s -> conn_at s i c -> byte flags -> bytes data -> Z.of_nat (length data) <= 1460 ->
  (forall s', step i (put_snd_nxt (advance c flags data) c) s s' -> Q tt s') ->
  wp (tcp_send_segment ticks i flags data) Q s.
Proof. intros H Hc Hf Hd Hl HQ. eapply send_ok; [done..|]. intros s' frame Hst _ _ _. by apply HQ. Qed.

Lemma in_range_at sockfd s : tcp_inv s -> in_range sockfd = true ->
  exists c, conn_at s (Z.to_nat sockfd) c /\ conn_ok c /\ tcp_connections (snd s) !!! Z.to_nat sockfd = c.
Proof.
  intros H Hr. unfold in_range in Hr. change (Z.of_nat TCP_MAX_CONNECTIONS) with 8 in Hr.
  destruct (lookup_lt_is_Some_2 (tcp_connections (snd s)) (Z.to_nat sockfd)) as [c Hc].
  { rewrite (ti_length s H). unfold TCP_MAX_CONNECTIONS. lia. }
  exists c. split_and!; [done|by eapply conn_at_ok|by apply list_lookup_total_correct].
Qed.

(** ** Reading *)

(** [n] bytes are taken from the front of the buffer. *)
Record read (c : tcp_connection) (n : nat) (c' : tcp_connection) : Prop := mk_read {
  rd_ok : conn_ok c'; rd_rx : content (rx c') = drop n (content (rx c)); rd_state : state c' = state c;
  rd_who : who c' = who c; rd_rcv : rcv_nxt (sq c') = rcv_nxt (sq c); rd_nxt : snd_nxt (sq c') = snd_nxt (sq c);
  rd_tx : tx c' = tx c; rd_use : in_use c' = in_use c; rd_own : own c' = own c }.

Lemma read_0 c : conn_ok c -> read c 0 c.
Proof. by constructor. Qed.

Definition readable (c : tcp_connection) : bool := in_use c && negb (is_state (state c) TCP_CLOSED).
Definition recv_result (c : tcp_connection) (len : Z) : Z * list Z :=
  if readable c then let bs := take (Z.to_nat len) (content (rx c)) in (Z.of_nat (length bs), bs) else (-1, []).

Lemma recv_ok sockfd len c s (Q : Z * list Z -> net -> Prop) :
  tcp_inv s -> in_range sockfd = true -> conn_at s (Z.to_nat sockfd) c -> 0 <= len ->
  (forall s' c', step (Z.to_nat sockfd) c' s s' -> read c (length (snd (recv_result c len))) c' ->
     Q (recv_result c len) s') ->
  wp (tcp_recv ticks sockfd len) Q s.
Proof.
  intros H Hr Hc Hl HQ. destruct (conn_at_ok _ c s H Hc) as [Hok _]. pose proof (co_rx c Hok) as Hrx.
  unfold tcp_recv. rewrite Hr. cbn [negb]. apply wp_bind. eapply conn_get_ok; [exact Hc|].
  unfold recv_result, readable in HQ. pose proof (content_length (rx c)) as Hlen. pose proof (used_range (rx c)) as Hu.
  destruct (in_use c), (is_state (state c) TCP_CLOSED); cbn [negb andb orb] in *;
    try (apply wp_ret; eapply HQ; [by apply step_refl|by apply read_0]).
  rewrite available_used by done. destruct (Z.eqb_spec (used (rx c)) 0) as [E0|].
  { assert (content (rx c) = []) as E by (apply length_zero_iff_nil; lia). rewrite E, take_nil in HQ.
    apply wp_ret. eapply HQ; [by apply step_refl|by apply read_0]. }
  cbv zeta. set (k := if len <? used (rx c) then len else used (rx c)).
  assert (0 <= k <= used (rx c)) as Hk by (unfold k; destruct (Z.ltb_spec len (used (rx c))); lia).
  assert (take (Z.to_nat len) (content (rx c)) = take (Z.to_nat k) (content (rx c))) as Et.
  { unfold k. destruct (Z.ltb_spec len (used (rx c))); [done|]. rewrite !take_ge; [done|lia..]. }
  rewrite Et in HQ. cbv zeta in HQ. cbn [snd] in HQ. rewrite length_take_le in HQ by lia. rewrite Z2Nat.id in HQ by lia.
  destruct (ring_get_ok (Z.to_nat k) (rx c) Hrx ltac:(lia)) as (r & Eg & Hrok & Ec).
  apply wp_bind. eapply wp_lift; [exact Eg|]. cbn [fst snd].
  assert (0 <= ring_free r <= 2048) as Hfr by (rewrite free_used by done; pose proof (used_range r); lia).
  apply wp_bind. eapply conn_put_ok; [done|exact Hc|cok|]. intros s1 H1 _.
  set (c1 := put_rcv_wnd (ring_free r) (put_rx r c)) in *.
  assert (read c (Z.to_nat k) c1) as Hread by (constructor; try done; cok).
  apply wp_bind. destruct (_ || _).
  - eapply ack_ok; [apply H1|by eapply step_at|]. intros s2 frame H2 _. apply wp_ret. eapply HQ; [by eapply step_trans|done].
  - apply wp_ret, wp_ret. by eapply HQ.
Qed.

(** ** Sending *)

(** What is stored, and what of it goes out at once: the buffer may hold bytes
    of earlier calls in front. *)
Definition accepted (c : tcp_connection) (data : list Z) : list Z := take (Z.to_nat (2047 - used (tx c))) data.
Definition outgoing (c : tcp_connection) (data : list Z) : list Z :=
  take (Nat.min (length (accepted c data)) 1460) (content (tx c) ++ accepted c data).
Definition sendable (c : tcp_connection) : bool := in_use c && is_state (state c) TCP_ESTABLISHED.

Lemma tcp_send_ok sockfd data c s (Q : Z -> net -> Prop) :
  tcp_inv s -> in_range sockfd = true -> conn_at s (Z.to_nat sockfd) c -> bytes data ->
  (sendable c = false -> forall s', quiet s s' -> Q (-1) s') ->
  (sendable c = true -> accepted c data = [] -> Q 0 s) ->
  (forall s' r frame, sendable c = true -> accepted c data <> [] -> ring_ok r ->
     content r = drop (length (outgoing c data)) (content (tx c) ++ accepted c data) ->
     step (Z.to_nat sockfd) (put_snd_nxt (snd_nxt (sq c) +32 Z.of_nat (length (outgoing c data))) (put_tx r c)) s s' ->
     sent (fst s') = sent (fst s) ++ [frame] ->
     tcp_frame (fst s) c (Z.lor TCP_ACK TCP_PSH) (outgoing c data) frame ->
     Q (Z.of_nat (length (outgoing c data))) s') ->
  wp (tcp_send ticks sockfd data) Q s.
Proof.
  intros H Hr Hc Hd Hno Hfull HQ. destruct (conn_at_ok _ c s H Hc) as [Hok _]. pose proof (co_tx c Hok) as Htx.
  unfold tcp_send. rewrite Hr. cbn [negb]. apply wp_bind. eapply conn_get_ok; [exact Hc|].
  unfold sendable in *.
  destruct (in_use c), (is_state (state c) TCP_ESTABLISHED); cbn [negb andb orb] in *;
    try (apply wp_bind, count_quiet; [done|]; intros s' Hq; apply wp_ret; by apply Hno); [].
  specialize (Hfull eq_refl). rewrite available_used by done. unfold TCP_TX_BUFFER_SIZE.
  pose proof (used_range (tx c)) as Hu. rewrite u16_small by lia.
  replace (2048 - used (tx c) - 1) with (2047 - used (tx c)) by lia. fold (accepted c data). cbv zeta.
  assert (bytes (accepted c data)) as Ha by by apply Forall_take.
  assert (Z.of_nat (length (accepted c data)) <= 2047 - used (tx c)) as Hla.
  { unfold accepted. rewrite length_take. lia. }
  unfold outgoing in HQ. set (acc := accepted c data) in *. clearbody acc. destruct (Z.eqb_spec (Z.of_nat (length acc)) 0) as [E|E].
  { apply wp_ret, Hfull. by apply length_zero_iff_nil; lia. }
  destruct (ring_put_ok acc (tx c) Htx Ha Hla) as (r1 & E1 & Hr1 & Ec1).
  apply wp_bind. eapply wp_lift; [exact E1|]. unfold TCP_MAX_SEGMENT_SIZE.
  replace (Z.to_nat (Z.min (Z.of_nat (length acc)) 1460)) with (Nat.min (length acc) 1460) by lia.
  pose proof (content_length r1) as Hl1. rewrite Ec1, length_app in Hl1.
  destruct (ring_get_ok (Nat.min (length acc) 1460) r1 Hr1 ltac:(lia)) as (r & E2 & Hrok & Ec2).
  apply wp_bind. eapply wp_lift; [exact E2|]. cbn [fst snd]. rewrite Ec1 in *.
  assert (length (take (Nat.min (length acc) 1460) (content (tx c) ++ acc)) = Nat.min (length acc) 1460) as El.
  { rewrite length_take, length_app. lia. }
  rewrite El in HQ. set (out := take _ _) in *.
  assert (bytes out) as Hout by (apply Forall_take, Forall_app; split; [by apply content_bytes|done]).
  apply wp_bind. eapply conn_put_ok; [done|exact Hc|cok|]. intros s1 H1 El1.
  apply wp_bind. eapply send_ok; [apply H1|by eapply step_at|done|done|lia|].
  intros s2 frame H2 Es Hfr _. apply wp_ret. rewrite El1 in Es, Hfr.
  replace (Z.min (Z.of_nat (length acc)) 1460) with (Z.of_nat (Nat.min (length acc) 1460)) by lia.
  eapply HQ; try done; [by intros ->|]. eapply step_trans; [exact H1|].
  unfold advance in H2. cbn [sq put_tx] in H2. rewrite El in H2. change (has (Z.lor TCP_ACK TCP_PSH) TCP_SYN) with false in H2.
  change (has (Z.lor TCP_ACK TCP_PSH) TCP_FIN) with false in H2. cbv iota in H2. by rewrite !Z.add_0_r in H2.
Qed.
(** ** Closing *)

Definition close_state (st : tcp_state) : tcp_state :=
  match st with
  | TCP_ESTABLISHED => TCP_FIN_WAIT_1
  | TCP_CLOSE_WAIT => TCP_LAST_ACK
  | TCP_CLOSED | TCP_LISTEN | TCP_SYN_SENT | TCP_SYN_RECEIVED => TCP_CLOSED
  | st => st
  end.
(** A FIN has to go out. *)
Definition fin_due (st : tcp_state) : bool := is_state st TCP_ESTABLISHED || is_state st TCP_CLOSE_WAIT.

Record closed (c c' : tcp_connection) : Prop := mk_closed {
  cl_calm : calm c c'; cl_state : state c' = close_state (state c);
  cl_use : in_use c' = in_use c && negb (is_state (close_state (state c)) TCP_CLOSED);
  cl_fin : fin_due (state c) = true -> fin_sent c' = true /\ close_start (tm c') = tcp_get_time_ms ticks;
  cl_same : fin_due (state c) = false -> fin_sent c' = fin_sent c /\ tm c' = tm c /\ sq c' = sq c;
  cl_own : own c' = own c; cl_tx : tx c' = tx c }.

Lemma close_fin_ok i c c' s (Q : Z -> net -> Prop) :
  tcp_inv s -> conn_at s i c -> conn_ok c' ->
  (forall s' frame, step i (put_snd_nxt (snd_nxt (sq c') +32 1) c') s s' -> sent (fst s') = sent (fst s) ++ [frame] ->
     tcp_frame (fst s) c' (Z.lor TCP_ACK TCP_FIN) [] frame -> Q 0 s') ->
  wp (conn_put i c' ;;; tcp_send_segment ticks i (Z.lor TCP_ACK TCP_FIN) [] ;;; ret 0) Q s.
Proof.
  intros H Hc Hok HQ. apply wp_bind. eapply conn_put_ok; [done|exact Hc|done|]. intros s1 H1 El. apply wp_bind.
  eapply send_ok; [apply H1|by eapply step_at|done|constructor|simpl; lia|]. intros s2 frame H2 Es Hfr _.
  rewrite El in *. apply wp_ret. eapply HQ; [by eapply step_trans|done..].
Qed.

Lemma close_ok sockfd c s (Q : Z -> net -> Prop) :
  tcp_inv s -> in_range sockfd = true -> conn_at s (Z.to_nat sockfd) c ->
  (in_use c = false -> Q (-1) s) ->
  (forall s' c', in_use c = true -> step (Z.to_nat sockfd) c' s s' -> closed c c' ->
     (if fin_due (state c) then exists frame c0, sent (fst s') = sent (fst s) ++ [frame] /\
        who c0 = who c /\ sq c0 = sq c /\ tcp_frame (fst s) c0 (Z.lor TCP_ACK TCP_FIN) [] frame
      else fst s' = fst s) -> Q 0 s') ->
  wp (tcp_close ticks sockfd) Q s.
Proof.
  intros H Hr Hc Hno HQ. destruct (conn_at_ok _ c s H Hc) as [Hok _].
  unfold tcp_close. rewrite Hr. cbn [negb]. apply wp_bind. eapply conn_get_ok; [exact Hc|].
  destruct (in_use c) eqn:Eu; cbn [negb]; [|by apply wp_ret, Hno].
  destruct (state c) eqn:Est;
    try (apply wp_bind; eapply conn_put_ok; [done|exact Hc|cok|]; intros s1 H1 El; apply wp_ret;
         eapply HQ; [done|exact H1| |done]; constructor; simpl; try done; [calmly|by rewrite Est|by rewrite Est, andb_false_r|by rewrite Est]);
    try (apply wp_ret; eapply HQ; [done|by apply step_refl| |done]; constructor; simpl; try done;
         [by apply calm_refl|by rewrite Est|by rewrite Eu, Est|by rewrite Est]).
  all: eapply close_fin_ok; [done|exact Hc|cok|]; intros s1 frame H1 Es Hfr; eapply HQ; [done|exact H1| |].
  all: try (eexists frame, _; split_and!; [done| | |exact Hfr]; done).
  all: constructor; simpl; try done; [calmly|by rewrite Est|by rewrite Eu, Est|by rewrite Est].
Qed.

(** ** Timers *)

Definition timed_out (current : Z) (c : tcp_connection) : bool :=
  match state c with
  | TCP_SYN_SENT | TCP_SYN_RECEIVED => expired current (syn_sent_start (tm c)) TCP_SYN_SENT_TIMEOUT_MS
  | TCP_FIN_WAIT_1 | TCP_CLOSING | TCP_LAST_ACK =>
      fin_sent c && expired current (close_start (tm c)) TCP_FIN_WAIT_2_TIMEOUT
  | TCP_TIME_WAIT => expired current (time_wait_start (tm c)) TCP_TIME_WAIT_TIMEOUT
  | TCP_FIN_WAIT_2 => (0 <? fin_wait_2_start (tm c)) && expired current (fin_wait_2_start (tm c)) TCP_FIN_WAIT_2_TIMEOUT
  | _ => false
  end.

(** The slot after the timers, [c] being the one its owner still holds. *)
Record ticked (current : Z) (c c' : tcp_connection) : Prop := mk_ticked {
  tk_calm : calm c c'; tk_tx : tx c' = tx c;
  tk_out : timed_out current c = true -> in_use c' = false /\ state c' = TCP_CLOSED;
  tk_stay : timed_out current c = false -> in_use c' = in_use c /\ state c' = state c /\ fin_sent c' = fin_sent c /\
              snd_nxt (sq c') = snd_nxt (sq c) }.

Lemma release_if_ok i c (b : bool) m s (Q : unit -> net -> Prop) :
  tcp_inv s -> conn_at s i c -> (m = conn_put i (release c) \/ exists k, m = (count k ;;; conn_put i (release c))) ->
  (forall s', step i (if b then release c else c) s s' -> Q tt s') ->
  wp (if b then m else ret tt) Q s.
Proof.
  intros H Hc Hm HQ. destruct (conn_at_ok i c s H Hc) as [Hok _].
  destruct b; [|by apply wp_ret, HQ, step_refl]. destruct Hm as [->|[k ->]].
  - eapply conn_put_ok; [done|exact Hc|cok|]. intros s1 H1 _. by apply HQ.
  - apply wp_bind. eapply count_ok; [done|exact Hc|]. intros s1 H1 _.
    eapply conn_put_ok; [apply H1|by eapply step_at|cok|]. intros s2 H2 _. apply HQ. by eapply step_trans.
Qed.

Lemma tail_byte c s (Q : Z -> net -> Prop) : conn_ok c -> (forall b, byte b -> Q b s) ->
  wp (lift (aget (buffer (tx c)) (tail (tx c)))) Q s.
Proof.
  intros [_ [Hl Hb _ Ht] _ _ _ _ _ _ _] HQ. destruct (aget_range (buffer (tx c)) (tail (tx c))) as (b & Hlk & E); [lia|].
  eapply wp_lift; [exact E|]. apply HQ. by apply (Forall_lookup_1 _ _ _ _ Hb Hlk).
Qed.

(** The probe leaves everything but its time as it was. *)
Lemma probe_ok current i c s (Q : unit -> net -> Prop) :
  tcp_inv s -> conn_at s i c ->
  (forall s' c', step i c' s s' -> c' = c \/ c' = put_probe current c -> Q tt s') -> wp (tick_probe ticks current i) Q s.
Proof.
  intros H Hc HQ. destruct (conn_at_ok i c s H Hc) as [Hok _].
  unfold tick_probe. apply wp_bind. eapply conn_get_ok; [exact Hc|].
  destruct (_ && _ && _ && _); [|apply wp_ret; eapply HQ; [by apply step_refl|by left]].
  apply wp_bind, tail_byte; [done|]. intros b Hb. apply wp_bind.
  eapply segment_ok; [done|exact Hc|done|constructor; [done|constructor]|simpl; lia|]. intros s1 H1.
  eapply conn_upd_ok; [apply H1|by eapply step_at|cok|]. intros s2 H2 _. eapply HQ; [by eapply step_trans|right].
  by destruct c as [? ? ? [] ? ? ? ? ? ?].
Qed.
(** The four timeouts together. *)
Definition elapse (current : Z) (c : tcp_connection) : tcp_connection := if timed_out current c then release c else c.

Section Timeouts.
Context (current : Z).
Definition syn_due c := (is_state (state c) TCP_SYN_SENT || is_state (state c) TCP_SYN_RECEIVED) &&
  expired current (syn_sent_start (tm c)) TCP_SYN_SENT_TIMEOUT_MS.
Definition closing_due c :=
  (is_state (state c) TCP_FIN_WAIT_1 || is_state (state c) TCP_CLOSING || is_state (state c) TCP_LAST_ACK) &&
  fin_sent c && expired current (close_start (tm c)) TCP_FIN_WAIT_2_TIMEOUT.
Definition time_wait_due c :=
  is_state (state c) TCP_TIME_WAIT && expired current (time_wait_start (tm c)) TCP_TIME_WAIT_TIMEOUT.
Definition fin_wait_2_due c := is_state (state c) TCP_FIN_WAIT_2 && (0 <? fin_wait_2_start (tm c)) &&
  expired current (fin_wait_2_start (tm c)) TCP_FIN_WAIT_2_TIMEOUT.
Definition release_if (p : tcp_connection -> bool) c := if p c then release c else c.

Lemma elapse_eq c :
  release_if fin_wait_2_due (release_if time_wait_due (release_if closing_due (release_if syn_due c))) = elapse current c.
Proof.
  assert (elapse current c = if syn_due c || closing_due c || time_wait_due c || fin_wait_2_due c then release c else c) as ->.
  { unfold elapse, timed_out, syn_due, closing_due, time_wait_due, fin_wait_2_due.
    destruct (state c); states; rewrite ?orb_false_r; done. }
  unfold release_if. destruct (syn_due c); [done|]. destruct (closing_due c); [done|].
  destruct (time_wait_due c); [done|]. by destruct (fin_wait_2_due c).
Qed.

Lemma timeout_ok i f p c s (k : M net unit) (Q : unit -> net -> Prop) :
  (forall c1, f c1 = conn_put i (release c1) \/ exists e, f c1 = (count e ;;; conn_put i (release c1))) ->
  tcp_inv s -> conn_at s i c ->
  (forall s1, step i (release_if p c) s s1 -> wp k Q s1) ->
  wp ((x <- conn_get i ;; if p x then f x else ret tt) ;;; k) Q s.
Proof.
  intros Hf H0 Hc0 HQ0. apply wp_bind, wp_bind. eapply conn_get_ok; [exact Hc0|].
  eapply release_if_ok; [done|exact Hc0|apply Hf|]. intros s1 H1. by apply HQ0.
Qed.

Lemma timeouts_ok i c (m : M net unit) s (Q : unit -> net -> Prop) :
  tcp_inv s -> conn_at s i c ->
  (forall s', step i (elapse current c) s s' -> wp m Q s') ->
  wp (tick_syn current i ;;; tick_closing current i ;;; tick_time_wait current i ;;; tick_fin_wait_2 current i ;;; m) Q s.
Proof.
  intros H Hc HQ. unfold tick_syn, tick_closing, tick_time_wait, tick_fin_wait_2.
  eapply (timeout_ok i (fun c => count tcp_timed_out ;;; conn_put i (release c)) syn_due);
    [intros ?; right; by eexists|done|exact Hc|]. intros s1 H1. assert (conn_at s1 i _) as Hc1 by by eapply step_at.
  eapply (timeout_ok i (fun c => conn_put i (release c)) closing_due); [intros ?; by left|apply H1|exact Hc1|].
  intros s2 H2. assert (conn_at s2 i _) as Hc2 by by eapply step_at.
  eapply (timeout_ok i (fun c => conn_put i (release c)) time_wait_due); [intros ?; by left|apply H2|exact Hc2|].
  intros s3 H3. assert (conn_at s3 i _) as Hc3 by by eapply step_at.
  eapply (timeout_ok i (fun c => count tcp_timed_out ;;; conn_put i (release c)) fin_wait_2_due);
    [intros ?; right; by eexists|apply H3|exact Hc3|].
  intros s4 H4. apply HQ. rewrite elapse_eq in H4. eapply step_trans; [exact H1|]. eapply step_trans; [exact H2|].
  by eapply step_trans.
Qed.

Lemma timers_ok i c s (Q : unit -> net -> Prop) :
  tcp_inv s -> conn_at s i c -> in_use c = true ->
  (forall s' c', step i c' s s' -> ticked current c c' -> Q tt s') ->
  wp (tick_syn current i ;;; tick_closing current i ;;; tick_time_wait current i ;;; tick_fin_wait_2 current i ;;;
      tick_probe ticks current i) Q s.
Proof.
  intros H Hc Hu HQ. destruct (conn_at_ok i c s H Hc) as [Hok _].
  eapply timeouts_ok; [done|exact Hc|]. intros s1 H1.
  eapply probe_ok; [apply H1|by eapply step_at|]. intros s2 c' H2 Hc'. eapply HQ; [by eapply step_trans|].
  unfold elapse in *. destruct (timed_out current c) eqn:Et; destruct Hc' as [->| ->];
    constructor; simpl; try done; try congruence; calmly.
Qed.

(** A slot: an orphan is closed first. *)
Definition adopt (c : tcp_connection) : tcp_connection :=
  put_own (mk_owner (owner_uid (own c)) (owner_pid (own c)) (owner_generation (own c)) false) c.
Definition disowned (c c1 : tcp_connection) : Prop :=
  if in_use c && orphaned (own c) then closed (adopt c) c1 else c1 = c.
Definition slot_ticked (c c' : tcp_connection) : Prop :=
  exists c1, disowned c c1 /\ (if in_use c1 then ticked current c1 c' else c' = c1).

Lemma tick_slot_ok i c s (Q : unit -> net -> Prop) :
  tcp_inv s -> conn_at s i c ->
  (forall s' c', step i c' s s' -> slot_ticked c c' -> Q tt s') -> wp (tcp_tick_slot ticks i current) Q s.
Proof.
  intros H Hc HQ. destruct (conn_at_ok i c s H Hc) as [Hok Hi]. unfold tcp_tick_slot, slot_ticked in *.
  apply wp_bind. eapply conn_get_ok; [exact Hc|]. apply wp_bind.
  apply (wp_mono _ (fun _ s1 => exists c1, step i c1 s s1 /\ disowned c c1)).
  - unfold disowned. destruct (in_use c) eqn:Eu, (orphaned (own c)) eqn:Eo; cbn [andb];
      try (apply wp_ret; exists c; split; [by apply step_refl|done]); [].
    apply wp_bind. eapply conn_put_ok; [done|exact Hc|cok|]. intros s1 H1 _. apply wp_bind.
    eapply close_ok; [apply H1|unfold in_range; change (Z.of_nat TCP_MAX_CONNECTIONS) with 8; lia|
                      rewrite Nat2Z.id; by eapply step_at| |]; [simpl; congruence|].
    rewrite Nat2Z.id. intros s2 c2 _ H2 Hcl _. apply wp_ret. exists c2. split; [by eapply step_trans|done].
  - intros [] s1 (c1 & H1 & Hd). assert (conn_at s1 i c1) as Hc1 by by eapply step_at.
    apply wp_bind. eapply conn_get_ok; [exact Hc1|]. destruct (in_use c1) eqn:Eu1; cbn [negb].
    + eapply timers_ok; [apply H1|exact Hc1|done|]. intros s2 c2 H2 Ht. eapply HQ; [by eapply step_trans|].
      exists c1. by rewrite Eu1.
    + apply wp_ret. eapply HQ; [exact H1|]. exists c1. by rewrite Eu1.
Qed.

Lemma slot_ticked_calm c c' : conn_ok c -> slot_ticked c c' -> calm c c'.
Proof.
  intros Hok (c1 & Hd & Ht). assert (calm c c1) as H1.
  { unfold disowned in Hd. destruct (_ && _); [|subst; by apply calm_refl].
    eapply calm_trans; [|apply Hd]. unfold adopt. calmly. }
  destruct (in_use c1); [|by subst]. eapply calm_trans; [done|apply Ht].
Qed.

(** All slots, each on its own. *)
Lemma tick_ok s (Q : unit -> net -> Prop) :
  tcp_inv s ->
  (forall s', tcp_inv s' -> out_step (fst s) (fst s') -> tcp_port_quarantine (snd s') = tcp_port_quarantine (snd s) ->
     Forall2 slot_ticked (tcp_connections (snd s)) (tcp_connections (snd s')) -> Q tt s') ->
  wp (tcp_tick ticks current) Q s.
Proof.
  intros H HQ. set (l := tcp_connections (snd s)).
  apply (wp_for_each (fun k s' => tcp_inv s' /\ out_step (fst s) (fst s') /\ tcp_port_quarantine (snd s') = tcp_port_quarantine (snd s) /\
    drop (Z.to_nat k) (tcp_connections (snd s')) = drop (Z.to_nat k) l /\
    Forall2 slot_ticked (take (Z.to_nat k) l) (take (Z.to_nat k) (tcp_connections (snd s'))))).
  - split_and!; [done|apply out_step_refl, H|done|done|constructor].
  - intros k s1 Hk (I1 & O1 & Q1 & D1 & F1).
    assert (Z.to_nat k < length l)%nat as Hlt by (unfold l; rewrite (ti_length s H); unfold TCP_MAX_CONNECTIONS in *; lia).
    destruct (lookup_lt_is_Some_2 l (Z.to_nat k) Hlt) as [c Hc].
    assert (conn_at s1 (Z.to_nat k) c) as Hc1.
    { rewrite <- Hc, <- (Nat.add_0_r (Z.to_nat k)), <- !lookup_drop. by rewrite D1. }
    eapply tick_slot_ok; [done|exact Hc1|]. intros s2 c' [I2 O2 C2 Q2] Ht. replace (Z.to_nat (k + 1)) with (S (Z.to_nat k)) by lia.
    rewrite C2. split_and!; [done|by eapply out_step_trans|congruence| |].
    + rewrite drop_insert_lt by lia. rewrite <- Nat.add_1_r, <- !drop_drop. by rewrite D1.
    + assert (<[Z.to_nat k := c']> (tcp_connections (snd s1)) !! Z.to_nat k = Some c') as Hc2
        by (apply list_lookup_insert_eq; by apply lookup_lt_Some in Hc1).
      rewrite (take_S_r _ _ _ Hc), (take_S_r _ _ _ Hc2), take_insert_ge by lia.
      apply Forall2_app; [done|by repeat constructor].
  - intros s' (I & O & Eq & _ & F). apply HQ; try done. rewrite !take_ge in F; [done|..].
    + by rewrite (ti_length s' I).
    + unfold l. by rewrite (ti_length s H).
Qed.
End Timeouts.
(** ** Sockets *)

Section Counting.
Context (p : tcp_connection -> bool).

Definition bit (c : tcp_connection) : nat := if p c then 1 else 0.

Lemma filter_insert (l : list tcp_connection) i c c' : l !! i = Some c ->
  (length (List.filter p (<[i := c']> l)) + bit c = length (List.filter p l) + bit c')%nat.
Proof.
  unfold bit. revert i. induction l as [|x l IH]; intros [|i] E; simplify_eq/=.
  - destruct (p c), (p c'); simpl; lia.
  - specialize (IH i E). destruct (p x); simpl; lia.
Qed.

Lemma count_insert i c c' t t' : tcp_connections t !! i = Some c -> tcp_connections t' = <[i := c']> (tcp_connections t) ->
  (count_conns p t' + bit c = count_conns p t + bit c')%nat.
Proof. intros Hc E. unfold count_conns. rewrite E. by apply filter_insert. Qed.
End Counting.

Lemma victim_lt now l i v u n : (v < n)%nat -> (i + length l <= n)%nat -> (quarantine_victim now l i v u < n)%nat.
Proof.
  revert i v u. induction l as [|[port until] l IH]; intros i v u Hv Hi; simpl in *; [done|].
  destruct (_ || _); [lia|]. destruct (tcp_time_before _ _); apply IH; lia.
Qed.

Lemma oldest_found l i best old j t : oldest_time_wait l i best old = (Some j, t) ->
  best = Some j /\ t = old \/ exists c, (i <= j)%nat /\ l !! (j - i)%nat = Some c /\ in_use c = true /\ state c = TCP_TIME_WAIT /\
    time_wait_start (tm c) = t.
Proof.
  revert i best old. induction l as [|c l IH]; intros i best old E; simpl in E; [injection E as -> ->; auto|].
  assert (forall c', l !! (j - S i)%nat = Some c' -> (S i <= j)%nat -> (c :: l) !! (j - i)%nat = Some c') as Hcons.
  { intros c' Hc' Hj. by replace (j - i)%nat with (S (j - S i)) by lia. }
  destruct (in_use c && is_state (state c) TCP_TIME_WAIT && _) eqn:Ec.
  - apply andb_true_iff in Ec as [[Eu Es]%andb_true_iff _]. apply is_state_true in Es.
    apply IH in E as [[[= <-] ->]|(c' & Hj & Hc' & H')]; right.
    + exists c. rewrite Nat.sub_diag. split_and!; auto; lia.
    + exists c'. split_and!; try apply H'; auto; lia.
  - apply IH in E as [E|(c' & Hj & Hc' & H')]; [by left|right]. exists c'. split_and!; try apply H'; auto; lia.
Qed.

Lemma zero_ring_ok : ring_ok zero_ring.
Proof. destruct (zeros_addr 2048) as [Hb Hl]. by constructor. Qed.
Lemma fresh_ok self : conn_ok (fresh_connection self).
Proof. constructor; try done; try apply zero_ring_ok; apply zeros_addr. Qed.

Lemma take_slot_ok self s (Q : option Z -> net -> Prop) :
  tcp_inv s -> ((forall c, c ∈ tcp_connections (snd s) -> in_use c = true) -> Q None s) ->
  (forall i c s', conn_at s i c -> in_use c = false -> step i (fresh_connection self) s s' -> fst s' = fst s -> Q (Some (Z.of_nat i)) s') ->
  wp (take_slot self) Q s.
Proof.
  intros H Hnone HQ. unfold take_slot, gets_tcp. apply wp_bind, wp_gets.
  destruct (index_of _ _) as [i|] eqn:Ei.
  - apply index_of_Some in Ei as (c & Hc & Hu). apply negb_true_iff in Hu. apply wp_bind.
    eapply conn_put_ok; [done|exact Hc|by apply fresh_ok|]. intros s' Hst El. apply wp_ret. by eapply HQ.
  - apply wp_ret, Hnone. intros c Hc. by apply negb_false_iff, (index_of_None _ _ _ Ei).
Qed.

Lemma evict_time_wait_ok s (Q : bool -> net -> Prop) :
  tcp_inv s -> Q false s ->
  (forall i c s', conn_at s i c -> in_use c = true -> state c = TCP_TIME_WAIT -> tcp_inv s' -> fst s' = fst s ->
     tcp_connections (snd s') = <[i := release c]> (tcp_connections (snd s)) -> Q true s') ->
  wp (tcp_evict_oldest_time_wait ticks) Q s.
Proof.
  intros H Hno HQ. unfold tcp_evict_oldest_time_wait, gets_tcp, on_tcp. apply wp_bind, wp_gets.
  destruct (oldest_time_wait _ _ _ _) as [[i|] t] eqn:Ei; [|by apply wp_ret].
  apply oldest_found in Ei as [[Ei _]|(c & _ & Hc & Hu & Hst & _)]; [done|]. rewrite Nat.sub_0_r in Hc.
  destruct (conn_at_ok i c s H Hc) as [Hok _]. apply wp_bind. eapply count_ok; [done|exact Hc|]. intros s1 H1 El1.
  assert (conn_at s1 i c) as Hc1 by by eapply step_at. apply wp_bind. eapply conn_get_ok; [exact Hc1|].
  apply wp_bind, wp_modify. set (s2 := (fst s1, _)). assert (tcp_inv s2) as H2.
  { destruct (sp_inv _ _ _ _ H1). constructor; try done. unfold s2, tcp_quarantine_port. simpl. by rewrite length_insert. }
  apply wp_bind. eapply (conn_upd_ok i c); [exact H2|exact Hc1|cok|]. intros s3 H3 El3. apply wp_ret.
  eapply HQ; [exact Hc|done..|apply H3|by rewrite El3|].
  rewrite (sp_conns _ _ _ _ H3). unfold s2, tcp_quarantine_port. simpl. rewrite (sp_conns _ _ _ _ H1). by rewrite list_insert_insert_eq.
Qed.

Section Owner.
Context (self : option caller).

(** The socket given out: a slot that was free, or the oldest in TIME_WAIT. *)
Lemma socket_ok s (Q : Z -> net -> Prop) :
  tcp_inv s ->
  (tcp_socket_over_limit self (snd s) = true -> Q TCP_SOCKET_LIMIT s) ->
  (forall s', tcp_socket_over_limit self (snd s) = false -> (forall c, c ∈ tcp_connections (snd s) -> in_use c = true) ->
     tcp_inv s' -> fst s' = fst s -> Q TCP_SOCKET_FULL s') ->
  (forall i c s', tcp_socket_over_limit self (snd s) = false -> conn_at s i c -> is_available c = true ->
     tcp_inv s' -> fst s' = fst s ->
     tcp_connections (snd s') = <[i := fresh_connection self]> (tcp_connections (snd s)) -> Q (Z.of_nat i) s') ->
  wp (tcp_socket ticks self) Q s.
Proof.
  intros H Hlim Hfull HQ. unfold tcp_socket, gets_tcp. apply wp_bind, wp_gets.
  destruct (tcp_socket_over_limit self (snd s)) eqn:El; [by apply wp_ret, Hlim|]. apply wp_bind, take_slot_ok; [done| |].
  2: { intros i c s' Hc Hu Hst El'. apply wp_ret. eapply HQ; [done|exact Hc| |apply Hst|done|apply Hst].
       unfold is_available. by rewrite Hu. }
  intros Hall. apply wp_bind, wp_gets, wp_bind.
  assert (forall s1, tcp_inv s1 -> fst s1 = fst s -> wp (count tcp_table_full ;;; ret TCP_SOCKET_FULL) Q s1) as Hcount.
  { intros s1 H1 E1. apply wp_bind, count_quiet; [done|]. intros s2 [I2 L2 _ _]. apply wp_ret, Hfull; [done..|congruence]. }
  destruct (_ <=? _)%nat; [|by apply wp_ret, Hcount].
  apply wp_bind, evict_time_wait_ok; [done|by apply wp_ret, Hcount|].
  intros i c s1 Hc Hu Hst H1 E1 C1. assert (i < length (tcp_connections (snd s)))%nat as Hi by by apply lookup_lt_Some in Hc.
  apply take_slot_ok; [done|..].
  - intros Hall1. exfalso. assert (in_use (release c) = true); [|done]. apply Hall1. rewrite C1.
    apply list_elem_of_lookup_2 with i. by apply list_lookup_insert_eq.
  - intros j c1 s2 Hc1 Hu1 H2 E2. apply wp_ret. assert (j = i) as ->.
    { destruct (decide (j = i)); [done|]. rewrite C1, list_lookup_insert_ne in Hc1 by done.
      apply list_elem_of_lookup_2, Hall in Hc1. congruence. }
    eapply HQ; [done|exact Hc| |apply H2|congruence|].
    + unfold is_available. by rewrite Hst, orb_true_r.
    + by rewrite (sp_conns _ _ _ _ H2), C1, list_insert_insert_eq.
Qed.
End Owner.
(** ** Connecting *)

Lemma allocate_loop_ok n now draws t : let p := allocate_loop n now draws t in
  p = 0 \/ 49152 <= p < 65536 /\ tcp_port_is_free p now t = true.
Proof.
  induction n as [|n IH]; cbn [allocate_loop]; [by left|]. cbv zeta.
  set (p := u16 _). assert (49152 <= p < 65536) as Hp.
  { unfold p, EPHEMERAL_PORT_START, EPHEMERAL_PORT_COUNT.
    rewrite u16_small; Z.to_euclidean_division_equations; lia. }
  destruct (tcp_port_is_free p now t) eqn:E; [by right|done].
Qed.

(** One free port among the sixty-four drawn is enough. *)
Lemma allocate_loop_found n now draws t k : (n <= MAX_PORT_SEARCH_ATTEMPTS)%nat ->
  (MAX_PORT_SEARCH_ATTEMPTS - n <= k < MAX_PORT_SEARCH_ATTEMPTS)%nat ->
  tcp_port_is_free (49152 + draws k mod 16384) now t = true -> allocate_loop n now draws t <> 0.
Proof.
  intros Hn Hk Hf. induction n as [|n IH]; cbn [allocate_loop]; [lia|]. cbv zeta.
  assert (forall j, u16 (EPHEMERAL_PORT_START + draws j mod EPHEMERAL_PORT_COUNT) = 49152 + draws j mod 16384) as Hp.
  { intros j. unfold EPHEMERAL_PORT_START, EPHEMERAL_PORT_COUNT. apply u16_small. Z.to_euclidean_division_equations; lia. }
  rewrite Hp. set (j := (_ - S n)%nat). destruct (tcp_port_is_free (49152 + draws j mod 16384) now t) eqn:E.
  { pose proof (Z.mod_pos_bound (draws j) 16384). lia. }
  destruct (decide (k = j)) as [->|]; [congruence|]. unfold j in *. apply IH; lia.
Qed.

Lemma lower_step i c l s : tcp_inv s -> conn_at s i c -> out_step (fst s) l -> step i c s (l, snd s).
Proof.
  intros H Hc Ho. pose proof H as []. constructor; simpl; [constructor; try done; apply Ho|done|by rewrite list_insert_id|done].
Qed.

Lemma isn_ok key lip lport rip rport i c s (Q : Z -> net -> Prop) :
  tcp_inv s -> conn_at s i c -> length key = 32%nat -> length lip = 4%nat -> length rip = 4%nat ->
  (forall isn s', word isn -> step i c s s' -> fst s' = fst s -> Q isn s') ->
  wp (tcp_generate_isn ticks key lip lport rip rport) Q s.
Proof.
  intros H Hc Hk Hl Hr HQ. unfold tcp_generate_isn, gets_tcp, on_tcp. apply wp_bind, wp_gets, wp_bind.
  apply (wp_mono _ (fun _ s1 => step i c s s1 /\ fst s1 = fst s)).
  { destruct (isn_secret_initialized _); [apply wp_ret; split; [by apply step_refl|done]|].
    apply wp_modify. split; [|done]. pose proof H as [].
    constructor; simpl; [constructor; try done|by apply out_step_refl|by rewrite list_insert_id|done]. }
  intros [] s1 [H1 E1]. apply wp_bind, wp_gets. cbv zeta. set (input := lip ++ _).
  assert (length input = 44%nat) as Hin.
  { unfold input. rewrite !length_app, Hl, Hr, (ti_key s1 (sp_inv _ _ _ _ H1)). done. }
  destruct (wp_elim _ _ _ (Sha256.sha256_ok (Sha256.mk_ctx [] 0 (replicate 64 0)) input eq_refl ltac:(rewrite Hin; lia))) as (h & c' & E & _).
  apply wp_bind. eapply wp_lift; [by rewrite E|]. apply wp_ret, HQ; [apply u32_range|done..].
Qed.

Lemma tcp_frame_config l l' c flags data frame : same_config l l' -> tcp_frame l' c flags data frame -> tcp_frame l c flags data frame.
Proof. intros [E1 E2 _ _]. unfold tcp_frame. by rewrite E1, E2. Qed.
Section Connect.
Context (draws : nat -> Z) (key : list Z) (rip : list Z) (rport : Z)
  (Hticks : 0 <= ticks < 2 ^ 32) (Hkey : length key = 32%nat) (Hrip : addr 4 rip) (Hrport : 0 <= rport < 65536).

(** The port a connection gets. *)
Definition port_for (c : tcp_connection) (t : tcp) : Z :=
  if local_port (who c) =? 0 then tcp_allocate_port ticks draws t else local_port (who c).
Definition connectable (c : tcp_connection) (t : tcp) : bool :=
  in_use c && is_state (state c) TCP_CLOSED && (tcp_count_half_open_connections t <? TCP_MAX_HALF_OPEN_CONNECTIONS)%nat &&
  negb (port_for c t =? 0).

(** A connection on its way, and one that did not get that far. *)
Definition syn_sent (lport isn : Z) (m : list Z) (c : tcp_connection) : tcp_connection :=
  put_syn_sent (tcp_get_time_ms ticks) (put_state TCP_SYN_SENT
    (put_sq (mk_seqs isn (isn +32 1) TCP_INITIAL_WINDOW isn (rcv_nxt (sq c)) (rcv_wnd (sq c)) (irs (sq c)))
      (put_who (mk_peer rip m lport rport) c))).
Definition refused (c c' : tcp_connection) : Prop :=
  c' = c \/ exists lport, c' = put_who (mk_peer rip (remote_mac (who c)) lport rport) c.

Lemma port_for_range c t : conn_ok c -> 0 <= port_for c t < 65536.
Proof.
  intros Hok. unfold port_for. destruct (_ =? 0); [|apply Hok].
  destruct (allocate_loop_ok MAX_PORT_SEARCH_ATTEMPTS (tcp_get_time_ms ticks) draws t) as [E|[? _]];
    unfold tcp_allocate_port; [rewrite E|]; lia.
Qed.

Lemma connect_ok sockfd c s (Q : Z -> net -> Prop) :
  tcp_inv s -> in_range sockfd = true -> conn_at s (Z.to_nat sockfd) c ->
  (forall s' c', step (Z.to_nat sockfd) c' s s' -> refused c c' ->
     (connectable c (snd s) = true -> looked_up (fst s) ticks (next_hop (fst s) rip) None /\
        requested (fst s') ticks (next_hop (fst s) rip)) -> Q (-1) s') ->
  (forall s' isn m l frame, let c' := syn_sent (port_for c (snd s)) isn m c in
     connectable c (snd s) = true -> looked_up (fst s) ticks (next_hop (fst s) rip) (Some m) -> word isn ->
     step (Z.to_nat sockfd) (put_snd_nxt (isn +32 2) c') s s' ->
     sent (fst s') = sent (fst s) ++ l ++ [frame] -> tcp_frame (fst s) c' TCP_SYN [] frame ->
     tracked (filter (fst s')) (ip_word (my_ip (fst s))) (ip_word rip) (port_for c (snd s)) rport IPPROTO_TCP -> Q 0 s') ->
  wp (tcp_connect ticks draws key sockfd rip rport) Q s.
Proof.
  intros H Hr Hc Hno HQ. destruct (conn_at_ok _ c s H Hc) as [Hok _]. set (i := Z.to_nat sockfd) in *.
  unfold tcp_connect, gets_tcp. rewrite Hr. cbn [negb]. fold i. apply wp_bind. eapply conn_get_ok; [exact Hc|].
  unfold connectable in *. pose proof (port_for_range c (snd s) Hok) as Hlp. unfold port_for in *.
  destruct (in_use c), (is_state (state c) TCP_CLOSED); cbn [negb andb orb] in *;
    try (apply wp_ret; eapply Hno; [by apply step_refl|by left|done]).
  apply wp_bind, wp_gets. rewrite Nat.ltb_antisym in *. destruct (_ <=? _)%nat; cbn [negb andb] in *.
  { apply wp_bind. eapply count_ok; [done|exact Hc|]. intros s1 H1 _. apply wp_ret. eapply Hno; [exact H1|by left|done]. }
  apply wp_bind, wp_gets. cbv zeta. set (lport := if _ =? 0 then _ else _) in *. clearbody lport.
  apply wp_bind. eapply conn_put_ok; [done|exact Hc|cok|]. intros s1 H1 E1. set (c1 := put_who _ c) in H1.
  assert (conn_at s1 i c1) as Hc1 by by eapply step_at.
  assert (refused c c1) as Href by (right; by eexists).
  destruct (Z.eqb_spec lport 0); cbn [negb] in *.
  { apply wp_bind. eapply count_ok; [apply H1|exact Hc1|]. intros s2 H2 _. apply wp_ret.
    eapply Hno; [by eapply step_trans|done|done]. }
  apply wp_bind, lower_ok, get_route_mac_ok; [apply H1|done|]. rewrite E1. intros r l Ho _ Hl Hadr Hask.
  assert (step i c1 s1 (l, snd s1)) as H2 by (apply lower_step; [apply H1|done|by rewrite E1]).
  destruct r as [m|].
  2: { apply wp_bind. eapply count_ok; [apply H2|by eapply step_at|]. intros s3 H3 E3. apply wp_ret.
       eapply Hno; [eapply step_trans; [exact H1|by eapply step_trans]|done|]. intros _. rewrite E3. by auto. }
  assert (conn_at (l, snd s1) i c1) as Hc2 by by eapply step_at. pose proof (Hadr m eq_refl) as Hm.
  apply wp_bind. eapply (conn_upd_ok i c1); [apply H2|done|subst c1; cok|]. intros s3 H3 E3. subst c1.
  apply wp_bind, lower_ok, wp_gets. rewrite <- surjective_pairing. pose proof (os_config _ _ Ho) as Hcfg.
  assert (conn_at s3 i _) as Hc3 by by eapply step_at.
  apply wp_bind. eapply isn_ok; [apply H3|exact Hc3|done| |apply Hrip|].
  { apply (li_ip _ (ti_link _ (sp_inv _ _ _ _ H3))). }
  intros isn s4 Hisn H4 E4. assert (conn_at s4 i _) as Hc4 by by eapply step_at.
  apply wp_bind. eapply (conn_upd_ok i); [apply H4|exact Hc4|cok|]. intros s5 H5 E5.
  apply wp_bind. eapply send_ok; [apply H5|by eapply step_at|done|constructor|simpl; lia|]. intros s6 frame H6 Es Hfr Htr.
  apply wp_ret. rewrite E5, E4, E3 in Es, Hfr, Htr. cbn [fst] in Es, Hfr, Htr. destruct (os_sent _ _ Ho) as [l0 El0].
  apply (HQ s6 isn m l0 frame); [done..| | |by eapply tcp_frame_config|].
  - do 5 (eapply step_trans; [eassumption|]). replace (isn +32 2) with (advance (syn_sent lport isn m c) TCP_SYN []); [exact H6|].
    unfold advance. simpl. u_lia.
  - by rewrite Es, El0, app_assoc.
  - by rewrite (sc_ip _ _ Hcfg) in Htr.
Qed.
End Connect.
End Calls.
End TcpCalls.
