(* ===== verification/TcpProps.v ===== *)
(** Theorems about the TCP stack: any packet is handled safely and moves its
    connection along an edge of the protocol, the application reads the stream
    of the peer, blind segments do nothing, connecting, sending, the limits of
    the table, and the timers. *)
From Stdlib Require Import ZArith Lia List Bool.
From stdpp Require Import base tactics numbers list.
From S2P Require Import Prelude NetHdr Checksum Firewall FirewallProps Link LinkProps Sha256 Tcp TcpInv TcpCalls.
Open Scope Z_scope.

Module TcpProps.
Import NetHdr Link LinkProps Tcp TcpInv TcpCalls.

(** ** A state for examples *)

Definition tcp0 (c : tcp_connection) : tcp :=
  mk_tcp (c :: replicate 7 zero_connection) (replicate 16 (0, 0)) (replicate 8 0) (replicate 8 0) (replicate 32 0) false
    (fun _ => 0).
Definition established0 : tcp_connection :=
  put_sq (mk_seqs 100 100 4096 99 1000 2048 999)
    (put_who (mk_peer server server_mac 50000 80)
      (put_state TCP_ESTABLISHED (fresh_connection None))).

Lemma tcp0_inv c : conn_ok c -> tcp_inv (link0, tcp0 c).
Proof.
  intros Hc. constructor; try done; [apply link0_inv|].
  constructor; [done|]. apply Forall_replicate. constructor; try done; try apply zero_ring_ok; apply zeros_addr.
Qed.

Lemma established0_ok : conn_ok established0.
Proof.
  pose proof (fresh_ok None). constructor; try done; try apply zero_ring_ok; try (split; [repeat constructor; lia|done]).
Qed.

(** ** Received segments *)


(** A FIN of the server, next in its stream. *)
Definition fin0 : list Z :=
  net_bytes16 80 ++ net_bytes16 50000 ++ net_bytes32 1000 ++ net_bytes32 100 ++ [0x50; 0x11] ++ net_bytes16 4096 ++ [0; 0; 0; 0].


(** ** The stream of the peer *)

(** What happens to a socket in its life, apart from being opened: packets of
    any kind arrive, the application reads, writes and closes, time passes. *)
Inductive event :=
| Arrive (src seg : list Z) | Read (sockfd len : Z) | Write (sockfd : Z) (data : list Z)
| Close (sockfd : Z) | Tick (current : Z).

(** One event at a time; the bytes read from socket [fd]. *)
Definition perform (fd : Z) (e : Z * event) : M net (list Z) :=
  let ticks := fst e in
  match snd e with
  | Arrive src seg => tcp_handle_packet ticks src seg ;;; ret []
  | Read sockfd len => r <- tcp_recv ticks sockfd len ;; ret (if sockfd =? fd then snd r else [])
  | Write sockfd data => _ <- tcp_send ticks sockfd data ;; ret []
  | Close sockfd => _ <- tcp_close ticks sockfd ;; ret []
  | Tick current => tcp_tick ticks current ;;; ret []
  end.
Fixpoint history (fd : Z) (l : list (Z * event)) : M net (list Z) :=
  match l with
  | [] => ret []
  | e :: l' => a <- perform fd e ;; b <- history fd l' ;; ret (a ++ b)
  end.

(** The arguments the types allow, and what the peer sends: any piece of its
    stream, numbered from [base], any number of times, in any order. *)
Definition admissible (p : peer) (base : Z) (stream : list Z) (e : Z * event) : Prop :=
  match snd e with
  | Arrive src seg => bytes seg /\
      (src = remote_ip p -> be16 seg l4_src_port = remote_port p -> be16 seg l4_dest_port = local_port p ->
       payload seg = [] \/ exists k, be32 seg tcp_sequence_number = base +32 Z.of_nat k /\
         payload seg = take (length (payload seg)) (drop k stream))
  | Read _ len => 0 <= len
  | Write _ data => bytes data
  | _ => True
  end.

Section Stream.
Context (p : peer) (base : Z) (stream : list Z) (Hlen : Z.of_nat (length stream) < 2 ^ 32).

(** Read and still buffered are the first bytes of the stream; while the
    connection is established the next number expected is the one behind them. *)
Definition in_step (fd : Z) (got : list Z) (s : net) : Prop :=
  tcp_inv s /\ exists c n, conn_at s (Z.to_nat fd) c /\ who c = p /\
    (ending (state c) = true \/ state c = TCP_ESTABLISHED /\ rcv_nxt (sq c) = base +32 Z.of_nat n) /\
    (n <= length stream)%nat /\ got ++ content (rx c) = take n stream.

(** Another socket, or one whose received part stays as it is. *)
Lemma in_step_calm fd got i c c' s s' : in_step fd got s -> conn_at s i c -> step i c' s s' ->
  (i = Z.to_nat fd -> calm c c') -> in_step fd got s'.
Proof.
  intros (H & c0 & n & Hc0 & Hw & Hst & Hn & Eg) Hc Hstep Hcalm. split; [apply Hstep|].
  destruct (decide (i = Z.to_nat fd)) as [->|Hne].
  - rewrite Hc in Hc0. injection Hc0 as <-. destruct (Hcalm eq_refl) as [_ Ew Er En Es].
    exists c', n. split_and!; [by eapply step_at|congruence| |done|by rewrite Er].
    rewrite En. destruct Es as [->|Es]; [done|by left].
  - exists c0, n. split_and!; try done. by rewrite (sp_conns _ _ _ _ Hstep), list_lookup_insert_ne.
Qed.

Lemma in_step_quiet fd got s s' : in_step fd got s -> quiet s s' -> in_step fd got s'.
Proof. intros (_ & c & n & Hc & H) [I _ E _]. split; [done|]. exists c, n. by rewrite E. Qed.

(** The place of a number below 2^32 is unique. *)
Lemma place_unique n k : (n <= length stream)%nat -> (k <= length stream)%nat ->
  base +32 Z.of_nat k = base +32 Z.of_nat n -> k = n.
Proof.
  intros Hn Hk E. apply Nat2Z.inj. unfold u32 in E. change (2 ^ 32) with 4294967296 in *.
  Z.to_euclidean_division_equations; lia.
Qed.

Lemma in_step_effect fd got c flags seq ack data c' s s' :
  in_step fd got s -> conn_at s (Z.to_nat fd) c -> step (Z.to_nat fd) c' s s' -> effect c flags seq ack data c' ->
  (data = [] \/ exists k, seq = base +32 Z.of_nat k /\ data = take (length data) (drop k stream)) ->
  in_step fd got s'.
Proof.
  intros (H & c0 & n & Hc0 & Hw & Hst & Hn & Eg) Hc Hstep He Hdata.
  rewrite Hc in Hc0. injection Hc0 as <-. split; [apply Hstep|].
  assert (ending (state c') = true \/ state c = TCP_ESTABLISHED /\ state c' = TCP_ESTABLISHED) as Hst'.
  { pose proof (ef_edge _ _ _ _ _ _ He) as Hedge. revert Hedge. generalize (state c') (in_use c'). intros st' u' Hedge.
    destruct Hst as [Hend|[Hest _]]; destruct Hedge; auto; try congruence; by rewrite H0 in Hend. }
  pose proof (ef_who _ _ _ _ _ _ He) as Ew.
  destruct (ef_data _ _ _ _ _ _ He) as [[Ec Er]|(Hest & Eseq & Ec & Er)].
  { exists c', n. split_and!; [by eapply step_at|congruence| |done|by rewrite Ec].
    destruct Hst' as [?|[E1 E2]]; [by left|right]. rewrite Er by done. destruct Hst as [Hend|[_ ->]]; [by rewrite E1 in Hend|done]. }
  destruct Hst as [Hend|[_ Hrcv]]; [by rewrite Hest in Hend|].
  assert (exists m, (m <= length stream)%nat /\ got ++ content (rx c') = take m stream /\
    rcv_nxt (sq c) +32 Z.of_nat (length data) = base +32 Z.of_nat m) as (m & Hm & Em & Enext).
  { destruct (decide (data = [])) as [Ed|Hne].
    { exists n. rewrite Ec, Ed, app_nil_r, Hrcv. split_and!; [done..|]. cbn [length Z.of_nat]. rewrite Z.add_0_r. apply u32_small, u32_range. }
    destruct Hdata as [?|(k & Ek & Ed)]; [done|].
    assert (k + length data <= length stream)%nat as Hk.
    { apply (f_equal length) in Ed. rewrite length_take, length_drop in Ed. assert (length data <> 0%nat) by by destruct data. lia. }
    assert (k = n) as -> by (apply place_unique; [done|lia|congruence]).
    exists (n + length data)%nat. split_and!; [done| |].
    - rewrite Ec, app_assoc, Eg, Ed at 1. by rewrite take_take_drop.
    - rewrite Hrcv. u_lia. }
  exists c', m. split_and!; [by eapply step_at|congruence| |done|done].
  destruct Hst' as [?|[E1 E2]]; [by left|right]. split; [done|]. rewrite Er by done. done.
Qed.
Lemma in_step_read fd got sockfd ticks len s (Q : list Z -> net -> Prop) :
  in_step fd got s -> in_range fd = true -> 0 <= len ->
  (forall bs s', in_step fd (got ++ bs) s' -> Q bs s') ->
  wp (r <- tcp_recv ticks sockfd len ;; ret (if sockfd =? fd then snd r else [])) Q s.
Proof.
  intros Hin Hfd Hl HQ. pose proof Hin as (H & c & n & Hc & Hw & Hst & Hn & Eg). apply wp_bind.
  destruct (in_range sockfd) eqn:Er.
  2: { unfold tcp_recv. rewrite Er. apply wp_ret, wp_ret, HQ. destruct (sockfd =? fd); simpl; by rewrite app_nil_r. }
  destruct (in_range_at sockfd s H Er) as (c1 & Hc1 & Hok1 & _).
  eapply recv_ok; [done..|]. intros s' c' Hstep [Rok Rrx Rst Rw Rn Rs Rt Ru Ro]. apply wp_ret, HQ.
  destruct (Z.eqb_spec sockfd fd) as [->|Hne].
  - rewrite Hc in Hc1. injection Hc1 as <-. split; [apply Hstep|]. exists c', n.
    split_and!; [by eapply step_at|congruence|by rewrite Rst, Rn|done|]. rewrite Rrx, <- Eg, <- app_assoc. f_equal.
    unfold recv_result. destruct (readable c); [|done]. cbv zeta. cbn [snd].
    rewrite length_take. destruct (decide (Z.to_nat len <= length (content (rx c)))%nat).
    + by rewrite Nat.min_l, take_drop.
    + by rewrite Nat.min_r, take_ge, drop_ge, app_nil_r by lia.
  - rewrite app_nil_r. eapply in_step_calm; [exact Hin|exact Hc1|exact Hstep|].
    intros E. exfalso. unfold in_range in *. lia.
Qed.

Lemma in_step_write fd got sockfd ticks data s (Q : list Z -> net -> Prop) :
  in_step fd got s -> bytes data -> (forall s', in_step fd got s' -> Q [] s') ->
  wp (_ <- tcp_send ticks sockfd data ;; ret []) Q s.
Proof.
  intros Hin Hd HQ. pose proof Hin as (H & _). apply wp_bind. destruct (in_range sockfd) eqn:Er.
  2: { unfold tcp_send. rewrite Er. apply wp_bind, count_quiet; [done|]. intros s' Hq. apply wp_ret, wp_ret, HQ. by eapply in_step_quiet. }
  destruct (in_range_at sockfd s H Er) as (c1 & Hc1 & Hok1 & _). eapply tcp_send_ok; [done..| | |].
  - intros _ s' Hq. apply wp_ret, HQ. by eapply in_step_quiet.
  - intros _ _. by apply wp_ret, HQ.
  - intros s' r frame _ _ Hr _ Hstep _ _. apply wp_ret, HQ. eapply in_step_calm; [exact Hin|exact Hc1|exact Hstep|].
    intros _. calmly.
Qed.

Lemma in_step_close fd got sockfd ticks s (Q : list Z -> net -> Prop) :
  in_step fd got s -> (forall s', in_step fd got s' -> Q [] s') -> wp (_ <- tcp_close ticks sockfd ;; ret []) Q s.
Proof.
  intros Hin HQ. pose proof Hin as (H & _). apply wp_bind. destruct (in_range sockfd) eqn:Er.
  2: { unfold tcp_close. rewrite Er. by apply wp_ret, wp_ret, HQ. }
  destruct (in_range_at sockfd s H Er) as (c1 & Hc1 & Hok1 & _). eapply close_ok; [done..| |].
  - intros _. by apply wp_ret, HQ.
  - intros s' c' _ Hstep Hcl _. apply wp_ret, HQ. eapply in_step_calm; [exact Hin|exact Hc1|exact Hstep|]. intros _. apply Hcl.
Qed.

Lemma in_step_arrive fd got ticks src seg s (Q : list Z -> net -> Prop) :
  in_step fd got s -> admissible p base stream (ticks, Arrive src seg) -> (forall s', in_step fd got s' -> Q [] s') ->
  wp (tcp_handle_packet ticks src seg ;;; ret []) Q s.
Proof.
  intros Hin [Hb Hgen] HQ. pose proof Hin as (H & c & n & Hc & Hw & _).
  apply wp_bind, handle_packet_ok; [done..| |].
  - intros s' _ Hq. apply wp_ret, HQ. by eapply in_step_quiet.
  - intros s' _ Hh. apply wp_ret, HQ. unfold handled in Hh. destruct (tcp_find_connection _ _ _ _) as [i|] eqn:Ei; [|by eapply in_step_quiet].
    destruct Hh as (c1 & c' & Hc1 & Hstep & He). destruct (decide (i = Z.to_nat fd)) as [->|Hne].
    2: { eapply in_step_calm; [exact Hin|exact Hc1|exact Hstep|done]. }
    eapply in_step_effect; [done|exact Hc1|exact Hstep|exact He|].
    unfold tcp_find_connection in Ei. apply index_of_Some in Ei as (c2 & Hc2 & His). rewrite Hc in Hc2. injection Hc2 as <-.
    unfold is_connection in His. apply andb_true_iff in His as [[[_ E1]%andb_true_iff E2]%andb_true_iff E3].
    apply Z.eqb_eq in E1, E2. apply same_eq in E3. rewrite Hw in *. by apply Hgen.
Qed.

Lemma in_step_tick fd got ticks current s (Q : list Z -> net -> Prop) :
  in_step fd got s -> (forall s', in_step fd got s' -> Q [] s') -> wp (tcp_tick ticks current ;;; ret []) Q s.
Proof.
  intros (H & c & n & Hc & Hw & Hst & Hn & Eg) HQ. apply wp_bind, (tick_ok _ _ _ _ H). intros s' I _ _ F. apply wp_ret, HQ.
  split; [done|]. destruct (Forall2_lookup_l _ _ _ _ _ F Hc) as (c' & Hc' & Ht).
  apply slot_ticked_calm in Ht as [_ Ew Er En Es]; [|by eapply (conn_at_ok _ c s)]. exists c', n.
  split_and!; [done|congruence| |done|by rewrite Er]. rewrite En. destruct Es as [->|Es]; [done|by left].
Qed.

Lemma history_ok fd l got s (Q : list Z -> net -> Prop) :
  in_step fd got s -> in_range fd = true -> Forall (admissible p base stream) l ->
  (forall bs s', in_step fd (got ++ bs) s' -> Q bs s') -> wp (history fd l) Q s.
Proof.
  revert got s Q. induction l as [|[ticks e] l IH]; intros got s Q Hin Hfd Hl HQ; cbn [history].
  { apply wp_ret, HQ. by rewrite app_nil_r. }
  apply Forall_cons in Hl as [He Hl]. apply wp_bind.
  assert (forall bs s', in_step fd (got ++ bs) s' -> wp (b <- history fd l ;; ret (bs ++ b)) Q s') as Hrest.
  { intros bs s' H'. apply wp_bind, (IH (got ++ bs)); [done..|]. intros b s2 H2. apply wp_ret, HQ. by rewrite app_assoc. }
  assert (forall s', in_step fd got s' -> wp (b <- history fd l ;; ret ([] ++ b)) Q s') as Hrest0.
  { intros s' H'. apply Hrest. by rewrite app_nil_r. }
  unfold perform. cbn [fst snd]. destruct e.
  - by eapply in_step_arrive.
  - by eapply in_step_read.
  - by eapply in_step_write.
  - by eapply in_step_close.
  - by eapply in_step_tick.
Qed.
End Stream.

(** C2. The stream of the peer: on an established connection whose next expected
    number is [base], whatever the network does to the segments of the peer (it
    may lose, repeat and reorder them, and other packets may come in between) and
    however calls and timers interleave with them, the bytes the application has
    read, followed by those still buffered, are exactly the first bytes of the
    stream the peer sent: none missing, none twice, none out of place. *)
Theorem tcp_stream_integrity base stream fd c l s :
  tcp_inv s -> in_range fd = true -> conn_at s (Z.to_nat fd) c -> state c = TCP_ESTABLISHED ->
  content (rx c) = [] -> rcv_nxt (sq c) = u32 base -> Z.of_nat (length stream) < 2 ^ 32 ->
  Forall (admissible (who c) base stream) l ->
  exists got s' n, history fd l s = Ok (got, s') /\ tcp_inv s' /\
    got ++ content (rx (tcp_connections (snd s') !!! Z.to_nat fd)) = take n stream.
Proof.
  intros H Hfd Hc Hst Hrx Hrcv Hlen Hl.
  assert (wp (history fd l) (in_step (who c) base stream fd) s) as (got & s' & E & HQ)%wp_elim.
  { eapply (history_ok _ _ _ Hlen fd l []); [|done..]. split; [done|]. exists c, 0%nat.
    split_and!; [done..| |lia|by rewrite Hrx]. right. by rewrite Z.add_0_r. }
  destruct HQ as (I & c' & n & Hc' & _ & _ & _ & Eg). exists got, s', n. split_and!; [done..|].
  by rewrite (list_lookup_total_correct _ _ _ Hc').
Qed.

(** A segment of the server with a payload. *)
Definition data0 (seq : Z) (data : list Z) : list Z :=
  net_bytes16 80 ++ net_bytes16 50000 ++ net_bytes32 seq ++ net_bytes32 100 ++ [0x50; 0x18] ++ net_bytes16 4096 ++ [0; 0; 0; 0] ++ data.

Definition history0 : list (Z * event) :=
  [(1, Arrive server (data0 1002 [3; 4])); (2, Arrive server (data0 1000 [1; 2])); (3, Read 0 1);
   (4, Arrive server (data0 1002 [3; 4])); (5, Read 0 9)].

Lemma data0_admissible k n t : bytes (data0 (1000 + Z.of_nat k) (take n (drop k [1; 2; 3; 4; 5]))) ->
  payload (data0 (1000 + Z.of_nat k) (take n (drop k [1; 2; 3; 4; 5]))) = take n (drop k [1; 2; 3; 4; 5]) ->
  be32 (data0 (1000 + Z.of_nat k) (take n (drop k [1; 2; 3; 4; 5]))) tcp_sequence_number = 1000 +32 Z.of_nat k ->
  admissible (who established0) 1000 [1; 2; 3; 4; 5] (t, Arrive server (data0 (1000 + Z.of_nat k) (take n (drop k [1; 2; 3; 4; 5])))).
Proof.
  intros Hb Hp Hs. split; [done|]. intros _ _ _. right. exists k. split; [done|]. rewrite Hp.
  generalize (drop k [1; 2; 3; 4; 5]). intros x. rewrite length_take, <- take_take. by rewrite (take_ge x (length x)).
Qed.

Lemma history0_admissible : Forall (admissible (who established0) 1000 [1; 2; 3; 4; 5]) history0.
Proof.
  assert (bytes (data0 1002 [3; 4]) /\ bytes (data0 1000 [1; 2])) as [Hb1 Hb2]
    by (split; repeat constructor; vm_compute; congruence).
  constructor; [by apply (data0_admissible 2 2 1)|]. constructor; [by apply (data0_admissible 0 2 2)|].
  constructor; [done|]. constructor; [by apply (data0_admissible 2 2 4)|]. by repeat constructor.
Qed.

Lemma tcp_stream_integrity_witness :
  exists got s' n, history 0 history0 (link0, tcp0 established0) = Ok (got, s') /\
    got ++ content (rx (tcp_connections (snd s') !!! 0%nat)) = take n [1; 2; 3; 4; 5].
Proof.
  destruct (tcp_stream_integrity 1000 [1; 2; 3; 4; 5] 0 established0 history0 (link0, tcp0 established0)
    (tcp0_inv _ established0_ok) eq_refl eq_refl eq_refl eq_refl eq_refl eq_refl history0_admissible)
    as (got & s' & n & E & _ & Eg).
  exists got, s', n. split; [exact E|exact Eg].
Defined.

(** ** Blind segments *)

Lemma blind_ok ticks i c flags seq ack window data s (Q : unit -> net -> Prop) :
  tcp_inv s -> conn_at s i c -> state c = TCP_ESTABLISHED -> ~ in_window seq (rcv_nxt (sq c)) (rcv_wnd (sq c)) ->
  (forall s', step i c s s' -> (exists l, sent (fst s') = sent (fst s) ++ l /\ (length l <= 1)%nat) -> Q tt s') ->
  wp (tcp_process_segment ticks i flags seq ack window data) Q s.
Proof.
  intros H Hc Hst Hwin HQ. unfold tcp_process_segment.
  assert (tcp_validate_sequence seq (rcv_nxt (sq c)) (rcv_wnd (sq c)) = false) as Ev.
  { destruct (tcp_validate_sequence _ _ _) eqn:E; [by apply validate_ok in E|done]. }
  assert (forall s' : net, fst s' = fst s -> exists l, sent (fst s') = sent (fst s) ++ l /\ (length l <= 1)%nat) as Hnone.
  { intros s' ->. exists []. rewrite app_nil_r. split; [done|simpl; lia]. }
  destruct (has flags TCP_RST).
  - unfold process_rst. apply wp_bind, (fast_ok ticks i _ c); [by left|done..|]. intros fast s1 H1 E1.
    assert (conn_at s1 i c) as Hc1 by by eapply step_at.
    assert (forall k, wp (count k) Q s1) as Hdrop.
    { intros k. eapply count_ok; [apply H1|done|]. intros s2 H2 E2. apply HQ; [by eapply step_trans|apply Hnone; congruence]. }
    destruct fast; [apply Hdrop|]. apply wp_bind. eapply conn_get_ok; [exact Hc1|]. rewrite Hst, Ev. apply Hdrop.
  - apply wp_bind. eapply conn_get_ok; [exact Hc|]. apply wp_bind.
    apply (wp_mono _ (fun _ s1 => step i c s s1 /\ fst s1 = fst s)).
    { destruct (_ && _); [eapply count_ok; [done|exact Hc|by intros]|apply wp_ret; split; [by apply step_refl|done]]. }
    intros [] s1 [H1 E1]. assert (conn_at s1 i c) as Hc1 by by eapply step_at. rewrite Hst.
    unfold process_established. apply wp_bind. eapply conn_get_ok; [exact Hc1|]. rewrite Ev. cbn [negb].
    apply wp_bind. eapply count_ok; [apply H1|exact Hc1|]. intros s2 H2 E2.
    eapply ack_ok; [apply H2|by eapply step_at|]. intros s3 frame H3 Es. apply HQ.
    + eapply step_trans; [exact H1|by eapply step_trans].
    + exists [frame]. split; [congruence|simpl; lia].
Qed.

(** C29. Blind segments: a segment for an established connection whose sequence
    number lies outside the receive window (a RST, a FIN, a SYN or data, with any
    acknowledgement) leaves the whole table of connections exactly as it was; at
    most one acknowledgement goes out. *)
Theorem tcp_blind_segments ticks src seg i c s :
  tcp_inv s -> bytes seg -> TcpInv.well_formed seg ->
  tcp_find_connection src (be16 seg l4_src_port) (be16 seg l4_dest_port) (snd s) = Some i ->
  conn_at s i c -> state c = TCP_ESTABLISHED ->
  ~ in_window (be32 seg tcp_sequence_number) (rcv_nxt (sq c)) (rcv_wnd (sq c)) ->
  exists s', tcp_handle_packet ticks src seg s = Ok (tt, s') /\ tcp_inv s' /\
    tcp_connections (snd s') = tcp_connections (snd s) /\
    (exists l, sent (fst s') = sent (fst s) ++ l /\ (length l <= 1)%nat).
Proof.
  intros H Hb Hwf Hi Hc Hst Hwin. apply wp_exists, packet_cases; [done..|]. intros _. rewrite Hi.
  eapply blind_ok; [done|exact Hc|done..|]. intros s' Hstep Hs. split_and!; [apply Hstep| |done].
  by rewrite (sp_conns _ _ _ _ Hstep), list_insert_id.
Qed.

(** A reset for a number far off. *)
Definition rst0 : list Z :=
  net_bytes16 80 ++ net_bytes16 50000 ++ net_bytes32 90000 ++ net_bytes32 0 ++ [0x50; 0x04] ++ net_bytes16 0 ++ [0; 0; 0; 0].

Lemma tcp_blind_segments_witness :
  exists s', tcp_handle_packet 500 server rst0 (link0, tcp0 established0) = Ok (tt, s') /\
    tcp_connections (snd s') = tcp_connections (tcp0 established0).
Proof.
  destruct (tcp_blind_segments 500 server rst0 0 established0 _ (tcp0_inv _ established0_ok)) as (s' & E & _ & Ec & _);
    [repeat constructor; vm_compute; congruence|split; vm_compute; congruence|reflexivity|reflexivity|reflexivity| |].
  - intros [Hw|Hw]; vm_compute in Hw; congruence.
  - exists s'. split; [exact E|exact Ec].
Defined.

(** ** Connecting *)

Lemma free_port_unused port now t c : tcp_port_is_free port now t = true -> c ∈ tcp_connections t -> in_use c = true ->
  local_port (who c) <> port.
Proof.
  unfold tcp_port_is_free. destruct (existsb _ (tcp_connections t)) eqn:E; [done|]. intros _ Hc Hu Hp.
  assert (existsb (fun c => in_use c && (local_port (who c) =? port)) (tcp_connections t) = true); [|congruence].
  apply existsb_exists. exists c. split; [by apply list_elem_of_In|]. rewrite Hu, Hp. apply Z.eqb_refl.
Qed.

Lemma index_of_unique {A} (p : A -> bool) l i x : l !! i = Some x -> p x = true ->
  (forall j y, l !! j = Some y -> p y = true -> j = i) -> index_of p l = Some i.
Proof.
  intros Hx Hp Hu. destruct (index_of p l) as [j|] eqn:E.
  - apply index_of_Some in E as (y & Hy & Hpy). f_equal. by eapply Hu.
  - pose proof (index_of_None p l x E (list_elem_of_lookup_2 _ _ _ Hx)). congruence.
Qed.

(** The answer to a SYN. *)
Definition is_syn_ack (c : tcp_connection) (seg : list Z) : Prop :=
  bytes seg /\ TcpInv.well_formed seg /\ be16 seg l4_src_port = remote_port (who c) /\
  be16 seg l4_dest_port = local_port (who c) /\ at8 seg tcp_flags = Z.lor TCP_SYN TCP_ACK /\
  be32 seg tcp_acknowledgement_number = snd_nxt (sq c).

Lemma syn_ack_ok ticks i c seg s (Q : unit -> net -> Prop) :
  tcp_inv s -> conn_at s i c -> state c = TCP_SYN_SENT -> is_syn_ack c seg ->
  tcp_find_connection (remote_ip (who c)) (remote_port (who c)) (local_port (who c)) (snd s) = Some i ->
  (forall s' c' frame, step i c' s s' -> state c' = TCP_ESTABLISHED -> in_use c' = in_use c ->
     rcv_nxt (sq c') = be32 seg tcp_sequence_number +32 1 ->
     sent (fst s') = sent (fst s) ++ [frame] -> Q tt s') ->
  wp (tcp_handle_packet ticks (remote_ip (who c)) seg) Q s.
Proof.
  intros H Hc Hst (Hb & Hwf & Esp & Edp & Efl & Eack) Hf HQ. destruct (conn_at_ok i c s H Hc) as [Hok _].
  apply packet_cases; [done..|]. intros _. rewrite Esp, Edp, Hf, Efl, Eack. unfold tcp_process_segment.
  change (has (Z.lor TCP_SYN TCP_ACK) TCP_RST) with false. cbv iota.
  apply wp_bind. eapply conn_get_ok; [exact Hc|]. apply wp_bind.
  apply (wp_mono _ (fun _ s1 => step i c s s1 /\ fst s1 = fst s)).
  { destruct (_ && _); [eapply count_ok; [done|exact Hc|by intros]|apply wp_ret; split; [by apply step_refl|done]]. }
  intros [] s1 [H1 E1]. assert (conn_at s1 i c) as Hc1 by by eapply step_at. rewrite Hst. unfold process_syn_sent.
  apply wp_bind. eapply conn_get_ok; [exact Hc1|]. rewrite !Z.eqb_refl. cbn [andb].
  apply wp_bind. eapply conn_put_ok; [apply H1|exact Hc1|cok|]. intros s2 H2 E2.
  eapply ack_ok; [apply H2|by eapply step_at|]. intros s3 frame H3 Es.
  eapply (HQ s3 _ frame); [eapply step_trans; [exact H1|eapply step_trans; [exact H2|exact H3]]|done..|]. congruence.
Qed.

Section Connecting.
Context (ticks : Z) (draws : nat -> Z) (key : list Z) (sockfd : Z) (rip : list Z) (rport : Z) (c : tcp_connection) (s : net).
Context (H : tcp_inv s) (Hr : in_range sockfd = true) (Hc : conn_at s (Z.to_nat sockfd) c).
Context (Hu : in_use c = true) (Hst : state c = TCP_CLOSED) (Hp0 : local_port (who c) = 0).

Lemma fresh_port k : (k < MAX_PORT_SEARCH_ATTEMPTS)%nat ->
  tcp_port_is_free (49152 + draws k mod 16384) (tcp_get_time_ms ticks) (snd s) = true ->
  let p := port_for ticks draws c (snd s) in
  49152 <= p < 65536 /\ tcp_port_is_free p (tcp_get_time_ms ticks) (snd s) = true.
Proof.
  intros Hk Hfree p. assert (p = tcp_allocate_port ticks draws (snd s)) as -> by (unfold p, port_for; by rewrite Hp0).
  pose proof (allocate_loop_found MAX_PORT_SEARCH_ATTEMPTS (tcp_get_time_ms ticks) draws (snd s) k ltac:(lia) ltac:(lia) Hfree).
  by destruct (allocate_loop_ok MAX_PORT_SEARCH_ATTEMPTS (tcp_get_time_ms ticks) draws (snd s)) as [?|?].
Qed.

(** A connection on a free port is the only one its segments belong to. *)
Lemma only_connection now c1 s1 : step (Z.to_nat sockfd) c1 s s1 -> in_use c1 = true ->
  tcp_port_is_free (local_port (who c1)) now (snd s) = true ->
  tcp_find_connection (remote_ip (who c1)) (remote_port (who c1)) (local_port (who c1)) (snd s1) = Some (Z.to_nat sockfd).
Proof.
  intros Hstep Hu1 Hpf. eapply index_of_unique; [by eapply step_at| |].
  - unfold is_connection. by rewrite !Z.eqb_refl, (proj2 (same_eq _ _) eq_refl), Hu1.
  - intros j y Hy Hconn. destruct (decide (j = Z.to_nat sockfd)) as [|Hj]; [done|]. exfalso.
    rewrite (sp_conns _ _ _ _ Hstep), list_lookup_insert_ne in Hy by done.
    unfold is_connection in Hconn. apply andb_true_iff in Hconn as [[[Uy Ly]%andb_true_iff _]%andb_true_iff _].
    apply Z.eqb_eq in Ly. eapply free_port_unused; [exact Hpf|by eapply list_elem_of_lookup_2|done|exact Ly].
Qed.

Lemma connect_sends m (Q : Z -> net -> Prop) :
  0 <= ticks < 2 ^ 32 -> length key = 32%nat -> addr 4 rip -> 0 <= rport < 65536 ->
  (tcp_count_half_open_connections (snd s) < TCP_MAX_HALF_OPEN_CONNECTIONS)%nat ->
  port_for ticks draws c (snd s) <> 0 -> live (fst s) ticks (next_hop (fst s) rip) m ->
  (forall s1 isn mm l frame, let c0 := syn_sent ticks rip rport (port_for ticks draws c (snd s)) isn mm c in
    step (Z.to_nat sockfd) (put_snd_nxt (isn +32 2) c0) s s1 -> sent (fst s1) = sent (fst s) ++ l ++ [frame] ->
    tcp_frame (fst s) c0 TCP_SYN [] frame ->
    tracked (filter (fst s1)) (ip_word (my_ip (fst s))) (ip_word rip) (port_for ticks draws c (snd s)) rport IPPROTO_TCP ->
    Q 0 s1) ->
  wp (tcp_connect ticks draws key sockfd rip rport) Q s.
Proof.
  intros Ht Hkey Hrip Hrport Hhalf Hne Hlive HQ.
  assert (connectable ticks draws c (snd s) = true) as Hcon.
  { unfold connectable. rewrite Hu, Hst, (proj2 (Nat.ltb_lt _ _) Hhalf). apply Z.eqb_neq in Hne. by rewrite Hne. }
  eapply connect_ok; [done..|exact Hc| |].
  - intros s' c' _ _ Hno. destruct (Hno Hcon) as [[Hl _] _]. by destruct (Hl m).
  - intros s' isn mm l frame c' _ _ _ Hstep Es Hfr Htr. by eapply HQ.
Qed.
End Connecting.

(** C28. Connecting: on a fresh socket, with one of the sixty-four ports drawn
    free, fewer than four connections half open and the next hop of the peer
    known, [tcp_connect] succeeds: it takes an ephemeral port no connection uses,
    sends one well-formed SYN to the peer, and tells the packet filter about the
    flow.  When the peer answers with the SYN-ACK for it, at any time and whatever
    its window and sequence number, the connection is established, the answer is
    acknowledged, and the next byte expected is the one behind the peer's SYN. *)
Theorem tcp_connect_establishes ticks draws key sockfd rip rport k m c s :
  tcp_inv s -> 0 <= ticks < 2 ^ 32 -> length key = 32%nat -> addr 4 rip -> 0 <= rport < 65536 ->
  in_range sockfd = true -> conn_at s (Z.to_nat sockfd) c -> in_use c = true -> state c = TCP_CLOSED ->
  local_port (who c) = 0 -> (tcp_count_half_open_connections (snd s) < TCP_MAX_HALF_OPEN_CONNECTIONS)%nat ->
  (k < MAX_PORT_SEARCH_ATTEMPTS)%nat -> tcp_port_is_free (49152 + draws k mod 16384) (tcp_get_time_ms ticks) (snd s) = true ->
  live (fst s) ticks (next_hop (fst s) rip) m ->
  exists s1 c1 c0 l frame, tcp_connect ticks draws key sockfd rip rport s = Ok (0, s1) /\ tcp_inv s1 /\
    conn_at s1 (Z.to_nat sockfd) c1 /\ state c1 = TCP_SYN_SENT /\
    49152 <= local_port (who c1) < 65536 /\ tcp_port_is_free (local_port (who c1)) (tcp_get_time_ms ticks) (snd s) = true /\
    sent (fst s1) = sent (fst s) ++ l ++ [frame] /\ tcp_frame (fst s) c0 TCP_SYN [] frame /\ who c0 = who c1 /\
    snd_nxt (sq c1) = snd_nxt (sq c0) +32 1 /\
    tracked (filter (fst s1)) (ip_word (my_ip (fst s))) (ip_word rip) (local_port (who c1)) rport IPPROTO_TCP /\
    forall ticks' seg, is_syn_ack c1 seg ->
      exists s2 ack, tcp_handle_packet ticks' rip seg s1 = Ok (tt, s2) /\ tcp_is_connected sockfd (snd s2) = true /\
        rcv_nxt (sq (tcp_connections (snd s2) !!! Z.to_nat sockfd)) = be32 seg tcp_sequence_number +32 1 /\
        sent (fst s2) = sent (fst s1) ++ [ack].
Proof.
  intros H Ht Hkey Hrip Hrport Hr Hc Hu Hst Hp0 Hhalf Hk Hfree Hlive.
  destruct (fresh_port ticks draws c s Hp0 k Hk Hfree) as [Hrange Hpf].
  set (p := port_for ticks draws c (snd s)) in *.
  assert (wp (tcp_connect ticks draws key sockfd rip rport) (fun r s1 => r = 0 /\ exists isn mm l frame,
    let c0 := syn_sent ticks rip rport p isn mm c in
    step (Z.to_nat sockfd) (put_snd_nxt (isn +32 2) c0) s s1 /\ sent (fst s1) = sent (fst s) ++ l ++ [frame] /\
    tcp_frame (fst s) c0 TCP_SYN [] frame /\
    tracked (filter (fst s1)) (ip_word (my_ip (fst s))) (ip_word rip) p rport IPPROTO_TCP) s)
    as (r & s1 & E & -> & isn & mm & l & frame & Hstep & Es & Hfr & Htr)%wp_elim.
  { eapply connect_sends; [done..|exact Hc|done|done|done|done|done|done|done|fold p; lia|exact Hlive|].
    intros s1 isn mm l frame c0 H1 H2 H3 H4. split; [done|]. by exists isn, mm, l, frame. }
  set (c1 := put_snd_nxt _ _) in Hstep. pose proof (step_at _ _ _ _ _ Hc Hstep) as Hc1.
  exists s1, c1, (syn_sent ticks rip rport p isn mm c), l, frame.
  split_and!; try done; [apply Hstep|apply Hrange|apply Hrange|simpl; u_lia|]. intros ticks' seg Hsa.
  assert (wp (tcp_handle_packet ticks' (remote_ip (who c1)) seg) (fun _ s2 => exists c2 ack, conn_at s2 (Z.to_nat sockfd) c2 /\
    state c2 = TCP_ESTABLISHED /\ in_use c2 = true /\ rcv_nxt (sq c2) = be32 seg tcp_sequence_number +32 1 /\
    sent (fst s2) = sent (fst s1) ++ [ack]) s1) as (s2 & E2 & c2 & ack & Hc2 & Hst2 & Hu2 & Hrcv & Hs2)%wp_elim_unit.
  { eapply syn_ack_ok; [apply Hstep|exact Hc1|done|done|by eapply only_connection; [exact Hc|exact Hstep|exact Hu|exact Hpf]|].
    intros s' c' ack Hst' E1 E2 E3 E4. exists c', ack. split_and!; [by eapply step_at|done|by rewrite E2|done|done]. }
  exists s2, ack. unfold tcp_is_connected. rewrite Hr, (list_lookup_total_correct _ _ _ Hc2), Hst2, Hu2. by split_and!.
Qed.

Lemma fresh0_ok : conn_ok (fresh_connection None).
Proof. apply fresh_ok. Qed.

Lemma tcp_connect_establishes_witness :
  exists s1, tcp_connect 100 (fun _ => 7) (replicate 32 1) 0 server 80 (link0, tcp0 (fresh_connection None)) = Ok (0, s1) /\ tcp_inv s1.
Proof.
  destruct (tcp_connect_establishes 100 (fun _ => 7) (replicate 32 1) 0 server 80 0 server_mac (fresh_connection None)
    (link0, tcp0 (fresh_connection None)) (tcp0_inv _ fresh0_ok)) as (s1 & c1 & c0 & l & frame & E & I & _);
    [lia|reflexivity|exact server_addr|lia|reflexivity|reflexivity|reflexivity|reflexivity|reflexivity|
     apply Nat.ltb_lt; reflexivity|apply Nat.ltb_lt; reflexivity|reflexivity| |].
  - exists (mk_entry server server_mac 0 true). split; [left|]. repeat split; vm_compute; congruence.
  - exists s1. split; [exact E|exact I].
Defined.

(** ** Sending *)

(** Sending: on an established socket [tcp_send] stores as much of the data
    as the buffer has room for and sends one segment whose frame and checksums are
    well formed.  The segment carries the front of the buffer, as many bytes as
    were stored but at most 1460, which is also the number answered; what is behind
    stays in the buffer, in order, for the next call.  With an empty buffer and at
    most 1460 bytes, the data goes out as it is and the buffer is empty again. *)
Theorem tcp_send_spec ticks sockfd data c s :
  tcp_inv s -> in_range sockfd = true -> conn_at s (Z.to_nat sockfd) c -> bytes data -> sendable c = true ->
  accepted c data <> [] ->
  exists s' c' frame, tcp_send ticks sockfd data s = Ok (Z.of_nat (length (outgoing c data)), s') /\ tcp_inv s' /\
    tcp_connections (snd s') = <[Z.to_nat sockfd := c']> (tcp_connections (snd s)) /\
    content (tx c) ++ accepted c data = outgoing c data ++ content (tx c') /\
    snd_nxt (sq c') = snd_nxt (sq c) +32 Z.of_nat (length (outgoing c data)) /\
    sent (fst s') = sent (fst s) ++ [frame] /\
    tcp_frame (fst s) c (Z.lor TCP_ACK TCP_PSH) (outgoing c data) frame /\
    (content (tx c) = [] -> (length data <= 1460)%nat -> outgoing c data = data /\ content (tx c') = []).
Proof.
  intros H Hr Hc Hd Hs Ha. set (c' := fun r => put_snd_nxt (snd_nxt (sq c) +32 Z.of_nat (length (outgoing c data))) (put_tx r c)).
  assert (wp (tcp_send ticks sockfd data) (fun n s' => n = Z.of_nat (length (outgoing c data)) /\ exists r frame,
    content r = drop (length (outgoing c data)) (content (tx c) ++ accepted c data) /\
    step (Z.to_nat sockfd) (c' r) s s' /\ sent (fst s') = sent (fst s) ++ [frame] /\
    tcp_frame (fst s) c (Z.lor TCP_ACK TCP_PSH) (outgoing c data) frame) s)
    as (n & s' & E & -> & r & frame & Ec & Hstep & Es & Hf)%wp_elim.
  { eapply tcp_send_ok; [done..|congruence|congruence|]. intros s' r frame _ _ _ Ec Hstep Es Hf. split; [done|]. by exists r, frame. }
  exists s', (c' r), frame. split_and!; [done|apply Hstep|apply Hstep| |done|done|done|].
  - simpl. rewrite Ec. unfold outgoing. rewrite length_take, length_app.
    replace (Nat.min (Nat.min (length (accepted c data)) 1460) (length (content (tx c)) + length (accepted c data)))
      with (Nat.min (length (accepted c data)) 1460) by lia. by rewrite take_drop.
  - intros E0 Hl. simpl. rewrite Ec. pose proof (content_length (tx c)) as Hu. rewrite E0 in Hu |- *. cbn [length Z.of_nat] in Hu.
    assert (accepted c data = data) as Ea by (unfold accepted; rewrite <- Hu; apply take_ge; lia).
    assert (outgoing c data = data) as Eo.
    { unfold outgoing. rewrite E0, Ea. apply take_ge. simpl. lia. }
    rewrite Eo, Ea. split; [done|]. apply drop_ge. simpl. lia.
Qed.

Lemma tcp_send_spec_witness :
  exists s', tcp_send 100 0 [1; 2; 3] (link0, tcp0 established0) = Ok (3, s') /\ tcp_inv s'.
Proof.
  destruct (tcp_send_spec 100 0 [1; 2; 3] established0 (link0, tcp0 established0) (tcp0_inv _ established0_ok) eq_refl eq_refl)
    as (s' & c' & frame & E & I & _); [repeat constructor; vm_compute; congruence|reflexivity|vm_compute; congruence|].
  exists s'. split; [exact E|exact I].
Defined.

(** ** The table of sockets *)

(** Socket limits: [tcp_socket] called for an ordinary user refuses with
    nothing changed when the user holds two sockets or only two slots could still
    be had; else, and for root and the kernel, it gives a fresh socket stamped with
    the caller in a slot that was free or in TIME_WAIT and touches no other, or
    answers that the table is full.  So afterwards no ordinary user that got a
    socket holds more than two, and two slots are left for root. *)
Theorem tcp_socket_limits ticks me s :
  tcp_inv s -> uid me <> 0 ->
  exists r s', tcp_socket ticks (Some me) s = Ok (r, s') /\ tcp_inv s' /\
    (r = TCP_SOCKET_LIMIT <->
       (2 <= count_conns (is_held (u32 (uid me))) (snd s))%nat \/ (count_conns is_available (snd s) <= 2)%nat) /\
    (r = TCP_SOCKET_LIMIT -> s' = s) /\
    (0 <= r -> exists c, in_range r = true /\ conn_at s (Z.to_nat r) c /\ is_available c = true /\
       tcp_connections (snd s') = <[Z.to_nat r := fresh_connection (Some me)]> (tcp_connections (snd s)) /\
       (count_conns (is_held (u32 (uid me))) (snd s') <= 2)%nat /\ (2 <= count_conns is_available (snd s'))%nat).
Proof.
  intros H Hu. assert (tcp_socket_over_limit (Some me) (snd s) = true <->
    (2 <= count_conns (is_held (u32 (uid me))) (snd s))%nat \/ (count_conns is_available (snd s) <= 2)%nat) as Hlim.
  { unfold tcp_socket_over_limit. destruct (Z.eqb_spec (uid me) 0); [done|]. rewrite orb_true_iff, !Nat.leb_le. done. }
  apply wp_elim, socket_ok; [done|..].
  - intros El. split_and!; [done|by rewrite <- Hlim|done|]. unfold TCP_SOCKET_LIMIT. lia.
  - intros s' El _ I _. split_and!; [done| |done|unfold TCP_SOCKET_FULL; lia]. rewrite <- Hlim. split; [unfold TCP_SOCKET_LIMIT, TCP_SOCKET_FULL; lia|congruence].
  - intros i c s' El Hc Hav I _ Econn. rewrite Nat2Z.id. destruct (conn_at_ok i c s H Hc) as [_ Hi].
    assert (~ ((2 <= count_conns (is_held (u32 (uid me))) (snd s))%nat \/ (count_conns is_available (snd s) <= 2)%nat)) as Hno
      by (rewrite <- Hlim; congruence).
    split_and!; [done|rewrite <- Hlim; split; [unfold TCP_SOCKET_LIMIT; lia|congruence]|unfold TCP_SOCKET_LIMIT; lia|].
    intros _. exists c. pose proof (count_insert (is_held (u32 (uid me))) i c _ (snd s) (snd s') Hc Econn) as C1.
    pose proof (count_insert is_available i c _ (snd s) (snd s') Hc Econn) as C2.
    unfold bit in C1, C2. rewrite Hav in C2. cbn in C2. destruct (is_held _ c), (is_held _ (fresh_connection _));
      split_and!; try done; unfold in_range; change (Z.of_nat TCP_MAX_CONNECTIONS) with 8; lia.
Qed.

Lemma tcp_socket_limits_witness :
  exists r s', tcp_socket 100 (Some (mk_caller 1000 1000 7 1)) (link0, tcp0 established0) = Ok (r, s') /\ tcp_inv s'.
Proof.
  destruct (tcp_socket_limits 100 (mk_caller 1000 1000 7 1) (link0, tcp0 established0) (tcp0_inv _ established0_ok))
    as (r & s' & E & I & _); [vm_compute; congruence|]. exists r, s'. split; [exact E|exact I].
Defined.

(** ** Timers *)

(** Timers: [tcp_tick] never faults, keeps the invariant and treats every
    slot on its own.  A connection of a live owner in a waiting state whose time is
    up (10 s for a handshake, 60 s for closing, 30 s in TIME_WAIT) is free
    afterwards; any other keeps its state, its peer, its received bytes and its
    place in both streams. *)
Theorem tcp_tick_spec ticks current s :
  tcp_inv s ->
  exists s', tcp_tick ticks current s = Ok (tt, s') /\ tcp_inv s' /\ out_step (fst s) (fst s') /\
    forall i c, conn_at s i c -> exists c', conn_at s' i c' /\
      (in_use c = false -> c' = c) /\
      (in_use c = true -> orphaned (own c) = false ->
         if timed_out current c then in_use c' = false /\ state c' = TCP_CLOSED
         else in_use c' = true /\ state c' = state c /\ who c' = who c /\ rx c' = rx c /\ tx c' = tx c /\
              snd_nxt (sq c') = snd_nxt (sq c) /\ rcv_nxt (sq c') = rcv_nxt (sq c)).
Proof.
  intros H. apply wp_exists, tick_ok; [done|]. intros s' I O _ F. split_and!; [done..|]. intros i c Hc.
  destruct (Forall2_lookup_l _ _ _ _ _ F Hc) as (c' & Hc' & c1 & Hd & Ht). exists c'. unfold disowned in Hd. split_and!; [done|..].
  - intros Hu. rewrite Hu in Hd. cbn [andb] in Hd. subst c1. by rewrite Hu in Ht.
  - intros Hu Ho. rewrite Hu, Ho in Hd. cbn [andb] in Hd. subst c1. rewrite Hu in Ht. destruct Ht as [[_ Ew Er En _] Et Hout Hstay].
    destruct (timed_out current c); [by apply Hout|]. destruct (Hstay eq_refl) as (E1 & E2 & _ & E4). split_and!; congruence.
Qed.

Definition time_wait0 : tcp_connection := put_time_wait 1000 (put_state TCP_TIME_WAIT established0).

Lemma tcp_tick_spec_witness :
  exists s', tcp_tick 4000 40000 (link0, tcp0 time_wait0) = Ok (tt, s') /\ tcp_inv s'.
Proof.
  destruct (tcp_tick_spec 4000 40000 (link0, tcp0 time_wait0)) as (s' & E & I & _).
  - apply tcp0_inv. destruct established0_ok. constructor; assumption.
  - exists s'. split; [exact E|exact I].
Defined.

End TcpProps.
