(* ===== verification/Clock.v ===== *)
(** The clock (src/time.c): calendar arithmetic, Unix time stamps, the system
    time that is advanced from timer ticks, and the real-time clock registers.

    [pit_get_ticks] is an argument.  What the RTC delivers is an argument of
    [rtc_read_datetime]: per attempt the two readings, or nothing when the chip
    stays busy; the registers are a record. *)
From Stdlib Require Import ZArith Lia List Bool.
From stdpp Require Import base tactics numbers list.
From S2P Require Import Prelude.
Open Scope Z_scope.

Module Clock.

Record datetime := mk_dt {
  year : Z; month : Z; day : Z; hour : Z; minute : Z; second : Z; weekday : Z }.

(** * Calendar *)

Definition is_leap_year (year : Z) : bool :=
  if year mod 400 =? 0 then true
  else if year mod 100 =? 0 then false
  else if year mod 4 =? 0 then true
  else false.

(** Zeller's congruence, in [int] up to the assignment to [h]; the remainder
    of C is truncated towards zero. *)
Definition get_day_of_week (year month day : Z) : Z :=
  let '(month, year) := if month <? 3 then (u8 (month + 12), u16 (year - 1)) else (month, year) in
  let century := year / 100 in
  let year_of_century := year mod 100 in
  let h := u32 (Z.rem (day + (13 * (month + 1)) / 5 + year_of_century +
                       year_of_century / 4 + century / 4 - 2 * century) 7) in
  u8 ((h +32 6) mod 7).

Definition days_in_month : list Z := [31; 28; 31; 30; 31; 30; 31; 31; 30; 31; 30; 31].

(** * Unix time *)

(** [for (y = 1970; y < year; y++) days += ...] *)
Fixpoint add_years (n : nat) (y days : Z) : Z :=
  match n with
  | O => days
  | S n' => add_years n' (y + 1) (u64 (days + if is_leap_year y then 366 else 365))
  end.

(** [for (m = 1; m < month; m++) days += ...] *)
Fixpoint add_months (n : nat) (leap : bool) (m days : Z) : result Z :=
  match n with
  | O => Ok days
  | S n' =>
      match aget days_in_month (m - 1) with
      | Err f => Err f
      | Ok d =>
          let days := u64 (days + d) in
          let days := if (m =? 2) && leap then u64 (days + 1) else days in
          add_months n' leap (m + 1) days
      end
  end.

Definition UINT32_MAX : Z := 0xFFFFFFFF.

Definition datetime_to_timestamp (dt : datetime) : result Z :=
  if year dt <? 1970 then Ok 0 else
  let days := add_years (iters 1970 (year dt)) 1970 0 in
  match add_months (iters 1 (month dt)) (is_leap_year (year dt)) 1 days with
  | Err f => Err f
  | Ok days =>
      let days := u64 (days + (day dt - 1)) in
      let seconds := u64 (days * 86400) in
      let seconds := u64 (seconds + hour dt * 3600) in
      let seconds := u64 (seconds + minute dt * 60) in
      let seconds := u64 (seconds + second dt) in
      if UINT32_MAX <? seconds then Ok UINT32_MAX else Ok (u32 seconds)
  end.

(** The loops of [timestamp_to_datetime]. *)
Fixpoint year_loop (fuel : nat) (y days : Z) : result (Z * Z) :=
  match fuel with
  | O => Err NoTermination
  | S fuel' =>
      let days_in_year := if is_leap_year y then 366 else 365 in
      if days <? days_in_year then Ok (y, days)
      else year_loop fuel' (u16 (y + 1)) (days -32 days_in_year)
  end.

Fixpoint month_loop (fuel : nat) (leap : bool) (m days : Z) : result (Z * Z) :=
  match fuel with
  | O => Err NoTermination
  | S fuel' =>
      if m <=? 12 then
        match aget days_in_month (m - 1) with
        | Err f => Err f
        | Ok d =>
            let days_this_month := if (m =? 2) && leap then 29 else d in
            if days <? days_this_month then Ok (m, days)
            else month_loop fuel' leap (u8 (m + 1)) (days -32 days_this_month)
        end
      else Ok (m, days)
  end.

Definition timestamp_to_datetime (timestamp : Z) : result datetime :=
  let sec := timestamp mod 60 in
  let timestamp := timestamp / 60 in
  let min := timestamp mod 60 in
  let timestamp := timestamp / 60 in
  let hr := timestamp mod 24 in
  let days := timestamp / 24 in
  let wd := (days +32 4) mod 7 in
  match year_loop 200 1970 days with
  | Err f => Err f
  | Ok (y, days) =>
      match month_loop 13 (is_leap_year y) 1 days with
      | Err f => Err f
      | Ok (m, days) => Ok (mk_dt y m (u8 (days + 1)) hr min sec wd)
      end
  end.

(** * System time *)

Record clock := mk_clock { system_time : datetime; last_update_ticks : Z; time_initialized : bool }.

(** One turn of the loop that adds days. *)
Definition next_day (t : datetime) : datetime :=
  let d := u8 (day t + 1) in
  let wd := u8 ((weekday t + 1) mod 7) in
  let days_in_month :=
    if (month t =? 4) || (month t =? 6) || (month t =? 9) || (month t =? 11) then 30
    else if month t =? 2 then (if is_leap_year (year t) then 29 else 28)
    else 31 in
  if days_in_month <? d then
    let m := u8 (month t + 1) in
    if 12 <? m then mk_dt (u16 (year t + 1)) 1 1 (hour t) (minute t) (second t) wd
    else mk_dt (year t) m 1 (hour t) (minute t) (second t) wd
  else mk_dt (year t) (month t) d (hour t) (minute t) (second t) wd.

Definition advance (t : datetime) (elapsed_seconds : Z) : datetime :=
  let total_seconds := second t +32 elapsed_seconds in
  let carry_minutes := total_seconds / 60 in
  let total_minutes := minute t +32 carry_minutes in
  let carry_hours := total_minutes / 60 in
  let total_hours := hour t +32 carry_hours in
  let t := mk_dt (year t) (month t) (day t) (u8 (total_hours mod 24)) (u8 (total_minutes mod 60))
             (u8 (total_seconds mod 60)) (weekday t) in
  if 24 <=? total_hours then Nat.iter (Z.to_nat (total_hours / 24)) next_day t else t.

Definition time_get_datetime (current_ticks : Z) (c : clock) : option datetime * clock :=
  if negb (time_initialized c) then (None, c) else
  let elapsed_ticks := current_ticks -32 last_update_ticks c in
  let elapsed_seconds := elapsed_ticks / 100 in
  let temp := advance (system_time c) elapsed_seconds in
  (Some temp, mk_clock temp (last_update_ticks c +32 elapsed_seconds *32 100) true).

Definition time_get_uptime_seconds (ticks : Z) : Z := ticks / 100.

(** * Real-time clock *)

Definition bcd_to_binary (bcd : Z) : Z := u8 (Z.shiftr bcd 4 * 10 + Z.land bcd 0x0F).
Definition binary_to_bcd (binary : Z) : Z := u8 (Z.lor (Z.shiftl (binary / 10) 4) (binary mod 10)).

(** The CMOS registers of the chip that the file uses. *)
Record rtc := mk_rtc {
  rtc_seconds : Z; rtc_minutes : Z; rtc_hours : Z; rtc_weekday : Z;
  rtc_day : Z; rtc_month : Z; rtc_year : Z; rtc_status_b : Z }.

Definition RTC_24_HOUR : Z := 0x02.
Definition RTC_BINARY : Z := 0x04.

Definition rtc_init (r : rtc) : rtc :=
  mk_rtc (rtc_seconds r) (rtc_minutes r) (rtc_hours r) (rtc_weekday r) (rtc_day r) (rtc_month r)
    (rtc_year r) (Z.lor (rtc_status_b r) (Z.lor RTC_24_HOUR RTC_BINARY)).

Definition readings_match (r1 r2 : rtc) : bool :=
  ((rtc_seconds r1 =? rtc_seconds r2) || (rtc_seconds r2 =? rtc_seconds r1 + 1)) &&
  (rtc_minutes r1 =? rtc_minutes r2) && (rtc_hours r1 =? rtc_hours r2) &&
  (rtc_day r1 =? rtc_day r2) && (rtc_month r1 =? rtc_month r2) && (rtc_year r1 =? rtc_year r2).

(** The attempts: [None] where the chip stays busy, else two readings. *)
Fixpoint rtc_attempts (n : nat) (samples : list (option (rtc * rtc))) (acc : rtc) : rtc :=
  match n, samples with
  | S n', Some (r1, r2) :: samples' => if readings_match r1 r2 then r1 else rtc_attempts n' samples' r1
  | S n', None :: samples' => rtc_attempts n' samples' acc
  | _, _ => acc
  end.

Definition rtc_read_datetime (samples : list (option (rtc * rtc))) (status_b : Z) : datetime :=
  let r := rtc_attempts 3 samples (mk_rtc 0 0 0 0 1 1 0 0) in
  let conv := if Z.land status_b RTC_BINARY =? 0 then bcd_to_binary else fun v => v in
  mk_dt (2000 + conv (rtc_year r)) (conv (rtc_month r)) (conv (rtc_day r)) (conv (rtc_hours r))
    (conv (rtc_minutes r)) (conv (rtc_seconds r)) (if 0 <? rtc_weekday r then rtc_weekday r - 1 else 0).

Definition time_init (samples : list (option (rtc * rtc))) (status_b ticks : Z) (c : clock) : clock :=
  mk_clock (rtc_read_datetime samples status_b) ticks true.

Definition set_valid (dt : datetime) : bool :=
  if (month dt <? 1) || (12 <? month dt) || (day dt <? 1) ||
     (23 <? hour dt) || (59 <? minute dt) || (59 <? second dt) then false
  else
    let max_day := days_in_month !!! Z.to_nat (month dt - 1) in
    let max_day := if (month dt =? 2) && is_leap_year (year dt) then 29 else max_day in
    negb (max_day <? day dt).

(** The chip is idle when the wait loop ends. *)
Definition time_set_datetime (dt : datetime) (ticks : Z) (c : clock) (r : rtc) : bool * clock * rtc :=
  if negb (set_valid dt) then (false, c, r) else
  let year := u8 (if 2000 <=? year dt then year dt - 2000 else year dt) in
  let conv := if Z.land (rtc_status_b r) RTC_BINARY =? 0 then binary_to_bcd else fun v => v in
  (true, mk_clock dt ticks true,
   mk_rtc (conv (second dt)) (conv (minute dt)) (conv (hour dt)) (rtc_weekday r) (conv (day dt))
     (conv (month dt)) (conv year) (rtc_status_b r)).


(** * Reference calendar *)

(** Leap years up to and including [n], and days from the epoch to a year. *)
Definition leaps (n : Z) : Z := n / 4 - n / 100 + n / 400.
Definition year_start (y : Z) : Z := 365 * (y - 1970) + leaps (y - 1) - leaps 1969.
Definition year_len (y : Z) : Z := if is_leap_year y then 366 else 365.
Definition month_len (leap : bool) (m : Z) : Z :=
  if (m =? 2) && leap then 29 else days_in_month !!! Z.to_nat (m - 1).
(** Days before a month. *)
Definition month_start (leap : bool) (m : Z) : Z :=
  [0; 31; 59; 90; 120; 151; 181; 212; 243; 273; 304; 334; 365] !!! Z.to_nat (m - 1) +
  (if leap && (2 <? m) then 1 else 0).

(** Days and seconds since 1970-01-01 00:00:00 in the Gregorian calendar. *)
Definition day_number (y m d : Z) : Z := year_start y + month_start (is_leap_year y) m + d - 1.
Definition seconds_of (dt : datetime) : Z :=
  86400 * day_number (year dt) (month dt) (day dt) + 3600 * hour dt + 60 * minute dt + second dt.

Record valid_date (y m d : Z) : Prop := mk_valid_date {
  valid_month : 1 <= m <= 12; valid_day : 1 <= d <= month_len (is_leap_year y) m }.
Record valid (dt : datetime) : Prop := mk_valid {
  valid_ymd : valid_date (year dt) (month dt) (day dt);
  valid_hour : 0 <= hour dt < 24; valid_minute : 0 <= minute dt < 60; valid_second : 0 <= second dt < 60 }.

Lemma year_start_step y : year_start (y + 1) = year_start y + year_len y.
Proof.
  unfold year_start, year_len, leaps, is_leap_year. replace (y + 1 - 1) with y by lia.
  destruct (Z.eqb_spec (y mod 400) 0), (Z.eqb_spec (y mod 100) 0), (Z.eqb_spec (y mod 4) 0);
    Z.to_euclidean_division_equations; lia.
Qed.

Lemma year_start_mono y z : y <= z -> 365 * (z - y) <= year_start z - year_start y.
Proof. unfold year_start, leaps. intros H. Z.to_euclidean_division_equations; lia. Qed.

Ltac month_cases H :=
  match type of H with
  | 1 <= ?m <= 12 =>
      assert (m = 1 \/ m = 2 \/ m = 3 \/ m = 4 \/ m = 5 \/ m = 6 \/ m = 7 \/ m = 8 \/ m = 9 \/ m = 10 \/ m = 11 \/ m = 12)
        as Hmonth by lia;
      clear H; repeat destruct Hmonth as [->|Hmonth]; [..|first [subst m | rewrite Hmonth; clear Hmonth]]
  end.

Lemma month_start_step leap m : 1 <= m <= 12 -> month_start leap (m + 1) = month_start leap m + month_len leap m.
Proof. intros H. destruct leap; month_cases H; done. Qed.

Lemma month_start_1 leap : month_start leap 1 = 0.
Proof. by destruct leap. Qed.

Lemma december_end leap : month_start leap 12 + month_len leap 12 = if leap then 366 else 365.
Proof. by destruct leap. Qed.

Lemma month_len_bounds leap m : 1 <= m <= 12 -> 28 <= month_len leap m <= 31.
Proof. intros H. destruct leap; month_cases H; vm_compute; split; congruence. Qed.

Lemma month_start_bounds leap m : 1 <= m <= 12 ->
  0 <= month_start leap m /\ month_start leap m + month_len leap m <= if leap then 366 else 365.
Proof. intros H. destruct leap; month_cases H; vm_compute; split; congruence. Qed.

Lemma days_in_month_get m : 1 <= m <= 12 -> exists d, aget days_in_month (m - 1) = Ok d /\
  d = days_in_month !!! Z.to_nat (m - 1) /\ 0 <= d <= 31.
Proof. intros H. month_cases H; eexists; (split; [reflexivity|vm_compute; intuition congruence]). Qed.

Lemma add_years_ok n y : 1970 <= y -> y + Z.of_nat n <= 65536 ->
  add_years n y (year_start y) = year_start (y + Z.of_nat n).
Proof.
  revert y. induction n as [|n IH]; intros y Hy Hn; cbn [add_years]; [f_equal; lia|].
  pose proof (year_start_mono 1970 y Hy) as Hlo. change (year_start 1970) with 0 in Hlo.
  pose proof (year_start_mono y 65536 ltac:(lia)). change (year_start 65536) with 23217004 in *.
  fold (year_len y). rewrite <- year_start_step, u64_small.
  - rewrite IH by lia. f_equal. lia.
  - rewrite year_start_step. unfold year_len. destruct (is_leap_year y); lia.
Qed.

Lemma add_months_ok n leap m base : 1 <= m -> m + Z.of_nat n <= 13 -> 0 <= base < 2 ^ 32 ->
  add_months n leap m (base + month_start leap m) = Ok (base + month_start leap (m + Z.of_nat n)).
Proof.
  intros Hm Hn Hbase. revert m Hm Hn. induction n as [|n IH]; intros m Hm Hn; cbn [add_months].
  { do 3 f_equal. lia. }
  destruct (days_in_month_get m) as (d & -> & Hd & Hd'); [lia|]. cbv zeta.
  pose proof (month_start_bounds leap m ltac:(lia)). pose proof (month_len_bounds leap m ltac:(lia)).
  assert ((if (m =? 2) && leap then u64 (u64 (base + month_start leap m + d) + 1) else u64 (base + month_start leap m + d))
          = base + month_start leap (m + 1)) as ->.
  { rewrite month_start_step by lia. unfold month_len. rewrite <- Hd. change (2 ^ 32) with 4294967296 in *.
    rewrite (u64_small (base + month_start leap m + d)) by (destruct leap; lia).
    destruct (Z.eqb_spec m 2) as [->|]; simpl; [|lia].
    assert (d = 28) as -> by (rewrite Hd; done). destruct leap; simpl in *; [|lia]. rewrite u64_small; lia. }
  rewrite IH by lia. do 3 f_equal. lia.
Qed.

Lemma valid_day_number y m d : 1970 <= y <= 65535 -> valid_date y m d ->
  year_start y <= day_number y m d < year_start (y + 1) /\ 0 <= day_number y m d < 23217004.
Proof.
  intros Hy [Hm Hd]. pose proof (year_start_mono 1970 y ltac:(lia)). pose proof (year_start_mono (y + 1) 65536 ltac:(lia)).
  change (year_start 1970) with 0 in *. change (year_start 65536) with 23217004 in *.
  rewrite year_start_step in *. unfold day_number, year_len in *.
  pose proof (month_start_bounds (is_leap_year y) m Hm). destruct (is_leap_year y); lia.
Qed.

Lemma to_timestamp_ok dt : 1970 <= year dt <= 65535 -> valid dt ->
  datetime_to_timestamp dt = Ok (Z.min UINT32_MAX (seconds_of dt)).
Proof.
  intros Hy [Hv Hh Hm Hs]. pose proof (valid_day_number _ _ _ Hy Hv) as [_ Hdn]. destruct Hv as [Hmo Hd].
  unfold datetime_to_timestamp. destruct (Z.ltb_spec (year dt) 1970); [lia|].
  change 0 with (year_start 1970) at 1. rewrite add_years_ok by (unfold iters; lia).
  unfold iters at 2. replace (1970 + Z.of_nat (Z.to_nat (year dt - 1970))) with (year dt) by lia.
  pose proof (year_start_mono 1970 (year dt) ltac:(lia)). pose proof (year_start_mono (year dt) 65536 ltac:(lia)).
  change (year_start 1970) with 0 in *. change (year_start 65536) with 23217004 in *.
  replace (year_start (year dt)) with (year_start (year dt) + month_start (is_leap_year (year dt)) 1)
    by (rewrite month_start_1; lia).
  rewrite add_months_ok by (unfold iters; lia). unfold iters.
  replace (1 + Z.of_nat (Z.to_nat (month dt - 1))) with (month dt) by lia.
  replace (year_start (year dt) + month_start (is_leap_year (year dt)) (month dt) + (day dt - 1))
    with (day_number (year dt) (month dt) (day dt)) by (unfold day_number; lia).
  unfold seconds_of. set (n := day_number _ _ _) in *.
  rewrite (u64_small n), (u64_small (n * 86400)), (u64_small (_ + hour dt * 3600)),
    (u64_small (_ + minute dt * 60)), (u64_small (_ + second dt)) by lia.
  unfold UINT32_MAX. destruct (Z.ltb_spec 0xFFFFFFFF (n * 86400 + hour dt * 3600 + minute dt * 60 + second dt)).
  - f_equal. lia.
  - rewrite u32_small by lia. f_equal. lia.
Qed.

Lemma year_loop_ok fuel y days : 1970 <= y -> y + Z.of_nat fuel <= 65535 ->
  0 <= days < 2 ^ 32 -> year_start y + days < year_start (y + Z.of_nat fuel) ->
  exists y' days', year_loop fuel y days = Ok (y', days') /\ y <= y' < y + Z.of_nat fuel /\
    year_start y + days = year_start y' + days' /\ 0 <= days' < year_len y'.
Proof.
  change (2 ^ 32) with 4294967296.
  revert y days. induction fuel as [|fuel IH]; intros y days Hy Hf Hd Hlt; cbn [year_loop].
  { rewrite Z.add_0_r in Hlt. lia. }
  fold (year_len y). destruct (Z.ltb_spec days (year_len y)) as [Hl|Hl].
  - exists y, days. repeat split; lia.
  - assert (365 <= year_len y <= 366) by (unfold year_len; destruct (is_leap_year y); lia).
    rewrite u16_small, u32_small by lia.
    destruct (IH (y + 1) (days - year_len y)) as (y' & d' & E & Hy' & Hs & Hd'); [lia..| |].
    + rewrite year_start_step. replace (y + 1 + Z.of_nat fuel) with (y + Z.of_nat (S fuel)) by lia. lia.
    + exists y', d'. rewrite year_start_step in Hs. repeat split; [done|lia..].
Qed.

Lemma month_loop_ok fuel leap m days : 1 <= m <= 12 -> 12 < m + Z.of_nat fuel ->
  0 <= days -> month_start leap m + days < (if leap then 366 else 365) ->
  exists m' days', month_loop fuel leap m days = Ok (m', days') /\ 1 <= m' <= 12 /\
    month_start leap m + days = month_start leap m' + days' /\ 0 <= days' < month_len leap m'.
Proof.
  revert m days. induction fuel as [|fuel IH]; intros m days Hm Hf Hd Hlt; cbn [month_loop]; [lia|].
  destruct (Z.leb_spec m 12); [|lia]. destruct (days_in_month_get m Hm) as (d & -> & Hd' & _). cbv zeta.
  rewrite Hd'. fold (month_len leap m). pose proof (month_len_bounds leap m Hm).
  pose proof (month_start_bounds leap m Hm). pose proof (month_start_step leap m Hm) as Hstep.
  destruct (Z.ltb_spec days (month_len leap m)) as [Hl|Hl].
  - exists m, days. repeat split; lia.
  - rewrite u8_small, u32_small by (destruct leap; lia).
    assert (m <> 12).
    { intros ->. pose proof (december_end leap). lia. }
    destruct (IH (m + 1) (days - month_len leap m)) as (m' & d' & E & Hm' & Hs & Hd''); [lia..|].
    exists m', d'. repeat split; [done|lia..].
Qed.


Lemma zeller_mod x : -1000000 <= x <= 1000000 -> u8 ((u32 (Z.rem x 7) +32 6) mod 7) = (x + 6) mod 7.
Proof. intros H. u_lia. Qed.

Lemma zeller_year y :
  y mod 100 + y mod 100 / 4 + y / 100 / 4 - 2 * (y / 100) = y + leaps y - 126 * (y / 100).
Proof. unfold leaps. Z.to_euclidean_division_equations; lia. Qed.

Lemma mod7_eq a b k : a = b + k * 7 -> a mod 7 = b mod 7.
Proof. intros ->. apply Z.mod_add. lia. Qed.

Lemma leaps_step y : leaps y = leaps (y - 1) + if is_leap_year y then 1 else 0.
Proof.
  pose proof (year_start_step y) as H. unfold year_start, year_len in H.
  replace (y + 1 - 1) with y in H by lia. destruct (is_leap_year y); lia.
Qed.

Lemma day_of_week_ok y m d : 1 <= y <= 65535 -> valid_date y m d ->
  get_day_of_week y m d = (day_number y m d + 4) mod 7.
Proof.
  intros Hy [Hm Hd]. pose proof (month_len_bounds (is_leap_year y) m Hm) as Hml.
  assert (1 <= d <= 31) as Hd' by lia. clear Hd Hml.
  assert (forall y0 mm, 0 <= y0 <= 65535 -> 3 <= mm <= 14 ->
    u8 ((u32 (Z.rem (d + 13 * (mm + 1) / 5 + y0 mod 100 + y0 mod 100 / 4 + y0 / 100 / 4 - 2 * (y0 / 100)) 7) +32 6) mod 7)
      = (d + 13 * (mm + 1) / 5 + y0 + leaps y0 - 126 * (y0 / 100) + 6) mod 7) as Hz.
  { intros y0 mm H0 Hmm. rewrite zeller_mod by (Z.to_euclidean_division_equations; lia).
    f_equal. pose proof (zeller_year y0). lia. }
  unfold get_day_of_week, day_number, year_start. change (leaps 1969) with 477.
  destruct (Z.ltb_spec m 3) as [Hm3|Hm3].
  - rewrite (u8_small (m + 12)), (u16_small (y - 1)), Hz by lia.
    assert (m = 1 \/ m = 2) as [-> | ->] by lia.
    + apply mod7_eq with (k := - (52 * (y - 1970)) - 18 * ((y - 1) / 100) + 355). rewrite month_start_1.
      change (13 * (1 + 12 + 1) / 5) with 36. lia.
    + apply mod7_eq with (k := - (52 * (y - 1970)) - 18 * ((y - 1) / 100) + 351).
      replace (month_start (is_leap_year y) 2) with 31 by by destruct (is_leap_year y).
      change (13 * (2 + 12 + 1) / 5) with 39. lia.
  - rewrite Hz by lia. rewrite (leaps_step y). clear Hz.
    assert (month_start (is_leap_year y) m = month_start false m + if is_leap_year y then 1 else 0) as ->.
    { unfold month_start. destruct (Z.ltb_spec 2 m); [|lia]. rewrite andb_true_r. simpl. lia. }
    set (b := if is_leap_year y then 1 else 0). clearbody b.
    apply mod7_eq with (k := - (52 * (y - 1970)) - 18 * (y / 100) + 350 + (13 * (m + 1) / 5 - month_start false m) / 7).
    assert (exists k, 13 * (m + 1) / 5 = month_start false m + 7 * k) as [k ->].
    { exists ((13 * (m + 1) / 5 - month_start false m) / 7). clear - Hm Hm3. month_cases Hm; done || lia. }
    replace (month_start false m + 7 * k - month_start false m) with (k * 7) by lia. rewrite Z.div_mul; lia.
Qed.


(** * Time stamps *)

Lemma to_datetime_ok t : 0 <= t < 2 ^ 32 -> exists dt,
  timestamp_to_datetime t = Ok dt /\ valid dt /\ 1970 <= year dt < 2170 /\ seconds_of dt = t /\
  weekday dt = (day_number (year dt) (month dt) (day dt) + 4) mod 7.
Proof.
  change (2 ^ 32) with 4294967296. intros Ht. unfold timestamp_to_datetime.
  assert (t / 60 / 60 / 24 = t / 86400 /\ 0 <= t / 86400 < 49711) as [Edays Hdays]
    by (Z.to_euclidean_division_equations; lia).
  rewrite Edays. set (days := t / 86400) in *.
  destruct (year_loop_ok 200 1970 days) as (y & d1 & -> & Hy & Ey & Hd1); [lia..| |].
  { change (year_start 1970) with 0. change (year_start (1970 + Z.of_nat 200)) with 73049. lia. }
  change (year_start 1970) with 0 in Ey.
  destruct (month_loop_ok 13 (is_leap_year y) 1 d1) as (m & d2 & -> & Hm & Em & Hd2); [lia..| |].
  { rewrite month_start_1. unfold year_len in Hd1. lia. }
  rewrite month_start_1 in Em. pose proof (month_len_bounds (is_leap_year y) m Hm).
  rewrite u8_small by lia. eexists. split; [done|].
  assert (day_number y m (d2 + 1) = days) as Edn by (unfold day_number; lia).
  split_and!; simpl; [|lia|lia| |].
  - constructor; simpl; [constructor; lia|Z.to_euclidean_division_equations; lia..].
  - unfold seconds_of. simpl. rewrite Edn. subst days. Z.to_euclidean_division_equations; lia.
  - rewrite Edn, u32_small by lia. done.
Qed.

Lemma date_unique y m d y' m' d' : valid_date y m d -> valid_date y' m' d' -> 1970 <= y <= 65535 -> 1970 <= y' <= 65535 ->
  day_number y m d = day_number y' m' d' -> y = y' /\ m = m' /\ d = d'.
Proof.
  intros Hv Hv' Hy Hy' E.
  pose proof (valid_day_number _ _ _ Hy Hv) as [H1 _]. pose proof (valid_day_number _ _ _ Hy' Hv') as [H2 _].
  assert (y = y') as <-.
  { destruct (Z.lt_total y y') as [Hlt|[?|Hlt]]; [|done|].
    - pose proof (year_start_mono (y + 1) y' ltac:(lia)). lia.
    - pose proof (year_start_mono (y' + 1) y ltac:(lia)). lia. }
  destruct Hv as [Hm Hd], Hv' as [Hm' Hd']. unfold day_number in E.
  assert (forall a b, 1 <= a <= 12 -> 1 <= b <= 12 -> a < b ->
    month_start (is_leap_year y) a + month_len (is_leap_year y) a <= month_start (is_leap_year y) b) as Hmono.
  { intros a b Ha Hb Hab. clear - Ha Hb Hab. destruct (is_leap_year y);
      month_cases Ha; month_cases Hb; try lia; vm_compute; congruence. }
  assert (m = m') as <-.
  { destruct (Z.lt_total m m') as [Hlt|[?|Hlt]]; [|done|].
    - pose proof (Hmono m m' Hm Hm' Hlt). lia.
    - pose proof (Hmono m' m Hm' Hm Hlt). lia. }
  split_and!; lia.
Qed.

Lemma seconds_unique a b : valid a -> valid b -> 1970 <= year a <= 65535 -> 1970 <= year b <= 65535 ->
  seconds_of a = seconds_of b -> weekday a = weekday b -> a = b.
Proof.
  intros [] [] Ha Hb E Ew. unfold seconds_of in E.
  destruct (date_unique _ _ _ _ _ _ valid_ymd0 valid_ymd1 Ha Hb) as (? & ? & ?); [lia|].
  destruct a, b; simpl in *. f_equal; lia.
Qed.

(** C36. Time stamps and dates are in bijection: every 32-bit time stamp converts,
    without a fault and in a bounded number of steps, to the valid Gregorian
    date and day of the week it denotes, which converts back to it; and a valid
    date from 1970 on converts to the seconds since the epoch, clamped at
    2^32 - 1, and, when it was not clamped, back to the same date. *)
Theorem timestamp_roundtrip :
  (forall t, 0 <= t < 2 ^ 32 -> exists dt,
     timestamp_to_datetime t = Ok dt /\ valid dt /\ seconds_of dt = t /\
     weekday dt = get_day_of_week (year dt) (month dt) (day dt) /\
     datetime_to_timestamp dt = Ok t) /\
  (forall dt, valid dt -> 1970 <= year dt <= 65535 ->
     datetime_to_timestamp dt = Ok (Z.min (2 ^ 32 - 1) (seconds_of dt)) /\
     (seconds_of dt < 2 ^ 32 -> weekday dt = get_day_of_week (year dt) (month dt) (day dt) ->
      timestamp_to_datetime (seconds_of dt) = Ok dt)).
Proof.
  split.
  - intros t Ht. destruct (to_datetime_ok t Ht) as (dt & E & Hv & Hy & Es & Ew). exists dt.
    split_and!; [done..| |].
    + rewrite day_of_week_ok; [done|lia|apply Hv].
    + rewrite to_timestamp_ok by (done || lia). f_equal. unfold UINT32_MAX. lia.
  - intros dt Hv Hy. split; [by rewrite to_timestamp_ok|]. intros Hlt Hw.
    assert (0 <= seconds_of dt).
    { pose proof (valid_day_number _ _ _ Hy (valid_ymd _ Hv)). destruct Hv. unfold seconds_of. lia. }
    destruct (to_datetime_ok (seconds_of dt)) as (dt' & E & Hv' & Hy' & Es & Ew); [lia|]. rewrite E. f_equal.
    rewrite day_of_week_ok in Hw; [|lia|apply Hv].
    assert (day_number (year dt') (month dt') (day dt') = day_number (year dt) (month dt) (day dt)) as Edn.
    { destruct Hv, Hv'. unfold seconds_of in Es. lia. }
    apply seconds_unique; try done; [lia|]. congruence.
Qed.

(** [get_day_of_week] is the day of the week of the Gregorian calendar (0 is
    Sunday) for every valid date of the years 1 to 65535, in spite of the
    negative intermediate values. *)
Theorem get_day_of_week_spec y m d :
  1 <= y <= 65535 -> valid_date y m d -> get_day_of_week y m d = (day_number y m d + 4) mod 7.
Proof. apply day_of_week_ok. Qed.

Lemma get_day_of_week_spec_witness : get_day_of_week 2000 3 1 = 3.
Proof.
  rewrite (get_day_of_week_spec 2000 3 1); [reflexivity|lia|].
  constructor; vm_compute; split; congruence.
Defined.

(** * The running clock *)

(** A valid date with its day of the week. *)
Definition good (t : datetime) : Prop :=
  valid t /\ 1970 <= year t <= 65535 /\ weekday t = (day_number (year t) (month t) (day t) + 4) mod 7.

Definition max_seconds : Z := 86400 * year_start 65535.

Lemma good_year t : good t -> seconds_of t < max_seconds -> year t < 65535.
Proof.
  intros (Hv & Hy & _) H. pose proof (valid_day_number _ _ _ Hy (valid_ymd _ Hv)) as [Hdn _].
  destruct (Z.eq_dec (year t) 65535) as [E|]; [|lia]. exfalso.
  rewrite E in Hdn. unfold max_seconds, seconds_of in H. rewrite E in H. destruct Hv.
  set (n := day_number _ _ _) in *. clearbody n. set (k := year_start 65535) in *. clearbody k. lia.
Qed.

Lemma next_day_len t : valid t ->
  (if (month t =? 4) || (month t =? 6) || (month t =? 9) || (month t =? 11) then 30
   else if month t =? 2 then (if is_leap_year (year t) then 29 else 28) else 31)
  = month_len (is_leap_year (year t)) (month t).
Proof.
  intros [[Hm _] _ _ _]. destruct (is_leap_year (year t)); revert Hm; generalize (month t); intros m Hm;
    month_cases Hm; done.
Qed.

Lemma next_day_ok t : good t -> year t < 65535 ->
  good (next_day t) /\ seconds_of (next_day t) = seconds_of t + 86400.
Proof.
  intros (Hv & Hy & Hw) Hlt. unfold next_day. rewrite next_day_len by done.
  pose proof (valid_ymd _ Hv) as [Hm Hd]. pose proof (month_len_bounds (is_leap_year (year t)) _ Hm).
  pose proof (month_start_step (is_leap_year (year t)) _ Hm) as Hstep.
  rewrite (u8_small (day t + 1)), (u8_small (month t + 1)), (u16_small (year t + 1)) by lia.
  assert (u8 ((weekday t + 1) mod 7) = (day_number (year t) (month t) (day t) + 1 + 4) mod 7) as Ew.
  { rewrite Hw, u8_small by (Z.to_euclidean_division_equations; lia).
    rewrite Zplus_mod_idemp_l. f_equal. lia. }
  rewrite Ew. clear Ew Hw. destruct Hv as [_ ? ? ?].
  cut (forall y m d, valid_date y m d -> 1970 <= y <= 65535 ->
        day_number y m d = day_number (year t) (month t) (day t) + 1 ->
        good (mk_dt y m d (hour t) (minute t) (second t) ((day_number (year t) (month t) (day t) + 1 + 4) mod 7)) /\
        seconds_of (mk_dt y m d (hour t) (minute t) (second t) ((day_number (year t) (month t) (day t) + 1 + 4) mod 7))
          = seconds_of t + 86400).
  { intros Hcut. destruct (Z.ltb_spec (month_len (is_leap_year (year t)) (month t)) (day t + 1)) as [Hover|Hin].
    - destruct (Z.ltb_spec 12 (month t + 1)) as [Hdec|Hmon]; apply Hcut.
      + constructor; [lia|]. pose proof (month_len_bounds (is_leap_year (year t + 1)) 1). lia.
      + lia.
      + assert (month t = 12) as Em by lia. unfold day_number. rewrite year_start_step, month_start_1, Em in *.
        pose proof (december_end (is_leap_year (year t))). unfold year_len. lia.
      + constructor; [lia|]. pose proof (month_len_bounds (is_leap_year (year t)) (month t + 1)). lia.
      + lia.
      + unfold day_number. lia.
    - apply Hcut; [by constructor; [|lia]|lia|unfold day_number; lia]. }
  intros y m d Hv' Hy' Edn. unfold good, seconds_of. simpl. rewrite Edn. split_and!; [by constructor|lia|lia|done|lia].
Qed.


Lemma next_days_ok n t : good t -> seconds_of t + 86400 * Z.of_nat n < max_seconds ->
  good (Nat.iter n next_day t) /\ seconds_of (Nat.iter n next_day t) = seconds_of t + 86400 * Z.of_nat n.
Proof.
  intros Ht. generalize max_seconds, good_year. intros mx Hyear.
  induction n as [|n IH]; intros Hn; cbn [Nat.iter nat_rect]; [split; [done|lia]|].
  destruct IH as [Hg Hs]; [lia|]. fold (Nat.iter n next_day t) in *.
  destruct (next_day_ok _ Hg) as [Hg' Hs']; [apply Hyear; [done|lia]|]. split; [done|lia].
Qed.

Lemma advance_ok t e : good t -> 0 <= e < 2 ^ 31 -> seconds_of t + e < max_seconds ->
  good (advance t e) /\ seconds_of (advance t e) = seconds_of t + e.
Proof.
  change (2 ^ 31) with 2147483648. intros Hg He Hmax. pose proof Hg as (Hv & Hy & Hw). pose proof Hv as [Hymd Hh Hmi Hs].
  unfold advance. rewrite (u32_small (second t + e)) by lia.
  rewrite (u32_small (minute t + _)) by (Z.to_euclidean_division_equations; lia).
  rewrite (u32_small (hour t + _)) by (Z.to_euclidean_division_equations; lia).
  rewrite !u8_small by (Z.to_euclidean_division_equations; lia).
  set (ts := second t + e). set (tm := minute t + ts / 60). set (th := hour t + tm / 60).
  set (t0 := mk_dt _ _ _ _ _ _ _).
  assert (0 <= th) as Hth by (subst th tm ts; Z.to_euclidean_division_equations; lia).
  assert (good t0) as Hg0.
  { split; [|done]. constructor; simpl; [done|subst th tm ts; Z.to_euclidean_division_equations; lia..]. }
  assert (seconds_of t0 + 86400 * (th / 24) = seconds_of t + e) as Es.
  { unfold seconds_of. simpl. subst th tm ts. set (n := day_number _ _ _). clearbody n.
    Z.to_euclidean_division_equations; lia. }
  destruct (Z.leb_spec 24 th).
  - assert (Z.of_nat (Z.to_nat (th / 24)) = th / 24) as En by (Z.to_euclidean_division_equations; lia).
    destruct (next_days_ok (Z.to_nat (th / 24)) t0 Hg0) as [Hg1 Hs1]; [rewrite En; lia|].
    split; [done|]. rewrite Hs1, En. lia.
  - assert (th / 24 = 0) as E0 by (apply Z.div_small; lia). split; [done|lia].
Qed.

(** Readings of the clock; the tick counter of the machine is the number of
    ticks modulo 2^32. *)
Fixpoint polls (l : list Z) (c : clock) : clock :=
  match l with
  | [] => c
  | t :: l' => polls l' (snd (time_get_datetime (u32 t) c))
  end.

(** Ticks in order, no more than 2^31 between two readings. *)
Fixpoint in_order (t : Z) (l : list Z) : Prop :=
  match l with
  | [] => True
  | t' :: l' => t <= t' < t + 2 ^ 31 /\ in_order t' l'
  end.

(** The clock shows [s] at tick [t0]. *)
Definition shows (c : clock) (t0 s : Z) : Prop :=
  time_initialized c = true /\ good (system_time c) /\ seconds_of (system_time c) = s /\ last_update_ticks c = u32 t0.

Lemma poll_ok c t0 s t : shows c t0 s -> 0 <= t0 <= t -> t < t0 + 2 ^ 31 + 100 -> s + (t - t0) / 100 < max_seconds ->
  shows (snd (time_get_datetime (u32 t) c)) (t0 + 100 * ((t - t0) / 100)) (s + (t - t0) / 100) /\
  fst (time_get_datetime (u32 t) c) = Some (system_time (snd (time_get_datetime (u32 t) c))).
Proof.
  change (2 ^ 31) with 2147483648. intros (Hi & Hg & Hs & Hl) Ht Hlt Hmax. unfold time_get_datetime. rewrite Hi, Hl.
  assert (u32 t -32 u32 t0 = t - t0) as -> by u_lia. cbn [negb fst snd]. split; [|done].
  rewrite (u32_small (_ * 100)) by (Z.to_euclidean_division_equations; lia).
  destruct (advance_ok (system_time c) ((t - t0) / 100) Hg) as [Hg' Hs'];
    [Z.to_euclidean_division_equations; lia|lia|].
  split_and!; simpl; [done..|lia|]. unfold u32. rewrite Zplus_mod_idemp_l. f_equal. lia.
Qed.

(** The clock does not drift: read at any ticks in order, at intervals that
    may be shorter than a second, it shows after the last reading the valid
    date, day of the week included, of its start plus the whole seconds since
    then; the wrap-around of the tick counter does not disturb it. *)
Theorem clock_no_drift l c t0 s last :
  shows c t0 s -> 0 <= t0 -> in_order t0 (l ++ [last]) -> s + (last - t0) / 100 < max_seconds ->
  let c' := polls (l ++ [last]) c in
  good (system_time c') /\ seconds_of (system_time c') = s + (last - t0) / 100.
Proof.
  intros Hc Ht0 Hl Hmax. cbv zeta.
  cut (forall base k, shows c (base + 100 * k) (s + k) -> 0 <= base -> 0 <= k -> 0 <= t0 - base - 100 * k < 100 ->
        s + (last - base) / 100 < max_seconds ->
        good (system_time (polls (l ++ [last]) c)) /\
        seconds_of (system_time (polls (l ++ [last]) c)) = s + (last - base) / 100).
  { intros Hcut. apply (Hcut t0 0); rewrite ?Z.mul_0_r, ?Z.add_0_r; try done; lia. }
  clear Hc Hmax. intros base k Hc Hb Hk Hr Hmax. revert c t0 k Hc Ht0 Hl Hk Hr.
  induction l as [|t l IH]; intros c t0 k Hc Ht0 Hl Hk Hr; simpl in Hl |- *; destruct Hl as [Ht Hl].
  - destruct (poll_ok c (base + 100 * k) (s + k) last Hc) as [(_ & Hg & Hs & _) _]; [lia|lia| |].
    + clear - Hmax Hk. set (mx := max_seconds) in *. clearbody mx. Z.to_euclidean_division_equations; lia.
    + split; [done|]. rewrite Hs. Z.to_euclidean_division_equations; lia.
  - assert (t <= last) as Htl.
    { clear - Hl. revert t Hl. induction l as [|u l IH]; simpl; intros t [H1 H2]; [lia|]. specialize (IH _ H2). lia. }
    destruct (poll_ok c (base + 100 * k) (s + k) t Hc) as [Hc' _]; [lia|lia| |].
    + clear - Hmax Hk Htl. set (mx := max_seconds) in *. clearbody mx. Z.to_euclidean_division_equations; lia.
    + apply (IH _ t (k + (t - (base + 100 * k)) / 100)); [|lia|done|Z.to_euclidean_division_equations; lia..].
      replace (base + 100 * (k + (t - (base + 100 * k)) / 100))
        with (base + 100 * k + 100 * ((t - (base + 100 * k)) / 100)) by lia.
      by rewrite Z.add_assoc.
Qed.

(** 1999-12-31 23:59:58, a Friday. *)
Definition eve : clock := mk_clock (mk_dt 1999 12 31 23 59 58 5) 7 true.

Lemma eve_shows : shows eve 7 946684798.
Proof.
  split; [reflexivity|]. split; [|split; vm_compute; reflexivity].
  split; [|split; [vm_compute; split; congruence|reflexivity]].
  constructor; [constructor|..]; vm_compute; split; congruence.
Qed.

Lemma clock_no_drift_witness :
  seconds_of (system_time (polls ([90; 150] ++ [250]) eve)) = 946684800.
Proof.
  destruct (clock_no_drift [90; 150] eve 7 946684798 250 eve_shows) as [_ H];
    [lia|vm_compute; repeat split; congruence|reflexivity|exact H].
Defined.

(** * The chip *)

Lemma bcd_roundtrip v : 0 <= v < 100 -> bcd_to_binary (binary_to_bcd v) = v.
Proof.
  intros H. unfold bcd_to_binary, binary_to_bcd. change 0x0F with (Z.ones 4).
  rewrite Z.land_ones, Z.shiftr_div_pow2, Z.shiftl_mul_pow2, lor_add by (Z.to_euclidean_division_equations; lia).
  change (2 ^ 4) with 16. u_lia.
Qed.

(** The fields have the widths of the structure. *)
Record typed (dt : datetime) : Prop := mk_typed {
  typed_year : 0 <= year dt < 65536; typed_month : 0 <= month dt < 256; typed_day : 0 <= day dt < 256;
  typed_hour : 0 <= hour dt < 256; typed_minute : 0 <= minute dt < 256; typed_second : 0 <= second dt < 256 }.

Lemma set_valid_iff dt : typed dt -> set_valid dt = true <-> valid dt.
Proof.
  intros []. unfold set_valid.
  destruct ((month dt <? 1) || (12 <? month dt) || (day dt <? 1) || (23 <? hour dt) || (59 <? minute dt) || (59 <? second dt)) eqn:E.
  - split; [done|]. intros [[] ? ? ?]. lia.
  - fold (month_len (is_leap_year (year dt)) (month dt)). rewrite negb_true_iff, Z.ltb_ge. split.
    + intros Hd. repeat constructor; lia.
    + by intros [[_ [_ Hd]] _ _ _].
Qed.

(** [time_set_datetime] accepts exactly the valid dates and leaves clock and
    chip alone otherwise; an accepted date of the years 2000 to 2099 is what
    [rtc_read_datetime] reads back from the chip, in binary and in BCD mode
    alike (but for the day of the week, which is not written), and what the
    clock shows. *)
Theorem time_set_datetime_spec dt ticks c r :
  typed dt ->
  (~ valid dt -> time_set_datetime dt ticks c r = (false, c, r)) /\
  (valid dt -> exists r', time_set_datetime dt ticks c r = (true, mk_clock dt ticks true, r') /\
     (2000 <= year dt < 2100 ->
      rtc_read_datetime [Some (r', r')] (rtc_status_b r') =
        mk_dt (year dt) (month dt) (day dt) (hour dt) (minute dt) (second dt)
          (if 0 <? rtc_weekday r then rtc_weekday r - 1 else 0))).
Proof.
  intros Ht. pose proof (set_valid_iff dt Ht) as Hiff. unfold time_set_datetime. split.
  - intros Hv. destruct (set_valid dt); [exfalso; by apply Hv, Hiff|done].
  - intros Hv. rewrite (proj2 Hiff Hv). eexists. split; [done|]. intros Hy.
    destruct Hv as [[Hm Hd] Hh Hmi Hs]. pose proof (month_len_bounds (is_leap_year (year dt)) _ Hm).
    destruct (Z.leb_spec 2000 (year dt)); [|lia]. rewrite u8_small by lia.
    unfold rtc_read_datetime. cbn [rtc_attempts]. unfold readings_match. rewrite !Z.eqb_refl. cbn.
    destruct (Z.land (rtc_status_b r) RTC_BINARY =? 0); [rewrite !bcd_roundtrip by lia|]; f_equal; lia.
Qed.

Lemma time_set_datetime_spec_witness : exists r',
  time_set_datetime (mk_dt 2024 2 29 12 30 45 4) 9 eve (mk_rtc 0 0 0 5 1 1 0 2) =
    (true, mk_clock (mk_dt 2024 2 29 12 30 45 4) 9 true, r') /\
  rtc_read_datetime [Some (r', r')] (rtc_status_b r') = mk_dt 2024 2 29 12 30 45 4.
Proof.
  destruct (time_set_datetime_spec (mk_dt 2024 2 29 12 30 45 4) 9 eve (mk_rtc 0 0 0 5 1 1 0 2)) as [_ H].
  - constructor; vm_compute; split; congruence.
  - destruct H as (r' & E & Hr).
    + constructor; [constructor|..]; vm_compute; split; congruence.
    + exists r'. split; [exact E|]. apply Hr. vm_compute. split; congruence.
Defined.

End Clock.
