(* ===== verification/CString.v ===== *)
(** Strings and memory blocks (src/util.c).

    A NUL-terminated string is the list of its characters, none of them 0;
    reading behind the last one gives the terminator.  The functions on memory
    blocks work on one memory, a list of bytes, in which the blocks may
    overlap; an access outside of it is a fault. *)
From Stdlib Require Import ZArith Lia List Bool.
From stdpp Require Import base tactics numbers list.
From S2P Require Import Prelude.
Open Scope Z_scope.

Module CString.

(** * Strings *)

Definition chars (s : list Z) : Prop := Forall (fun c => 0 < c < 256) s.

(** The characters in front of the first NUL of a buffer. *)
Fixpoint c_str (l : list Z) : list Z :=
  match l with
  | [] => []
  | c :: l' => if c =? 0 then [] else c :: c_str l'
  end.

(** [*s], the terminator included. *)
Definition at0 (s : list Z) : Z := match s with [] => 0 | c :: _ => c end.

Definition strlen (s : list Z) : Z := Z.of_nat (length s).

Fixpoint strcmp (s1 s2 : list Z) : Z :=
  match s1, s2 with
  | c1 :: s1', c2 :: s2' => if negb (c1 =? c2) then c1 - c2 else strcmp s1' s2'
  | _, _ => at0 s1 - at0 s2
  end.

Definition to_lower (c : Z) : Z := if (65 <=? c) && (c <=? 90) then u8 (c + 32) else c.

Fixpoint strcasecmp (s1 s2 : list Z) : Z :=
  match s1, s2 with
  | c1 :: s1', c2 :: s2' =>
      if negb (to_lower c1 =? to_lower c2) then to_lower c1 - to_lower c2 else strcasecmp s1' s2'
  | _, _ => to_lower (at0 s1) - to_lower (at0 s2)
  end.

Fixpoint strncmp (s1 s2 : list Z) (n : nat) : Z :=
  match n with
  | O => 0
  | S n' =>
      match s1, s2 with
      | c1 :: s1', c2 :: s2' => if negb (c1 =? c2) then c1 - c2 else strncmp s1' s2' n'
      | _, _ => at0 s1 - at0 s2
      end
  end.

(** The inner loop of [strstr]: the number of characters that agree. *)
Fixpoint agree (needle h : list Z) : nat :=
  match needle, h with
  | c :: needle', d :: h' => if d =? c then S (agree needle' h') else O
  | _, _ => O
  end.

Fixpoint strstr_from (i : nat) (h needle : list Z) : option nat :=
  match h with
  | [] => None
  | d :: h' =>
      if (d =? at0 needle) && (agree needle h =? length needle)%nat then Some i
      else strstr_from (S i) h' needle
  end.
Definition strstr (haystack needle : list Z) : option nat :=
  if at0 needle =? 0 then Some O else strstr_from O haystack needle.

(** The result is an index; the terminator is the index behind the end. *)
Fixpoint strchr_from (i : nat) (s : list Z) (c : Z) : option nat :=
  match s with
  | [] => if u8 c =? 0 then Some i else None
  | d :: s' => if d =? u8 c then Some i else strchr_from (S i) s' c
  end.
Definition strchr (s : list Z) (c : Z) : option nat := strchr_from O s c.

(** * Memory blocks *)

Definition peek (p : Z) : M (list Z) Z := m <- gets id ;; lift (aget m p).
Definition poke (p v : Z) : M (list Z) unit := m <- gets id ;; m' <- lift (aset m p v) ;; modify (fun _ => m').

Definition memset (dst val n : Z) : M (list Z) unit :=
  for_each (iters 0 n) 0 (fun i => poke (dst + i) (u8 val)).

Definition memcpy (dst src n : Z) : M (list Z) unit :=
  for_each (iters 0 n) 0 (fun i => v <- peek (src + i) ;; poke (dst + i) v).

(** [for (i = n; i > 0; --i) d\[i - 1\] = s\[i - 1\]] *)
Fixpoint copy_down (n : nat) (dst src : Z) : M (list Z) unit :=
  match n with
  | O => ret tt
  | S n' => v <- peek (src + Z.of_nat n') ;; poke (dst + Z.of_nat n') v ;;; copy_down n' dst src
  end.

Definition memmove (dst src n : Z) : M (list Z) unit :=
  if (dst =? src) || (n =? 0) then ret tt
  else if dst <? src then memcpy dst src n
  else copy_down (Z.to_nat n) dst src.

Definition memcmp (s1 s2 n : Z) : M (list Z) Z :=
  r <- for_ret (iters 0 n) 0 (fun i =>
         a <- peek (s1 + i) ;; b <- peek (s2 + i) ;;
         ret (if negb (a =? b) then Some (a - b) else None)) ;;
  ret (default 0 r).

Definition secure_memzero (v n : Z) : M (list Z) unit :=
  for_each (iters 0 n) 0 (fun i => poke (v + i) 0).

(** The copying loop: [rest] is [src + i]; the result is [i]. *)
Fixpoint copy_str (room : nat) (dst i : Z) (rest : list Z) : M (list Z) Z :=
  match room, rest with
  | S room', c :: rest' => poke (dst + i) c ;;; copy_str room' dst (i + 1) rest'
  | _, _ => ret i
  end.

(** The source is a string outside of the memory, [dst] is not null. *)
Definition safe_strcpy (dst : Z) (src : list Z) (size : Z) : M (list Z) Z :=
  if size =? 0 then ret (strlen src) else
  i <- copy_str (Z.to_nat (size - 1)) dst 0 src ;;
  poke (dst + i) 0 ;;;
  ret (strlen src).

(** * Facts *)

Lemma to_lower_pos c : 0 < c < 256 -> 0 < to_lower c < 256.
Proof.
  intros H. unfold to_lower. destruct ((65 <=? c) && (c <=? 90)) eqn:E; [|done].
  rewrite u8_small; lia.
Qed.

Lemma c_str_chars l : Forall (fun c => 0 <= c < 256) l -> chars (c_str l).
Proof.
  induction 1 as [|c l Hc Hl IH]; simpl; [constructor|].
  destruct (Z.eqb_spec c 0); constructor; [lia|done].
Qed.

Lemma c_str_id s : chars s -> c_str s = s.
Proof.
  induction 1 as [|c s Hc Hs IH]; simpl; [done|]. destruct (Z.eqb_spec c 0); [lia|]. by rewrite IH.
Qed.

Lemma strcmp_eq s1 s2 : chars s1 -> chars s2 -> strcmp s1 s2 = 0 <-> s1 = s2.
Proof.
  intros H1. revert s2. induction H1 as [|c1 s1 Hc1 Hs1 IH]; intros s2 H2.
  - destruct H2 as [|c2 s2 Hc2 _]; simpl; [done|]. split; [lia|done].
  - destruct H2 as [|c2 s2 Hc2 Hs2]; simpl; [split; [lia|done]|].
    destruct (Z.eqb_spec c1 c2) as [->|]; simpl.
    + rewrite IH by done. split; [by intros ->|by intros [= ->]].
    + split; [lia|]. intros [=]. lia.
Qed.

Lemma strcasecmp_eq s1 s2 : chars s1 -> chars s2 -> strcasecmp s1 s2 = 0 <-> map to_lower s1 = map to_lower s2.
Proof.
  intros H1. revert s2. induction H1 as [|c1 s1 Hc1 Hs1 IH]; intros s2 H2.
  - destruct H2 as [|c2 s2 Hc2 _]; simpl; [done|]. pose proof (to_lower_pos c2 Hc2).
    change (to_lower 0) with 0. split; [lia|done].
  - destruct H2 as [|c2 s2 Hc2 Hs2]; simpl.
    { pose proof (to_lower_pos c1 Hc1). change (to_lower 0) with 0. split; [lia|done]. }
    destruct (Z.eqb_spec (to_lower c1) (to_lower c2)) as [E|]; simpl.
    + rewrite IH by done. rewrite E. split; [by intros ->|by intros [= ->]].
    + split; [lia|]. intros [=]. lia.
Qed.

Lemma agree_prefix needle h : agree needle h = length needle <-> exists t, h = needle ++ t.
Proof.
  revert h. induction needle as [|c needle IH]; intros h; simpl.
  - split; [by exists h|done].
  - destruct h as [|d h]; simpl; [split; [done|by intros [? ?]]|].
    destruct (Z.eqb_spec d c) as [->|]; simpl.
    + split.
      * intros [= E]. apply IH in E as [t ->]. by exists t.
      * intros [t [= ->]]. f_equal. apply IH. by exists t.
    + split; [done|]. intros [t [=]]. done.
Qed.

Lemma strstr_from_ok i h needle : needle <> [] ->
  match strstr_from i h needle with
  | Some k => (i <= k)%nat /\ (exists t, drop (k - i) h = needle ++ t) /\
              forall j, (j < k - i)%nat -> ~ exists t, drop j h = needle ++ t
  | None => forall j, ~ exists t, drop j h = needle ++ t
  end.
Proof.
  intros Hne. revert i. induction h as [|d h IH]; intros i; cbn [strstr_from].
  { intros j [t E]. rewrite drop_nil in E. by destruct needle. }
  destruct ((d =? at0 needle) && (agree needle (d :: h) =? length needle)%nat) eqn:E.
  - apply andb_true_iff in E as [_ E%Nat.eqb_eq]. rewrite Nat.sub_diag. split; [done|].
    split; [by apply agree_prefix|]. intros j Hj. lia.
  - assert (~ exists t, d :: h = needle ++ t) as Hno.
    { intros Hp. apply agree_prefix in Hp as Ha. rewrite Ha, Nat.eqb_refl, andb_true_r in E.
      destruct Hp as [t Hp]. destruct needle; [done|]. simpl in *. injection Hp as -> _. lia. }
    specialize (IH (S i)). destruct (strstr_from (S i) h needle) as [k|].
    + destruct IH as (Hk & Hat & Hbefore). replace (k - i)%nat with (S (k - S i)) by lia.
      split; [lia|]. split; [done|]. intros [|j] Hj; [done|]. apply Hbefore. lia.
    + intros [|j]; [done|]. apply IH.
Qed.


Section Blocks.
Implicit Types m : list Z.

Lemma peek_ok p m (Q : Z -> list Z -> Prop) :
  0 <= p < Z.of_nat (length m) -> Q (m !!! Z.to_nat p) m -> wp (peek p) Q m.
Proof.
  intros Hp HQ. destruct (aget_range m p Hp) as (v & Hv & E). apply wp_bind, wp_gets. eapply wp_lift; [exact E|].
  by rewrite (list_lookup_total_correct _ _ _ Hv) in HQ.
Qed.

Lemma poke_ok p v m (Q : unit -> list Z -> Prop) :
  0 <= p < Z.of_nat (length m) -> Q tt (<[Z.to_nat p := v]> m) -> wp (poke p v) Q m.
Proof.
  intros Hp HQ. apply wp_bind, wp_gets, wp_bind. eapply wp_lift; [by apply aset_ok|]. exact HQ.
Qed.

(** [m] with the bytes [bs] at [p]. *)
Definition overwrite (m : list Z) (p : nat) (bs : list Z) : list Z :=
  take p m ++ bs ++ drop (p + length bs) m.

Lemma overwrite_length m p bs : (p + length bs <= length m)%nat -> length (overwrite m p bs) = length m.
Proof. intros H. unfold overwrite. rewrite !length_app, length_take, length_drop. lia. Qed.

Lemma overwrite_nil m p : overwrite m p [] = m.
Proof. unfold overwrite. simpl. by rewrite Nat.add_0_r, take_drop. Qed.

Lemma overwrite_snoc m p bs b : (p + length bs < length m)%nat ->
  <[(p + length bs)%nat := b]> (overwrite m p bs) = overwrite m p (bs ++ [b]).
Proof.
  intros H. unfold overwrite. rewrite app_assoc, insert_app_r_alt by (rewrite length_app, length_take; lia).
  rewrite <- app_assoc, !length_app, length_take, Nat.min_l by lia. simpl.
  replace (p + length bs - (p + length bs))%nat with O by lia.
  destruct (lookup_lt_is_Some_2 m (p + length bs)) as [c Hc]; [done|].
  rewrite (drop_S m c (p + length bs)) by done. simpl. rewrite <- app_assoc. simpl.
  by replace (p + (length bs + 1))%nat with (S (p + length bs)) by lia.
Qed.

Lemma overwrite_cons m p b bs : (p < length m)%nat ->
  <[p := b]> (overwrite m (S p) bs) = overwrite m p (b :: bs).
Proof.
  intros H. unfold overwrite. destruct (lookup_lt_is_Some_2 m p) as [c Hc]; [done|].
  rewrite (take_S_r m p c), <- app_assoc, insert_app_r_alt by (rewrite ?length_take; done || lia).
  rewrite length_take, Nat.min_l, Nat.sub_diag by lia. simpl.
  by replace (S (p + length bs)) with (p + S (length bs))%nat by lia.
Qed.

Lemma overwrite_lookup_lt m p bs i : (i < p)%nat -> (p <= length m)%nat -> overwrite m p bs !! i = m !! i.
Proof. intros Hi Hp. unfold overwrite. rewrite lookup_app_l, lookup_take_lt by (rewrite ?length_take; lia). done. Qed.

Lemma overwrite_lookup_ge m p bs i : (p + length bs <= i)%nat -> (p <= length m)%nat -> overwrite m p bs !! i = m !! i.
Proof.
  intros Hi Hp. unfold overwrite.
  rewrite !lookup_app_r, lookup_drop by (rewrite ?length_take, ?length_app; lia).
  rewrite length_take. f_equal. lia.
Qed.

(** The bytes of a block. *)
Definition block (m : list Z) (p n : nat) : list Z := take n (drop p m).

Lemma mem_block_length m p n : (p + n <= length m)%nat -> length (block m p n) = n.
Proof. intros H. unfold block. rewrite length_take, length_drop. lia. Qed.

Lemma block_snoc m p n : (p + n < length m)%nat -> block m p (S n) = block m p n ++ [m !!! (p + n)%nat].
Proof.
  intros H. destruct (lookup_lt_is_Some_2 m (p + n)) as [c Hc]; [done|].
  unfold block. rewrite (take_S_r _ _ c) by by rewrite lookup_drop.
  by rewrite (list_lookup_total_correct _ _ _ Hc).
Qed.

Lemma block_cons m p n : (p < length m)%nat -> block m p (S n) = m !!! p :: block m (S p) n.
Proof.
  intros H. destruct (lookup_lt_is_Some_2 m p) as [c Hc]; [done|].
  unfold block. rewrite (drop_S m c p) by done. simpl. by rewrite (list_lookup_total_correct _ _ _ Hc).
Qed.

(** Copying forward is right when the destination is not inside of the source. *)
Lemma memcpy_forward dst src n m :
  0 <= dst -> 0 <= src -> 0 <= n -> dst + n <= Z.of_nat (length m) -> src + n <= Z.of_nat (length m) ->
  dst <= src \/ src + n <= dst ->
  wp (memcpy dst src n) (fun _ m' =>
    m' = overwrite m (Z.to_nat dst) (block m (Z.to_nat src) (Z.to_nat n))) m.
Proof.
  intros Hd Hs Hn Hdl Hsl Hov. unfold memcpy.
  apply (wp_for_each (fun i m' => 0 <= i /\ m' = overwrite m (Z.to_nat dst) (block m (Z.to_nat src) (Z.to_nat i)))).
  - split; [done|]. unfold block. simpl. by rewrite overwrite_nil.
  - intros i m' Hi [_ ->]. unfold iters in Hi. rewrite Z2Nat.id in Hi by lia.
    assert (length (block m (Z.to_nat src) (Z.to_nat i)) = Z.to_nat i) as Hbl by (apply mem_block_length; lia).
    assert (length (overwrite m (Z.to_nat dst) (block m (Z.to_nat src) (Z.to_nat i))) = length m) as Hol
      by (apply overwrite_length; lia).
    apply wp_bind, peek_ok; [lia|]. apply poke_ok; [lia|]. split; [lia|].
    replace (Z.to_nat (i + 1)) with (S (Z.to_nat i)) by lia. rewrite block_snoc by lia.
    rewrite <- overwrite_snoc by lia. rewrite Hbl.
    replace (Z.to_nat (dst + i)) with (Z.to_nat dst + Z.to_nat i)%nat by lia. f_equal.
    replace (Z.to_nat (src + i)) with (Z.to_nat src + Z.to_nat i)%nat by lia.
    rewrite !list_lookup_total_alt. f_equal. destruct Hov.
    + apply overwrite_lookup_ge; lia.
    + apply overwrite_lookup_lt; lia.
  - intros m' [_ ->]. unfold iters. by replace (Z.to_nat (0 + Z.of_nat (Z.to_nat (n - 0)))) with (Z.to_nat n) by lia.
Qed.

Lemma copy_down_ok k n dst src m :
  0 <= src <= dst -> dst + Z.of_nat (k + n) <= Z.of_nat (length m) ->
  wp (copy_down k dst src) (fun _ m' => m' = overwrite m (Z.to_nat dst) (block m (Z.to_nat src) (k + n)))
    (overwrite m (Z.to_nat dst + k) (block m (Z.to_nat src + k) n)).
Proof.
  revert n. induction k as [|k IH]; intros n Hd Hl; cbn [copy_down].
  { apply wp_ret. by rewrite !Nat.add_0_r. }
  assert (length (block m (Z.to_nat src + S k) n) = n) as Hbl by (apply mem_block_length; lia).
  assert (length (overwrite m (Z.to_nat dst + S k) (block m (Z.to_nat src + S k) n)) = length m) as Hol
    by (apply overwrite_length; lia).
  apply wp_bind, peek_ok; [lia|]. apply wp_bind, poke_ok; [lia|].
  replace (Z.to_nat (dst + Z.of_nat k)) with (Z.to_nat dst + k)%nat by lia.
  replace (Z.to_nat (src + Z.of_nat k)) with (Z.to_nat src + k)%nat by lia.
  replace (overwrite m (Z.to_nat dst + S k) (block m (Z.to_nat src + S k) n) !!! (Z.to_nat src + k)%nat)
    with (m !!! (Z.to_nat src + k)%nat).
  2:{ rewrite !list_lookup_total_alt. f_equal. symmetry. apply overwrite_lookup_lt; lia. }
  rewrite !Nat.add_succ_r, overwrite_cons by lia. rewrite <- block_cons by lia.
  replace (S k + n)%nat with (k + S n)%nat by lia. apply IH; [done|lia].
Qed.

End Blocks.

(** [memmove] moves a block to any place of the memory, overlapping or not:
    afterwards the destination holds the bytes the source held before, and
    nothing else has changed. *)
Theorem memmove_spec dst src n m :
  0 <= dst -> 0 <= src -> 0 <= n -> dst + n <= Z.of_nat (length m) -> src + n <= Z.of_nat (length m) ->
  memmove dst src n m = Ok (tt, overwrite m (Z.to_nat dst) (block m (Z.to_nat src) (Z.to_nat n))).
Proof.
  intros Hd Hs Hn Hdl Hsl.
  cut (wp (memmove dst src n) (fun _ m' => m' = overwrite m (Z.to_nat dst) (block m (Z.to_nat src) (Z.to_nat n))) m).
  { by intros (m' & -> & ->)%wp_elim_unit. }
  unfold memmove. destruct (Z.eqb_spec dst src) as [->|Hne]; simpl.
  { apply wp_ret. unfold overwrite. rewrite mem_block_length by lia. unfold block.
    rewrite <- drop_drop, take_drop. by rewrite take_drop. }
  destruct (Z.eqb_spec n 0) as [->|]; simpl; [apply wp_ret; unfold block; simpl; by rewrite overwrite_nil|].
  destruct (Z.ltb_spec dst src); [apply memcpy_forward; lia|].
  pose proof (copy_down_ok (Z.to_nat n) 0 dst src m) as Hc. rewrite Nat.add_0_r in Hc. unfold block at 2 in Hc.
  simpl in Hc. rewrite overwrite_nil in Hc. apply Hc; lia.
Qed.

Lemma memmove_spec_witness : memmove 2 1 4 [10; 11; 12; 13; 14; 15; 16] = Ok (tt, [10; 11; 11; 12; 13; 14; 16]).
Proof. rewrite (memmove_spec 2 1 4 [10; 11; 12; 13; 14; 15; 16]); [reflexivity|vm_compute; congruence..]. Defined.

Lemma copy_str_ok room dst i rest pre m :
  0 <= dst -> i = Z.of_nat (length pre) ->
  dst + i + Z.of_nat (Nat.min room (length rest)) <= Z.of_nat (length m) ->
  wp (copy_str room dst i rest) (fun k m' =>
    k = i + Z.of_nat (Nat.min room (length rest)) /\
    m' = overwrite m (Z.to_nat dst) (pre ++ take room rest)) (overwrite m (Z.to_nat dst) pre).
Proof.
  revert i rest pre. induction room as [|room IH]; intros i rest pre Hd -> Hl; cbn [copy_str].
  { apply wp_ret. simpl. rewrite app_nil_r. split; [lia|done]. }
  destruct rest as [|c rest]; [apply wp_ret; simpl; rewrite app_nil_r; split; [lia|done]|].
  cbn [length] in Hl.
  assert (length (overwrite m (Z.to_nat dst) pre) = length m) as Hol by (apply overwrite_length; lia).
  apply wp_bind, poke_ok; [lia|].
  replace (Z.to_nat (dst + Z.of_nat (length pre))) with (Z.to_nat dst + length pre)%nat by lia.
  rewrite overwrite_snoc by lia.
  eapply wp_mono; [apply (IH _ rest (pre ++ [c])); [done|rewrite length_app; simpl; lia|lia]|].
  intros k m' [-> ->]. rewrite <- app_assoc. cbn [length take]. split; [lia|done].
Qed.

(** [safe_strcpy] into a buffer of [size] bytes writes the longest prefix of
    the source that leaves room for the terminator, then the terminator, and
    touches nothing else; it returns the length of the source, so a result of
    at least [size] says that the copy was cut.  With size 0 nothing is
    written. *)
Theorem safe_strcpy_spec dst src size m :
  0 <= dst -> 0 <= size -> dst + size <= Z.of_nat (length m) ->
  safe_strcpy dst src size m =
    Ok (strlen src, if size =? 0 then m
                    else overwrite m (Z.to_nat dst) (take (Z.to_nat (size - 1)) src ++ [0])).
Proof.
  intros Hd Hs Hl. unfold safe_strcpy. destruct (Z.eqb_spec size 0); [done|].
  cut (wp (i <- copy_str (Z.to_nat (size - 1)) dst 0 src ;; poke (dst + i) 0 ;;; ret (strlen src))
         (fun r m' => r = strlen src /\ m' = overwrite m (Z.to_nat dst) (take (Z.to_nat (size - 1)) src ++ [0])) m).
  { by intros (r & m' & -> & -> & ->)%wp_elim. }
  apply wp_bind. pose proof (copy_str_ok (Z.to_nat (size - 1)) dst 0 src [] m Hd eq_refl) as Hc.
  rewrite overwrite_nil in Hc. eapply wp_mono; [apply Hc; lia|]. intros i m' [-> ->]. simpl app.
  set (l := take (Z.to_nat (size - 1)) src).
  assert (length l = Nat.min (Z.to_nat (size - 1)) (length src)) as Hll by apply length_take.
  assert (length (overwrite m (Z.to_nat dst) l) = length m) as Hol by (apply overwrite_length; lia).
  apply wp_bind, poke_ok; [lia|]. apply wp_ret. split; [done|]. rewrite <- overwrite_snoc by lia. f_equal. lia.
Qed.

Lemma safe_strcpy_spec_witness :
  safe_strcpy 1 [104; 101; 108; 108; 111] 4 [9; 9; 9; 9; 9; 9] = Ok (5, [9; 104; 101; 108; 0; 9]).
Proof.
  rewrite (safe_strcpy_spec 1 [104; 101; 108; 108; 111] 4 [9; 9; 9; 9; 9; 9]); [reflexivity|vm_compute; congruence..].
Defined.

(** [strstr] answers the first place where the needle occurs, and none exactly
    when it occurs nowhere. *)
Theorem strstr_spec h needle :
  chars needle ->
  match strstr h needle with
  | Some k => (exists t, drop k h = needle ++ t) /\ forall j, (j < k)%nat -> ~ exists t, drop j h = needle ++ t
  | None => forall j, ~ exists t, drop j h = needle ++ t
  end.
Proof.
  intros Hn. unfold strstr. destruct Hn as [|c needle Hc Hn]; simpl.
  { split; [by eexists|]. intros j Hj. lia. }
  destruct (Z.eqb_spec c 0); [lia|]. pose proof (strstr_from_ok 0 h (c :: needle) ltac:(done)) as H.
  destruct (strstr_from 0 h (c :: needle)) as [k|]; [|done]. rewrite Nat.sub_0_r in H. by destruct H as (_ & ? & ?).
Qed.

End CString.
