(* ===== verification/Dns.v ===== *)
(** The resolver (src/dns.c): encoding and decoding of names, the query, and the
    parsing of responses.

    A response is the list of its bytes, positions are offsets into it.  Random
    numbers and the outcome of the route lookup are arguments of
    [send_dns_query]; its result is the datagram it sends. *)
From Stdlib Require Import ZArith Lia List Bool.
From stdpp Require Import base tactics numbers list.
From S2P Require Import Prelude CString NetHdr.
Open Scope Z_scope.

Module Dns.
Import CString NetHdr.

Definition MAX_DOMAIN_NAME_LEN : Z := 253.
Definition MAX_DNS_LABEL_LEN : Z := 63.
Definition MAX_DNS_LABELS : nat := 127.
Definition DNS_QTYPE_A : Z := 1.
Definition DNS_QTYPE_CNAME : Z := 5.
Definition DNS_QCLASS_IN : Z := 1.
Definition sizeof_dns_header : Z := 12.
Definition sizeof_dns_question : Z := 4.
Definition sizeof_dns_rr : Z := 10.

(** The counters of the receive path. *)
Inductive counter :=
| dns_responses_rx | dns_drop_source_ip | dns_drop_tid | dns_drop_question | dns_drop_malformed
| dns_drop_name_pointer | dns_drop_name_label | dns_drop_no_answer | dns_drop_answer_mismatch
| dns_drop_port | dns_drop_unsolicited.
#[export] Instance counter_eq_dec : EqDecision counter.
Proof. solve_decision. Defined.

Record dns := mk_dns {
  dns_server : Z; counts : counter -> Z;
  last_resolved_ip : list Z; dns_resolution_complete : bool;
  last_dns_tid : Z; last_dns_src_port : Z; dns_query_outstanding : bool;
  last_queried_domain : list Z }.

Definition bump (c : counter) : M dns unit := modify (fun s =>
  mk_dns (dns_server s) (fun d => if bool_decide (d = c) then counts s c +32 1 else counts s d)
    (last_resolved_ip s) (dns_resolution_complete s) (last_dns_tid s) (last_dns_src_port s)
    (dns_query_outstanding s) (last_queried_domain s)).
Definition put_answer (ip : list Z) (complete outstanding : bool) (s : dns) : dns :=
  mk_dns (dns_server s) (counts s) ip complete (last_dns_tid s) (last_dns_src_port s) outstanding
    (last_queried_domain s).
Definition put_domain (d : list Z) (s : dns) : dns :=
  mk_dns (dns_server s) (counts s) (last_resolved_ip s) (dns_resolution_complete s) (last_dns_tid s)
    (last_dns_src_port s) (dns_query_outstanding s) d.
Definition put_tid (t : Z) (s : dns) : dns :=
  mk_dns (dns_server s) (counts s) (last_resolved_ip s) (dns_resolution_complete s) t
    (last_dns_src_port s) (dns_query_outstanding s) (last_queried_domain s).
Definition put_query (port : Z) (s : dns) : dns :=
  mk_dns (dns_server s) (counts s) (last_resolved_ip s) (dns_resolution_complete s) (last_dns_tid s)
    port true (last_queried_domain s).

(** * The server address *)

Definition dns_server_get (w : Z) : list Z :=
  [u8 w; u8 (Z.shiftr w 8); u8 (Z.shiftr w 16); u8 (Z.shiftr w 24)].
Definition dns_server_set (ip : list Z) : Z :=
  Z.lor (Z.lor (Z.lor (ip !!! 0%nat) (u32 (Z.shiftl (ip !!! 1%nat) 8))) (u32 (Z.shiftl (ip !!! 2%nat) 16)))
    (u32 (Z.shiftl (ip !!! 3%nat) 24)).
Definition set_dns_server (server_ip : list Z) (s : dns) : dns :=
  mk_dns (dns_server_set server_ip) (counts s) (last_resolved_ip s) (dns_resolution_complete s)
    (last_dns_tid s) (last_dns_src_port s) (dns_query_outstanding s) (last_queried_domain s).

(** * Names *)

(** A buffer of [size] bytes that is filled from its start: writing [bs] behind
    what it holds. *)
Definition store (size : Z) (out bs : list Z) : result (list Z) :=
  if size <? Z.of_nat (length out + length bs) then Err OutOfBounds else Ok (out ++ bs).

(** One label, with the checks in front of it; [slack] is what must stay free
    behind it. *)
Definition put_label (buffer_size slack : Z) (label out : list Z) : result (option (list Z)) :=
  let label_len := Z.of_nat (length label) in
  if MAX_DNS_LABEL_LEN <? label_len then Ok None
  else if buffer_size <=? Z.of_nat (length out) + 1 + label_len + slack then Ok None
  else match store buffer_size out (u8 label_len :: label) with
       | Ok out' => Ok (Some out')
       | Err f => Err f
       end.

(** The loop over the string; [label] is [domain\[start..i)]. *)
Fixpoint encode_loop (buffer_size : Z) (rest label out : list Z) : result (option (list Z)) :=
  match rest with
  | [] =>
      match put_label buffer_size 1 label out with
      | Ok (Some out') => match store buffer_size out' [0] with Ok o => Ok (Some o) | Err f => Err f end
      | r => r
      end
  | c :: rest' =>
      if c =? 46 then
        match put_label buffer_size 0 label out with
        | Ok (Some out') => encode_loop buffer_size rest' [] out'
        | r => r
        end
      else encode_loop buffer_size rest' (label ++ [c]) out
  end.

(** The encoded name, [None] for the error result 0. *)
Definition domain_to_dns_label (domain : list Z) (buffer_size : Z) : result (option (list Z)) :=
  if MAX_DOMAIN_NAME_LEN <? strlen domain then Ok None else encode_loop buffer_size domain [] [].

(** [((uint16_t)(len & 0x3F) << 8) | current_pos\[1\]] *)
Definition pointer_offset (len b1 : Z) : Z := u16 (Z.lor (Z.shiftl (Z.land len 0x3F) 8) b1).

(** Bytes consumed by a name, 0 on error. *)
Fixpoint skip_loop (n : nat) (p : list Z) (original_pos current_pos : Z) : M dns Z :=
  let packet_end := Z.of_nat (length p) in
  match n with
  | O => bump dns_drop_name_label ;;; ret 0
  | S n' =>
      if packet_end <=? current_pos then bump dns_drop_malformed ;;; ret 0 else
      len <- load8 p current_pos ;;
      if len =? 0 then ret (current_pos - original_pos + 1) else
      if Z.land len 0xC0 =? 0xC0 then
        if packet_end <=? current_pos + 1 then bump dns_drop_malformed ;;; ret 0 else
        b1 <- load8 p (current_pos + 1) ;;
        let offset := pointer_offset len b1 in
        if packet_end <=? offset then bump dns_drop_name_pointer ;;; ret 0 else
        if current_pos <=? offset then bump dns_drop_name_pointer ;;; ret 0 else
        ret (current_pos - original_pos + 2)
      else
      if MAX_DNS_LABEL_LEN <? len then bump dns_drop_name_label ;;; ret 0 else
      if packet_end <? current_pos + len + 1 then bump dns_drop_malformed ;;; ret 0 else
      skip_loop n' p original_pos (current_pos + (len + 1))
  end.
Definition skip_dns_name (p : list Z) (current_pos : Z) : M dns Z :=
  skip_loop MAX_DNS_LABELS p current_pos current_pos.

(** [memcpy] out of the packet. *)
Definition load_block (p : list Z) (pos n : Z) : result (list Z) :=
  if (pos <? 0) || (Z.of_nat (length p) <? pos + n) then Err OutOfBounds
  else Ok (take (Z.to_nat n) (drop (Z.to_nat pos) p)).

(** Dropping the dot behind the last label. *)
Definition trim_dot (out : list Z) : list Z :=
  match rev out with c :: out' => if c =? 46 then rev out' else out | [] => out end.

(** [None] for [false].  A turn of the loop either counts a label or follows a
    pointer towards the start, hence the fuel of [dns_label_to_domain]. *)
Fixpoint label_loop (fuel : nat) (p : list Z) (size : Z) (label_count : nat) (current_pos : Z) (out : list Z)
  : result (option (list Z)) :=
  let packet_end := Z.of_nat (length p) in
  match fuel with
  | O => Err NoTermination
  | S fuel' =>
      if (MAX_DNS_LABELS <=? label_count)%nat then Ok None else
      if packet_end <=? current_pos then Ok None else
      match aget p current_pos with
      | Err f => Err f
      | Ok len =>
          if len =? 0 then
            match store size (trim_dot out) [0] with
            | Ok _ => Ok (Some (trim_dot out))
            | Err f => Err f
            end
          else if Z.land len 0xC0 =? 0xC0 then
            if packet_end <=? current_pos + 1 then Ok None else
            match aget p (current_pos + 1) with
            | Err f => Err f
            | Ok b1 =>
                let offset := pointer_offset len b1 in
                if (packet_end <=? offset) || (current_pos <=? offset) then Ok None
                else label_loop fuel' p size label_count offset out
            end
          else if MAX_DNS_LABEL_LEN <? len then Ok None
          else if packet_end <? current_pos + len + 1 then Ok None
          else if size <=? Z.of_nat (length out) + len + 2 then Ok None
          else
            match load_block p (current_pos + 1) len with
            | Err f => Err f
            | Ok label =>
                match store size out (label ++ [46]) with
                | Err f => Err f
                | Ok out' => label_loop fuel' p size (S label_count) (current_pos + (len + 1)) out'
                end
            end
      end
  end.

Definition label_fuel (p : list Z) : nat := (S MAX_DNS_LABELS * S (S (length p)))%nat.
Definition dns_label_to_domain (p : list Z) (label_start size : Z) : result (option (list Z)) :=
  label_loop (label_fuel p) p size 0 label_start [].

(** * Responses *)

(** The names are C strings: they end at a NUL inside of a label, too. *)
Definition same_name (a b : list Z) : bool := strcasecmp (c_str a) (c_str b) =? 0.

Definition name_size : Z := MAX_DOMAIN_NAME_LEN + 1.

(** The questions from [current_ptr] on; [None] when the function returns. *)
Fixpoint question_loop (n : nat) (p : list Z) (current_ptr : Z) : M dns (option Z) :=
  match n with
  | O => ret (Some current_ptr)
  | S n' =>
      d <- lift (dns_label_to_domain p current_ptr name_size) ;;
      match d with
      | None => bump dns_drop_question ;;; ret None
      | Some question_domain =>
          asked <- gets last_queried_domain ;;
          if negb (same_name question_domain asked) then bump dns_drop_question ;;; ret None else
          name_len <- skip_dns_name p current_ptr ;;
          if name_len =? 0 then bump dns_drop_malformed ;;; ret None else
          let current_ptr := current_ptr + name_len in
          if Z.of_nat (length p) <? current_ptr + sizeof_dns_question
          then bump dns_drop_malformed ;;; ret None
          else question_loop n' p (current_ptr + sizeof_dns_question)
      end
  end.

Fixpoint answer_loop (n : nat) (p : list Z) (current_ptr : Z) (target : list Z) (skipped_mismatch : bool)
  : M dns unit :=
  let packet_end := Z.of_nat (length p) in
  match n with
  | O => if skipped_mismatch then bump dns_drop_answer_mismatch else bump dns_drop_no_answer
  | S n' =>
      name_len <- skip_dns_name p current_ptr ;;
      if name_len =? 0 then bump dns_drop_malformed else
      d <- lift (dns_label_to_domain p current_ptr name_size) ;;
      match d with
      | None => bump dns_drop_malformed
      | Some owner =>
          let current_ptr := current_ptr + name_len in
          if packet_end <? current_ptr + sizeof_dns_rr then bump dns_drop_malformed else
          type <- net16 p current_ptr ;;
          rclass <- net16 p (current_ptr + 2) ;;
          data_len <- net16 p (current_ptr + 8) ;;
          let for_target := (rclass =? DNS_QCLASS_IN) && same_name owner target in
          let current_ptr := current_ptr + sizeof_dns_rr in
          if packet_end <? current_ptr + data_len then bump dns_drop_malformed else
          t <- (if (type =? DNS_QTYPE_CNAME) && for_target
                then lift (dns_label_to_domain p current_ptr name_size) else ret (Some target)) ;;
          match t with
          | None => bump dns_drop_malformed
          | Some target' =>
              let skipped_mismatch :=
                skipped_mismatch || ((type =? DNS_QTYPE_A) || (type =? DNS_QTYPE_CNAME)) && negb for_target in
              if (type =? DNS_QTYPE_A) && (data_len =? 4) && for_target then
                ip <- lift (load_block p current_ptr 4) ;;
                modify (put_answer ip true false) ;;;
                bump dns_responses_rx
              else answer_loop n' p (current_ptr + data_len) target' skipped_mismatch
          end
      end
  end.

Definition handle_dns_response (p : list Z) (source_ip : list Z) (dest_port : Z) : M dns unit :=
  if Z.of_nat (length p) <? sizeof_dns_header then bump dns_drop_malformed else
  server <- gets dns_server ;;
  if negb (bool_decide (source_ip = dns_server_get server)) then bump dns_drop_source_ip else
  outstanding <- gets dns_query_outstanding ;;
  if negb outstanding then bump dns_drop_unsolicited else
  port <- gets last_dns_src_port ;;
  if negb (dest_port =? port) then bump dns_drop_port else
  response_tid <- net16 p 0 ;;
  tid <- gets last_dns_tid ;;
  if negb (response_tid =? tid) then bump dns_drop_tid else
  flags <- net16 p 2 ;;
  q_count <- net16 p 4 ;;
  ans_count <- net16 p 6 ;;
  if Z.land flags 0x8000 =? 0 then bump dns_drop_malformed else
  if negb (Z.land flags 0x000F =? 0) then bump dns_drop_malformed else
  q <- question_loop (Z.to_nat q_count) p sizeof_dns_header ;;
  match q with
  | None => ret tt
  | Some current_ptr =>
      if q_count =? 0 then bump dns_drop_question else
      asked <- gets last_queried_domain ;;
      answer_loop (Z.to_nat ans_count) p current_ptr (take (Z.to_nat MAX_DOMAIN_NAME_LEN) asked) false
  end.

(** * Queries *)

(** [tid_random], [port_random]: two bytes each of the generator; [route]: a
    next-hop address is known.  The result is the datagram and its source port. *)
Definition send_dns_query (domain : list Z) (tid_random port_random : Z) (route : bool)
  : M dns (option (list Z * Z)) :=
  modify (put_answer [0; 0; 0; 0] false false) ;;;
  if strlen domain =? 0 then ret None else
  if MAX_DOMAIN_NAME_LEN <? strlen domain then ret None else
  modify (put_domain domain) ;;;
  server <- gets dns_server ;;
  if bool_decide (dns_server_get server = [0; 0; 0; 0]) then ret None else
  let tid := if tid_random =? 0 then 1 else tid_random in
  modify (put_tid tid) ;;;
  let header := net_bytes16 tid ++ net_bytes16 0x0100 ++ net_bytes16 1 ++ net_bytes16 0 ++
                net_bytes16 0 ++ net_bytes16 0 in
  e <- lift (domain_to_dns_label domain (512 - sizeof_dns_header)) ;;
  match e with
  | None => ret None
  | Some encoded =>
      payload <- lift (store 512 (header ++ encoded) (net_bytes16 DNS_QTYPE_A ++ net_bytes16 DNS_QCLASS_IN)) ;;
      if route then
        let src_port := 49152 + port_random mod 16384 in
        modify (put_query src_port) ;;;
        ret (Some (payload, src_port))
      else ret None
  end.

Definition dns_get_resolved_ip (s : dns) : option (list Z) :=
  if dns_resolution_complete s then Some (last_resolved_ip s) else None.
Definition dns_is_resolved (s : dns) : bool := dns_resolution_complete s.


(** * Names on the wire (RFC 1035, 4.1.4) *)

Section Wire.
Variable p : list Z.
Implicit Types (pos e off len : Z) (l : list Z).

(** Where the name at a position ends. *)
Inductive wire_end : Z -> Z -> Prop :=
| end_zero pos : at8 p pos = 0 -> wire_end pos (pos + 1)
| end_pointer pos : 192 <= at8 p pos -> wire_end pos (pos + 2)
| end_label pos e : 1 <= at8 p pos <= 63 -> wire_end (pos + (at8 p pos + 1)) e -> wire_end pos e.

(** The labels of the name at a position; pointers lead towards the start. *)
Inductive dns_name : Z -> list (list Z) -> Prop :=
| name_end pos : at8 p pos = 0 -> dns_name pos []
| name_label pos l rest :
    1 <= at8 p pos <= 63 -> l = block p (Z.to_nat (pos + 1)) (Z.to_nat (at8 p pos)) ->
    dns_name (pos + (at8 p pos + 1)) rest -> dns_name pos (l :: rest)
| name_pointer pos off rest :
    192 <= at8 p pos -> off = 256 * (at8 p pos - 192) + at8 p (pos + 1) -> off < pos ->
    dns_name off rest -> dns_name pos rest.
End Wire.
#[local] Hint Constructors wire_end dns_name : core.

(** Labels with dots between them. *)
Definition dotted (labels : list (list Z)) : list Z := concat (map (fun l => l ++ [46]) labels).
Definition domain_of (labels : list (list Z)) : list Z := trim_dot (dotted labels).

Section Decoding.
Context (p : list Z) (Hp : bytes p).
Local Notation L := (Z.of_nat (length p)).

Lemma pointer_byte b : 0 <= b < 256 -> (Z.land b 0xC0 =? 0xC0) = (192 <=? b).
Proof.
  intros Hb. change 0xC0 with (Z.ones 2 * 2 ^ 6) at 1. rewrite land_field by lia.
  change (2 ^ 6) with 64. change (2 ^ 2) with 4.
  destruct (Z.eqb_spec ((b / 64) mod 4 * 64) 0xC0), (Z.leb_spec 192 b); try done;
    Z.to_euclidean_division_equations; lia.
Qed.

Lemma pointer_value len b1 : 192 <= len < 256 -> 0 <= b1 < 256 -> pointer_offset len b1 = 256 * (len - 192) + b1.
Proof.
  intros Hl Hb. unfold pointer_offset. change 0x3F with (Z.ones 6).
  rewrite Z.land_ones, Z.shiftl_mul_pow2, lor_add by lia. u_lia.
Qed.

Lemma trim_dot_length out : (length (trim_dot out) <= length out)%nat.
Proof.
  unfold trim_dot. pose proof (length_rev out) as Hl. destruct (rev out) as [|c r]; [lia|].
  simpl in Hl. destruct (c =? 46); rewrite ?length_rev; lia.
Qed.

Lemma aget_at8 pos : 0 <= pos < L -> aget p pos = Ok (at8 p pos).
Proof.
  intros H. destruct (aget_range p pos H) as (b & Hb & E). rewrite E. f_equal. symmetry.
  by apply list_lookup_total_correct.
Qed.

Lemma load_block_ok pos n : 0 <= pos -> 0 <= n -> pos + n <= L ->
  load_block p pos n = Ok (block p (Z.to_nat pos) (Z.to_nat n)).
Proof. intros. unfold load_block. by replace ((pos <? 0) || (L <? pos + n)) with false by lia. Qed.

Lemma store_ok size out bs : Z.of_nat (length out + length bs) <= size -> store size out bs = Ok (out ++ bs).
Proof. intros H. unfold store. destruct (Z.ltb_spec size (Z.of_nat (length out + length bs))); [lia|done]. Qed.

(** The decoder comes to an end without a fault, and what it returns is a name
    of the packet. *)
Lemma label_loop_ok fuel size count pos out :
  (count <= 127)%nat -> 0 <= pos <= L -> Z.of_nat (length out) < size ->
  Z.of_nat (127 - count) * (L + 2) + pos < Z.of_nat fuel ->
  exists r, label_loop fuel p size count pos out = Ok r /\
    match r with
    | None => True
    | Some d => exists labels, dns_name p pos labels /\ d = trim_dot (out ++ dotted labels) /\
                               Z.of_nat (length d) < size
    end.
Proof.
  revert count pos out. induction fuel as [|fuel IH]; intros count pos out Hc Hpos Hout Hfuel; [nia|].
  cbn [label_loop]. destruct (Nat.leb_spec MAX_DNS_LABELS count) as [?|Hcount]; [by eexists|].
  change MAX_DNS_LABELS with 127%nat in Hcount.
  destruct (Z.leb_spec L pos); [by eexists|]. rewrite aget_at8 by lia. pose proof (at8_byte p pos Hp) as Hb.
  destruct (Z.eqb_spec (at8 p pos) 0) as [E0|E0].
  { pose proof (trim_dot_length out). rewrite store_ok by (simpl; lia). eexists. split; [done|].
    exists []. split; [by constructor|]. unfold dotted. simpl. rewrite app_nil_r. split; [done|lia]. }
  rewrite pointer_byte by done. destruct (Z.leb_spec 192 (at8 p pos)) as [Hptr|Hlab].
  - destruct (Z.leb_spec L (pos + 1)); [by eexists|]. rewrite aget_at8 by lia.
    pose proof (at8_byte p (pos + 1) Hp) as Hb1. rewrite pointer_value by lia.
    set (off := 256 * (at8 p pos - 192) + at8 p (pos + 1)).
    destruct (Z.leb_spec L off), (Z.leb_spec pos off); cbn [orb]; try by eexists.
    destruct (IH count off out) as (r & -> & Hr); [done|subst off; lia|done|lia|].
    eexists. split; [done|]. destruct r as [d|]; [|done]. destruct Hr as (labels & Hn & Hd).
    exists labels. split; [|done]. by eapply name_pointer.
  - unfold MAX_DNS_LABEL_LEN. destruct (Z.ltb_spec 63 (at8 p pos)); [by eexists|].
    destruct (Z.ltb_spec L (pos + at8 p pos + 1)); [by eexists|].
    destruct (Z.leb_spec size (Z.of_nat (length out) + at8 p pos + 2)); [by eexists|].
    rewrite load_block_ok by lia. set (l := block p _ _).
    assert (length l = Z.to_nat (at8 p pos)) as Hl by (apply mem_block_length; lia).
    rewrite store_ok by (rewrite length_app; simpl; lia).
    destruct (IH (S count) (pos + (at8 p pos + 1)) (out ++ l ++ [46])) as (r & -> & Hr).
    + lia.
    + lia.
    + rewrite !length_app. simpl. lia.
    + replace (127 - count)%nat with (S (127 - S count)) in Hfuel by lia. lia.
    + eexists. split; [done|]. destruct r as [d|]; [|done]. destruct Hr as (labels & Hn & Hd & Hlen).
      exists (l :: labels). split; [by constructor; [lia|..]|]. split; [|done].
      rewrite Hd. unfold dotted. simpl. by rewrite <- !app_assoc.
Qed.

Lemma label_fuel_bound : 127 * (L + 2) + L < Z.of_nat (label_fuel p).
Proof. unfold label_fuel. rewrite Nat2Z.inj_mul. change (Z.of_nat (S MAX_DNS_LABELS)) with 128. lia. Qed.

Lemma label_to_domain_ok pos size : 0 <= pos -> 0 < size ->
  exists r, dns_label_to_domain p pos size = Ok r /\
    match r with
    | None => True
    | Some d => exists labels, dns_name p pos labels /\ d = domain_of labels /\ Z.of_nat (length d) < size
    end.
Proof.
  intros Hpos Hsize. unfold dns_label_to_domain. pose proof label_fuel_bound as Hfuel. revert Hfuel.
  generalize (label_fuel p). intros fuel Hfuel. destruct (Z.leb_spec pos L).
  - apply (label_loop_ok fuel size 0 pos []); [lia|lia|simpl; lia|]. change (Z.of_nat (127 - 0)) with 127. lia.
  - exists None. split; [|done]. destruct fuel as [|fuel]; [lia|]. cbn [label_loop].
    destruct (MAX_DNS_LABELS <=? 0)%nat; [done|]. by destruct (Z.leb_spec L pos); [|lia].
Qed.
End Decoding.


(** * Responses *)

(** The query and the answer held are the same, the counters may differ. *)
Record same_query (s s' : dns) : Prop := mk_same_query {
  sq_server : dns_server s' = dns_server s; sq_tid : last_dns_tid s' = last_dns_tid s;
  sq_port : last_dns_src_port s' = last_dns_src_port s;
  sq_domain : last_queried_domain s' = last_queried_domain s }.
Record same_answer (s s' : dns) : Prop := mk_same_answer {
  sa_query : same_query s s'; sa_ip : last_resolved_ip s' = last_resolved_ip s;
  sa_complete : dns_resolution_complete s' = dns_resolution_complete s;
  sa_outstanding : dns_query_outstanding s' = dns_query_outstanding s }.

Lemma same_answer_refl s : same_answer s s.
Proof. by repeat constructor. Qed.
Lemma same_answer_trans s1 s2 s3 : same_answer s1 s2 -> same_answer s2 s3 -> same_answer s1 s3.
Proof. intros [[] ? ? ?] [[] ? ? ?]. constructor; [constructor|..]; congruence. Qed.
#[local] Hint Resolve same_answer_refl same_answer_trans : core.

Lemma bump_ok c s s0 (Q : unit -> dns -> Prop) :
  same_answer s0 s -> (forall s', same_answer s0 s' -> Q tt s') -> wp (bump c) Q s.
Proof. intros H HQ. apply wp_modify, HQ. eapply same_answer_trans; [exact H|]. by repeat constructor. Qed.

Section Parsing.
Context (p : list Z) (Hp : bytes p).
Local Notation L := (Z.of_nat (length p)).

Lemma skip_loop_ok n orig pos s0 s (Q : Z -> dns -> Prop) :
  0 <= orig <= pos -> same_answer s0 s ->
  (forall s', same_answer s0 s' -> Q 0 s') ->
  (forall e s', same_answer s0 s' -> wire_end p pos e -> orig < e <= L -> Q (e - orig) s') ->
  wp (skip_loop n p orig pos) Q s.
Proof.
  revert pos. induction n as [|n IH]; intros pos Hpos Hs H0 He; cbn [skip_loop].
  { apply wp_bind. eapply bump_ok; [exact Hs|]. intros. by apply wp_ret, H0. }
  assert (forall c, wp (bump c ;;; ret 0) Q s) as Hbump.
  { intros c. apply wp_bind. eapply bump_ok; [exact Hs|]. intros. by apply wp_ret, H0. }
  destruct (Z.leb_spec L pos); [apply Hbump|]. apply wp_bind, load8_ok; [lia|].
  pose proof (at8_byte p pos Hp) as Hb. destruct (Z.eqb_spec (at8 p pos) 0) as [E|E].
  { apply wp_ret. replace (pos - orig + 1) with (pos + 1 - orig) by lia. apply He; [done|by constructor|lia]. }
  rewrite pointer_byte by done. destruct (Z.leb_spec 192 (at8 p pos)) as [Hptr|Hlab].
  - destruct (Z.leb_spec L (pos + 1)); [apply Hbump|]. apply wp_bind, load8_ok; [lia|]. cbv zeta.
    destruct (Z.leb_spec L (pointer_offset (at8 p pos) (at8 p (pos + 1)))); [apply Hbump|].
    destruct (Z.leb_spec pos (pointer_offset (at8 p pos) (at8 p (pos + 1)))); [apply Hbump|].
    apply wp_ret. replace (pos - orig + 2) with (pos + 2 - orig) by lia. apply He; [done|by constructor|lia].
  - unfold MAX_DNS_LABEL_LEN. destruct (Z.ltb_spec 63 (at8 p pos)); [apply Hbump|].
    destruct (Z.ltb_spec L (pos + at8 p pos + 1)); [apply Hbump|].
    apply IH; [lia|done..|]. intros e s' Hs' Hw Hel. apply He; [done| |done]. apply end_label; [lia|done].
Qed.

(** A resource record: owner, type, class, place and length of its data. *)
Record rr_at (pos : Z) (owner : list Z) (type class rdata len : Z) : Prop := mk_rr {
  rr_owner : exists labels, dns_name p pos labels /\ owner = domain_of labels;
  rr_end : wire_end p pos (rdata - 10);
  rr_type : type = be16 p (rdata - 10); rr_class : class = be16 p (rdata - 8); rr_len : len = be16 p (rdata - 2);
  rr_inside : pos < rdata /\ 0 <= len /\ rdata + len <= L }.

Definition named (pos : Z) (d : list Z) : Prop := exists labels, dns_name p pos labels /\ d = domain_of labels.

(** [resolves target pos n ip]: among the [n] records from [pos] on, the first
    address record of class IN whose owner is the target holds [ip]; an alias of
    the target in front of it moves the target. *)
Inductive resolves : list Z -> Z -> nat -> list Z -> Prop :=
| resolves_a target pos n owner rdata :
    rr_at pos owner DNS_QTYPE_A DNS_QCLASS_IN rdata 4 -> same_name owner target = true ->
    resolves target pos (S n) (block p (Z.to_nat rdata) 4)
| resolves_cname target target' pos n owner rdata len ip :
    rr_at pos owner DNS_QTYPE_CNAME DNS_QCLASS_IN rdata len -> same_name owner target = true ->
    named rdata target' -> resolves target' (rdata + len) n ip -> resolves target pos (S n) ip
| resolves_other target pos n owner type class rdata len ip :
    rr_at pos owner type class rdata len ->
    ~ (class = DNS_QCLASS_IN /\ same_name owner target = true /\
       (type = DNS_QTYPE_CNAME \/ type = DNS_QTYPE_A /\ len = 4)) ->
    resolves target (rdata + len) n ip -> resolves target pos (S n) ip.

(** [n] questions from [pos] to [e], all of them for [asked]. *)
Inductive questions (asked : list Z) : Z -> nat -> Z -> Prop :=
| questions_nil pos : questions asked pos 0 pos
| questions_cons pos n d e e' :
    named pos d -> same_name d asked = true -> wire_end p pos e -> e + 4 <= L ->
    questions asked (e + 4) n e' -> questions asked pos (S n) e'.

Lemma question_loop_ok n pos s0 s (Q : option Z -> dns -> Prop) :
  0 <= pos -> same_answer s0 s ->
  (forall s', same_answer s0 s' -> Q None s') ->
  (forall e s', same_answer s0 s' -> 0 <= e -> questions (last_queried_domain s0) pos n e -> Q (Some e) s') ->
  wp (question_loop n p pos) Q s.
Proof.
  revert pos s. induction n as [|n IH]; intros pos s Hpos Hs HN HS; cbn [question_loop].
  { apply wp_ret, HS; [done|done|constructor]. }
  assert (forall c s1, same_answer s0 s1 -> wp (bump c ;;; ret None) Q s1) as Hbump.
  { intros c s1 Hs1. apply wp_bind. eapply bump_ok; [exact Hs1|]. intros. by apply wp_ret, HN. }
  destruct (label_to_domain_ok p Hp pos name_size Hpos ltac:(done)) as (r & E & Hr).
  apply wp_bind. eapply wp_lift; [exact E|]. destruct r as [d|]; [|by apply Hbump].
  apply wp_bind, wp_gets. destruct (same_name d (last_queried_domain s)) eqn:En; cbn [negb]; [|by apply Hbump].
  apply wp_bind. eapply (skip_loop_ok _ _ _ s0 s); [lia|done|..].
  - intros s' Hs'. simpl. by apply Hbump.
  - intros e s' Hs' Hw He. destruct (Z.eqb_spec (e - pos) 0); [lia|]. cbv zeta.
    replace (pos + (e - pos)) with e by lia. unfold sizeof_dns_question.
    destruct (Z.ltb_spec L (e + 4)); [by apply Hbump|]. apply IH; [lia|done..|].
    intros e' s2 Hs2 He' Hq. apply HS; [done..|]. destruct Hr as (labels & Hn & -> & _).
    rewrite (sq_domain _ _ (sa_query _ _ Hs)) in En. econstructor; [by exists labels|done..].
Qed.

(** The state has taken the answer [ip]. *)
Definition answered (s s' : dns) (ip : list Z) : Prop :=
  same_query s s' /\ last_resolved_ip s' = ip /\ dns_resolution_complete s' = true /\ dns_query_outstanding s' = false.

Lemma answer_loop_ok n pos target skipped s0 s (Q : unit -> dns -> Prop) :
  0 <= pos -> same_answer s0 s ->
  (forall s', same_answer s0 s' -> Q tt s') ->
  (forall ip s', answered s0 s' ip -> resolves target pos n ip -> Q tt s') ->
  wp (answer_loop n p pos target skipped) Q s.
Proof.
  revert pos target skipped s. induction n as [|n IH]; intros pos target skipped s Hpos Hs HN HS; cbn [answer_loop].
  { destruct skipped; by eapply bump_ok. }
  apply wp_bind. eapply (skip_loop_ok _ _ _ s0 s); [lia|done|intros; by eapply bump_ok|].
  intros e s1 Hs1 Hw He. destruct (Z.eqb_spec (e - pos) 0); [lia|].
  destruct (label_to_domain_ok p Hp pos name_size Hpos ltac:(done)) as (r & E & Hr).
  apply wp_bind. eapply wp_lift; [exact E|]. destruct r as [owner|]; [|by eapply bump_ok].
  destruct Hr as (labels & Hn & Hown & _). cbv zeta. replace (pos + (e - pos)) with e by lia. unfold sizeof_dns_rr.
  destruct (Z.ltb_spec L (e + 10)); [by eapply bump_ok|].
  apply wp_bind, net16_ok; [done|lia..|]. apply wp_bind, net16_ok; [done|lia..|].
  apply wp_bind, net16_ok; [done|lia..|].
  pose proof (be16_range p (e + 8) Hp) as Hlen.
  set (type := be16 p e). set (class := be16 p (e + 2)). set (len := be16 p (e + 8)) in *.
  destruct (Z.ltb_spec L (e + 10 + len)); [by eapply bump_ok|].
  assert (rr_at pos owner type class (e + 10) len) as Hrr.
  { constructor; [by exists labels|by replace (e + 10 - 10) with e by lia|..|lia];
      subst type class len; f_equal; lia. }
  assert (forall sk, ~ (class = DNS_QCLASS_IN /\ same_name owner target = true /\
            (type = DNS_QTYPE_CNAME \/ type = DNS_QTYPE_A /\ len = 4)) ->
          wp (answer_loop n p (e + 10 + len) target sk) Q s1) as Hother.
  { intros sk Hno. apply IH; [lia|done..|]. intros ip s' Ha Hres. apply (HS ip); [done|]. by eapply resolves_other. }
  destruct ((class =? DNS_QCLASS_IN) && same_name owner target) eqn:Hfor.
  - apply andb_true_iff in Hfor as [Hcl%Z.eqb_eq Hsame]. rewrite !andb_true_r. cbn [negb]. rewrite !andb_false_r, orb_false_r.
    destruct (Z.eqb_spec type DNS_QTYPE_CNAME) as [Hty|Hty].
    + destruct (label_to_domain_ok p Hp (e + 10) name_size ltac:(lia) ltac:(done)) as (t & Et & Ht).
      apply wp_bind. eapply wp_lift; [exact Et|]. destruct t as [target'|]; [|by eapply bump_ok].
      destruct (Z.eqb_spec type DNS_QTYPE_A) as [Hty'|]; [unfold DNS_QTYPE_A, DNS_QTYPE_CNAME in *; lia|]. cbn [andb].
      apply IH; [lia|done..|]. intros ip s' Ha Hres. apply (HS ip); [done|].
      destruct Ht as (l' & Hn' & -> & _). rewrite Hty, Hcl in Hrr.
      eapply resolves_cname; [exact Hrr|done|by exists l'|done].
    + apply wp_bind, wp_ret. destruct (Z.eqb_spec type DNS_QTYPE_A) as [Hty'|Hty'], (Z.eqb_spec len 4) as [Hl4|Hl4]; cbn [andb].
      * apply wp_bind. eapply wp_lift; [apply load_block_ok; lia|]. apply wp_bind, wp_modify, wp_modify.
        rewrite Hty', Hcl, Hl4 in Hrr.
        apply (HS (block p (Z.to_nat (e + 10)) 4)); [|by eapply resolves_a].
        destruct Hs1 as [[] ? ? ?]. by split.
      * apply Hother. intros (_ & _ & [?|[? ?]]); congruence.
      * apply Hother. intros (_ & _ & [?|[? ?]]); congruence.
      * apply Hother. intros (_ & _ & [?|[? ?]]); congruence.
  - rewrite !andb_false_r. apply wp_bind, wp_ret. apply Hother.
    intros (Hc & Hsm & _). rewrite Hc, Hsm in Hfor. done.
Qed.
End Parsing.

(** What makes a response acceptable. *)
Record accepted (s : dns) (p source_ip : list Z) (dest_port : Z) (ip : list Z) : Prop := mk_accepted {
  acc_length : 12 <= Z.of_nat (length p);
  acc_server : source_ip = dns_server_get (dns_server s);
  acc_outstanding : dns_query_outstanding s = true;
  acc_port : dest_port = last_dns_src_port s;
  acc_tid : be16 p 0 = last_dns_tid s;
  acc_response : 2 ^ 15 <= be16 p 2;
  acc_rcode : be16 p 2 mod 16 = 0;
  acc_answer : 1 <= be16 p 4 /\ exists e, questions p (last_queried_domain s) 12 (Z.to_nat (be16 p 4)) e /\
    resolves p (take 253 (last_queried_domain s)) e (Z.to_nat (be16 p 6)) ip }.

Lemma handle_ok p source_ip dest_port s :
  bytes p ->
  wp (handle_dns_response p source_ip dest_port) (fun _ s' =>
    same_answer s s' \/ exists ip, accepted s p source_ip dest_port ip /\ answered s s' ip) s.
Proof.
  intros Hp. set (Q := fun (_ : unit) s' => _).
  assert (forall s', same_answer s s' -> Q tt s') as HN by (intros; by left).
  assert (forall c s1, same_answer s s1 -> wp (bump c) Q s1) as Hbump by (intros; by eapply bump_ok).
  unfold handle_dns_response, sizeof_dns_header.
  destruct (Z.ltb_spec (Z.of_nat (length p)) 12); [by apply Hbump|]. apply wp_bind, wp_gets.
  case_bool_decide as Hsrc; cbn [negb]; [|by apply Hbump]. apply wp_bind, wp_gets.
  destruct (dns_query_outstanding s) eqn:Hout; cbn [negb]; [|by apply Hbump]. apply wp_bind, wp_gets.
  destruct (Z.eqb_spec dest_port (last_dns_src_port s)) as [Hport|]; cbn [negb]; [|by apply Hbump].
  apply wp_bind, net16_ok; [done|lia..|]. apply wp_bind, wp_gets.
  destruct (Z.eqb_spec (be16 p 0) (last_dns_tid s)) as [Htid|]; cbn [negb]; [|by apply Hbump].
  apply wp_bind, net16_ok; [done|lia..|]. apply wp_bind, net16_ok; [done|lia..|]. apply wp_bind, net16_ok; [done|lia..|].
  pose proof (be16_range p 2 Hp) as Hf. change 0x000F with (Z.ones 4). change 0x8000 with (Z.ones 1 * 2 ^ 15).
  rewrite land_field, Z.land_ones by lia.
  destruct (Z.eqb_spec ((be16 p 2 / 2 ^ 15) mod 2 ^ 1 * 2 ^ 15) 0) as [|Hqr]; [by apply Hbump|].
  destruct (Z.eqb_spec (be16 p 2 mod 2 ^ 4) 0) as [Hrc|]; cbn [negb]; [|by apply Hbump].
  apply wp_bind. eapply (question_loop_ok p Hp _ _ s s); [lia|done|intros; by apply wp_ret, HN|].
  intros e s1 Hs1 He Hq. destruct (Z.eqb_spec (be16 p 4) 0) as [|Hq0]; [by apply Hbump|].
  apply wp_bind, wp_gets. apply (answer_loop_ok p Hp _ _ _ _ s); [done..|].
  intros ip s' Ha Hres. right. exists ip. split; [|done]. rewrite (sq_domain _ _ (sa_query _ _ Hs1)) in Hres.
  pose proof (be16_range p 4 Hp). constructor; try done.
  - change (2 ^ 1) with 2 in Hqr. change (2 ^ 15) with 32768 in *. Z.to_euclidean_division_equations; lia.
  - split; [lia|]. by exists e.
Qed.

End Dns.
