(* ===== verification/DnsProps.v ===== *)
(** Properties of the resolver: safety and authenticity of responses, names
    round-trip, a query is answered. *)
From Stdlib Require Import ZArith Lia List Bool.
From stdpp Require Import base tactics numbers list.
From S2P Require Import Prelude CString NetHdr Dns.
Open Scope Z_scope.

Module DnsProps.
Import CString NetHdr Dns.

(** * Names *)

(** A label as host names have it. *)
Record label_ok (l : list Z) : Prop := mk_label_ok {
  label_length : (1 <= length l <= 63)%nat; label_chars : chars l; label_no_dot : 46 ∉ l }.

Definition wire (ls : list (list Z)) : list Z := concat (map (fun l => Z.of_nat (length l) :: l) ls).

Lemma dotted_app a b : dotted (a ++ b) = dotted a ++ dotted b.
Proof. unfold dotted. by rewrite map_app, concat_app. Qed.
Lemma wire_app a b : wire (a ++ b) = wire a ++ wire b.
Proof. unfold wire. by rewrite map_app, concat_app. Qed.
Lemma wire_length ls : length (wire ls) = length (dotted ls).
Proof.
  induction ls as [|l ls IH]; [done|]. unfold wire, dotted in *. cbn [map concat].
  rewrite !length_app, IH. simpl. lia.
Qed.

(** The text of a name with at least one label. *)
Lemma domain_of_snoc ls l : domain_of (ls ++ [l]) = dotted ls ++ l.
Proof.
  unfold domain_of. rewrite dotted_app. unfold dotted at 2. simpl. rewrite app_nil_r, app_assoc.
  unfold trim_dot. rewrite rev_app_distr. simpl. by rewrite rev_involutive.
Qed.

Lemma encode_chars sz l rest lab out : 46 ∉ l ->
  encode_loop sz (l ++ rest) lab out = encode_loop sz rest (lab ++ l) out.
Proof.
  revert lab. induction l as [|c l IH]; intros lab Hl; simpl; [by rewrite app_nil_r|].
  apply not_elem_of_cons in Hl as [Hc Hl]. destruct (Z.eqb_spec c 46); [congruence|].
  rewrite IH by done. by rewrite <- app_assoc.
Qed.

Lemma put_label_ok sz slack l out : label_ok l -> 0 <= slack ->
  Z.of_nat (length out) + 1 + Z.of_nat (length l) + slack < sz ->
  put_label sz slack l out = Ok (Some (out ++ Z.of_nat (length l) :: l)).
Proof.
  intros [Hl _ _] Hs Hsz. unfold put_label, MAX_DNS_LABEL_LEN.
  destruct (Z.ltb_spec 63 (Z.of_nat (length l))); [lia|].
  destruct (Z.leb_spec sz (Z.of_nat (length out) + 1 + Z.of_nat (length l) + slack)); [lia|].
  rewrite u8_small, store_ok by (simpl; lia). done.
Qed.

Lemma encode_ok sz ls l out : Forall label_ok ls -> label_ok l ->
  Z.of_nat (length out + length (wire (ls ++ [l])) + 1) < sz ->
  encode_loop sz (dotted ls ++ l) [] out = Ok (Some (out ++ wire (ls ++ [l]) ++ [0])).
Proof.
  revert out. induction ls as [|l0 ls IH]; intros out Hls Hl Hsz.
  - cbn [app]. unfold dotted. simpl in Hsz. rewrite app_nil_r in Hsz. cbn in Hsz. simpl app.
    rewrite <- (app_nil_r l) at 1. rewrite encode_chars by apply Hl. cbn [encode_loop app].
    rewrite put_label_ok by (done || lia). rewrite store_ok by (rewrite length_app; simpl; lia).
    unfold wire. simpl. rewrite app_nil_r. by rewrite <- app_assoc.
  - apply Forall_cons in Hls as [Hl0 Hls]. rewrite <- app_comm_cons in *.
    assert (wire (l0 :: ls ++ [l]) = (Z.of_nat (length l0) :: l0) ++ wire (ls ++ [l])) as Ew by done.
    rewrite Ew in *. rewrite length_app in Hsz. cbn [length] in Hsz.
    assert (dotted (l0 :: ls) ++ l = l0 ++ 46 :: dotted ls ++ l) as ->.
    { unfold dotted. simpl. by rewrite <- !app_assoc. }
    rewrite encode_chars by apply Hl0. cbn [encode_loop app]. rewrite Z.eqb_refl.
    rewrite put_label_ok by (done || lia).
    rewrite IH; [by rewrite <- !app_assoc|done|done|]. rewrite length_app. simpl. lia.
Qed.

Lemma at8_mid pre x post : at8 (pre ++ x :: post) (Z.of_nat (length pre)) = x.
Proof. unfold at8. rewrite Nat2Z.id. by rewrite lookup_total_app_r, Nat.sub_diag. Qed.

Lemma bytes_mid pre (x : Z) post : bytes (pre ++ x :: post) -> 0 <= x < 256.
Proof. intros H. apply Forall_app in H as [_ H]. by apply Forall_cons in H as [? _]. Qed.

Lemma block_mid pre x l post : block (pre ++ x :: l ++ post) (S (length pre)) (length l) = l.
Proof.
  unfold block. replace (pre ++ x :: l ++ post) with ((pre ++ [x]) ++ l ++ post) by by rewrite <- app_assoc.
  rewrite drop_app_length' by (rewrite length_app; simpl; lia). by rewrite take_app_length.
Qed.

(** The step over one label of a packet, for the two loops. *)
Lemma wire_split pre l ls post : pre ++ wire (l :: ls) ++ 0 :: post =
  (pre ++ Z.of_nat (length l) :: l) ++ wire ls ++ 0 :: post.
Proof. unfold wire. simpl. by rewrite <- !app_assoc. Qed.

Lemma decode_ok size ls : forall fuel count pre out post,
  Forall label_ok ls -> (count + length ls < 127)%nat -> (length ls < fuel)%nat ->
  Z.of_nat (length out + length (dotted ls) + 1) < size ->
  label_loop fuel (pre ++ wire ls ++ 0 :: post) size count (Z.of_nat (length pre)) out
    = Ok (Some (trim_dot (out ++ dotted ls))).
Proof.
  induction ls as [|l ls IH]; intros fuel count pre out post Hls Hc Hf Hsz; (destruct fuel as [|fuel]; [lia|]);
    cbn [label_loop].
  - cbn [wire map concat app]. destruct (Nat.leb_spec MAX_DNS_LABELS count); [change MAX_DNS_LABELS with 127%nat in *; simpl in *; lia|].
    rewrite length_app. destruct (Z.leb_spec (Z.of_nat (length pre + length (0 :: post))) (Z.of_nat (length pre))); [simpl in *; lia|].
    rewrite aget_at8 by (rewrite length_app; simpl; lia). rewrite at8_mid. simpl.
    pose proof (trim_dot_length out). rewrite store_ok by (simpl in *; lia). unfold dotted. simpl. by rewrite app_nil_r.
  - apply Forall_cons in Hls as [Hl Hls]. destruct Hl as [Hlen Hchars Hdot].
    destruct (Nat.leb_spec MAX_DNS_LABELS count); [change MAX_DNS_LABELS with 127%nat in *; simpl in *; lia|].
    rewrite wire_split. set (p := (pre ++ _) ++ _).
    assert (dotted (l :: ls) = (l ++ [46]) ++ dotted ls) as Ed by done. rewrite Ed, !length_app in Hsz. simpl in Hsz.
    assert (p = pre ++ Z.of_nat (length l) :: l ++ wire ls ++ 0 :: post) as Ep by (unfold p; by rewrite <- app_assoc).
    assert (Z.of_nat (length pre) + Z.of_nat (length l) + 1 < Z.of_nat (length p)) as HL.
    { rewrite Ep, length_app. simpl. rewrite length_app, length_app. simpl. lia. }
    destruct (Z.leb_spec (Z.of_nat (length p)) (Z.of_nat (length pre))); [lia|].
    rewrite aget_at8 by lia. replace (at8 p (Z.of_nat (length pre))) with (Z.of_nat (length l)) by (rewrite Ep; by rewrite at8_mid).
    destruct (Z.eqb_spec (Z.of_nat (length l)) 0); [lia|]. rewrite pointer_byte by lia.
    destruct (Z.leb_spec 192 (Z.of_nat (length l))); [lia|]. unfold MAX_DNS_LABEL_LEN.
    destruct (Z.ltb_spec 63 (Z.of_nat (length l))); [lia|].
    destruct (Z.ltb_spec (Z.of_nat (length p)) (Z.of_nat (length pre) + Z.of_nat (length l) + 1)); [lia|].
    destruct (Z.leb_spec size (Z.of_nat (length out) + Z.of_nat (length l) + 2)); [lia|].
    rewrite load_block_ok by lia.
    replace (block p _ _) with l by (rewrite Ep; replace (Z.to_nat (Z.of_nat (length pre) + 1)) with (S (length pre)) by lia;
      rewrite Nat2Z.id; by rewrite block_mid).
    rewrite store_ok by (rewrite length_app; simpl; lia).
    replace (Z.of_nat (length pre) + (Z.of_nat (length l) + 1)) with (Z.of_nat (length (pre ++ Z.of_nat (length l) :: l)))
      by (rewrite length_app; simpl; lia).
    unfold p. rewrite IH; [by rewrite Ed, <- !app_assoc|done|simpl in *; lia|simpl in *; lia|rewrite !length_app; simpl; lia].
Qed.

Lemma skip_ok ls : forall n pre orig post s,
  Forall label_ok ls -> (length ls < n)%nat ->
  skip_loop n (pre ++ wire ls ++ 0 :: post) orig (Z.of_nat (length pre)) s
    = Ok (Z.of_nat (length pre + length (wire ls)) + 1 - orig, s).
Proof.
  induction ls as [|l ls IH]; intros n pre orig post s Hls Hn; (destruct n as [|n]; [lia|]); cbn [skip_loop].
  - cbn [wire map concat app]. rewrite length_app.
    destruct (Z.leb_spec (Z.of_nat (length pre + length (0 :: post))) (Z.of_nat (length pre))); [simpl in *; lia|].
    unfold bind, load8, lift. rewrite aget_at8 by (rewrite length_app; simpl; lia). rewrite at8_mid. simpl.
    unfold ret. do 2 f_equal. lia.
  - apply Forall_cons in Hls as [[Hlen Hchars Hdot] Hls]. rewrite wire_split. set (p := (pre ++ _) ++ _).
    assert (p = pre ++ Z.of_nat (length l) :: l ++ wire ls ++ 0 :: post) as Ep by (unfold p; by rewrite <- app_assoc).
    assert (Z.of_nat (length pre) + Z.of_nat (length l) + 1 < Z.of_nat (length p)) as HL.
    { rewrite Ep, length_app. simpl. rewrite length_app, length_app. simpl. lia. }
    destruct (Z.leb_spec (Z.of_nat (length p)) (Z.of_nat (length pre))); [lia|].
    unfold bind, load8, lift at 1. rewrite aget_at8 by lia.
    replace (at8 p (Z.of_nat (length pre))) with (Z.of_nat (length l)) by (rewrite Ep; by rewrite at8_mid).
    destruct (Z.eqb_spec (Z.of_nat (length l)) 0); [lia|]. rewrite pointer_byte by lia.
    destruct (Z.leb_spec 192 (Z.of_nat (length l))); [lia|]. unfold MAX_DNS_LABEL_LEN.
    destruct (Z.ltb_spec 63 (Z.of_nat (length l))); [lia|].
    destruct (Z.ltb_spec (Z.of_nat (length p)) (Z.of_nat (length pre) + Z.of_nat (length l) + 1)); [lia|].
    replace (Z.of_nat (length pre) + (Z.of_nat (length l) + 1)) with (Z.of_nat (length (pre ++ Z.of_nat (length l) :: l)))
      by (rewrite length_app; simpl; lia).
    unfold p. rewrite IH; [|done|simpl in *; lia]. do 2 f_equal. unfold wire. simpl. rewrite !length_app. simpl. lia.
Qed.


(** * Responses *)

(** C10. Whatever arrives, [handle_dns_response] terminates without reading
    outside of the packet, and the answer it holds changes only if the response
    is acceptable: from the configured server, to the port and with the
    identifier of a query in flight, a response without error whose questions
    (at least one) all carry the name asked for, and with an address record of
    class IN for that name or for the end of a chain of aliases from it, as the
    names of the packet read with compression.  Then the answer is that address
    and no query is in flight any more, so that nothing can replace it. *)
Theorem handle_dns_response_spec p source_ip dest_port s :
  bytes p ->
  exists s', handle_dns_response p source_ip dest_port s = Ok (tt, s') /\
    (same_answer s s' \/ exists ip, accepted s p source_ip dest_port ip /\ answered s s' ip).
Proof. intros Hp. exact (wp_elim_unit _ _ _ (handle_ok p source_ip dest_port s Hp)). Qed.

Definition example_com : list (list Z) := [[101; 120; 97; 109; 112; 108; 101]; [99; 111; 109]].
(** A query for example.com to 8.8.8.8 in flight. *)
Definition asked0 : dns :=
  mk_dns (dns_server_set [8; 8; 8; 8]) (fun _ => 0) [0; 0; 0; 0] false 4660 50000 true (domain_of example_com).

Lemma handle_dns_response_spec_witness : exists s',
  handle_dns_response [18; 52; 129; 128; 0; 1; 0; 0; 0; 0; 0; 0; 192] [8; 8; 8; 8] 50000 asked0 = Ok (tt, s').
Proof.
  destruct (handle_dns_response_spec [18; 52; 129; 128; 0; 1; 0; 0; 0; 0; 0; 0; 192] [8; 8; 8; 8] 50000 asked0)
    as (s' & E & _).
  - repeat constructor; vm_compute; congruence.
  - exists s'. exact E.
Defined.

(** * Round trips *)

(** Names the resolver can decode. *)
Record host_name (ls : list (list Z)) (l : list Z) : Prop := mk_host_name {
  hn_labels : Forall label_ok ls; hn_last : label_ok l;
  hn_length : Z.of_nat (length (dotted ls ++ l)) <= 251 }.

Lemma label_min ls : Forall label_ok ls -> (2 * length ls <= length (dotted ls))%nat.
Proof.
  induction 1 as [|l ls [Hl _ _] _ IH]; [done|]. unfold dotted in *. cbn [map concat length].
  rewrite length_app, length_app. simpl. lia.
Qed.

Lemma host_name_dotted ls l : length (dotted (ls ++ [l])) = S (length (dotted ls ++ l)).
Proof. rewrite dotted_app. unfold dotted at 2. simpl. rewrite app_nil_r, !length_app. simpl. lia. Qed.

Lemma host_name_ok ls l : host_name ls l ->
  Forall label_ok (ls ++ [l]) /\ (length (ls ++ [l]) < 127)%nat /\ (length (wire (ls ++ [l])) <= 252)%nat.
Proof.
  intros [H1 H2 H3]. assert (Forall label_ok (ls ++ [l])) as Hall by (apply Forall_app; split; [done|by apply Forall_singleton]).
  split; [done|]. pose proof (label_min _ Hall) as Hm. rewrite wire_length. rewrite host_name_dotted in *.
  split; lia.
Qed.

Lemma encode_name ls l sz : host_name ls l -> 253 < sz ->
  domain_to_dns_label (domain_of (ls ++ [l])) sz = Ok (Some (wire (ls ++ [l]) ++ [0])).
Proof.
  intros Hn Hsz. pose proof (host_name_ok _ _ Hn) as (Hall & _ & Hw). destruct Hn as [H1 H2 H3].
  unfold domain_to_dns_label. rewrite domain_of_snoc. unfold strlen, MAX_DOMAIN_NAME_LEN.
  destruct (Z.ltb_spec 253 (Z.of_nat (length (dotted ls ++ l)))); [lia|].
  rewrite encode_ok; [done..|]. simpl. lia.
Qed.

Lemma decode_name ls l pre post : host_name ls l ->
  dns_label_to_domain (pre ++ wire (ls ++ [l]) ++ 0 :: post) (Z.of_nat (length pre)) name_size
    = Ok (Some (domain_of (ls ++ [l]))).
Proof.
  intros Hn. pose proof (host_name_ok _ _ Hn) as (Hall & Hc & Hw). destruct Hn as [H1 H2 H3].
  unfold dns_label_to_domain. rewrite decode_ok; [done|done|done| |].
  - pose proof (label_fuel_bound (pre ++ wire (ls ++ [l]) ++ 0 :: post)). lia.
  - rewrite host_name_dotted. change name_size with 254. simpl. lia.
Qed.

(** Encoding a host name (labels of 1 to 63 characters without dots, at most
    251 characters in all) and decoding it from any packet that contains the
    encoding gives the name back, and skipping it consumes exactly the
    encoding. *)
Theorem dns_name_roundtrip ls l pre post s :
  host_name ls l ->
  exists w, domain_to_dns_label (domain_of (ls ++ [l])) 500 = Ok (Some w) /\
    dns_label_to_domain (pre ++ w ++ post) (Z.of_nat (length pre)) name_size = Ok (Some (domain_of (ls ++ [l]))) /\
    skip_dns_name (pre ++ w ++ post) (Z.of_nat (length pre)) s = Ok (Z.of_nat (length w), s).
Proof.
  intros Hn. eexists. split; [by apply encode_name|]. rewrite <- app_assoc. simpl.
  split; [by apply decode_name|]. pose proof (host_name_ok _ _ Hn) as (Hall & Hc & _).
  unfold skip_dns_name. rewrite skip_ok by done. do 2 f_equal. rewrite length_app. simpl. lia.
Qed.

Lemma example_com_host : host_name [[101; 120; 97; 109; 112; 108; 101]] [99; 111; 109].
Proof.
  assert (forall l, Forall (fun c => 97 <= c <= 122) l -> (1 <= length l <= 63)%nat -> label_ok l) as Hlab.
  { intros l Hl Hlen. constructor; [done|eapply Forall_impl; [exact Hl|]; simpl; lia|].
    intros Hin. rewrite Forall_forall in Hl. specialize (Hl _ Hin). simpl in Hl. lia. }
  constructor; [repeat constructor| |vm_compute; congruence]; apply Hlab; try (simpl; lia);
    repeat constructor; lia.
Qed.

Lemma dns_name_roundtrip_witness : exists w,
  domain_to_dns_label [101; 120; 97; 109; 112; 108; 101; 46; 99; 111; 109] 500 = Ok (Some w).
Proof.
  destruct (dns_name_roundtrip [[101; 120; 97; 109; 112; 108; 101]] [99; 111; 109] [] [] asked0 example_com_host)
    as (w & E & _).
  exists w. exact E.
Defined.


(** * A query and its answer *)

Lemma at8_off pre post k : 0 <= k -> at8 (pre ++ post) (Z.of_nat (length pre) + k) = at8 post k.
Proof.
  intros Hk. unfold at8. rewrite lookup_total_app_r by lia. f_equal. lia.
Qed.

Lemma be16_off pre post k : 0 <= k -> be16 (pre ++ post) (Z.of_nat (length pre) + k) = be16 post k.
Proof. intros Hk. unfold be16. rewrite <- Z.add_assoc, !at8_off by lia. done. Qed.

(** The response of a server that echoes the question and answers with one
    address record, whose owner points back to the question. *)
Definition reply_header (tid : Z) : list Z := [tid / 256; tid mod 256; 0x81; 0x80; 0; 1; 0; 1; 0; 0; 0; 0].
Definition reply_record (ip : list Z) : list Z := [0xC0; 12; 0; 1; 0; 1; 0; 0; 0; 60; 0; 4] ++ ip.
Definition reply (tid : Z) (w ip : list Z) : list Z := reply_header tid ++ w ++ [0; 1; 0; 1] ++ reply_record ip.

Lemma wire_bytes ls : Forall label_ok ls -> bytes (wire ls).
Proof.
  induction 1 as [|l ls [Hl Hc _] _ IH]; [constructor|]. unfold wire in *. cbn [map concat].
  apply Forall_app. split; [|done]. constructor; [lia|]. eapply Forall_impl; [exact Hc|]. simpl. lia.
Qed.

Lemma reply_bytes tid w ip : 0 <= tid < 65536 -> bytes w -> bytes ip -> bytes (reply tid w ip).
Proof.
  intros Ht Hw Hi. unfold reply, reply_header, reply_record, bytes. repeat (apply Forall_app; split); try done;
    repeat constructor; try lia; Z.to_euclidean_division_equations; lia.
Qed.

Section Pointers.
Context (p : list Z) (pos b : Z).
Context (Hpos : 0 <= pos) (Hend : pos + 1 < Z.of_nat (length p)) (Hb : 0 <= b < 256) (Hlow : b < pos).
Context (H0 : at8 p pos = 192) (H1 : at8 p (pos + 1) = b).

Lemma skip_pointer n s : skip_loop (S n) p pos pos s = Ok (2, s).
Proof.
  cbn [skip_loop]. unfold bind, load8, lift. destruct (Z.leb_spec (Z.of_nat (length p)) pos); [lia|].
  rewrite aget_at8, H0 by lia. change (192 =? 0) with false. change (Z.land 192 0xC0 =? 0xC0) with true. cbv iota.
  destruct (Z.leb_spec (Z.of_nat (length p)) (pos + 1)); [lia|].
  rewrite aget_at8, H1, pointer_value by lia. change (256 * (192 - 192) + b) with b.
  destruct (Z.leb_spec (Z.of_nat (length p)) b); [lia|]. destruct (Z.leb_spec pos b); [lia|].
  unfold ret. f_equal. f_equal. lia.
Qed.

Lemma decode_pointer fuel size count out : (count < 127)%nat ->
  label_loop (S fuel) p size count pos out = label_loop fuel p size count b out.
Proof.
  intros Hc. cbn [label_loop]. destruct (Nat.leb_spec MAX_DNS_LABELS count) as [Hm|]; [change MAX_DNS_LABELS with 127%nat in Hm; lia|].
  destruct (Z.leb_spec (Z.of_nat (length p)) pos); [lia|].
  rewrite aget_at8, H0 by lia. change (192 =? 0) with false. change (Z.land 192 0xC0 =? 0xC0) with true. cbv iota.
  destruct (Z.leb_spec (Z.of_nat (length p)) (pos + 1)); [lia|].
  rewrite aget_at8, H1, pointer_value by lia. change (256 * (192 - 192) + b) with b.
  destruct (Z.leb_spec (Z.of_nat (length p)) b); [lia|]. by destruct (Z.leb_spec pos b); [lia|].
Qed.
End Pointers.

Lemma answer_ok ls l tid ip n target s :
  host_name ls l -> bytes ip -> length ip = 4%nat -> 0 <= tid < 65536 ->
  same_name (domain_of (ls ++ [l])) target = true ->
  let w := wire (ls ++ [l]) ++ [0] in
  wp (answer_loop (S n) (reply tid w ip) (Z.of_nat (length (reply_header tid ++ w ++ [0; 1; 0; 1]))) target false)
    (fun _ s' => last_resolved_ip s' = ip /\ dns_resolution_complete s' = true) s.
Proof.
  intros Hn Hip Hip4 Ht Hsame w. pose proof (host_name_ok _ _ Hn) as (Hall & Hc & Hw).
  assert (bytes (reply tid w ip)) as Hp.
  { apply reply_bytes; [done| |done]. apply Forall_app. split; [by apply wire_bytes|repeat constructor; lia]. }
  set (pre := reply_header tid ++ w ++ [0; 1; 0; 1]).
  assert (reply tid w ip = pre ++ reply_record ip) as Ep by (unfold pre, reply; by rewrite <- !app_assoc).
  assert (reply tid w ip = reply_header tid ++ wire (ls ++ [l]) ++ 0 :: [0; 1; 0; 1] ++ reply_record ip) as Ew
    by (unfold reply, w; by rewrite <- !app_assoc).
  assert (length pre = 12 + length w + 4)%nat as Hpre by (unfold pre; rewrite !length_app; simpl; lia).
  assert (length (reply tid w ip) = length pre + 16)%nat as HL.
  { rewrite Ep, length_app. unfold reply_record. rewrite length_app, Hip4. simpl. lia. }
  assert (12 < length pre)%nat as Hpos by lia. clearbody pre. set (p := reply tid w ip) in *.
  assert (forall k, 0 <= k -> at8 p (Z.of_nat (length pre) + k) = at8 (reply_record ip) k) as Hat
    by (intros; rewrite Ep; by apply at8_off).
  assert (at8 p (Z.of_nat (length pre)) = 192) as H0 by (rewrite <- (Z.add_0_r (Z.of_nat _)); by rewrite Hat).
  assert (at8 p (Z.of_nat (length pre) + 1) = 12) as H1 by by rewrite Hat.
  assert (skip_dns_name p (Z.of_nat (length pre)) s = Ok (2, s)) as Eskip.
  { unfold skip_dns_name. change MAX_DNS_LABELS with (S 126). generalize 126%nat. intros m.
    apply (skip_pointer p _ 12); lia. }
  assert (dns_label_to_domain p (Z.of_nat (length pre)) name_size = Ok (Some (domain_of (ls ++ [l])))) as Edec.
  { unfold dns_label_to_domain. pose proof (label_fuel_bound p) as Hfuel. revert Hfuel. generalize (label_fuel p).
    intros [|fuel] Hfuel; [lia|]. rewrite (decode_pointer p _ 12) by (done || lia).
    rewrite Ew at 1. apply (decode_ok name_size (ls ++ [l]) fuel 0 (reply_header tid) []); [done|done|lia|].
    rewrite host_name_dotted. destruct Hn. change name_size with 254. simpl. lia. }
  cbn [answer_loop]. apply wp_bind. eapply wp_ok; [exact Eskip|]. cbn [Z.eqb]. apply wp_bind.
  eapply wp_lift; [exact Edec|]. cbv zeta. unfold sizeof_dns_rr.
  destruct (Z.ltb_spec (Z.of_nat (length p)) (Z.of_nat (length pre) + 2 + 10)); [lia|].
  assert (forall k, 0 <= k -> be16 p (Z.of_nat (length pre) + k) = be16 (reply_record ip) k) as Hbe
    by (intros; rewrite Ep; by apply be16_off).
  apply wp_bind, net16_ok; [done|lia..|]. rewrite Hbe by lia. apply wp_bind, net16_ok; [done|lia..|].
  rewrite <- !Z.add_assoc. rewrite Hbe by lia. apply wp_bind, net16_ok; [done|lia..|]. rewrite Hbe by lia.
  change (be16 (reply_record ip) 2) with 1. change (be16 (reply_record ip) (2 + 2)) with 1.
  change (be16 (reply_record ip) (2 + 8)) with 4. rewrite Hsame. cbn [Z.eqb Pos.eqb andb orb negb DNS_QTYPE_A DNS_QTYPE_CNAME DNS_QCLASS_IN].
  destruct (Z.ltb_spec (Z.of_nat (length p)) (Z.of_nat (length pre) + (2 + 10) + 4)); [lia|].
  apply wp_bind, wp_ret. apply wp_bind. eapply wp_lift; [apply load_block_ok; lia|].
  apply wp_bind, wp_modify, wp_modify. simpl. split; [|done]. unfold block. rewrite Ep.
  rewrite drop_app_ge by lia. replace (Z.to_nat (Z.of_nat (length pre) + (2 + 10)) - length pre)%nat with 12%nat by lia.
  cbn [reply_record drop app]. apply take_ge. lia.
Qed.


Lemma lower_refl a : strcasecmp a a = 0.
Proof. induction a as [|c a IH]; [done|]. simpl. by rewrite Z.eqb_refl. Qed.

Lemma question_ok ls l tid ip s :
  host_name ls l -> last_queried_domain s = domain_of (ls ++ [l]) ->
  let w := wire (ls ++ [l]) ++ [0] in
  question_loop 1 (reply tid w ip) 12 s = Ok (Some (Z.of_nat (length (reply_header tid ++ w ++ [0; 1; 0; 1]))), s).
Proof.
  intros Hn Hasked w. pose proof (host_name_ok _ _ Hn) as (Hall & Hc & _).
  assert (reply tid w ip = reply_header tid ++ wire (ls ++ [l]) ++ 0 :: [0; 1; 0; 1] ++ reply_record ip) as Ew
    by (unfold reply, w; by rewrite <- !app_assoc).
  cbn [question_loop]. unfold bind, lift, gets. rewrite Ew at 1.
  change 12 with (Z.of_nat (length (reply_header tid))) at 1. rewrite decode_name by done.
  rewrite Hasked. unfold same_name. rewrite lower_refl. cbn [Z.eqb negb].
  unfold skip_dns_name. rewrite Ew at 1. change 12 with (Z.of_nat (length (reply_header tid))) at 2.
  rewrite skip_ok by done. rewrite !length_app. unfold ret, sizeof_dns_question.
  destruct (Z.eqb_spec (Z.of_nat (length (reply_header tid) + length (wire (ls ++ [l]))) + 1 - 12) 0); [simpl in *; lia|].
  destruct (Z.ltb_spec (Z.of_nat (length (reply tid w ip)))
    (12 + (Z.of_nat (length (reply_header tid) + length (wire (ls ++ [l]))) + 1 - 12) + 4)).
  - rewrite Ew, !length_app in *. simpl in *. lia.
  - do 3 f_equal. unfold w. rewrite length_app. simpl. lia.
Qed.

Lemma query_ok ls l t r s :
  host_name ls l -> dns_server_get (dns_server s) <> [0; 0; 0; 0] -> 0 <= t < 65536 ->
  let d := domain_of (ls ++ [l]) in let tid := if t =? 0 then 1 else t in let port := 49152 + r mod 16384 in
  exists payload, send_dns_query d t r true s = Ok (Some (payload, port),
    mk_dns (dns_server s) (counts s) [0; 0; 0; 0] false tid port true d).
Proof.
  intros Hn Hsrv Ht d tid port. pose proof (host_name_ok _ _ Hn) as (Hall & Hc & Hw).
  pose proof (encode_name ls l (512 - sizeof_dns_header) Hn ltac:(vm_compute; done)) as He.
  assert (1 <= strlen d <= 251) as Hd.
  { unfold strlen, d. rewrite domain_of_snoc. destruct Hn as [? [? _ _] ?]. rewrite length_app in *. lia. }
  unfold send_dns_query, bind, modify, gets, ret, lift. fold d.
  destruct (Z.eqb_spec (strlen d) 0); [lia|]. destruct (Z.ltb_spec MAX_DOMAIN_NAME_LEN (strlen d)); [unfold MAX_DOMAIN_NAME_LEN in *; lia|].
  cbn [put_answer put_domain dns_server]. rewrite bool_decide_false by done. fold d in He. rewrite He.
  rewrite store_ok; [by eexists|]. rewrite !length_app. simpl. lia.
Qed.

(** After a query for a host name, the response that echoes the question and
    carries one address record completes the resolution with that address. *)
Theorem dns_query_resolves ls l ip t r s :
  host_name ls l -> dns_server_get (dns_server s) <> [0; 0; 0; 0] -> 0 <= t < 65536 ->
  bytes ip -> length ip = 4%nat ->
  exists payload port s1 w s2,
    send_dns_query (domain_of (ls ++ [l])) t r true s = Ok (Some (payload, port), s1) /\
    domain_to_dns_label (domain_of (ls ++ [l])) 500 = Ok (Some w) /\
    handle_dns_response (reply (last_dns_tid s1) w ip) (dns_server_get (dns_server s)) port s1 = Ok (tt, s2) /\
    dns_get_resolved_ip s2 = Some ip.
Proof.
  intros Hn Hsrv Ht Hip Hip4. destruct (query_ok ls l t r s Hn Hsrv Ht) as (payload & E).
  pose proof (host_name_ok _ _ Hn) as (Hall & Hc & Hw). cbv zeta in E.
  set (s1 := mk_dns _ _ _ _ _ _ _ _) in E. set (w := wire (ls ++ [l]) ++ [0]).
  set (tid := if t =? 0 then 1 else t). assert (0 <= tid < 65536) as Htid by (unfold tid; destruct (t =? 0); lia).
  assert (wp (handle_dns_response (reply tid w ip) (dns_server_get (dns_server s)) (49152 + r mod 16384))
            (fun _ s2 => last_resolved_ip s2 = ip /\ dns_resolution_complete s2 = true) s1) as Hh.
  2: { apply wp_elim_unit in Hh as (s2 & E2 & H1 & H2). do 5 eexists. split; [exact E|].
       split; [by apply encode_name|]. split; [exact E2|]. unfold dns_get_resolved_ip. by rewrite H2, H1. }
  assert (bytes (reply tid w ip)) as Hp.
  { apply reply_bytes; [done| |done]. apply Forall_app. split; [by apply wire_bytes|repeat constructor; lia]. }
  assert (Z.of_nat (length (reply tid w ip)) = Z.of_nat (12 + length w + 4 + 16)) as HL.
  { unfold reply, reply_record. rewrite !length_app, Hip4. simpl. lia. }
  unfold handle_dns_response, sizeof_dns_header. rewrite HL.
  destruct (Z.ltb_spec (Z.of_nat (12 + length w + 4 + 16)) 12); [lia|].
  apply wp_bind, wp_gets. rewrite bool_decide_true by done. simpl negb. cbv iota.
  apply wp_bind, wp_gets. simpl negb. cbv iota. apply wp_bind, wp_gets. simpl last_dns_src_port. rewrite Z.eqb_refl. simpl negb. cbv iota.
  apply wp_bind, net16_ok; [done|lia..|]. apply wp_bind, wp_gets.
  assert (be16 (reply tid w ip) 0 = tid) as ->.
  { change (256 * (tid / 256) + tid mod 256 = tid). Z.to_euclidean_division_equations; lia. }
  simpl last_dns_tid. fold tid. rewrite Z.eqb_refl. simpl negb. cbv iota.
  apply wp_bind, net16_ok; [done|lia..|]. apply wp_bind, net16_ok; [done|lia..|]. apply wp_bind, net16_ok; [done|lia..|].
  change (be16 (reply tid w ip) 2) with 0x8180. change (be16 (reply tid w ip) 4) with 1. change (be16 (reply tid w ip) 6) with 1.
  change (Z.land 0x8180 0x8000 =? 0) with false. change (Z.land 0x8180 0x000F =? 0) with true. simpl negb. cbv iota.
  apply wp_bind. eapply wp_ok; [exact (question_ok ls l tid ip s1 Hn eq_refl)|]. cbn [Z.eqb].
  apply wp_bind, wp_gets. apply answer_ok; [done..|]. unfold same_name. rewrite take_ge; [by rewrite lower_refl|].
  simpl last_queried_domain. rewrite domain_of_snoc. destruct Hn. change (Z.to_nat MAX_DOMAIN_NAME_LEN) with 253%nat. lia.
Qed.

Lemma dns_query_resolves_witness : exists payload port s1,
  send_dns_query (domain_of example_com) 7 9 true asked0 = Ok (Some (payload, port), s1).
Proof.
  destruct (dns_query_resolves [[101; 120; 97; 109; 112; 108; 101]] [99; 111; 109] [93; 184; 216; 34] 7 9 asked0
    example_com_host) as (payload & port & s1 & _ & _ & E & _).
  - vm_compute. congruence.
  - lia.
  - repeat constructor; lia.
  - reflexivity.
  - exists payload, port, s1. exact E.
Defined.

End DnsProps.
