(* ===== verification/Icmp.v ===== *)
(** ICMP (src/icmp.c): answers to echo requests, replies to our own, and the
    request itself.

    Operations run on the lower layer of [Link] and the state of this file;
    [send_test_ping], which waits and prints around [send_icmp_ping], is left
    out. *)
From Stdlib Require Import ZArith Lia List Bool.
From stdpp Require Import base tactics numbers list.
From S2P Require Import Prelude NetHdr Checksum Firewall Link LinkProps.
Open Scope Z_scope.

Module Icmp.
Import NetHdr Checksum Link LinkProps.

Definition ICMP_ECHO_REPLY : Z := 0.
Definition ICMP_ECHO_REQUEST : Z := 8.
Definition ICMP_RATE_LIMIT_TICKS : Z := 10.
Definition sizeof_icmp_header : Z := 8.

(** The statistics. *)
Inductive counter :=
| pings_sent | pings_received | icmp_replies_dropped | icmp_echo_replies_rx | icmp_echo_requests_rx
| icmp_echo_oversize | icmp_echo_broadcast | icmp_bad_checksum.
#[export] Instance counter_eq_dec : EqDecision counter.
Proof. solve_decision. Defined.

Record icmp := mk_icmp {
  ping_identifier : Z; ping_sequence : Z; last_icmp_reply_time : Z; counts : counter -> Z }.
Notation state := (link * icmp)%type.

Definition set_count (k : counter) (v : Z) (s : icmp) : icmp :=
  mk_icmp (ping_identifier s) (ping_sequence s) (last_icmp_reply_time s)
    (fun d => if bool_decide (d = k) then v else counts s d).
Definition bump (k : counter) : M state unit :=
  modify (fun s => (fst s, set_count k (counts (snd s) k +32 1) (snd s))).
Definition put_reply_time (t : Z) (s : icmp) : icmp :=
  mk_icmp (ping_identifier s) (ping_sequence s) t (counts s).

(** A message with its checksum between [pre] and [post], stored low byte
    first. *)
Definition with_checksum (pre post : list Z) : result (list Z) :=
  match calculate_icmp_checksum (pre ++ [0; 0] ++ post) with
  | Ok ck => Ok (pre ++ [Z.land ck 0xFF; Z.land (Z.shiftr ck 8) 0xFF] ++ post)
  | Err f => Err f
  end.

(** A header of 20 bytes; [id] is the identification field as stored. *)
Definition icmp_ip_header (total_length : Z) (id src dst : list Z) : result (list Z) :=
  with_checksum ([0x45; 0; Z.land (Z.shiftr total_length 8) 0xFF; Z.land total_length 0xFF] ++ id ++ [0; 0; 64; 1])
    (src ++ dst).

Definition send_icmp_ping (dest_ip dest_mac : list Z) (seq : Z) : M state unit :=
  mm <- lower (gets my_mac) ;; mi <- lower (gets my_ip) ;;
  hdr <- lift (icmp_ip_header 84 [0; Z.land seq 0xFF] mi dest_ip) ;;
  ident <- gets (fun s => ping_identifier (snd s)) ;;
  msg <- lift (with_checksum [ICMP_ECHO_REQUEST; 0]
                 ([Z.land (Z.shiftr ident 8) 0xFF; Z.land ident 0xFF; Z.land (Z.shiftr seq 8) 0xFF; Z.land seq 0xFF] ++
                  map (fun i => u8 (0x10 + Z.of_nat i mod 16)) (List.seq 0 56))) ;;
  frame <- lift (in_buffer 128 (dest_mac ++ mm ++ [0x08; 0x00] ++ hdr ++ msg)) ;;
  lower (e1000_send frame) ;;;
  bump pings_sent.

(** The answer to an echo request. *)
Definition send_echo_reply (eth ip msg : list Z) : M state unit :=
  mm <- lower (gets my_mac) ;; mi <- lower (gets my_ip) ;;
  id0 <- load8 ip 4 ;; id1 <- load8 ip 5 ;;
  hdr <- lift (icmp_ip_header (20 +32 Z.of_nat (length msg)) [id0; id1] mi (field ip 12 4)) ;;
  i4 <- load8 msg 4 ;; i5 <- load8 msg 5 ;; i6 <- load8 msg 6 ;; i7 <- load8 msg 7 ;;
  body <- lift (with_checksum [ICMP_ECHO_REPLY; 0] ([i4; i5; i6; i7] ++ drop 8 msg)) ;;
  frame <- lift (in_buffer 1514 (field eth 6 6 ++ mm ++ [0x08; 0x00] ++ hdr ++ body)) ;;
  lower (e1000_send frame).

(** [eth]: the frame; [ip]: the IP packet in it; [msg]: the ICMP message. *)
Definition handle_icmp_with_context (ticks : Z) (eth ip msg : list Z) : M state unit :=
  let icmp_len := Z.of_nat (length msg) in
  if (Z.of_nat (length eth) <? 14) || (Z.of_nat (length ip) <? 20) || (icmp_len <? sizeof_icmp_header) then ret tt else
  ck <- lift (calculate_icmp_checksum msg) ;;
  if negb (ck =? 0) then bump icmp_bad_checksum else
  type <- load8 msg 0 ;; code <- load8 msg 1 ;;
  if (type =? ICMP_ECHO_REPLY) && (code =? 0) then
    identifier <- net16 msg 4 ;;
    ident <- gets (fun s => ping_identifier (snd s)) ;;
    if identifier =? ident then bump pings_received ;;; bump icmp_echo_replies_rx else ret tt
  else if (type =? ICMP_ECHO_REQUEST) && (code =? 0) then
    let reply_total := 14 +32 (20 +32 icmp_len) in
    bc <- gets (fun s => net_is_broadcast_ip (field ip 16 4) (fst s)) ;;
    if (bc : bool) then bump icmp_echo_broadcast else
    if 1514 <? reply_total then bump icmp_echo_oversize else
    last <- gets (fun s => last_icmp_reply_time (snd s)) ;;
    if ticks -32 last <? ICMP_RATE_LIMIT_TICKS then bump icmp_replies_dropped else
    modify (fun s => (fst s, put_reply_time ticks (snd s))) ;;;
    e12 <- load8 eth 12 ;; e13 <- load8 eth 13 ;;
    if negb (u16 (Z.lor (Z.shiftl e12 8) e13) =? 0x0800) then ret tt else
    bump icmp_echo_requests_rx ;;;
    send_echo_reply eth ip msg
  else ret tt.

(** [random]: what the generator returned. *)
Definition icmp_init (random : Z) (s : icmp) : icmp :=
  set_count icmp_replies_dropped 0 (set_count pings_received 0 (set_count pings_sent 0
    (mk_icmp (u16 random) 0 0 (counts s)))).
Definition reset_ping_stats (s : icmp) : icmp :=
  let s' := set_count pings_received 0 (set_count pings_sent 0 s) in
  mk_icmp (ping_identifier s') 0 (last_icmp_reply_time s') (counts s').
Definition icmp_get_rx_stats (s : icmp) : list Z :=
  map (counts s) [icmp_echo_replies_rx; icmp_echo_requests_rx; icmp_replies_dropped; icmp_echo_oversize;
                  icmp_echo_broadcast; icmp_bad_checksum].

(** * Checksums in place *)

Lemma ck_bytes v : 0 <= v < 65536 -> Z.land (ntohs v) 0xFF = v / 256 /\ Z.land (Z.shiftr (ntohs v) 8) 0xFF = v mod 256.
Proof.
  intros Hv. assert (ntohs v = 256 * (v mod 256) + v / 256) as ->.
  { rewrite <- be16_swap by (Z.to_euclidean_division_equations; lia). f_equal. Z.to_euclidean_division_equations; lia. }
  change 0xFF with (Z.ones 8). rewrite !Z.land_ones, Z.shiftr_div_pow2 by lia. change (2 ^ 8) with 256.
  split; Z.to_euclidean_division_equations; lia.
Qed.

Lemma two_bytes v : 0 <= v < 65536 -> Z.land (Z.shiftr v 8) 0xFF = v / 256 /\ Z.land v 0xFF = v mod 256.
Proof.
  intros Hv. change 0xFF with (Z.ones 8). rewrite !Z.land_ones, Z.shiftr_div_pow2 by lia. change (2 ^ 8) with 256.
  split; Z.to_euclidean_division_equations; lia.
Qed.

Lemma with_checksum_ok pre post :
  bytes pre -> bytes post -> Nat.even (length pre) = true -> Z.of_nat (length pre + 2 + length post) <= 131072 ->
  exists c0 c1, let m := pre ++ [c0; c1] ++ post in with_checksum pre post = Ok m /\ bytes m /\ checksum m = 0.
Proof.
  intros Hp Hq He Hl. unfold with_checksum.
  assert (forall a b, byte a -> byte b -> bytes (pre ++ [a; b] ++ post)) as Hb.
  { intros. apply Forall_app. split; [done|]. apply Forall_app. split; [repeat constructor; lia|done]. }
  rewrite calculate_icmp_checksum_ok; [|by apply Hb|rewrite !length_app; simpl; lia].
  pose proof (checksum_range (pre ++ [0; 0] ++ post)) as Hc. destruct (ck_bytes _ Hc) as [-> ->].
  do 2 eexists. split; [done|]. split; [apply Hb; by apply div256|by apply checksum_verifies].
Qed.

Lemma icmp_ip_header_ok total id0 id1 src dst :
  0 <= total < 65536 -> byte id0 -> byte id1 -> addr 4 src -> addr 4 dst ->
  exists h, icmp_ip_header total [id0; id1] src dst = Ok h /\ ip_header_of total (256 * id0 + id1) 1 src dst h.
Proof.
  intros Ht H0 H1 [Hs Ls] [Hd Ld]. unfold icmp_ip_header. destruct (two_bytes _ Ht) as [-> ->]. destruct (div256 _ Ht).
  destruct (with_checksum_ok ([0x45; 0; total / 256; total mod 256] ++ [id0; id1] ++ [0; 0; 64; 1]) (src ++ dst))
    as (c0 & c1 & -> & Hb & Hc); [repeat constructor; lia|by apply Forall_app|done|rewrite !length_app, Ls, Ld; simpl; lia|].
  eexists. split; [done|]. exists c0, c1. split; [|done].
  replace ((256 * id0 + id1) / 256) with id0 by (Z.to_euclidean_division_equations; lia).
  replace ((256 * id0 + id1) mod 256) with id1 by (Z.to_euclidean_division_equations; lia). done.
Qed.

(** * Echo requests *)

Section Echo.
Context (ticks : Z) (eth ip msg : list Z).

(** An intact request, and the conditions to answer it at [ticks]: it is to our
    own address, the answer fits a frame, the last one is ten ticks ago. *)
Definition is_request : Prop :=
  8 <= Z.of_nat (length msg) /\ checksum msg = 0 /\ at8 msg 0 = ICMP_ECHO_REQUEST /\ at8 msg 1 = 0 /\
  be16 eth 12 = ETH_TYPE_IPV4.
Definition answerable (s : state) : Prop :=
  net_is_broadcast_ip (field ip 16 4) (fst s) = false /\ Z.of_nat (length msg) <= 1480 /\
  ICMP_RATE_LIMIT_TICKS <= ticks -32 last_icmp_reply_time (snd s).

(** A reply to one of our requests. *)
Definition our_reply (s : state) : bool :=
  (8 <=? Z.of_nat (length msg)) && (checksum msg =? 0) && (at8 msg 0 =? ICMP_ECHO_REPLY) && (at8 msg 1 =? 0) &&
  (be16 msg 4 =? ping_identifier (snd s)).

(** The answer: to the sender's addresses, from ours, with the same identifier,
    sequence number and data, and checksums that verify. *)
Definition echo_reply (s : link) (frame : list Z) : Prop :=
  exists h c0 c1, let m := [ICMP_ECHO_REPLY; 0; c0; c1] ++ drop 4 msg in
    frame = field eth 6 6 ++ my_mac s ++ [0x08; 0x00] ++ h ++ m /\
    ip_header_of (20 + Z.of_nat (length msg)) (be16 ip 4) IPPROTO_ICMP (my_ip s) (field ip 12 4) h /\
    bytes m /\ checksum m = 0.

Definition answered (s s' : state) : Prop :=
  exists frame, echo_reply (fst s) frame /\ fst s' = put_sent (sent (fst s) ++ [frame]) (fst s) /\
    last_icmp_reply_time (snd s') = ticks.
Definition silent (s s' : state) : Prop :=
  fst s' = fst s /\
  (last_icmp_reply_time (snd s') = last_icmp_reply_time (snd s) \/
   last_icmp_reply_time (snd s') = ticks /\ ICMP_RATE_LIMIT_TICKS <= ticks -32 last_icmp_reply_time (snd s)).
Record icmp_step (s s' : state) : Prop := mk_icmp_step {
  ic_ident : ping_identifier (snd s') = ping_identifier (snd s);
  ic_received : counts (snd s') pings_received =
    (if our_reply s then counts (snd s) pings_received +32 1 else counts (snd s) pings_received);
  ic_answer : is_request /\ answerable s /\ answered s s' \/ ~ (is_request /\ answerable s) /\ silent s s' }.

Lemma icmp_bump_ok k s (Q : unit -> state -> Prop) :
  (forall s', fst s' = fst s -> ping_identifier (snd s') = ping_identifier (snd s) ->
     last_icmp_reply_time (snd s') = last_icmp_reply_time (snd s) ->
     (forall d, counts (snd s') d = if bool_decide (d = k) then counts (snd s) k +32 1 else counts (snd s) d) ->
     Q tt s') -> wp (bump k) Q s.
Proof. intros HQ. by apply wp_modify, HQ. Qed.

Lemma send_echo_reply_ok s (Q : unit -> state -> Prop) :
  link_inv (fst s) -> bytes eth -> bytes ip -> bytes msg -> (14 <= length eth)%nat -> (20 <= length ip)%nat ->
  8 <= Z.of_nat (length msg) <= 1480 ->
  (forall frame, echo_reply (fst s) frame -> Q tt (put_sent (sent (fst s) ++ [frame]) (fst s), snd s)) ->
  wp (send_echo_reply eth ip msg) Q s.
Proof.
  intros [Hm Hi _ _ _ _ _] He Hip Hb Le Li Hl HQ. unfold send_echo_reply.
  apply wp_bind, lower_ok, wp_gets, wp_bind, lower_ok, wp_gets. rewrite <- !surjective_pairing.
  apply wp_bind, load8_ok; [lia|]. apply wp_bind, load8_ok; [lia|].
  assert (addr 4 (field ip 12 4)) as Hd by (split; [by apply field_bytes|apply field_length; lia]).
  rewrite u32_small by lia.
  destruct (icmp_ip_header_ok (20 + Z.of_nat (length msg)) (at8 ip 4) (at8 ip 5) (my_ip (fst s)) (field ip 12 4))
    as (h & Eh & Hh); [lia|by apply at8_byte..|done|done|].
  apply wp_bind. eapply wp_lift; [exact Eh|]. do 4 (apply wp_bind, load8_ok; [lia|]).
  assert (bytes (drop 4 msg)) as Hdr by by apply Forall_drop. unfold echo_reply in HQ.
  destruct msg as [|b0 [|b1 [|b2 [|b3 [|b4 [|b5 [|b6 [|b7 d]]]]]]]]; simpl in Hl; try lia. cbn [drop] in Hdr.
  destruct (with_checksum_ok [ICMP_ECHO_REPLY; 0] ([b4; b5; b6; b7] ++ d)) as (c0 & c1 & Ec & Hbm & Hc);
    [repeat constructor; unfold ICMP_ECHO_REPLY; lia|done|done|simpl; lia|].
  apply wp_bind. eapply wp_lift; [exact Ec|]. apply wp_bind. eapply wp_lift.
  { unfold in_buffer. destruct (Z.ltb_spec 1514 (Z.of_nat (length (field eth 6 6 ++ my_mac (fst s) ++ [0x08; 0x00] ++ h ++
      [ICMP_ECHO_REPLY; 0] ++ [c0; c1] ++ [b4; b5; b6; b7] ++ d)))) as [Hx|]; [|done]. exfalso. revert Hx.
    destruct Hh as (? & ? & -> & _). destruct Hm as [_ Lm], Hi as [_ Lmi], Hd as [_ Ld].
    rewrite !length_app, Lm, Lmi, Ld, field_length by lia. simpl. lia. }
  apply lower_ok, wp_modify, HQ. exists h, c0, c1. by split_and!.
Qed.

(** A request is not a reply. *)
Lemma request_not_reply s : at8 msg 0 = ICMP_ECHO_REQUEST -> our_reply s = false.
Proof. intros E. unfold our_reply. rewrite E. by rewrite !andb_false_r. Qed.

Lemma silent_step s s' :
  fst s' = fst s -> ping_identifier (snd s') = ping_identifier (snd s) ->
  counts (snd s') pings_received = counts (snd s) pings_received -> our_reply s = false ->
  ~ (is_request /\ answerable s) ->
  (last_icmp_reply_time (snd s') = last_icmp_reply_time (snd s) \/
   last_icmp_reply_time (snd s') = ticks /\ ICMP_RATE_LIMIT_TICKS <= ticks -32 last_icmp_reply_time (snd s)) ->
  icmp_step s s'.
Proof. intros E1 E2 E3 E4 Hn Hl. constructor; [done|by rewrite E4|right; done]. Qed.

Lemma handle_request_ok s (Q : unit -> state -> Prop) :
  link_inv (fst s) -> bytes eth -> bytes ip -> bytes msg -> (14 <= length eth)%nat -> (20 <= length ip)%nat ->
  8 <= Z.of_nat (length msg) <= 65535 -> checksum msg = 0 -> at8 msg 0 = ICMP_ECHO_REQUEST -> at8 msg 1 = 0 ->
  (forall s', icmp_step s s' -> Q tt s') ->
  wp (bc <- gets (fun s => net_is_broadcast_ip (field ip 16 4) (fst s)) ;;
      if (bc : bool) then bump icmp_echo_broadcast else
      if 1514 <? 14 +32 (20 +32 Z.of_nat (length msg)) then bump icmp_echo_oversize else
      last <- gets (fun s => last_icmp_reply_time (snd s)) ;;
      if ticks -32 last <? ICMP_RATE_LIMIT_TICKS then bump icmp_replies_dropped else
      modify (fun s => (fst s, put_reply_time ticks (snd s))) ;;;
      e12 <- load8 eth 12 ;; e13 <- load8 eth 13 ;;
      if negb (u16 (Z.lor (Z.shiftl e12 8) e13) =? 0x0800) then ret tt else
      bump icmp_echo_requests_rx ;;;
      send_echo_reply eth ip msg) Q s.
Proof.
  intros H He Hi Hb Le Li Hl Hc Ht Hcode HQ. pose proof (request_not_reply s Ht) as Hr.
  apply wp_bind, wp_gets. destruct (net_is_broadcast_ip _ _) eqn:Ebc.
  { apply icmp_bump_ok. intros s' E1 E2 E3 E4. apply HQ, silent_step; [done..|by rewrite E4|done| |by left].
    intros (_ & Hx & _). congruence. }
  rewrite (u32_small (20 + _)), u32_small by lia. destruct (Z.ltb_spec 1514 (14 + (20 + Z.of_nat (length msg)))).
  { apply icmp_bump_ok. intros s' E1 E2 E3 E4. apply HQ, silent_step; [done..|by rewrite E4|done| |by left].
    intros (_ & _ & Hx & _). lia. }
  apply wp_bind, wp_gets. destruct (Z.ltb_spec (ticks -32 last_icmp_reply_time (snd s)) ICMP_RATE_LIMIT_TICKS) as [|Hrate].
  { apply icmp_bump_ok. intros s' E1 E2 E3 E4. apply HQ, silent_step; [done..|by rewrite E4|done| |by left].
    intros (_ & _ & _ & Hx). lia. }
  apply wp_bind, wp_modify, wp_bind, load8_ok; [lia|]. apply wp_bind, load8_ok; [lia|].
  pose proof (at8_byte eth 12 He). pose proof (at8_byte eth 13 He).
  change (Z.lor (Z.shiftl (at8 eth 12) 8) (at8 eth 13)) with (word16 (at8 eth 12) (at8 eth 13)).
  rewrite word16_eq, u16_small by lia. change (256 * at8 eth 12 + at8 eth 13) with (be16 eth 12).
  destruct (Z.eqb_spec (be16 eth 12) 0x0800) as [Et|Et]; cbn [negb].
  2:{ apply wp_ret, HQ, silent_step; [done..| |by right]. intros ((_ & _ & _ & _ & Hx) & _). by apply Et. }
  apply wp_bind, icmp_bump_ok. intros s1 E1 E2 E3 E4. simpl in E1, E2, E3, E4.
  apply send_echo_reply_ok; rewrite ?E1; [done..|lia|]. intros frame Hf. apply HQ. constructor; simpl.
  - done.
  - by rewrite E4, Hr.
  - left. unfold is_request, answerable. split_and!; try done; [lia..|]. by exists frame.
Qed.

Lemma handle_icmp_ok s (Q : unit -> state -> Prop) :
  link_inv (fst s) -> bytes eth -> bytes ip -> bytes msg -> (14 <= length eth)%nat -> (20 <= length ip)%nat ->
  Z.of_nat (length msg) <= 65535 ->
  (forall s', icmp_step s s' -> Q tt s') -> wp (handle_icmp_with_context ticks eth ip msg) Q s.
Proof.
  intros H He Hi Hb Le Li Hl HQ. unfold handle_icmp_with_context, sizeof_icmp_header. cbv zeta.
  destruct (Z.ltb_spec (Z.of_nat (length eth)) 14), (Z.ltb_spec (Z.of_nat (length ip)) 20); [lia..|]. cbn [orb].
  destruct (Z.ltb_spec (Z.of_nat (length msg)) 8) as [Hs|Hs].
  { apply wp_ret, HQ, silent_step; [done..| | |by left].
    - unfold our_reply. by destruct (Z.leb_spec 8 (Z.of_nat (length msg))); [lia|].
    - intros ((Hx & _) & _). lia. }
  apply wp_bind. eapply wp_lift; [apply calculate_icmp_checksum_ok; [done|lia]|].
  pose proof (checksum_range msg) as Hr. assert (ntohs (checksum msg) = 0 <-> checksum msg = 0) as Hz.
  { assert (ntohs (checksum msg) = 256 * (checksum msg mod 256) + checksum msg / 256) as ->.
    { rewrite <- be16_swap by (Z.to_euclidean_division_equations; lia). f_equal. Z.to_euclidean_division_equations; lia. }
    Z.to_euclidean_division_equations; lia. }
  destruct (Z.eqb_spec (ntohs (checksum msg)) 0) as [Ec|Ec]; cbn [negb].
  2:{ apply icmp_bump_ok. intros s' E1 E2 E3 E4. apply HQ, silent_step; [done..|by rewrite E4| | |by left].
    - unfold our_reply. destruct (Z.eqb_spec (checksum msg) 0); [tauto|]. by rewrite andb_false_r.
    - intros ((_ & Hx & _) & _). tauto. }
  apply Hz in Ec. apply wp_bind, load8_ok; [lia|]. apply wp_bind, load8_ok; [lia|].
  destruct (Z.eqb_spec (at8 msg 0) ICMP_ECHO_REPLY) as [Et|Et], (Z.eqb_spec (at8 msg 1) 0) as [Ek|Ek],
    (Z.eqb_spec (at8 msg 0) ICMP_ECHO_REQUEST) as [Eq|Eq]; cbn [andb]; try (rewrite Et in Eq; done);
    try (by apply handle_request_ok).
  2-5: apply wp_ret, HQ, silent_step; [done..| | |by left]; [|intros ((_ & _ & ? & ? & _) & _); done];
    unfold our_reply; destruct (Z.eqb_spec (at8 msg 0) ICMP_ECHO_REPLY), (Z.eqb_spec (at8 msg 1) 0); try done;
    by rewrite ?andb_false_r.
  apply wp_bind, net16_ok; [done|lia..|]. apply wp_bind, wp_gets.
  assert (our_reply s = (be16 msg 4 =? ping_identifier (snd s))) as Eo.
  { unfold our_reply. rewrite Et, Ek, Ec. by destruct (Z.leb_spec 8 (Z.of_nat (length msg))); [|lia]. }
  assert (~ (is_request /\ answerable s)) as Hno by (intros ((_ & _ & Hx & _) & _); congruence).
  destruct (be16 msg 4 =? _).
  - apply wp_bind, icmp_bump_ok. intros s1 E1 E2 E3 E4. apply icmp_bump_ok. intros s2 F1 F2 F3 F4. apply HQ. constructor.
    + congruence.
    + by rewrite Eo, F4, bool_decide_false, E4, bool_decide_true by done.
    + right. split; [done|]. split; [congruence|left; congruence].
  - by apply wp_ret, HQ, silent_step; [..|left].
Qed.

Lemma icmp_step_inv s s' : link_inv (fst s) -> icmp_step s s' -> link_inv (fst s').
Proof. intros [] [_ _ [(_ & _ & f & _ & -> & _)|(_ & -> & _)]]; by constructor. Qed.
End Echo.

(** * Floods *)

(** What arrives: the time, which the counter of ticks holds modulo 2{^32}, and
    the frame, the packet and the message. *)
Record arrival := mk_arrival { time : Z; a_eth : list Z; a_ip : list Z; a_msg : list Z }.
Definition arrival_ok (a : arrival) : Prop :=
  bytes (a_eth a) /\ bytes (a_ip a) /\ bytes (a_msg a) /\ (14 <= length (a_eth a))%nat /\ (20 <= length (a_ip a))%nat /\
  Z.of_nat (length (a_msg a)) <= 65535.
Fixpoint serve (l : list arrival) : M state unit :=
  match l with
  | [] => ret tt
  | a :: l' => handle_icmp_with_context (u32 (time a)) (a_eth a) (a_ip a) (a_msg a) ;;; serve l'
  end.
Fixpoint in_order (t : Z) (l : list arrival) (u : Z) : Prop :=
  match l with
  | [] => t <= u
  | a :: l' => t <= time a /\ in_order (time a) l' u
  end.

Lemma in_order_le t l u : in_order t l u -> t <= u.
Proof. revert t. induction l as [|a l IH]; simpl; [done|]. intros t [Ht Hl%IH]. lia. Qed.

(** What one arrival does to the number of frames and to the limiter. *)
Lemma serve_step a s : link_inv (fst s) -> arrival_ok a ->
  wp (handle_icmp_with_context (u32 (time a)) (a_eth a) (a_ip a) (a_msg a)) (fun _ s' =>
    link_inv (fst s') /\
    ((exists f, sent (fst s') = sent (fst s) ++ f /\ (length f <= 1)%nat) /\ last_icmp_reply_time (snd s') = u32 (time a) /\
       10 <= u32 (time a) -32 last_icmp_reply_time (snd s) \/
     sent (fst s') = sent (fst s) /\ last_icmp_reply_time (snd s') = last_icmp_reply_time (snd s))) s.
Proof.
  intros H (H1 & H2 & H3 & H4 & H5 & H6). apply handle_icmp_ok; [done..|]. intros s' Hs.
  split; [by eapply icmp_step_inv|]. destruct Hs as [_ _ [(_ & (_ & _ & Hr) & f & _ & -> & El)|(_ & -> & [El|[El Hr]])]].
  - left. split; [by exists [f]|done].
  - by right.
  - left. split; [exists []; rewrite app_nil_r; split; [done|simpl; lia]|done].
Qed.

Lemma serve_known l r t u s : link_inv (fst s) -> Forall arrival_ok l -> in_order t l u -> r <= t -> u - r < 2 ^ 32 ->
  last_icmp_reply_time (snd s) = u32 r ->
  wp (serve l) (fun _ s' => exists f, sent (fst s') = sent (fst s) ++ f /\ 10 * Z.of_nat (length f) <= u - r) s.
Proof.
  revert r t s. induction l as [|a l IH]; intros r t s H Hok Ho Hr Hu El; simpl in *.
  - apply wp_ret. exists []. rewrite app_nil_r. split; [done|simpl; lia].
  - destruct Ho as [Ht Ho]. pose proof (in_order_le _ _ _ Ho). apply Forall_cons in Hok as [Ha Hok].
    apply wp_bind. eapply wp_mono; [by apply serve_step|]. intros [] s1 (H1 & [((f & Es & Lf) & El1 & Hd)|(Es & El1)]).
    + rewrite El in Hd. assert (10 <= time a - r) as Hd' by u_lia.
      eapply wp_mono; [apply (IH (time a) (time a)); [done..|lia|lia|done]|]. intros [] s2 (f2 & Es2 & Hn).
      exists (f ++ f2). rewrite Es2, Es, app_assoc, length_app. split; [done|lia].
    + eapply wp_mono; [apply (IH r (time a)); [done..|lia|lia|congruence]|]. intros [] s2 (f2 & Es2 & Hn).
      exists f2. rewrite Es2, Es. split; [done|lia].
Qed.

Lemma serve_bound l t u s : link_inv (fst s) -> Forall arrival_ok l -> in_order t l u -> u - t < 2 ^ 32 ->
  wp (serve l) (fun _ s' => exists f, sent (fst s') = sent (fst s) ++ f /\ 10 * Z.of_nat (length f) <= u - t + 10) s.
Proof.
  revert t s. induction l as [|a l IH]; intros t s H Hok Ho Hu; simpl in *.
  - apply wp_ret. exists []. rewrite app_nil_r. split; [done|simpl; lia].
  - destruct Ho as [Ht Ho]. pose proof (in_order_le _ _ _ Ho). apply Forall_cons in Hok as [Ha Hok].
    apply wp_bind. eapply wp_mono; [by apply serve_step|]. intros [] s1 (H1 & [((f & Es & Lf) & El1 & Hd)|(Es & El1)]).
    + eapply wp_mono; [apply (serve_known l (time a) (time a)); [done..|lia|lia|done]|]. intros [] s2 (f2 & Es2 & Hn).
      exists (f ++ f2). rewrite Es2, Es, app_assoc, length_app. split; [done|lia].
    + eapply wp_mono; [apply (IH (time a)); [done..|lia]|]. intros [] s2 (f2 & Es2 & Hn).
      exists f2. rewrite Es2, Es. split; [done|lia].
Qed.

(** ** A request for examples *)

Definition icmp0 : state := (link0, mk_icmp 7 0 0 (fun _ => 0)).
Definition echo_msg : list Z := [8; 0; 143; 142; 0; 7; 0; 1; 104; 105].
Definition echo_ip : list Z := [69; 0; 0; 30; 0; 9; 0; 0; 64; 1; 98; 198; 10; 0; 2; 2; 10; 0; 2; 15] ++ echo_msg.
Definition echo_eth : list Z := my_mac link0 ++ server_mac ++ [0x08; 0x00] ++ echo_ip.

Lemma echo_ok t : arrival_ok (mk_arrival t echo_eth echo_ip echo_msg).
Proof.
  assert (bytes echo_eth) as He by (repeat (apply Forall_cons_2 || apply Forall_nil_2); lia).
  split_and!; [done|by apply (Forall_drop _ 14) in He|by apply (Forall_drop _ 34) in He|simpl; lia..].
Qed.



(** Floods of echo requests: in a time of [u - t] ticks, whatever messages
    arrive, at most one frame per ten ticks and one more is sent, also when the
    counter of ticks wraps in between. *)
Theorem icmp_flood_bound l t u s :
  link_inv (fst s) -> Forall arrival_ok l -> in_order t l u -> u - t < 2 ^ 32 ->
  exists s' f, serve l s = Ok (tt, s') /\ sent (fst s') = sent (fst s) ++ f /\ Z.of_nat (length f) <= (u - t) / 10 + 1.
Proof.
  intros H Hok Ho Hu. destruct (wp_elim_unit _ _ _ (serve_bound l t u s H Hok Ho Hu)) as (s' & E & f & Es & Hn).
  exists s', f. split; [done|]. split; [done|]. Z.to_euclidean_division_equations; lia.
Qed.

Lemma icmp_flood_bound_witness : exists s' f,
  serve [mk_arrival 100 echo_eth echo_ip echo_msg; mk_arrival 105 echo_eth echo_ip echo_msg] icmp0 = Ok (tt, s') /\
  sent (fst s') = sent (fst icmp0) ++ f /\ Z.of_nat (length f) <= (105 - 100) / 10 + 1.
Proof.
  apply icmp_flood_bound; [exact link0_inv|constructor; [apply echo_ok|constructor; [apply echo_ok|constructor]]|simpl; lia|lia].
Defined.

End Icmp.
