(* ===== verification/Dhcp.v ===== *)
(** The DHCP client (src/dhcp.c): the option parser, the checks of an offer,
    the messages it sends, the state machine and its timers.

    Operations run on the lower layer of [Link], on the resolver of [Dns], whose
    server address a lease sets, and on the client of this file.  [ticks] is the
    value of [get_timer_ticks], [random] the four bytes the generator returned. *)
From Stdlib Require Import ZArith Lia List Bool String.
From stdpp Require Import base tactics numbers list.
From S2P Require Import Prelude NetHdr Checksum Firewall Link Dns.
Open Scope Z_scope.

Module Dhcp.
Import NetHdr Checksum Link.

Definition DHCP_SERVER_PORT : Z := 67.
Definition DHCP_CLIENT_PORT : Z := 68.
Definition DHCP_OP_BOOTREQUEST : Z := 1.
Definition DHCP_OP_BOOTREPLY : Z := 2.
Definition DHCP_HTYPE_ETHERNET : Z := 1.
Definition DHCP_HLEN_ETHERNET : Z := 6.
Definition DHCP_MAGIC_COOKIE : Z := 0x63825363.
Definition DHCP_DISCOVER : Z := 1.
Definition DHCP_OFFER : Z := 2.
Definition DHCP_REQUEST : Z := 3.
Definition DHCP_ACK : Z := 5.
Definition DHCP_NAK : Z := 6.
Definition DHCP_OPTION_SUBNET_MASK : Z := 1.
Definition DHCP_OPTION_ROUTER : Z := 3.
Definition DHCP_OPTION_DNS_SERVER : Z := 6.
Definition DHCP_OPTION_HOSTNAME : Z := 12.
Definition DHCP_OPTION_REQUESTED_IP : Z := 50.
Definition DHCP_OPTION_LEASE_TIME : Z := 51.
Definition DHCP_OPTION_MESSAGE_TYPE : Z := 53.
Definition DHCP_OPTION_SERVER_ID : Z := 54.
Definition DHCP_OPTION_PARAM_REQUEST : Z := 55.
Definition DHCP_OPTION_CLIENT_ID : Z := 61.
Definition DHCP_OPTION_END : Z := 255.
Definition sizeof_dhcp_header : Z := 240.
Definition MAX_DHCP_OPTION_ITERATIONS : nat := 512.
Definition DHCP_MAX_OPTIONS : Z := 512.
Definition MAX_DHCP_LEASE_SECONDS : Z := 2592000.

Inductive dhcp_state :=
| DHCP_STATE_INIT | DHCP_STATE_SELECTING | DHCP_STATE_REQUESTING | DHCP_STATE_BOUND | DHCP_STATE_RENEWING
| DHCP_STATE_REBINDING.

Inductive counter :=
| dhcp_replies_ok | dhcp_drop_short | dhcp_drop_cookie | dhcp_drop_options | dhcp_drop_rogue | dhcp_clamp_lease
| dhcp_drop_badcfg | dhcp_drop_ack | dhcp_nak_ignored | dhcp_nak_honored.
#[export] Instance counter_eq_dec : EqDecision counter.
Proof. solve_decision. Defined.

(** The configuration an offer carries. *)
Record offer := mk_offer {
  offered_ip : list Z; server_ip : list Z; mask : list Z; router_ip : list Z; dns_server : list Z }.

Record dhcp := mk_dhcp {
  st : dhcp_state; xid : Z; cfg : offer; lease_time : Z; lease_start : Z; renewal_time : Z; configured : bool;
  counts : counter -> Z }.
Notation state := (link * (Dns.dns * dhcp))%type.

Section Updates.
Implicit Types s : dhcp.
Definition put_st v s := mk_dhcp v (xid s) (cfg s) (lease_time s) (lease_start s) (renewal_time s) (configured s) (counts s).
Definition put_xid v s := mk_dhcp (st s) v (cfg s) (lease_time s) (lease_start s) (renewal_time s) (configured s) (counts s).
Definition put_cfg v s := mk_dhcp (st s) (xid s) v (lease_time s) (lease_start s) (renewal_time s) (configured s) (counts s).
Definition put_lease v s := mk_dhcp (st s) (xid s) (cfg s) v (lease_start s) (renewal_time s) (configured s) (counts s).
Definition put_times v w s := mk_dhcp (st s) (xid s) (cfg s) (lease_time s) v w (configured s) (counts s).
Definition put_configured v s := mk_dhcp (st s) (xid s) (cfg s) (lease_time s) (lease_start s) (renewal_time s) v (counts s).
Definition put_count (k : counter) v s := mk_dhcp (st s) (xid s) (cfg s) (lease_time s) (lease_start s) (renewal_time s)
  (configured s) (fun d => if bool_decide (d = k) then v else counts s d).
End Updates.

Definition client {A} (f : dhcp -> A) : M state A := gets (fun s => f (snd (snd s))).
Definition on_client (f : dhcp -> dhcp) : M state unit := modify (fun s => (fst s, (fst (snd s), f (snd (snd s))))).
Definition bump (k : counter) : M state unit := on_client (fun s => put_count k (counts s k +32 1) s).

Definition generate_xid (random : Z) : Z := if u32 random =? 0 then 1 else u32 random.

(** * Options *)

(** The variables [parse_dhcp_options] fills. *)
Record options := mk_options {
  msg_type : Z; o_server : list Z; o_mask : list Z; mask_present : bool; o_router : list Z; o_dns : list Z; o_lease : Z }.
Definition no_options : options :=
  mk_options 0 (replicate 4 0) (replicate 4 0) false (replicate 4 0) (replicate 4 0) 0.

Section Setters.
Implicit Types o : options.
Definition put_type v o := mk_options v (o_server o) (o_mask o) (mask_present o) (o_router o) (o_dns o) (o_lease o).
Definition put_server v o := mk_options (msg_type o) v (o_mask o) (mask_present o) (o_router o) (o_dns o) (o_lease o).
Definition put_mask v o := mk_options (msg_type o) (o_server o) v true (o_router o) (o_dns o) (o_lease o).
Definition put_router v o := mk_options (msg_type o) (o_server o) (o_mask o) (mask_present o) v (o_dns o) (o_lease o).
Definition put_dns v o := mk_options (msg_type o) (o_server o) (o_mask o) (mask_present o) (o_router o) v (o_lease o).
Definition put_lease_time v o := mk_options (msg_type o) (o_server o) (o_mask o) (mask_present o) (o_router o) (o_dns o) v.
End Setters.

(** [memcpy(out, &options\[i\], 4)] *)
Definition load4 (p : list Z) (i : Z) : M state (list Z) := lift (Dns.load_block p i 4).

(** The [switch] on an option with [len] bytes of data at [i]. *)
Definition take_option (p : list Z) (option i len : Z) (o : options) : M state options :=
  if option =? DHCP_OPTION_MESSAGE_TYPE then
    if 1 <=? len then t <- load8 p i ;; ret (put_type t o) else ret o
  else if option =? DHCP_OPTION_SERVER_ID then
    if len =? 4 then a <- load4 p i ;; ret (put_server a o) else ret o
  else if option =? DHCP_OPTION_SUBNET_MASK then
    if len =? 4 then a <- load4 p i ;; ret (put_mask a o) else ret (put_mask (o_mask o) o)
  else if option =? DHCP_OPTION_ROUTER then
    if 4 <=? len then a <- load4 p i ;; ret (put_router a o) else ret o
  else if option =? DHCP_OPTION_DNS_SERVER then
    if 4 <=? len then a <- load4 p i ;; ret (put_dns a o) else ret o
  else if option =? DHCP_OPTION_LEASE_TIME then
    if len =? 4 then t <- net32 p i ;; ret (put_lease_time t o) else ret o
  else ret o.

(** The loop, with [n] iterations left. *)
Fixpoint parse_loop (n : nat) (p : list Z) (i : Z) (o : options) : M state options :=
  let options_len := Z.of_nat (length p) in
  if negb (i <? options_len) then ret o else
  match n with
  | O => bump dhcp_drop_options ;;; ret o
  | S n' =>
      option <- load8 p i ;;
      if option =? DHCP_OPTION_END then ret o else
      if option =? 0 then parse_loop n' p (i + 1) o else
      if options_len <=? i + 1 then bump dhcp_drop_options ;;; ret o else
      len <- load8 p (i + 1) ;;
      if options_len - (i + 2) <? len then bump dhcp_drop_options ;;; ret o else
      o' <- take_option p option (i + 2) len o ;;
      parse_loop n' p (i + 2 + len) o'
  end.
Definition parse_dhcp_options (p : list Z) : M state options := parse_loop MAX_DHCP_OPTION_ITERATIONS p 0 no_options.

(** * Messages *)

(** The fixed part of a message: [dhcp_header_t] of 240 bytes. *)
Definition dhcp_header (x : Z) (mac : list Z) : list Z :=
  [DHCP_OP_BOOTREQUEST; DHCP_HTYPE_ETHERNET; DHCP_HLEN_ETHERNET; 0] ++ net_bytes32 x ++ [0; 0] ++ net_bytes16 0x8000 ++
  replicate 16 0 ++ mac ++ replicate 10 0 ++ replicate 64 0 ++ replicate 128 0 ++ net_bytes32 DHCP_MAGIC_COOKIE.

(** The options in their order, each added only if there is room for it; [None]
    is the jump to [options_overflow]. *)
Fixpoint add_options (pieces : list (list Z)) (out : list Z) : option (list Z) :=
  match pieces with
  | [] => Some out
  | x :: pieces' =>
      if DHCP_MAX_OPTIONS <? Z.of_nat (length out + length x) then None else add_options pieces' (out ++ x)
  end.
Definition message_options (type : Z) (mac : list Z) (requested server : option (list Z)) : list (list Z) :=
  [[DHCP_OPTION_MESSAGE_TYPE; 1; type]; [DHCP_OPTION_CLIENT_ID; 7; DHCP_HTYPE_ETHERNET] ++ mac] ++
  match requested with
  | Some a => if type =? DHCP_REQUEST then [[DHCP_OPTION_REQUESTED_IP; 4] ++ a] else []
  | None => []
  end ++
  match server with
  | Some a => if type =? DHCP_REQUEST then [[DHCP_OPTION_SERVER_ID; 4] ++ a] else []
  | None => []
  end ++
  [[DHCP_OPTION_PARAM_REQUEST; 4; DHCP_OPTION_SUBNET_MASK; DHCP_OPTION_ROUTER; DHCP_OPTION_DNS_SERVER;
    DHCP_OPTION_LEASE_TIME];
   [DHCP_OPTION_HOSTNAME; 6; 84; 105; 110; 121; 79; 83]; [DHCP_OPTION_END]].

Definition send_dhcp_message (type : Z) (requested server : option (list Z)) : M state unit :=
  mm <- lower (gets my_mac) ;;
  x <- client xid ;;
  match add_options (message_options type mm requested server) [] with
  | None => ret tt
  | Some opts =>
      let udp_len := u16 (8 + 240 + Z.of_nat (length opts)) in
      let ip_len := u16 (20 + udp_len) in
      hdr <- lift (ip_header ip_len 0 IPPROTO_UDP [0; 0; 0; 0] [255; 255; 255; 255]) ;;
      let udp := net_bytes16 DHCP_CLIENT_PORT ++ net_bytes16 DHCP_SERVER_PORT ++ net_bytes16 udp_len ++ [0; 0] in
      frame <- lift (in_buffer 1024 (eth_frame broadcast_mac mm ETH_TYPE_IPV4
                                       (hdr ++ udp ++ dhcp_header x mm ++ opts))) ;;
      lower (e1000_send frame)
  end.

Definition dhcp_init : M state unit :=
  on_client (fun s => mk_dhcp DHCP_STATE_INIT 0
    (mk_offer (replicate 4 0) (replicate 4 0) (replicate 4 0) (replicate 4 0) (replicate 4 0)) 0 0 0 false (counts s)) ;;;
  lower (on_filter (Firewall.firewall_allow_port DHCP_CLIENT_PORT IPPROTO_UDP "DHCP Client"%string)).

Definition dhcp_start (random : Z) : M state unit :=
  on_client (fun s => put_st DHCP_STATE_SELECTING (put_xid (generate_xid random) s)) ;;;
  send_dhcp_message DHCP_DISCOVER None None.

(** * Checks of an offer *)

Definition dhcp_ip_is_zero (a : list Z) : bool := forallb (fun k => a !!! k =? 0) (seq 0 4).
Definition dhcp_ip_is_special (a : list Z) : bool :=
  (a !!! 0%nat =? 0) || (a !!! 0%nat =? 127) || (224 <=? a !!! 0%nat).
Definition dhcp_mask_is_valid (m : list Z) : bool :=
  let w := Z.lor (Z.lor (Z.lor (u32 (Z.shiftl (m !!! 0%nat) 24)) (u32 (Z.shiftl (m !!! 1%nat) 16)))
                    (u32 (Z.shiftl (m !!! 2%nat) 8))) (m !!! 3%nat) in
  let inv := not32 w in
  if negb (Z.land inv (inv +32 1) =? 0) then false
  else (Z.land w 0xFF000000 =? 0xFF000000) && (Z.land w 0x3 =? 0).
Definition host_part (a m : list Z) (k : nat) : Z := Z.land (a !!! k) (u8 (Z.lnot (m !!! k))).
Definition dhcp_ip_is_net_or_bcast (a m : list Z) : bool :=
  forallb (fun k => host_part a m k =? 0) (seq 0 4) ||
  forallb (fun k => host_part a m k =? u8 (Z.lnot (m !!! k))) (seq 0 4).
Definition dhcp_same_subnet (a b m : list Z) : bool :=
  forallb (fun k => Z.land (a !!! k) (m !!! k) =? Z.land (b !!! k) (m !!! k)) (seq 0 4).

(** The mask to use, if the offer is accepted. *)
Definition dhcp_offer_is_valid (yiaddr server_id m : list Z) (mask_present : bool) (router dns : list Z)
  : option (list Z) :=
  if dhcp_ip_is_zero server_id then None else
  if dhcp_ip_is_special yiaddr then None else
  let m' := if mask_present then m
            else [255; if 128 <=? yiaddr !!! 0%nat then 255 else 0; if 192 <=? yiaddr !!! 0%nat then 255 else 0; 0] in
  if mask_present && negb (dhcp_mask_is_valid m) then None else
  if dhcp_ip_is_net_or_bcast yiaddr m' then None else
  if negb (dhcp_ip_is_zero router) &&
     (negb (dhcp_same_subnet router yiaddr m') || same router yiaddr || dhcp_ip_is_net_or_bcast router m')
  then None else
  if negb (dhcp_ip_is_zero dns) && dhcp_ip_is_special dns then None else Some m'.

(** * Received messages *)

Definition requesting (x : dhcp_state) : bool :=
  match x with DHCP_STATE_REQUESTING | DHCP_STATE_RENEWING | DHCP_STATE_REBINDING => true | _ => false end.

Definition handle_offer (yiaddr : list Z) (o : options) : M state unit :=
  x <- client st ;;
  match x with
  | DHCP_STATE_SELECTING =>
      match dhcp_offer_is_valid yiaddr (o_server o) (o_mask o) (mask_present o) (o_router o) (o_dns o) with
      | None => bump dhcp_drop_badcfg
      | Some m =>
          on_client (fun s => put_st DHCP_STATE_REQUESTING
            (put_lease (o_lease o) (put_cfg (mk_offer yiaddr (o_server o) m (o_router o) (o_dns o)) s))) ;;;
          c <- client cfg ;;
          send_dhcp_message DHCP_REQUEST (Some (offered_ip c)) (Some (server_ip c))
      end
  | _ => ret tt
  end.

(** The lease time of the acknowledgement, clamped. *)
Definition clamp_lease (lease : Z) : M state unit :=
  (if negb (lease =? 0) then on_client (put_lease lease) else ret tt) ;;;
  l <- client lease_time ;;
  (if l <? 60 then bump dhcp_clamp_lease ;;; on_client (put_lease 600) else ret tt) ;;;
  l <- client lease_time ;;
  (if MAX_DHCP_LEASE_SECONDS <? l then bump dhcp_clamp_lease ;;; on_client (put_lease MAX_DHCP_LEASE_SECONDS) else ret tt).

(** The time of renewal: half of the lease, a tenth of it more or less. *)
Definition t1_jittered (lease random : Z) : M state Z :=
  let lease_ticks := lease *32 100 in
  let t1_base := lease_ticks / 2 in
  let jitter_window := t1_base / 10 in
  if jitter_window =? 0 then ret t1_base else
  let m := 2 *32 jitter_window in
  if m =? 0 then fail (KernelPanic "divide error"%string) else
  ret (t1_base -32 jitter_window +32 (u32 random mod m)).

Definition handle_ack (ticks random : Z) (yiaddr : list Z) (o : options) : M state unit :=
  x <- client st ;;
  if negb (requesting x) then ret tt else
  c <- client cfg ;;
  if dhcp_ip_is_zero (o_server o) || negb (same (o_server o) (server_ip c)) then bump dhcp_drop_rogue else
  if negb (same yiaddr (offered_ip c)) then bump dhcp_drop_ack else
  clamp_lease (o_lease o) ;;;
  on_client (fun s => put_times ticks (renewal_time s) (put_configured true (put_st DHCP_STATE_BOUND s))) ;;;
  l <- client lease_time ;;
  t <- t1_jittered l random ;;
  on_client (fun s => put_times (lease_start s) (lease_start s +32 t) s) ;;;
  c <- client cfg ;;
  lower (set_network_config (Some yiaddr) (Some (mask c)) (Some (router_ip c))) ;;;
  lower (send_arp_request ticks (router_ip c)) ;;;
  if negb (dhcp_ip_is_zero (dns_server c))
  then modify (fun s => (fst s, (Dns.set_dns_server (dns_server c) (fst (snd s)), snd (snd s))))
  else ret tt.

Definition handle_nak (random : Z) (o : options) : M state unit :=
  x <- client st ;;
  c <- client cfg ;;
  if requesting x && negb (dhcp_ip_is_zero (o_server o)) && same (o_server o) (server_ip c) then
    bump dhcp_nak_honored ;;;
    on_client (put_st DHCP_STATE_INIT) ;;;
    dhcp_start random
  else bump dhcp_nak_ignored.

(** [p]: the payload of the datagram. *)
Definition handle_dhcp (ticks random : Z) (p : list Z) : M state unit :=
  if Z.of_nat (length p) <? sizeof_dhcp_header then bump dhcp_drop_short else
  op <- load8 p 0 ;;
  if negb (op =? DHCP_OP_BOOTREPLY) then ret tt else
  x <- net32 p 4 ;;
  mine <- client xid ;;
  if negb (x =? mine) then ret tt else
  bump dhcp_replies_ok ;;;
  cookie <- net32 p 236 ;;
  if negb (cookie =? DHCP_MAGIC_COOKIE) then bump dhcp_drop_cookie else
  o <- parse_dhcp_options (drop (Z.to_nat sizeof_dhcp_header) p) ;;
  let yiaddr := field p 16 4 in
  if msg_type o =? DHCP_OFFER then handle_offer yiaddr o
  else if msg_type o =? DHCP_ACK then handle_ack ticks random yiaddr o
  else if msg_type o =? DHCP_NAK then handle_nak random o
  else ret tt.

(** * Timers *)

Definition dhcp_tick (ticks random : Z) : M state unit :=
  conf <- client configured ;;
  if negb (conf : bool) then ret tt else
  x <- client st ;;
  match x with
  | DHCP_STATE_BOUND =>
      r <- client renewal_time ;;
      if r <=? ticks then
        on_client (fun s => put_xid (generate_xid random) (put_st DHCP_STATE_RENEWING s)) ;;;
        c <- client cfg ;;
        send_dhcp_message DHCP_REQUEST (Some (offered_ip c)) (Some (server_ip c))
      else ret tt
  | DHCP_STATE_RENEWING =>
      l <- client lease_time ;; b <- client lease_start ;;
      let lease_ticks := l *32 100 in
      if b +32 (lease_ticks *32 7) / 8 <=? ticks then
        on_client (fun s => put_xid (generate_xid random) (put_st DHCP_STATE_REBINDING s)) ;;;
        c <- client cfg ;;
        send_dhcp_message DHCP_REQUEST (Some (offered_ip c)) None
      else ret tt
  | DHCP_STATE_REBINDING =>
      l <- client lease_time ;; b <- client lease_start ;;
      let lease_ticks := l *32 100 in
      if b +32 lease_ticks <=? ticks then
        on_client (fun s => put_st DHCP_STATE_INIT (put_configured false s)) ;;;
        dhcp_start random
      else ret tt
  | _ => ret tt
  end.

Definition dhcp_get_state : M state dhcp_state := client st.
Definition dhcp_is_configured : M state bool := client configured.
Definition dhcp_get_rx_stats (s : dhcp) : list Z :=
  map (counts s) [dhcp_replies_ok; dhcp_drop_short; dhcp_drop_cookie; dhcp_drop_options; dhcp_drop_rogue; dhcp_clamp_lease].
Definition dhcp_get_cfg_stats (s : dhcp) : list Z :=
  map (counts s) [dhcp_drop_badcfg; dhcp_drop_ack; dhcp_nak_ignored; dhcp_nak_honored].

End Dhcp.
