(* ===== verification/DhcpProps.v ===== *)
(** Theorems about the DHCP client: which offers it takes, what may change the
    configuration of the host, how it gets a lease, and the option parser. *)
From Stdlib Require Import ZArith Lia List Bool String.
From stdpp Require Import base tactics numbers list.
From S2P Require Import Prelude NetHdr Checksum Firewall FirewallProps Link LinkProps Dns Dhcp.
Open Scope Z_scope.

Module DhcpProps.
Import NetHdr Checksum Link Dhcp.

(** * Addresses as words *)

Lemma land_byte x y : byte x -> byte y -> byte (Z.land x y).
Proof.
  intros Hx Hy. split; [apply Z.land_nonneg; lia|]. destruct (Z.eq_dec (Z.land x y) 0) as [->|Hz]; [lia|].
  change 256 with (2 ^ 8). apply Z.log2_lt_pow2; [pose proof (Z.land_nonneg x y); lia|].
  eapply Z.le_lt_trans; [apply Z.log2_land; lia|]. apply Z.min_lt_iff. left.
  destruct (Z.eq_dec x 0) as [->|]; [simpl; lia|]. apply Z.log2_lt_pow2; lia.
Qed.

Lemma land_digits x y x' y' : byte y -> byte y' ->
  Z.land (256 * x + y) (256 * x' + y') = 256 * Z.land x x' + Z.land y y'.
Proof.
  intros Hy Hy'. assert (forall z, byte z -> forall n, 8 <= n -> Z.testbit z n = false) as Hhi.
  { intros z Hz n Hn. destruct (Z.eq_dec z 0) as [->|]; [apply Z.bits_0|]. apply Z.bits_above_log2; [lia|].
    apply Z.lt_le_trans with 8; [|done]. apply Z.log2_lt_pow2; lia. }
  assert (forall a b, byte b -> forall n, 0 <= n -> Z.testbit (256 * a + b) n = if n <? 8 then Z.testbit b n else Z.testbit a (n - 8)) as Hb.
  { intros a b Hb n Hn. replace (256 * a) with (a * 2 ^ 8) by lia. rewrite <- lor_add, Z.lor_spec by lia.
    rewrite <- Z.shiftl_mul_pow2, Z.shiftl_spec by lia. destruct (Z.ltb_spec n 8).
    - by rewrite (Z.testbit_neg_r _ (n - 8)) by lia.
    - by rewrite (Hhi b), orb_false_r by done. }
  pose proof (land_byte y y' Hy Hy').
  apply Z.bits_inj'. intros n Hn. rewrite Z.land_spec, !Hb by done. destruct (n <? 8); by rewrite Z.land_spec.
Qed.

(** The four bytes of an address. *)
Lemma addr4 a : addr 4 a -> exists a0 a1 a2 a3, a = [a0; a1; a2; a3] /\ byte a0 /\ byte a1 /\ byte a2 /\ byte a3.
Proof.
  intros [Hb Hl]. destruct a as [|a0 [|a1 [|a2 [|a3 [|]]]]]; try done. unfold bytes in Hb. decompose_Forall. eauto 10.
Qed.
Ltac as_bytes H := apply addr4 in H as (? & ? & ? & ? & -> & ? & ? & ? & ?).

Notation word a := (be32 a 0).
Lemma word_eq a0 a1 a2 a3 : word [a0; a1; a2; a3] = 256 * (256 * (256 * a0 + a1) + a2) + a3.
Proof. unfold be32, be16, at8. simpl. lia. Qed.

Lemma inv_byte m : byte m -> u8 (Z.lnot m) = 255 - m.
Proof. intros H. unfold Z.lnot. u_lia. Qed.

(** The host part and the network part of an address. *)
Lemma host_parts a m : addr 4 a -> addr 4 m ->
  (forallb (fun k => host_part a m k =? 0) (seq 0 4) = true <-> Z.land (word a) (2 ^ 32 - 1 - word m) = 0) /\
  (forallb (fun k => host_part a m k =? u8 (Z.lnot (m !!! k))) (seq 0 4) = true <->
     Z.land (word a) (2 ^ 32 - 1 - word m) = 2 ^ 32 - 1 - word m).
Proof.
  intros Ha Hm. as_bytes Ha. as_bytes Hm. unfold host_part. cbn [forallb seq lookup_total list_lookup_total].
  rewrite !inv_byte, !word_eq by done. rewrite !andb_true_iff, !Z.eqb_eq.
  match goal with |- context [2 ^ 32 - 1 - (256 * (256 * (256 * ?a + ?b) + ?c) + ?d)] =>
    replace (2 ^ 32 - 1 - (256 * (256 * (256 * a + b) + c) + d))
      with (256 * (256 * (256 * (255 - a) + (255 - b)) + (255 - c)) + (255 - d)) by lia end.
  rewrite !land_digits by lia.
  repeat match goal with |- context [Z.land ?x (255 - ?y)] =>
    let H := fresh in pose proof (land_byte x (255 - y)) as H;
    generalize dependent (Z.land x (255 - y)); intros end.
  split; lia.
Qed.

Lemma same_subnet_word a b m : addr 4 a -> addr 4 b -> addr 4 m ->
  dhcp_same_subnet a b m = true <-> Z.land (word a) (word m) = Z.land (word b) (word m).
Proof.
  intros Ha Hb Hm. as_bytes Ha. as_bytes Hb. as_bytes Hm. unfold dhcp_same_subnet.
  cbn [forallb seq lookup_total list_lookup_total]. rewrite !word_eq, !andb_true_iff, !Z.eqb_eq, !land_digits by done.
  repeat match goal with |- context [Z.land ?x ?y] =>
    let H := fresh in pose proof (land_byte x y) as H; generalize dependent (Z.land x y); intros end.
  lia.
Qed.

(** ** Masks *)

(** A number without common bits with its successor is one below a power of two. *)
Lemma low_ones n x : 0 <= x < 2 ^ Z.of_nat n -> Z.land x (x + 1) = 0 -> exists h, 0 <= h <= Z.of_nat n /\ x = 2 ^ h - 1.
Proof.
  revert x. induction n as [|n IH]; intros x Hx Hl.
  { exists 0. simpl in Hx. lia. }
  rewrite Nat2Z.inj_succ, Z.pow_succ_r in Hx by lia.
  destruct (Z.Even_or_Odd x) as [[y ->]|[y ->]].
  - exists 0. split; [lia|]. assert (Z.land (2 * y) (2 * y + 1) = 2 * y) as E; [|lia].
    apply Z.bits_inj'. intros k Hk. rewrite Z.land_spec. destruct (Z.eq_dec k 0) as [->|].
    + by rewrite Z.testbit_even_0.
    + replace k with (Z.succ (k - 1)) by lia. rewrite Z.testbit_odd_succ, !Z.testbit_even_succ by lia. apply andb_diag.
  - destruct (IH y) as (h & Hh & ->); [lia| |].
    + replace (2 * y + 1 + 1) with (2 * (y + 1)) in Hl by lia.
      assert (Z.land (2 * y + 1) (2 * (y + 1)) = 2 * Z.land y (y + 1)) as E; [|lia].
      apply Z.bits_inj'. intros k Hk. rewrite Z.land_spec. destruct (Z.eq_dec k 0) as [->|].
      * by rewrite !Z.testbit_even_0, andb_false_r.
      * replace k with (Z.succ (k - 1)) by lia. rewrite Z.testbit_odd_succ, !Z.testbit_even_succ, Z.land_spec by lia. done.
    + exists (h + 1). split; [lia|]. rewrite Z.pow_add_r by lia. lia.
Qed.

(** A mask with [h] bits for the hosts: /8 to /30. *)
Definition prefix (m : list Z) (h : Z) : Prop := 2 <= h <= 24 /\ word m = 2 ^ 32 - 2 ^ h.

Lemma mask_word m0 m1 m2 m3 : byte m0 -> byte m1 -> byte m2 -> byte m3 ->
  Z.lor (Z.lor (Z.lor (u32 (Z.shiftl m0 24)) (u32 (Z.shiftl m1 16))) (u32 (Z.shiftl m2 8))) m3 = word [m0; m1; m2; m3].
Proof.
  intros. rewrite !Z.shiftl_mul_pow2 by lia. rewrite !u32_small by lia. rewrite word_eq.
  rewrite (lor_add m0 (m1 * 2 ^ 16) 24) by lia.
  replace (m0 * 2 ^ 24 + m1 * 2 ^ 16) with ((m0 * 256 + m1) * 2 ^ 16) by lia. rewrite lor_add by lia.
  replace ((m0 * 256 + m1) * 2 ^ 16 + m2 * 2 ^ 8) with (((m0 * 256 + m1) * 256 + m2) * 2 ^ 8) by lia.
  rewrite lor_add by lia. lia.
Qed.

Lemma mask_valid m : addr 4 m -> dhcp_mask_is_valid m = true <-> exists h, prefix m h.
Proof.
  intros Hm. as_bytes Hm. unfold dhcp_mask_is_valid. cbn [lookup_total list_lookup_total]. rewrite mask_word by done.
  set (w := word _). assert (0 <= w < 2 ^ 32) as Hw by (unfold w; rewrite word_eq; lia). unfold prefix. fold w. clearbody w.
  assert (not32 w = 2 ^ 32 - 1 - w) as -> by (unfold not32, Z.lnot; u_lia).
  assert (forall h, 0 <= h <= 32 -> w = 2 ^ 32 - 2 ^ h ->
    (if negb (Z.land (2 ^ 32 - 1 - w) (2 ^ 32 - 1 - w +32 1) =? 0) then false
     else (Z.land w 0xFF000000 =? 0xFF000000) && (Z.land w 0x3 =? 0)) = (2 <=? h) && (h <=? 24)) as Hh.
  { intros h Hh ->. replace h with (Z.of_nat (Z.to_nat h)) by lia. assert (Z.to_nat h < 33)%nat as Hn by lia.
    generalize dependent (Z.to_nat h). clear. intros n Hn. do 33 (destruct n as [|n]; [reflexivity|]). lia. }
  destruct (Z.eqb_spec (Z.land (2 ^ 32 - 1 - w) (2 ^ 32 - 1 - w +32 1)) 0) as [E|E].
  - assert (exists h, 0 <= h <= 32 /\ 2 ^ 32 - 1 - w = 2 ^ h - 1) as (h & Hr & Ew).
    { destruct (Z.eq_dec w 0) as [->|]; [by exists 32|]. apply (low_ones 32); [simpl; lia|]. rewrite u32_small in E by lia. done. }
    specialize (Hh h Hr ltac:(lia)). cbn [negb] in Hh |- *. rewrite Hh, andb_true_iff, !Z.leb_le.
    split; [exists h; split; [lia|]; lia|]. intros (h' & Hr' & Ew').
    assert (2 ^ h = 2 ^ h') as Ep by lia. apply Z.pow_inj_r in Ep; lia.
  - split; [done|]. intros (h & Hr & Ew). specialize (Hh h ltac:(lia) Ew). cbn [negb] in Hh |- *.
    symmetry in Hh. rewrite andb_false_iff, !Z.leb_gt in Hh. lia.
Qed.

(** * Offers *)

Definition zeros : list Z := replicate 4 0.
Definition unicast (a : list Z) : Prop := 1 <= a !!! 0%nat < 224 /\ a !!! 0%nat <> 127.
(** Neither the address of the network nor its broadcast address. *)
Definition is_host (a : list Z) (h : Z) : Prop := 0 < word a mod 2 ^ h < 2 ^ h - 1.

(** A configuration the host can use. *)
Record usable (c : offer) : Prop := mk_usable {
  us_server : server_ip c <> zeros;
  us_ip : unicast (offered_ip c);
  us_net : exists h, prefix (mask c) h /\ is_host (offered_ip c) h /\
    (router_ip c = zeros \/
     router_ip c <> offered_ip c /\ word (router_ip c) / 2 ^ h = word (offered_ip c) / 2 ^ h /\ is_host (router_ip c) h);
  us_dns : dns_server c = zeros \/ unicast (dns_server c) }.

Definition classful (a : list Z) : list Z :=
  [255; if 128 <=? a !!! 0%nat then 255 else 0; if 192 <=? a !!! 0%nat then 255 else 0; 0].

Lemma classful_prefix a : addr 4 (classful a) /\ exists h, prefix (classful a) h.
Proof.
  unfold classful, prefix. destruct (128 <=? a !!! 0%nat) eqn:E1, (192 <=? a !!! 0%nat) eqn:E2.
  - split; [split; [repeat constructor; lia|done]|]. by exists 8.
  - split; [split; [repeat constructor; lia|done]|]. by exists 16.
  - lia.
  - split; [split; [repeat constructor; lia|done]|]. by exists 24.
Qed.

Lemma zero_iff a : addr 4 a -> dhcp_ip_is_zero a = true <-> a = zeros.
Proof.
  intros Ha. as_bytes Ha. unfold dhcp_ip_is_zero. cbn [forallb seq lookup_total list_lookup_total].
  rewrite !andb_true_iff, !Z.eqb_eq. split; [intros (-> & -> & -> & -> & _); done|by intros [= -> -> -> ->]].
Qed.

Lemma special_iff a : addr 4 a -> dhcp_ip_is_special a = false <-> unicast a.
Proof.
  intros Ha. as_bytes Ha. unfold dhcp_ip_is_special, unicast. cbn [lookup_total list_lookup_total].
  rewrite !orb_false_iff, !Z.eqb_neq, Z.leb_gt. lia.
Qed.

Lemma net_or_bcast_iff a m h : addr 4 a -> addr 4 m -> prefix m h -> dhcp_ip_is_net_or_bcast a m = false <-> is_host a h.
Proof.
  intros Ha Hm [Hh Em]. destruct (host_parts a m Ha Hm) as [H0 H1]. rewrite Em in H0, H1.
  replace (2 ^ 32 - 1 - (2 ^ 32 - 2 ^ h)) with (Z.ones h) in H0, H1 by (rewrite Z.ones_equiv; lia).
  rewrite Z.land_ones in H0, H1 by lia. rewrite Z.ones_equiv in H1. unfold dhcp_ip_is_net_or_bcast, is_host.
  rewrite orb_false_iff, <- !not_true_iff_false, H0, H1.
  pose proof (Z.mod_pos_bound (word a) (2 ^ h) ltac:(apply Z.pow_pos_nonneg; lia)). lia.
Qed.

Lemma same_subnet_iff a b m h : addr 4 a -> addr 4 b -> addr 4 m -> prefix m h ->
  dhcp_same_subnet a b m = true <-> word a / 2 ^ h = word b / 2 ^ h.
Proof.
  intros Ha Hb Hm [Hh Em]. rewrite same_subnet_word, Em by done.
  assert (2 ^ 32 - 2 ^ h = not32 (Z.ones h)) as ->.
  { unfold not32, Z.lnot. rewrite Z.ones_equiv. unfold u32.
    assert (0 < 2 ^ h <= 2 ^ 32) by (split; [apply Z.pow_pos_nonneg; lia|apply Z.pow_le_mono_r; lia]).
    replace (Z.pred (- Z.pred (2 ^ h))) with (2 ^ 32 - 2 ^ h + -1 * 2 ^ 32) by lia.
    rewrite Z.mod_add, Z.mod_small by lia. done. }
  rewrite !land_not32_ones by (try lia; apply be32_range; apply Ha || apply Hb).
  assert (0 < 2 ^ h) by (apply Z.pow_pos_nonneg; lia). nia.
Qed.

Definition mask_of (y m : list Z) (present : bool) : list Z := if present then m else classful y.

Lemma prefix_unique m h h' : prefix m h -> prefix m h' -> h = h'.
Proof. intros [Hh E] [Hh' E']. apply (Z.pow_inj_r 2); lia. Qed.

Lemma router_iff r y m h : addr 4 r -> addr 4 y -> addr 4 m -> prefix m h ->
  negb (dhcp_ip_is_zero r) && (negb (dhcp_same_subnet r y m) || same r y || dhcp_ip_is_net_or_bcast r m) = false <->
  r = zeros \/ r <> y /\ word r / 2 ^ h = word y / 2 ^ h /\ is_host r h.
Proof.
  intros Hr Hy Hm Hh. rewrite <- (zero_iff r), <- (same_subnet_iff r y m h), <- (net_or_bcast_iff r m h) by done.
  rewrite andb_false_iff, negb_false_iff, !orb_false_iff, negb_false_iff, <- (not_true_iff_false (same r y)), same_eq. tauto.
Qed.

Lemma offer_valid y srv m present r d :
  addr 4 y -> addr 4 srv -> addr 4 m -> addr 4 r -> addr 4 d ->
  match dhcp_offer_is_valid y srv m present r d with
  | Some m' => m' = mask_of y m present /\ usable (mk_offer y srv m' r d)
  | None => ~ usable (mk_offer y srv (mask_of y m present) r d)
  end.
Proof.
  intros Hy Hs Hm Hr Hd. unfold dhcp_offer_is_valid. fold (classful y). fold (mask_of y m present).
  destruct (dhcp_ip_is_zero srv) eqn:Es.
  { apply zero_iff in Es; [|done]. intros [Hx _ _ _]. done. }
  assert (srv <> zeros) as Hsz by (intros ->; done).
  destruct (dhcp_ip_is_special y) eqn:Ey.
  { intros [_ Hx _ _]. simpl in Hx. apply special_iff in Hx; [congruence|done]. }
  apply special_iff in Ey; [|done]. cbv zeta.
  destruct (present && negb (dhcp_mask_is_valid m)) eqn:Em.
  { apply andb_true_iff in Em as [-> Em]. intros [_ _ (h & Hx & _) _]. cbn [mask mask_of] in Hx.
    rewrite (proj2 (mask_valid m Hm)) in Em by by exists h. done. }
  assert (addr 4 (mask_of y m present) /\ exists h, prefix (mask_of y m present) h) as [Hm' [h Hh]].
  { destruct present; [|apply classful_prefix]. split; [done|]. apply mask_valid; [done|].
    by apply andb_false_iff in Em as [|Em%negb_false_iff]. }
  set (m' := mask_of y m present) in *. clearbody m'.
  destruct (dhcp_ip_is_net_or_bcast y m') eqn:En.
  { intros [_ _ (h' & Hx & Hx' & _) _]. simpl in Hx, Hx'. rewrite (prefix_unique _ _ _ Hx Hh) in Hx'.
    apply (net_or_bcast_iff y m') in Hx'; [congruence|done..]. }
  apply (net_or_bcast_iff y m' h) in En; [|done..].
  pose proof (router_iff r y m' h Hr Hy Hm' Hh) as Hrt. destruct (negb (dhcp_ip_is_zero r) && _).
  { intros [_ _ (h' & Hx & _ & Hx') _]. simpl in Hx, Hx'. rewrite (prefix_unique _ _ _ Hx Hh) in Hx'. by apply Hrt in Hx'. }
  apply proj1 in Hrt. specialize (Hrt eq_refl).
  destruct (negb (dhcp_ip_is_zero d) && _) eqn:Ed.
  - apply andb_true_iff in Ed as [E1 E2]. intros [_ _ _ [Hx|Hx]]; simpl in Hx.
    + apply zero_iff in Hx; [|done]. by rewrite Hx in E1.
    + apply special_iff in Hx; [congruence|done].
  - split; [done|]. constructor; simpl; [done..|by exists h|].
    apply andb_false_iff in Ed as [Ed|Ed]; [left|right; by apply special_iff].
    apply zero_iff; [done|]. by apply negb_false_iff.
Qed.

(** * Options *)

Definition options_ok (o : options) : Prop :=
  byte (msg_type o) /\ addr 4 (o_server o) /\ addr 4 (o_mask o) /\ addr 4 (o_router o) /\ addr 4 (o_dns o) /\
  0 <= o_lease o < 2 ^ 32.

(** Nothing but the statistics. *)
Record counted (s s' : state) : Prop := mk_counted {
  ct_link : fst s' = fst s; ct_dns : fst (snd s') = fst (snd s); ct_st : st (snd (snd s')) = st (snd (snd s));
  ct_xid : xid (snd (snd s')) = xid (snd (snd s)); ct_cfg : cfg (snd (snd s')) = cfg (snd (snd s));
  ct_lease : lease_time (snd (snd s')) = lease_time (snd (snd s));
  ct_start : lease_start (snd (snd s')) = lease_start (snd (snd s));
  ct_renewal : renewal_time (snd (snd s')) = renewal_time (snd (snd s));
  ct_configured : configured (snd (snd s')) = configured (snd (snd s)) }.
Lemma counted_refl s : counted s s.
Proof. by constructor. Qed.
Lemma counted_trans s1 s2 s3 : counted s1 s2 -> counted s2 s3 -> counted s1 s3.
Proof. intros [] []. constructor; congruence. Qed.

Lemma dhcp_bump_ok k s (Q : unit -> state -> Prop) : (forall s', counted s s' -> Q tt s') -> wp (bump k) Q s.
Proof. intros HQ. by apply wp_modify, HQ. Qed.

Section Parser.
Context (p : list Z) (Hp : bytes p).

(** A value that does not depend on the state. *)
Notation gives m P := (exists a, P a /\ forall (s : state) (Q : _ -> state -> Prop), Q a s -> wp m Q s).

Lemma load4_ok i : 0 <= i -> i + 4 <= Z.of_nat (length p) -> gives (load4 p i) (fun a => addr 4 a).
Proof.
  intros Hi Hl. exists (take 4 (drop (Z.to_nat i) p)). split.
  - split; [by apply Forall_take, Forall_drop|]. rewrite length_take, length_drop. lia.
  - intros s Q HQ. unfold load4, Dns.load_block.
    destruct (Z.ltb_spec i 0), (Z.ltb_spec (Z.of_nat (length p)) (i + 4)); try lia. by eapply wp_lift.
Qed.

Lemma gives_ret (o : options) : options_ok o -> gives (ret o : M state options) options_ok.
Proof. intros Ho. exists o. split; [done|]. intros s Q HQ. by apply wp_ret. Qed.

Lemma gives_load4 (f : list Z -> options) i : 0 <= i -> i + 4 <= Z.of_nat (length p) ->
  (forall a, addr 4 a -> options_ok (f a)) -> gives (a <- load4 p i ;; ret (f a)) options_ok.
Proof.
  intros Hi Hl Hf. destruct (load4_ok i Hi Hl) as (a & Ha & Hw). exists (f a). split; [by apply Hf|].
  intros s Q HQ. by apply wp_bind, Hw, wp_ret.
Qed.

Lemma take_option_ok option i len o : 0 <= i -> i + len <= Z.of_nat (length p) -> options_ok o ->
  gives (take_option p option i len o) options_ok.
Proof.
  intros Hi Hl Ho. pose proof Ho as (H1 & H2 & H3 & H4 & H5 & H6). unfold take_option.
  destruct (option =? _).
  { destruct (Z.leb_spec 1 len); [|by apply gives_ret]. exists (put_type (at8 p i) o). split; [split; [by apply at8_byte|done]|].
    intros s Q HQ. by apply wp_bind, load8_ok; [lia|]. }
  do 2 (destruct (option =? _); [destruct (Z.eqb_spec len 4); [by apply gives_load4; [lia..|]|by apply gives_ret]|]).
  do 2 (destruct (option =? _); [destruct (Z.leb_spec 4 len); [by apply gives_load4; [lia..|]|by apply gives_ret]|]).
  destruct (option =? _); [|by apply gives_ret]. destruct (Z.eqb_spec len 4); [|by apply gives_ret].
  exists (put_lease_time (be32 p i) o). split; [do 5 (split; [done|]); by apply be32_range|].
  intros s Q HQ. apply wp_bind, net32_ok; [done|lia..|]. by apply wp_ret.
Qed.

Lemma parse_loop_ok n i o : 0 <= i -> options_ok o ->
  exists o', options_ok o' /\ forall (s : state) (Q : options -> state -> Prop),
    (forall s', counted s s' -> Q o' s') -> wp (parse_loop n p i o) Q s.
Proof.
  revert i o. induction n as [|n IH]; intros i o Hi Ho; cbn [parse_loop].
  all: destruct (Z.ltb_spec i (Z.of_nat (length p))) as [Hlt|]; cbn [negb];
    [|exists o; split; [done|]; intros s Q HQ; apply wp_ret, HQ, counted_refl].
  { exists o. split; [done|]. intros s Q HQ. apply wp_bind, dhcp_bump_ok. intros s' Hs. by apply wp_ret, HQ. }
  assert (forall m : Z -> M state options, (exists o', options_ok o' /\ forall s Q, (forall s', counted s s' -> Q o' s') -> wp (m (at8 p i)) Q s) ->
    exists o', options_ok o' /\ forall s Q, (forall s', counted s s' -> Q o' s') -> wp (b <- load8 p i ;; m b) Q s) as Hload.
  { intros m (o' & Ho' & Hw). exists o'. split; [done|]. intros s Q HQ. apply wp_bind, load8_ok; [lia|]. by apply Hw. }
  apply Hload. pose proof (at8_byte p i Hp) as Hb.
  destruct (_ =? DHCP_OPTION_END); [exists o; split; [done|]; intros s Q HQ; apply wp_ret, HQ, counted_refl|].
  destruct (_ =? 0); [apply IH; [lia|done]|].
  assert (exists o', options_ok o' /\ forall (s : state) (Q : options -> state -> Prop),
    (forall s', counted s s' -> Q o' s') -> wp (bump dhcp_drop_options ;;; ret o) Q s) as Hdrop.
  { exists o. split; [done|]. intros s Q HQ. apply wp_bind, dhcp_bump_ok. intros s' Hs. by apply wp_ret, HQ. }
  destruct (Z.leb_spec (Z.of_nat (length p)) (i + 1)); [done|]. clear Hload. pose proof (at8_byte p (i + 1) Hp) as Hb1.
  destruct (Z.ltb_spec (Z.of_nat (length p) - (i + 2)) (at8 p (i + 1))) as [E|E].
  - destruct Hdrop as (o' & Ho' & Hw). exists o'. split; [done|]. intros s Q HQ. apply wp_bind, load8_ok; [lia|].
    destruct (Z.ltb_spec (Z.of_nat (length p) - (i + 2)) (at8 p (i + 1))); [by apply Hw|lia].
  - destruct (take_option_ok (at8 p i) (i + 2) (at8 p (i + 1)) o) as (o1 & Ho1 & Hw1); [lia..|done|].
    destruct (IH (i + 2 + at8 p (i + 1)) o1) as (o2 & Ho2 & Hw2); [lia|done|]. exists o2. split; [done|].
    intros s Q HQ. apply wp_bind, load8_ok; [lia|].
    destruct (Z.ltb_spec (Z.of_nat (length p) - (i + 2)) (at8 p (i + 1))); [lia|]. apply wp_bind, Hw1. by apply Hw2.
Qed.
End Parser.

(** [o] is what the parser makes of [p]. *)
Definition options_of (p : list Z) (o : options) : Prop :=
  forall s : state, wp (parse_dhcp_options p) (fun o' _ => o' = o) s.

Lemma no_options_ok : options_ok no_options.
Proof. by do 5 (split; [first [done|apply zeros_addr]|]). Qed.

Lemma parse_ok p : bytes p -> exists o, options_ok o /\ options_of p o /\
  forall (s : state) (Q : options -> state -> Prop), (forall s', counted s s' -> Q o s') -> wp (parse_dhcp_options p) Q s.
Proof.
  intros Hp. destruct (parse_loop_ok p Hp MAX_DHCP_OPTION_ITERATIONS 0 no_options) as (o & Ho & Hw); [lia|apply no_options_ok|].
  exists o. split; [exact Ho|]. split; [|exact Hw]. intros s. unfold parse_dhcp_options. apply Hw. intros. reflexivity.
Qed.

Lemma options_of_unique p o o' (s : state) : options_of p o -> options_of p o' -> o = o'.
Proof.
  intros H H'. destruct (wp_elim _ _ _ (H s)) as (o1 & s1 & E1 & E). destruct (wp_elim _ _ _ (H' s)) as (o2 & s2 & E2 & E').
  rewrite E1 in E2. injection E2 as E2 _. rewrite <- E, <- E'. exact E2.
Qed.

(** ** Encoding *)

Inductive item := Pad | Opt (tag : Z) (data : list Z).
Definition encode (x : item) : list Z :=
  match x with Pad => [0] | Opt tag data => tag :: Z.of_nat (length data) :: data end.
Definition item_ok (x : item) : Prop :=
  match x with Pad => True | Opt tag data => 1 <= tag <= 254 /\ bytes data /\ (length data <= 255)%nat end.

(** The meaning of an option. *)
Definition apply_item (o : options) (x : item) : options :=
  match x with
  | Pad => o
  | Opt tag data =>
      if tag =? DHCP_OPTION_MESSAGE_TYPE then match data with t :: _ => put_type t o | [] => o end
      else if tag =? DHCP_OPTION_SERVER_ID then if (length data =? 4)%nat then put_server data o else o
      else if tag =? DHCP_OPTION_SUBNET_MASK then if (length data =? 4)%nat then put_mask data o else put_mask (o_mask o) o
      else if tag =? DHCP_OPTION_ROUTER then if (4 <=? length data)%nat then put_router (take 4 data) o else o
      else if tag =? DHCP_OPTION_DNS_SERVER then if (4 <=? length data)%nat then put_dns (take 4 data) o else o
      else if tag =? DHCP_OPTION_LEASE_TIME then if (length data =? 4)%nat then put_lease_time (word data) o else o
      else o
  end.

(** Reading behind a prefix. *)
Lemma at8_app pre l k : 0 <= k -> at8 (pre ++ l) (Z.of_nat (length pre) + k) = at8 l k.
Proof.
  intros Hk. unfold at8. rewrite !list_lookup_total_alt, lookup_app_r by lia.
  by replace (Z.to_nat (Z.of_nat (length pre) + k) - length pre)%nat with (Z.to_nat k) by lia.
Qed.
Lemma word_app pre l : be32 (pre ++ l) (Z.of_nat (length pre)) = word l.
Proof.
  unfold be32, be16. rewrite <- !Z.add_assoc. rewrite !at8_app by lia.
  by rewrite <- (at8_app pre l 0), Z.add_0_r by lia.
Qed.
Lemma word_take l post : length l = 4%nat -> word (l ++ post) = word l.
Proof. intros Hl. by destruct l as [|? [|? [|? [|? [|]]]]]. Qed.

Lemma load4_at pre data post s (Q : list Z -> state -> Prop) :
  (4 <= length data)%nat -> Q (take 4 data) s -> wp (load4 (pre ++ data ++ post) (Z.of_nat (length pre))) Q s.
Proof.
  intros Hl HQ. unfold load4, Dns.load_block. rewrite !length_app.
  destruct (Z.ltb_spec (Z.of_nat (length pre)) 0); [lia|].
  destruct (Z.ltb_spec (Z.of_nat (length pre + (length data + length post))) (Z.of_nat (length pre) + 4)); [lia|].
  cbn [orb]. eapply wp_lift; [done|]. rewrite Nat2Z.id, drop_app_length. change (Z.to_nat 4) with 4%nat. by rewrite take_app_le by lia.
Qed.

Lemma take_option_at pre tag data post o s (Q : options -> state -> Prop) :
  bytes (pre ++ data ++ post) -> Q (apply_item o (Opt tag data)) s ->
  wp (take_option (pre ++ data ++ post) tag (Z.of_nat (length pre)) (Z.of_nat (length data)) o) Q s.
Proof.
  intros Hb HQ. unfold take_option. cbn [apply_item] in HQ. destruct (tag =? _).
  { destruct data as [|t d]; [by apply wp_ret|]. destruct (Z.leb_spec 1 (Z.of_nat (length (t :: d)))) as [|Hn]; [|simpl in Hn; lia].
    apply wp_bind, load8_ok; [rewrite !length_app; simpl; lia|]. apply wp_ret.
    rewrite <- (Z.add_0_r (Z.of_nat (length pre))), at8_app by lia. exact HQ. }
  destruct (tag =? _).
  { destruct (Nat.eqb_spec (length data) 4), (Z.eqb_spec (Z.of_nat (length data)) 4); try lia; [|by apply wp_ret].
    apply wp_bind, load4_at; [lia|]. rewrite take_ge by lia. by apply wp_ret. }
  destruct (tag =? _).
  { destruct (Nat.eqb_spec (length data) 4), (Z.eqb_spec (Z.of_nat (length data)) 4); try lia; [|by apply wp_ret].
    apply wp_bind, load4_at; [lia|]. rewrite take_ge by lia. by apply wp_ret. }
  do 2 (destruct (tag =? _);
    [destruct (Nat.leb_spec 4 (length data)), (Z.leb_spec 4 (Z.of_nat (length data))); try lia; [|by apply wp_ret];
     apply wp_bind, load4_at; [lia|]; by apply wp_ret|]).
  destruct (tag =? _); [|by apply wp_ret].
  destruct (Nat.eqb_spec (length data) 4), (Z.eqb_spec (Z.of_nat (length data)) 4); try lia; [|by apply wp_ret].
  apply wp_bind, net32_ok; [done|lia|rewrite !length_app; lia|]. apply wp_ret. by rewrite word_app, word_take.
Qed.

(** One option in front of what is left. *)
Lemma parse_option n pre tag data tl o s (Q : options -> state -> Prop) :
  item_ok (Opt tag data) -> bytes (pre ++ encode (Opt tag data) ++ tl) ->
  wp (parse_loop n ((pre ++ encode (Opt tag data)) ++ tl) (Z.of_nat (length (pre ++ encode (Opt tag data))))
        (apply_item o (Opt tag data))) Q s ->
  wp (parse_loop (S n) (pre ++ encode (Opt tag data) ++ tl) (Z.of_nat (length pre)) o) Q s.
Proof.
  intros (Ht & Hd & Hl) Hb HQ. cbn [encode parse_loop] in *. set (n0 := Z.of_nat (length data)) in *.
  set (p := pre ++ (tag :: n0 :: data) ++ tl) in *.
  assert (Z.of_nat (length p) = Z.of_nat (length pre) + 2 + n0 + Z.of_nat (length tl)) as Elen
    by (unfold p; rewrite !length_app; simpl; lia). rewrite Elen.
  destruct (Z.ltb_spec (Z.of_nat (length pre)) (Z.of_nat (length pre) + 2 + n0 + Z.of_nat (length tl))); [|lia]. cbn [negb].
  apply wp_bind, load8_ok; [lia|]. assert (at8 p (Z.of_nat (length pre)) = tag) as ->.
  { rewrite <- (Z.add_0_r (Z.of_nat (length pre))). unfold p. by rewrite at8_app. }
  unfold DHCP_OPTION_END. destruct (Z.eqb_spec tag 255), (Z.eqb_spec tag 0); try lia.
  destruct (Z.leb_spec (Z.of_nat (length pre) + 2 + n0 + Z.of_nat (length tl)) (Z.of_nat (length pre) + 1)); [lia|].
  apply wp_bind, load8_ok; [lia|]. assert (at8 p (Z.of_nat (length pre) + 1) = n0) as -> by (unfold p; by rewrite at8_app).
  destruct (Z.ltb_spec (Z.of_nat (length pre) + 2 + n0 + Z.of_nat (length tl) - (Z.of_nat (length pre) + 2)) n0); [lia|].
  assert (p = (pre ++ [tag; n0]) ++ data ++ tl) as E by (unfold p; by rewrite <- app_assoc). rewrite E in Hb |- *.
  replace (Z.of_nat (length pre) + 2) with (Z.of_nat (length (pre ++ [tag; n0]))) by (rewrite length_app; simpl; lia).
  apply wp_bind, take_option_at; [done|]. rewrite <- E. unfold p. rewrite app_assoc.
  replace (Z.of_nat (length (pre ++ [tag; n0])) + n0) with (Z.of_nat (length (pre ++ tag :: n0 :: data)))
    by (rewrite !length_app; simpl; lia). done.
Qed.

Lemma parse_encoded l n pre rest o s :
  Forall item_ok l -> bytes (pre ++ concat (map encode l) ++ DHCP_OPTION_END :: rest) -> (length l < n)%nat ->
  wp (parse_loop n (pre ++ concat (map encode l) ++ DHCP_OPTION_END :: rest) (Z.of_nat (length pre)) o)
    (fun o' s' => o' = fold_left apply_item l o /\ s' = s) s.
Proof.
  revert n pre o. induction l as [|x l IH]; intros n pre o Hok Hb Hn; (destruct n as [|n]; [simpl in Hn; lia|]).
  - cbn [map concat app parse_loop]. destruct (Z.ltb_spec (Z.of_nat (length pre)) (Z.of_nat (length (pre ++ DHCP_OPTION_END :: rest)))) as [|Hx];
      [|rewrite length_app in Hx; simpl in Hx; lia]. cbn [negb]. apply wp_bind, load8_ok; [rewrite length_app; simpl; lia|].
    rewrite <- (Z.add_0_r (Z.of_nat (length pre))), at8_app by lia. by apply wp_ret.
  - apply Forall_cons in Hok as [Hx Hok]. cbn [map concat] in Hb |- *. rewrite <- app_assoc in Hb |- *. simpl in Hn.
    set (tl := concat (map encode l) ++ DHCP_OPTION_END :: rest) in *. destruct x as [|tag data].
    + cbn [encode app parse_loop fold_left apply_item] in Hb |- *.
      destruct (Z.ltb_spec (Z.of_nat (length pre)) (Z.of_nat (length (pre ++ 0 :: tl)))) as [|Hl];
        [|rewrite length_app in Hl; simpl in Hl; lia]. cbn [negb]. apply wp_bind, load8_ok; [rewrite length_app; simpl; lia|].
      rewrite <- (Z.add_0_r (Z.of_nat (length pre))), at8_app, Z.add_0_r by lia. change (at8 (0 :: tl) 0) with 0. cbn [Z.eqb].
      rewrite (cons_middle 0 pre tl), app_assoc in Hb |- *.
      replace (Z.of_nat (length pre) + 1) with (Z.of_nat (length (pre ++ [0]))) by (rewrite length_app; simpl; lia).
      apply IH; [done..|lia].
    + apply parse_option; [done..|]. apply IH; [done| |lia]. by rewrite <- app_assoc.
Qed.

(** * Messages sent *)

Lemma add_options_all l out : Z.of_nat (length out + length (concat l)) <= DHCP_MAX_OPTIONS ->
  add_options l out = Some (out ++ concat l).
Proof.
  revert out. induction l as [|x l IH]; intros out Hl; cbn [add_options concat] in *; [by rewrite app_nil_r|].
  rewrite length_app in Hl. destruct (Z.ltb_spec DHCP_MAX_OPTIONS (Z.of_nat (length out + length x))); [lia|].
  rewrite IH, app_assoc; [done|]. rewrite length_app. lia.
Qed.

(** A message of the client in a broadcast frame. *)
Definition dhcp_frame (type : Z) (requested server : option (list Z)) (mac : list Z) (x : Z) (frame : list Z) : Prop :=
  exists h, let body := dhcp_header x mac ++ concat (message_options type mac requested server) in
    let n := 8 + Z.of_nat (length body) in
    frame = eth_frame broadcast_mac mac ETH_TYPE_IPV4
      (h ++ net_bytes16 DHCP_CLIENT_PORT ++ net_bytes16 DHCP_SERVER_PORT ++ net_bytes16 n ++ [0; 0] ++ body) /\
    ip_header_of (20 + n) 0 IPPROTO_UDP zeros [255; 255; 255; 255] h.

Definition opt_addr (a : option (list Z)) : Prop := match a with Some a => addr 4 a | None => True end.

Lemma message_options_length type mac requested server :
  length mac = 6%nat -> opt_addr requested -> opt_addr server ->
  (length (concat (message_options type mac requested server)) <= 39)%nat.
Proof.
  intros Hm Hr Hs. destruct mac as [|m0 [|m1 [|m2 [|m3 [|m4 [|m5 [|]]]]]]]; try done. unfold message_options.
  assert (forall a : list Z, addr 4 a -> exists a0 a1 a2 a3, a = [a0; a1; a2; a3]) as H4.
  { intros a Ha. as_bytes Ha. eauto. }
  destruct requested as [r|]; [destruct (H4 r Hr) as (? & ? & ? & ? & ->)|];
    (destruct server as [a|]; [destruct (H4 a Hs) as (? & ? & ? & ? & ->)|]); destruct (type =? DHCP_REQUEST); simpl; lia.
Qed.

Lemma dhcp_header_length x mac : length mac = 6%nat -> length (dhcp_header x mac) = 240%nat.
Proof. intros Hm. unfold dhcp_header. rewrite !length_app, !length_replicate, Hm. done. Qed.

Lemma send_message_ok type requested server s (Q : unit -> state -> Prop) :
  link_inv (fst s) -> opt_addr requested -> opt_addr server ->
  (forall f, dhcp_frame type requested server (my_mac (fst s)) (xid (snd (snd s))) f ->
     Q tt (put_sent (sent (fst s) ++ [f]) (fst s), snd s)) ->
  wp (send_dhcp_message type requested server) Q s.
Proof.
  intros H Hr Hs HQ. destruct (li_mac _ H) as [Hm Lm]. unfold send_dhcp_message. apply wp_bind, lower_ok, wp_gets.
  rewrite <- surjective_pairing. apply wp_bind, wp_gets.
  pose proof (message_options_length type _ requested server Lm Hr Hs) as Hl.
  rewrite add_options_all by (unfold DHCP_MAX_OPTIONS; cbn [length]; lia). cbn [app]. set (opts := concat _) in *.
  rewrite !u16_small by (rewrite ?u16_small; lia).
  destruct (ip_header_ok (20 + (8 + 240 + Z.of_nat (length opts))) 0 IPPROTO_UDP [0; 0; 0; 0] [255; 255; 255; 255]) as (h & Eh & Hh);
    [lia|lia|done|apply (zeros_addr 4)|split; [repeat constructor; lia|done]|].
  apply wp_bind. eapply wp_lift; [exact Eh|]. apply wp_bind.
  set (x := xid (snd (snd s))) in *. set (mm := my_mac (fst s)) in *.
  set (frame := eth_frame _ _ _ _). assert (in_buffer 1024 frame = Ok frame) as Ef.
  { unfold in_buffer. destruct (Z.ltb_spec 1024 (Z.of_nat (length frame))) as [Hx|]; [|done]. exfalso. revert Hx.
    destruct Hh as (? & ? & -> & _). unfold frame, eth_frame. rewrite !length_app, dhcp_header_length, Lm by done.
    clearbody opts. simpl length. lia. }
  eapply wp_lift; [exact Ef|]. apply lower_ok, wp_modify, HQ. exists h. cbv zeta. fold opts.
  rewrite length_app, dhcp_header_length by done.
  replace (8 + Z.of_nat (240 + length opts)) with (8 + 240 + Z.of_nat (length opts)) by lia. split; [|done].
  unfold frame. by rewrite <- !app_assoc.
Qed.

(** * The client *)

Definition chosen (x : dhcp_state) : bool := match x with DHCP_STATE_INIT | DHCP_STATE_SELECTING => false | _ => true end.
Definition held (x : dhcp_state) : bool :=
  match x with DHCP_STATE_BOUND | DHCP_STATE_RENEWING | DHCP_STATE_REBINDING => true | _ => false end.
Definition offer_addrs (c : offer) : Prop :=
  addr 4 (offered_ip c) /\ addr 4 (server_ip c) /\ addr 4 (mask c) /\ addr 4 (router_ip c) /\ addr 4 (dns_server c).

Record dhcp_inv (s : state) : Prop := mk_dhcp_inv {
  di_link : link_inv (fst s);
  di_addrs : offer_addrs (cfg (snd (snd s)));
  di_lease : 0 <= lease_time (snd (snd s)) < 2 ^ 32;
  di_usable : chosen (st (snd (snd s))) = true -> usable (cfg (snd (snd s)));
  di_held : held (st (snd (snd s))) = true ->
    configured (snd (snd s)) = true /\ 60 <= lease_time (snd (snd s)) <= MAX_DHCP_LEASE_SECONDS }.

Lemma counted_inv s s' : counted s s' -> dhcp_inv s -> dhcp_inv s'.
Proof. intros [E1 E2 E3 E4 E5 E6 E7 E8 E9] []. constructor; rewrite ?E1, ?E3, ?E5, ?E6, ?E9; done. Qed.

(** ** Received messages *)

(** A reply to the last message of the client, with the options [o]. *)
Record reply (p : list Z) (s : state) (o : options) : Prop := mk_reply {
  re_length : sizeof_dhcp_header <= Z.of_nat (length p); re_op : at8 p 0 = DHCP_OP_BOOTREPLY;
  re_xid : be32 p 4 = xid (snd (snd s)); re_cookie : be32 p 236 = DHCP_MAGIC_COOKIE;
  re_options : options_of (drop 240 p) o }.
Definition yiaddr (p : list Z) : list Z := field p 16 4.
Definition offer_of (p : list Z) (o : options) : offer :=
  mk_offer (yiaddr p) (o_server o) (mask_of (yiaddr p) (o_mask o) (mask_present o)) (o_router o) (o_dns o).

Definition takes_offer (p : list Z) (o : options) (s : state) : Prop :=
  reply p s o /\ msg_type o = DHCP_OFFER /\ st (snd (snd s)) = DHCP_STATE_SELECTING /\ usable (offer_of p o).
Definition takes_ack (p : list Z) (o : options) (s : state) : Prop :=
  reply p s o /\ msg_type o = DHCP_ACK /\ requesting (st (snd (snd s))) = true /\
  o_server o = server_ip (cfg (snd (snd s))) /\ yiaddr p = offered_ip (cfg (snd (snd s))).
Definition takes_nak (p : list Z) (o : options) (s : state) : Prop :=
  reply p s o /\ msg_type o = DHCP_NAK /\ requesting (st (snd (snd s))) = true /\
  o_server o = server_ip (cfg (snd (snd s))).

(** One message sent, nothing else below. *)
Definition sends (type : Z) (requested server : option (list Z)) (s s' : state) : Prop :=
  fst (snd s') = fst (snd s) /\ exists f, fst s' = put_sent (sent (fst s) ++ [f]) (fst s) /\
    dhcp_frame type requested server (my_mac (fst s)) (xid (snd (snd s'))) f.

(** What follows each of them. *)
Record offered (p : list Z) (o : options) (s s' : state) : Prop := mk_offered {
  of_st : st (snd (snd s')) = DHCP_STATE_REQUESTING; of_xid : xid (snd (snd s')) = xid (snd (snd s));
  of_cfg : cfg (snd (snd s')) = offer_of p o; of_lease : lease_time (snd (snd s')) = o_lease o;
  of_sends : sends DHCP_REQUEST (Some (yiaddr p)) (Some (o_server o)) s s' }.

Definition clamped (l : Z) : Z := if l <? 60 then 600 else Z.min l MAX_DHCP_LEASE_SECONDS.

Record bound (ticks : Z) (o : options) (s s' : state) : Prop := mk_bound {
  bd_st : st (snd (snd s')) = DHCP_STATE_BOUND; bd_cfg : cfg (snd (snd s')) = cfg (snd (snd s));
  bd_configured : configured (snd (snd s')) = true;
  bd_lease : lease_time (snd (snd s')) = clamped (if o_lease o =? 0 then lease_time (snd (snd s)) else o_lease o);
  bd_start : lease_start (snd (snd s')) = ticks;
  bd_renewal : exists t, let half := 50 * lease_time (snd (snd s')) in
    renewal_time (snd (snd s')) = ticks +32 t /\ half - half / 10 <= t < half + half / 10;
  bd_ip : my_ip (fst s') = offered_ip (cfg (snd (snd s))); bd_mask : subnet_mask (fst s') = mask (cfg (snd (snd s)));
  bd_gateway : gateway_ip (fst s') = router_ip (cfg (snd (snd s))); bd_mac : my_mac (fst s') = my_mac (fst s);
  bd_maps : forall a m, maps (fst s') a m -> maps (fst s) a m;
  bd_requested : requested (fst s') ticks (router_ip (cfg (snd (snd s))));
  bd_filter : filter (fst s') = filter (fst s);
  bd_sent : exists l, sent (fst s') = sent (fst s) ++ l /\ (length l <= 1)%nat;
  bd_dns : fst (snd s') = if decide (dns_server (cfg (snd (snd s))) = zeros) then fst (snd s)
                          else Dns.set_dns_server (dns_server (cfg (snd (snd s)))) (fst (snd s)) }.

Record restarted (random : Z) (s s' : state) : Prop := mk_restarted {
  rs_st : st (snd (snd s')) = DHCP_STATE_SELECTING; rs_cfg : cfg (snd (snd s')) = cfg (snd (snd s));
  rs_xid : xid (snd (snd s')) = generate_xid random; rs_lease : lease_time (snd (snd s')) = lease_time (snd (snd s));
  rs_sends : sends DHCP_DISCOVER None None s s' }.

Lemma start_ok random s (Q : unit -> state -> Prop) :
  link_inv (fst s) -> (forall s', restarted random s s' -> configured (snd (snd s')) = configured (snd (snd s)) -> Q tt s') ->
  wp (dhcp_start random) Q s.
Proof.
  intros H HQ. unfold dhcp_start. apply wp_bind, wp_modify, send_message_ok; [done..|]. intros f Hf. apply HQ; [|done].
  constructor; try done. split; [done|]. by exists f.
Qed.

Lemma handle_offer_ok p o s (Q : unit -> state -> Prop) :
  dhcp_inv s -> addr 4 (yiaddr p) -> options_ok o ->
  (st (snd (snd s)) = DHCP_STATE_SELECTING -> usable (offer_of p o) ->
     forall s', offered p o s s' -> configured (snd (snd s')) = configured (snd (snd s)) -> Q tt s') ->
  (~ (st (snd (snd s)) = DHCP_STATE_SELECTING /\ usable (offer_of p o)) -> forall s', counted s s' -> Q tt s') ->
  wp (handle_offer (yiaddr p) o) Q s.
Proof.
  intros H Hy (_ & Hs & Hm & Hr & Hd & _) HQ Hno. unfold handle_offer. apply wp_bind, wp_gets.
  destruct (st (snd (snd s))) eqn:Est; try (apply wp_ret, Hno; [by intros [? _]|apply counted_refl]).
  pose proof (offer_valid (yiaddr p) (o_server o) (o_mask o) (mask_present o) (o_router o) (o_dns o) Hy Hs Hm Hr Hd) as Hv.
  destruct (dhcp_offer_is_valid _ _ _ _ _ _) as [m|].
  - destruct Hv as [-> Hu]. apply wp_bind, wp_modify, wp_bind, wp_gets. cbn.
    apply send_message_ok; [apply H|done..|]. intros f Hf. apply HQ; [done|done| |done]. constructor; try done.
    split; [done|]. by exists f.
  - apply dhcp_bump_ok. intros s' Hs'. apply Hno; [|done]. by intros [_ Hu].
Qed.

Lemma handle_nak_ok random o s (Q : unit -> state -> Prop) :
  dhcp_inv s -> options_ok o ->
  (requesting (st (snd (snd s))) = true -> o_server o = server_ip (cfg (snd (snd s))) ->
     forall s', restarted random s s' -> Q tt s') ->
  (~ (requesting (st (snd (snd s))) = true /\ o_server o = server_ip (cfg (snd (snd s)))) -> forall s', counted s s' -> Q tt s') ->
  wp (handle_nak random o) Q s.
Proof.
  intros H (_ & Hs & _) HQ Hno. unfold handle_nak. apply wp_bind, wp_gets, wp_bind, wp_gets.
  destruct (requesting (st (snd (snd s)))) eqn:Er; cbn [andb].
  2:{ apply dhcp_bump_ok. intros s' Hs'. apply Hno; [by intros [? _]|done]. }
  assert (usable (cfg (snd (snd s)))) as Hu by (apply H; by destruct (st (snd (snd s)))).
  destruct (same (o_server o) (server_ip (cfg (snd (snd s))))) eqn:Es.
  - apply same_eq in Es. destruct (dhcp_ip_is_zero (o_server o)) eqn:Ez.
    { apply zero_iff in Ez; [|done]. destruct Hu as [Hx _ _ _]. congruence. }
    cbn [andb negb]. apply wp_bind, dhcp_bump_ok. intros s1 C1. apply wp_bind, wp_modify, start_ok.
    + simpl. rewrite (ct_link _ _ C1). apply H.
    + intros s' [R1 R2 R3 R4 [R5 (f & R6 & R7)]] _. apply HQ; [done..|]. simpl in *. destruct C1 as [E1 E2 E3 E4 E5 E6 E7 E8 E9].
      constructor; [done|congruence|done|congruence|]. rewrite E1 in R6, R7. split; [congruence|]. by exists f.
  - rewrite andb_false_r. apply dhcp_bump_ok. intros s' Hs'. apply Hno; [|done]. intros [_ Hx]. apply same_eq in Hx. congruence.
Qed.

Definition with_lease (l : Z) (s : state) : state := (fst s, (fst (snd s), put_lease l (snd (snd s)))).

Lemma with_lease_put l v s s1 (Q : unit -> state -> Prop) :
  counted (with_lease l s) s1 -> (forall s2, counted (with_lease v s) s2 -> Q tt s2) -> wp (on_client (put_lease v)) Q s1.
Proof. intros [] HQ. apply wp_modify, HQ. by constructor. Qed.

Lemma clamp_lease_ok l s (Q : unit -> state -> Prop) :
  (forall s', counted (with_lease (clamped (if l =? 0 then lease_time (snd (snd s)) else l)) s) s' -> Q tt s') ->
  wp (clamp_lease l) Q s.
Proof.
  intros HQ. unfold clamp_lease. set (v := if l =? 0 then lease_time (snd (snd s)) else l) in *.
  apply wp_bind. apply wp_mono with (fun _ => counted (with_lease v s)).
  { unfold v. destruct (l =? 0); cbn [negb].
    - apply wp_ret. destruct s as [? [? []]]. by constructor.
    - apply (with_lease_put (lease_time (snd (snd s))) l s); [|done]. destruct s as [? [? []]]. by constructor. }
  intros [] s1 C1. apply wp_bind, wp_gets. pose proof (ct_lease _ _ C1) as E1. rewrite E1. cbn [with_lease put_lease lease_time snd].
  unfold clamped in HQ. destruct (Z.ltb_spec v 60) as [Hv|Hv].
  - apply wp_bind, wp_bind, dhcp_bump_ok. intros s2 C2. pose proof (counted_trans _ _ _ C1 C2) as C12.
    apply (with_lease_put v 600 s); [done|]. intros s3 C3. apply wp_bind, wp_gets. pose proof (ct_lease _ _ C3) as E3. rewrite E3.
    by apply wp_ret, HQ.
  - apply wp_bind, wp_ret, wp_bind, wp_gets. rewrite E1. cbn [with_lease put_lease lease_time snd].
    destruct (Z.ltb_spec MAX_DHCP_LEASE_SECONDS v).
    + apply wp_bind, dhcp_bump_ok. intros s2 C2. pose proof (counted_trans _ _ _ C1 C2) as C12.
      apply (with_lease_put v MAX_DHCP_LEASE_SECONDS s); [done|]. intros s3 C3. apply HQ. by rewrite Z.min_r by lia.
    + apply wp_ret, HQ. by rewrite Z.min_l by lia.
Qed.

Lemma clamped_range l : 60 <= clamped l <= MAX_DHCP_LEASE_SECONDS.
Proof. unfold clamped, MAX_DHCP_LEASE_SECONDS. destruct (Z.ltb_spec l 60); lia. Qed.

Lemma t1_ok l random s (Q : Z -> state -> Prop) :
  60 <= l <= MAX_DHCP_LEASE_SECONDS -> (forall t, 50 * l - 50 * l / 10 <= t < 50 * l + 50 * l / 10 -> Q t s) ->
  wp (t1_jittered l random) Q s.
Proof.
  intros Hl HQ. unfold t1_jittered, MAX_DHCP_LEASE_SECONDS in *. cbv zeta. rewrite (u32_small (l * 100)) by lia.
  replace (l * 100 / 2) with (50 * l) by (Z.to_euclidean_division_equations; lia).
  rewrite (u32_small (2 * _)) by (Z.to_euclidean_division_equations; lia).
  assert (0 < 50 * l / 10 < 50 * l) as Hj by (Z.to_euclidean_division_equations; lia).
  destruct (Z.eqb_spec (50 * l / 10) 0); [lia|]. destruct (Z.eqb_spec (2 * (50 * l / 10)) 0); [lia|]. apply wp_ret, HQ.
  pose proof (Z.mod_pos_bound (u32 random) (2 * (50 * l / 10)) ltac:(lia)) as Hm. set (r := u32 random mod _) in *. clearbody r.
  rewrite (u32_small (50 * l - 50 * l / 10)) by lia. rewrite u32_small by lia. lia.
Qed.

Lemma set_config_ok i m g s (Q : unit -> link -> Prop) :
  link_inv s -> addr 4 i -> (link_inv (put_config i m g s) -> Q tt (put_config i m g s)) ->
  wp (set_network_config (Some i) (Some m) (Some g)) Q s.
Proof. intros [] Hi HQ. apply wp_modify, HQ. by constructor. Qed.

(** The end of [handle_ack]: addresses, gateway, name server. *)
Record applied (ticks : Z) (c : offer) (s s' : state) : Prop := mk_applied {
  ap_inv : link_inv (fst s'); ap_client : snd (snd s') = snd (snd s); ap_ip : my_ip (fst s') = offered_ip c;
  ap_mask : subnet_mask (fst s') = mask c; ap_gateway : gateway_ip (fst s') = router_ip c;
  ap_mac : my_mac (fst s') = my_mac (fst s); ap_maps : forall a m, maps (fst s') a m -> maps (fst s) a m;
  ap_requested : requested (fst s') ticks (router_ip c); ap_filter : filter (fst s') = filter (fst s);
  ap_sent : exists l, sent (fst s') = sent (fst s) ++ l /\ (length l <= 1)%nat;
  ap_dns : fst (snd s') = if decide (dns_server c = zeros) then fst (snd s) else Dns.set_dns_server (dns_server c) (fst (snd s)) }.

Lemma apply_ok ticks c s (Q : unit -> state -> Prop) :
  link_inv (fst s) -> 0 <= ticks < 2 ^ 32 -> offer_addrs c -> (forall s', applied ticks c s s' -> Q tt s') ->
  wp (lower (set_network_config (Some (offered_ip c)) (Some (mask c)) (Some (router_ip c))) ;;;
      lower (send_arp_request ticks (router_ip c)) ;;;
      if negb (dhcp_ip_is_zero (dns_server c))
      then modify (fun s => (fst s, (Dns.set_dns_server (dns_server c) (fst (snd s)), snd (snd s))))
      else ret tt) Q s.
Proof.
  intros H Ht (Hi & _ & _ & _ & Hd) HQ. apply wp_bind, lower_ok, set_config_ok; [done..|]. intros H1.
  apply wp_bind, lower_ok, send_arp_request_ok; [done..|]. intros l Ho Hrq Hf Hs. cbn [fst snd].
  pose proof (os_config _ _ Ho) as [C1 C2 C3 C4]. simpl in Hf, Hs, C1, C2, C3, C4.
  destruct (dhcp_ip_is_zero (dns_server c)) eqn:Ez; cbn [negb].
  - apply zero_iff in Ez; [|done]. apply wp_ret, HQ. constructor; simpl; try done; [apply Ho|apply (os_maps _ _ Ho)|].
    by rewrite decide_True.
  - apply wp_modify, HQ. constructor; simpl; try done; [apply Ho|apply (os_maps _ _ Ho)|].
    rewrite decide_False; [done|]. intros Hx. apply zero_iff in Hx; [congruence|done].
Qed.

Lemma handle_ack_ok ticks random p o s (Q : unit -> state -> Prop) :
  dhcp_inv s -> 0 <= ticks < 2 ^ 32 -> addr 4 (yiaddr p) -> options_ok o ->
  (requesting (st (snd (snd s))) = true -> o_server o = server_ip (cfg (snd (snd s))) ->
   yiaddr p = offered_ip (cfg (snd (snd s))) -> forall s', link_inv (fst s') -> bound ticks o s s' -> Q tt s') ->
  (~ (requesting (st (snd (snd s))) = true /\ o_server o = server_ip (cfg (snd (snd s))) /\
      yiaddr p = offered_ip (cfg (snd (snd s)))) -> forall s', counted s s' -> Q tt s') ->
  wp (handle_ack ticks random (yiaddr p) o) Q s.
Proof.
  intros H Ht Hy (_ & Hs & _) HQ Hno. unfold handle_ack. apply wp_bind, wp_gets.
  destruct (requesting (st (snd (snd s)))) eqn:Er; cbn [negb].
  2:{ apply wp_ret, Hno; [by intros (? & _)|apply counted_refl]. }
  assert (usable (cfg (snd (snd s)))) as Hu by (apply H; by destruct (st (snd (snd s)))).
  apply wp_bind, wp_gets. destruct (dhcp_ip_is_zero (o_server o)) eqn:Ez; cbn [orb].
  { apply zero_iff in Ez; [|done]. apply dhcp_bump_ok. intros s' Hs'. apply Hno; [|done]. intros (_ & Hx & _). destruct Hu. congruence. }
  destruct (same (o_server o) (server_ip (cfg (snd (snd s))))) eqn:Es; cbn [negb].
  2:{ apply dhcp_bump_ok. intros s' Hs'. apply Hno; [|done]. intros (_ & Hx & _). apply same_eq in Hx. congruence. }
  destruct (same (yiaddr p) (offered_ip (cfg (snd (snd s))))) eqn:Ey; cbn [negb].
  2:{ apply dhcp_bump_ok. intros s' Hs'. apply Hno; [|done]. intros (_ & _ & Hx). apply same_eq in Hx. congruence. }
  apply same_eq in Es. apply same_eq in Ey. apply wp_bind, clamp_lease_ok. intros s1 C1.
  pose proof (clamped_range (if o_lease o =? 0 then lease_time (snd (snd s)) else o_lease o)) as Hl.
  remember (clamped _) as l eqn:El in C1, Hl.
  apply wp_bind, wp_modify, wp_bind, wp_gets. cbn [fst snd put_times put_configured put_st lease_time].
  rewrite (ct_lease _ _ C1). cbn [with_lease put_lease lease_time snd].
  apply wp_bind, t1_ok; [done|]. intros t Hr. apply wp_bind, wp_modify, wp_bind, wp_gets.
  cbn [fst snd put_times put_configured put_st cfg lease_start]. destruct C1 as [E1 E2 E3 E4 E5 E6 E7 E8 E9].
  cbn [with_lease fst snd put_lease st xid cfg lease_time lease_start renewal_time configured] in *.
  rewrite E5, Ey. apply apply_ok; [simpl; rewrite E1; apply H|done|apply H|].
  intros s' [A1 A2 A3 A4 A5 A6 A7 A8 A9 A10 A11]. cbn [fst snd] in *. rewrite E1, ?E2 in *.
  apply HQ; [done..|]. constructor; rewrite ?A2; cbn; try done; [by rewrite E6|].
  exists t. by rewrite E6.
Qed.

(** Counting in front changes nothing of this. *)
Section Counted.
Context (s s1 s' : state) (C : counted s s1).

Lemma sends_counted type r v : sends type r v s1 s' -> sends type r v s s'.
Proof. destruct C as [E1 E2 _ _ _ _ _ _ _]. unfold sends. by rewrite E1, E2. Qed.
Lemma offered_counted p o : offered p o s1 s' -> offered p o s s'.
Proof. destruct C. intros []. constructor; [congruence..|by apply sends_counted]. Qed.
Lemma restarted_counted random : restarted random s1 s' -> restarted random s s'.
Proof. destruct C. intros []. constructor; [congruence..|by apply sends_counted]. Qed.
Lemma bound_counted ticks o : bound ticks o s1 s' -> bound ticks o s s'.
Proof.
  destruct C as [E1 E2 E3 E4 E5 E6 E7 E8 E9]. intros [].
  constructor; rewrite <- ?E1, <- ?E2, <- ?E5, <- ?E6; done.
Qed.
End Counted.

Lemma put_sent_inv l s : link_inv s -> link_inv (put_sent l s).
Proof. intros []. by constructor. Qed.
Lemma sends_inv type r v s s' : sends type r v s s' -> link_inv (fst s) -> link_inv (fst s').
Proof. intros (_ & f & -> & _). apply put_sent_inv. Qed.

Lemma mask_of_addr y m present : addr 4 m -> addr 4 (mask_of y m present).
Proof. intros Hm. destruct present; [done|apply classful_prefix]. Qed.

Lemma offered_inv p o s s' : dhcp_inv s -> addr 4 (yiaddr p) -> options_ok o -> usable (offer_of p o) ->
  offered p o s s' -> dhcp_inv s'.
Proof.
  intros [] Hy (_ & H1 & H2 & H3 & H4 & H5) Hu [E1 E2 E3 E4 E5].
  constructor; rewrite ?E1, ?E3, ?E4; try done; [by eapply sends_inv|].
  do 2 (split; [done|]). split; [by apply mask_of_addr|done].
Qed.
Lemma bound_inv ticks o s s' : dhcp_inv s -> requesting (st (snd (snd s))) = true -> link_inv (fst s') -> bound ticks o s s' -> dhcp_inv s'.
Proof.
  intros [] Hr Hl B. pose proof (bd_lease _ _ _ _ B) as E. destruct B as [B1 B2 B3 _ _ _ _ _ _ _ _ _ _ _ _].
  pose proof (clamped_range (if o_lease o =? 0 then lease_time (snd (snd s)) else o_lease o)) as Hc. rewrite <- E in Hc.
  unfold MAX_DHCP_LEASE_SECONDS in *. constructor; rewrite ?B1, ?B2; try done; [lia|]. intros _. apply di_usable0. by destruct (st _).
Qed.
Lemma restarted_inv random s s' : dhcp_inv s -> restarted random s s' -> dhcp_inv s'.
Proof. intros [] [E1 E2 E3 E4 E5]. constructor; rewrite ?E1, ?E2, ?E4; try done. by eapply sends_inv. Qed.

(** Every message has one of these effects. *)
Record handled (ticks random : Z) (p : list Z) (s s' : state) : Prop := mk_handled {
  hd_inv : dhcp_inv s';
  hd_offer : forall o, takes_offer p o s -> offered p o s s';
  hd_ack : forall o, takes_ack p o s -> bound ticks o s s';
  hd_nak : forall o, takes_nak p o s -> restarted random s s';
  hd_else : (exists o, takes_offer p o s \/ takes_ack p o s \/ takes_nak p o s) \/ counted s s' }.

Lemma ignored_handled ticks random p s s' :
  dhcp_inv s -> counted s s' -> (forall o, ~ reply p s o) -> handled ticks random p s s'.
Proof.
  intros H C Hno. constructor; [by eapply counted_inv|..|by right].
  - intros o [Hr _]. by destruct (Hno o).
  - intros o [Hr _]. by destruct (Hno o).
  - intros o [Hr _]. by destruct (Hno o).
Qed.

(** A reply whose type decides between the three. *)
Lemma type_handled ticks random p o s s' : reply p s o -> dhcp_inv s' ->
  (takes_offer p o s -> offered p o s s') -> (takes_ack p o s -> bound ticks o s s') ->
  (takes_nak p o s -> restarted random s s') ->
  (takes_offer p o s \/ takes_ack p o s \/ takes_nak p o s) \/ counted s s' -> handled ticks random p s s'.
Proof.
  intros Hr H H1 H2 H3 H4. assert (forall o', reply p s o' -> o' = o) as Hu.
  { intros o' Hr'. apply (options_of_unique (drop 240 p) o' o s); [apply Hr'|apply Hr]. }
  constructor; [done|..].
  - intros o' Ht. assert (o' = o) as -> by apply Hu, Ht. by apply H1.
  - intros o' Ht. assert (o' = o) as -> by apply Hu, Ht. by apply H2.
  - intros o' Ht. assert (o' = o) as -> by apply Hu, Ht. by apply H3.
  - destruct H4 as [?|?]; [left; by exists o|by right].
Qed.

Section Replies.
Context (ticks random : Z) (p : list Z) (o : options) (s s1 : state) (Q : unit -> state -> Prop).
Context (H : dhcp_inv s) (C : counted s s1) (Ho : options_ok o) (Hy : addr 4 (yiaddr p)) (Hr : reply p s o).
Context (HQ : forall s', handled ticks random p s s' -> Q tt s').

Lemma offer_reply_ok : msg_type o = DHCP_OFFER -> wp (handle_offer (yiaddr p) o) Q s1.
Proof.
  intros Et. pose proof (ct_st _ _ C) as Es. assert (~ takes_ack p o s) as Ha by (intros (_ & Hx & _); by rewrite Et in Hx).
  assert (~ takes_nak p o s) as Hn by (intros (_ & Hx & _); by rewrite Et in Hx).
  apply handle_offer_ok; [by eapply counted_inv|done..| |].
  - rewrite Es. intros Hst Hu s' Hof _. apply HQ. pose proof (offered_counted _ _ _ C _ _ Hof) as Hof'.
    apply (type_handled _ _ _ o); [done|by eapply offered_inv|done..|left; left; done].
  - rewrite Es. intros Hno s' C'. apply HQ. pose proof (counted_trans _ _ _ C C').
    apply (type_handled _ _ _ o); [done|by eapply counted_inv| |done|done|by right].
    intros (_ & _ & Hx & Hx'). by destruct Hno.
Qed.

Lemma ack_reply_ok : 0 <= ticks < 2 ^ 32 -> msg_type o = DHCP_ACK -> wp (handle_ack ticks random (yiaddr p) o) Q s1.
Proof.
  intros Ht Et. pose proof (ct_st _ _ C) as Es. pose proof (ct_cfg _ _ C) as Ec.
  assert (~ takes_offer p o s) as Ha by (intros (_ & Hx & _); by rewrite Et in Hx).
  assert (~ takes_nak p o s) as Hn by (intros (_ & Hx & _); by rewrite Et in Hx).
  apply handle_ack_ok; [by eapply counted_inv|done..| |].
  - rewrite Es, Ec. intros Hst Hsv Hyi s' Hl Hb. apply HQ. pose proof (bound_counted _ _ _ C _ _ Hb) as Hb'.
    apply (type_handled _ _ _ o); [done|by eapply bound_inv|done..|left; right; left; done].
  - rewrite Es, Ec. intros Hno s' C'. apply HQ. pose proof (counted_trans _ _ _ C C').
    apply (type_handled _ _ _ o); [done|by eapply counted_inv|done| |done|by right].
    intros (_ & _ & Hx). by destruct Hno.
Qed.

Lemma nak_reply_ok : msg_type o = DHCP_NAK -> wp (handle_nak random o) Q s1.
Proof.
  intros Et. pose proof (ct_st _ _ C) as Es. pose proof (ct_cfg _ _ C) as Ec.
  assert (~ takes_offer p o s) as Ha by (intros (_ & Hx & _); by rewrite Et in Hx).
  assert (~ takes_ack p o s) as Hn by (intros (_ & Hx & _); by rewrite Et in Hx).
  apply handle_nak_ok; [by eapply counted_inv|done..| |].
  - rewrite Es, Ec. intros Hst Hsv s' Hb. apply HQ. pose proof (restarted_counted _ _ _ C _ Hb) as Hb'.
    apply (type_handled _ _ _ o); [done|by eapply restarted_inv|done..|left; right; right; done].
  - rewrite Es, Ec. intros Hno s' C'. apply HQ. pose proof (counted_trans _ _ _ C C').
    apply (type_handled _ _ _ o); [done|by eapply counted_inv|done|done| |by right].
    intros (_ & _ & Hx). by destruct Hno.
Qed.
End Replies.

Lemma handle_dhcp_ok ticks random p s (Q : unit -> state -> Prop) :
  dhcp_inv s -> bytes p -> 0 <= ticks < 2 ^ 32 -> (forall s', handled ticks random p s s' -> Q tt s') ->
  wp (handle_dhcp ticks random p) Q s.
Proof.
  intros H Hp Ht HQ. unfold handle_dhcp, sizeof_dhcp_header.
  destruct (Z.ltb_spec (Z.of_nat (length p)) 240) as [Hl|Hl].
  { apply dhcp_bump_ok. intros s' C. apply HQ, ignored_handled; [done..|]. intros o [Hx _ _ _ _]. unfold sizeof_dhcp_header in Hx. lia. }
  apply wp_bind, load8_ok; [lia|]. destruct (Z.eqb_spec (at8 p 0) DHCP_OP_BOOTREPLY) as [Eop|Eop]; cbn [negb].
  2:{ apply wp_ret, HQ, ignored_handled; [done|apply counted_refl|]. by intros o [_ Hx _ _ _]. }
  apply wp_bind, net32_ok; [done|lia..|]. apply wp_bind, wp_gets.
  destruct (Z.eqb_spec (be32 p 4) (xid (snd (snd s)))) as [Ex|Ex]; cbn [negb].
  2:{ apply wp_ret, HQ, ignored_handled; [done|apply counted_refl|]. by intros o [_ _ Hx _ _]. }
  apply wp_bind, dhcp_bump_ok. intros s1 C1. apply wp_bind, net32_ok; [done|lia..|].
  destruct (Z.eqb_spec (be32 p 236) DHCP_MAGIC_COOKIE) as [Ec|Ec]; cbn [negb].
  2:{ apply dhcp_bump_ok. intros s2 C2. apply HQ, ignored_handled; [done|by eapply counted_trans|]. by intros o [_ _ _ Hx _]. }
  change (Z.to_nat 240) with 240%nat. destruct (parse_ok (drop 240 p)) as (o & Ho & Hof & Hw); [by apply Forall_drop|].
  apply wp_bind, Hw. intros s2 C2. pose proof (counted_trans _ _ _ C1 C2) as C. fold (yiaddr p).
  assert (reply p s o) as Hr by done. assert (addr 4 (yiaddr p)) as Hy by (split; [by apply field_bytes|apply field_length; lia]).
  destruct (Z.eqb_spec (msg_type o) DHCP_OFFER) as [Eo|Eo]; [by eapply offer_reply_ok|].
  destruct (Z.eqb_spec (msg_type o) DHCP_ACK) as [Ea|Ea]; [by eapply ack_reply_ok|].
  destruct (Z.eqb_spec (msg_type o) DHCP_NAK) as [En|En]; [by eapply nak_reply_ok|].
  apply wp_ret, HQ, (type_handled _ _ _ o); [done|by eapply counted_inv|..|by right]; intros (_ & Hx & _); congruence.
Qed.

(** ** Timers *)

(** The next state, with a new transaction. *)
Definition moves (x : dhcp_state) (random : Z) (s s' : state) : Prop :=
  st (snd (snd s')) = x /\ xid (snd (snd s')) = generate_xid random /\ cfg (snd (snd s')) = cfg (snd (snd s)) /\
  lease_time (snd (snd s')) = lease_time (snd (snd s)) /\ lease_start (snd (snd s')) = lease_start (snd (snd s)) /\
  configured (snd (snd s')) = configured (snd (snd s)).

Inductive ticked (ticks random : Z) (s s' : state) : Prop :=
| tick_nothing : s' = s -> ticked ticks random s s'
| tick_renew : st (snd (snd s)) = DHCP_STATE_BOUND -> renewal_time (snd (snd s)) <= ticks ->
    moves DHCP_STATE_RENEWING random s s' ->
    sends DHCP_REQUEST (Some (offered_ip (cfg (snd (snd s))))) (Some (server_ip (cfg (snd (snd s))))) s s' ->
    ticked ticks random s s'
| tick_rebind : st (snd (snd s)) = DHCP_STATE_RENEWING ->
    lease_start (snd (snd s)) +32 (lease_time (snd (snd s)) * 700 / 8) <= ticks ->
    moves DHCP_STATE_REBINDING random s s' ->
    sends DHCP_REQUEST (Some (offered_ip (cfg (snd (snd s))))) None s s' -> ticked ticks random s s'
| tick_expire : st (snd (snd s)) = DHCP_STATE_REBINDING ->
    lease_start (snd (snd s)) +32 (lease_time (snd (snd s)) * 100) <= ticks ->
    restarted random s s' -> configured (snd (snd s')) = false -> ticked ticks random s s'.

Lemma dhcp_tick_ok ticks random s (Q : unit -> state -> Prop) :
  dhcp_inv s -> (forall s', dhcp_inv s' -> ticked ticks random s s' -> Q tt s') -> wp (dhcp_tick ticks random) Q s.
Proof.
  intros H HQ. unfold dhcp_tick. assert (Q tt s) as Hnop by (apply HQ; [done|by constructor]).
  apply wp_bind, wp_gets. destruct (configured (snd (snd s))) eqn:Ec; cbn [negb]; [|by apply wp_ret].
  apply wp_bind, wp_gets. pose proof H as [Hl (A1 & A2 & A3 & A4 & A5) Hls Hu Hh].
  destruct (st (snd (snd s))) eqn:Est; try (by apply wp_ret); (destruct Hh as [_ Hr]; [done|]; unfold MAX_DHCP_LEASE_SECONDS in Hr).
  - apply wp_bind, wp_gets. destruct (Z.leb_spec (renewal_time (snd (snd s))) ticks); [|by apply wp_ret].
    apply wp_bind, wp_modify, wp_bind, wp_gets. cbn. apply send_message_ok; [done..|]. intros f Hf. apply HQ.
    + constructor; simpl; try done. by apply put_sent_inv.
    + apply tick_renew; [done..|split; [done|by exists f]].
  - apply wp_bind, wp_gets, wp_bind, wp_gets. cbv zeta. rewrite (u32_small (lease_time _ * 100)) by lia. rewrite (u32_small (_ * 7)) by lia.
    replace (lease_time (snd (snd s)) * 100 * 7) with (lease_time (snd (snd s)) * 700) by lia.
    destruct (Z.leb_spec (lease_start (snd (snd s)) +32 lease_time (snd (snd s)) * 700 / 8) ticks); [|by apply wp_ret].
    apply wp_bind, wp_modify, wp_bind, wp_gets. cbn. apply send_message_ok; [done..|]. intros f Hf. apply HQ.
    + constructor; simpl; try done. by apply put_sent_inv.
    + apply tick_rebind; [done..|split; [done|by exists f]].
  - apply wp_bind, wp_gets, wp_bind, wp_gets. cbv zeta. rewrite (u32_small (lease_time _ * 100)) by lia.
    destruct (Z.leb_spec (lease_start (snd (snd s)) +32 lease_time (snd (snd s)) * 100) ticks); [|by apply wp_ret].
    apply wp_bind, wp_modify, start_ok; [done|]. intros s' Hs Hcf. simpl in Hcf.
    assert (restarted random s s') as Hs' by (by destruct Hs; constructor).
    apply HQ; [by eapply restarted_inv|by apply tick_expire].
Qed.

(** * Histories *)

Inductive event := Datagram (ticks random : Z) (p : list Z) | Tick (ticks random : Z).
Definition event_ok (e : event) : Prop :=
  match e with Datagram ticks _ p => bytes p /\ 0 <= ticks < 2 ^ 32 | Tick _ _ => True end.
Fixpoint run (l : list event) : M state unit :=
  match l with
  | [] => ret tt
  | Datagram ticks random p :: l' => handle_dhcp ticks random p ;;; run l'
  | Tick ticks random :: l' => dhcp_tick ticks random ;;; run l'
  end.

(** The host has the addresses of [c]. *)
Definition uses (l : link) (c : offer) : Prop :=
  my_ip l = offered_ip c /\ subnet_mask l = mask c /\ gateway_ip l = router_ip c.
Definition agrees (s : state) : Prop := held (st (snd (snd s))) = true -> uses (fst s) (cfg (snd (snd s))).

(** What one event may do to the addresses of the host and to the cache. *)
Record tame (s s' : state) : Prop := mk_tame {
  ta_inv : dhcp_inv s'; ta_agrees : agrees s -> agrees s';
  ta_config : same_config (fst s) (fst s') \/ exists c, usable c /\ uses (fst s') c /\ my_mac (fst s') = my_mac (fst s);
  ta_maps : forall a m, maps (fst s') a m -> maps (fst s) a m;
  ta_filter : filter (fst s') = filter (fst s) }.

Lemma tame_same s s' : dhcp_inv s' -> (agrees s -> agrees s') -> (exists l, fst s' = put_sent l (fst s)) -> tame s s'.
Proof. intros H Ha [l E]. constructor; try done; rewrite E; [by left|done|done]. Qed.

Lemma sends_put_sent type r v s s' : sends type r v s s' -> exists l, fst s' = put_sent l (fst s).
Proof. intros (_ & f & E & _). eauto. Qed.

Lemma restarted_tame random s s' : dhcp_inv s -> restarted random s s' -> tame s s'.
Proof.
  intros H R. apply tame_same; [by eapply restarted_inv| |eapply sends_put_sent, R].
  intros _. unfold agrees. by rewrite (rs_st _ _ _ R).
Qed.

Lemma handled_tame ticks random p s s' : dhcp_inv s -> handled ticks random p s s' -> tame s s'.
Proof.
  intros H [Hi Ho Ha Hn He]. destruct He as [(o & [Ht|[Ht|Ht]])|C].
  - apply Ho in Ht as O. apply tame_same; [done| |eapply sends_put_sent, O]. intros _. unfold agrees. by rewrite (of_st _ _ _ _ O).
  - apply Ha in Ht as B. destruct Ht as (_ & _ & Hr & _). assert (usable (cfg (snd (snd s)))) as Hu.
    { apply H. by destruct (st (snd (snd s))). }
    assert (uses (fst s') (cfg (snd (snd s)))) as Hus by (destruct B; done). pose proof (bd_mac _ _ _ _ B).
    constructor; [done| |right; by exists (cfg (snd (snd s)))|apply B|apply B].
    intros _ _. by rewrite (bd_cfg _ _ _ _ B).
  - by eapply restarted_tame, Hn.
  - destruct C as [E1 E2 E3 E4 E5 E6 E7 E8 E9]. apply tame_same; [done| |exists (sent (fst s)); rewrite E1; by destruct (fst s)].
    unfold agrees. by rewrite E1, E3, E5.
Qed.

Lemma ticked_tame ticks random s s' : dhcp_inv s -> dhcp_inv s' -> ticked ticks random s s' -> tame s s'.
Proof.
  assert (forall x type r v, held (st (snd (snd s))) = true -> moves x random s s' -> sends type r v s s' -> dhcp_inv s' -> tame s s') as Hmv.
  { intros x type r v Hh (M1 & M2 & M3 & M4 & M5 & M6) Hs Hi. apply sends_put_sent in Hs as [l E]. apply tame_same; [done| |eauto].
    intros Ha _. specialize (Ha Hh). by rewrite E, M3. }
  intros H Hi [->|E _ M S|E _ M S|E _ R _].
  - apply tame_same; [done..|]. exists (sent (fst s)). by destruct (fst s).
  - eapply Hmv; [by rewrite E|done..].
  - eapply Hmv; [by rewrite E|done..].
  - by eapply restarted_tame.
Qed.

Lemma tame_trans s1 s2 s3 : tame s1 s2 -> tame s2 s3 -> tame s1 s3.
Proof.
  intros [I1 A1 C1 M1 F1] [I2 A2 C2 M2 F2]. constructor; [done|auto| |auto|congruence].
  destruct C2 as [[K1 K2 K3 K4]|(c & Hu & Hc & Em)].
  - destruct C1 as [[L1 L2 L3 L4]|(c & Hu & (L1 & L2 & L3) & Em)]; [left; constructor; congruence|right].
    exists c. split; [done|]. split; [|congruence]. split_and!; congruence.
  - right. exists c. split; [done|]. split; [done|]. destruct C1 as [[L1 L2 L3 L4]|(c1 & _ & _ & Em1)]; congruence.
Qed.

Lemma run_ok l s (Q : unit -> state -> Prop) :
  dhcp_inv s -> Forall event_ok l -> (forall s', tame s s' -> Q tt s') -> wp (run l) Q s.
Proof.
  revert s Q. induction l as [|e l IH]; intros s Q H Hl HQ.
  - apply wp_ret, HQ, tame_same; [done..|]. exists (sent (fst s)). by destruct (fst s).
  - apply Forall_cons in Hl as [He Hl]. destruct e as [ticks random p|ticks random]; cbn [run].
    + destruct He as [Hp Ht]. apply wp_bind, handle_dhcp_ok; [done..|]. intros s1 H1. apply (handled_tame _ _ _ _ _ H) in H1.
      apply IH; [apply H1|done|]. intros s2 H2. apply HQ. by eapply tame_trans.
    + apply wp_bind, dhcp_tick_ok; [done..|]. intros s1 Hi H1. apply (ticked_tame _ _ _ _ H Hi) in H1.
      apply IH; [apply H1|done|]. intros s2 H2. apply HQ. by eapply tame_trans.
Qed.

(** * A server *)

(** A reply with the options [items]. *)
Definition server_message (x : Z) (y : list Z) (items : list item) : list Z :=
  [DHCP_OP_BOOTREPLY; DHCP_HTYPE_ETHERNET; DHCP_HLEN_ETHERNET; 0] ++ net_bytes32 x ++ replicate 8 0 ++ y ++ replicate 216 0 ++
  net_bytes32 DHCP_MAGIC_COOKIE ++ concat (map encode items) ++ [DHCP_OPTION_END].
Definition lease_items (type : Z) (c : offer) (lease : Z) : list item :=
  [Opt DHCP_OPTION_MESSAGE_TYPE [type]; Opt DHCP_OPTION_SERVER_ID (server_ip c); Opt DHCP_OPTION_SUBNET_MASK (mask c);
   Opt DHCP_OPTION_ROUTER (router_ip c); Opt DHCP_OPTION_DNS_SERVER (dns_server c); Opt DHCP_OPTION_LEASE_TIME (net_bytes32 lease)].

Lemma word_net_bytes v : 0 <= v < 4294967296 -> word (net_bytes32 v) = v.
Proof. intros Hv. rewrite net_bytes32_eq, word_eq by done. Z.to_euclidean_division_equations; lia. Qed.

Lemma encode_bytes items : Forall item_ok items -> bytes (concat (map encode items)).
Proof.
  induction 1 as [|x l Hx _ IH]; [constructor|]. cbn [map concat]. apply Forall_app. split; [|done].
  destruct x as [|tag data]; [repeat constructor; lia|]. destruct Hx as (H1 & H2 & H3). repeat (constructor; [lia|]). done.
Qed.

Lemma options_of_encoded items rest : Forall item_ok items -> bytes rest -> (length items < 512)%nat ->
  options_of (concat (map encode items) ++ DHCP_OPTION_END :: rest) (fold_left apply_item items no_options).
Proof.
  intros Hi Hr Hl s. pose proof (parse_encoded items MAX_DHCP_OPTION_ITERATIONS [] rest no_options s) as Hp. cbn [app length] in Hp.
  eapply wp_mono; [apply Hp; [done| |exact Hl]|by intros ? ? [-> _]].
  apply Forall_app. split; [by apply encode_bytes|]. constructor; [unfold DHCP_OPTION_END; lia|done].
Qed.

Section Server.
Context (x : Z) (y : list Z) (items : list item).
Context (Hx : 0 <= x < 4294967296) (Hy : addr 4 y) (Hi : Forall item_ok items) (Hl : (length items < 512)%nat).
Let pre := [DHCP_OP_BOOTREPLY; DHCP_HTYPE_ETHERNET; DHCP_HLEN_ETHERNET; 0] ++ net_bytes32 x ++ replicate 8 0.
Let opts := concat (map encode items) ++ [DHCP_OPTION_END].

Lemma message_split : server_message x y items = (pre ++ y ++ replicate 216 0) ++ net_bytes32 DHCP_MAGIC_COOKIE ++ opts /\
  length pre = 16%nat /\ length (pre ++ y ++ replicate 216 0) = 236%nat.
Proof.
  destruct Hy as [_ Ly]. unfold server_message, pre, opts. split; [by rewrite <- !app_assoc|]. split; [done|].
  rewrite !length_app, !length_replicate, Ly. done.
Qed.

Lemma message_bytes : bytes (server_message x y items).
Proof.
  destruct Hy as [By _]. unfold server_message. assert (forall n, bytes (replicate n 0)) as Hz by (intros n; apply Forall_replicate; lia).
  repeat (apply Forall_app; split); try done; try (by apply net_bytes32_bytes); try (by apply encode_bytes).
  all: repeat (apply Forall_cons_2 || apply Forall_nil_2);
    unfold DHCP_OP_BOOTREPLY, DHCP_HTYPE_ETHERNET, DHCP_HLEN_ETHERNET, DHCP_OPTION_END; lia.
Qed.

Lemma message_yiaddr : yiaddr (server_message x y items) = y.
Proof.
  destruct message_split as (-> & L & _), Hy as [_ Ly]. unfold yiaddr, field. rewrite <- !app_assoc, drop_app_length' by done.
  by rewrite take_app_length'.
Qed.

Lemma message_reply s : xid (snd (snd s)) = x -> reply (server_message x y items) s (fold_left apply_item items no_options).
Proof.
  intros Ex. destruct message_split as (E & L & L').
  assert (length (net_bytes32 DHCP_MAGIC_COOKIE) = 4%nat) as Lc by done. constructor.
  - rewrite E, !length_app, Lc. rewrite length_app in L'. unfold sizeof_dhcp_header. rewrite length_app in L'. lia.
  - reflexivity.
  - rewrite Ex. unfold server_message. change 4 with (Z.of_nat (length [DHCP_OP_BOOTREPLY; DHCP_HTYPE_ETHERNET; DHCP_HLEN_ETHERNET; 0])).
    rewrite word_app, word_take by done. by apply word_net_bytes.
  - rewrite E. replace 236 with (Z.of_nat (length (pre ++ y ++ replicate 216 0))) by lia. rewrite word_app, word_take by done. done.
  - rewrite E, app_assoc. rewrite drop_app_length' by (rewrite length_app, L', Lc; done).
    apply options_of_encoded; [done|constructor|done].
Qed.
End Server.

Lemma lease_items_ok type c lease : byte type -> offer_addrs c -> 0 <= lease < 4294967296 ->
  Forall item_ok (lease_items type c lease) /\
  fold_left apply_item (lease_items type c lease) no_options =
    mk_options type (server_ip c) (mask c) true (router_ip c) (dns_server c) lease.
Proof.
  intros Ht (_ & [B1 L1] & [B2 L2] & [B3 L3] & [B4 L4]) Hl. split.
  - pose proof (net_bytes32_bytes lease Hl) as Bl.
    unfold lease_items, DHCP_OPTION_MESSAGE_TYPE, DHCP_OPTION_SERVER_ID, DHCP_OPTION_SUBNET_MASK, DHCP_OPTION_ROUTER,
      DHCP_OPTION_DNS_SERVER, DHCP_OPTION_LEASE_TIME.
    repeat (apply Forall_cons_2 || apply Forall_nil_2); (split; [lia|]); (split; [|rewrite ?L1, ?L2, ?L3, ?L4; simpl; lia]);
      try done. repeat (apply Forall_cons_2 || apply Forall_nil_2). done.
  - assert (length (net_bytes32 lease) = 4%nat) as L5 by done.
    cbn [fold_left lease_items apply_item Z.eqb Pos.eqb DHCP_OPTION_MESSAGE_TYPE DHCP_OPTION_SERVER_ID DHCP_OPTION_SUBNET_MASK
      DHCP_OPTION_ROUTER DHCP_OPTION_DNS_SERVER DHCP_OPTION_LEASE_TIME].
    rewrite L1, L2, L3, L4, L5. cbn [Nat.eqb Nat.leb]. rewrite !take_ge, word_net_bytes by (done || lia). done.
Qed.

(** * A client for examples *)

Definition dns0 : Dns.dns := Dns.mk_dns 0 (fun _ => 0) [0; 0; 0; 0] false 0 0 false (replicate 254 0).
Definition offer0 : offer := mk_offer LinkProps.host LinkProps.server [255; 255; 255; 0] LinkProps.server [10; 0; 2; 3].
Definition nothing : offer := mk_offer zeros zeros zeros zeros zeros.
Definition selecting0 : state :=
  (LinkProps.link0, (dns0, mk_dhcp DHCP_STATE_SELECTING 7 nothing 0 0 0 false (fun _ => 0))).

Lemma offer0_addrs : offer_addrs offer0.
Proof.
  assert (forall a b c d, byte a -> byte b -> byte c -> byte d -> addr 4 [a; b; c; d]) as H4
    by (intros; split; [repeat constructor; lia|done]).
  unfold offer_addrs. do 4 (split; [by apply H4|]). by apply H4.
Qed.
Lemma offer0_usable : usable offer0.
Proof.
  constructor; [done|split; [split; vm_compute; congruence|done]| |right; split; [split; vm_compute; congruence|done]].
  exists 8. split; [split; [lia|reflexivity]|]. split; [split; reflexivity|]. right. split; [done|].
  split; [reflexivity|split; reflexivity].
Qed.
Lemma selecting0_inv : dhcp_inv selecting0.
Proof. constructor; [apply LinkProps.link0_inv| |done..]. unfold offer_addrs. simpl. do 4 (split; [apply (zeros_addr 4)|]). apply (zeros_addr 4). Qed.

(** * The properties *)

(** Offers: [dhcp_offer_is_valid] accepts an offer exactly if it can be used:
    there is a server identifier, the address is a unicast address, the mask (the
    classful default if there is none) is contiguous with a prefix between /8 and
    /30, the address is neither that of its network nor its broadcast address, the
    router, if there is one, is another host of the same network, and the name
    server, if there is one, has a unicast address.  It returns that mask. *)
Theorem dhcp_offer_spec y srv m present r d :
  addr 4 y -> addr 4 srv -> addr 4 m -> addr 4 r -> addr 4 d ->
  forall m', dhcp_offer_is_valid y srv m present r d = Some m' <->
    m' = mask_of y m present /\ usable (mk_offer y srv m' r d).
Proof.
  intros Hy Hs Hm Hr Hd m'. pose proof (offer_valid y srv m present r d Hy Hs Hm Hr Hd) as Hv.
  destruct (dhcp_offer_is_valid y srv m present r d) as [m0|].
  - split; [intros [= <-]; done|]. intros [-> _]. by destruct Hv as [-> _].
  - split; [done|]. intros [-> Hu]. done.
Qed.

Lemma dhcp_offer_spec_witness :
  dhcp_offer_is_valid LinkProps.host LinkProps.server [255; 255; 255; 0] true LinkProps.server [10; 0; 2; 3] = Some [255; 255; 255; 0].
Proof.
  destruct offer0_addrs as (A1 & A2 & A3 & A4 & A5).
  apply (dhcp_offer_spec LinkProps.host LinkProps.server [255; 255; 255; 0] true LinkProps.server [10; 0; 2; 3] A1 A2 A3 A4 A5).
  split; [reflexivity|exact offer0_usable].
Defined.

(** Received messages: whatever datagram arrives, the handler comes to an end
    without a fault.  A usable offer in reply to a DISCOVER is stored and requested;
    an acknowledgement from the server of the offer, for the address of the offer,
    while a REQUEST is outstanding, configures the host with the offer, with a lease
    between 60 seconds and 30 days, a renewal within a tenth of its half, the
    gateway asked for and the name server set; a refusal from that server starts
    again; every other datagram changes nothing but statistics. *)
Theorem dhcp_handle_spec ticks random p s :
  dhcp_inv s -> bytes p -> 0 <= ticks < 2 ^ 32 ->
  exists s', handle_dhcp ticks random p s = Ok (tt, s') /\ handled ticks random p s s'.
Proof. intros H Hp Ht. apply wp_exists, handle_dhcp_ok; done. Qed.

Lemma dhcp_handle_spec_witness : exists s', handle_dhcp 5 9 [2; 1; 6; 0] selecting0 = Ok (tt, s') /\
  handled 5 9 [2; 1; 6; 0] selecting0 s'.
Proof. apply dhcp_handle_spec; [exact selecting0_inv|repeat constructor; lia|lia]. Defined.

(** C12. No rogue configuration: through any sequence of datagrams and timer ticks
    the client does not fail; while it holds a lease the host has the addresses of
    the lease; if the addresses of the host are not those of the beginning they are
    those of a usable offer; no entry is added to the ARP cache and the packet filter
    is not changed. *)
Theorem dhcp_history_safe l s :
  dhcp_inv s -> agrees s -> Forall event_ok l ->
  exists s', run l s = Ok (tt, s') /\ agrees s' /\ tame s s'.
Proof.
  intros H Ha Hl. apply wp_exists, run_ok; [done..|]. intros s' Ht. split; [by apply Ht|done].
Qed.

Lemma dhcp_history_safe_witness :
  exists s', run [Datagram 5 9 [2; 1; 6; 0]; Tick 6 1] selecting0 = Ok (tt, s') /\ agrees s' /\ tame selecting0 s'.
Proof.
  apply dhcp_history_safe; [exact selecting0_inv|discriminate|]. constructor; [|repeat constructor].
  split; [repeat constructor; lia|lia].
Defined.

(** Getting a lease: in reply to a DISCOVER, an offer of a usable configuration
    and then its acknowledgement, as a server encodes them, leave the client bound
    and the host with that configuration. *)
Theorem dhcp_acquires c lease t1 r1 t2 r2 s :
  dhcp_inv s -> st (snd (snd s)) = DHCP_STATE_SELECTING -> 0 <= xid (snd (snd s)) < 2 ^ 32 ->
  offer_addrs c -> usable c -> 0 <= lease < 2 ^ 32 -> 0 <= t1 < 2 ^ 32 -> 0 <= t2 < 2 ^ 32 ->
  let msg type := server_message (xid (snd (snd s))) (offered_ip c) (lease_items type c lease) in
  exists s', (handle_dhcp t1 r1 (msg DHCP_OFFER) ;;; handle_dhcp t2 r2 (msg DHCP_ACK)) s = Ok (tt, s') /\
    st (snd (snd s')) = DHCP_STATE_BOUND /\ uses (fst s') c /\ cfg (snd (snd s')) = c /\
    lease_time (snd (snd s')) = clamped lease /\ lease_start (snd (snd s')) = t2 /\ requested (fst s') t2 (router_ip c).
Proof.
  intros H Hst Hx Ha Hu Hl Ht1 Ht2 msg. apply wp_exists.
  destruct (lease_items_ok DHCP_OFFER c lease) as [Io Eo]; [done..|]. destruct (lease_items_ok DHCP_ACK c lease) as [Ia Ea]; [done..|].
  pose proof (message_yiaddr (xid (snd (snd s))) (offered_ip c) (lease_items DHCP_OFFER c lease) (proj1 Ha)) as Yo.
  pose proof (message_yiaddr (xid (snd (snd s))) (offered_ip c) (lease_items DHCP_ACK c lease) (proj1 Ha)) as Ya.
  assert (forall type, type = DHCP_OFFER \/ type = DHCP_ACK -> bytes (msg type)) as Hb.
  { intros type Ht. apply message_bytes; [done|apply Ha|by destruct Ht as [-> | ->]|simpl; lia]. }
  apply wp_bind, handle_dhcp_ok; [done|by apply Hb; left|done|]. intros s1 [Hi Hof _ _ _].
  set (o1 := mk_options DHCP_OFFER (server_ip c) (mask c) true (router_ip c) (dns_server c) lease) in *.
  set (o2 := mk_options DHCP_ACK (server_ip c) (mask c) true (router_ip c) (dns_server c) lease) in *.
  assert (offer_of (msg DHCP_OFFER) o1 = c) as Ec by (unfold offer_of, msg; rewrite Yo; by destruct c).
  destruct (Hof o1) as [O1 O2 O3 O4 (O5 & f & O6 & _)].
  { split; [rewrite <- Eo; apply message_reply; [done|apply Ha|done|simpl; lia|done]|]. by rewrite Ec. }
  rewrite Ec in O3. apply handle_dhcp_ok; [done|by apply Hb; right|done|]. intros s2 [_ _ Hack _ _].
  destruct (Hack o2) as [B1 B2 B3 B4 B5 B6 B7 B8 B9 B10 B11 B12 B13 B14 B15].
  { split; [rewrite <- Ea; apply message_reply; [done|apply Ha|done|simpl; lia|done]|]. by rewrite O1, O3. }
  rewrite O3 in *. split_and!; try done. rewrite B4, O4. simpl. by destruct (Z.eqb_spec lease 0) as [->|].
Qed.

Lemma dhcp_acquires_witness : exists s',
  (handle_dhcp 5 1 (server_message 7 (offered_ip offer0) (lease_items DHCP_OFFER offer0 3600)) ;;;
   handle_dhcp 6 2 (server_message 7 (offered_ip offer0) (lease_items DHCP_ACK offer0 3600))) selecting0 = Ok (tt, s') /\
  st (snd (snd s')) = DHCP_STATE_BOUND /\ uses (fst s') offer0.
Proof.
  destruct (dhcp_acquires offer0 3600 5 1 6 2 selecting0) as (s' & E & E1 & E2 & _);
    [exact selecting0_inv|reflexivity|simpl; lia|exact offer0_addrs|exact offer0_usable|lia..|].
  exists s'. split; [exact E|]. split; [exact E1|exact E2].
Defined.

(** Options: what a list of options, padding included, encodes to is parsed
    back to the meaning of the list, the last of a kind counting, whatever follows
    the end mark; nothing is dropped. *)
Theorem dhcp_options_roundtrip items rest s :
  Forall item_ok items -> bytes rest -> (length items < 512)%nat ->
  parse_dhcp_options (concat (map encode items) ++ DHCP_OPTION_END :: rest) s =
    Ok (fold_left apply_item items no_options, s).
Proof.
  intros Hi Hr Hl. pose proof (parse_encoded items MAX_DHCP_OPTION_ITERATIONS [] rest no_options s) as Hp. cbn [app length] in Hp.
  destruct (wp_elim _ _ _ (Hp Hi ltac:(apply Forall_app; split;
    [by apply encode_bytes|constructor; [unfold DHCP_OPTION_END; lia|done]]) Hl)) as (o & s' & E & Eo & Es).
  rewrite Eo, Es in E. exact E.
Qed.

Lemma dhcp_options_roundtrip_witness :
  parse_dhcp_options ([53; 1; 5; 0; 1; 4; 255; 255; 255; 0] ++ [255]) selecting0 =
    Ok (put_mask [255; 255; 255; 0] (put_type 5 no_options), selecting0).
Proof.
  apply (dhcp_options_roundtrip [Opt 53 [5]; Pad; Opt 1 [255; 255; 255; 0]] [] selecting0);
    [|constructor|simpl; lia].
  constructor; [split; [lia|split; [repeat constructor; lia|simpl; lia]]|]. constructor; [exact I|].
  constructor; [split; [lia|split; [repeat constructor; lia|simpl; lia]]|constructor].
Defined.

End DhcpProps.
