(* ===== verification/Ids.v ===== *)
(** The intrusion detection system (src/ids.c): the signature matcher on the
    receive path, the ring of alerts, and the detector of credential sprays.

    Operations run on the lower layer of [Link], whose packet filter blocks the
    source of a serious alert, and on the state of this file.  [now] is the value
    of [pit_get_ticks], or of [time_get_uptime_seconds] for a login.  Texts are
    lists of characters; the log of src/audit.c is not part of the model. *)
From Stdlib Require Import ZArith Lia List Bool String Ascii.
From stdpp Require Import base tactics numbers list.
From S2P Require Import Prelude NetHdr Checksum CString Firewall FirewallProps Link LinkProps Dns.
Open Scope Z_scope.

Module Ids.
Import NetHdr CString Link LinkProps.

Definition IDS_MAX_SIGNATURES : Z := 128.
Definition IDS_MAX_ALERTS : Z := 1000.
Definition IDS_SPRAY_WINDOW_SECONDS : Z := 300.
Definition IDS_SPRAY_MAX_TRACKED : nat := 16.
Definition IDS_SPRAY_THRESHOLD : Z := 3.
Definition USER_MAX_USERNAME : nat := 32.
Definition DESCRIPTION_SIZE : nat := 128.

(** The characters of a literal. *)
Definition text (s : string) : list Z := map (fun c => Z.of_nat (nat_of_ascii c)) (list_ascii_of_string s).

Inductive ids_alert_type :=
| IDS_ALERT_PORTSCAN | IDS_ALERT_SYNFLOOD | IDS_ALERT_MALFORMED_PACKET | IDS_ALERT_BUFFER_OVERFLOW | IDS_ALERT_BRUTEFORCE
| IDS_ALERT_DOS | IDS_ALERT_SHELLCODE | IDS_ALERT_SQL_INJECTION | IDS_ALERT_PRIVILEGE_ESCALATION
| IDS_ALERT_SUSPICIOUS_SYSCALL | IDS_ALERT_FORK_BOMB | IDS_ALERT_FILE_TAMPERING | IDS_ALERT_ROOTKIT
| IDS_ALERT_TRAFFIC_ANOMALY | IDS_ALERT_BEHAVIOR_ANOMALY.
(** The value of the enumerator; [IDS_ALERT_MAX] is 15. *)
Definition type_num (t : ids_alert_type) : Z :=
  match t with
  | IDS_ALERT_PORTSCAN => 0 | IDS_ALERT_SYNFLOOD => 1 | IDS_ALERT_MALFORMED_PACKET => 2 | IDS_ALERT_BUFFER_OVERFLOW => 3
  | IDS_ALERT_BRUTEFORCE => 4 | IDS_ALERT_DOS => 5 | IDS_ALERT_SHELLCODE => 6 | IDS_ALERT_SQL_INJECTION => 7
  | IDS_ALERT_PRIVILEGE_ESCALATION => 8 | IDS_ALERT_SUSPICIOUS_SYSCALL => 9 | IDS_ALERT_FORK_BOMB => 10
  | IDS_ALERT_FILE_TAMPERING => 11 | IDS_ALERT_ROOTKIT => 12 | IDS_ALERT_TRAFFIC_ANOMALY => 13
  | IDS_ALERT_BEHAVIOR_ANOMALY => 14
  end.
Definition IDS_ALERT_MAX : Z := 15.

Inductive ids_severity :=
| IDS_SEVERITY_INFO | IDS_SEVERITY_LOW | IDS_SEVERITY_MEDIUM | IDS_SEVERITY_HIGH | IDS_SEVERITY_CRITICAL.
Definition severity_num (v : ids_severity) : Z :=
  match v with
  | IDS_SEVERITY_INFO => 0 | IDS_SEVERITY_LOW => 1 | IDS_SEVERITY_MEDIUM => 2 | IDS_SEVERITY_HIGH => 3
  | IDS_SEVERITY_CRITICAL => 4
  end.

Inductive ids_action :=
| IDS_ACTION_LOG | IDS_ACTION_ALERT | IDS_ACTION_BLOCK | IDS_ACTION_QUARANTINE | IDS_ACTION_FAILSAFE.
#[export] Instance ids_action_eq_dec : EqDecision ids_action.
Proof. solve_decision. Defined.

(** [pattern]: the bytes the pointer leads to, if it is not null. *)
Record ids_signature := mk_signature {
  name : list Z; sg_description : list Z; pattern : option (list Z); pattern_len : Z; sg_type : ids_alert_type;
  sg_severity : ids_severity; sg_action : ids_action; enabled : bool; match_count : Z }.
Definition put_matches n g :=
  mk_signature (name g) (sg_description g) (pattern g) (pattern_len g) (sg_type g) (sg_severity g) (sg_action g) (enabled g) n.
Definition put_enabled b g :=
  mk_signature (name g) (sg_description g) (pattern g) (pattern_len g) (sg_type g) (sg_severity g) (sg_action g) b (match_count g).
Definition zero_signature : ids_signature :=
  mk_signature [] [] None 0 IDS_ALERT_PORTSCAN IDS_SEVERITY_INFO IDS_ACTION_LOG false 0.

Record ids_alert := mk_alert {
  type : ids_alert_type; severity : ids_severity; timestamp : Z; src_ip : Z; description : list Z; blocked : bool }.
Definition zero_alert : ids_alert := mk_alert IDS_ALERT_PORTSCAN IDS_SEVERITY_INFO 0 0 [] false.

Record traffic_baseline := mk_baseline {
  packets_per_sec : Z; bytes_per_sec : Z; avg_packet_size : Z; connections_per_sec : Z; window_start : Z; established : bool }.
Definition zero_baseline : traffic_baseline := mk_baseline 0 0 0 0 0 false.

Record ids_stats := mk_stats {
  packets_analyzed : Z; alerts_generated : Z; alerts_by_type : list Z; ips_blocked : Z; signatures_loaded : Z;
  signature_matches : Z }.
Definition zero_stats : ids_stats := mk_stats 0 0 (replicate 15 0) 0 0 0.

(** An empty name marks a free slot. *)
Record ids_failed_login := mk_failed { username : list Z; last_seen : Z }.

Record ids := mk_ids {
  signatures : list ids_signature; signature_count : Z;
  alert_history : list ids_alert; alert_head : Z; alert_count : Z;
  baseline : traffic_baseline; stats : ids_stats;
  spray_table : list ids_failed_login; spray_window_start : Z; spray_alerted : bool }.
Notation state := (link * ids)%type.

Section Updates.
Implicit Types s : ids.
Definition put_signatures v n s := mk_ids v n (alert_history s) (alert_head s) (alert_count s) (baseline s) (stats s)
  (spray_table s) (spray_window_start s) (spray_alerted s).
Definition put_alerts v h n s := mk_ids (signatures s) (signature_count s) v h n (baseline s) (stats s)
  (spray_table s) (spray_window_start s) (spray_alerted s).
Definition put_baseline v s := mk_ids (signatures s) (signature_count s) (alert_history s) (alert_head s) (alert_count s) v
  (stats s) (spray_table s) (spray_window_start s) (spray_alerted s).
Definition put_stats v s := mk_ids (signatures s) (signature_count s) (alert_history s) (alert_head s) (alert_count s)
  (baseline s) v (spray_table s) (spray_window_start s) (spray_alerted s).
Definition put_spray v w a s := mk_ids (signatures s) (signature_count s) (alert_history s) (alert_head s) (alert_count s)
  (baseline s) (stats s) v w a.
End Updates.

Definition upper {A} (m : M ids A) : M state A := zoom snd (fun i s => (fst s, i)) m.
Definition on_stats (f : ids_stats -> ids_stats) : M ids unit := modify (fun s => put_stats (f (stats s)) s).

(** * Alerts *)

(** The critical section of [ids_generate_alert]. *)
Definition record_alert (now : Z) (t : ids_alert_type) (v : ids_severity) (src : Z) (desc : list Z) (block_ip : bool) : M ids unit :=
  h <- gets alert_head ;; l <- gets alert_history ;;
  l' <- lift (aset l h (mk_alert t v now src (take (DESCRIPTION_SIZE - 1) desc) block_ip)) ;;
  modify (fun s => put_alerts l' h (alert_count s) s) ;;;
  on_stats (fun x => mk_stats (packets_analyzed x) (u64 (alerts_generated x + 1)) (alerts_by_type x) (ips_blocked x)
                       (signatures_loaded x) (signature_matches x)) ;;;
  (if type_num t <? IDS_ALERT_MAX then
     b <- gets (fun s => alerts_by_type (stats s)) ;;
     n <- lift (aget b (type_num t)) ;;
     b' <- lift (aset b (type_num t) (u64 (n + 1))) ;;
     on_stats (fun x => mk_stats (packets_analyzed x) (alerts_generated x) b' (ips_blocked x) (signatures_loaded x)
                          (signature_matches x))
   else ret tt) ;;;
  (if block_ip then
     on_stats (fun x => mk_stats (packets_analyzed x) (alerts_generated x) (alerts_by_type x) (u64 (ips_blocked x + 1))
                          (signatures_loaded x) (signature_matches x))
   else ret tt) ;;;
  modify (fun s => put_alerts (alert_history s) ((h + 1) mod IDS_MAX_ALERTS)
                     (if alert_count s <? IDS_MAX_ALERTS then alert_count s + 1 else alert_count s) s).

Definition ids_generate_alert (now : Z) (t : ids_alert_type) (v : ids_severity) (src : Z) (desc : list Z) : M state unit :=
  let block_ip := (severity_num IDS_SEVERITY_HIGH <=? severity_num v) && negb (src =? 0) in
  upper (record_alert now t v src desc block_ip) ;;;
  if block_ip then lower (on_filter (Firewall.firewall_block_ip src)) else ret tt.

(** * Packets *)

(** [memcmp(&payload\[j\], pattern, n) == 0] *)
Definition matches_at (payload pat : list Z) (j n : Z) : result bool :=
  match Dns.load_block payload j n, Dns.load_block pat 0 n with
  | Ok a, Ok b => Ok (bool_decide (a = b))
  | Err f, _ => Err f
  | _, Err f => Err f
  end.

(** [for (j = 0; j <= last; j++)], ended by the first match. *)
Definition find_pattern (payload pat : list Z) (n : Z) : M state (option unit) :=
  for_ret (iters 0 (Z.of_nat (length payload) - n + 1)) 0 (fun j =>
    m <- lift (matches_at payload pat j n) ;; ret (if (m : bool) then Some tt else None)).

Definition inspect_signature (now : Z) (payload : list Z) (src i : Z) : M state bool :=
  l <- gets (fun s => signatures (snd s)) ;; g <- lift (aget l i) ;;
  match enabled g, pattern g with
  | true, Some pat =>
      if (pattern_len g =? 0) || (Z.of_nat (length payload) <? pattern_len g) then ret true else
      r <- find_pattern payload pat (pattern_len g) ;;
      match r with
      | None => ret true
      | Some _ =>
          l' <- lift (aset l i (put_matches (match_count g +32 1) g)) ;;
          upper (modify (fun s => put_signatures l' (signature_count s) s)) ;;;
          upper (on_stats (fun x => mk_stats (packets_analyzed x) (alerts_generated x) (alerts_by_type x) (ips_blocked x)
                              (signatures_loaded x) (u64 (signature_matches x + 1)))) ;;;
          ids_generate_alert now (sg_type g) (sg_severity g) src (sg_description g) ;;;
          ret (negb (bool_decide (sg_action g = IDS_ACTION_BLOCK)))
      end
  | _, _ => ret true
  end.

(** The loop over the signatures. *)
Fixpoint inspect_from (n : nat) (now : Z) (payload : list Z) (src i : Z) (allow : bool) : M state bool :=
  match n with
  | O => ret allow
  | S n' => ok <- inspect_signature now payload src i ;; inspect_from n' now payload src (i + 1) (allow && ok)
  end.
Definition ids_inspect_payload (now : Z) (payload : list Z) (src : Z) : M state bool :=
  n <- gets (fun s => signature_count (snd s)) ;;
  inspect_from (iters 0 n) now payload src 0 true.

(** [ip]: the packet, of [packet_len] bytes. *)
Definition ids_analyze_packet (now : Z) (ip : list Z) : M state bool :=
  upper (on_stats (fun x => mk_stats (u64 (packets_analyzed x + 1)) (alerts_generated x) (alerts_by_type x) (ips_blocked x)
                      (signatures_loaded x) (signature_matches x))) ;;;
  let packet_len := Z.of_nat (length ip) in
  a <- load8 ip 12 ;; b <- load8 ip 13 ;; c <- load8 ip 14 ;; d <- load8 ip 15 ;;
  let src := Z.lor (Z.lor (Z.lor (u32 (Z.shiftl a 24)) (u32 (Z.shiftl b 16))) (u32 (Z.shiftl c 8))) d in
  if packet_len <? sizeof_ip_header then
    ids_generate_alert now IDS_ALERT_MALFORMED_PACKET IDS_SEVERITY_MEDIUM src (text "Packet too small for IP header") ;;; ret false
  else
  version_ihl <- load8 ip ip_version_ihl ;;
  let ihl := Z.land version_ihl 0x0F in
  if (ihl <? 5) || (15 <? ihl) then
    ids_generate_alert now IDS_ALERT_MALFORMED_PACKET IDS_SEVERITY_HIGH src (text "Invalid IP header length") ;;; ret false
  else
  (if 9000 <? packet_len then
     ids_generate_alert now IDS_ALERT_TRAFFIC_ANOMALY IDS_SEVERITY_LOW src (text "Unusually large packet")
   else ret tt) ;;;
  let hdr_len := ihl *32 4 in
  if packet_len <=? hdr_len then ret true
  else ids_inspect_payload now (drop (Z.to_nat hdr_len) ip) src.

(** * Signatures *)

Definition ids_add_signature (g : ids_signature) : M ids Z :=
  n <- gets signature_count ;;
  if IDS_MAX_SIGNATURES <=? n then ret (-1) else
  l <- gets signatures ;;
  l' <- lift (aset l n g) ;;
  modify (put_signatures l' n) ;;;
  on_stats (fun x => mk_stats (packets_analyzed x) (alerts_generated x) (alerts_by_type x) (ips_blocked x)
                       (signatures_loaded x +32 1) (signature_matches x)) ;;;
  modify (fun s => put_signatures (signatures s) (n + 1) s) ;;;
  ret n.

Definition ids_remove_signature (sig_id : Z) : M ids Z :=
  n <- gets signature_count ;;
  if (sig_id <? 0) || (n <=? sig_id) then ret (-1) else
  l <- gets signatures ;;
  g <- lift (aget l sig_id) ;;
  l' <- lift (aset l sig_id (put_enabled false g)) ;;
  modify (put_signatures l' n) ;;;
  ret 0.

Definition ids_load_default_signatures : M ids unit :=
  _ <- ids_add_signature (mk_signature (text "Shellcode NOP Sled") (text "Common x86 shellcode pattern with NOP sled")
         (Some [0x90; 0x90; 0x90; 0x90; 0x31; 0xc0]) 6 IDS_ALERT_SHELLCODE IDS_SEVERITY_CRITICAL IDS_ACTION_BLOCK true 0) ;;
  ret tt.

Definition ids_init : M ids unit :=
  modify (fun s => mk_ids (replicate 128 zero_signature) 0 (replicate 1000 zero_alert) 0 0 zero_baseline zero_stats
                     (spray_table s) (spray_window_start s) (spray_alerted s)) ;;;
  ids_load_default_signatures.

Definition ids_get_stats : M ids ids_stats := gets stats.

(** * Traffic *)

Definition ids_establish_baseline (now : Z) : M ids unit := modify (fun s =>
  if established (baseline s) then s else put_baseline (mk_baseline 100 (1024 * 100) 1024 10 now true) s).
Definition ids_is_traffic_anomalous (current_rate : Z) : M ids bool := gets (fun s =>
  if established (baseline s) then u64 (packets_per_sec (baseline s) * 10) <? current_rate else false).

(** * Failed logins *)

Definition free_slot (e : ids_failed_login) : bool := at0 (username e) =? 0.
Definition same_user (u : list Z) (e : ids_failed_login) : bool :=
  negb (free_slot e) && (strncmp (username e) u (USER_MAX_USERNAME - 1) =? 0).
Definition see (now : Z) (u : list Z) (e : ids_failed_login) : ids_failed_login :=
  if same_user u e then mk_failed (username e) now else e.

(** The number in the format; it is at most 16. *)
Definition decimal (n : Z) : list Z := if n <? 10 then [48 + n] else [48 + n / 10; 48 + n mod 10].
Definition spray_text (distinct : Z) (u : list Z) : list Z :=
  take (DESCRIPTION_SIZE - 1)
    (text "Credential spray: " ++ decimal distinct ++ text " distinct usernames failed login within 300s (most recent '" ++
     u ++ text "')").

(** The table after the failure of [u], and the number of names in it. *)
Definition spray_update (now : Z) (u : list Z) (l : list ids_failed_login) : list ids_failed_login * Z :=
  let l' := map (see now u) l in
  let distinct := Z.of_nat (length (List.filter (fun e => negb (free_slot e)) l)) in
  if existsb (same_user u) l then (l', distinct) else
  match index_of free_slot l' with
  | Some i => (<[i := mk_failed (take (USER_MAX_USERNAME - 1) u) now]> l', distinct + 1)
  | None => (l', Z.of_nat IDS_SPRAY_MAX_TRACKED)
  end.

Definition ids_register_login_failure (ticks now : Z) (u : list Z) : M state bool :=
  if at0 u =? 0 then ret false else
  upper (modify (fun s =>
    if (spray_window_start s =? 0) || (IDS_SPRAY_WINDOW_SECONDS <? now -32 spray_window_start s)
    then put_spray (replicate IDS_SPRAY_MAX_TRACKED (mk_failed [] 0)) now false s else s)) ;;;
  l <- gets (fun s => spray_table (snd s)) ;;
  let '(l', distinct) := spray_update now u l in
  upper (modify (fun s => put_spray l' (spray_window_start s) (spray_alerted s) s)) ;;;
  alerted <- gets (fun s => spray_alerted (snd s)) ;;
  if (IDS_SPRAY_THRESHOLD <=? distinct) && negb alerted then
    upper (modify (fun s => put_spray (spray_table s) (spray_window_start s) true s)) ;;;
    ids_generate_alert ticks IDS_ALERT_BRUTEFORCE IDS_SEVERITY_MEDIUM 0 (spray_text distinct u) ;;;
    ret true
  else ret false.

(** * The ring of alerts *)

Record ids_inv (s : ids) : Prop := mk_ids_inv {
  ii_signatures : length (signatures s) = 128%nat; ii_count : 0 <= signature_count s <= 128;
  ii_patterns : Forall (fun g => forall p, pattern g = Some p -> 0 <= pattern_len g <= Z.of_nat (length p)) (signatures s);
  ii_history : length (alert_history s) = 1000%nat; ii_head : 0 <= alert_head s < 1000;
  ii_alerts : alert_head s = alert_count s /\ alert_count s < 1000 \/ alert_count s = 1000;
  ii_by_type : length (alerts_by_type (stats s)) = 15%nat }.

(** The alerts in the order of their times, at most 1000. *)
Definition log (s : ids) : list ids_alert :=
  if alert_count s <? 1000 then take (Z.to_nat (alert_count s)) (alert_history s)
  else drop (Z.to_nat (alert_head s)) (alert_history s) ++ take (Z.to_nat (alert_head s)) (alert_history s).
Definition push (l : list ids_alert) (a : ids_alert) : list ids_alert :=
  (if (length l <? 1000)%nat then l else tail l) ++ [a].

Lemma take_insert_next {A} (l : list A) n x : (n < length l)%nat -> take (S n) (<[n := x]> l) = take n l ++ [x].
Proof. intros H. rewrite (take_S_r _ _ x) by by apply lookup_insert_len. by rewrite take_insert_ge. Qed.

(** What leaves everything but the alerts alone. *)
Record same_detector (s s' : ids) : Prop := mk_same_detector {
  sd_signatures : map (put_matches 0) (signatures s') = map (put_matches 0) (signatures s);
  sd_count : signature_count s' = signature_count s; sd_baseline : baseline s' = baseline s;
  sd_table : spray_table s' = spray_table s; sd_start : spray_window_start s' = spray_window_start s;
  sd_alerted : spray_alerted s' = spray_alerted s }.
Lemma same_detector_refl s : same_detector s s.
Proof. by constructor. Qed.
Lemma same_detector_trans s1 s2 s3 : same_detector s1 s2 -> same_detector s2 s3 -> same_detector s1 s3.
Proof. intros [] []. constructor; congruence. Qed.

Lemma on_stats_ok f s (Q : unit -> ids -> Prop) :
  ids_inv s -> length (alerts_by_type (f (stats s))) = 15%nat ->
  (forall s', ids_inv s' -> same_detector s s' -> log s' = log s -> signatures s' = signatures s ->
     alert_history s' = alert_history s -> alert_head s' = alert_head s -> alert_count s' = alert_count s ->
     stats s' = f (stats s) -> Q tt s') -> wp (on_stats f) Q s.
Proof. intros [] Hf HQ. apply wp_modify, HQ; try done. Qed.

Lemma ring_push s a h' n' st' : ids_inv s -> length (alerts_by_type st') = 15%nat ->
  h' = (alert_head s + 1) mod 1000 -> n' = (if alert_count s <? 1000 then alert_count s + 1 else alert_count s) ->
  let s' := put_stats st' (put_alerts (<[Z.to_nat (alert_head s) := a]> (alert_history s)) h' n' s) in
  ids_inv s' /\ log s' = push (log s) a.
Proof.
  intros [I1 I2 I3 I4 I5 I6 I7] Hst -> -> s'. set (h := alert_head s) in *. set (n := alert_count s) in *.
  assert (Z.to_nat h < 1000)%nat as Hh by lia. split.
  - unfold s'. constructor; simpl; rewrite ?length_insert; try done; [apply Z.mod_pos_bound; lia|].
    fold n h. destruct I6 as [[E Hn]|E].
    + destruct (Z.ltb_spec n 1000); [|lia]. destruct (Z.eq_dec n 999) as [En|]; [right; lia|left]. rewrite Z.mod_small by lia. lia.
    + destruct (Z.ltb_spec n 1000); [lia|by right].
  - unfold log, push. change (alert_history s') with (<[Z.to_nat h := a]> (alert_history s)).
    change (alert_count s') with (if n <? 1000 then n + 1 else n). change (alert_head s') with ((h + 1) mod 1000). fold h n.
    assert ((h + 1) mod 1000 = if h =? 999 then 0 else h + 1) as ->.
    { destruct (Z.eqb_spec h 999) as [->|]; [done|]. apply Z.mod_small. lia. }
    destruct I6 as [[E Hn]|E].
    + destruct (Z.ltb_spec n 1000) as [_|]; [|lia]. rewrite length_take. destruct (Nat.ltb_spec (Z.to_nat n `min` length (alert_history s)) 1000); [|lia].
      rewrite <- E in *. rewrite <- take_insert_next by lia. destruct (Z.ltb_spec (h + 1) 1000).
      * by replace (Z.to_nat (h + 1)) with (S (Z.to_nat h)) by lia.
      * destruct (Z.eqb_spec h 999); [|lia]. change (Z.to_nat 0) with 0%nat. rewrite drop_0, take_0, app_nil_r.
        rewrite take_ge; [done|]. rewrite length_insert. lia.
    + rewrite E. cbn [Z.ltb Z.compare Pos.compare Pos.compare_cont]. rewrite length_app, length_drop, length_take.
      destruct (Nat.ltb_spec (length (alert_history s) - Z.to_nat h + Z.to_nat h `min` length (alert_history s)) 1000); [lia|].
      assert (tail (drop (Z.to_nat h) (alert_history s) ++ take (Z.to_nat h) (alert_history s)) =
              drop (S (Z.to_nat h)) (alert_history s) ++ take (Z.to_nat h) (alert_history s)) as ->.
      { destruct (lookup_lt_is_Some_2 (alert_history s) (Z.to_nat h)) as [x Hx]; [lia|]. by rewrite (drop_S _ x). }
      rewrite <- app_assoc, <- take_insert_next by lia. destruct (Z.eqb_spec h 999).
      * change (Z.to_nat 0) with 0%nat. rewrite drop_0, take_0, app_nil_r, drop_ge, take_ge by (rewrite ?length_insert; lia). done.
      * replace (Z.to_nat (h + 1)) with (S (Z.to_nat h)) by lia. by rewrite drop_insert_lt by lia.
Qed.

Lemma type_num_range t : 0 <= type_num t < 15.
Proof. destruct t; simpl; lia. Qed.

Lemma record_alert_ok now t v src desc b s (Q : unit -> ids -> Prop) :
  ids_inv s ->
  (forall s', ids_inv s' -> same_detector s s' -> signatures s' = signatures s ->
     log s' = push (log s) (mk_alert t v now src (take 127 desc) b) -> Q tt s') ->
  wp (record_alert now t v src desc b) Q s.
Proof.
  intros H HQ. pose proof H as [I1 I2 I3 I4 I5 I6 I7]. unfold record_alert. apply wp_bind, wp_gets, wp_bind, wp_gets.
  apply wp_bind. eapply wp_lift; [apply aset_ok; rewrite I4; lia|]. apply wp_bind, wp_modify, wp_bind, wp_modify.
  pose proof (type_num_range t) as Ht. destruct (Z.ltb_spec (type_num t) IDS_ALERT_MAX) as [_|Hx]; [|unfold IDS_ALERT_MAX in Hx; lia].
  apply wp_bind, wp_bind, wp_gets. cbn [stats alerts_by_type put_stats put_alerts].
  destruct (aget_range (alerts_by_type (stats s)) (type_num t)) as (x & _ & E); [lia|].
  apply wp_bind. eapply wp_lift; [exact E|]. apply wp_bind. eapply wp_lift; [apply aset_ok; lia|]. apply wp_modify.
  set (a := mk_alert _ _ _ _ _ _).
  assert (forall st', length (alerts_by_type st') = 15%nat -> Q tt (put_stats st' (put_alerts (<[Z.to_nat (alert_head s) := a]> (alert_history s))
    ((alert_head s + 1) mod 1000) (if alert_count s <? 1000 then alert_count s + 1 else alert_count s) s))) as Hend.
  { intros st' Hst. destruct (ring_push s a _ _ st' H Hst eq_refl eq_refl) as [Hi Hlog]. apply HQ; [done|by constructor|done|done]. }
  apply wp_bind. destruct b; [apply wp_modify|apply wp_ret]; apply wp_modify, Hend; simpl; by rewrite length_insert.
Qed.

Definition block_of (src : Z) : Firewall.firewall_rule := Firewall.put_counts 0 0 (Firewall.put_enabled true (Firewall.block_rule src)).

Lemma block_ip_ok src f (Q : unit -> Firewall.fw -> Prop) :
  Firewall.fw_inv f ->
  (forall f', Firewall.fw_inv f' -> Firewall.ruleset f' = take 64 (Firewall.ruleset f ++ [block_of src]) ->
     Firewall.connections f' = Firewall.connections f -> Firewall.firewall_enabled f' = Firewall.firewall_enabled f -> Q tt f') ->
  wp (Firewall.firewall_block_ip src) Q f.
Proof.
  intros H HQ. pose proof (Firewall.inv_rule_count f H) as Hc. pose proof (Firewall.inv_rules f H) as Hr.
  assert (length (Firewall.ruleset f) = Z.to_nat (Firewall.rule_count f)) as Hl.
  { unfold Firewall.ruleset. rewrite length_take, Hr. lia. }
  unfold Firewall.firewall_block_ip. apply wp_bind. destruct (Z.ltb_spec (Firewall.rule_count f) 64) as [Hlt|Hge].
  - eapply wp_mono; [by apply FirewallProps.add_rule_ok|]. intros i f' (Hi & _ & Er & Ec & Ee). apply wp_ret, HQ; try done.
    rewrite take_ge; [done|]. rewrite length_app, Hl. simpl. lia.
  - unfold Firewall.firewall_add_rule. apply wp_bind, wp_gets. unfold Firewall.FIREWALL_MAX_RULES.
    destruct (Z.leb_spec 64 (Firewall.rule_count f)); [|lia]. apply wp_ret, wp_ret, HQ; try done.
    rewrite take_app_le, take_ge by lia. done.
Qed.

(** The alerts [l] about a source were raised. *)
Record alerted (src : Z) (l : list ids_alert) (s s' : state) : Prop := mk_alerted {
  al_inv : ids_inv (snd s'); al_same : same_detector (snd s) (snd s');
  al_log : log (snd s') = fold_left push l (log (snd s));
  al_link : exists f', fst s' = put_filter f' (fst s) /\ Firewall.fw_inv f' /\
    Firewall.ruleset f' = take 64 (Firewall.ruleset (filter (fst s)) ++ replicate (length (List.filter blocked l)) (block_of src)) /\
    Firewall.connections f' = Firewall.connections (filter (fst s)) /\
    Firewall.firewall_enabled f' = Firewall.firewall_enabled (filter (fst s)) }.

Lemma alerted_nil src s s' : link_inv (fst s) -> fst s' = fst s -> ids_inv (snd s') -> same_detector (snd s) (snd s') ->
  log (snd s') = log (snd s) -> alerted src [] s s'.
Proof.
  intros H E Hi Hs El. constructor; [done..|]. exists (filter (fst s)). rewrite E. split; [by destruct (fst s)|].
  destruct H as [_ _ _ _ _ _ Hf]. split; [done|]. cbn [List.filter length replicate]. rewrite app_nil_r, take_ge; [done|].
  unfold Firewall.ruleset. rewrite length_take. pose proof (Firewall.inv_rules _ Hf). lia.
Qed.

Lemma take_take_app {A} n (l m : list A) : take n (take n l ++ m) = take n (l ++ m).
Proof.
  destruct (Nat.le_gt_cases n (length l)).
  - rewrite !take_app_le by (rewrite ?length_take; lia). rewrite take_take. by rewrite Nat.min_id.
  - by rewrite (take_ge l) by lia.
Qed.

Lemma alerted_trans src l1 l2 s1 s2 s3 : alerted src l1 s1 s2 -> alerted src l2 s2 s3 -> alerted src (l1 ++ l2) s1 s3.
Proof.
  intros [I1 S1 L1 (f1 & E1 & F1 & R1 & C1 & N1)] [I2 S2 L2 (f2 & E2 & F2 & R2 & C2 & N2)].
  constructor; [done|by eapply same_detector_trans|by rewrite L2, L1, fold_left_app|].
  exists f2. rewrite E1 in *. simpl in *. split; [by rewrite E2|]. split; [done|]. split; [|split; congruence].
  rewrite R2, R1, take_take_app, <- app_assoc, <- replicate_add. do 3 f_equal. rewrite List.filter_app, length_app. done.
Qed.

Lemma generate_alert_ok now t v src desc s (Q : unit -> state -> Prop) :
  ids_inv (snd s) -> link_inv (fst s) ->
  (forall s', signatures (snd s') = signatures (snd s) ->
     alerted src [mk_alert t v now src (take 127 desc) ((3 <=? severity_num v) && negb (src =? 0))] s s' -> Q tt s') ->
  wp (ids_generate_alert now t v src desc) Q s.
Proof.
  intros H Hl HQ. unfold ids_generate_alert. cbv zeta. change (severity_num IDS_SEVERITY_HIGH) with 3.
  set (b := (3 <=? severity_num v) && negb (src =? 0)) in *. apply wp_bind, wp_zoom, record_alert_ok; [done|].
  intros i Hi Hd Eg El. cbn [fst snd].
  assert (forall f', Firewall.fw_inv f' -> Firewall.ruleset f' =
      take 64 (Firewall.ruleset (filter (fst s)) ++ replicate (if b then 1 else 0) (block_of src)) ->
    Firewall.connections f' = Firewall.connections (filter (fst s)) ->
    Firewall.firewall_enabled f' = Firewall.firewall_enabled (filter (fst s)) -> Q tt (put_filter f' (fst s), i)) as Hend.
  { intros f' F1 F2 F3 F4. apply HQ; [done|]. constructor; [done..|]. exists f'. cbn [fst List.filter blocked]. split_and!; try done.
    rewrite F2. by destruct b. }
  clearbody b. destruct b.
  - apply lower_ok, on_filter_ok, block_ip_ok; [apply Hl|]. intros f' F1 F2 F3 F4. by apply Hend.
  - apply wp_ret. destruct Hl as [_ _ _ _ _ _ Hf]. replace (fst s, i) with (put_filter (filter (fst s)) (fst s), i) by by destruct (fst s).
    apply Hend; [done| |done..]. cbn [replicate]. rewrite app_nil_r, take_ge; [done|].
    unfold Firewall.ruleset. rewrite length_take. pose proof (Firewall.inv_rules _ Hf). lia.
Qed.

Lemma alerted_link src l s s' : alerted src l s s' -> link_inv (fst s) -> link_inv (fst s').
Proof. intros [_ _ _ (f & -> & Hf & _)] []. by constructor. Qed.

(** * Signatures in a payload *)

(** The first [n] bytes of [pat] stand in [payload] at [j]. *)
Definition occurs_at (payload pat : list Z) (n j : nat) : bool :=
  bool_decide (take n (drop j payload) = take n pat).
Definition occurs (payload pat : list Z) (n : nat) : bool :=
  existsb (occurs_at payload pat n) (seq 0 (length payload - n + 1)).
(** The signature is in use and occurs. *)
Definition hit (payload : list Z) (g : ids_signature) : bool :=
  match enabled g, pattern g with
  | true, Some pat =>
      (0 <? pattern_len g) && (pattern_len g <=? Z.of_nat (length payload)) && occurs payload pat (Z.to_nat (pattern_len g))
  | _, _ => false
  end.

Lemma matches_at_ok payload pat j n : 0 <= j -> 0 <= n -> j + n <= Z.of_nat (length payload) -> n <= Z.of_nat (length pat) ->
  matches_at payload pat j n = Ok (occurs_at payload pat (Z.to_nat n) (Z.to_nat j)).
Proof.
  intros Hj Hn Hp Hl. unfold matches_at, Dns.load_block.
  destruct (Z.ltb_spec j 0), (Z.ltb_spec (Z.of_nat (length payload)) (j + n)), (Z.ltb_spec (Z.of_nat (length pat)) (0 + n)); try lia.
  done.
Qed.

Lemma find_pattern_ok payload pat n s (Q : option unit -> state -> Prop) :
  0 < n <= Z.of_nat (length payload) -> n <= Z.of_nat (length pat) ->
  Q (if occurs payload pat (Z.to_nat n) then Some tt else None) s -> wp (find_pattern payload pat n) Q s.
Proof.
  intros Hn Hl HQ. unfold find_pattern.
  assert (Z.of_nat (iters 0 (Z.of_nat (length payload) - n + 1)) = Z.of_nat (length payload) - n + 1) as Ei by (unfold iters; lia).
  apply (wp_for_ret (fun j s' => s' = s /\ forall k, (k < Z.to_nat j)%nat -> occurs_at payload pat (Z.to_nat n) k = false)).
  - split; [done|]. simpl. lia.
  - intros j s' Hj [-> Hno]. rewrite Ei in Hj. apply wp_bind. eapply wp_lift; [apply matches_at_ok; lia|]. apply wp_ret.
    destruct (occurs_at payload pat (Z.to_nat n) (Z.to_nat j)) eqn:E.
    + assert (occurs payload pat (Z.to_nat n) = true) as Eo; [|by rewrite Eo in HQ]. apply existsb_exists.
      exists (Z.to_nat j). split; [|done]. apply in_seq. lia.
    + split; [done|]. intros k Hk. destruct (decide (k = Z.to_nat j)) as [->|]; [done|]. apply Hno. lia.
  - intros s' [-> Hno]. assert (occurs payload pat (Z.to_nat n) = false) as Eo; [|by rewrite Eo in HQ].
    apply not_true_iff_false. intros (k & Hk & E)%existsb_exists. apply in_seq in Hk. rewrite Hno in E; [done|]. rewrite Z.add_0_l, Ei. lia.
Qed.

(** The alert of a signature, and its verdict. *)
Definition alert_of (now src : Z) (g : ids_signature) : ids_alert :=
  mk_alert (sg_type g) (sg_severity g) now src (take 127 (sg_description g)) ((3 <=? severity_num (sg_severity g)) && negb (src =? 0)).
Definition refuses (payload : list Z) (g : ids_signature) : bool :=
  hit payload g && bool_decide (sg_action g = IDS_ACTION_BLOCK).

Lemma inspect_signature_ok now payload src i g s (Q : bool -> state -> Prop) :
  ids_inv (snd s) -> link_inv (fst s) -> 0 <= i -> signatures (snd s) !! Z.to_nat i = Some g ->
  (forall s', alerted src (if hit payload g then [alert_of now src g] else []) s s' ->
     drop (S (Z.to_nat i)) (signatures (snd s')) = drop (S (Z.to_nat i)) (signatures (snd s)) ->
     Q (negb (refuses payload g)) s') ->
  wp (inspect_signature now payload src i) Q s.
Proof.
  intros H Hl Hi Hg HQ. unfold inspect_signature, refuses in *. apply wp_bind, wp_gets, wp_bind.
  eapply wp_lift; [by apply aget_ok|]. apply lookup_lt_Some in Hg as Hlt.
  assert (hit payload g = false -> wp (ret true) Q s) as Hno.
  { intros E. rewrite E in HQ. apply wp_ret, HQ; [|done]. by apply alerted_nil; [..|apply same_detector_refl|]. }
  unfold hit in *. destruct (enabled g); [|by apply Hno]. destruct (pattern g) as [pat|] eqn:Ep; [|by apply Hno].
  pose proof (Forall_lookup_1 _ _ _ _ (ii_patterns _ H) Hg pat Ep) as Hr.
  destruct (Z.eqb_spec (pattern_len g) 0) as [E|E]; cbn [orb].
  { apply Hno. by rewrite E. }
  destruct (Z.ltb_spec (Z.of_nat (length payload)) (pattern_len g)) as [E1|E1].
  { apply Hno. destruct (Z.leb_spec (pattern_len g) (Z.of_nat (length payload))); [lia|]. by rewrite andb_false_r. }
  destruct (Z.ltb_spec 0 (pattern_len g)), (Z.leb_spec (pattern_len g) (Z.of_nat (length payload))); try lia. cbn [andb] in *.
  apply wp_bind, find_pattern_ok; [lia..|]. destruct (occurs payload pat (Z.to_nat (pattern_len g))); [|by apply Hno].
  apply wp_bind. eapply wp_lift; [apply aset_ok; lia|]. apply wp_bind, wp_zoom, wp_modify. cbn [fst snd].
  set (s1 := put_signatures _ _ (snd s)). assert (ids_inv s1) as K1.
  { destruct H. constructor; simpl; rewrite ?length_insert; try done. apply Forall_insert; [done|]. intros p Hp. simpl in *. naive_solver. }
  assert (same_detector (snd s) s1) as D1.
  { constructor; try done. simpl. rewrite list_fmap_insert. apply list_insert_id. rewrite list_lookup_fmap, Hg. done. }
  apply wp_bind, wp_zoom, on_stats_ok; [done|apply K1|]. intros s2 H2' D2 El2 Eg2 _ _ _ _. cbn [fst snd].
  apply wp_bind, generate_alert_ok; [done..|]. intros s3 Eg3 A. cbn [fst snd] in *. apply wp_ret, HQ.
  - change [alert_of now src g] with ([] ++ [alert_of now src g]). eapply alerted_trans; [|exact A].
    apply alerted_nil; [done|done|done|by eapply same_detector_trans|exact El2].
  - rewrite Eg3, Eg2. simpl. apply drop_insert_lt. lia.
Qed.

Lemma inspect_from_ok n now payload src i allow s (Q : bool -> state -> Prop) :
  ids_inv (snd s) -> link_inv (fst s) -> 0 <= i -> (Z.to_nat i + n <= 128)%nat ->
  (let l := take n (drop (Z.to_nat i) (signatures (snd s))) in
   forall s', alerted src (map (alert_of now src) (List.filter (hit payload) l)) s s' ->
     Q (allow && negb (existsb (refuses payload) l)) s') ->
  wp (inspect_from n now payload src i allow) Q s.
Proof.
  revert i allow s. induction n as [|n IH]; intros i allow s H Hl Hi Hn HQ; cbn [inspect_from].
  - apply wp_ret. rewrite <- (andb_true_r allow). apply HQ. by apply alerted_nil; [..|apply same_detector_refl|].
  - destruct (lookup_lt_is_Some_2 (signatures (snd s)) (Z.to_nat i)) as [g Hg]; [rewrite (ii_signatures _ H); lia|].
    apply wp_bind. eapply inspect_signature_ok; [done..|exact Hg|]. intros s1 A E.
    replace (S (Z.to_nat i)) with (Z.to_nat (i + 1)) in E by lia.
    apply IH; [apply A|by eapply alerted_link|lia|lia|]. cbv zeta. rewrite E. intros s2 A2.
    rewrite (drop_S _ g) in HQ by done. replace (S (Z.to_nat i)) with (Z.to_nat (i + 1)) in HQ by lia.
    cbn [take existsb List.filter] in HQ. rewrite negb_orb, andb_assoc in HQ. apply HQ.
    pose proof (alerted_trans _ _ _ _ _ _ A A2) as A12. by destruct (hit payload g).
Qed.

Lemma inspect_payload_ok now payload src s (Q : bool -> state -> Prop) :
  ids_inv (snd s) -> link_inv (fst s) ->
  (let l := take (Z.to_nat (signature_count (snd s))) (signatures (snd s)) in
   forall s', alerted src (map (alert_of now src) (List.filter (hit payload) l)) s s' ->
     Q (negb (existsb (refuses payload) l)) s') ->
  wp (ids_inspect_payload now payload src) Q s.
Proof.
  intros H Hl HQ. pose proof (ii_count _ H). unfold ids_inspect_payload. apply wp_bind, wp_gets, inspect_from_ok; [done..|unfold iters; lia|].
  unfold iters. rewrite Z.sub_0_r. change (Z.to_nat 0) with 0%nat. rewrite drop_0. exact HQ.
Qed.

(** What occurring means, for a pattern of its length. *)
Lemma occurs_iff payload pat n : (n <= length payload)%nat -> (n <= length pat)%nat ->
  occurs payload pat n = true <-> exists pre post, payload = pre ++ take n pat ++ post.
Proof.
  intros Hn Hp. unfold occurs. rewrite existsb_exists. unfold occurs_at. split.
  - intros (j & Hj & E%bool_decide_eq_true). exists (take j payload), (drop n (drop j payload)).
    by rewrite <- E, !take_drop.
  - intros (pre & post & E). exists (length pre). rewrite E, !length_app, length_take. split; [apply in_seq; lia|].
    apply bool_decide_eq_true. rewrite drop_app_length, take_app_length'; [done|]. rewrite length_take. lia.
Qed.

(** * Packets *)

(** The signatures in use. *)
Definition active (s : ids) : list ids_signature := take (Z.to_nat (signature_count s)) (signatures s).
Definition payload_of (ip : list Z) : list Z := drop (4 * Z.to_nat (at8 ip 0 mod 16)) ip.

(** The alerts about a packet. *)
Definition alerts_for (now : Z) (ip : list Z) (l : list ids_signature) : list ids_alert :=
  let src := be32 ip ip_src_ip in
  if at8 ip 0 mod 16 <? 5 then
    [mk_alert IDS_ALERT_MALFORMED_PACKET IDS_SEVERITY_HIGH now src (text "Invalid IP header length") (negb (src =? 0))]
  else
    (if 9000 <? Z.of_nat (length ip)
     then [mk_alert IDS_ALERT_TRAFFIC_ANOMALY IDS_SEVERITY_LOW now src (text "Unusually large packet") false] else []) ++
    map (alert_of now src) (List.filter (hit (payload_of ip)) l).
(** The verdict. *)
Definition clean (ip : list Z) (l : list ids_signature) : bool :=
  (5 <=? at8 ip 0 mod 16) && negb (existsb (refuses (payload_of ip)) l).

Lemma hit_nil g : hit [] g = false.
Proof.
  unfold hit. destruct (enabled g), (pattern g); try done. change (Z.of_nat (length [])) with 0.
  destruct (Z.ltb_spec 0 (pattern_len g)), (Z.leb_spec (pattern_len g) 0); try done; lia.
Qed.

Lemma nothing_hit l : List.filter (hit []) l = [] /\ existsb (refuses []) l = false.
Proof.
  induction l as [|g l [IH1 IH2]]; [done|]. cbn [List.filter existsb]. unfold refuses at 1. by rewrite hit_nil, IH1, IH2.
Qed.

Lemma src_word ip : bytes ip ->
  Z.lor (Z.lor (Z.lor (u32 (Z.shiftl (at8 ip 12) 24)) (u32 (Z.shiftl (at8 ip 13) 16))) (u32 (Z.shiftl (at8 ip 14) 8))) (at8 ip 15) =
  be32 ip ip_src_ip.
Proof.
  intros Hb. pose proof (at8_byte ip 12 Hb). pose proof (at8_byte ip 13 Hb). pose proof (at8_byte ip 14 Hb). pose proof (at8_byte ip 15 Hb).
  unfold be32, be16, ip_src_ip. change (12 + 1) with 13. change (12 + 2) with 14. change (14 + 1) with 15.
  rewrite !Z.shiftl_mul_pow2, !u32_small by lia. rewrite (lor_add (at8 ip 12) (at8 ip 13 * 2 ^ 16) 24) by lia.
  replace (at8 ip 12 * 2 ^ 24 + at8 ip 13 * 2 ^ 16) with ((at8 ip 12 * 256 + at8 ip 13) * 2 ^ 16) by lia. rewrite lor_add by lia.
  replace ((at8 ip 12 * 256 + at8 ip 13) * 2 ^ 16 + at8 ip 14 * 2 ^ 8) with (((at8 ip 12 * 256 + at8 ip 13) * 256 + at8 ip 14) * 2 ^ 8) by lia.
  rewrite lor_add by lia. lia.
Qed.

Lemma analyze_packet_ok now ip s (Q : bool -> state -> Prop) :
  ids_inv (snd s) -> link_inv (fst s) -> bytes ip -> (20 <= length ip)%nat ->
  (forall s', alerted (be32 ip ip_src_ip) (alerts_for now ip (active (snd s))) s s' -> Q (clean ip (active (snd s))) s') ->
  wp (ids_analyze_packet now ip) Q s.
Proof.
  intros H Hl Hb Hlen HQ. unfold ids_analyze_packet. apply wp_bind, wp_zoom, on_stats_ok; [done|apply H|].
  intros s1 H1 D1 L1 G1 _ _ _ _. cbn [fst snd]. do 4 (apply wp_bind, load8_ok; [lia|]). cbv zeta. rewrite src_word by done.
  set (src := be32 ip ip_src_ip) in *. assert (alerted src [] s (fst s, s1)) as A1 by by apply alerted_nil.
  unfold sizeof_ip_header, ip_version_ihl. destruct (Z.ltb_spec (Z.of_nat (length ip)) 20); [lia|].
  apply wp_bind, load8_ok; [lia|]. change (Z.land (at8 ip 0) 0x0F) with (Z.land (at8 ip 0) (Z.ones 4)).
  rewrite Z.land_ones by lia. change (2 ^ 4) with 16.
  pose proof (Z.mod_pos_bound (at8 ip 0) 16 ltac:(lia)) as Hi. unfold alerts_for, clean in HQ. fold src in HQ.
  destruct (Z.ltb_spec (at8 ip 0 mod 16) 5) as [H5|H5], (Z.ltb_spec 15 (at8 ip 0 mod 16)) as [H15|H15],
    (Z.leb_spec 5 (at8 ip 0 mod 16)) as [H6|H6]; try lia; cbn [orb andb negb] in *.
  { apply wp_bind, generate_alert_ok; [done..|]. intros s2 _ A2. apply wp_ret, HQ. exact (alerted_trans _ _ _ _ _ _ A1 A2). }
  set (big := if 9000 <? _ then _ else []) in *.
  apply wp_bind. apply wp_mono with (fun _ s2 => alerted src big s s2 /\ signatures (snd s2) = signatures (snd s)).
  { unfold big. destruct (9000 <? _).
    - apply generate_alert_ok; [done..|]. intros s2 E2 A2. split; [exact (alerted_trans _ _ _ _ _ _ A1 A2)|]. by rewrite E2.
    - by apply wp_ret. }
  intros [] s2 [A2 E2]. rewrite (u32_small (at8 ip 0 mod 16 * 4)) by lia.
  assert (take (Z.to_nat (signature_count (snd s2))) (signatures (snd s2)) = active (snd s)) as Ea.
  { rewrite E2, (sd_count _ _ (al_same _ _ _ _ A2)). done. }
  assert (payload_of ip = drop (Z.to_nat (at8 ip 0 mod 16 * 4)) ip) as Ep by (unfold payload_of; f_equal; lia).
  rewrite Ep in HQ. destruct (Z.leb_spec (Z.of_nat (length ip)) (at8 ip 0 mod 16 * 4)) as [Hsh|Hsh].
  - apply wp_ret. rewrite drop_ge in HQ by lia. destruct (nothing_hit (active (snd s))) as [F1 F2]. rewrite F1, F2 in HQ.
    apply HQ. by rewrite app_nil_r.
  - apply inspect_payload_ok; [apply A2|by eapply alerted_link|]. cbv zeta. rewrite Ea. intros s3 A3. apply HQ. by eapply alerted_trans.
Qed.

(** * Failed logins *)

Lemma strncmp_eq n s1 s2 : chars s1 -> chars s2 -> strncmp s1 s2 n = 0 <-> take n s1 = take n s2.
Proof.
  revert s1 s2. induction n as [|n IH]; intros s1 s2 H1 H2; [by destruct s1|].
  destruct s1 as [|c1 s1], s2 as [|c2 s2]; cbn [strncmp take at0].
  - done.
  - apply Forall_cons in H2 as [? _]. split; [lia|done].
  - apply Forall_cons in H1 as [? _]. split; [lia|done].
  - apply Forall_cons in H1 as [? H1]. apply Forall_cons in H2 as [? H2]. destruct (Z.eqb_spec c1 c2) as [->|]; cbn [negb].
    + rewrite IH by done. split; [by intros ->|]. intros [= E]. done.
    + split; [lia|]. intros [= E _]. done.
Qed.

(** The part of a name that is kept. *)
Definition key (u : list Z) : list Z := take 31 u.
Definition user_name (u : list Z) : Prop := chars u /\ u <> [].

(** The table holds the names, in its first slots. *)
Definition holds (names : list (list Z)) (l : list ids_failed_login) : Prop :=
  exists rest, map username l = names ++ rest /\ Forall (fun n => user_name n /\ key n = n) names /\
    Forall (fun n => at0 n = 0) rest /\ length l = 16%nat.

Lemma see_usernames now u l : map username (map (see now u) l) = map username l.
Proof. rewrite map_map. apply map_ext. intros e. unfold see. by destruct (same_user u e). Qed.

Lemma used_slot n : user_name n -> (at0 n =? 0) = false.
Proof. intros [Hc Hn]. destruct n as [|c n]; [done|]. apply Forall_cons in Hc as [Hc _]. simpl. apply Z.eqb_neq. lia. Qed.

Lemma key_name u : user_name u -> user_name (key u) /\ key (key u) = key u.
Proof.
  intros [Hc Hn]. split; [|unfold key; by rewrite take_take]. split; [by apply Forall_take|]. unfold key. by destruct u.
Qed.

(** On names instead of slots. *)
Lemma same_user_names u names rest l : user_name u -> map username l = names ++ rest ->
  Forall (fun n => user_name n /\ key n = n) names -> Forall (fun n => at0 n = 0) rest ->
  existsb (same_user u) l = bool_decide (key u ∈ names) /\
  length (List.filter (fun e => negb (free_slot e)) l) = length names.
Proof.
  intros Hu. revert names rest. induction l as [|e l IH]; intros names rest E Hn Hr; cbn [map existsb List.filter] in *.
  - symmetry in E. apply app_eq_nil in E as [-> _]. done.
  - destruct names as [|n names]; cbn [app] in E.
    + subst rest. apply Forall_cons in Hr as [H0 Hr]. destruct (IH [] _ eq_refl Hn Hr) as [E1 E2].
      assert (free_slot e = true) as Ef by (unfold free_slot; by rewrite H0).
      unfold same_user at 1. rewrite Ef, E1. cbn [negb andb orb]. by rewrite E2.
    + injection E as En E. apply Forall_cons in Hn as [[Hun Hk] Hn]. destruct (IH names rest E Hn Hr) as [E1 E2].
      assert (free_slot e = false) as Ef by (unfold free_slot; rewrite En; by apply used_slot).
      unfold same_user at 1. rewrite Ef, E1, En. cbn [negb andb length]. rewrite E2. split; [|done].
      apply eq_true_iff_eq. rewrite orb_true_iff, !bool_decide_eq_true, Z.eqb_eq, elem_of_cons.
      rewrite strncmp_eq by (apply Hun || apply Hu). change (take (USER_MAX_USERNAME - 1) n) with (key n).
      change (take (USER_MAX_USERNAME - 1) u) with (key u). rewrite Hk. intuition congruence.
Qed.

Lemma first_free names rest l : map username l = names ++ rest -> Forall (fun n => user_name n /\ key n = n) names ->
  Forall (fun n => at0 n = 0) rest -> index_of free_slot l = match rest with [] => None | _ => Some (length names) end.
Proof.
  revert names rest. induction l as [|e l IH]; intros names rest E Hn Hr; cbn [map] in E.
  - symmetry in E. apply app_eq_nil in E as [-> ->]. done.
  - cbn [index_of]. destruct names as [|n names]; cbn [app] in E.
    + subst rest. apply Forall_cons in Hr as [H0 Hr]. unfold free_slot. by rewrite H0.
    + injection E as En E. apply Forall_cons in Hn as [[Hun _] Hn]. unfold free_slot at 1. rewrite En, used_slot by done.
      rewrite (IH names rest E Hn Hr). by destruct rest.
Qed.

Lemma spray_update_ok now u names l : user_name u -> holds names l ->
  exists l', spray_update now u l =
      (l', if bool_decide (key u ∈ names) then Z.of_nat (length names)
           else if (length names <? 16)%nat then Z.of_nat (length names) + 1 else 16) /\
    holds (if bool_decide (key u ∈ names) then names else if (length names <? 16)%nat then names ++ [key u] else names) l'.
Proof.
  intros Hu (rest & E & Hn & Hr & Hl). unfold spray_update. destruct (same_user_names u names rest l Hu E Hn Hr) as [-> ->].
  assert (length names + length rest = 16)%nat as Hlen by (rewrite <- Hl, <- length_app, <- E; apply length_map).
  assert (holds names (map (see now u) l)) as Hs by (exists rest; rewrite see_usernames, length_map; done).
  case_bool_decide; [by eexists|]. rewrite (first_free names rest) by (rewrite ?see_usernames; done).
  destruct rest as [|r rest]; simpl in Hlen.
  - destruct (Nat.ltb_spec (length names) 16); [lia|]. by eexists.
  - destruct (Nat.ltb_spec (length names) 16); [|lia]. eexists. split; [done|]. exists rest. apply Forall_cons in Hr as [_ Hr].
    split_and!; [|apply Forall_app; split; [done|constructor; [by apply key_name|constructor]]|done|by rewrite length_insert, length_map].
    rewrite list_fmap_insert. cbn [username]. change (fmap username) with (map username). rewrite see_usernames, E.
    change (take (USER_MAX_USERNAME - 1) u) with (key u). rewrite <- app_assoc. cbn [app].
    rewrite <- (Nat.add_0_r (length names)). by rewrite insert_app_r.
Qed.

(** ** One window *)

Definition add_name (k : list Z) (seen : list (list Z)) : list (list Z) := if bool_decide (k ∈ seen) then seen else seen ++ [k].

Lemma add_length k seen : length (add_name k seen) = length seen \/ length (add_name k seen) = S (length seen).
Proof. unfold add_name. case_bool_decide; [by left|]. right. rewrite length_app. simpl. lia. Qed.

Section Window.
Context (t0 : Z) (Ht0 : 0 < t0 /\ t0 + 300 < 2 ^ 32).

(** The names [seen] failed since the window was opened at [t0]. *)
Record window (seen : list (list Z)) (s : state) : Prop := mk_window {
  w_ids : ids_inv (snd s); w_link : link_inv (fst s); w_start : spray_window_start (snd s) = t0;
  w_table : holds (take 16 seen) (spray_table (snd s)); w_alerted : spray_alerted (snd s) = (3 <=? length seen)%nat }.

Definition expired (now : Z) (s : ids) : bool := (spray_window_start s =? 0) || (300 <? now -32 spray_window_start s).

Lemma put_spray_inv l w a s : ids_inv s -> ids_inv (put_spray l w a s).
Proof. intros []. by constructor. Qed.

Lemma distinct_add k seen : let names := take 16 seen in
  let d := if bool_decide (k ∈ names) then Z.of_nat (length names)
           else if (length names <? 16)%nat then Z.of_nat (length names) + 1 else 16 in
  (if bool_decide (k ∈ names) then names else if (length names <? 16)%nat then names ++ [k] else names) = take 16 (add_name k seen) /\
  (3 <=? d) = (3 <=? length (add_name k seen))%nat.
Proof.
  cbv zeta. unfold add_name. rewrite length_take. destruct (Nat.le_gt_cases 16 (length seen)) as [Hl|Hl].
  - rewrite Nat.min_l by lia. destruct (Nat.ltb_spec 16 16); [lia|].
    assert (forall a : bool, (3 <=? (if a then Z.of_nat 16 else 16)) = true) as E by by intros [].
    split; [case_bool_decide; case_bool_decide; rewrite ?take_app_le by lia; done|].
    rewrite E. symmetry. apply Nat.leb_le. case_bool_decide; rewrite ?length_app; lia.
  - rewrite Nat.min_r, (take_ge seen) by lia. destruct (Nat.ltb_spec (length seen) 16); [|lia]. split.
    + case_bool_decide; rewrite take_ge; rewrite ?length_app; simpl; done || lia.
    + apply eq_true_iff_eq. rewrite Z.leb_le, Nat.leb_le. case_bool_decide; rewrite ?length_app; simpl; lia.
Qed.

Lemma failure_ok ticks now u seen s (Q : bool -> state -> Prop) :
  window seen s /\ t0 <= now <= t0 + 300 \/
    ids_inv (snd s) /\ link_inv (fst s) /\ expired now (snd s) = true /\ now = t0 /\ seen = [] ->
  user_name u ->
  (forall s', window (add_name (key u) seen) s' -> (exists l, log (snd s') = fold_left push l (log (snd s)) /\
       length l = (if (length seen =? 2) && (length (add_name (key u) seen) =? 3) then 1 else 0))%nat ->
     Q ((length seen =? 2)%nat && (length (add_name (key u) seen) =? 3)%nat) s') ->
  wp (ids_register_login_failure ticks now u) Q s.
Proof.
  intros Hw Hu HQ. unfold ids_register_login_failure. rewrite used_slot by done. apply wp_bind, wp_zoom, wp_modify.
  set (s1 := if (spray_window_start (snd s) =? 0) || _ then _ else snd s). assert (window seen (fst s, s1) /\ log s1 = log (snd s)) as [[W1 W2 W3 W4 W5] L1].
  { unfold s1. destruct Hw as [[[W1 W2 W3 W4 W5] Hn]|(Hi & Hl & He & -> & ->)].
    - rewrite W3. destruct (Z.eqb_spec t0 0); [lia|]. unfold IDS_SPRAY_WINDOW_SECONDS.
      destruct (Z.ltb_spec 300 (now -32 t0)) as [Hx|]; [u_lia|]. by split.
    - unfold expired, IDS_SPRAY_WINDOW_SECONDS in *. rewrite He. split; [|done]. constructor; [by apply put_spray_inv|done..| |done].
      exists (replicate 16 []). split; [done|]. split; [constructor|]. split; [by apply Forall_replicate|done]. }
  clearbody s1. cbn [fst snd] in *. apply wp_bind, wp_gets. cbn [snd].
  destruct (spray_update_ok now u (take 16 seen) (spray_table s1) Hu W4) as (l' & -> & Hh).
  destruct (distinct_add (key u) seen) as [E1 E2]. cbv zeta in E1, E2. rewrite E1 in Hh. clear E1.
  match type of E2 with (3 <=? ?x) = _ => set (d := x) in * end. clearbody d. unfold IDS_SPRAY_THRESHOLD. rewrite E2.
  apply wp_bind, wp_zoom, wp_modify, wp_bind, wp_gets. cbn [fst snd put_spray spray_alerted]. rewrite W5.
  set (seen' := add_name (key u) seen) in *.
  assert ((3 <=? length seen') && negb (3 <=? length seen) = (length seen =? 2) && (length seen' =? 3))%nat as E3.
  { pose proof (add_length (key u) seen) as Hc. fold seen' in Hc. clear - Hc. destruct (Nat.leb_spec 3 (length seen')), (Nat.leb_spec 3 (length seen)), (Nat.eqb_spec (length seen) 2),
      (Nat.eqb_spec (length seen') 3); try done; lia. }
  rewrite E3. destruct ((length seen =? 2)%nat && (length seen' =? 3)%nat) eqn:Ef.
  - apply andb_true_iff in Ef as [F1%Nat.eqb_eq F2%Nat.eqb_eq]. apply wp_bind, wp_zoom, wp_modify.
    apply wp_bind, generate_alert_ok; [by apply put_spray_inv, put_spray_inv|done|]. intros s2 _ A. cbn [fst snd] in A.
    apply wp_ret, HQ; [|by eexists; split; [rewrite <- L1; apply A|]]. pose proof (alerted_link _ _ _ _ A W2).
    destruct A as [A1 [D1 D2 D3 D4 D5 D6] _ _]. constructor; rewrite ?D4, ?D5, ?D6; try done. by rewrite F2.
  - apply wp_ret, HQ; [|exists []; by rewrite <- L1]. constructor; try done; [by apply put_spray_inv|].
    cbn [snd put_spray spray_alerted]. clear - E3.
    pose proof (add_length (key u) seen) as Hc. fold seen' in Hc.
    destruct (Nat.leb_spec 3 (length seen')), (Nat.leb_spec 3 (length seen)); try done; try lia.
Qed.

(** Failed logins at their times, and what the calls return. *)
Record login := mk_login { l_ticks : Z; l_now : Z; l_user : list Z }.
Fixpoint failures (l : list login) : M state (list bool) :=
  match l with
  | [] => ret []
  | e :: l' => b <- ids_register_login_failure (l_ticks e) (l_now e) (l_user e) ;; r <- failures l' ;; ret (b :: r)
  end.
(** Only the third name of a window is reported. *)
Fixpoint fires (seen : list (list Z)) (l : list login) : list bool :=
  match l with
  | [] => []
  | e :: l' => let seen' := add_name (key (l_user e)) seen in
               ((length seen =? 2)%nat && (length seen' =? 3)%nat) :: fires seen' l'
  end.

Lemma failures_ok l seen s : window seen s -> Forall (fun e => user_name (l_user e) /\ t0 <= l_now e <= t0 + 300) l ->
  wp (failures l) (fun r s' => r = fires seen l /\ ids_inv (snd s') /\ link_inv (fst s')) s.
Proof.
  revert seen s. induction l as [|e l IH]; intros seen s Hw Hl; cbn [failures fires].
  - apply wp_ret. split; [done|]. split; apply Hw.
  - apply Forall_cons in Hl as [[Hu Hn] Hl]. apply wp_bind, (failure_ok _ _ _ seen); [by left|done|]. intros s1 W1 _.
    apply wp_bind. eapply wp_mono; [by apply IH|]. intros r s2 (-> & ? & ?). by apply wp_ret.
Qed.
End Window.

(** * After initialization *)

Definition nop_sled : ids_signature :=
  mk_signature (text "Shellcode NOP Sled") (text "Common x86 shellcode pattern with NOP sled")
    (Some [0x90; 0x90; 0x90; 0x90; 0x31; 0xc0]) 6 IDS_ALERT_SHELLCODE IDS_SEVERITY_CRITICAL IDS_ACTION_BLOCK true 0.
Definition ids0 : ids :=
  mk_ids (nop_sled :: replicate 127 zero_signature) 1 (replicate 1000 zero_alert) 0 0 zero_baseline
    (mk_stats 0 0 (replicate 15 0) 0 1 0) (replicate 16 (mk_failed [] 0)) 0 false.
Definition detector0 : state := (link0, ids0).

Lemma ids0_init : exists s, ids_init s = Ok (tt, ids0).
Proof. exists (mk_ids [] 0 [] 0 0 zero_baseline zero_stats (replicate 16 (mk_failed [] 0)) 0 false). reflexivity. Qed.

Lemma ids0_inv : ids_inv ids0.
Proof.
  constructor; try reflexivity; cbn [ids0 signature_count alert_head alert_count]; try lia.
  cbn [ids0 signatures]. constructor; [intros p [= <-]; simpl; lia|]. apply Forall_replicate. done.
Qed.

(** * The properties *)

(** C20. Packets: for every packet with a full IP header the detector comes to an
    end without reading outside the packet or a pattern; it lets the packet pass
    exactly if the header length is legal and no blocking signature in use occurs in
    the payload; it raises one alert for each signature that occurs, in order, in a
    ring that keeps the last 1000 alerts; for every alert of high severity, and only
    for those, it adds a rule against the source, as long as there is room, and
    changes nothing else below. *)
Theorem ids_analyze_packet_spec now ip s :
  ids_inv (snd s) -> link_inv (fst s) -> bytes ip -> (20 <= length ip)%nat ->
  exists s', ids_analyze_packet now ip s = Ok (clean ip (active (snd s)), s') /\
    alerted (be32 ip ip_src_ip) (alerts_for now ip (active (snd s))) s s'.
Proof.
  intros H Hl Hb Hlen.
  assert (wp (ids_analyze_packet now ip) (fun b s' => b = clean ip (active (snd s)) /\
    alerted (be32 ip ip_src_ip) (alerts_for now ip (active (snd s))) s s') s) as (b & s' & E & -> & A)%wp_elim.
  { apply analyze_packet_ok; [done..|]. intros s' A. done. }
  by exists s'.
Qed.

Lemma ids_analyze_packet_spec_witness : exists s',
  ids_analyze_packet 5 FirewallProps.query_reply detector0 = Ok (true, s') /\ log (snd s') = [].
Proof.
  destruct (ids_analyze_packet_spec 5 FirewallProps.query_reply detector0 ids0_inv link0_inv FirewallProps.query_reply_bytes)
    as (s' & E & [_ _ El _]); [apply Nat.leb_le; reflexivity|].
  exists s'. split; [exact E|exact El].
Defined.

(** Credential sprays: when failed logins come within one window of five
    minutes after the last one has expired, exactly the call with the third
    distinct name (up to its first 31 characters) reports a spray, however many
    more names follow and however often a name is repeated. *)
Theorem ids_spray_spec e l s :
  ids_inv (snd s) -> link_inv (fst s) -> expired (l_now e) (snd s) = true -> 0 < l_now e -> l_now e + 300 < 2 ^ 32 ->
  user_name (l_user e) -> Forall (fun e' => user_name (l_user e') /\ l_now e <= l_now e' <= l_now e + 300) l ->
  exists s', failures (e :: l) s = Ok (fires [] (e :: l), s').
Proof.
  intros H Hl He Ht Ht' Hu Hf.
  assert (wp (failures (e :: l)) (fun r _ => r = fires [] (e :: l)) s) as (r & s' & E & ->)%wp_elim; [|by exists s'].
  cbn [failures fires]. apply wp_bind, (failure_ok (l_now e) ltac:(lia) _ _ _ []); [by right|done|]. intros s1 W1 _.
  apply wp_bind. eapply wp_mono; [by apply (failures_ok (l_now e) ltac:(lia))|]. intros r s2 (-> & _ & _). by apply wp_ret.
Qed.

Lemma ids_spray_spec_witness : exists s',
  failures [mk_login 0 10 [97]; mk_login 0 20 [98]; mk_login 0 25 [97]; mk_login 0 30 [99]] detector0 =
    Ok ([false; false; false; true], s').
Proof.
  assert (forall c, 0 < c < 256 -> user_name [c]) as Hc by (intros c H; split; [repeat constructor; lia|discriminate]).
  apply (ids_spray_spec (mk_login 0 10 [97]) [mk_login 0 20 [98]; mk_login 0 25 [97]; mk_login 0 30 [99]] detector0 ids0_inv link0_inv);
    [reflexivity|simpl; lia|simpl; lia|apply Hc; lia|].
  repeat (apply Forall_cons_2; [split; [apply Hc; lia|simpl; lia]|]). apply Forall_nil_2.
Defined.

End Ids.
