(* ===== verification/Net.v ===== *)
(** The receive path of src/net.c: frames, IP packets, and their way through
    the packet filter and the intrusion detection to ICMP, UDP and TCP; the
    senders of single TCP segments; the parser of addresses.

    The state puts the components together.  What a frame is received in is an
    argument: the time, the privilege level of the code, whether an interrupt is
    being served, and the bytes the random number generator will return. *)
From Stdlib Require Import ZArith Lia List Bool.
From stdpp Require Import base tactics numbers list.
From S2P Require Import Prelude NetHdr Checksum Firewall Link Tcp Icmp Ids Dns Dhcp.
Open Scope Z_scope.

Module Net.
Import NetHdr Checksum Link.

Inductive counter :=
| udp_rx_accepted | udp_drop_length | udp_drop_checksum | net_parse_irq | net_parse_thread | net_parse_cpl0 | net_parse_cpl3
| icmp_cpl0 | icmp_cpl3 | udp_cpl0 | udp_cpl3 | tcp_cpl0 | tcp_cpl3 | net_drop_runt | net_drop_ethertype.
#[export] Instance counter_eq_dec : EqDecision counter.
Proof. solve_decision. Defined.

Record host := mk_host {
  lk : link; tcp : Tcp.tcp; icmp : Icmp.icmp; ids : Ids.ids; dns : Dns.dns; dhcp : Dhcp.dhcp; counts : counter -> Z }.

Section Parts.
Context {A : Type}.
Definition on_link (m : M link A) : M host A :=
  zoom lk (fun l s => mk_host l (tcp s) (icmp s) (ids s) (dns s) (dhcp s) (counts s)) m.
Definition on_tcp (m : M (link * Tcp.tcp) A) : M host A :=
  zoom (fun s => (lk s, tcp s)) (fun t s => mk_host (fst t) (snd t) (icmp s) (ids s) (dns s) (dhcp s) (counts s)) m.
Definition on_icmp (m : M (link * Icmp.icmp) A) : M host A :=
  zoom (fun s => (lk s, icmp s)) (fun t s => mk_host (fst t) (tcp s) (snd t) (ids s) (dns s) (dhcp s) (counts s)) m.
Definition on_ids (m : M (link * Ids.ids) A) : M host A :=
  zoom (fun s => (lk s, ids s)) (fun t s => mk_host (fst t) (tcp s) (icmp s) (snd t) (dns s) (dhcp s) (counts s)) m.
Definition on_dns (m : M Dns.dns A) : M host A :=
  zoom dns (fun d s => mk_host (lk s) (tcp s) (icmp s) (ids s) d (dhcp s) (counts s)) m.
Definition on_dhcp (m : M (link * (Dns.dns * Dhcp.dhcp)) A) : M host A :=
  zoom (fun s => (lk s, (dns s, dhcp s)))
       (fun t s => mk_host (fst t) (tcp s) (icmp s) (ids s) (fst (snd t)) (snd (snd t)) (counts s)) m.
End Parts.

Definition bump (k : counter) : M host unit := modify (fun s =>
  mk_host (lk s) (tcp s) (icmp s) (ids s) (dns s) (dhcp s)
    (fun d => if bool_decide (d = k) then counts s k +32 1 else counts s d)).

(** What a frame is received in. *)
Record context := mk_context { ticks : Z; cpl : Z; in_interrupt : bool; random : Z }.

(** A header with a 16-bit field set to 0 while its checksum is computed. *)
Definition clear16 (p : list Z) (off : nat) : list Z := <[off := 0]> (<[S off := 0]> p).

(** [p]: the IP packet, of [ip_len] bytes. *)
Definition handle_udp (c : context) (p : list Z) : M host unit :=
  let ip_len := Z.of_nat (length p) in
  version_ihl <- load8 p ip_version_ihl ;;
  let ip_hdr_len := Z.land version_ihl 0x0F *32 4 in
  if ip_len <? ip_hdr_len +32 sizeof_udp_header then bump udp_drop_length else
  let udp := drop (Z.to_nat ip_hdr_len) p in
  src_port <- net16 udp l4_src_port ;; dest_port <- net16 udp l4_dest_port ;; len <- net16 udp udp_length ;;
  let ip_payload_len := u16 (ip_len - ip_hdr_len) in
  if len <? sizeof_udp_header then bump udp_drop_length else
  if ip_payload_len <? len then bump udp_drop_length else
  received <- net16 udp udp_checksum ;;
  ok <- (if negb (received =? 0) then
           calculated <- lift (calculate_l4_checksum (field p 12 4) (field p 16 4) IPPROTO_UDP
                                 (take (Z.to_nat len) (clear16 udp 6))) ;;
           ret (calculated =? received)
         else ret true) ;;
  if negb ok then bump udp_drop_checksum else
  bump udp_rx_accepted ;;;
  let data := drop 8 (take (Z.to_nat len) udp) in
  if src_port =? 53 then on_dns (Dns.handle_dns_response data (field p 12 4) dest_port)
  else if (src_port =? 67) && (dest_port =? 68) then on_dhcp (Dhcp.handle_dhcp (ticks c) (random c) data)
  else ret tt.

Definition handle_tcp (c : context) (p : list Z) : M host unit :=
  let ip_len := Z.of_nat (length p) in
  version_ihl <- load8 p ip_version_ihl ;;
  let ip_hdr_len := Z.land version_ihl 0x0F *32 4 in
  if ip_len <? ip_hdr_len then ret tt else
  let seg := drop (Z.to_nat ip_hdr_len) p in
  if ip_len -32 ip_hdr_len <? sizeof_tcp_header then ret tt else
  received <- net16 seg tcp_checksum ;;
  calculated <- lift (calculate_l4_checksum (field p 12 4) (field p 16 4) IPPROTO_TCP (clear16 seg 16)) ;;
  if negb (calculated =? received) then ret tt else
  on_tcp (Tcp.tcp_handle_packet (ticks c) (field p 12 4) seg).

(** The checks of a source address; [true]: dropped. *)
Definition bogon_source (src : list Z) (s : link) : bool :=
  let b k := src !!! k in
  (b 0%nat =? 127) || (b 0%nat =? 0) || ((224 <=? b 0%nat) && (b 0%nat <=? 239)) ||
  ((b 0%nat =? 255) && (b 1%nat =? 255) && (b 2%nat =? 255) && (b 3%nat =? 255)) || same src (my_ip s).

(** Is the packet for this host? *)
Definition for_host (dest : list Z) (s : link) : bool :=
  same dest (my_ip s) || net_is_broadcast_ip dest s || (is_zero (my_ip s) && (dest !!! 3%nat =? 255)).

(** The transport protocols; [frame]: the Ethernet frame, [p]: the packet in it
    up to its total length. *)
Definition dispatch (c : context) (frame p : list Z) (ip_hdr_len : Z) : M host unit :=
  let payload_len := Z.of_nat (length p) - ip_hdr_len in
  let arp_update := on_link (arp_cache_update (ticks c) (field p 12 4) (field frame 6 6)) in
  protocol <- load8 p ip_protocol ;;
  if protocol =? IPPROTO_ICMP then
    bump (if cpl c =? 3 then icmp_cpl3 else icmp_cpl0) ;;;
    if payload_len <? 8 then ret tt else
    arp_update ;;;
    on_icmp (Icmp.handle_icmp_with_context (ticks c) frame p (drop (Z.to_nat ip_hdr_len) p))
  else if protocol =? IPPROTO_UDP then
    bump (if cpl c =? 3 then udp_cpl3 else udp_cpl0) ;;;
    if payload_len <? sizeof_udp_header then ret tt else
    arp_update ;;;
    handle_udp c p
  else if protocol =? IPPROTO_TCP then
    bump (if cpl c =? 3 then tcp_cpl3 else tcp_cpl0) ;;;
    if payload_len <? sizeof_tcp_header then ret tt else
    arp_update ;;;
    handle_tcp c p
  else ret tt.

(** [ip]: the bytes of the frame behind the Ethernet header. *)
Definition handle_ip (c : context) (frame ip : list Z) : M host unit :=
  let ip_len := Z.of_nat (length ip) in
  if ip_len <? sizeof_ip_header then ret tt else
  version_ihl <- load8 ip ip_version_ihl ;;
  let ihl := Z.land version_ihl 0x0F in
  let ip_hdr_len_bytes := u8 (ihl * 4) in
  if (ihl <? 5) || (15 <? ihl) then ret tt else
  if ip_len <? ip_hdr_len_bytes then ret tt else
  received <- net16 ip ip_checksum ;;
  calculated <- lift (calculate_checksum (take (Z.to_nat ip_hdr_len_bytes) (clear16 ip 10))) ;;
  if negb (calculated =? received) then ret tt else
  total_len <- net16 ip ip_total_length ;;
  if total_len <? ip_hdr_len_bytes then ret tt else
  if ip_len <? total_len then ret tt else
  bogon <- on_link (gets (bogon_source (field ip 12 4))) ;;
  if (bogon : bool) then ret tt else
  flags_frag <- net16 ip ip_flags_fragment ;;
  let flags := Z.land (Z.shiftr flags_frag 13) 0x7 in
  let frag_offset := u16 (Z.land flags_frag 0x1FFF * 8) in
  if negb (frag_offset =? 0) || negb (Z.land flags 0x1 =? 0) then ret tt else
  d0 <- load8 ip ip_dest_ip ;;
  if (224 <=? d0) && (d0 <=? 239) then ret tt else
  mine <- on_link (gets (for_host (field ip 16 4))) ;;
  if negb (mine : bool) then ret tt else
  let p := take (Z.to_nat total_len) ip in
  admitted <- on_link (on_filter (Firewall.firewall_check_packet (ticks c) p)) ;;
  if negb (admitted : bool) then ret tt else
  clean <- on_ids (Ids.ids_analyze_packet (ticks c) p) ;;
  if negb (clean : bool) then ret tt else
  dispatch c frame p ip_hdr_len_bytes.

Definition handle_packet (c : context) (frame : list Z) : M host unit :=
  let len := Z.of_nat (length frame) in
  bump (if in_interrupt c then net_parse_irq else net_parse_thread) ;;;
  bump (if cpl c =? 3 then net_parse_cpl3 else net_parse_cpl0) ;;;
  if len <? sizeof_eth_header then bump net_drop_runt else
  ethertype <- net16 frame 12 ;;
  ours <- on_link (gets (fun s => same (field frame 0 6) (my_mac s) || same (field frame 0 6) broadcast_mac)) ;;
  if negb (ours : bool) then ret tt else
  if ethertype =? ETH_TYPE_ARP then
    if len <? sizeof_eth_header + sizeof_arp_header then ret tt
    else on_link (handle_arp (ticks c) (drop 14 frame) (field frame 6 6))
  else if ethertype =? ETH_TYPE_IPV4 then
    if len <? sizeof_eth_header + sizeof_ip_header then ret tt
    else handle_ip c frame (drop 14 frame)
  else bump net_drop_ethertype.

(** * Sending single segments *)

Definition tcp_head (src_port dest_port seq ack flags : Z) : list Z :=
  net_bytes16 src_port ++ net_bytes16 dest_port ++ net_bytes32 seq ++ net_bytes32 ack ++ [u8 (Z.shiftl (20 / 4) 4); flags] ++
  net_bytes16 512.
Definition send_segment (id : Z) (dest_ip dest_mac head : list Z) : M link unit :=
  mm <- gets my_mac ;; mi <- gets my_ip ;;
  seg <- lift (l4_segment mi dest_ip IPPROTO_TCP head [0; 0] 0) ;;
  hdr <- lift (ip_header (20 + 20) id IPPROTO_TCP mi dest_ip) ;;
  e1000_send (eth_frame dest_mac mm ETH_TYPE_IPV4 (hdr ++ seg)).
Definition send_tcp_syn (dest_ip dest_mac : list Z) (src_port dest_port : Z) : M link unit :=
  send_segment 0xDEF0 dest_ip dest_mac (tcp_head src_port dest_port 1000 0 TCP_SYN).
Definition send_tcp_ack (dest_ip dest_mac : list Z) (src_port dest_port our_seq_num peer_ack_num : Z) : M link unit :=
  send_segment 0xDEF1 dest_ip dest_mac (tcp_head src_port dest_port our_seq_num peer_ack_num TCP_ACK).

(** * Addresses as text *)

Definition is_digit (ch : Z) : bool := (48 <=? ch) && (ch <=? 57).
Fixpoint skip (ws : list Z) (s : list Z) : list Z :=
  match s with ch :: s' => if existsb (Z.eqb ch) ws then skip ws s' else s | [] => [] end.
(** The digits at the front of [s], added to the value [v]; [None]: too large. *)
Fixpoint octet (v : Z) (s : list Z) : option (Z * list Z) :=
  match s with
  | ch :: s' => if is_digit ch then (let v' := v * 10 + (ch - 48) in if 255 <? v' then None else octet v' s') else Some (v, s)
  | [] => Some (v, [])
  end.
(** The last [n] octets. *)
Fixpoint octets (n : nat) (s : list Z) : option (list Z) :=
  match n with
  | O => Some []
  | S n' =>
      match s with
      | ch :: _ =>
          if is_digit ch then
            match octet 0 s with
            | None => None
            | Some (v, s') =>
                match n', s' with
                | O, _ => match skip [32; 9; 13; 10] s' with [] => Some [v] | _ => None end
                | S _, dot :: s'' => if dot =? 46 then option_map (cons v) (octets n' s'') else None
                | S _, [] => None
                end
            end
          else None
      | [] => None
      end
  end.
(** [ip_str]: the characters in front of the terminator, [None] for a null
    pointer; the address on success. *)
Definition parse_ip (ip_str : option (list Z)) : option (list Z) :=
  match ip_str with
  | None => None
  | Some s => option_map (map u8) (octets 4 (skip [32; 9] s))
  end.

End Net.
