(* ===== verification/NetProps.v ===== *)
(** Theorems about the receive path: which packets reach a protocol, what each
    frame does to the host, and what no sequence of frames can do. *)
From Stdlib Require Import ZArith Lia List Bool.
From stdpp Require Import base tactics numbers list.
From S2P Require Import Prelude NetHdr Checksum Firewall FirewallProps Link LinkProps Tcp TcpInv TcpProps Icmp Ids Dns Dhcp DhcpProps Net.
Open Scope Z_scope.

Module NetProps.
Import NetHdr Checksum Link Net.

(** * The invariant of the host *)

Record host_inv (s : host) : Prop := mk_host_inv {
  hi_tcp : TcpInv.tcp_inv (lk s, tcp s);
  hi_dhcp : DhcpProps.dhcp_inv (lk s, (dns s, dhcp s));
  hi_agrees : DhcpProps.agrees (lk s, (dns s, dhcp s));
  hi_ids : Ids.ids_inv (ids s) }.

Lemma hi_link s : host_inv s -> link_inv (lk s).
Proof. intros []. by destruct hi_tcp0. Qed.

(** Another state of the lower layer under the same addresses. *)
Lemma tcp_relink l l' t : link_inv l' -> TcpInv.tcp_inv (l, t) -> TcpInv.tcp_inv (l', t).
Proof. intros H []. by constructor. Qed.
Lemma dhcp_relink l l' d : link_inv l' -> DhcpProps.dhcp_inv (l, d) -> DhcpProps.dhcp_inv (l', d).
Proof. intros H []. by constructor. Qed.
Lemma agrees_relink l l' d : same_config l l' -> DhcpProps.agrees (l, d) -> DhcpProps.agrees (l', d).
Proof. intros [_ E1 E2 E3] H Hh. destruct (H Hh) as (? & ? & ?). repeat split; simpl in *; congruence. Qed.

Lemma relinked s s' :
  host_inv s -> link_inv (lk s') -> same_config (lk s) (lk s') -> tcp s' = tcp s -> dns s' = dns s -> dhcp s' = dhcp s ->
  Ids.ids_inv (ids s') -> host_inv s'.
Proof.
  intros [] Hl Hc E1 E2 E3 Hi. constructor; rewrite ?E1, ?E2, ?E3;
    [by eapply tcp_relink|by eapply dhcp_relink|by eapply agrees_relink|done].
Qed.

(** What happens in front of the protocols: the filter, the detection and the
    cache of addresses, but nothing is sent. *)
Record front (ticks : Z) (l l' : link) : Prop := mk_front {
  fr_inv : link_inv l'; fr_safe : arp_safe ticks l l'; fr_sent : sent l' = sent l }.

Lemma front_refl ticks l : link_inv l -> front ticks l l.
Proof. intros H. constructor; [done| |done]. constructor; [by left|apply same_config_refl]. Qed.

Lemma front_filter ticks l l' f :
  front ticks l l' -> Firewall.fw_inv f -> front ticks l (put_filter f l').
Proof.
  intros [Hi [Hm [C1 C2 C3 C4]] Hs] Hf. destruct Hi. constructor; [by constructor|constructor; [exact Hm|by constructor]|done].
Qed.

(** Neither the filter nor the detection touch the pending requests, so the
    update that follows is safe with the requests of the beginning. *)
Definition same_requests (l l' : link) : Prop :=
  arp_pending_requests l' = arp_pending_requests l /\ arp_cache l' = arp_cache l /\ sent l' = sent l /\ same_config l l'.

Lemma front_arp ticks l l1 l2 : same_requests l l1 -> arp_step ticks l1 l2 -> front ticks l l2.
Proof.
  intros (Eq & Ec & Es & C) [Hi [Hm Hc] Hs _ _]. constructor; [done| |congruence].
  constructor; [|by eapply same_config_trans]. intros a m Ha. destruct (Hm a m Ha) as [(e & He & H)|(q & Hq & H)].
  - left. exists e. by rewrite <- Ec.
  - right. exists q. by rewrite <- Eq.
Qed.

(** * Packets *)

Definition payload (p : list Z) : list Z := drop (Z.to_nat (Firewall.header_len p)) p.
Definition src_of (p : list Z) : list Z := field p 12 4.
Definition dst_of (p : list Z) : list Z := field p 16 4.

(** A UDP datagram with a length that fits and, if it has a checksum, the right
    one; a TCP segment with the right checksum. *)
Definition datagram (p : list Z) : bool :=
  let m := payload p in let len := be16 m 4 in
  (8 <=? Z.of_nat (length m)) && (8 <=? len) && (len <=? Z.of_nat (length m)) &&
  ((be16 m 6 =? 0) ||
   (checksum (pseudo (src_of p) (dst_of p) IPPROTO_UDP (Z.to_nat len) ++ take (Z.to_nat len) (clear16 m 6)) =? be16 m 6)).
Definition segment (p : list Z) : bool :=
  let m := payload p in
  (20 <=? Z.of_nat (length m)) &&
  (checksum (pseudo (src_of p) (dst_of p) IPPROTO_TCP (length m) ++ clear16 m 16) =? be16 m 16).
Definition data_of (m : list Z) : list Z := drop 8 (take (Z.to_nat (be16 m 4)) m).

Inductive protocol := ICMP | DNS | DHCP | TCP.
Definition protocol_of (p : list Z) : option protocol :=
  let m := payload p in
  if at8 p ip_protocol =? IPPROTO_ICMP then (if 8 <=? Z.of_nat (length m) then Some ICMP else None)
  else if at8 p ip_protocol =? IPPROTO_UDP then
    (if datagram p then
       (if be16 m 0 =? 53 then Some DNS
        else if (be16 m 0 =? 67) && (be16 m 2 =? 68) then Some DHCP else None)
     else None)
  else if at8 p ip_protocol =? IPPROTO_TCP then (if segment p then Some TCP else None)
  else None.

(** What a packet does to the protocols, from the state [l] of the lower layer. *)
Definition delivered (c : context) (frame p : list Z) (l : link) (s s' : host) : Prop :=
  let m := payload p in
  match protocol_of p with
  | Some ICMP =>
      Icmp.icmp_step (ticks c) frame p m (l, icmp s) (lk s', icmp s') /\
      tcp s' = tcp s /\ dns s' = dns s /\ dhcp s' = dhcp s
  | Some DNS =>
      (Dns.same_answer (dns s) (dns s') \/
       exists a, Dns.accepted (dns s) (data_of m) (src_of p) (be16 m 2) a /\ Dns.answered (dns s) (dns s') a) /\
      lk s' = l /\ tcp s' = tcp s /\ icmp s' = icmp s /\ dhcp s' = dhcp s
  | Some DHCP =>
      DhcpProps.handled (ticks c) (random c) (data_of m) (l, (dns s, dhcp s)) (lk s', (dns s', dhcp s')) /\
      tcp s' = tcp s /\ icmp s' = icmp s
  | Some TCP =>
      (TcpInv.well_formed m /\ TcpInv.handled (src_of p) m (l, tcp s) (lk s', tcp s') \/
       ~ TcpInv.well_formed m /\ TcpInv.quiet (l, tcp s) (lk s', tcp s')) /\
      icmp s' = icmp s /\ dns s' = dns s /\ dhcp s' = dhcp s
  | None => lk s' = l /\ tcp s' = tcp s /\ icmp s' = icmp s /\ dns s' = dns s /\ dhcp s' = dhcp s
  end.

Lemma header_range p : bytes p -> 0 <= Firewall.header_len p <= 60.
Proof. intros H. pose proof (at8_byte p ip_version_ihl H). unfold Firewall.header_len. Z.to_euclidean_division_equations; lia. Qed.

Lemma header_word p : bytes p -> Z.land (at8 p ip_version_ihl) 0x0F *32 4 = Firewall.header_len p.
Proof.
  intros H. pose proof (at8_byte p ip_version_ihl H). unfold Firewall.header_len. change 0x0F with (Z.ones 4).
  rewrite Z.land_ones by lia. change (2 ^ 4) with 16. u_lia.
Qed.

Lemma clear16_bytes p off : bytes p -> bytes (clear16 p off).
Proof. intros H. unfold clear16. apply Forall_insert; [apply Forall_insert; [done|lia]|lia]. Qed.
Lemma clear16_length p off : length (clear16 p off) = length p.
Proof. unfold clear16. by rewrite !length_insert. Qed.
Lemma field_addr p off n : bytes p -> (off + n <= length p)%nat -> addr n (field p off n).
Proof.
  intros H Hl. unfold field. split; [by apply Forall_take, Forall_drop|]. rewrite length_take, length_drop. lia.
Qed.

(** A packet in its buffer, with a header that fits. *)
Record packet (p : list Z) : Prop := mk_packet {
  pk_bytes : bytes p; pk_header : 20 <= Firewall.header_len p <= Z.of_nat (length p); pk_length : Z.of_nat (length p) < 65536 }.

Section Transport.
Context (c : context) (frame : list Z) (Ht : 0 <= ticks c < 2 ^ 32) (p : list Z) (Hp : packet p).
Implicit Types (s : host) (Q : unit -> host -> Prop).

Lemma payload_length : Z.of_nat (length (payload p)) = Z.of_nat (length p) - Firewall.header_len p.
Proof. destruct Hp. unfold payload. rewrite length_drop. lia. Qed.
Lemma payload_bytes : bytes (payload p).
Proof. apply Forall_drop, Hp. Qed.
Lemma src_addr : addr 4 (src_of p).
Proof. destruct Hp. apply field_addr; [done|lia]. Qed.
Lemma dst_addr : addr 4 (dst_of p).
Proof. destruct Hp. apply field_addr; [done|lia]. Qed.

Lemma l4_checksum_ok protocol seg : byte protocol -> bytes seg -> Z.of_nat (length seg) < 65536 ->
  calculate_l4_checksum (src_of p) (dst_of p) protocol seg =
  Ok (checksum (pseudo (src_of p) (dst_of p) protocol (length seg) ++ seg)).
Proof. intros. destruct src_addr, dst_addr. by apply calculate_l4_checksum_ok. Qed.

Lemma udp_sum_ok m s (R : bool -> host -> Prop) :
  bytes m -> be16 m 4 <= Z.of_nat (length m) ->
  R ((be16 m 6 =? 0) || (checksum (pseudo (src_of p) (dst_of p) IPPROTO_UDP (Z.to_nat (be16 m 4)) ++
                                   take (Z.to_nat (be16 m 4)) (clear16 m 6)) =? be16 m 6)) s ->
  wp (if negb (be16 m 6 =? 0) then
        calculated <- lift (calculate_l4_checksum (field p 12 4) (field p 16 4) IPPROTO_UDP
                              (take (Z.to_nat (be16 m 4)) (clear16 m 6))) ;;
        ret (calculated =? be16 m 6)
      else ret true) R s.
Proof.
  intros Hb Hl HR. pose proof (be16_range m 4 Hb). destruct (be16 m 6 =? 0); [exact HR|]. cbn [negb orb] in *.
  apply wp_bind. eapply wp_lift.
  - apply l4_checksum_ok; [split; done|by apply Forall_take, clear16_bytes|rewrite length_take, clear16_length; lia].
  - rewrite length_take, clear16_length, Nat.min_l by lia. exact HR.
Qed.

(** The datagrams the checks of [handle_udp] let through are those of [datagram]. *)
Lemma handle_udp_ok s Q :
  host_inv s -> at8 p ip_protocol = IPPROTO_UDP ->
  (forall s', delivered c frame p (lk s) s s' -> ids s' = ids s -> Q tt s') -> wp (handle_udp c p) Q s.
Proof.
  intros H Ep HQ. pose proof payload_length as Hl. pose proof payload_bytes as Hb. destruct Hp as [Hbp Hh Hlen].
  assert (protocol_of p = if datagram p then (if be16 (payload p) 0 =? 53 then Some DNS
    else if (be16 (payload p) 0 =? 67) && (be16 (payload p) 2 =? 68) then Some DHCP else None) else None) as E.
  { unfold protocol_of. by rewrite Ep. }
  assert (forall k, protocol_of p = None -> wp (bump k) Q s) as Hbump.
  { intros k En. apply wp_modify, HQ; [|done]. unfold delivered. by rewrite En. }
  unfold handle_udp. apply wp_bind, load8_ok; [unfold ip_version_ihl; lia|]. rewrite header_word by done. cbv zeta.
  fold (payload p). set (m := payload p) in *. pose proof (be16_range m 4 Hb). unfold datagram in E. cbv zeta in E. fold m in E.
  unfold sizeof_udp_header, udp_length, udp_checksum, l4_src_port, l4_dest_port in *.
  replace (Firewall.header_len p +32 8) with (Firewall.header_len p + 8) by (pose proof (header_range p Hbp); u_lia).
  destruct (Z.ltb_spec (Z.of_nat (length p)) (Firewall.header_len p + 8)) as [H8|H8].
  { apply Hbump. rewrite E. by destruct (Z.leb_spec 8 (Z.of_nat (length m))); [lia|]. }
  do 3 (apply wp_bind, net16_ok; [done|lia..|]).
  replace (u16 _) with (Z.of_nat (length m)) by u_lia.
  destruct (Z.leb_spec 8 (Z.of_nat (length m))); [|lia]. cbn [andb] in E.
  destruct (Z.ltb_spec (be16 m 4) 8) as [Hs|Hs], (Z.leb_spec 8 (be16 m 4)); try lia; [by apply Hbump|].
  destruct (Z.ltb_spec (Z.of_nat (length m)) (be16 m 4)), (Z.leb_spec (be16 m 4) (Z.of_nat (length m))); try lia; [by apply Hbump|].
  apply wp_bind, net16_ok; [done|lia..|]. cbn [andb] in E.
  apply wp_bind, udp_sum_ok; [done|lia|]. set (good := _ || _) in *. destruct good; cbn [negb]; [|by apply Hbump].
  apply wp_bind, wp_modify. fold (data_of m). destruct (Z.eqb_spec (be16 m 0) 53) as [E53|E53].
  - apply wp_zoom. eapply wp_mono; [apply Dns.handle_ok; by apply Forall_drop, Forall_take|]. intros [] d Hd.
    apply HQ; [|done]. unfold delivered. rewrite E. fold m. split_and!; try done.
  - destruct (_ && _); [|apply wp_ret, HQ; [|done]; unfold delivered; by rewrite E].
    apply wp_zoom, DhcpProps.handle_dhcp_ok; [apply H|by apply Forall_drop, Forall_take|done|].
    intros [l' [d' h']] Hd. apply HQ; [|done]. unfold delivered. rewrite E. fold m. split_and!; done.
Qed.

Lemma handle_tcp_ok s Q :
  host_inv s -> at8 p ip_protocol = IPPROTO_TCP ->
  (forall s', delivered c frame p (lk s) s s' -> ids s' = ids s -> Q tt s') -> wp (handle_tcp c p) Q s.
Proof.
  intros H Ep HQ. pose proof payload_length as Hl. pose proof payload_bytes as Hb. destruct Hp as [Hbp Hh Hlen].
  assert (protocol_of p = if segment p then Some TCP else None) as E by (unfold protocol_of; by rewrite Ep).
  assert (protocol_of p = None -> wp (ret tt) Q s) as Hret.
  { intros En. apply wp_ret, HQ; [|done]. unfold delivered. by rewrite En. }
  unfold handle_tcp. apply wp_bind, load8_ok; [unfold ip_version_ihl; lia|]. rewrite header_word by done. cbv zeta.
  fold (payload p). set (m := payload p) in *. unfold segment in E. cbv zeta in E. fold m in E. unfold sizeof_tcp_header, tcp_checksum.
  destruct (Z.ltb_spec (Z.of_nat (length p)) (Firewall.header_len p)); [lia|].
  replace (_ -32 _) with (Z.of_nat (length m)) by u_lia.
  destruct (Z.ltb_spec (Z.of_nat (length m)) 20), (Z.leb_spec 20 (Z.of_nat (length m))); try lia; [by apply Hret|].
  apply wp_bind, net16_ok; [done|lia..|]. apply wp_bind. eapply wp_lift.
  { apply l4_checksum_ok; [split; done|by apply clear16_bytes|rewrite clear16_length; lia]. }
  rewrite clear16_length. cbn [andb] in E. destruct (_ =? _); cbn [negb]; [|by apply Hret].
  apply wp_zoom, TcpInv.handle_packet_ok; [apply H|done|..]; intros [l' t'] Hw Hd; (apply HQ; [|done]); unfold delivered; rewrite E;
    fold m; (split_and!; [|done..]); [right|left]; done.
Qed.

(** Only DHCP changes the addresses of the host. *)
Lemma delivered_config s s' : delivered c frame p (lk s) s s' -> protocol_of p = Some DHCP \/ same_config (lk s) (lk s').
Proof.
  unfold delivered. pose proof (same_config_refl (lk s)) as Hr. destruct (protocol_of p) as [[]|]; [..|by intros (-> & _); right].
  - intros ([_ _ [(_ & _ & f & _ & E & _)|(_ & E & _)]] & _); right; simpl in E; rewrite E; by constructor.
  - intros (_ & -> & _). by right.
  - by left.
  - intros ([[_ Hh]|[_ [_ E _ _]]] & _); right; [|simpl in E; by rewrite E]. unfold TcpInv.handled in Hh.
    destruct (Tcp.tcp_find_connection _ _ _ _); [by destruct Hh as (? & ? & _ & [_ [] _ _] & _)|].
    destruct Hh as [_ E _ _]. simpl in E. by rewrite E.
Qed.

Lemma delivered_inv s s' : host_inv s -> delivered c frame p (lk s) s s' -> ids s' = ids s -> host_inv s'.
Proof.
  intros H Hd Ei. assert (Ids.ids_inv (ids s')) as Hi by (rewrite Ei; apply H). pose proof (hi_link s H) as Hl.
  pose proof (delivered_config s s' Hd) as Hc. unfold delivered in Hd. destruct (protocol_of p) as [[]|].
  - destruct Hd as (Hs & E1 & E2 & E3). destruct Hc as [|Hc]; [done|]. apply (relinked s); try done.
    exact (Icmp.icmp_step_inv (ticks c) frame p (payload p) (lk s, icmp s) (lk s', icmp s') Hl Hs).
  - destruct Hd as (_ & E & E1 & _ & E3). destruct H as [Ht0 [] Ha _]. constructor; rewrite ?E, ?E1, ?E3; done.
  - destruct Hd as (Hh & E1 & _). assert (DhcpProps.tame (lk s, (dns s, dhcp s)) (lk s', (dns s', dhcp s'))) as T.
    { eapply DhcpProps.handled_tame, Hh. apply H. }
    constructor; [|apply T|apply T, H|done]. rewrite E1. eapply tcp_relink, H. apply (DhcpProps.di_link _ (DhcpProps.ta_inv _ _ T)).
  - destruct Hd as (Hh & _ & E2 & E3). destruct Hc as [|Hc]; [done|]. assert (TcpInv.tcp_inv (lk s', tcp s')) as Hi'.
    { destruct Hh as [[_ Hh]|[_ []]]; [by eapply TcpInv.handled_inv|done]. }
    constructor; rewrite ?E2, ?E3; [done|eapply dhcp_relink, H; apply (TcpInv.ti_link _ Hi')|by eapply agrees_relink, H|done].
  - destruct Hd as (E & E1 & _ & E2 & E3). apply (relinked s); try done; rewrite E; [done|apply same_config_refl].
Qed.

(** The state with another lower layer. *)
Definition with_link (s : host) (l : link) (k : counter -> Z) : host := mk_host l (tcp s) (icmp s) (ids s) (dns s) (dhcp s) k.

Lemma learn_ok s0 s a m Q :
  addr 6 m -> host_inv s -> same_requests (lk s0) (lk s) ->
  (forall l, front (ticks c) (lk s0) l -> host_inv (with_link s l (counts s)) -> Q tt (with_link s l (counts s))) ->
  wp (on_link (arp_cache_update (ticks c) a m)) Q s.
Proof.
  intros Hm H Hr HQ. apply wp_zoom. unfold arp_cache_update. apply wp_bind, update_status_ok; [done|by apply hi_link|].
  intros r l Hs _. apply wp_ret, HQ; [by eapply front_arp|]. apply (relinked s); try done; apply Hs || apply H.
Qed.

Lemma deliver_ok s0 s Q :
  host_inv s -> front (ticks c) (lk s0) (lk s) -> same_requests (lk s0) (lk s) -> bytes frame -> (14 <= length frame)%nat ->
  (forall l s', front (ticks c) (lk s0) l -> delivered c frame p l s s' -> ids s' = ids s -> host_inv s' -> Q tt s') ->
  wp (dispatch c frame p (Firewall.header_len p)) Q s.
Proof.
  intros H Hf Hr Hbf Hlf HQ. pose proof payload_length as Hl. pose proof payload_bytes as Hb. pose proof Hp as [Hbp Hh Hlen].
  assert (forall k, host_inv (with_link s (lk s) k)) as Hk.
  { intros k. apply (relinked s); try done; [apply Hf|apply H]. }
  assert (forall k, protocol_of p = None -> wp (ret tt) Q (with_link s (lk s) k)) as Hret.
  { intros k En. apply wp_ret, (HQ (lk s)); [done| |done|apply Hk]. unfold delivered. by rewrite En. }
  unfold dispatch. rewrite <- Hl. fold (payload p). apply wp_bind, load8_ok; [unfold ip_protocol; lia|]. cbv zeta.
  unfold sizeof_udp_header, sizeof_tcp_header in *.
  destruct (Z.eqb_spec (at8 p ip_protocol) IPPROTO_ICMP) as [E1|N1].
  { apply wp_bind, wp_modify. assert (protocol_of p = if 8 <=? Z.of_nat (length (payload p)) then Some ICMP else None) as E.
    { unfold protocol_of. by rewrite E1. }
    destruct (Z.ltb_spec (Z.of_nat (length (payload p))) 8), (Z.leb_spec 8 (Z.of_nat (length (payload p)))); try lia; [by apply Hret|].
    apply wp_bind, (learn_ok s0); [by apply field_addr; [|lia]|apply Hk|done|]. intros l Hfl Hil. apply wp_zoom, Icmp.handle_icmp_ok; try done; [apply Hfl|lia..|].
    intros [l' i'] Hs. apply (HQ l); [done| |done|].
    - unfold delivered. rewrite E. done.
    - eapply delivered_inv; [exact Hil| |done]. unfold delivered. rewrite E. done. }
  assert (forall k (m : M host unit) a, (forall s1 Q1, host_inv s1 ->
    (forall s', delivered c frame p (lk s1) s1 s' -> ids s' = ids s1 -> Q1 tt s') -> wp m Q1 s1) ->
    wp (on_link (arp_cache_update (ticks c) a (field frame 6 6)) ;;; m) Q (with_link s (lk s) k)) as Hgo.
  { intros k m a Hm. apply wp_bind, (learn_ok s0); [by apply field_addr; [|lia]|apply Hk|done|]. intros l Hfl Hil. apply Hm; [done|].
    intros s' Hd Hi. apply (HQ l); [done..|]. by eapply delivered_inv. }
  destruct (Z.eqb_spec (at8 p ip_protocol) IPPROTO_UDP) as [E2|N2].
  { apply wp_bind, wp_modify. destruct (Z.ltb_spec (Z.of_nat (length (payload p))) 8).
    - apply Hret. unfold protocol_of, datagram. rewrite E2. simpl. by destruct (Z.leb_spec 8 (Z.of_nat (length (payload p)))); [lia|].
    - apply Hgo. intros. by apply handle_udp_ok. }
  destruct (Z.eqb_spec (at8 p ip_protocol) IPPROTO_TCP) as [E3|N3].
  { apply wp_bind, wp_modify. destruct (Z.ltb_spec (Z.of_nat (length (payload p))) 20).
    - apply Hret. unfold protocol_of, segment. rewrite E3. simpl. by destruct (Z.leb_spec 20 (Z.of_nat (length (payload p)))); [lia|].
    - apply Hgo. intros. by apply handle_tcp_ok. }
  replace s with (with_link s (lk s) (counts s)) by by destruct s. apply Hret. unfold protocol_of.
  destruct (Z.eqb_spec (at8 p ip_protocol) IPPROTO_ICMP), (Z.eqb_spec (at8 p ip_protocol) IPPROTO_UDP),
    (Z.eqb_spec (at8 p ip_protocol) IPPROTO_TCP); done.
Qed.
End Transport.

(** * Frames *)

(** Addresses a packet cannot come from. *)
Definition credible_source (a : list Z) (l : link) : Prop :=
  a !!! 0%nat <> 127 /\ a !!! 0%nat <> 0 /\ ~ (224 <= a !!! 0%nat <= 239) /\ a <> [255; 255; 255; 255] /\ a <> my_ip l.

(** What a frame must have for its packet [p] to reach a protocol. *)
Record acceptable (c : context) (frame p : list Z) (s : host) : Prop := mk_acceptable {
  ac_mac : field frame 0 6 = my_mac (lk s) \/ field frame 0 6 = broadcast_mac;
  ac_type : be16 frame 12 = ETH_TYPE_IPV4;
  ac_packet : p = take (Z.to_nat (be16 (drop 14 frame) ip_total_length)) (drop 14 frame);
  ac_total : Firewall.header_len (drop 14 frame) <= be16 (drop 14 frame) ip_total_length <= Z.of_nat (length (drop 14 frame));
  ac_header : 20 <= Firewall.header_len (drop 14 frame);
  ac_checksum : checksum (take (Z.to_nat (Firewall.header_len (drop 14 frame))) (clear16 (drop 14 frame) 10)) =
                be16 (drop 14 frame) ip_checksum;
  ac_source : credible_source (src_of (drop 14 frame)) (lk s);
  ac_whole : Firewall.unfragmented (drop 14 frame);
  ac_unicast : ~ (224 <= at8 (drop 14 frame) ip_dest_ip <= 239);
  ac_host : for_host (dst_of (drop 14 frame)) (lk s) = true;
  ac_filter : Firewall.admitted (filter (lk s)) (ticks c) p;
  ac_clean : Ids.clean p (Ids.active (ids s)) = true }.

Definition unchanged (s s' : host) : Prop :=
  tcp s' = tcp s /\ icmp s' = icmp s /\ dns s' = dns s /\ dhcp s' = dhcp s.

(** What a frame does. *)
Inductive outcome (c : context) (frame : list Z) (s s' : host) : Prop :=
| accepted p l : acceptable c frame p s -> front (ticks c) (lk s) l -> delivered c frame p l s s' -> outcome c frame s s'
| refused : (forall p, ~ acceptable c frame p s) -> unchanged s s' -> front (ticks c) (lk s) (lk s') -> outcome c frame s s'
| resolved l : be16 frame 12 = ETH_TYPE_ARP -> unchanged s s' -> ids s' = ids s -> arp_safe (ticks c) (lk s) (lk s') ->
    sent (lk s') = sent (lk s) ++ l -> (length l <= 1)%nat -> outcome c frame s s'.

Lemma header8 p : bytes p -> u8 (Z.land (at8 p ip_version_ihl) 0x0F * 4) = Firewall.header_len p.
Proof. intros H. by apply Firewall.ihl_ok, at8_byte. Qed.

Lemma bogon_source_false a l : addr 4 a -> bogon_source a l = false <-> credible_source a l.
Proof.
  intros [_ Hl]. destruct a as [|a0 [|a1 [|a2 [|a3 [|]]]]]; try done. unfold bogon_source, credible_source.
  cbn [lookup_total list_lookup_total]. rewrite !orb_false_iff, andb_false_iff. unfold same. rewrite bool_decide_eq_false.
  assert ((a0 =? 255) && (a1 =? 255) && (a2 =? 255) && (a3 =? 255) = false <-> [a0; a1; a2; a3] <> [255; 255; 255; 255]) as ->.
  { rewrite <- not_true_iff_false, !andb_true_iff, !Z.eqb_eq. split; intros H1 H2; apply H1; [by injection H2 as -> -> -> ->|].
    by destruct H2 as [[[-> ->] ->] ->]. }
  rewrite !Z.eqb_neq, !Z.leb_gt. split; intros H; split_and!; tauto || lia.
Qed.

Section Frames.
Context (c : context) (frame : list Z) (Ht : 0 <= ticks c < 2 ^ 32) (Hb : bytes frame).
Implicit Types (s : host) (Q : unit -> host -> Prop).

(** A prefix of a packet that has the header. *)
Lemma at8_take n (q : list Z) k : 0 <= k < Z.of_nat n -> at8 (take n q) k = at8 q k.
Proof. intros H. unfold at8. rewrite !list_lookup_total_alt, lookup_take_lt by lia. done. Qed.

(** The filter and the detection, and what comes behind them. *)
Lemma screened_ok s (p : list Z) Q :
  host_inv s -> packet p -> (14 <= length frame)%nat ->
  (forall l s', Firewall.admitted (filter (lk s)) (ticks c) p -> Ids.clean p (Ids.active (ids s)) = true ->
     front (ticks c) (lk s) l -> delivered c frame p l s s' -> host_inv s' -> Q tt s') ->
  (forall s', ~ (Firewall.admitted (filter (lk s)) (ticks c) p /\ Ids.clean p (Ids.active (ids s)) = true) ->
     front (ticks c) (lk s) (lk s') -> unchanged s s' -> host_inv s' -> Q tt s') ->
  wp (admitted <- on_link (on_filter (Firewall.firewall_check_packet (ticks c) p)) ;;
      if negb admitted then ret tt else
      clean <- on_ids (Ids.ids_analyze_packet (ticks c) p) ;;
      if negb clean then ret tt else dispatch c frame p (Firewall.header_len p)) Q s.
Proof.
  intros H Hp Hl HQ Hno. pose proof (hi_link s H) as Hlk. pose proof Hp as [Hbp Hh Hlen]. pose proof (front_refl (ticks c) _ Hlk) as Hf0.
  apply wp_bind, wp_zoom, wp_zoom. eapply wp_mono; [apply Firewall.check_packet_ok; [apply Hlk|done]|].
  intros b f (Hf & Hadm & _ & _). pose proof (front_filter (ticks c) _ _ f Hf0 Hf) as Hf1. set (l1 := put_filter f (lk s)) in *.
  assert (host_inv (with_link s l1 (counts s))) as H1 by (apply (relinked s); try done; apply Hf1 || apply H).
  destruct b; cbn [negb].
  2:{ apply wp_ret, Hno; [|done..]. intros [Ha _]. by apply Hadm in Ha. }
  apply wp_bind, wp_zoom, Ids.analyze_packet_ok; [apply H|apply Hf1|done|lia|]. cbn [fst snd].
  intros [l2 i2] [Hi2 _ _ (f2 & E2 & Hf2 & _)]. cbn [fst snd] in *. pose proof (front_filter (ticks c) _ _ f2 Hf0 Hf2) as Hf3.
  assert (l2 = put_filter f2 (lk s)) as -> by done. match goal with |- wp _ _ ?x => set (s2 := x) end.
  assert (host_inv s2) as H2 by (apply (relinked s); try done; apply Hf3).
  destruct (Ids.clean p _) eqn:Ec; cbn [negb]; [|apply wp_ret, Hno; [by intros [_ ?]|done..]].
  apply (deliver_ok c frame Ht p Hp s s2); [done|done|by repeat split|done|done|]. intros l s' Hfl Hd Ei Hi. apply (HQ l); try done. by apply Hadm.
Qed.

(** The fragment fields. *)
Lemma whole_iff w : 0 <= w < 65536 ->
  negb (u16 (Z.land w 0x1FFF * 8) =? 0) || negb (Z.land (Z.land (Z.shiftr w 13) 0x7) 0x1 =? 0) = false <-> w mod 2 ^ 14 = 0.
Proof.
  intros Hw. change 0x1FFF with (Z.ones 13). change 0x7 with (Z.ones 3). change 0x1 with (Z.ones 1).
  rewrite !Z.land_ones, Z.shiftr_div_pow2 by lia. rewrite orb_false_iff, !negb_false_iff, !Z.eqb_eq.
  change (2 ^ 13) with 8192. change (2 ^ 3) with 8. change (2 ^ 1) with 2. change (2 ^ 14) with 16384.
  unfold u16. Z.to_euclidean_division_equations; lia.
Qed.

Lemma link_gets_ok {A} (f : link -> A) (Q : A -> host -> Prop) s : Q (f (lk s)) s -> wp (on_link (gets f)) Q s.
Proof. intros HQ. apply wp_zoom, wp_gets. by destruct s. Qed.

Section Packet.
Context (s : host) (H : host_inv s) (Hl : (34 <= length frame)%nat).
Context (Hmac : field frame 0 6 = my_mac (lk s) \/ field frame 0 6 = broadcast_mac) (Hty : be16 frame 12 = ETH_TYPE_IPV4).
Context (Q : unit -> host -> Prop) (HQ : forall s', outcome c frame s s' -> host_inv s' -> Q tt s').

Lemma refuse_ok : (forall p, ~ acceptable c frame p s) -> wp (ret tt) Q s.
Proof. intros Hn. apply wp_ret, HQ; [|done]. by apply refused; [| |apply front_refl, hi_link]. Qed.

Ltac refuse := apply refuse_ok; intros ? []; try (lia || congruence); intuition congruence.

(** Behind the checks of the header: the addresses and the fragments. *)
Lemma addressed_ok ip hl :
  ip = drop 14 frame -> hl = Firewall.header_len ip -> 20 <= hl -> hl <= be16 ip ip_total_length <= Z.of_nat (length ip) ->
  checksum (take (Z.to_nat hl) (clear16 ip 10)) = be16 ip ip_checksum ->
  wp (bogon <- on_link (gets (bogon_source (field ip 12 4))) ;;
      if (bogon : bool) then ret tt else
      flags_frag <- net16 ip ip_flags_fragment ;;
      let flags := Z.land (Z.shiftr flags_frag 13) 0x7 in
      let frag_offset := u16 (Z.land flags_frag 0x1FFF * 8) in
      if negb (frag_offset =? 0) || negb (Z.land flags 0x1 =? 0) then ret tt else
      d0 <- load8 ip ip_dest_ip ;;
      if (224 <=? d0) && (d0 <=? 239) then ret tt else
      mine <- on_link (gets (for_host (field ip 16 4))) ;;
      if negb (mine : bool) then ret tt else
      let p := take (Z.to_nat (be16 ip ip_total_length)) ip in
      admitted <- on_link (on_filter (Firewall.firewall_check_packet (ticks c) p)) ;;
      if negb (admitted : bool) then ret tt else
      clean <- on_ids (Ids.ids_analyze_packet (ticks c) p) ;;
      if negb (clean : bool) then ret tt else dispatch c frame p hl) Q s.
Proof.
  intros Eip Ehl Hhl Htot Hsum. subst hl. pose proof refuse_ok as Hno. assert (bytes ip) as Hbi by (subst ip; by apply Forall_drop).
  apply wp_bind, link_gets_ok. pose proof (bogon_source_false (src_of ip) (lk s) (field_addr ip 12 4 Hbi ltac:(lia))) as Hbog.
  fold (src_of ip). destruct (bogon_source _ _) in Hbog |- *; [subst ip; refuse|].
  apply wp_bind, net16_ok; [done|unfold ip_flags_fragment; lia..|]. pose proof (be16_range ip ip_total_length Hbi).
  pose proof (whole_iff _ (be16_range ip ip_flags_fragment Hbi)) as Hw. cbv zeta. destruct (negb _ || negb _) in Hw |- *; [subst ip; refuse|].
  apply wp_bind, load8_ok; [unfold ip_dest_ip; lia|]. destruct (_ && _) eqn:Em; [subst ip; refuse|].
  apply wp_bind, link_gets_ok. fold (dst_of ip). destruct (for_host _ _) eqn:Ef; cbn [negb]; [|subst ip; refuse].
  set (p := take _ ip). assert (Firewall.header_len p = Firewall.header_len ip) as Ehp.
  { unfold Firewall.header_len, p. rewrite at8_take; [done|unfold ip_version_ihl; lia]. }
  assert (packet p) as Hp by (constructor; [by apply Forall_take|..]; rewrite ?Ehp; unfold p; rewrite length_take; lia).
  rewrite <- Ehp.
  apply screened_ok; [done|done|lia|..].
  - intros l s' Ha Hc Hf Hd Hi. apply HQ; [|done]. apply (accepted _ _ _ _ p l); [|done..]. subst ip.
    constructor; try done; try tauto. unfold p in *. lia.
  - intros s' Hn Hf Hu Hi. apply HQ; [|done]. apply refused; [|done..]. intros p' []. subst p' ip. by apply Hn.
Qed.

Lemma handle_ip_ok : wp (handle_ip c frame (drop 14 frame)) Q s.
Proof.
  pose proof refuse_ok as Hno. remember (drop 14 frame) as ip eqn:Eip.
  assert (bytes ip) as Hbi by (subst ip; by apply Forall_drop).
  assert (length ip = length frame - 14)%nat as Hli by (subst ip; apply length_drop).
  pose proof (be16_range ip ip_total_length Hbi). pose proof (header_range ip Hbi) as Hhr.
  unfold handle_ip. unfold sizeof_ip_header. destruct (Z.ltb_spec (Z.of_nat (length ip)) 20); [lia|].
  apply wp_bind, load8_ok; [unfold ip_version_ihl; lia|]. rewrite header8 by done.
  assert (Firewall.header_len ip = 4 * Z.land (at8 ip ip_version_ihl) 0x0F) as Eh.
  { unfold Firewall.header_len. change 0x0F with (Z.ones 4). by rewrite Z.land_ones by lia. }
  destruct (_ || _) eqn:Ei; [subst ip; refuse|].
  destruct (Z.ltb_spec (Z.of_nat (length ip)) (Firewall.header_len ip)); [subst ip; refuse|].
  apply wp_bind, net16_ok; [done|unfold ip_checksum; lia..|]. apply wp_bind. eapply wp_lift.
  { apply calculate_checksum_ok; [by apply Forall_take, clear16_bytes|rewrite length_take; lia]. }
  destruct (Z.eqb_spec (checksum (take (Z.to_nat (Firewall.header_len ip)) (clear16 ip 10))) (be16 ip ip_checksum)) as [Es|Es];
    cbn [negb]; [|subst ip; refuse].
  apply wp_bind, net16_ok; [done|unfold ip_total_length; lia..|].
  destruct (Z.ltb_spec (be16 ip ip_total_length) (Firewall.header_len ip)); [subst ip; refuse|].
  destruct (Z.ltb_spec (Z.of_nat (length ip)) (be16 ip ip_total_length)); [subst ip; refuse|].
  apply addressed_ok; try done; lia.
Qed.
End Packet.

Lemma outcome_counts s k s' : outcome c frame (with_link s (lk s) k) s' -> outcome c frame s s'.
Proof.
  intros [p l [] Hf Hd|Hn Hu Hf|l Hty Hu Hi Hs El Hl].
  - apply (accepted _ _ _ _ p l); [by constructor|done..].
  - apply refused; [|done..]. intros p []. apply (Hn p). by constructor.
  - by apply (resolved _ _ _ _ l).
Qed.

Lemma frame_ok s Q :
  host_inv s -> (forall s', outcome c frame s s' -> host_inv s' -> Q tt s') -> wp (handle_packet c frame) Q s.
Proof.
  intros H HQ. unfold handle_packet. cbv zeta. apply wp_bind, wp_modify, wp_bind, wp_modify.
  match goal with |- wp _ _ (mk_host _ _ _ _ _ _ ?k) => set (k1 := k) end. pose proof (hi_link s H) as Hlk.
  assert (forall k, host_inv (with_link s (lk s) k)) as Hk by (intros k; apply (relinked s); try done; apply H).
  assert (forall k, (forall p, ~ acceptable c frame p s) -> Q tt (with_link s (lk s) k)) as Hno.
  { intros k Hn. apply HQ; [|apply Hk]. by apply refused; [| |apply front_refl]. }
  assert (forall p, acceptable c frame p s -> (34 <= length frame)%nat) as Hlong.
  { intros p []. rewrite length_drop in ac_total0. lia. }
  unfold sizeof_eth_header. destruct (Z.ltb_spec (Z.of_nat (length frame)) 14).
  { apply wp_modify, Hno. intros p Ha%Hlong. lia. }
  apply wp_bind, net16_ok; [done|lia..|]. apply wp_bind, link_gets_ok. cbn [lk].
  destruct (same _ _ || same _ _) eqn:Em; cbn [negb]; [|apply wp_ret, Hno].
  2:{ intros p []. apply orb_false_iff in Em as [E1 E2]. destruct ac_mac0 as [E|E]; apply same_eq in E; congruence. }
  destruct (Z.eqb_spec (be16 frame 12) ETH_TYPE_ARP) as [Ea|Na].
  { destruct (Z.ltb_spec (Z.of_nat (length frame)) (14 + sizeof_arp_header)) as [Hs|Hs]; unfold sizeof_arp_header in Hs.
    - apply wp_ret, Hno. intros p []. by rewrite Ea in ac_type0.
    - apply wp_zoom, handle_arp_ok; [done|by apply Forall_drop|rewrite length_drop; lia|].
      intros l Hi Hsafe _ _ (f & Ef & Hf). apply HQ; [by apply (resolved _ _ _ _ f)|].
      apply (relinked s); try done; [apply Hsafe|apply H]. }
  destruct (Z.eqb_spec (be16 frame 12) ETH_TYPE_IPV4) as [Ei|Ni]; [|apply wp_modify, Hno; by intros p []].
  destruct (Z.ltb_spec (Z.of_nat (length frame)) (14 + sizeof_ip_header)) as [Hs|Hs]; unfold sizeof_ip_header in Hs.
  { apply wp_ret, Hno. intros p Ha%Hlong. lia. }
  apply (handle_ip_ok (with_link s (lk s) k1)); [done|lia| |done|].
  - apply orb_true_iff in Em as [E|E]; apply same_eq in E; [by left|by right].
  - intros s' Ho. apply HQ. by eapply outcome_counts.
Qed.
End Frames.

(** * Sequences of frames *)

(** The addresses of the host are those of the beginning or of an offer a DHCP
    client may take. *)
Definition configured_from (l l' : link) : Prop :=
  my_mac l' = my_mac l /\ (same_config l l' \/ exists o, DhcpProps.usable o /\ DhcpProps.uses l' o).

Lemma configured_trans l1 l2 l3 : configured_from l1 l2 -> configured_from l2 l3 -> configured_from l1 l3.
Proof.
  intros [E1 H1] [E2 [Hc|H2]]; (split; [congruence|]); [|by right]. destruct H1 as [H1|(o & Ho & Hu)].
  - left. by eapply same_config_trans.
  - right. exists o. split; [done|]. destruct Hc as [_ C1 C2 C3], Hu as (U1 & U2 & U3).
    unfold DhcpProps.uses. split_and!; congruence.
Qed.

Lemma same_configured l l' : same_config l l' -> configured_from l l'.
Proof. intros H. split; [apply H|by left]. Qed.

Lemma outcome_configured c frame s s' : host_inv s -> outcome c frame s s' -> configured_from (lk s) (lk s').
Proof.
  intros H [p l Ha [Hl [_ Hc] _] Hd|_ _ [_ [_ Hc] _]|l _ _ _ [_ Hc] _ _]; [|by apply same_configured..].
  eapply configured_trans; [by apply same_configured|].
  destruct (delivered_config c frame p (with_link s l (counts s)) s' Hd) as [Ed|]; [|by apply same_configured].
  unfold delivered in Hd. rewrite Ed in Hd. destruct Hd as (Hh & _).
  assert (DhcpProps.tame (l, (dns s, dhcp s)) (lk s', (dns s', dhcp s'))) as [_ _ T _ _].
  { eapply DhcpProps.handled_tame, Hh. eapply dhcp_relink, H. done. }
  destruct T as [T|(o & Ho & Hu & Em)]; [by apply same_configured|]. split; [done|right; eauto].
Qed.

Fixpoint receive (l : list (context * list Z)) : M host unit :=
  match l with [] => ret tt | (c, frame) :: l' => handle_packet c frame ;;; receive l' end.

Lemma receive_ok l s Q :
  host_inv s -> Forall (fun a => 0 <= ticks (fst a) < 2 ^ 32 /\ bytes (snd a)) l ->
  (forall s', host_inv s' -> configured_from (lk s) (lk s') -> Q tt s') -> wp (receive l) Q s.
Proof.
  revert s. induction l as [|[c frame] l IH]; intros s H Hl HQ.
  { apply wp_ret, HQ; [done|]. apply same_configured, same_config_refl. }
  apply Forall_cons in Hl as [[Ht Hb] Hl]. apply wp_bind, frame_ok; [done..|]. intros s1 Ho H1. apply IH; [done..|].
  intros s' H' Hc. apply HQ; [done|]. eapply configured_trans; [by eapply outcome_configured|done].
Qed.

(** C1. Every frame is handled without a fault, whatever bytes it has, and the
    host keeps its invariant. Its packet reaches a protocol exactly if the frame
    is addressed to the host, the header is well formed with a right checksum,
    the source can be a host, the packet is whole and for us, and the filter and
    the detection let it pass; then it does what the protocol's specification
    says. Any other frame leaves all protocols as they were. In front of the
    protocols nothing is sent, and the cache learns only addresses asked for. *)
Theorem net_handle_packet_spec c frame s :
  host_inv s -> 0 <= ticks c < 2 ^ 32 -> bytes frame ->
  exists s', handle_packet c frame s = Ok (tt, s') /\ host_inv s' /\ outcome c frame s s'.
Proof. intros H Ht Hb. apply wp_exists, frame_ok; auto. Qed.

(** C6. No sequence of frames, at whatever times and privilege levels, makes the
    receive path fault or breaks the invariants of the protocols, and the
    addresses of the host stay, or come from an offer the DHCP client may take,
    which is the one in use whenever the client holds a lease. *)
Theorem net_history_safe l s :
  host_inv s -> Forall (fun a => 0 <= ticks (fst a) < 2 ^ 32 /\ bytes (snd a)) l ->
  exists s', receive l s = Ok (tt, s') /\ host_inv s' /\ configured_from (lk s) (lk s').
Proof. intros H Hl. apply wp_exists, receive_ok; auto. Qed.

Definition host0 : host :=
  mk_host LinkProps.link0 (TcpProps.tcp0 TcpProps.established0) (snd Icmp.icmp0) Ids.ids0 DhcpProps.dns0
    (snd (snd DhcpProps.selecting0)) (fun _ => 0).
Definition context0 : context := mk_context 100 0 true 7.

Lemma host0_inv : host_inv host0.
Proof.
  constructor; [apply TcpProps.tcp0_inv, TcpProps.established0_ok|apply DhcpProps.selecting0_inv|discriminate|apply Ids.ids0_inv].
Qed.

(** The echo request is dropped by the rules of the start, answered with a
    rule that allows ICMP, and not answered with a bit of its header flipped. *)
Definition open0 : link :=
  match on_filter (Firewall.firewall_allow_icmp) LinkProps.link0 with Ok (_, l) => l | Err _ => LinkProps.link0 end.
Definition replies (l : link) (frame : list Z) : option nat :=
  match handle_packet context0 frame (with_link host0 l (counts host0)) with
  | Ok (_, s') => Some (length (sent (lk s'))) | Err _ => None
  end.
Lemma echo_passes :
  replies LinkProps.link0 Icmp.echo_eth = Some 0%nat /\ replies open0 Icmp.echo_eth = Some 1%nat /\
  replies open0 (<[22%nat := 65]> Icmp.echo_eth) = Some 0%nat.
Proof. split_and!; vm_compute; reflexivity. Qed.

Lemma echo_eth_bytes : bytes Icmp.echo_eth.
Proof. apply (Icmp.echo_ok 0). Qed.

Lemma net_handle_packet_spec_witness :
  exists s', handle_packet context0 Icmp.echo_eth host0 = Ok (tt, s') /\ host_inv s' /\ outcome context0 Icmp.echo_eth host0 s'.
Proof. apply (net_handle_packet_spec _ _ _ host0_inv); [simpl; lia|exact echo_eth_bytes]. Defined.

Lemma net_history_safe_witness :
  exists s', receive [(context0, Icmp.echo_eth); (context0, [1; 2; 3]); (context0, Icmp.echo_eth)] host0 = Ok (tt, s') /\
    host_inv s' /\ configured_from (lk host0) (lk s').
Proof.
  apply (net_history_safe _ _ host0_inv). assert (bytes [1; 2; 3]) by (repeat (apply Forall_cons_2 || apply Forall_nil_2); lia).
  repeat (apply Forall_cons_2 || apply Forall_nil_2); (split; [simpl; lia|exact echo_eth_bytes || assumption]).
Defined.

(** * Senders *)

(** The senders of single segments put one frame on the wire: to the given
    hardware address, from ours, with an IP header and a TCP header of 20 bytes
    whose checksums verify. *)
Theorem net_send_segment_spec dest_ip dest_mac src_port dest_port seq ack flags id s :
  link_inv s -> addr 4 dest_ip -> 0 <= src_port < 65536 -> 0 <= dest_port < 65536 -> 0 <= seq < 2 ^ 32 -> 0 <= ack < 2 ^ 32 ->
  byte flags -> 0 <= id < 65536 ->
  exists h seg, send_segment id dest_ip dest_mac (tcp_head src_port dest_port seq ack flags) s =
    Ok (tt, put_sent (sent s ++ [dest_mac ++ my_mac s ++ [0x08; 0x00] ++ h ++ seg]) s) /\
    ip_header_of 40 id IPPROTO_TCP (my_ip s) dest_ip h /\
    segment_of (my_ip s) dest_ip IPPROTO_TCP (tcp_head src_port dest_port seq ack flags) [0; 0] seg.
Proof.
  intros Hs Hd H1 H2 H3 H4 H5 H6. pose proof (li_ip s Hs) as Hi.
  assert (bytes (tcp_head src_port dest_port seq ack flags)) as Hh.
  { unfold tcp_head. rewrite !net_bytes16_eq, !net_bytes32_eq by lia.
    repeat (apply Forall_app; split); repeat (apply Forall_cons_2 || apply Forall_nil_2); Z.to_euclidean_division_equations; u_lia. }
  destruct (ip_header_ok (20 + 20) id IPPROTO_TCP (my_ip s) dest_ip) as (h & Eh & Hhd); [lia|done|split; done|done..|].
  destruct (l4_segment_ok (my_ip s) dest_ip IPPROTO_TCP (tcp_head src_port dest_port seq ack flags) [0; 0] 0) as (seg & Es & Hseg);
    [done|done|split; done|done|by repeat constructor|done|simpl; lia|by left|].
  exists h, seg. split; [|done]. unfold send_segment, bind, gets, lift. rewrite Es, Eh. reflexivity.
Qed.

Lemma net_send_segment_spec_witness :
  exists h seg, send_tcp_syn LinkProps.server LinkProps.server_mac 4000 80 LinkProps.link0 =
    Ok (tt, put_sent [LinkProps.server_mac ++ my_mac LinkProps.link0 ++ [0x08; 0x00] ++ h ++ seg] LinkProps.link0) /\
    ip_header_of 40 0xDEF0 IPPROTO_TCP LinkProps.host LinkProps.server h.
Proof.
  destruct (net_send_segment_spec LinkProps.server LinkProps.server_mac 4000 80 1000 0 TCP_SYN 0xDEF0 LinkProps.link0
    LinkProps.link0_inv LinkProps.server_addr) as (h & seg & E & Hh & _); try (split; done) || lia.
  exists h, seg. split; [exact E|exact Hh].
Defined.


(** * Addresses as text *)

Definition digits (v : Z) : list Z :=
  if v <? 10 then [48 + v] else if v <? 100 then [48 + v / 10; 48 + v mod 10]
  else [48 + v / 100; 48 + v / 10 mod 10; 48 + v mod 10].
Definition dotted (a : list Z) : list Z :=
  digits (a !!! 0%nat) ++ [46] ++ digits (a !!! 1%nat) ++ [46] ++ digits (a !!! 2%nat) ++ [46] ++ digits (a !!! 3%nat).

Lemma digit_ok d : 0 <= d < 10 -> is_digit (48 + d) = true.
Proof. unfold is_digit. lia. Qed.

Lemma octet_step v d l : 0 <= d < 10 -> 10 * v + d <= 255 -> octet v (48 + d :: l) = octet (10 * v + d) l.
Proof.
  intros Hd Hv. cbn [octet]. rewrite digit_ok by done. replace (v * 10 + (48 + d - 48)) with (10 * v + d) by lia.
  by destruct (Z.ltb_spec 255 (10 * v + d)); [lia|].
Qed.

Lemma octet_digits v l :
  byte v -> match l with ch :: _ => is_digit ch = false | [] => True end -> octet 0 (digits v ++ l) = Some (v, l).
Proof.
  intros Hv Hl. assert (forall w, octet w l = Some (w, l)) as Hend by (intros w; destruct l; simpl; [|rewrite Hl]; done).
  unfold digits. destruct (Z.ltb_spec v 10); [|destruct (Z.ltb_spec v 100)]; cbn [app].
  - rewrite octet_step, Hend by lia. by replace (10 * 0 + v) with v by lia.
  - rewrite !octet_step, Hend by (Z.to_euclidean_division_equations; lia). do 2 f_equal. Z.to_euclidean_division_equations; lia.
  - rewrite !octet_step, Hend by (Z.to_euclidean_division_equations; lia). do 2 f_equal. Z.to_euclidean_division_equations; lia.
Qed.

(** The text of an octet starts with a digit. *)
Lemma digits_cons v : byte v -> exists d l, digits v = 48 + d :: l /\ 0 <= d < 10.
Proof.
  intros Hv. unfold digits. destruct (v <? 10) eqn:E1; [|destruct (v <? 100) eqn:E2]; eexists _, _; (split; [reflexivity|]);
    Z.to_euclidean_division_equations; lia.
Qed.

Lemma octets_step n v l : byte v -> octets (S (S n)) (digits v ++ 46 :: l) = option_map (cons v) (octets (S n) l).
Proof.
  intros Hv. pose proof (octet_digits v (46 :: l) Hv eq_refl) as E. destruct (digits_cons v Hv) as (d & r & Ed & Hd).
  rewrite Ed in *. cbn [octets app] in *. rewrite digit_ok by done. by rewrite E.
Qed.
Lemma octets_last v l : byte v -> Forall (fun ch => ch ∈ [32; 9; 13; 10]) l -> octets 1 (digits v ++ l) = Some [v].
Proof.
  intros Hv Hl. assert (octet 0 (digits v ++ l) = Some (v, l)) as E.
  { apply octet_digits; [done|]. destruct l as [|ch l]; [done|]. apply Forall_cons in Hl as [Hc _].
    rewrite !elem_of_cons, elem_of_nil in Hc. unfold is_digit. lia. }
  assert (skip [32; 9; 13; 10] l = []) as Es.
  { clear -Hl. induction l as [|ch l IH]; [done|]. apply Forall_cons in Hl as [Hc Hl]. cbn [skip].
    destruct (existsb _ _) eqn:Ex; [by apply IH|]. apply not_true_iff_false in Ex. exfalso. apply Ex, existsb_exists.
    exists ch. split; [by apply list_elem_of_In|apply Z.eqb_refl]. }
  destruct (digits_cons v Hv) as (d & r & Ed & Hd). rewrite Ed in *. cbn [octets app] in *. rewrite digit_ok by done. by rewrite E, Es.
Qed.

Lemma skip_app l s : Forall (fun ch => ch ∈ [32; 9]) l ->
  match s with ch :: _ => is_digit ch = true | [] => True end -> skip [32; 9] (l ++ s) = s.
Proof.
  induction l as [|ch l IH]; intros Hl Hs.
  - destruct s as [|ch s]; [done|]. cbn [app skip existsb]. unfold is_digit in Hs.
    destruct (Z.eqb_spec ch 32), (Z.eqb_spec ch 9); simpl; done || lia.
  - apply Forall_cons in Hl as [Hc Hl]. cbn [app skip existsb]. rewrite !elem_of_cons, elem_of_nil in Hc.
    destruct (Z.eqb_spec ch 32), (Z.eqb_spec ch 9); simpl; [by apply IH..|naive_solver].
Qed.

(** The text of an address, with blanks around it, is parsed to the address. *)
Theorem net_parse_ip_roundtrip a before after :
  addr 4 a -> Forall (fun ch => ch ∈ [32; 9]) before -> Forall (fun ch => ch ∈ [32; 9; 13; 10]) after ->
  parse_ip (Some (before ++ dotted a ++ after)) = Some a.
Proof.
  intros [Hb Hl] H1 H2. destruct a as [|a0 [|a1 [|a2 [|a3 [|]]]]]; try done. unfold bytes in Hb. decompose_Forall.
  change (dotted [a0; a1; a2; a3]) with (digits a0 ++ 46 :: digits a1 ++ 46 :: digits a2 ++ 46 :: digits a3).
  change (option_map (map u8) (octets 4 (skip [32; 9] (before ++
    (digits a0 ++ 46 :: digits a1 ++ 46 :: digits a2 ++ 46 :: digits a3) ++ after))) = Some [a0; a1; a2; a3]).
  rewrite skip_app; [|done|].
  - rewrite <- app_assoc, <- app_comm_cons, <- app_assoc, <- app_comm_cons, <- app_assoc, <- app_comm_cons. rewrite !octets_step by done. rewrite octets_last by done. cbn [option_map map].
    by rewrite !u8_small by lia.
  - destruct (digits_cons a0) as (d & r & -> & Hd); [done|]. by apply digit_ok.
Qed.

Lemma net_parse_ip_roundtrip_witness : parse_ip (Some ([32] ++ dotted [10; 0; 2; 155] ++ [10])) = Some [10; 0; 2; 155].
Proof.
  apply net_parse_ip_roundtrip; [split; [repeat (apply Forall_cons_2 || apply Forall_nil_2); lia|reflexivity]|..];
    repeat (apply Forall_cons_2 || apply Forall_nil_2); rewrite !elem_of_cons; tauto.
Defined.

End NetProps.
