(* ===== verification/Ramfs.v ===== *)
(** The file system in memory (src/ramfs.c): the tree of nodes, its paths and
    permissions, and the table of open files.

    A node is a frame of physical memory, linked to its parent, its first child
    and its next sibling by pointers, and so are the pages of a file; [nodes] and
    [pages] hold what the allocated ones contain, by address.  An access through
    a pointer to a frame that was released is a fault.  The frames come from the
    allocator of [Pmm].

    [who] is the current task, [None] before the scheduler runs.  An operation
    holds the lock of the file system from beginning to end, but for
    [ramfs_open], whose two parts are operations of their own, and for the
    operations on open files.  [map_page] stands for the identity mapping of a
    new frame in the kernel's page tables, which may take frames for itself, and
    [external_busy] for the directory handles of src/ramfs_vfs.c. *)
From Stdlib Require Import ZArith Lia List Bool.
From stdpp Require Import base tactics numbers list gmap.
From S2P Require Import Prelude Pmm CString.
Open Scope Z_scope.

Module Ramfs.

Definition RAMFS_TYPE_FILE : Z := 1.
Definition RAMFS_TYPE_DIR : Z := 2.
Definition RAMFS_TYPE_SYMLINK : Z := 3.
Definition RAMFS_FLAG_READ : Z := 0x01.
Definition RAMFS_FLAG_WRITE : Z := 0x02.
Definition RAMFS_FLAG_NOFOLLOW : Z := 0x04.
Definition RAMFS_FLAG_INHERIT : Z := 0x08.
Definition RAMFS_FLAG_EXEC : Z := 0x10.
Definition RAMFS_PERM_MASK : Z := 511.
Definition RAMFS_DEFAULT_FILE_MODE : Z := 384.
Definition RAMFS_DEFAULT_DIR_MODE : Z := 448.
Definition RAMFS_MAX_FILES : Z := 64.
Definition RAMFS_MAX_NAME : Z := 32.
Definition RAMFS_PAGE_SIZE : Z := 4096.
Definition RAMFS_MAX_PAGES : Z := 16.
Definition RAMFS_MAX_DATA : Z := RAMFS_MAX_PAGES * RAMFS_PAGE_SIZE.
Definition RAMFS_MAX_FDS : Z := 16.
Definition RAMFS_MAX_CHILDREN_PER_DIR : Z := 256.
Definition RAMFS_OPEN_LIMIT : Z := -11.
Definition RAMFS_USER_MAX_FDS : Z := 8.
Definition RAMFS_ROOT_RESERVED_FDS : Z := 4.
Definition RAMFS_CHMOD_EPERM : Z := -3.
Definition RAMFS_BUSY : Z := -7.
Definition RAMFS_WRITE_EFBIG : Z := -4.
Definition RAMFS_CREATE_EPERM : Z := -10.
Definition RAMFS_LIST_ENOENT : Z := -1.
Definition RAMFS_LIST_EACCES : Z := -2.
Definition EMFILE : Z := 24.
Definition PROCESS_MAX_FDS : Z := 8.

(** A name is the characters in front of its terminator; a pointer is an
    address, 0 the null pointer. *)
Record ramfs_node := mk_node {
  n_name : list Z; n_type : Z; n_size : Z; n_mode : Z; n_uid : Z; n_gid : Z; n_child_count : Z;
  n_data_pages : list Z; n_parent : Z; n_children : Z; n_next : Z }.
Record ramfs_fd := mk_fd {
  f_node : Z; f_pos : Z; f_flags : Z; f_in_use : bool; f_close_on_exec : bool; f_refs : Z;
  f_owner_pid : Z; f_owner_generation : Z; f_owner_uid : Z }.

Record ramfs := mk_ramfs {
  root : Z; file_descriptors : list ramfs_fd; total_nodes : Z;
  nodes : gmap Z ramfs_node; pages : gmap Z (list Z); frames : Pmm.pmm }.

(** What is read of the current task. *)
Record task := mk_task {
  t_pid : Z; t_generation : Z; t_uid : Z; t_euid : Z; t_egid : Z; t_groups : list Z; t_private_tmp_dir : list Z }.

Section Updates.
Implicit Types (n : ramfs_node) (f : ramfs_fd) (s : ramfs).
Definition put_name x n := mk_node x (n_type n) (n_size n) (n_mode n) (n_uid n) (n_gid n) (n_child_count n) (n_data_pages n) (n_parent n) (n_children n) (n_next n).
Definition put_size x n := mk_node (n_name n) (n_type n) x (n_mode n) (n_uid n) (n_gid n) (n_child_count n) (n_data_pages n) (n_parent n) (n_children n) (n_next n).
Definition put_mode x n := mk_node (n_name n) (n_type n) (n_size n) x (n_uid n) (n_gid n) (n_child_count n) (n_data_pages n) (n_parent n) (n_children n) (n_next n).
Definition put_data_pages x n := mk_node (n_name n) (n_type n) (n_size n) (n_mode n) (n_uid n) (n_gid n) (n_child_count n) x (n_parent n) (n_children n) (n_next n).
Definition put_links p x n := mk_node (n_name n) (n_type n) (n_size n) (n_mode n) (n_uid n) (n_gid n) (n_child_count n) (n_data_pages n) p (n_children n) x.
Definition put_next x n := mk_node (n_name n) (n_type n) (n_size n) (n_mode n) (n_uid n) (n_gid n) (n_child_count n) (n_data_pages n) (n_parent n) (n_children n) x.
Definition put_children x n := mk_node (n_name n) (n_type n) (n_size n) (n_mode n) (n_uid n) (n_gid n) (n_child_count n) (n_data_pages n) (n_parent n) x (n_next n).
Definition put_child_count x n := mk_node (n_name n) (n_type n) (n_size n) (n_mode n) (n_uid n) (n_gid n) x (n_data_pages n) (n_parent n) (n_children n) (n_next n).
Definition put_pos x f := mk_fd (f_node f) x (f_flags f) (f_in_use f) (f_close_on_exec f) (f_refs f) (f_owner_pid f) (f_owner_generation f) (f_owner_uid f).
Definition put_refs x f := mk_fd (f_node f) (f_pos f) (f_flags f) (f_in_use f) (f_close_on_exec f) x (f_owner_pid f) (f_owner_generation f) (f_owner_uid f).
Definition put_root x s := mk_ramfs x (file_descriptors s) (total_nodes s) (nodes s) (pages s) (frames s).
Definition put_fds x s := mk_ramfs (root s) x (total_nodes s) (nodes s) (pages s) (frames s).
Definition put_total x s := mk_ramfs (root s) (file_descriptors s) x (nodes s) (pages s) (frames s).
Definition put_nodes x s := mk_ramfs (root s) (file_descriptors s) (total_nodes s) x (pages s) (frames s).
Definition put_pages x s := mk_ramfs (root s) (file_descriptors s) (total_nodes s) (nodes s) x (frames s).
Definition put_frames x s := mk_ramfs (root s) (file_descriptors s) (total_nodes s) (nodes s) (pages s) x.
End Updates.

(** * Memory *)

Definition on_frames {A} (m : M Pmm.pmm A) : M ramfs A := zoom frames put_frames m.

(** [*p] for a pointer to a node. *)
Definition node_get (a : Z) : M ramfs ramfs_node := fun s =>
  if a =? 0 then Err NullDeref else match nodes s !! a with Some n => Ok (n, s) | None => Err OutOfBounds end.
Definition node_upd (a : Z) (f : ramfs_node -> ramfs_node) : M ramfs unit :=
  n <- node_get a ;; modify (fun s => put_nodes (<[a := f n]> (nodes s)) s).

(** The bytes of a page. *)
Definition page_get (a : Z) : M ramfs (list Z) := fun s =>
  if a =? 0 then Err NullDeref else match pages s !! a with Some p => Ok (p, s) | None => Err OutOfBounds end.
Definition page_put (a : Z) (p : list Z) : M ramfs unit :=
  _ <- page_get a ;; modify (fun s => put_pages (<[a := p]> (pages s)) s).

Definition fd_get (fd : Z) : M ramfs ramfs_fd := l <- gets file_descriptors ;; lift (aget l fd).
Definition fd_put (fd : Z) (f : ramfs_fd) : M ramfs unit :=
  l <- gets file_descriptors ;; l' <- lift (aset l fd f) ;; modify (put_fds l').

(** * Credentials and permissions *)

(** The effective identities; root without a task. *)
Definition ramfs_get_current_credentials (who : option task) : Z * Z :=
  match who with Some t => (t_euid t, t_egid t) | None => (0, 0) end.

Definition has (flags bit : Z) : bool := negb (Z.land flags bit =? 0).
(** The bits of one of the three classes that an access requires. *)
Definition required (access r w x : Z) : Z :=
  Z.lor (Z.lor (if has access RAMFS_FLAG_READ then r else 0) (if has access RAMFS_FLAG_WRITE then w else 0))
        (if has access RAMFS_FLAG_EXEC then x else 0).

Definition ramfs_check_permission (who : option task) (n : ramfs_node) (uid gid access : Z) : bool :=
  if uid =? 0 then true else
  if Z.land access (Z.lor (Z.lor RAMFS_FLAG_READ RAMFS_FLAG_WRITE) RAMFS_FLAG_EXEC) =? 0 then false else
  let required_perms :=
    if uid =? n_uid n then required access 256 128 64 else
    if gid =? n_gid n then required access 32 16 8 else
    let group_match := match who with Some t => existsb (Z.eqb (n_gid n)) (t_groups t) | None => false end in
    if group_match then required access 32 16 8 else required access 4 2 1 in
  Z.land (n_mode n) required_perms =? required_perms.

(** [ramfs_format_permissions]: the nine characters of the mode. *)
Definition ramfs_format_permissions (mode : Z) : list Z :=
  let f bit ch := if has mode bit then ch else 45 in
  [f 256 114; f 128 119; f 64 120; f 32 114; f 16 119; f 8 120; f 4 114; f 2 119; f 1 120].

(** * Paths *)

(** ".." and "." *)
Definition reserved (c : list Z) : bool := bool_decide (c = [46; 46]) || bool_decide (c = [46]).

(** The loop of [split_path] and what follows it: [comps] are the components so
    far, [cur] the characters of the current one. *)
Fixpoint split_loop (path : list Z) (max_components : Z) (comps : list (list Z)) (cur : list Z) : option (list (list Z)) :=
  let last := if 0 <? Z.of_nat (length cur) then (if reserved cur then None else Some (comps ++ [cur])) else Some comps in
  match path with
  | [] => last
  | ch :: path' =>
      if max_components <=? Z.of_nat (length comps) then None
      else if ch =? 47 then
        if Z.of_nat (length cur) =? 0 then split_loop path' max_components comps [] else
        if reserved cur then None else split_loop path' max_components (comps ++ [cur]) []
      else split_loop path' max_components comps (if Z.of_nat (length cur) <? RAMFS_MAX_NAME - 1 then cur ++ [ch] else cur)
  end.
Fixpoint skip_slashes (path : list Z) : list Z :=
  match path with ch :: path' => if ch =? 47 then skip_slashes path' else path | [] => [] end.
(** [None]: refused. *)
Definition split_path (path : list Z) (max_components : Z) : option (list (list Z)) :=
  split_loop (skip_slashes path) max_components [] [].

Definition node_permits (who : option task) (a access : Z) : M ramfs bool :=
  n <- node_get a ;;
  let '(uid, gid) := ramfs_get_current_credentials who in
  ret (ramfs_check_permission who n uid gid access).

Definition may_search (who : option task) (dir : Z) : M ramfs bool := node_permits who dir RAMFS_FLAG_EXEC.

Definition hidden_from_caller (who : option task) (a : Z) : M ramfs bool :=
  let '(uid, gid) := ramfs_get_current_credentials who in
  n <- node_get a ;;
  if (uid =? 0) || (n_parent n =? 0) || (n_uid n =? uid) then ret false else
  readable <- node_permits who (n_parent n) RAMFS_FLAG_READ ;;
  if readable then ret false else
  ret (negb (ramfs_check_permission who n uid gid RAMFS_FLAG_READ) &&
       negb (ramfs_check_permission who n uid gid RAMFS_FLAG_WRITE) &&
       negb (ramfs_check_permission who n uid gid RAMFS_FLAG_EXEC)).

(** The scan of a list of children for a name, [stop] behind [k] of them.  The
    lookup gives up behind [RAMFS_MAX_FILES] children; the walk to a parent does
    not: its fuel, one more than there are nodes, runs out only in a cycle. *)
Fixpoint scan_children (stop : M ramfs Z) (k : nat) (child : Z) (name : list Z) : M ramfs Z :=
  if child =? 0 then ret 0 else
  match k with
  | O => stop
  | S k' =>
      n <- node_get child ;;
      if CString.strcmp (n_name n) name =? 0 then ret child else scan_children stop k' (n_next n) name
  end.
Definition find_child (child : Z) (name : list Z) : M ramfs Z := scan_children (ret 0) (Z.to_nat RAMFS_MAX_FILES) child name.
Definition find_child_unbounded (child : Z) (name : list Z) : M ramfs Z :=
  fuel <- gets (fun s => S (size (nodes s))) ;; scan_children (fail NoTermination) fuel child name.

Inductive walk := WALK_OK (parent : Z) | WALK_NOT_DIR | WALK_NOT_FOUND | WALK_DENIED.

(** From [parent] along the components in front of the last. *)
Fixpoint walk_from (who : option task) (parent : Z) (comps : list (list Z)) : M ramfs walk :=
  ok <- may_search who parent ;;
  if negb ok then ret WALK_DENIED else
  match comps with
  | c :: (_ :: _) as comps' =>
      p <- node_get parent ;;
      child <- find_child_unbounded (n_children p) c ;;
      hidden <- (if child =? 0 then ret true else hidden_from_caller who child) ;;
      if (hidden : bool) then ret WALK_NOT_FOUND else
      ch <- node_get child ;;
      if negb (n_type ch =? RAMFS_TYPE_DIR) then ret WALK_NOT_DIR else walk_from who child comps'
  | _ => ret (WALK_OK parent)
  end.
Definition walk_to_parent (who : option task) (comps : list (list Z)) : M ramfs walk :=
  r <- gets root ;; walk_from who r comps.

(** The node below [current] that the components name; 0: none. *)
Fixpoint lookup_from (who : option task) (hide : bool) (current : Z) (comps : list (list Z)) : M ramfs Z :=
  match comps with
  | [] => ret current
  | c :: comps' =>
      n <- node_get current ;;
      if negb (n_type n =? RAMFS_TYPE_DIR) then ret 0 else
      ok <- may_search who current ;;
      if negb ok then ret 0 else
      child <- find_child (n_children n) c ;;
      if child =? 0 then ret 0 else
      hidden <- (if hide then hidden_from_caller who child else ret false) ;;
      if (hidden : bool) then ret 0 else lookup_from who hide child comps'
  end.

Definition ramfs_lookup_locked (who : option task) (path : option (list Z)) (hide : bool) : M ramfs Z :=
  r <- gets root ;;
  match path with
  | None => ret 0
  | Some p =>
      if r =? 0 then ret 0 else
      if bool_decide (p = [47]) then ret r else
      match split_path p 16 with None => ret 0 | Some comps => lookup_from who hide r comps end
  end.
Definition ramfs_find_locked (who : option task) (path : option (list Z)) : M ramfs Z := ramfs_lookup_locked who path true.
Definition ramfs_find_any_locked (who : option task) (path : option (list Z)) : M ramfs Z := ramfs_lookup_locked who path false.
Definition ramfs_find (who : option task) (path : option (list Z)) : M ramfs Z := ramfs_find_locked who path.

Section Operations.
Context (map_page : Z -> M Pmm.pmm unit) (external_busy : Z -> bool).

(** * Nodes *)

(** A frame from the allocator, mapped; 0: none left. *)
Definition new_frame : M ramfs Z :=
  a <- on_frames Pmm.pmm_alloc ;;
  if a =? 0 then ret 0 else on_frames (map_page a) ;;; ret a.

Definition alloc_node (name : list Z) (type uid gid : Z) : M ramfs Z :=
  t <- gets total_nodes ;;
  if RAMFS_MAX_FILES <=? t then ret 0 else
  a <- new_frame ;;
  if a =? 0 then ret 0 else
  modify (fun s => put_nodes (<[a := mk_node (take (Z.to_nat (RAMFS_MAX_NAME - 1)) name) type 0
    (if type =? RAMFS_TYPE_DIR then RAMFS_DEFAULT_DIR_MODE else RAMFS_DEFAULT_FILE_MODE) uid gid 0
    (replicate (Z.to_nat RAMFS_MAX_PAGES) 0) 0 0 0]> (nodes s)) s) ;;;
  modify (fun s => put_total (total_nodes s +32 1) s) ;;;
  ret a.

(** The pages of a node, given back. *)
Fixpoint free_pages (l : list Z) : M ramfs unit :=
  match l with
  | [] => ret tt
  | a :: l' =>
      (if a =? 0 then ret tt else
       modify (fun s => put_pages (delete a (pages s)) s) ;;; on_frames (Pmm.pmm_free a)) ;;;
      free_pages l'
  end.
Definition free_node (a : Z) : M ramfs unit :=
  if a =? 0 then ret tt else
  n <- node_get a ;;
  free_pages (n_data_pages n) ;;;
  modify (fun s => put_nodes (delete a (nodes s)) s) ;;;
  on_frames (Pmm.pmm_free a) ;;;
  modify (fun s => put_total (total_nodes s -32 1) s).

Definition ramfs_node_is_busy (a : Z) : M ramfs bool :=
  if a =? 0 then ret false else
  l <- gets file_descriptors ;;
  ret (existsb (fun f => f_in_use f && (f_node f =? a)) l || external_busy a).

(** [node] in front of the children of [parent]. *)
Definition link_child (parent node : Z) : M ramfs unit :=
  p <- node_get parent ;;
  node_upd node (put_links parent (n_children p)) ;;;
  node_upd parent (put_children node) ;;;
  node_upd parent (fun p => put_child_count (u16 (n_child_count p + 1)) p).

Definition ramfs_init : M ramfs unit :=
  a <- alloc_node [47] RAMFS_TYPE_DIR 0 0 ;;
  modify (put_root a) ;;;
  if a =? 0 then ret tt else
  node_upd a (put_mode 457) ;;;
  modify (fun s => put_fds (map (fun f => mk_fd 0 0 0 false (f_close_on_exec f) (f_refs f) (f_owner_pid f)
                                          (f_owner_generation f) (f_owner_uid f)) (file_descriptors s)) s).

Definition ramfs_mkdir (who : option task) (path : option (list Z)) : M ramfs Z :=
  r <- gets root ;;
  match path with
  | None => ret (-1)
  | Some p =>
      if r =? 0 then ret (-1) else
      let '(uid, gid) := ramfs_get_current_credentials who in
      found <- ramfs_find_locked who path ;;
      if negb (found =? 0) then ret (-2) else
      match split_path p 16 with
      | None => ret (-7)
      | Some comps =>
          if Z.of_nat (length comps) =? 0 then ret (-1) else
          w <- walk_to_parent who comps ;;
          match w with
          | WALK_NOT_DIR => ret (-3)
          | WALK_NOT_FOUND => ret (-4)
          | WALK_DENIED => ret (-5)
          | WALK_OK parent =>
              ok <- node_permits who parent RAMFS_FLAG_WRITE ;;
              if negb ok then ret (-5) else
              taken <- ramfs_find_any_locked who path ;;
              if negb (taken =? 0) then ret (-2) else
              pn <- node_get parent ;;
              if RAMFS_MAX_CHILDREN_PER_DIR <=? n_child_count pn then ret (-9) else
              new_dir <- alloc_node (List.last comps []) RAMFS_TYPE_DIR uid gid ;;
              if new_dir =? 0 then ret (-6) else
              link_child parent new_dir ;;; ret 0
          end
      end
  end.

(** * Open files *)

(** The first free slot; -1: none. *)
Fixpoint free_fd (l : list ramfs_fd) (i : Z) : Z :=
  match l with [] => -1 | f :: l' => if f_in_use f then free_fd l' (i + 1) else i end.
Definition count {A} (p : A -> bool) (l : list A) : Z := Z.of_nat (length (List.filter p l)).
Definition owned_by (t : task) (f : ramfs_fd) : bool :=
  f_in_use f && ((f_owner_pid f =? t_pid t) && (f_owner_generation f =? t_generation t)).
Definition held_by (uid : Z) (f : ramfs_fd) : bool := f_in_use f && (f_owner_uid f =? uid).

Definition ramfs_pick_fd (self : option task) : M ramfs Z :=
  l <- gets file_descriptors ;;
  let fd := free_fd l 0 in
  if fd <? 0 then ret (-2) else
  match self with
  | None => ret fd
  | Some t =>
      if PROCESS_MAX_FDS <=? count (owned_by t) l then ret (- EMFILE) else
      if negb (t_euid t =? 0) &&
         ((RAMFS_USER_MAX_FDS <=? count (held_by (t_uid t)) l) ||
          (count (fun f => negb (f_in_use f)) l <=? RAMFS_ROOT_RESERVED_FDS))
      then ret RAMFS_OPEN_LIMIT else ret fd
  end.

(** The first part of [ramfs_open]: the node of the path, created if it is to be
    written and missing; [inl]: the error. *)
Definition open_locate (who : option task) (path : option (list Z)) (flags : Z) : M ramfs (Z + Z) :=
  r <- gets root ;;
  match path with
  | None => ret (inl (-1))
  | Some p =>
      if r =? 0 then ret (inl (-1)) else
      let '(uid, gid) := ramfs_get_current_credentials who in
      fd <- ramfs_pick_fd who ;;
      if fd <? 0 then ret (inl fd) else
      node <- ramfs_find who path ;;
      if negb ((node =? 0) && has flags RAMFS_FLAG_WRITE) then ret (if node =? 0 then inl (-3) else inr node) else
      node <- ramfs_find_locked who path ;;
      if negb (node =? 0) then ret (inr node) else
      match split_path p 16 with
      | None => ret (inl (-8))
      | Some comps =>
          if Z.of_nat (length comps) =? 0 then ret (inl (-1)) else
          w <- walk_to_parent who comps ;;
          match w with
          | WALK_DENIED => ret (inl RAMFS_CREATE_EPERM)
          | WALK_NOT_DIR | WALK_NOT_FOUND => ret (inl (-4))
          | WALK_OK parent =>
              pn <- node_get parent ;;
              if RAMFS_MAX_CHILDREN_PER_DIR <=? n_child_count pn then ret (inl (-9)) else
              ok <- node_permits who parent RAMFS_FLAG_WRITE ;;
              if negb ok then ret (inl RAMFS_CREATE_EPERM) else
              taken <- ramfs_find_any_locked who path ;;
              if negb (taken =? 0) then ret (inl (-7)) else
              node <- alloc_node (List.last comps []) RAMFS_TYPE_FILE uid gid ;;
              if node =? 0 then ret (inl (-5)) else
              link_child parent node ;;; ret (inr node)
          end
      end
  end.

(** The second part: the checks of the node and the slot. *)
Definition open_claim (who : option task) (node flags : Z) : M ramfs Z :=
  let '(uid, gid) := ramfs_get_current_credentials who in
  n <- node_get node ;;
  if has flags RAMFS_FLAG_NOFOLLOW && (n_type n =? RAMFS_TYPE_SYMLINK) then ret (-8) else
  if negb (n_type n =? RAMFS_TYPE_FILE) then ret (-6) else
  if negb (ramfs_check_permission who n uid gid flags) then ret (-7) else
  fd <- ramfs_pick_fd who ;;
  if fd <? 0 then ret fd else
  fd_put fd (mk_fd node 0 flags true (negb (has flags RAMFS_FLAG_INHERIT)) 1
               (match who with Some t => t_pid t | None => 0 end)
               (match who with Some t => t_generation t | None => 0 end)
               (match who with Some t => t_uid t | None => 0 end)) ;;;
  ret fd.

Definition ramfs_open (who : option task) (path : option (list Z)) (flags : Z) : M ramfs Z :=
  r <- open_locate who path flags ;;
  match r with inl e => ret e | inr node => open_claim who node flags end.

(** A descriptor in use. *)
Definition open_fd (fd : Z) : M ramfs (option ramfs_fd) :=
  if (fd <? 0) || (RAMFS_MAX_FDS <=? fd) then ret None else
  f <- fd_get fd ;; ret (if f_in_use f then Some f else None).

(** The bytes of a file from an offset on, up to the first page that is missing. *)
Fixpoint read_bytes (data_pages : list Z) (off : Z) (n : nat) : M ramfs (list Z) :=
  match n with
  | O => ret []
  | S n' =>
      let page := off / RAMFS_PAGE_SIZE in
      if RAMFS_MAX_PAGES <=? page then ret [] else
      a <- lift (aget data_pages page) ;;
      if a =? 0 then ret [] else
      p <- page_get a ;;
      b <- lift (aget p (off mod RAMFS_PAGE_SIZE)) ;;
      bs <- read_bytes data_pages (off +32 1) n' ;;
      ret (b :: bs)
  end.

(** The result and the bytes stored in the buffer. *)
Definition ramfs_read (fd count : Z) : M ramfs (Z * list Z) :=
  o <- open_fd fd ;;
  match o with
  | None => ret (-1, [])
  | Some f =>
      if negb (has (f_flags f) RAMFS_FLAG_READ) then ret (-2, []) else
      if f_node f =? 0 then ret (-3, []) else
      n <- node_get (f_node f) ;;
      if n_size n <=? f_pos f then ret (0, []) else
      let available := n_size n -32 f_pos f in
      let to_read := if count <? available then count else available in
      bs <- read_bytes (n_data_pages n) (f_pos f) (Z.to_nat to_read) ;;
      let copied := Z.of_nat (length bs) in
      if copied =? 0 then ret (-5, []) else
      fd_put fd (put_pos (f_pos f +32 copied) f) ;;;
      ret (copied, bs)
  end.

(** The page of a file, allocated if it is missing. *)
Definition write_page (node page : Z) : M ramfs Z :=
  n <- node_get node ;;
  a <- lift (aget (n_data_pages n) page) ;;
  (if a =? 0 then
     a <- new_frame ;;
     l <- lift (aset (n_data_pages n) page a) ;;
     node_upd node (put_data_pages l) ;;;
     (if a =? 0 then ret tt else
      modify (fun s => put_pages (<[a := replicate (Z.to_nat RAMFS_PAGE_SIZE) 0]> (pages s)) s)) ;;;
     ret a
   else ret a).

(** The number of bytes written. *)
Fixpoint write_bytes (node off : Z) (src : list Z) : M ramfs Z :=
  match src with
  | [] => ret 0
  | b :: src' =>
      let page := off / RAMFS_PAGE_SIZE in
      if RAMFS_MAX_PAGES <=? page then ret 0 else
      a <- write_page node page ;;
      if a =? 0 then ret 0 else
      p <- page_get a ;;
      p' <- lift (aset p (off mod RAMFS_PAGE_SIZE) b) ;;
      page_put a p' ;;;
      k <- write_bytes node (off +32 1) src' ;;
      ret (k + 1)
  end.

Definition ramfs_write (fd : Z) (buf : list Z) : M ramfs Z :=
  o <- open_fd fd ;;
  match o with
  | None => ret (-1)
  | Some f =>
      if negb (has (f_flags f) RAMFS_FLAG_WRITE) then ret (-2) else
      if f_node f =? 0 then ret (-3) else
      let count := Z.of_nat (length buf) in
      if RAMFS_MAX_DATA <=? f_pos f then ret (if 0 <? count then RAMFS_WRITE_EFBIG else 0) else
      let count := if RAMFS_MAX_DATA - f_pos f <? count then RAMFS_MAX_DATA - f_pos f else count in
      k <- write_bytes (f_node f) (f_pos f) (take (Z.to_nat count) buf) ;;
      let needed_size := f_pos f +32 k in
      fd_put fd (put_pos (f_pos f +32 k) f) ;;;
      n <- node_get (f_node f) ;;
      (if n_size n <? needed_size then node_upd (f_node f) (put_size needed_size) else ret tt) ;;;
      ret k
  end.

Fixpoint clear_pages (l : list Z) : M ramfs unit :=
  match l with
  | [] => ret tt
  | a :: l' => (if a =? 0 then ret tt else page_put a (replicate (Z.to_nat RAMFS_PAGE_SIZE) 0)) ;;; clear_pages l'
  end.
Definition ramfs_truncate (fd : Z) : M ramfs Z :=
  o <- open_fd fd ;;
  match o with
  | None => ret (-1)
  | Some f =>
      if negb (has (f_flags f) RAMFS_FLAG_WRITE) then ret (-13) else
      if f_node f =? 0 then ret (-3) else
      n <- node_get (f_node f) ;;
      if negb (n_type n =? RAMFS_TYPE_FILE) then ret (-21) else
      clear_pages (n_data_pages n) ;;;
      node_upd (f_node f) (put_size 0) ;;;
      fd_put fd (put_pos 0 f) ;;;
      ret 0
  end.

Definition ramfs_seek (fd offset : Z) : M ramfs Z :=
  o <- open_fd fd ;;
  match o with
  | None => ret (-1)
  | Some f =>
      if f_node f =? 0 then ret (-3) else
      n <- node_get (f_node f) ;;
      let offset := if n_size n <? offset then n_size n else offset in
      fd_put fd (put_pos offset f) ;;;
      ret offset
  end.
Definition ramfs_tell (fd : Z) : M ramfs Z :=
  o <- open_fd fd ;; ret (match o with None => -1 | Some f => f_pos f end).
Definition ramfs_fd_size (fd : Z) : M ramfs Z :=
  o <- open_fd fd ;;
  match o with
  | None => ret (-1)
  | Some f => if f_node f =? 0 then ret (-3) else n <- node_get (f_node f) ;; ret (n_size n)
  end.

Definition ramfs_fd_ref (fd : Z) : M ramfs Z :=
  o <- open_fd fd ;;
  match o with
  | None => ret (-1)
  | Some f => if f_refs f <? 255 then fd_put fd (put_refs (f_refs f + 1) f) ;;; ret 0 else ret (-1)
  end.
Definition ramfs_close (fd : Z) : M ramfs unit :=
  o <- open_fd fd ;;
  match o with
  | None => ret tt
  | Some f =>
      if 1 <? f_refs f then fd_put fd (put_refs (f_refs f - 1) f)
      else fd_put fd (mk_fd 0 0 0 false (f_close_on_exec f) 0 0 0 0)
  end.

(** * Removing and renaming *)

(** The loop for the sibling in front of [node]; [false]: given up behind
    [RAMFS_MAX_FILES] steps. *)
Fixpoint unlink_after (k : nat) (prev node : Z) : M ramfs bool :=
  if prev =? 0 then ret true else
  p <- node_get prev ;;
  if n_next p =? node then n <- node_get node ;; node_upd prev (put_next (n_next n)) ;;; ret true else
  match k with O => ret false | S k' => unlink_after k' (n_next p) node end.
Definition unlink_child (parent node : Z) : M ramfs bool :=
  p <- node_get parent ;;
  if n_children p =? node then n <- node_get node ;; node_upd parent (put_children (n_next n)) ;;; ret true
  else unlink_after (Z.to_nat RAMFS_MAX_FILES) (n_children p) node.

(** What [ramfs_unlink] and [ramfs_rmdir] share: [corrupt] is the error of the
    loop above. *)
Definition remove_node (parent node corrupt : Z) : M ramfs Z :=
  busy <- ramfs_node_is_busy node ;;
  if (busy : bool) then ret RAMFS_BUSY else
  ok <- unlink_child parent node ;;
  if negb ok then ret corrupt else
  node_upd parent (fun p => put_child_count (u16 (n_child_count p - 1)) p) ;;;
  free_node node ;;;
  ret 0.

Definition ramfs_unlink (who : option task) (path : option (list Z)) : M ramfs Z :=
  node <- ramfs_find_locked who path ;;
  r <- gets root ;;
  if (node =? 0) || (node =? r) then ret (-1) else
  n <- node_get node ;;
  if negb (n_type n =? RAMFS_TYPE_FILE) then ret (-2) else
  if n_parent n =? 0 then ret (-3) else
  ok <- node_permits who (n_parent n) RAMFS_FLAG_WRITE ;;
  if negb ok then ret (-4) else
  remove_node (n_parent n) node (-5).

Definition ramfs_rmdir (who : option task) (path : option (list Z)) : M ramfs Z :=
  node <- ramfs_find_locked who path ;;
  r <- gets root ;;
  if (node =? 0) || (node =? r) then ret (-1) else
  n <- node_get node ;;
  if negb (n_type n =? RAMFS_TYPE_DIR) then ret (-2) else
  if negb (n_children n =? 0) then ret (-3) else
  if n_parent n =? 0 then ret (-4) else
  ok <- node_permits who (n_parent n) RAMFS_FLAG_WRITE ;;
  if negb ok then ret (-5) else
  remove_node (n_parent n) node (-6).

Definition ramfs_rename (who : option task) (old_path new_path : option (list Z)) : M ramfs Z :=
  match old_path, new_path with
  | Some _, Some np =>
      old_node <- ramfs_find_locked who old_path ;;
      r <- gets root ;;
      if (old_node =? 0) || (old_node =? r) then ret (-1) else
      new_node <- ramfs_find_locked who new_path ;;
      if negb (new_node =? 0) then ret (-2) else
      n <- node_get old_node ;;
      let parent := n_parent n in
      if parent =? 0 then ret (-3) else
      ok <- node_permits who parent RAMFS_FLAG_WRITE ;;
      if negb ok then ret (-4) else
      match split_path np 16 with
      | None => ret (-3)
      | Some comps =>
          if Z.of_nat (length comps) =? 0 then ret (-3) else
          w <- walk_to_parent who comps ;;
          match w with
          | WALK_DENIED => ret (-4)
          | WALK_NOT_DIR | WALK_NOT_FOUND => ret (-3)
          | WALK_OK new_parent =>
              if negb (new_parent =? parent) then ret (-3) else
              taken <- ramfs_find_any_locked who new_path ;;
              if negb (taken =? 0) then ret (-2) else
              node_upd old_node (put_name (List.last comps [])) ;;;
              ret 0
          end
      end
  | _, _ => ret (-3)
  end.

(** * Listing, modes, temporary files *)

Fixpoint collect (k : nat) (child : Z) : M ramfs (list Z) :=
  match k with
  | O => ret []
  | S k' => if child =? 0 then ret [] else n <- node_get child ;; l <- collect k' (n_next n) ;; ret (child :: l)
  end.
(** The result, the node and the entries. *)
Definition ramfs_list (who : option task) (path : option (list Z)) (max : Z) : M ramfs (Z * Z * list Z) :=
  node <- ramfs_find_locked who path ;;
  if node =? 0 then ret (RAMFS_LIST_ENOENT, 0, []) else
  ok <- node_permits who node RAMFS_FLAG_READ ;;
  if negb ok then ret (RAMFS_LIST_EACCES, 0, []) else
  n <- node_get node ;;
  l <- (if n_type n =? RAMFS_TYPE_DIR then collect (Z.to_nat max) (n_children n) else ret []) ;;
  ret (Z.of_nat (length l), node, l).

Definition ramfs_get_root : M ramfs Z := gets root.

Definition ramfs_chmod (who : option task) (path : option (list Z)) (mode : Z) : M ramfs Z :=
  node <- ramfs_find who path ;;
  if node =? 0 then ret (-1) else
  let '(uid, _) := ramfs_get_current_credentials who in
  n <- node_get node ;;
  if negb (uid =? 0) && negb (uid =? n_uid n) then ret RAMFS_CHMOD_EPERM else
  node_upd node (put_mode (Z.land mode RAMFS_PERM_MASK)) ;;;
  ret 0.

Definition hex (x : Z) : Z := if x <? 10 then 48 + x else 87 + x.
Definition random_hex (bytes : list Z) : list Z :=
  concat (map (fun b => [hex (Z.land (Z.shiftr b 4) 0xF); hex (Z.land b 0xF)]) bytes).
(** The path of the temporary file. *)
Definition temp_path (dir bytes : list Z) : list Z :=
  let p := take 63 (take 63 dir ++ random_hex bytes) in
  if Z.of_nat (length p) <? 59 then p ++ [46; 116; 109; 112] else p.
(** [random_bytes]: the 16 bytes of the generator.  The result and the path left
    in the buffer of [buf_size] bytes. *)
Definition ramfs_mkstemps (who : option task) (buf_size : Z) (random_bytes : list Z) : M ramfs (Z * list Z) :=
  if buf_size <? 64 then ret (-1, []) else
  match who with
  | None => ret (-2, [])
  | Some t =>
      let full_path := temp_path (t_private_tmp_dir t) random_bytes in
      existing <- ramfs_find who (Some full_path) ;;
      if negb (existing =? 0) then ret (-4, []) else
      fd <- ramfs_open who (Some full_path) (Z.lor RAMFS_FLAG_READ RAMFS_FLAG_WRITE) ;;
      if fd <? 0 then ret (-4, []) else ret (fd, full_path)
  end.
End Operations.

End Ramfs.
