(* ===== verification/RamfsInv.v ===== *)
(** The invariant of the file system: the pointers form a tree with distinct,
    valid names, descriptors refer to live files, files to live pages, and all
    of them to distinct allocated frames. *)
From Stdlib Require Import ZArith Lia List Bool.
From stdpp Require Import base tactics numbers list gmap.
From S2P Require Import Prelude Pmm CString Ramfs.
Open Scope Z_scope.

Module RamfsInv.
Import Ramfs.

Notation heap := (gmap Z ramfs_node).

(** * Lists of children *)

(** The list of siblings from a pointer on. *)
Fixpoint chain (h : heap) (p : Z) (l : list Z) : Prop :=
  match l with
  | [] => p = 0
  | a :: l' => p = a /\ a <> 0 /\ exists n, h !! a = Some n /\ chain h (n_next n) l'
  end.

Lemma chain_unique h p l1 l2 : chain h p l1 -> chain h p l2 -> l1 = l2.
Proof.
  revert p l2. induction l1 as [|a l1 IH]; intros p [|b l2]; simpl.
  - done.
  - by intros -> (<- & ? & _).
  - by intros (-> & ? & _) ->.
  - intros (-> & _ & n & Hn & H1) (<- & _ & n' & Hn' & H2). f_equal.
    assert (n' = n) as -> by congruence. by apply (IH (n_next n)).
Qed.

Lemma chain_nonzero h p l : chain h p l -> 0 ∉ l.
Proof.
  revert p. induction l as [|a l IH]; intros p H; [apply not_elem_of_nil|].
  destruct H as (_ & Ha & n & _ & H). apply not_elem_of_cons. split; [done|by eapply IH].
Qed.

(** Only the links of its members matter. *)
Lemma siblings_ext h h' p l :
  (forall a n, a ∈ l -> h !! a = Some n -> exists n', h' !! a = Some n' /\ n_next n' = n_next n) ->
  chain h p l -> chain h' p l.
Proof.
  revert p. induction l as [|a l IH]; intros p Hl H; [done|]. destruct H as (-> & Ha & n & Hn & H).
  destruct (Hl a n) as (n' & Hn' & E); [by left|done|]. split_and!; [done..|]. exists n'. split; [done|].
  rewrite E. apply IH; [|done]. intros b m Hb Hm. apply Hl; [by right|done].
Qed.

Lemma chain_live h p l a : chain h p l -> a ∈ l -> exists n, h !! a = Some n.
Proof.
  revert p. induction l as [|b l IH]; intros p H Ha; [by apply not_elem_of_nil in Ha|].
  destruct H as (_ & _ & n & Hn & H). apply elem_of_cons in Ha as [->|Ha]; [by exists n|by eapply IH].
Qed.

(** Taking a member out by linking around it. *)
Lemma chain_remove h p l1 b a l2 n m x :
  chain h p (l1 ++ b :: a :: l2) -> NoDup (l1 ++ b :: a :: l2) -> h !! a = Some n -> h !! b = Some m ->
  x = n_next n -> chain (<[b := put_next x m]> h) p (l1 ++ b :: l2).
Proof.
  intros H Hnd Ha Hb ->. revert p H. induction l1 as [|y l1 IH]; intros p H; simpl in *.
  - destruct H as (-> & H0 & m' & Hm & _ & _ & n' & Hn & H). assert (m' = m) as -> by congruence. assert (n' = n) as -> by congruence.
    split_and!; [done..|]. exists (put_next (n_next n) m). rewrite lookup_insert_eq. split; [done|].
    apply NoDup_cons in Hnd as [Hb1 _]. apply not_elem_of_cons in Hb1 as [_ Hb1]. simpl.
    eapply siblings_ext; [|exact H]. intros c k Hc Hk. exists k. rewrite lookup_insert_ne by congruence. done.
  - destruct H as (-> & H0 & k & Hk & H). apply NoDup_cons in Hnd as [Hy Hnd]. split_and!; [done..|]. exists k.
    rewrite lookup_insert_ne; [split; [done|by apply IH]|]. intros ->. apply Hy, elem_of_app. right. by left.
Qed.

(** * The tree *)

(** The components a path consists of. *)
Record component (c : list Z) : Prop := mk_component {
  co_chars : CString.chars c; co_length : 0 < Z.of_nat (length c) < RAMFS_MAX_NAME;
  co_slash : 47 ∉ c; co_reserved : reserved c = false }.

(** The names from the root to a node. *)
Inductive below (h : heap) (r : Z) : list (list Z) -> Z -> Prop :=
| below_root : below h r [] r
| below_child l d c m : below h r l d -> h !! c = Some m -> n_parent m = d -> below h r (l ++ [n_name m]) c.

(** The children of a node. *)
Definition kids (h : heap) (a : Z) (l : list Z) : Prop :=
  NoDup l /\ forall c, c ∈ l <-> exists m, h !! c = Some m /\ n_parent m = a.

Record tree (h : heap) (r : Z) : Prop := mk_tree {
  tr_null : h !! 0 = None;
  tr_root : exists n, h !! r = Some n /\ n_type n = RAMFS_TYPE_DIR /\ n_parent n = 0;
  tr_kids : forall a n, h !! a = Some n ->
    exists l, chain h (n_children n) l /\ kids h a l /\ Z.of_nat (length l) = n_child_count n /\
      (n_type n <> RAMFS_TYPE_DIR -> l = []);
  tr_reach : forall a n, h !! a = Some n -> exists l, below h r l a;
  tr_unique : forall a b n m, h !! a = Some n -> h !! b = Some m -> n_parent n = n_parent m -> n_parent n <> 0 ->
    n_name n = n_name m -> a = b;
  tr_names : forall a n, h !! a = Some n -> a <> r -> component (n_name n) }.

Lemma below_live h r l a : tree h r -> below h r l a -> exists n, h !! a = Some n.
Proof. intros H [|l' d c m _ Hm _]; [|by exists m]. destruct (tr_root _ _ H) as (n & Hn & _). by exists n. Qed.

Lemma tree_parent h r a n : tree h r -> h !! a = Some n -> a <> r -> exists p, h !! n_parent n = Some p.
Proof.
  intros H Hn Ha. destruct (tr_reach _ _ H a n Hn) as (l & Hb). destruct Hb as [|l d c m Hb Hm E]; [done|].
  assert (m = n) as -> by congruence. rewrite E. by eapply below_live.
Qed.

Lemma below_unique h r l a b : tree h r -> below h r l a -> below h r l b -> a = b.
Proof.
  intros H Ha. revert b. induction Ha as [|l d c m Ha IH Hc E]; intros b Hb.
  - inversion Hb as [|l' d c m Hb' Hm E El]; [done|]. by apply app_nil in El as [_ ?].
  - inversion Hb as [El|l' d' c' m' Hb' Hm' E' El]; [symmetry in El; by apply app_nil in El as [_ ?]|].
    apply app_inj_tail in El as [-> Ename]. assert (d = d') as <- by by apply IH.
    assert (d <> 0) as H0 by (intros ->; destruct (below_live _ _ _ _ H Ha); rewrite (tr_null _ _ H) in *; done).
    symmetry. apply (tr_unique _ _ H b c m' m); try done; congruence.
Qed.

(** Every node but the root has one name and one parent, so one path. *)
Lemma below_path h r l1 l2 a : tree h r -> below h r l1 a -> below h r l2 a -> l1 = l2.
Proof.
  intros H H1. revert l2. induction H1 as [|l d c m H1 IH Hc E]; intros l2 H2.
  - inversion H2 as [|l' d c m H2' Hm E]; [done|]. subst. destruct (tr_root _ _ H) as (n & Hn & _ & Hp).
    assert (n = m) as -> by congruence. rewrite Hp in H2'. destruct (below_live _ _ _ _ H H2') as [k Hk].
    by rewrite (tr_null _ _ H) in Hk.
  - inversion H2 as [E1 E2|l' d' c' m' H2' Hm' E']; subst.
    + destruct (tr_root _ _ H) as (n & Hn & _ & Hp). assert (n = m) as -> by congruence. rewrite Hp in H1.
      destruct (below_live _ _ _ _ H H1) as [k Hk]. by rewrite (tr_null _ _ H) in Hk.
    + assert (m' = m) as -> by congruence. f_equal. by apply IH.
Qed.

(** What the tree consists of. *)
Definition shape (n : ramfs_node) : list Z * Z * Z * Z * Z * Z :=
  (n_name n, n_type n, n_parent n, n_children n, n_next n, n_child_count n).
Definition same_shape (h h' : heap) : Prop := forall a, shape <$> h !! a = shape <$> h' !! a.

Lemma same_shape_at h h' a n : same_shape h h' -> h !! a = Some n -> exists n', h' !! a = Some n' /\ shape n' = shape n.
Proof.
  intros H Hn. specialize (H a). rewrite Hn in H. destruct (h' !! a) as [n'|]; [|done]. injection H as E. exists n'.
  unfold shape. split; [done|congruence].
Qed.
Lemma same_shape_sym h h' : same_shape h h' -> same_shape h' h.
Proof. intros H a. by rewrite H. Qed.

Lemma same_shape_below h h' r l a : same_shape h h' -> below h r l a -> below h' r l a.
Proof.
  intros Hs H. induction H as [|l d c m H IH Hc E]; [constructor|].
  destruct (same_shape_at _ _ _ _ Hs Hc) as (m' & Hm' & Es). unfold shape in Es.
  replace (n_name m) with (n_name m') by congruence. eapply below_child; [exact IH|done|congruence].
Qed.

Lemma same_shape_kids h h' a l : same_shape h h' -> kids h a l -> kids h' a l.
Proof.
  intros Hs [Hnd H]. split; [done|]. intros c. rewrite H. split; intros (m & Hm & E).
  - destruct (same_shape_at _ _ _ _ Hs Hm) as (m' & ? & Es). unfold shape in Es. exists m'. split; [done|congruence].
  - destruct (same_shape_at _ _ _ _ (same_shape_sym _ _ Hs) Hm) as (m' & ? & Es). unfold shape in Es. exists m'. split; [done|congruence].
Qed.

Lemma same_shape_tree h h' r : same_shape h h' -> tree h r -> tree h' r.
Proof.
  intros Hs [H0 (n & Hn & Ht & Hp) Hk Hr Hu Hm]. pose proof (same_shape_sym _ _ Hs) as Hs'.
  assert (forall a n', h' !! a = Some n' -> exists n, h !! a = Some n /\ shape n = shape n') as Hb by (intros; by eapply same_shape_at).
  constructor.
  - specialize (Hs 0). rewrite H0 in Hs. by destruct (h' !! 0).
  - destruct (same_shape_at _ _ _ _ Hs Hn) as (n' & ? & Es). unfold shape in Es. exists n'. split_and!; [done|congruence..].
  - intros a n' Hn'. destruct (Hb a n' Hn') as (n1 & Hn1 & Es). unfold shape in Es. destruct (Hk a n1 Hn1) as (l & Hc & Hl & Hlen & Hd).
    exists l. replace (n_children n') with (n_children n1) by congruence. split_and!; [|by eapply same_shape_kids|congruence|].
    + eapply siblings_ext; [|exact Hc]. intros b m _ Hb'. destruct (same_shape_at _ _ _ _ Hs Hb') as (m' & ? & Es'). unfold shape in Es'.
      exists m'. split; [done|congruence].
    + intros Hd'. apply Hd. congruence.
  - intros a n' Hn'. destruct (Hb a n' Hn') as (n1 & Hn1 & Es). destruct (Hr a n1 Hn1) as (l & Hl). exists l. by eapply same_shape_below.
  - intros a b n' m' Hn' Hm'. destruct (Hb a n' Hn') as (n1 & Hn1 & E1), (Hb b m' Hm') as (m1 & Hm1 & E2). unfold shape in E1, E2.
    intros. apply (Hu a b n1 m1); try done; congruence.
  - intros a n' Hn' Ha. destruct (Hb a n' Hn') as (n1 & Hn1 & Es). unfold shape in Es. replace (n_name n') with (n_name n1) by congruence.
    by eapply Hm.
Qed.

(** ** A new child *)

Section Add.
Context (h : heap) (r p a : Z) (pn n : ramfs_node) (H : tree h r).
Context (Hp : h !! p = Some pn) (Hdir : n_type pn = RAMFS_TYPE_DIR) (Ha : h !! a = None) (Ha0 : a <> 0).
Context (Hpar : n_parent n = p) (Hnext : n_next n = n_children pn) (Hch : n_children n = 0) (Hcc : n_child_count n = 0).
Context (Hname : component (n_name n)).
Context (Hfree : forall c m, h !! c = Some m -> n_parent m = p -> n_name m <> n_name n).

Definition added : heap := <[p := put_child_count (n_child_count pn + 1) (put_children a pn)]> (<[a := n]> h).

Lemma add_ne : a <> p.
Proof. intros ->. congruence. Qed.
Lemma add_root_ne : a <> r.
Proof. intros ->. destruct (tr_root _ _ H) as (m & Hm & _). congruence. Qed.

(** Names, types and parents of the old nodes stay. *)
Lemma added_old c m : h !! c = Some m ->
  exists m', added !! c = Some m' /\ n_name m' = n_name m /\ n_type m' = n_type m /\ n_parent m' = n_parent m /\ n_next m' = n_next m /\
    (c <> p -> m' = m).
Proof.
  intros Hm. unfold added. destruct (decide (c = p)) as [->|Hc].
  - assert (m = pn) as -> by congruence. eexists. rewrite lookup_insert_eq. split; [done|]. by split_and!.
  - exists m. rewrite lookup_insert_ne by done. rewrite lookup_insert_ne by congruence. done.
Qed.

Lemma added_inv c m' : added !! c = Some m' -> c = a /\ m' = n \/ exists m, h !! c = Some m /\
  n_name m' = n_name m /\ n_type m' = n_type m /\ n_parent m' = n_parent m /\ n_next m' = n_next m.
Proof.
  unfold added. intros Hm. destruct (decide (c = p)) as [->|Hc].
  - rewrite lookup_insert_eq in Hm. injection Hm as <-. right. exists pn. done.
  - rewrite lookup_insert_ne in Hm by done. destruct (decide (c = a)) as [->|Hc'].
    + rewrite lookup_insert_eq in Hm. left. split; [done|congruence].
    + rewrite lookup_insert_ne in Hm by done. right. by exists m'.
Qed.

Lemma added_new : added !! a = Some n.
Proof. unfold added. rewrite lookup_insert_ne by (apply not_eq_sym, add_ne). by rewrite lookup_insert_eq. Qed.

Lemma added_below_old l b : below h r l b -> below added r l b.
Proof.
  intros Hb. induction Hb as [|l d c m Hb IH Hc E]; [constructor|]. destruct (added_old c m Hc) as (m' & Hm' & En & _ & Ep & _).
  rewrite <- En. eapply below_child; [exact IH|done|congruence].
Qed.

Lemma added_below l b :
  below added r l b <-> below h r l b \/ b = a /\ exists lp, below h r lp p /\ l = lp ++ [n_name n].
Proof.
  split.
  - intros Hb. induction Hb as [|l d c m' Hb IH Hc E]; [left; constructor|].
    assert (forall lp, d = a -> below h r lp p -> False) as Hleaf.
    { intros lp Ed _. destruct (added_inv c m' Hc) as [[-> ->]|(m & Hm & _ & _ & Ep & _)]; [apply add_ne; congruence|].
      destruct (tree_parent h r c m H Hm) as [q Hq]; [|].
      - intros ->. destruct (tr_root _ _ H) as (k & Hk & _ & Hk0). assert (k = m) as -> by congruence. congruence.
      - rewrite <- Ep, E, Ed in Hq. congruence. }
    destruct IH as [IH|(Ed & lp & Hlp & _)]; [|by destruct (Hleaf lp)].
    destruct (added_inv c m' Hc) as [[-> ->]|(m & Hm & En & _ & Ep & _)].
    + right. split; [done|]. exists l. split; [congruence|done].
    + left. rewrite En. eapply below_child; [exact IH|done|congruence].
  - intros [Hb|(-> & lp & Hlp & ->)]; [by apply added_below_old|].
    eapply below_child; [by apply added_below_old|apply added_new|done].
Qed.

Lemma added_kids d l : kids h d l -> kids added d (if decide (d = p) then a :: l else l).
Proof.
  intros [Hnd Hl]. assert (a ∉ l) as Hal by (intros (m & Hm & _)%Hl; congruence).
  assert (forall c, c ∈ l <-> c <> a /\ exists m, added !! c = Some m /\ n_parent m = d) as Hl'.
  { intros c. rewrite Hl. split.
    - intros (m & Hm & E). split; [congruence|]. destruct (added_old c m Hm) as (m' & Hm' & _ & _ & Ep & _). exists m'. split; [done|congruence].
    - intros (Hc & m' & Hm' & E). destruct (added_inv c m' Hm') as [[? _]|(m & Hm & _ & _ & Ep & _)]; [done|]. exists m. split; [done|congruence]. }
  destruct (decide (d = p)) as [->|Hd]; split; try done.
  - by apply NoDup_cons.
  - intros c. rewrite elem_of_cons, Hl'. split.
    + intros [->|[_ ?]]; [|done]. exists n. split; [apply added_new|done].
    + intros Hm. destruct (decide (c = a)); [by left|by right].
  - intros c. rewrite Hl'. split; [by intros [_ ?]|]. intros (m & Hm & E). split; [|by exists m].
    intros ->. rewrite added_new in Hm. injection Hm as <-. congruence.
Qed.

Lemma tree_added : tree added r.
Proof.
  pose proof add_ne as Hne. destruct (tr_root _ _ H) as (rn & Hrn & Hrt & Hrp). constructor.
  - destruct (added !! 0) as [m|] eqn:E; [|done]. destruct (added_inv 0 m E) as [[? _]|(m' & Hm' & _)]; [congruence|].
    by rewrite (tr_null _ _ H) in Hm'.
  - destruct (added_old r rn Hrn) as (m' & Hm' & _ & Et & Ep & _). exists m'. split_and!; [done|congruence..].
  - assert (forall q l, chain h q l -> a ∉ l -> chain added q l) as Hext.
    { intros q l Hc _. eapply siblings_ext; [|exact Hc]. intros b m _ Hb. destruct (added_old b m Hb) as (m' & ? & _ & _ & _ & En & _). by exists m'. }
    assert (forall d l, kids h d l -> a ∉ l) as Hal by (intros d l [_ Hl] (m & Hm & _)%Hl; congruence).
    intros d m' Hm'. destruct (decide (d = p)) as [->|Hd].
    + unfold added in Hm'. rewrite lookup_insert_eq in Hm'. injection Hm' as <-. destruct (tr_kids _ _ H p pn Hp) as (l & Hc & Hk & Hlen & Ht).
      exists (a :: l). pose proof (added_kids p l Hk) as Hk'. destruct (decide (p = p)); [|done]. simpl. split_and!; [done|done| |done|lia|].
      * exists n. rewrite Hnext. split; [apply added_new|]. apply Hext; [done|by eapply Hal].
      * intros ?. congruence.
    + destruct (added_inv d m' Hm') as [[-> ->]|(m & Hm & _)].
      * exists []. rewrite Hch, Hcc. split_and!; [done| |done|done]. split; [apply NoDup_nil_2|]. intros c. rewrite elem_of_nil. split; [done|].
        intros (m & Hm & E). destruct (added_inv c m Hm) as [[-> ->]|(k & Hk & _ & _ & Ek & _)]; [congruence|].
        destruct (decide (c = r)) as [->|Hcr]; [congruence|]. destruct (tree_parent h r c k H Hk Hcr). congruence.
      * destruct (added_old d m Hm) as (m2 & Hm2 & _ & _ & _ & _ & Heq). assert (m' = m) as -> by (rewrite Hm2 in Hm'; injection Hm' as <-; auto).
        destruct (tr_kids _ _ H d m Hm) as (l & Hc & Hk & Hlen & Ht). exists l. pose proof (added_kids d l Hk) as Hk'.
        destruct (decide (d = p)); [done|]. split_and!; [apply Hext; [done|by eapply Hal]|done..].
  - intros b m' Hm'. destruct (added_inv b m' Hm') as [[-> ->]|(m & Hm & _)].
    + destruct (tr_reach _ _ H p pn Hp) as (lp & Hlp). exists (lp ++ [n_name n]). apply added_below. right. eauto.
    + destruct (tr_reach _ _ H b m Hm) as (l & Hl). exists l. by apply added_below_old.
  - intros b c mb mc Hmb Hmc Ep E0 En.
    destruct (added_inv b mb Hmb) as [[-> ->]|(m1 & Hm1 & En1 & _ & Ep1 & _)], (added_inv c mc Hmc) as [[-> ->]|(m2 & Hm2 & En2 & _ & Ep2 & _)].
    + done.
    + exfalso. apply (Hfree c m2); [done|congruence..].
    + exfalso. apply (Hfree b m1); [done|congruence..].
    + apply (tr_unique _ _ H b c m1 m2); try done; congruence.
  - intros b m' Hm' Hb. destruct (added_inv b m' Hm') as [[-> ->]|(m & Hm & En & _)]; [done|]. rewrite En. by apply (tr_names _ _ H b).
Qed.
End Add.

(** ** A leaf taken out *)

Definition same_place (m m' : ramfs_node) : Prop :=
  n_name m' = n_name m /\ n_type m' = n_type m /\ n_parent m' = n_parent m.

Section Remove.
Context (h h' : heap) (r p a : Z) (pn n : ramfs_node) (H : tree h r).
Context (Ha : h !! a = Some n) (Har : a <> r) (Hpar : n_parent n = p) (Hch : n_children n = 0) (Hp : h !! p = Some pn).
Context (Hgone : h' !! a = None).
Context (Hold : forall c m, c <> a -> h !! c = Some m ->
  exists m', h' !! c = Some m' /\ same_place m m' /\ (c <> p -> n_children m' = n_children m /\ n_child_count m' = n_child_count m)).
Context (Hinv : forall c m', h' !! c = Some m' -> exists m, h !! c = Some m).
Context (Hmine : exists pn' l1 l2, h' !! p = Some pn' /\ chain h (n_children pn) (l1 ++ a :: l2) /\
  chain h' (n_children pn') (l1 ++ l2) /\ n_child_count pn' = n_child_count pn - 1).
Context (Hothers : forall d q l, d <> p -> kids h d l -> chain h q l -> chain h' q l).

Lemma removed_ne c m' : h' !! c = Some m' -> c <> a.
Proof. intros Hm ->. congruence. Qed.

Lemma removed_inv c m' : h' !! c = Some m' -> exists m, c <> a /\ h !! c = Some m /\ same_place m m' /\
  (c <> p -> n_children m' = n_children m /\ n_child_count m' = n_child_count m).
Proof.
  intros Hm. pose proof (removed_ne c m' Hm) as Hc. destruct (Hinv c m' Hm) as (m & Hm1). exists m. split_and!; [done..| |].
  all: destruct (Hold c m Hc Hm1) as (m2 & Hm2 & Hs & Hf); assert (m2 = m') as -> by congruence; done.
Qed.

(** Nobody is below the leaf. *)
Lemma leaf c m : h !! c = Some m -> n_parent m <> a.
Proof.
  intros Hm E. destruct (tr_kids _ _ H a n Ha) as (l & Hc & [_ Hk] & _). rewrite Hch in Hc. assert (l = []) as ->.
  { destruct l as [|b l]; [done|]. by destruct Hc as (<- & ? & _). }
  assert (c ∈ []) as Hin by (apply Hk; by exists m). by apply not_elem_of_nil in Hin.
Qed.

Lemma removed_below l b : below h' r l b <-> below h r l b /\ b <> a.
Proof.
  split.
  - intros Hb. induction Hb as [|l d c m' Hb [IH Hd] Hc E]; [split; [constructor|done]|].
    destruct (removed_inv c m' Hc) as (m & Hca & Hm & (En & _ & Ep) & _). split; [|done]. rewrite En.
    eapply below_child; [exact IH|done|congruence].
  - intros [Hb Hba]. revert Hba. induction Hb as [|l d c m Hb IH Hc E]; intros Hba; [constructor|].
    destruct (Hold c m Hba Hc) as (m' & Hm' & (En & _ & Ep) & _). rewrite <- En.
    eapply below_child; [apply IH|done|congruence]. intros ->. by apply (leaf c m).
Qed.

Lemma removed_kids d l : kids h d l -> kids h' d (if decide (d = p) then filter (fun c : Z => c <> a) l else l).
Proof.
  intros [Hnd Hl]. assert (forall c, (exists m, h' !! c = Some m /\ n_parent m = d) <-> c <> a /\ c ∈ l) as Hc.
  { intros c. rewrite Hl. split.
    - intros (m' & Hm' & E). destruct (removed_inv c m' Hm') as (m & Hca & Hm & (_ & _ & Ep) & _). split; [done|]. exists m. split; [done|congruence].
    - intros (Hca & m & Hm & E). destruct (Hold c m Hca Hm) as (m' & Hm' & (_ & _ & Ep) & _). exists m'. split; [done|congruence]. }
  destruct (decide (d = p)) as [->|Hd]; split; try done.
  - by apply NoDup_filter.
  - intros c. by rewrite list_elem_of_filter, Hc.
  - intros c. rewrite Hc. split; [|by intros [_ ?]]. intros Hin. split; [|done]. intros ->. apply Hl in Hin as (m & Hm & E).
    assert (m = n) as -> by congruence. congruence.
Qed.

Lemma filter_out (l1 l2 : list Z) : NoDup (l1 ++ a :: l2) -> filter (fun c : Z => c <> a) (l1 ++ a :: l2) = l1 ++ l2.
Proof.
  intros Hnd. apply NoDup_app in Hnd as (_ & Hd & Hnd). apply NoDup_cons in Hnd as [Hn2 _].
  assert (forall l : list Z, a ∉ l -> filter (fun c : Z => c <> a) l = l) as Hf.
  { intros l Hl. induction l as [|x l IH]; [done|]. apply not_elem_of_cons in Hl as [Hx Hl]. rewrite filter_cons_True by congruence.
    by rewrite IH. }
  rewrite filter_app, filter_cons_False by tauto. rewrite !Hf; [done|done|]. intros Hin. apply (Hd a Hin). by left.
Qed.

Lemma tree_removed : tree h' r.
Proof.
  destruct (tr_root _ _ H) as (rn & Hrn & Hrt & Hrp). constructor.
  - destruct (h' !! 0) as [m|] eqn:E; [|done]. destruct (Hinv 0 m E) as (m' & Hm'). by rewrite (tr_null _ _ H) in Hm'.
  - destruct (Hold r rn) as (m' & Hm' & (_ & Et & Ep) & _); [done..|]. exists m'. split_and!; [done|congruence..].
  - intros d m' Hm'. destruct (removed_inv d m' Hm') as (m & Hda & Hm & (En & Et & Ep) & Hf).
    destruct (tr_kids _ _ H d m Hm) as (l & Hc & Hk & Hlen & Hdir). pose proof (removed_kids d l Hk) as Hk'.
    destruct (decide (d = p)) as [->|Hd].
    + destruct Hmine as (pn' & l1 & l2 & Hpn' & Hc1 & Hc2 & Hcnt). assert (pn' = m') as -> by congruence. assert (m = pn) as -> by congruence.
      assert (l = l1 ++ a :: l2) as -> by by eapply chain_unique. rewrite filter_out in Hk' by apply Hk.
      exists (l1 ++ l2). split_and!; [done|done| |].
      * rewrite length_app in *. simpl in Hlen. lia.
      * intros Ht. rewrite Et in Ht. apply Hdir in Ht. by destruct l1.
    + destruct (Hf Hd) as [Ec Ecc]. exists l. rewrite Ec, Ecc. split_and!; [by eapply Hothers|done|done|]. intros Ht. apply Hdir. congruence.
  - intros b m' Hm'. destruct (removed_inv b m' Hm') as (m & Hba & Hm & _). destruct (tr_reach _ _ H b m Hm) as (l & Hl).
    exists l. by apply removed_below.
  - intros b c mb mc Hmb Hmc Ep E0 En. destruct (removed_inv b mb Hmb) as (m1 & _ & Hm1 & (? & _ & ?) & _).
    destruct (removed_inv c mc Hmc) as (m2 & _ & Hm2 & (? & _ & ?) & _). apply (tr_unique _ _ H b c m1 m2); try done; congruence.
  - intros b m' Hm' Hb. destruct (removed_inv b m' Hm') as (m & _ & Hm & (En & _) & _). rewrite En. by apply (tr_names _ _ H b).
Qed.
End Remove.

(** ** A new name *)

Section Rename.
Context (h : heap) (r p a : Z) (n : ramfs_node) (x : list Z) (H : tree h r).
Context (Ha : h !! a = Some n) (Har : a <> r) (Hpar : n_parent n = p) (Hname : component x).
Context (Hfree : forall c m, h !! c = Some m -> n_parent m = p -> n_name m <> x).

Definition renamed : heap := <[a := put_name x n]> h.

Lemma renamed_old c m : h !! c = Some m -> exists m', renamed !! c = Some m' /\
  n_type m' = n_type m /\ n_parent m' = n_parent m /\ n_children m' = n_children m /\ n_next m' = n_next m /\
  n_child_count m' = n_child_count m /\ n_name m' = if decide (c = a) then x else n_name m.
Proof.
  intros Hm. unfold renamed. destruct (decide (c = a)) as [->|Hc].
  - assert (m = n) as -> by congruence. eexists. rewrite lookup_insert_eq. split; [done|]. by split_and!.
  - exists m. rewrite lookup_insert_ne by congruence. done.
Qed.
Lemma renamed_inv c m' : renamed !! c = Some m' -> exists m, h !! c = Some m.
Proof.
  unfold renamed. destruct (decide (c = a)) as [->|Hc]; [by exists n|]. rewrite lookup_insert_ne by congruence. by exists m'.
Qed.

(** The path of a node afterwards: [x] replaces the last name of the path [la]
    of the renamed node, in its own path and in those below it. *)
Definition new_path (la l : list (list Z)) : list (list Z) :=
  if decide (take (length la) l = la) then <[(length la - 1)%nat := x]> l else l.

Lemma below_step l y b : below h r (l ++ [y]) b -> exists d m, below h r l d /\ h !! b = Some m /\ n_parent m = d /\ n_name m = y.
Proof.
  intros Hb. inversion Hb as [E|l' d c m Hb' Hm E El]; [symmetry in E; by apply app_nil in E as [_ ?]|].
  apply app_inj_tail in El as [-> En]. by exists d, m.
Qed.

Lemma renamed_below la l b : below h r la a -> below h r l b -> below renamed r (new_path la l) b.
Proof.
  intros Hla Hb. assert (la <> []) as Hne. { intros ->. inversion Hla as [E|? ? ? ? _ _ _ E]; [done|by apply app_nil in E as [_ ?]]. }
  assert (0 < length la)%nat as Hpos by (destruct la; [done|simpl; lia]).
  induction Hb as [|l d c m Hb IH Hc E].
  - unfold new_path. destruct (decide _) as [E|_]; [|constructor]. rewrite take_nil in E. congruence.
  - destruct (renamed_old c m Hc) as (m' & Hm' & _ & Ep & _ & _ & _ & En).
    assert (below renamed r (new_path la l ++ [n_name m']) c) as Hstep by (eapply below_child; [exact IH|done|congruence]).
    replace (new_path la (l ++ [n_name m])) with (new_path la l ++ [n_name m']); [done|].
    rewrite En. unfold new_path. destruct (decide (c = a)) as [->|Hca].
    + assert (la = l ++ [n_name m]) as Ela. { eapply below_path; [done|exact Hla|]. eapply below_child; done. }
      rewrite Ela. rewrite (take_ge (l ++ [n_name m])) by lia. destruct (decide (l ++ [n_name m] = _)); [|done].
      rewrite length_app. simpl. destruct (decide _) as [Et|_].
      * exfalso. rewrite take_ge in Et by lia. apply (f_equal length) in Et. rewrite length_app in Et. simpl in Et. lia.
      * replace (length l + 1 - 1)%nat with (length l + 0)%nat by lia. by rewrite insert_app_r.
    + destruct (decide (length la <= length l)%nat) as [Hl|Hl].
      * rewrite take_app_le by lia. destruct (decide _); [|done]. by rewrite insert_app_l by lia.
      * destruct (decide (take _ l = la)) as [Et|_].
        { apply (f_equal length) in Et. rewrite length_take in Et. lia. }
        destruct (decide _) as [Et|_]; [|done]. exfalso. rewrite take_ge in Et by (rewrite length_app; simpl; lia).
        apply Hca. rewrite <- Et in Hla. eapply below_unique; [done| |exact Hla]. eapply below_child; done.
Qed.

Lemma tree_renamed : tree renamed r.
Proof.
  destruct (tr_root _ _ H) as (rn & Hrn & Hrt & Hrp). destruct (tr_reach _ _ H a n Ha) as (la & Hla). constructor.
  - destruct (renamed !! 0) as [m|] eqn:E; [|done]. destruct (renamed_inv 0 m E) as (m' & Hm'). by rewrite (tr_null _ _ H) in Hm'.
  - destruct (renamed_old r rn Hrn) as (m' & Hm' & Et & Ep & _). exists m'. split_and!; [done|congruence..].
  - intros d m' Hm'. destruct (renamed_inv d m' Hm') as (m & Hm). destruct (renamed_old d m Hm) as (m2 & Hm2 & Et & _ & Ec & _ & Ecc & _).
    assert (m2 = m') as -> by congruence. destruct (tr_kids _ _ H d m Hm) as (l & Hc & [Hnd Hk] & Hlen & Hdir).
    exists l. rewrite Ec, Ecc, Et. split_and!; [|split; [done|]|done|done].
    + eapply siblings_ext; [|exact Hc]. intros b k _ Hb. destruct (renamed_old b k Hb) as (k' & ? & _ & _ & _ & En & _). by exists k'.
    + intros c. rewrite Hk. split.
      * intros (k & Hk1 & E). destruct (renamed_old c k Hk1) as (k' & ? & _ & Ep & _). exists k'. split; [done|congruence].
      * intros (k' & Hk1 & E). destruct (renamed_inv c k' Hk1) as (k & Hk2). destruct (renamed_old c k Hk2) as (k2 & Hk3 & _ & Ep & _).
        exists k. split; [done|congruence].
  - intros b m' Hm'. destruct (renamed_inv b m' Hm') as (m & Hm). destruct (tr_reach _ _ H b m Hm) as (l & Hl).
    exists (new_path la l). by apply renamed_below.
  - intros b c mb mc Hmb Hmc Ep E0 En. destruct (renamed_inv b mb Hmb) as (m1 & Hm1), (renamed_inv c mc Hmc) as (m2 & Hm2).
    destruct (renamed_old b m1 Hm1) as (m1' & Hm1' & _ & Ep1 & _ & _ & _ & En1), (renamed_old c m2 Hm2) as (m2' & Hm2' & _ & Ep2 & _ & _ & _ & En2).
    assert (m1' = mb) as -> by congruence. assert (m2' = mc) as -> by congruence.
    destruct (decide (b = a)) as [->|Hb], (decide (c = a)) as [->|Hc]; [done|..].
    + exfalso. apply (Hfree c m2 Hm2); [|congruence]. assert (m1 = n) as -> by congruence. congruence.
    + exfalso. apply (Hfree b m1 Hm1); [|congruence]. assert (m2 = n) as -> by congruence. congruence.
    + apply (tr_unique _ _ H b c m1 m2); try done; congruence.
  - intros b m' Hm' Hb. destruct (renamed_inv b m' Hm') as (m & Hm). destruct (renamed_old b m Hm) as (m2 & Hm2 & _ & _ & _ & _ & _ & En).
    assert (m2 = m') as -> by congruence. rewrite En. destruct (decide _); [done|]. by apply (tr_names _ _ H b).
Qed.
End Rename.

End RamfsInv.
