(* ===== verification/RamfsOps.v ===== *)
(** The operations of the file system: what lookups find, and that the tree, the
    open files, the pages and the frames stay consistent. *)
From Stdlib Require Import ZArith Lia List Bool.
From stdpp Require Import base tactics numbers list gmap.
From S2P Require Import Prelude Pmm CString Ramfs RamfsInv.
Open Scope Z_scope.

Module RamfsOps.
Import Ramfs RamfsInv.

(** * Paths *)

Lemma split_loop_ok max path comps cur l :
  CString.chars path -> Forall component comps -> CString.chars cur -> 47 ∉ cur -> Z.of_nat (length cur) < RAMFS_MAX_NAME ->
  split_loop path max comps cur = Some l -> Forall component l.
Proof.
  revert comps cur. induction path as [|ch path IH]; intros comps cur Hp Hc Hcur Hs Hl E.
  - simpl in E. destruct (Z.ltb_spec 0 (Z.of_nat (length cur))); [|congruence].
    destruct (reserved cur) eqn:Er; [done|]. injection E as <-. apply Forall_app. split; [done|]. by repeat constructor; try lia.
  - apply Forall_cons in Hp as [Hch Hp]. cbn [split_loop] in E. destruct (max <=? _); [done|].
    destruct (Z.eqb_spec ch 47) as [->|Hne].
    + destruct (Z.eqb_spec (Z.of_nat (length cur)) 0); [eapply IH; [..|exact E]; try done; apply Forall_nil_2 || apply not_elem_of_nil|].
      destruct (reserved cur) eqn:Er; [done|]. eapply IH; [done| | | | |exact E]; [|apply Forall_nil_2|apply not_elem_of_nil|done].
      apply Forall_app. split; [done|]. repeat constructor; try done. lia.
    + eapply IH; [done|done| | | |exact E]; destruct (Z.ltb_spec (Z.of_nat (length cur)) (RAMFS_MAX_NAME - 1)); try done.
      * apply Forall_app. split; [done|by apply Forall_singleton].
      * rewrite elem_of_app, list_elem_of_singleton. intros [?|?]; [done|congruence].
      * rewrite length_app. simpl. lia.
Qed.

(** The components of a path are valid names. *)
Lemma split_path_ok path max l : CString.chars path -> split_path path max = Some l -> Forall component l.
Proof.
  intros Hp E. unfold split_path in E. eapply split_loop_ok; [|apply Forall_nil_2|apply Forall_nil_2|apply not_elem_of_nil|done|exact E].
  clear E. induction Hp as [|ch path Hc Hp IH]; simpl; [apply Forall_nil_2|]. destruct (ch =? 47); [done|by apply Forall_cons].
Qed.

(** * Permissions *)

Definition permits (who : option task) (n : ramfs_node) (access : Z) : bool :=
  let '(uid, gid) := ramfs_get_current_credentials who in ramfs_check_permission who n uid gid access.

(** Hidden: in a directory the caller cannot read, not its own, and without a
    single permission. *)
Definition hidden (who : option task) (h : heap) (n : ramfs_node) : bool :=
  let '(uid, _) := ramfs_get_current_credentials who in
  match h !! n_parent n with
  | Some pn =>
      negb (uid =? 0) && negb (n_uid n =? uid) && negb (permits who pn RAMFS_FLAG_READ) &&
      (negb (permits who n RAMFS_FLAG_READ) && negb (permits who n RAMFS_FLAG_WRITE) && negb (permits who n RAMFS_FLAG_EXEC))
  | None => false
  end.

(** What a lookup finds from a node on: every directory on the way may be
    searched, and none of the names on the way is hidden. *)
Inductive finds (who : option task) (hide : bool) (h : heap) : Z -> list (list Z) -> Z -> Prop :=
| finds_here d : finds who hide h d [] d
| finds_below d n c m cs a :
    h !! d = Some n -> n_type n = RAMFS_TYPE_DIR -> permits who n RAMFS_FLAG_EXEC = true ->
    h !! c = Some m -> n_parent m = d -> hide && hidden who h m = false ->
    finds who hide h c cs a -> finds who hide h d (n_name m :: cs) a.

Lemma finds_path who hide h r l d cs a : below h r l d -> finds who hide h d cs a -> below h r (l ++ cs) a.
Proof.
  intros Hb Hf. revert l Hb. induction Hf as [d|d n c m cs a Hn Ht Hx Hc Ep Hh Hf IH]; intros l Hb; [by rewrite app_nil_r|].
  change (n_name m :: cs) with ([n_name m] ++ cs). rewrite app_assoc. apply IH. by eapply below_child.
Qed.

Lemma finds_weaken who h d cs a : finds who true h d cs a -> finds who false h d cs a.
Proof. induction 1; [constructor|]. by eapply finds_below. Qed.

Lemma finds_snoc who h d cs p pn c m :
  finds who false h d cs p -> h !! p = Some pn -> n_type pn = RAMFS_TYPE_DIR -> permits who pn RAMFS_FLAG_EXEC = true ->
  h !! c = Some m -> n_parent m = p -> finds who false h d (cs ++ [n_name m]) c.
Proof.
  intros Hf Hp Ht Hx Hm Ep. induction Hf as [d|d n c' m' cs a Hn Htn Hxn Hc Epc Hh Hf IH].
  - apply (finds_below who false h d pn c m [] c); try done. constructor.
  - cbn [app]. apply (finds_below who false h d n c' m' _ c); try done. by apply IH.
Qed.

(** The child of a directory with a name. *)
Lemma finds_cons who hide h r d n x cs a :
  tree h r -> h !! d = Some n -> d <> 0 ->
  finds who hide h d (x :: cs) a <->
  n_type n = RAMFS_TYPE_DIR /\ permits who n RAMFS_FLAG_EXEC = true /\
  exists c m, h !! c = Some m /\ n_parent m = d /\ n_name m = x /\ hide && hidden who h m = false /\ finds who hide h c cs a.
Proof.
  intros H Hn Hd. split.
  - intros Hf. inversion Hf; subst. assert (n0 = n) as -> by congruence. eauto 10.
  - intros (Ht & Hx & c & m & Hc & Ep & <- & Hh & Hf). by eapply finds_below.
Qed.

(** * Reading the tree *)

Section Read.
Context (s : ramfs) (H : tree (nodes s) (root s)) (Hsize : (size (nodes s) <= 64)%nat).
Implicit Types (a : Z) (n : ramfs_node).

Lemma live_nonzero a n : nodes s !! a = Some n -> a <> 0.
Proof. intros Ha ->. by rewrite (tr_null _ _ H) in Ha. Qed.

Lemma node_get_ok a n (Q : ramfs_node -> ramfs -> Prop) : nodes s !! a = Some n -> Q n s -> wp (node_get a) Q s.
Proof.
  intros Ha HQ. unfold wp, node_get. destruct (Z.eqb_spec a 0) as [->|_]; [by rewrite (tr_null _ _ H) in Ha|]. by rewrite Ha.
Qed.

Lemma permits_ok who a n access (Q : bool -> ramfs -> Prop) :
  nodes s !! a = Some n -> Q (permits who n access) s -> wp (node_permits who a access) Q s.
Proof.
  intros Ha HQ. apply wp_bind, (node_get_ok a n); [done|]. unfold permits in HQ. by destruct (ramfs_get_current_credentials who).
Qed.

Lemma hidden_ok who a n (Q : bool -> ramfs -> Prop) :
  nodes s !! a = Some n -> Q (hidden who (nodes s) n) s -> wp (hidden_from_caller who a) Q s.
Proof.
  intros Ha HQ. unfold hidden_from_caller, hidden in *. pose proof (fun k => permits_ok who (n_parent n) k RAMFS_FLAG_READ) as Hperm.
  unfold permits in *. destruct (ramfs_get_current_credentials who) as [uid gid]. apply wp_bind, (node_get_ok a n); [done|].
  destruct (Z.eqb_spec (n_parent n) 0) as [E0|E0].
  { rewrite E0, (tr_null _ _ H) in HQ. rewrite orb_true_r. by apply wp_ret. }
  rewrite orb_false_r. destruct (tree_parent _ _ a n H Ha) as [pn Hpn].
  { intros ->. destruct (tr_root _ _ H) as (k & Hk & _ & Hk0). congruence. }
  rewrite Hpn in HQ. destruct (uid =? 0); cbn [negb orb andb] in *; [by apply wp_ret|].
  destruct (n_uid n =? uid); cbn [negb orb andb] in *; [by apply wp_ret|].
  apply wp_bind, (Hperm pn); [done|]. destruct (ramfs_check_permission who pn uid gid RAMFS_FLAG_READ); by apply wp_ret.
Qed.

(** A list of siblings is no longer than the table of nodes. *)
Lemma chain_bound p l : chain (nodes s) p l -> NoDup l -> (length l <= size (nodes s))%nat.
Proof.
  intros Hc Hnd. rewrite <- size_dom. rewrite <- (size_list_to_set (C := gset Z) l) by done.
  apply subseteq_size. intros a Ha. apply elem_of_list_to_set in Ha. destruct (chain_live _ _ _ _ Hc Ha) as [n Hn].
  by apply elem_of_dom_2 in Hn.
Qed.

Definition named (x : list Z) (l : list Z) (c : Z) : Prop :=
  if decide (c = 0) then forall b m, b ∈ l -> nodes s !! b = Some m -> n_name m <> x
  else c ∈ l /\ exists m, nodes s !! c = Some m /\ n_name m = x.

Lemma named_skip x a n l c : nodes s !! a = Some n -> n_name n <> x -> named x l c -> named x (a :: l) c.
Proof.
  intros Ha Hx. unfold named. destruct (decide (c = 0)); [|by intros [? ?]; split; [right|]].
  intros Hl b m [->|Hb]%elem_of_cons Hm; [|by apply (Hl b)]. by assert (m = n) as -> by congruence.
Qed.

Context (x : list Z) (Hx : CString.chars x).

Lemma scan_children_ok stop k p l (Q : Z -> ramfs -> Prop) :
  chain (nodes s) p l -> (forall a n, a ∈ l -> nodes s !! a = Some n -> CString.chars (n_name n)) -> (length l <= k)%nat ->
  (forall c, named x l c -> Q c s) -> wp (scan_children stop k p x) Q s.
Proof.
  assert (named x [] 0) as Hnil by (unfold named; simpl; intros b m Hb; by apply not_elem_of_nil in Hb).
  revert p l Q. induction k as [|k IH]; intros p [|a l] Q Hc Hn Hl HQ; simpl in Hc, Hl; try lia.
  - subst. by apply wp_ret, HQ.
  - subst. by apply wp_ret, HQ.
  - destruct Hc as (-> & Ha0 & n & Ha & Hc). cbn [scan_children]. destruct (Z.eqb_spec a 0); [done|].
    apply wp_bind, (node_get_ok a n); [done|]. assert (CString.chars (n_name n)) as Hcn by (eapply Hn; [by left|done]).
    pose proof (CString.strcmp_eq (n_name n) x Hcn Hx) as Hs. destruct (Z.eqb_spec (CString.strcmp (n_name n) x) 0) as [E|E].
    + apply wp_ret, HQ. unfold named. destruct (decide (a = 0)); [done|]. split; [by left|]. exists n. split; [done|by apply Hs].
    + apply (IH (n_next n) l); [done| |lia|].
      * intros b m Hb. apply Hn. by right.
      * intros c Hcn'. apply HQ. eapply named_skip; [done| |done]. intros En. by apply E, Hs.
Qed.

(** The child of a directory with the name, 0 if there is none. *)
Definition child_of (d c : Z) : Prop :=
  if decide (c = 0) then forall b m, nodes s !! b = Some m -> n_parent m = d -> n_name m <> x
  else exists m, nodes s !! c = Some m /\ n_parent m = d /\ n_name m = x.

Lemma children_ok d n stop k (Q : Z -> ramfs -> Prop) :
  nodes s !! d = Some n -> (size (nodes s) <= k)%nat -> (forall c, child_of d c -> Q c s) ->
  wp (scan_children stop k (n_children n) x) Q s.
Proof.
  intros Hn Hk HQ. destruct (tr_kids _ _ H d n Hn) as (l & Hc & [Hnd Hl] & _). apply (scan_children_ok _ _ _ l).
  - done.
  - intros a m Ha Hm. apply Hl in Ha as (m' & Hm' & Ep). assert (m' = m) as -> by congruence. apply (tr_names _ _ H a m Hm).
    intros ->. destruct (tr_root _ _ H) as (rn & Hrn & _ & Hr0). assert (rn = m) as -> by congruence.
    apply (live_nonzero d n Hn). congruence.
  - pose proof (chain_bound _ _ Hc Hnd). lia.
  - intros c Hc'. apply HQ. unfold named in Hc'. unfold child_of. destruct (decide (c = 0)).
    + intros b m Hm Ep. apply (Hc' b m); [apply Hl; eauto|done].
    + destruct Hc' as (Hin & m & Hm & En). exists m. split_and!; [done| |done]. apply Hl in Hin as (m' & Hm' & Ep). congruence.
Qed.
End Read.

Section Lookup.
Context (s : ramfs) (H : tree (nodes s) (root s)) (Hsize : (size (nodes s) <= 64)%nat) (who : option task).

(** The result of a lookup: 0 exactly if nothing is found. *)
Definition looked (hide : bool) (d : Z) (cs : list (list Z)) (a : Z) : Prop :=
  if decide (a = 0) then forall b, ~ finds who hide (nodes s) d cs b else finds who hide (nodes s) d cs a.

Lemma looked_none hide d cs : (forall b, ~ finds who hide (nodes s) d cs b) -> looked hide d cs 0.
Proof. done. Qed.

Lemma lookup_from_ok hide d n cs (Q : Z -> ramfs -> Prop) :
  nodes s !! d = Some n -> Forall component cs -> (forall a, looked hide d cs a -> Q a s) ->
  wp (lookup_from who hide d cs) Q s.
Proof.
  revert d n Q. induction cs as [|x cs IH]; intros d n Q Hn Hcs HQ; cbn [lookup_from].
  { apply wp_ret, HQ. unfold looked. destruct (decide _) as [->|]; [by rewrite (tr_null _ _ H) in Hn|constructor]. }
  apply Forall_cons in Hcs as [Hx Hcs]. pose proof (live_nonzero s H d n Hn) as Hd0.
  assert (forall b, finds who hide (nodes s) d (x :: cs) b <-> _) as Hf by (intros b; by apply (finds_cons who hide (nodes s) (root s) d n)).
  assert ((forall b, ~ finds who hide (nodes s) d (x :: cs) b) -> wp (ret 0) Q s) as Hno by (intros Hn0; by apply wp_ret, HQ, looked_none).
  apply wp_bind, (node_get_ok s H d n); [done|].
  destruct (Z.eqb_spec (n_type n) RAMFS_TYPE_DIR) as [Et|Et]; cbn [negb]; [|apply Hno; intros b Hb; apply Hf in Hb; tauto].
  apply wp_bind, (permits_ok s H who d n); [done|].
  destruct (permits who n RAMFS_FLAG_EXEC) eqn:Ex; cbn [negb]; [|apply Hno; intros b Hb; apply Hf in Hb; destruct Hb as (_ & ? & _); congruence].
  apply wp_bind, (children_ok s H Hsize x (co_chars _ Hx) d n); [done|exact Hsize|]. intros c Hc. unfold child_of in Hc.
  destruct (Z.eqb_spec c 0) as [->|Hc0].
  { apply Hno. intros b Hb. apply Hf in Hb as (_ & _ & c & m & Hm & Ep & En & _). by apply (Hc c m). }
  destruct (decide (c = 0)) as [|_]; [done|]. destruct Hc as (m & Hm & Ep & En).
  assert (forall c' m', nodes s !! c' = Some m' -> n_parent m' = d -> n_name m' = x -> c' = c /\ m' = m) as Honly.
  { intros c' m' Hm' Ep' En'. assert (c' = c) as -> by (apply (tr_unique _ _ H c' c m' m); congruence). split; [done|congruence]. }
  apply wp_bind. assert (forall R : bool -> ramfs -> Prop, R (hide && hidden who (nodes s) m) s ->
    wp (if hide then hidden_from_caller who c else ret false) R s) as Hhid.
  { intros R HR. destruct hide; [by apply (hidden_ok s H who c m)|by apply wp_ret]. }
  apply Hhid. destruct (hide && _) eqn:Eh.
  { apply Hno. intros b Hb. apply Hf in Hb as (_ & _ & c' & m' & Hm' & Ep' & En' & Hh' & _). destruct (Honly c' m') as [-> ->]; [done..|congruence]. }
  apply (IH c m); [done|done|]. intros a Ha. apply HQ. unfold looked in *. destruct (decide (a = 0)).
  - intros b Hb. apply Hf in Hb as (_ & _ & c' & m' & Hm' & Ep' & En' & _ & Hb). destruct (Honly c' m') as [-> ->]; [done..|]. by apply (Ha b).
  - apply Hf. eauto 10.
Qed.

Lemma root_live : exists n, nodes s !! root s = Some n /\ n_type n = RAMFS_TYPE_DIR.
Proof. destruct (tr_root _ _ H) as (n & ? & ? & _). eauto. Qed.
Lemma root_nonzero : root s <> 0.
Proof. destruct root_live as (n & Hn & _). by apply (live_nonzero s H _ n). Qed.

(** The components a path stands for in a lookup; [None]: the path is refused. *)
Definition components (path : option (list Z)) : option (list (list Z)) :=
  match path with
  | None => None
  | Some p => if decide (p = [47]) then Some [] else split_path p 16
  end.

Definition found_at (hide : bool) (path : option (list Z)) (a : Z) : Prop :=
  match components path with Some cs => looked hide (root s) cs a | None => a = 0 end.

Lemma lookup_ok hide path (Q : Z -> ramfs -> Prop) :
  (forall p, path = Some p -> CString.chars p) -> (forall a, found_at hide path a -> Q a s) ->
  wp (ramfs_lookup_locked who path hide) Q s.
Proof.
  intros Hp HQ. unfold ramfs_lookup_locked. apply wp_bind, wp_gets. unfold found_at, components in HQ.
  destruct path as [p|]; [|by apply wp_ret, HQ]. specialize (Hp p eq_refl). destruct root_live as (n & Hn & _).
  destruct (Z.eqb_spec (root s) 0); [by destruct root_nonzero|]. case_bool_decide as E.
  - destruct (decide (p = [47])); [|done]. apply wp_ret, HQ. unfold looked. destruct (decide _); [done|constructor].
  - destruct (decide (p = [47])); [done|]. destruct (split_path p 16) as [cs|] eqn:Es; [|by apply wp_ret, HQ].
    apply (lookup_from_ok hide _ n); [done|by eapply split_path_ok|done].
Qed.

(** The directory behind all components but the last, searchable. *)
Definition leads (d : Z) (cs : list (list Z)) (p : Z) : Prop := exists init x pn,
  cs = init ++ [x] /\ finds who true (nodes s) d init p /\ nodes s !! p = Some pn /\
  n_type pn = RAMFS_TYPE_DIR /\ permits who pn RAMFS_FLAG_EXEC = true.
Definition walked (d : Z) (cs : list (list Z)) (w : walk) : Prop :=
  match w with WALK_OK p => leads d cs p | _ => forall p, ~ leads d cs p end.

(** One step of the way. *)
Lemma leads_cons d n x y cs p : nodes s !! d = Some n -> n_type n = RAMFS_TYPE_DIR ->
  leads d (x :: y :: cs) p <-> permits who n RAMFS_FLAG_EXEC = true /\
    exists c m, nodes s !! c = Some m /\ n_parent m = d /\ n_name m = x /\ hidden who (nodes s) m = false /\ leads c (y :: cs) p.
Proof.
  intros Hn Ht. pose proof (live_nonzero s H d n Hn) as Hd0. split.
  - intros ([|x' init] & z & pn & E & Hf & Hp); [done|]. injection E as <- E.
    apply (finds_cons who true (nodes s) (root s) d n) in Hf as (_ & Hx & c & m & Hm & Ep & En & Hh & Hf); [|done..].
    split; [done|]. exists c, m. split_and!; try done. by exists init, z, pn.
  - intros (Hx & c & m & Hm & Ep & En & Hh & init & z & pn & E & Hf & Hp). exists (x :: init), z, pn. split; [by rewrite E|]. split; [|done].
    apply (finds_cons who true (nodes s) (root s) d n); [done..|]. split; [done|]. split; [done|]. exists c, m. by split_and!.
Qed.

Lemma leads_one d n x p : nodes s !! d = Some n -> n_type n = RAMFS_TYPE_DIR ->
  leads d [x] p <-> permits who n RAMFS_FLAG_EXEC = true /\ p = d.
Proof.
  intros Hn Ht. split.
  - intros ([|x' init] & z & pn & E & Hf & Hp & _ & Hx); [|by destruct init]. inversion Hf; subst. split; [congruence|done].
  - intros [Hx ->]. exists [], x, n. split_and!; try done. constructor.
Qed.

Lemma leads_dir d n cs p : nodes s !! d = Some n -> leads d cs p -> cs <> [] /\ n_type n = RAMFS_TYPE_DIR.
Proof.
  intros Hn (init & x & pn & -> & Hf & Hp & Ht & _). split; [by destruct init|]. inversion Hf; subst; congruence.
Qed.

Lemma walk_from_ok d n cs (Q : walk -> ramfs -> Prop) :
  nodes s !! d = Some n -> n_type n = RAMFS_TYPE_DIR -> Forall component cs -> cs <> [] ->
  (forall w, walked d cs w -> Q w s) -> wp (walk_from who d cs) Q s.
Proof.
  revert d n Q. induction cs as [|x cs IH]; intros d n Q Hn Ht Hcs Hne HQ; [done|]. apply Forall_cons in Hcs as [Hx Hcs].
  cbn [walk_from]. apply wp_bind, (permits_ok s H who d n); [done|]. destruct cs as [|y cs].
  { destruct (permits who n RAMFS_FLAG_EXEC) eqn:Ex; cbn [negb]; apply wp_ret, HQ; [by apply (leads_one d n)|].
    intros p Hl. apply (leads_one d n) in Hl as [? _]; [congruence|done..]. }
  assert (forall p, leads d (x :: y :: cs) p <-> _) as Hl by (intros p; by apply (leads_cons d n)).
  destruct (permits who n RAMFS_FLAG_EXEC) eqn:Ex; cbn [negb]; [|apply wp_ret, HQ; intros p Hp; apply Hl in Hp as [? _]; congruence].
  apply wp_bind, (node_get_ok s H d n); [done|]. unfold find_child_unbounded. apply wp_bind, wp_bind, wp_gets.
  apply (children_ok s H Hsize x (co_chars _ Hx) d n); [done|lia|]. intros c Hc. unfold child_of in Hc.
  destruct (Z.eqb_spec c 0) as [->|Hc0].
  { apply wp_bind, wp_ret, wp_ret, HQ. intros p Hp. apply Hl in Hp as (_ & c & m & Hm & Ep & En & _). by apply (Hc c m). }
  destruct (decide (c = 0)); [done|]. destruct Hc as (m & Hm & Ep & En). pose proof (live_nonzero s H d n Hn) as Hd0.
  assert (forall p, leads d (x :: y :: cs) p -> hidden who (nodes s) m = false /\ leads c (y :: cs) p) as Honly.
  { intros p Hp. apply Hl in Hp as (_ & c' & m' & Hm' & Ep' & En' & Hh & Hp).
    assert (c' = c) as -> by (apply (tr_unique _ _ H c' c m' m); congruence). assert (m' = m) as -> by congruence. done. }
  apply wp_bind, (hidden_ok s H who c m); [done|]. destruct (hidden who (nodes s) m) eqn:Eh.
  { apply wp_ret, HQ. intros p Hp. by apply Honly in Hp as [? _]. }
  apply wp_bind, (node_get_ok s H c m); [done|]. destruct (Z.eqb_spec (n_type m) RAMFS_TYPE_DIR) as [Etm|Etm]; cbn [negb].
  - apply (IH c m); [done..|]. intros w Hw. apply HQ. destruct w as [p| | |]; try (intros p Hp; apply Honly in Hp as [_ Hp]; by apply (Hw p)).
    apply Hl. split; [done|]. by exists c, m.
  - apply wp_ret, HQ. intros p Hp. apply Honly in Hp as [_ Hp]. by apply (leads_dir c m) in Hp as [_ ?].
Qed.

Lemma walk_to_parent_ok cs (Q : walk -> ramfs -> Prop) :
  Forall component cs -> cs <> [] -> (forall w, walked (root s) cs w -> Q w s) -> wp (walk_to_parent who cs) Q s.
Proof.
  intros Hcs Hne HQ. apply wp_bind, wp_gets. destruct root_live as (n & Hn & Ht). by apply (walk_from_ok _ n).
Qed.

(** Behind a walk, a lookup that does not hide names tells whether the last name
    is taken. *)
Lemma walked_free cs p init x pn :
  cs = init ++ [x] -> finds who true (nodes s) (root s) init p -> nodes s !! p = Some pn -> n_type pn = RAMFS_TYPE_DIR ->
  permits who pn RAMFS_FLAG_EXEC = true -> looked false (root s) cs 0 ->
  forall c m, nodes s !! c = Some m -> n_parent m = p -> n_name m <> x.
Proof.
  intros -> Hf Hp Ht Hx Hno c m Hm Ep En. unfold looked in Hno. destruct (decide (0 = 0)) as [_|]; [|done]. apply (Hno c).
  rewrite <- En. eapply finds_snoc; [by apply finds_weaken|done..].
Qed.
End Lookup.

End RamfsOps.
