(* ===== verification/RamfsFs.v ===== *)
(** The file system as a whole: its invariant, and how creating, removing,
    renaming and the operations on open files keep it. *)
From Stdlib Require Import ZArith Lia List Bool.
From stdpp Require Import base tactics numbers list gmap.
From S2P Require Import Prelude Pmm CString Ramfs RamfsInv RamfsOps.
Open Scope Z_scope.

Module RamfsFs.
Import Ramfs RamfsInv RamfsOps.

(** * Frames *)

(** The address of an allocated frame. *)
Definition frame_at (m : Pmm.pmm) (a : Z) : Prop :=
  exists i, Pmm.FLOOR <= i < Pmm.PMM_MAX_FRAMES /\ a = i * Pmm.PMM_PAGE_SIZE /\ Pmm.used m i = true.

(** No frame is left. *)
Definition full (m : Pmm.pmm) : Prop := forall i, Pmm.FLOOR <= i < Pmm.PMM_MAX_FRAMES -> Pmm.used m i = true.

Lemma frame_range m a : frame_at m a -> 0 < a < 2 ^ 32.
Proof. intros (i & Hi & -> & _). Pmm.pmm_consts. lia. Qed.

Lemma frame_mono m m' a :
  (forall i, Pmm.is_frame i -> Pmm.used m i = true -> Pmm.used m' i = true) -> frame_at m a -> frame_at m' a.
Proof. intros H (i & Hi & E & Hu). exists i. split; [done|]. split; [done|]. apply H; [|done]. Pmm.pmm_consts. lia. Qed.

Lemma pmm_free_ok m a (Q : unit -> Pmm.pmm -> Prop) :
  Pmm.pmm_inv m -> frame_at m a ->
  (forall m', Pmm.pmm_inv m' -> (forall b, b <> a -> frame_at m b -> frame_at m' b) -> Q tt m') -> wp (Pmm.pmm_free a) Q m.
Proof.
  intros Hm Ha HQ. pose proof (frame_range m a Ha). eapply wp_mono; [apply (Pmm.pmm_free_wp m a); [done|lia]|].
  destruct Ha as (i & Hi & -> & Hu). intros [] m' Hm'.
  assert (i * Pmm.PMM_PAGE_SIZE / Pmm.PMM_PAGE_SIZE = i) as Ei by by apply Z.div_mul.
  assert (Pmm.freeable m (i * Pmm.PMM_PAGE_SIZE) = true) as Ef.
  { unfold Pmm.freeable. rewrite Ei, Z.mod_mul by done. rewrite Hu. Pmm.pmm_consts. lia. }
  rewrite Ef, Ei in Hm'. destruct Hm' as (Hinv & [_ Hout] & _). apply HQ; [done|]. intros b Hb (j & Hj & -> & Hv).
  exists j. split; [done|]. split; [done|]. rewrite Hout; [done|Pmm.pmm_consts; lia|congruence].
Qed.

(** * The invariant *)

Record mem_inv (s : ramfs) : Prop := mk_mem_inv {
  mi_pmm : Pmm.pmm_inv (frames s);
  mi_nodes : forall a n, nodes s !! a = Some n -> frame_at (frames s) a;
  mi_pages : forall a p, pages s !! a = Some p -> frame_at (frames s) a;
  mi_apart : forall a n, nodes s !! a = Some n -> pages s !! a = None }.

(** Page [k] of a node. *)
Definition page_at (n : ramfs_node) (k : nat) (p : Z) : Prop := n_data_pages n !! k = Some p /\ p <> 0.
(** The pages up to an offset are there. *)
Definition backed (n : ramfs_node) (off : Z) : Prop := forall k, Z.of_nat k * RAMFS_PAGE_SIZE < off -> exists p, page_at n k p.

(** The byte of a file at an offset, 0 where there is no page. *)
Definition cell (s : ramfs) (n : ramfs_node) (off : Z) : Z :=
  match n_data_pages n !! Z.to_nat (off / RAMFS_PAGE_SIZE) with
  | Some p => match pages s !! p with Some bs => default 0 (bs !! Z.to_nat (off mod RAMFS_PAGE_SIZE)) | None => 0 end
  | None => 0
  end.
(** The contents of a file. *)
Definition content (s : ramfs) (n : ramfs_node) : list Z := map (cell s n) (seqZ 0 (n_size n)).

Record data_inv (s : ramfs) : Prop := mk_data_inv {
  di_shape : forall a n, nodes s !! a = Some n -> length (n_data_pages n) = 16%nat /\ 0 <= n_size n <= RAMFS_MAX_DATA;
  di_live : forall a n k p, nodes s !! a = Some n -> page_at n k p -> exists bs, pages s !! p = Some bs /\ length bs = 4096%nat;
  di_owner : forall a b n m j k p, nodes s !! a = Some n -> nodes s !! b = Some m -> page_at n j p -> page_at m k p -> a = b /\ j = k;
  di_used : forall p bs, pages s !! p = Some bs -> exists a n k, nodes s !! a = Some n /\ page_at n k p;
  di_backed : forall a n, nodes s !! a = Some n -> backed n (n_size n) }.

(** Behind its size a file holds zeros. *)
Definition zero_inv (s : ramfs) : Prop := forall a n off, nodes s !! a = Some n -> n_size n <= off -> cell s n off = 0.

Record fds_inv (s : ramfs) : Prop := mk_fds_inv {
  fd_length : length (file_descriptors s) = 16%nat;
  fd_live : forall i f, file_descriptors s !! i = Some f -> f_in_use f = true ->
    exists n, nodes s !! f_node f = Some n /\ n_type n = RAMFS_TYPE_FILE /\ 0 <= f_pos f <= RAMFS_MAX_DATA /\ backed n (f_pos f) /\
      1 <= f_refs f <= 255 }.

Record fs_inv (s : ramfs) : Prop := mk_fs_inv {
  fi_tree : tree (nodes s) (root s);
  fi_total : total_nodes s = Z.of_nat (size (nodes s)) /\ (size (nodes s) <= 64)%nat;
  fi_data : data_inv s; fi_zero : zero_inv s; fi_fds : fds_inv s; fi_mem : mem_inv s }.

(** Everything but the frames. *)
Definition same_files (s s' : ramfs) : Prop :=
  root s' = root s /\ file_descriptors s' = file_descriptors s /\ nodes s' = nodes s /\ pages s' = pages s /\ total_nodes s' = total_nodes s.

Lemma cell_pages s s' n off : pages s' = pages s -> cell s' n off = cell s n off.
Proof. intros E. unfold cell. by rewrite E. Qed.

Lemma data_pages_inv s s' : nodes s' = nodes s -> pages s' = pages s -> data_inv s -> data_inv s'.
Proof. intros E1 E2 []. constructor; intros *; rewrite ?E1, ?E2; eauto. Qed.

Lemma same_files_inv s s' : same_files s s' -> mem_inv s' -> fs_inv s -> fs_inv s'.
Proof.
  intros (Er & Ef & En & Ep & Et) Hm []. constructor; [by rewrite En, Er|by rewrite En, Et|by eapply data_pages_inv| | |done].
  - intros a n off Hn. rewrite (cell_pages s s') by done. rewrite En in Hn. eauto.
  - destruct fi_fds0. constructor; rewrite ?Ef, ?En; done.
Qed.

(** Reading and writing through a pointer. *)
Lemma node_get_at s a n (Q : ramfs_node -> ramfs -> Prop) : a <> 0 -> nodes s !! a = Some n -> Q n s -> wp (node_get a) Q s.
Proof. intros H0 Hn HQ. unfold wp, node_get. destruct (Z.eqb_spec a 0); [done|]. by rewrite Hn. Qed.
Lemma node_upd_at s a n f (Q : unit -> ramfs -> Prop) :
  a <> 0 -> nodes s !! a = Some n -> Q tt (put_nodes (<[a := f n]> (nodes s)) s) -> wp (node_upd a f) Q s.
Proof. intros H0 Hn HQ. by apply wp_bind, (node_get_at s a n), wp_modify. Qed.

(** A directory has fewer children than there are nodes. *)
Lemma child_count_range s a n : fs_inv s -> nodes s !! a = Some n -> 0 <= n_child_count n <= 64.
Proof.
  intros H Hn. destruct (fi_total _ H) as [_ Hs]. destruct (tr_kids _ _ (fi_tree _ H) a n Hn) as (l & Hc & [Hnd _] & <- & _).
  pose proof (chain_bound s _ _ Hc Hnd). lia.
Qed.

(** * Creating *)

Definition new_node (x : list Z) (type uid gid parent next : Z) : ramfs_node :=
  mk_node x type 0 (if type =? RAMFS_TYPE_DIR then RAMFS_DEFAULT_DIR_MODE else RAMFS_DEFAULT_FILE_MODE) uid gid 0
    (replicate 16 0) parent 0 next.

Lemma new_node_page x type uid gid parent next k p : ~ page_at (new_node x type uid gid parent next) k p.
Proof. intros [Hk Hp]. by apply lookup_replicate in Hk as [-> _]. Qed.

(** [s'] is [s] with a new node [a] in a directory. *)
Record created (s s' : ramfs) (parent a : Z) (pn n : ramfs_node) : Prop := mk_created {
  cr_parent : nodes s !! parent = Some pn; cr_fresh : nodes s !! a = None; cr_nonzero : a <> 0;
  cr_nodes : nodes s' = added (nodes s) parent a pn n;
  cr_pages : pages s' = pages s; cr_fds : file_descriptors s' = file_descriptors s; cr_root : root s' = root s }.

(** What the pages see of the nodes. *)
Lemma added_data h p a pn n b m : h !! p = Some pn -> h !! a = None ->
  added h p a pn n !! b = Some m -> b = a /\ m = n \/ exists m0, h !! b = Some m0 /\ b <> a /\
    n_data_pages m = n_data_pages m0 /\ n_size m = n_size m0 /\ n_type m = n_type m0.
Proof.
  intros Hp Ha. unfold added. destruct (decide (b = p)) as [->|Hb].
  - rewrite lookup_insert_eq. intros [= <-]. right. exists pn. split_and!; try done. congruence.
  - rewrite lookup_insert_ne by done. destruct (decide (b = a)) as [->|Hb'].
    + rewrite lookup_insert_eq. intros [= <-]. by left.
    + rewrite lookup_insert_ne by done. intros Hm. right. by exists m.
Qed.

Lemma created_data s s' parent a pn x type uid gid next :
  created s s' parent a pn (new_node x type uid gid parent next) -> data_inv s -> data_inv s'.
Proof.
  intros [Hp Ha H0 En Eg _ _] []. set (n := new_node _ _ _ _ _ _) in *.
  assert (forall b m, nodes s' !! b = Some m -> b = a /\ m = n \/ exists m0, nodes s !! b = Some m0 /\ b <> a /\
    n_data_pages m = n_data_pages m0 /\ n_size m = n_size m0 /\ n_type m = n_type m0) as Hd.
  { intros b m Hm. rewrite En in Hm. by eapply added_data. }
  assert (forall b m k q, nodes s' !! b = Some m -> page_at m k q -> exists m0, nodes s !! b = Some m0 /\ page_at m0 k q) as Hpg.
  { intros b m k q Hm [Hk Hq]. destruct (Hd b m Hm) as [[-> ->]|(m0 & Hm0 & _ & Ed & _)].
    - exfalso. by eapply (new_node_page x type uid gid parent next k q).
    - exists m0. split; [done|]. split; [congruence|done]. }
  constructor.
  - intros b m Hm. destruct (Hd b m Hm) as [[-> ->]|(m0 & Hm0 & _ & -> & -> & _)]; [by split|eauto].
  - intros b m k q Hm Hq. destruct (Hpg b m k q Hm Hq) as (m0 & Hm0 & Hq0). rewrite Eg. eauto.
  - intros b c m1 m2 j k q Hm1 Hm2 Hq1 Hq2. destruct (Hpg b m1 j q Hm1 Hq1) as (k1 & Hk1 & Hq1').
    destruct (Hpg c m2 k q Hm2 Hq2) as (k2 & Hk2 & Hq2'). eauto.
  - intros q bs Hq. rewrite Eg in Hq. destruct (di_used0 q bs Hq) as (b & m & k & Hm & Hk & Hk0).
    assert (exists m', nodes s' !! b = Some m' /\ n_data_pages m' = n_data_pages m) as (m' & Hm' & Ed).
    { rewrite En. unfold added. destruct (decide (b = parent)) as [->|Hb]; [rewrite lookup_insert_eq; eexists; split; [done|]; simpl; congruence|].
      rewrite lookup_insert_ne by done. rewrite lookup_insert_ne by congruence. by exists m. }
    exists b, m', k. split; [done|]. split; [congruence|done].
  - intros b m Hm k Hk. destruct (Hd b m Hm) as [[-> ->]|(m0 & Hm0 & _ & Ed & Es & _)]; [unfold RAMFS_PAGE_SIZE in Hk; simpl in Hk; lia|].
    destruct (di_backed0 b m0 Hm0 k) as (q & Hq & Hq0); [congruence|]. exists q. split; [congruence|done].
Qed.

Lemma no_page s : data_inv s -> pages s !! 0 = None.
Proof. intros []. destruct (pages s !! 0) as [bs|] eqn:E0; [|done]. by destruct (di_used0 0 bs E0) as (? & ? & ? & _ & _ & ?). Qed.

Lemma new_node_cell s x type uid gid parent next off : data_inv s -> cell s (new_node x type uid gid parent next) off = 0.
Proof.
  intros H. unfold cell. destruct (n_data_pages _ !! _) as [q|] eqn:E; [|done]. apply lookup_replicate in E as [-> _]. by rewrite no_page.
Qed.

Lemma cell_kept s s' m m' off : n_data_pages m' = n_data_pages m -> pages s' = pages s -> cell s' m' off = cell s m off.
Proof. intros E1 E2. unfold cell. by rewrite E1, E2. Qed.

Lemma created_zero s s' parent a pn x type uid gid next :
  created s s' parent a pn (new_node x type uid gid parent next) -> data_inv s -> zero_inv s -> zero_inv s'.
Proof.
  intros [Hp Ha H0 En Eg _ _] Hd Hz b m off Hm Hs. rewrite En in Hm.
  destruct (added_data _ _ _ _ _ _ _ Hp Ha Hm) as [[-> ->]|(m0 & Hm0 & _ & Ed & Es & _)].
  - rewrite (cell_pages s s') by done. by apply new_node_cell.
  - rewrite (cell_kept s s' m0) by done. apply (Hz b m0); [done|congruence].
Qed.

Lemma created_fds s s' parent a pn n : created s s' parent a pn n -> fds_inv s -> fds_inv s'.
Proof.
  intros [Hp Ha H0 En Eg Ef _] []. constructor; rewrite Ef; [done|]. intros i f Hf Hu.
  destruct (fd_live0 i f Hf Hu) as (m & Hm & Ht & Hpos & Hb & Hr). rewrite En. unfold added.
  destruct (decide (f_node f = parent)) as [E|Hne].
  - rewrite E in *. rewrite lookup_insert_eq. assert (m = pn) as -> by congruence. eexists. split; [done|]. done.
  - rewrite lookup_insert_ne by done. rewrite lookup_insert_ne by congruence. eauto 10.
Qed.

(** * Removing *)

Lemma kid_ne h r c m : tree h r -> h !! c = Some m -> n_parent m <> c.
Proof.
  intros H Hm E. destruct (tr_reach _ _ H c m Hm) as (l & Hb). pose proof (below_child _ _ _ _ _ _ Hb Hm E) as Hb'.
  pose proof (below_path _ _ _ _ _ H Hb Hb') as El. apply (f_equal length) in El. rewrite length_app in El. simpl in El. lia.
Qed.

(** [a] is linked around, at the head of the list or behind [b]. *)
Inductive unlinked (h : heap) (p a : Z) (pn n : ramfs_node) : heap -> Prop :=
| unlinked_head l2 : chain h (n_children pn) (a :: l2) -> unlinked h p a pn n (<[p := put_children (n_next n) pn]> h)
| unlinked_next l1 b m l2 : chain h (n_children pn) (l1 ++ b :: a :: l2) -> h !! b = Some m ->
    unlinked h p a pn n (<[b := put_next (n_next n) m]> h).

Lemma unlink_after_ok s k q l1 b a l2 n (Q : bool -> ramfs -> Prop) :
  chain (nodes s) q (l1 ++ b :: a :: l2) -> NoDup (l1 ++ b :: a :: l2) -> nodes s !! a = Some n -> (length l1 <= k)%nat ->
  (forall m, nodes s !! b = Some m -> Q true (put_nodes (<[b := put_next (n_next n) m]> (nodes s)) s)) ->
  wp (unlink_after k q a) Q s.
Proof.
  intros Hc Hnd Ha Hk HQ. assert (forall k q, chain (nodes s) q (b :: a :: l2) -> wp (unlink_after k q a) Q s) as Hhere.
  { intros k0 q0 (-> & H0 & m & Hm & En & Ha0 & _). destruct k0; cbn [unlink_after]; (destruct (Z.eqb_spec b 0); [done|]);
      apply wp_bind, (node_get_at s b m); [done|done|rewrite En, Z.eqb_refl|done|done|rewrite En, Z.eqb_refl];
      apply wp_bind, (node_get_at s a n); [done|done| |done|done|]; (apply wp_bind, (node_upd_at s b m); [done..|]); by apply wp_ret, HQ. }
  revert k q l1 Hc Hnd Hk. induction k as [|k IH]; intros q [|y l1] Hc Hnd Hk; simpl in Hk; try lia; try (by apply Hhere).
  - simpl in Hc. destruct Hc as (-> & H0 & m & Hm & Hc). apply NoDup_cons in Hnd as [Hy Hnd]. cbn [unlink_after].
    destruct (Z.eqb_spec y 0); [done|]. apply wp_bind, (node_get_at s y m); [done..|]. destruct (Z.eqb_spec (n_next m) a) as [En|En].
    + exfalso. destruct l1 as [|z l1]; simpl in Hc, Hnd; destruct Hc as (Ez & _); apply NoDup_cons in Hnd as [Hz _]; apply Hz.
      * assert (b = a) as -> by congruence. by left.
      * assert (z = a) as -> by congruence. apply elem_of_app. right. right. by left.
    + apply (IH _ l1); [done|done|simpl in Hk; lia].
Qed.

Lemma unlink_child_ok s p a pn n (Q : bool -> ramfs -> Prop) :
  fs_inv s -> nodes s !! a = Some n -> n_parent n = p -> nodes s !! p = Some pn ->
  (forall h, unlinked (nodes s) p a pn n h -> Q true (put_nodes h s)) -> wp (unlink_child p a) Q s.
Proof.
  intros H Ha Ep Hp HQ. pose proof (fi_tree _ H) as Ht. destruct (fi_total _ H) as [_ Hsz].
  destruct (tr_kids _ _ Ht p pn Hp) as (l & Hc & [Hnd Hk] & _). assert (a ∈ l) as Hin by (apply Hk; eauto).
  unfold unlink_child. apply wp_bind, (node_get_ok s Ht p pn); [done|].
  apply list_elem_of_split in Hin as (l1 & l2 & ->). destruct l1 as [|y l1].
  - assert (n_children pn = a) as Ec by by destruct Hc. rewrite Ec, Z.eqb_refl. apply wp_bind, (node_get_ok s Ht a n); [done|].
    apply wp_bind, (node_upd_at s p pn); [by eapply live_nonzero|done|]. apply wp_ret, HQ. by eapply unlinked_head.
  - assert (n_children pn = y) as Ec by by destruct Hc. destruct (Z.eqb_spec (n_children pn) a) as [Ea|_].
    { exfalso. apply NoDup_cons in Hnd as [Hy _]. apply Hy, elem_of_app. right. rewrite <- Ec, Ea. by left. }
    destruct (exists_last (l := y :: l1)) as (l0 & b & E0); [done|]. rewrite E0, <- app_assoc in Hc, Hnd. cbn [app] in Hc, Hnd.
    apply (unlink_after_ok s _ _ l0 b a l2 n); [done|done|done| |].
    + pose proof (chain_bound s _ _ Hc Hnd) as Hb. rewrite length_app in Hb. change (Z.to_nat RAMFS_MAX_FILES) with 64%nat. lia.
    + intros m Hm. apply HQ. by eapply unlinked_next.
Qed.

(** Only the links of a node change. *)
Definition kept (m m' : ramfs_node) : Prop :=
  same_place m m' /\ n_size m' = n_size m /\ n_mode m' = n_mode m /\ n_uid m' = n_uid m /\ n_gid m' = n_gid m /\
  n_data_pages m' = n_data_pages m.

Record removed (h h' : heap) (r a : Z) : Prop := mk_removed {
  rm_tree : tree h' r; rm_gone : h' !! a = None;
  rm_below : forall l b, below h' r l b <-> below h r l b /\ b <> a;
  rm_old : forall c m, c <> a -> h !! c = Some m -> exists m', h' !! c = Some m' /\ kept m m';
  rm_inv : forall c m', h' !! c = Some m' -> exists m, h !! c = Some m /\ kept m m' }.

Lemma node_kept_refl m : kept m m.
Proof. by repeat split. Qed.
Lemma node_kept_trans m1 m2 m3 : kept m1 m2 -> kept m2 m3 -> kept m1 m3.
Proof. unfold kept, same_place. intros [(? & ? & ?) ?] [(? & ? & ?) ?]. split_and!; intuition congruence. Qed.

Section Unlinked.
Context (h h1 : heap) (r p a : Z) (pn n : ramfs_node) (H : tree h r).
Context (Ha : h !! a = Some n) (Ep : n_parent n = p) (Hp : h !! p = Some pn) (Hu : unlinked h p a pn n h1).

(** The other lists stay. *)
Lemma unlinked_others d q l : d <> p -> kids h d l -> chain h q l -> chain h1 q l.
Proof.
  intros Hd [_ Hk] Hc. eapply siblings_ext; [|exact Hc]. intros b m Hb Hm. destruct Hu as [l2 _|l1 b0 m0 l2 Hc0 Hb0].
  - destruct (decide (b = p)) as [->|Hbp]; [rewrite lookup_insert_eq|rewrite lookup_insert_ne by done; by exists m].
    assert (m = pn) as -> by congruence. by eexists.
  - rewrite lookup_insert_ne; [by exists m|]. intros <-. apply Hk in Hb as (m1 & Hm1 & E1).
    destruct (tr_kids _ _ H p pn Hp) as (lp & Hcp & [_ Hkp] & _). assert (lp = l1 ++ b0 :: a :: l2) as -> by by eapply chain_unique.
    destruct (proj1 (Hkp b0)) as (m2 & Hm2 & E2); [apply elem_of_app; right; by left|]. congruence.
Qed.

(** The list of the parent loses [a]. *)
Lemma unlinked_mine : exists pn1 l1 l2, h1 !! p = Some pn1 /\ n_child_count pn1 = n_child_count pn /\
  chain h (n_children pn) (l1 ++ a :: l2) /\ chain h1 (n_children pn1) (l1 ++ l2).
Proof.
  destruct (tr_kids _ _ H p pn Hp) as (lp & Hcp & [Hnd Hkp] & _). destruct Hu as [l2 Hc|l1 b m l2 Hc Hb].
  - eexists _, [], l2. rewrite lookup_insert_eq. split; [done|]. split; [done|]. split; [done|]. destruct Hc as (_ & _ & n' & Hn' & Hc).
    assert (n' = n) as -> by congruence. simpl. eapply siblings_ext; [|exact Hc]. intros c m _ Hm.
    destruct (decide (c = p)) as [->|Hcp']; [rewrite lookup_insert_eq|rewrite lookup_insert_ne by done; by exists m].
    assert (m = pn) as -> by congruence. by eexists.
  - assert (lp = l1 ++ b :: a :: l2) as -> by by eapply chain_unique. destruct (proj1 (Hkp b)) as (m' & Hm' & Eb); [apply elem_of_app; right; by left|].
    assert (b <> p) as Hbp by (intros ->; by apply (kid_ne h r p m' H)). eexists pn, (l1 ++ [b]), l2.
    rewrite lookup_insert_ne by done. rewrite <- !app_assoc. split_and!; [done..|]. by eapply chain_remove.
Qed.

Lemma unlinked_old c m : h !! c = Some m -> exists m', h1 !! c = Some m' /\ kept m m' /\
  (c <> p -> n_children m' = n_children m /\ n_child_count m' = n_child_count m).
Proof.
  intros Hm. destruct Hu as [l2 _|l1 b m0 l2 _ Hb].
  - destruct (decide (c = p)) as [->|Hcp]; [rewrite lookup_insert_eq|rewrite lookup_insert_ne by done].
    + assert (m = pn) as -> by congruence. eexists. split; [done|]. by repeat split.
    + exists m. split; [done|]. by repeat split.
  - destruct (decide (c = b)) as [->|Hcb]; [rewrite lookup_insert_eq|rewrite lookup_insert_ne by done].
    + assert (m0 = m) as -> by congruence. eexists. split; [done|]. by repeat split.
    + exists m. split; [done|]. by repeat split.
Qed.

Lemma unlinked_inv c m' : h1 !! c = Some m' -> exists m, h !! c = Some m.
Proof.
  destruct Hu as [l2 _|l1 b m0 l2 _ Hb].
  - destruct (decide (c = p)) as [->|]; [by exists pn|]. rewrite lookup_insert_ne by done. by exists m'.
  - destruct (decide (c = b)) as [->|]; [by exists m0|]. rewrite lookup_insert_ne by done. by exists m'.
Qed.

Context (pn1 : ramfs_node) (Har : a <> r) (Hch : n_children n = 0) (Hp1 : h1 !! p = Some pn1).
Definition taken_out : heap := delete a (<[p := put_child_count (n_child_count pn - 1) pn1]> h1).

Lemma taken_chain q l : chain h1 q l -> a ∉ l -> chain taken_out q l.
Proof.
  intros Hc Hal. eapply siblings_ext; [|exact Hc]. intros b m Hb Hm. unfold taken_out. rewrite lookup_delete_ne by (by intros ->).
  destruct (decide (b = p)) as [->|Hbp]; [rewrite lookup_insert_eq|rewrite lookup_insert_ne by done; by exists m].
  assert (m = pn1) as -> by congruence. by eexists.
Qed.

Lemma taken_old c m : c <> a -> h !! c = Some m -> exists m', taken_out !! c = Some m' /\ kept m m' /\
  (c <> p -> n_children m' = n_children m /\ n_child_count m' = n_child_count m).
Proof.
  intros Hc Hm. destruct (unlinked_old c m Hm) as (m1 & Hm1 & Hk & Hf). unfold taken_out. rewrite lookup_delete_ne by done.
  destruct (decide (c = p)) as [->|Hcp]; [rewrite lookup_insert_eq|rewrite lookup_insert_ne by done; by exists m1].
  assert (m1 = pn1) as -> by congruence. eexists. split; [done|]. split; [|done]. eapply node_kept_trans; [exact Hk|]. by repeat split.
Qed.

Lemma taken_inv c m' : taken_out !! c = Some m' -> exists m, h !! c = Some m.
Proof.
  unfold taken_out. rewrite lookup_delete_Some. intros [_ Hm]. destruct (decide (c = p)) as [->|Hcp]; [by exists pn|].
  rewrite lookup_insert_ne in Hm by done. by eapply unlinked_inv.
Qed.

Lemma unlinked_removed : removed h taken_out r a.
Proof.
  assert (taken_out !! a = None) as Hgone by apply lookup_delete_eq. pose proof (kid_ne h r a n H Ha) as Hpa. rewrite Ep in Hpa.
  assert (forall c m, c <> a -> h !! c = Some m -> exists m', taken_out !! c = Some m' /\ same_place m m' /\
    (c <> p -> n_children m' = n_children m /\ n_child_count m' = n_child_count m)) as Hold.
  { intros c m Hc Hm. destruct (taken_old c m Hc Hm) as (m' & ? & [? _] & ?). eauto. }
  assert (exists pn' l1 l2, taken_out !! p = Some pn' /\ chain h (n_children pn) (l1 ++ a :: l2) /\
    chain taken_out (n_children pn') (l1 ++ l2) /\ n_child_count pn' = n_child_count pn - 1) as Hmine.
  { destruct unlinked_mine as (k & l1 & l2 & Hk & Ecc & Hc & Hc1). assert (k = pn1) as -> by congruence. eexists _, l1, l2.
    unfold taken_out at 1. rewrite lookup_delete_ne, lookup_insert_eq by done. split; [done|]. split; [done|]. split; [|done].
    simpl. apply taken_chain; [done|]. destruct (tr_kids _ _ H p pn Hp) as (lp & Hcp & [Hnd _] & _).
    assert (lp = l1 ++ a :: l2) as -> by by eapply chain_unique. apply NoDup_app in Hnd as (_ & Hd & Hnd).
    apply NoDup_cons in Hnd as [Hn2 _]. rewrite elem_of_app. intros [Hin|Hin]; [|done]. apply (Hd a Hin). by left. }
  assert (forall d q l, d <> p -> kids h d l -> chain h q l -> chain taken_out q l) as Hothers.
  { intros d q l Hd Hk Hc. apply taken_chain; [by eapply unlinked_others|]. destruct Hk as [_ Hk]. intros (m & Hm & E)%Hk. congruence. }
  pose proof taken_inv as Hinv. constructor.
  - by eapply (tree_removed h taken_out r p a pn n).
  - done.
  - intros l b. by eapply (removed_below h taken_out r p a n).
  - intros c m Hc Hm. destruct (taken_old c m Hc Hm) as (m' & ? & ? & _). eauto.
  - intros c m' Hm'. destruct (Hinv c m' Hm') as (m & Hm). exists m. split; [done|]. destruct (taken_old c m) as (m2 & Hm2 & Hk & _); [congruence|done|].
    assert (m2 = m') as -> by congruence. done.
Qed.
End Unlinked.

(** The pages given back, and their frames with them. *)
Lemma free_pages_ok l s (Q : unit -> ramfs -> Prop) :
  mem_inv s -> (forall i j p, l !! i = Some p -> l !! j = Some p -> p <> 0 -> i = j) ->
  (forall p, p ∈ l -> p <> 0 -> exists bs, pages s !! p = Some bs) ->
  (forall s', mem_inv s' -> root s' = root s -> file_descriptors s' = file_descriptors s -> nodes s' = nodes s ->
    total_nodes s' = total_nodes s -> (forall q, pages s' !! q = if decide (q ∈ l) then None else pages s !! q) -> Q tt s') ->
  wp (free_pages l) Q s.
Proof.
  revert s. induction l as [|p l IH]; intros s Hm Hnd Hlive HQ; cbn [free_pages].
  { by apply wp_ret, HQ. }
  assert (forall i j q, l !! i = Some q -> l !! j = Some q -> q <> 0 -> i = j) as Hnd'.
  { intros i j q Hi Hj Hq. specialize (Hnd (S i) (S j) q Hi Hj Hq). lia. }
  assert (pages s !! 0 = None) as E0 by (destruct (pages s !! 0) as [bs|] eqn:E; [by apply Hm, frame_range in E; lia|done]).
  apply wp_bind. destruct (Z.eqb_spec p 0) as [->|Hp0].
  - apply wp_ret, IH; [done|done|intros q Hq; apply Hlive; by right|]. intros s' ? ? ? ? ? Hpg. apply HQ; try done. intros q. rewrite Hpg.
    destruct (decide (q = 0)) as [->|Hq]; [by repeat destruct (decide _)|].
    assert (q ∈ 0 :: l <-> q ∈ l) by (rewrite elem_of_cons; intuition). repeat destruct (decide _); tauto.
  - destruct (Hlive p) as (bs & Hbs); [by left|done|]. destruct Hm as [Hm1 Hm2 Hm3 Hm4].
    apply wp_bind, wp_modify, wp_zoom, pmm_free_ok; [done|by apply (Hm3 p bs)|]. intros m' Hm' Hkeep. apply IH.
    + constructor; simpl; [done| | |].
      * intros b n Hb. apply Hkeep; [|by eapply Hm2]. intros ->. rewrite (Hm4 p n Hb) in Hbs. done.
      * intros b x [Hne Hb]%lookup_delete_Some. apply Hkeep; [done|by eapply Hm3].
      * intros b n Hb. rewrite lookup_delete_None. right. by eapply Hm4.
    + done.
    + intros q Hq Hq0. simpl. destruct (Hlive q) as (bq & Hbq); [by right|done|]. exists bq. rewrite lookup_delete_ne; [done|].
      intros <-. apply list_elem_of_lookup in Hq as [i Hi]. by specialize (Hnd 0%nat (S i) p eq_refl Hi Hp0).
    + intros s' ? ? ? ? ? Hpg. apply HQ; try done. intros q. rewrite Hpg. simpl. destruct (decide (q = p)) as [->|Hq].
      * rewrite lookup_delete_eq. destruct (decide (p ∈ p :: l)) as [|Hn]; [by destruct (decide _)|]. exfalso. apply Hn. by left.
      * rewrite lookup_delete_ne by done. assert (q ∈ p :: l <-> q ∈ l) by (rewrite elem_of_cons; intuition). repeat destruct (decide _); tauto.
Qed.

(** [a] is gone with its pages. *)
Record deleted (s s' : ramfs) (a : Z) (n : ramfs_node) : Prop := mk_deleted {
  de_nodes : removed (nodes s) (nodes s') (root s) a; de_root : root s' = root s; de_fds : file_descriptors s' = file_descriptors s;
  de_pages : forall q, pages s' !! q = if decide (q ∈ n_data_pages n) then None else pages s !! q }.

Lemma deleted_other s s' a n b m k q : data_inv s -> deleted s s' a n -> nodes s !! a = Some n -> nodes s !! b = Some m -> b <> a ->
  page_at m k q -> pages s' !! q = pages s !! q.
Proof.
  intros [] [_ _ _ Hpg] Ha Hb Hne Hq. rewrite Hpg. destruct (decide _) as [Hin|]; [|done]. exfalso. apply Hne.
  apply list_elem_of_lookup in Hin as [j Hj]. apply (di_owner0 b a m n k j q); try done. split; [done|apply Hq].
Qed.

Lemma deleted_cell s s' a n b m m' off : data_inv s -> deleted s s' a n -> nodes s !! a = Some n -> nodes s !! b = Some m -> b <> a ->
  n_data_pages m' = n_data_pages m -> cell s' m' off = cell s m off.
Proof.
  intros Hd Hdel Ha Hb Hne E. unfold cell. rewrite E. destruct (n_data_pages m !! _) as [q|] eqn:Eq; [|done].
  destruct (decide (q = 0)) as [->|Hq]; [|by assert (pages s' !! q = pages s !! q) as -> by (eapply deleted_other; done)].
  rewrite (de_pages _ _ _ _ Hdel), no_page by done. by destruct (decide _).
Qed.

Lemma deleted_data s s' a n : data_inv s -> deleted s s' a n -> nodes s !! a = Some n -> data_inv s'.
Proof.
  intros Hd Hdel Ha. pose proof (fun b m k q => deleted_other s s' a n b m k q Hd Hdel Ha) as Hsame. destruct Hdel as [[_ Hgone _ Hold Hinv] _ _ Hpg].
  assert (forall b m', nodes s' !! b = Some m' -> b <> a) as Hne by (intros b m' Hm ->; congruence).
  assert (forall b m' k q, nodes s' !! b = Some m' -> page_at m' k q -> exists m, nodes s !! b = Some m /\ b <> a /\ page_at m k q) as Hat.
  { intros b m' k q Hm' Hq. destruct (Hinv b m' Hm') as (m & Hm & _ & _ & _ & _ & _ & Ed). exists m.
    split; [done|]. split; [by eapply Hne|]. unfold page_at in *. by rewrite <- Ed. }
  constructor.
  - intros b m' Hm'. destruct (Hinv b m' Hm') as (m & Hm & _ & -> & _ & _ & _ & ->). by eapply di_shape.
  - intros b m' k q Hm' Hq. destruct (Hat b m' k q Hm' Hq) as (m & Hm & Hb & Hqm). rewrite (Hsame b m k q) by done. by eapply di_live.
  - intros b c m1 m2 j k q Hm1 Hm2 Hq1 Hq2. destruct (Hat b m1 j q Hm1 Hq1) as (k1 & Hk1 & _ & Hq1').
    destruct (Hat c m2 k q Hm2 Hq2) as (k2 & Hk2 & _ & Hq2'). by eapply di_owner.
  - intros q bs Hq. rewrite Hpg in Hq. destruct (decide _) as [|Hnin]; [done|]. destruct (di_used _ Hd q bs Hq) as (b & m & k & Hm & Hk).
    assert (b <> a) as Hba. { intros ->. assert (m = n) as -> by congruence. apply Hnin, list_elem_of_lookup. exists k. apply Hk. }
    destruct (Hold b m Hba Hm) as (m' & Hm' & _ & _ & _ & _ & _ & Ed). exists b, m', k. split; [done|]. unfold page_at in *. by rewrite Ed.
  - intros b m' Hm' k Hk. destruct (Hinv b m' Hm') as (m & Hm & _ & Es & _ & _ & _ & Ed).
    destruct (di_backed _ Hd b m Hm k) as (q & Hq); [congruence|]. exists q. unfold page_at in *. by rewrite Ed.
Qed.

Lemma deleted_zero s s' a n : data_inv s -> zero_inv s -> deleted s s' a n -> nodes s !! a = Some n -> zero_inv s'.
Proof.
  intros Hd Hz Hdel Ha b m' off Hm' Hoff. destruct (rm_inv _ _ _ _ (de_nodes _ _ _ _ Hdel) b m' Hm') as (m & Hm & _ & Es & _ & _ & _ & Ed).
  assert (b <> a) as Hne by (intros ->; rewrite (rm_gone _ _ _ _ (de_nodes _ _ _ _ Hdel)) in Hm'; done).
  rewrite (deleted_cell s s' a n b m) by done. apply (Hz b m); [done|congruence].
Qed.

Lemma deleted_fds s s' a n : fds_inv s -> deleted s s' a n ->
  (forall i f, file_descriptors s !! i = Some f -> f_in_use f = true -> f_node f <> a) -> fds_inv s'.
Proof.
  intros [] [[_ _ _ Hold _] _ Ef _] Hfree. constructor; rewrite Ef; [done|]. intros i f Hf Hu.
  destruct (fd_live0 i f Hf Hu) as (m & Hm & Ht & Hpos & Hb & Hr). destruct (Hold _ m (Hfree i f Hf Hu) Hm) as (m' & Hm' & (_ & Et & _) & _ & _ & _ & _ & Ed).
  exists m'. split; [done|]. split; [congruence|]. split; [done|]. split; [|done]. intros k Hk. destruct (Hb k Hk) as (q & Hq).
  exists q. unfold page_at in *. by rewrite Ed.
Qed.

Section Operations.
Context (map_page : Z -> M Pmm.pmm unit).
(** Mapping a page ends, and the frames in use stay in use. *)
Context (Hmap : forall a m, Pmm.pmm_inv m -> wp (map_page a) (fun _ m' =>
  Pmm.pmm_inv m' /\ forall i, Pmm.is_frame i -> Pmm.used m i = true -> Pmm.used m' i = true) m).

(** A new frame is none of those in use. *)
Lemma new_frame_ok s (Q : Z -> ramfs -> Prop) :
  mem_inv s ->
  (full (frames s) -> Q 0 s) ->
  (forall a s', a <> 0 -> nodes s !! a = None -> pages s !! a = None -> same_files s s' -> mem_inv s' -> frame_at (frames s') a -> Q a s') ->
  wp (new_frame map_page) Q s.
Proof.
  intros [Hp Hn Hg Ha] H0 HQ. unfold new_frame. apply wp_bind, wp_zoom. eapply wp_mono; [by apply Pmm.pmm_alloc_wp|].
  assert (forall m', Pmm.pmm_inv m' -> (forall i, Pmm.is_frame i -> Pmm.used (frames s) i = true -> Pmm.used m' i = true) ->
    mem_inv (put_frames m' s)) as Hmem.
  { intros m' Hm' Hu. constructor; simpl; [done| | |done]; intros b x Hb; (eapply frame_mono; [exact Hu|]); eauto. }
  intros a m' [(i & (Hi & Hfree & _) & -> & Hinv & [Hin Hout] & _)|(Hfull & -> & ->)].
  - assert (forall j, Pmm.is_frame j -> Pmm.used (frames s) j = true -> Pmm.used m' j = true) as Hkeep.
    { intros j Hj Hu. destruct (Z.eq_dec i j) as [<-|Hne]; [by rewrite Hin|by rewrite Hout]. }
    assert (forall x, frame_at (frames s) x -> x <> i * Pmm.PMM_PAGE_SIZE) as Hne.
    { intros x (j & Hj & -> & Hu) E. Pmm.pmm_consts. assert (j = i) as -> by lia. congruence. }
    destruct (Z.eqb_spec (i * Pmm.PMM_PAGE_SIZE) 0); [Pmm.pmm_consts; lia|].
    apply wp_bind, wp_zoom. eapply wp_mono; [by apply Hmap|]. intros [] m2 [Hinv2 Hkeep2]. apply wp_ret, HQ.
    + done.
    + destruct (nodes s !! _) eqn:E; [|done]. by destruct (Hne _ (Hn _ _ E)).
    + destruct (pages s !! _) eqn:E; [|done]. by destruct (Hne _ (Hg _ _ E)).
    + by repeat split.
    + apply Hmem; [done|]. eauto.
    + exists i. split; [done|]. split; [done|]. apply Hkeep2; [Pmm.pmm_consts; lia|]. apply Hin; [Pmm.pmm_consts; lia|done].
  - apply wp_ret. destruct s. by apply H0.
Qed.

Lemma create_ok {A} s parent pn x type uid gid (k1 : M ramfs A) (k2 : Z -> M ramfs A) (Q : A -> ramfs -> Prop) :
  fs_inv s -> nodes s !! parent = Some pn -> n_type pn = RAMFS_TYPE_DIR -> component x ->
  (forall c m, nodes s !! c = Some m -> n_parent m = parent -> n_name m <> x) ->
  (forall s', same_files s s' -> fs_inv s' -> total_nodes s = RAMFS_MAX_FILES \/ full (frames s') -> wp k1 Q s') ->
  (forall a s', created s s' parent a pn (new_node x type uid gid parent (n_children pn)) -> fs_inv s' -> wp (k2 a) Q s') ->
  wp (a <- alloc_node map_page x type uid gid ;; if a =? 0 then k1 else link_child parent a ;;; k2 a) Q s.
Proof.
  intros H Hp Hdir Hx Hfree H1 H2. pose proof (fi_tree _ H) as Ht. destruct (fi_total _ H) as [Etot Hsz].
  pose proof (live_nonzero s Ht parent pn Hp) as Hp0. pose proof (child_count_range s parent pn H Hp) as Hcc.
  unfold alloc_node. apply wp_bind, wp_bind, wp_gets. destruct (Z.leb_spec RAMFS_MAX_FILES (total_nodes s)).
  { apply wp_ret. simpl. apply H1; [by repeat split|done|left; unfold RAMFS_MAX_FILES in *; lia]. }
  apply wp_bind, new_frame_ok; [apply H| |].
  { intros Hfull. simpl. apply wp_ret. simpl. apply H1; [by repeat split|done|by right]. }
  intros a s1 Ha0 Han Hap (Er & Ef & En & Eg & Et) Hm1 Hfr. destruct (Z.eqb_spec a 0); [done|].
  apply wp_bind, wp_modify, wp_bind, wp_modify, wp_ret. destruct (Z.eqb_spec a 0); [done|].
  assert (take (Z.to_nat (RAMFS_MAX_NAME - 1)) x = x) as -> by (apply take_ge; destruct Hx as [_ Hl _ _]; unfold RAMFS_MAX_NAME in *; lia).
  assert (a <> parent) as Hne by congruence. set (fresh := mk_node x _ _ _ _ _ _ _ _ _ _).
  apply wp_bind. unfold link_child. apply wp_bind, (node_get_at _ parent pn); [done|simpl; by rewrite lookup_insert_ne, En by done|].
  apply wp_bind, (node_upd_at _ a fresh); [done|simpl; by rewrite lookup_insert_eq|].
  apply wp_bind, (node_upd_at _ parent pn); [done|simpl; by rewrite !lookup_insert_ne, En by done|].
  apply (node_upd_at _ parent (put_children a pn)); [done|simpl; by rewrite lookup_insert_eq|]. cbn [n_child_count put_children].
  match goal with |- wp _ _ ?x => set (s2 := x) end.
  assert (created s s2 parent a pn (new_node x type uid gid parent (n_children pn))) as Hcr.
  { constructor; try done. unfold s2. simpl. rewrite En, !insert_insert_eq. unfold added.
    replace (u16 (n_child_count pn + 1)) with (n_child_count pn + 1) by u_lia. done. }
  apply (H2 a); [done|]. constructor.
  - rewrite (cr_nodes _ _ _ _ _ _ Hcr), (cr_root _ _ _ _ _ _ Hcr). by apply tree_added.
  - rewrite (cr_nodes _ _ _ _ _ _ Hcr). unfold added.
    rewrite !map_size_insert, lookup_insert_ne, Hp, Han by done. cbn [id].
    unfold s2. simpl. rewrite Et, Etot. unfold RAMFS_MAX_FILES in *. split; [u_lia|lia].
  - by eapply created_data, H.
  - eapply created_zero; [done|apply H..].
  - by eapply created_fds, H.
  - destruct Hm1 as [Hpm Hmn Hmp Hma]. constructor; [done| | |]; intros b m; rewrite ?(cr_nodes _ _ _ _ _ _ Hcr), ?(cr_pages _ _ _ _ _ _ Hcr).
    + intros Hb. destruct (added_data _ _ _ _ _ _ _ Hp Han Hb) as [[-> _]|(m0 & Hm0 & _)]; [done|]. rewrite <- En in Hm0. by apply (Hmn b m0).
    + intros Hb. rewrite <- Eg in Hb. by apply (Hmp b m).
    + intros Hb. destruct (added_data _ _ _ _ _ _ _ Hp Han Hb) as [[-> _]|(m0 & Hm0 & _)]; [done|]. rewrite <- Eg, <- En in *. by eapply Hma.
Qed.

End Operations.

Section Removing.
Context (external_busy : Z -> bool).

(** Nobody has the node open. *)
Definition unused (s : ramfs) (a : Z) : Prop :=
  forall i f, file_descriptors s !! i = Some f -> f_in_use f = true -> f_node f <> a.

Lemma busy_ok s a (Q : bool -> ramfs -> Prop) :
  a <> 0 -> Q true s -> (external_busy a = false -> unused s a -> Q false s) -> wp (ramfs_node_is_busy external_busy a) Q s.
Proof.
  intros Ha Hb Hf. unfold ramfs_node_is_busy. destruct (Z.eqb_spec a 0); [done|]. apply wp_bind, wp_gets, wp_ret.
  destruct (existsb _ (file_descriptors s)) eqn:E; [done|]. destruct (external_busy a) eqn:Ee; [done|]. apply Hf; [done|]. intros i f Hi Hu Ea.
  assert (existsb (fun f => f_in_use f && (f_node f =? a)) (file_descriptors s) = true); [|congruence]. apply existsb_exists. exists f.
  split; [apply list_elem_of_In; by eapply list_elem_of_lookup_2|]. rewrite Hu, Ea. simpl. apply Z.eqb_refl.
Qed.

(** The memory of a node given back. *)
Lemma free_node_ok s a n (Q : unit -> ramfs -> Prop) :
  nodes s !! a = Some n -> mem_inv s -> (forall i j p, n_data_pages n !! i = Some p -> n_data_pages n !! j = Some p -> p <> 0 -> i = j) ->
  (forall p, p ∈ n_data_pages n -> p <> 0 -> exists bs, pages s !! p = Some bs) ->
  (forall s', mem_inv s' -> root s' = root s -> file_descriptors s' = file_descriptors s -> nodes s' = delete a (nodes s) ->
    total_nodes s' = total_nodes s -32 1 -> (forall q, pages s' !! q = if decide (q ∈ n_data_pages n) then None else pages s !! q) -> Q tt s') ->
  wp (free_node a) Q s.
Proof.
  intros Ha Hm Hnd Hlive HQ. assert (a <> 0) as Ha0 by (pose proof (frame_range _ _ (mi_nodes _ Hm a n Ha)); lia).
  unfold free_node. destruct (Z.eqb_spec a 0); [done|]. apply wp_bind, (node_get_at s a n); [done..|].
  apply wp_bind, free_pages_ok; [done..|]. intros s1 Hm1 Er Ef En Et Hpg. apply wp_bind, wp_modify, wp_bind, wp_zoom.
  destruct Hm1 as [Hp1 Hn1 Hg1 Ha1]. apply pmm_free_ok; [done|apply (Hn1 a n); congruence|]. intros m' Hm' Hkeep. apply wp_modify, HQ; simpl; try congruence; [|done].
  - constructor; simpl; [done| | |].
    + intros b m [Hne Hb]%lookup_delete_Some. apply Hkeep; [done|by eapply Hn1].
    + intros b x Hb. apply Hkeep; [|by eapply Hg1]. intros ->. rewrite (Ha1 a n) in Hb by congruence. done.
    + intros b m [Hne Hb]%lookup_delete_Some. by eapply Ha1.
Qed.

Lemma remove_ok s p a pn n corrupt (Q : Z -> ramfs -> Prop) :
  fs_inv s -> nodes s !! a = Some n -> a <> root s -> n_children n = 0 -> n_parent n = p -> nodes s !! p = Some pn ->
  Q RAMFS_BUSY s ->
  (forall s', fs_inv s' -> external_busy a = false -> unused s a -> deleted s s' a n -> Q 0 s') ->
  wp (remove_node external_busy p a corrupt) Q s.
Proof.
  intros H Ha Har Hch Ep Hp Hbusy HQ. pose proof (fi_tree _ H) as Ht. pose proof (live_nonzero s Ht a n Ha) as Ha0.
  pose proof (live_nonzero s Ht p pn Hp) as Hp0. pose proof (kid_ne _ _ a n Ht Ha) as Hpa. rewrite Ep in Hpa.
  unfold remove_node. apply wp_bind, busy_ok; [done|by apply wp_ret|]. intros Hext Hun. apply wp_bind, (unlink_child_ok s p a pn n); [done..|].
  intros h1 Hu. cbn [negb]. destruct (unlinked_mine _ _ _ _ _ _ _ Ht Ha Hp Hu) as (pn1 & l1 & l2 & Hp1 & Ecc & Hc & _).
  destruct (unlinked_old _ _ _ _ _ _ Hp Hu a n Ha) as (n1 & Hn1 & (_ & _ & _ & _ & _ & Ed) & _).
  pose proof (unlinked_removed _ _ _ _ _ _ _ Ht Ha Ep Hp Hu pn1 Har Hch Hp1) as Hrm.
  apply wp_bind, (node_upd_at _ p pn1); [done|exact Hp1|].
  assert (u16 (n_child_count pn1 - 1) = n_child_count pn - 1) as ->.
  { destruct (tr_kids _ _ Ht p pn Hp) as (lp & Hcp & _ & El & _). assert (lp = l1 ++ a :: l2) as -> by by eapply chain_unique.
    pose proof (child_count_range s p pn H Hp). rewrite length_app in El. simpl in El. rewrite Ecc. u_lia. }
  match goal with |- wp _ _ ?x => set (s1 := x) end. assert (nodes s1 = <[p:=put_child_count (n_child_count pn - 1) pn1]> h1) as En1 by done.
  apply wp_bind, (free_node_ok s1 a n1).
  - by rewrite En1, lookup_insert_ne.
  - destruct (fi_mem _ H) as [M1 M2 M3 M4]. assert (forall b m, nodes s1 !! b = Some m -> exists m0, nodes s !! b = Some m0) as Hin.
    { intros b m. rewrite En1. destruct (decide (b = p)) as [->|]; [by exists pn|]. rewrite lookup_insert_ne by done. by eapply unlinked_inv. }
    constructor; [done| |done|]; intros b m Hb; destruct (Hin b m Hb) as [m0 Hm0]; [by eapply M2|by eapply M4].
  - rewrite Ed. intros i j q Hi Hj Hq. by apply (di_owner _ (fi_data _ H) a a n n i j q).
  - rewrite Ed. intros q [i Hi]%list_elem_of_lookup Hq. destruct (di_live _ (fi_data _ H) a n i q Ha) as (bs & ? & _); [done|]. by exists bs.
  - intros s' Hm' Er Ef En Et Hpg. rewrite Ed in Hpg. assert (deleted s s' a n) as Hdel.
    { constructor; [|done|done|done]. by rewrite En, En1. }
    apply wp_ret, HQ; try done. constructor.
    + rewrite Er. apply (rm_tree _ _ _ _ (de_nodes _ _ _ _ Hdel)).
    + destruct (fi_total _ H) as [Etot Hsz]. assert (size h1 = size (nodes s)) as Esz.
      { destruct Hu as [? _|? b m ? _ Hb]; by apply map_size_insert_Some. }
      assert (size (<[p:=put_child_count (n_child_count pn - 1) pn1]> h1) = size (nodes s)) as Esz2 by (erewrite map_size_insert_Some by done; done).
      assert (size (nodes s) <> 0%nat) by (intros E0; apply map_size_empty_inv in E0; rewrite E0 in Ha; done).
      rewrite En, En1, Et. rewrite map_size_delete_Some by (rewrite lookup_insert_ne by done; by eexists). rewrite Esz2.
      change (total_nodes s1) with (total_nodes s). rewrite Etot. split; [u_lia|lia].
    + by eapply deleted_data, Ha; [apply H|].
    + eapply deleted_zero; [apply H..| |]; done.
    + eapply deleted_fds; [apply H|done|done].
    + done.
Qed.
End Removing.

End RamfsFs.
