(* ===== verification/RamfsData.v ===== *)
(** The bytes of the files: what the operations on open files read and write, and
    that they keep the invariant. *)
From Stdlib Require Import ZArith Lia List Bool.
From stdpp Require Import base tactics numbers list gmap.
From S2P Require Import Prelude Pmm CString Ramfs RamfsInv RamfsOps RamfsFs.
Open Scope Z_scope.

Module RamfsData.
Import Ramfs RamfsInv RamfsOps RamfsFs.

(** * One node changes *)

(** Node [a] changes from [n] to [n']: its place in the tree and its owner stay,
    its pages stay its pages, and the other files keep their bytes. *)
Record touched (s s' : ramfs) (a : Z) (n n' : ramfs_node) : Prop := mk_touched {
  to_old : nodes s !! a = Some n; to_nodes : nodes s' = <[a := n']> (nodes s);
  to_shape : shape n' = shape n;
  to_pages : forall k p, page_at n k p -> page_at n' k p;
  to_root : root s' = root s; to_total : total_nodes s' = total_nodes s; to_fds : file_descriptors s' = file_descriptors s;
  to_data : data_inv s'; to_mem : mem_inv s';
  to_others : forall b m off, b <> a -> nodes s !! b = Some m -> cell s' m off = cell s m off }.

(** Size, mode and owner. *)
Definition meta (n : ramfs_node) : Z * Z * Z * Z := (n_size n, n_mode n, n_uid n, n_gid n).

Lemma touched_at s s' a n n' : touched s s' a n n' -> nodes s' !! a = Some n'.
Proof. intros H. by rewrite (to_nodes _ _ _ _ _ H), lookup_insert_eq. Qed.

Lemma touched_refl s a n : data_inv s -> mem_inv s -> nodes s !! a = Some n -> touched s s a n n.
Proof. intros. constructor; try done. by rewrite insert_id. Qed.

Lemma touched_trans s1 s2 s3 a n1 n2 n3 : touched s1 s2 a n1 n2 -> touched s2 s3 a n2 n3 -> touched s1 s3 a n1 n3.
Proof.
  intros [A1 A2 A3 A4 A5 A6 A7 A8 A9 A10] [B1 B2 B3 B4 B5 B6 B7 B8 B9 B10]. constructor; try congruence; auto.
  - by rewrite B2, A2, insert_insert_eq.
  - intros b m off Hb Hm. rewrite (B10 b m), (A10 b m); try done. by rewrite A2, lookup_insert_ne.
Qed.

Lemma touched_shape s s' a n n' : touched s s' a n n' -> same_shape (nodes s) (nodes s').
Proof.
  intros [A1 A2 A3 _ _ _ _ _ _ _] b. rewrite A2. destruct (decide (b = a)) as [->|Hb]; [|by rewrite lookup_insert_ne].
  rewrite lookup_insert_eq, A1. simpl. by rewrite A3.
Qed.

Lemma backed_mono n n' off : (forall k p, page_at n k p -> page_at n' k p) -> backed n off -> backed n' off.
Proof. intros H Hb k Hk. destruct (Hb k Hk) as [p Hp]. eauto. Qed.

Lemma touched_fds s s' a n n' : fds_inv s -> touched s s' a n n' -> fds_inv s'.
Proof.
  intros [] [A1 A2 A3 A4 A5 A6 A7 A8 A9 A10]. constructor; rewrite A7; [done|]. intros i f Hf Hu.
  destruct (fd_live0 i f Hf Hu) as (m & Hm & Ht & Hpos & Hb & Hr). rewrite A2. destruct (decide (f_node f = a)) as [E|Hne].
  - rewrite E in *. rewrite lookup_insert_eq. assert (m = n) as -> by congruence. exists n'. split; [done|]. unfold shape in A3.
    split; [congruence|]. split; [done|]. split; [by eapply backed_mono|done].
  - rewrite lookup_insert_ne by done. by exists m.
Qed.

Lemma touched_inv s s' a n n' : fs_inv s -> touched s s' a n n' -> (forall off, n_size n' <= off -> cell s' n' off = 0) -> fs_inv s'.
Proof.
  intros [] Ht Hz. constructor; try by apply Ht.
  - rewrite (to_root _ _ _ _ _ Ht). eapply same_shape_tree; [by eapply touched_shape|done].
  - rewrite (to_total _ _ _ _ _ Ht), (to_nodes _ _ _ _ _ Ht). rewrite map_size_insert_Some; [done|]. eexists. apply Ht.
  - intros b m off Hm Hoff. rewrite (to_nodes _ _ _ _ _ Ht) in Hm. destruct (decide (b = a)) as [->|Hb].
    + rewrite lookup_insert_eq in Hm. injection Hm as <-. by apply Hz.
    + rewrite lookup_insert_ne in Hm by done. rewrite (to_others _ _ _ _ _ Ht b m) by done. by apply (fi_zero0 b).
  - by eapply touched_fds.
Qed.

(** Attributes that the pages do not depend on. *)
Lemma attr_data s a n n' :
  data_inv s -> mem_inv s -> nodes s !! a = Some n -> n_data_pages n' = n_data_pages n ->
  0 <= n_size n' <= RAMFS_MAX_DATA -> backed n (n_size n') ->
  data_inv (put_nodes (<[a := n']> (nodes s)) s) /\ mem_inv (put_nodes (<[a := n']> (nodes s)) s).
Proof.
  intros [D1 D2 D3 D4 D5] [M1 M2 M3 M4] Ha Ed Hsz Hb.
  assert (forall k p, page_at n k p <-> page_at n' k p) as Hpg by (intros; unfold page_at; by rewrite Ed).
  assert (forall b m, <[a := n']> (nodes s) !! b = Some m -> exists m0, nodes s !! b = Some m0 /\
    (forall k p, page_at m0 k p <-> page_at m k p) /\ n_data_pages m = n_data_pages m0) as Hin.
  { intros b m Hm. destruct (decide (b = a)) as [->|Hne].
    - rewrite lookup_insert_eq in Hm. injection Hm as <-. by exists n.
    - rewrite lookup_insert_ne in Hm by done. by exists m. }
  split; constructor; simpl.
  - intros b m Hm. destruct (decide (b = a)) as [->|Hne]; [rewrite lookup_insert_eq in Hm|rewrite lookup_insert_ne in Hm by done; eauto].
    injection Hm as <-. rewrite Ed. split; [by eapply D1|done].
  - intros b m k p Hm Hp. destruct (Hin b m Hm) as (m0 & Hm0 & Hq & _). apply Hq in Hp. eauto.
  - intros b c m1 m2 j k p Hm1 Hm2 Hp1 Hp2. destruct (Hin b m1 Hm1) as (k1 & Hk1 & Hq1 & _), (Hin c m2 Hm2) as (k2 & Hk2 & Hq2 & _).
    apply Hq1 in Hp1. apply Hq2 in Hp2. eauto.
  - intros p bs Hp. destruct (D4 p bs Hp) as (b & m & k & Hm & Hk). destruct (decide (b = a)) as [->|Hne].
    + exists a, n', k. rewrite lookup_insert_eq. split; [done|]. assert (m = n) as -> by congruence. by apply Hpg.
    + exists b, m, k. by rewrite lookup_insert_ne.
  - intros b m Hm. destruct (decide (b = a)) as [->|Hne]; [rewrite lookup_insert_eq in Hm|rewrite lookup_insert_ne in Hm by done; eauto].
    injection Hm as <-. eapply backed_mono; [|exact Hb]. intros; by apply Hpg.
  - done.
  - intros b m Hm; destruct (Hin b m Hm) as (m0 & Hm0 & _); eauto.
  - done.
  - intros b m Hm; destruct (Hin b m Hm) as (m0 & Hm0 & _); eauto.
Qed.

(** ... nor the tree. *)
Lemma touched_attr s a n n' :
  data_inv s -> mem_inv s -> nodes s !! a = Some n -> shape n' = shape n -> n_data_pages n' = n_data_pages n ->
  0 <= n_size n' <= RAMFS_MAX_DATA -> backed n (n_size n') -> touched s (put_nodes (<[a := n']> (nodes s)) s) a n n'.
Proof.
  intros Hd Hm Ha Es Ed Hsz Hb. destruct (attr_data s a n n' Hd Hm Ha Ed Hsz Hb) as [Hd' Hm']. constructor; try done.
  intros k p. unfold page_at. by rewrite Ed.
Qed.

(** * Pages *)

Definition zero_page : list Z := replicate (Z.to_nat RAMFS_PAGE_SIZE) 0.
Definition with_page (p : Z) (bs : list Z) (s : ramfs) : ramfs := put_pages (<[p := bs]> (pages s)) s.

Section Page.
Context (s : ramfs) (a : Z) (n : ramfs_node) (Hd : data_inv s) (Hm : mem_inv s) (Ha : nodes s !! a = Some n).

(** A page of the node is written. *)
Lemma touched_put k p bs : page_at n k p -> length bs = 4096%nat -> touched s (with_page p bs s) a n n.
Proof.
  intros Hp Hl. destruct (di_live _ Hd a n k p Ha Hp) as (bs0 & Hbs0 & _). destruct Hd as [D1 D2 D3 D4 D5], Hm as [M1 M2 M3 M4].
  constructor; try done; [by simpl; rewrite insert_id| | |].
  - constructor; simpl; try done.
    + intros b m j q Hb Hq. destruct (decide (q = p)) as [->|Hne]; [rewrite lookup_insert_eq; eauto|rewrite lookup_insert_ne by done; eauto].
    + intros q x Hq. destruct (decide (q = p)) as [->|Hne]; [by exists a, n, k|]. rewrite lookup_insert_ne in Hq by done. eauto.
  - constructor; simpl; try done.
    + intros q x Hq. destruct (decide (q = p)) as [->|Hne]; [by eapply M3|]. rewrite lookup_insert_ne in Hq by done. eauto.
    + intros b m Hb. rewrite lookup_insert_ne; [eauto|]. intros <-. rewrite (M4 p m Hb) in Hbs0. done.
  - intros b m off Hb Hbm. unfold cell, with_page. simpl. destruct (n_data_pages m !! _) as [q|] eqn:Eq; [|done].
    rewrite lookup_insert_ne; [done|]. intros <-. apply Hb. eapply (D3 b a m n); [done..|split; [exact Eq|apply Hp]|exact Hp].
Qed.

Lemma cell_put k p bs off : page_at n k p -> 0 <= off ->
  cell (with_page p bs s) n off =
  if decide (off / RAMFS_PAGE_SIZE = Z.of_nat k) then default 0 (bs !! Z.to_nat (off mod RAMFS_PAGE_SIZE)) else cell s n off.
Proof.
  intros Hp Hoff. assert (0 <= off / RAMFS_PAGE_SIZE) by (apply Z.div_pos; [done|reflexivity]). unfold cell, with_page. simpl. destruct (decide _) as [E|E].
  - rewrite E, Nat2Z.id. destruct Hp as [-> _]. by rewrite lookup_insert_eq.
  - destruct (n_data_pages n !! Z.to_nat _) as [q|] eqn:Eq; [|done]. rewrite lookup_insert_ne; [done|]. intros <-. apply E.
    assert (Z.to_nat (off / RAMFS_PAGE_SIZE) = k); [|lia]. eapply (di_owner _ Hd a a n n); [done..|split; [exact Eq|apply Hp]|exact Hp].
Qed.

(** The node gets a page. *)
Context (k : nat) (p : Z) (Hk : n_data_pages n !! k = Some 0) (Hp0 : p <> 0).
Context (Hpn : nodes s !! p = None) (Hpp : pages s !! p = None) (Hfr : frame_at (frames s) p).

Definition paged : ramfs_node := put_data_pages (<[k := p]> (n_data_pages n)) n.
Definition with_new_page : ramfs := with_page p zero_page (put_nodes (<[a := paged]> (nodes s)) s).

Lemma paged_page j q : page_at paged j q <-> page_at n j q \/ j = k /\ q = p.
Proof.
  unfold page_at, paged. simpl. destruct (decide (j = k)) as [->|Hj].
  - rewrite list_lookup_insert_eq by by eapply lookup_lt_Some. rewrite Hk. split; [intros [[= <-] _]; auto|].
    intros [[[= <-] ?]|[_ ->]]; [done|auto].
  - rewrite list_lookup_insert_ne by done. split; [auto|]. intros [?|[? _]]; done.
Qed.

Lemma fresh_page b m j q : nodes s !! b = Some m -> page_at m j q -> q <> p.
Proof. intros Hb Hq ->. destruct (di_live _ Hd b m j p Hb Hq) as (bs & E & _). congruence. Qed.

Lemma new_page_node b m : nodes with_new_page !! b = Some m -> b = a /\ m = paged \/ b <> a /\ nodes s !! b = Some m.
Proof.
  unfold with_new_page, with_page. simpl. destruct (decide (b = a)) as [->|Hb]; [rewrite lookup_insert_eq; intros [= <-]; by left|].
  rewrite lookup_insert_ne by done. by right.
Qed.

(** Every page behind the change is the new one, or was there. *)
Lemma new_page_at b m j q : nodes with_new_page !! b = Some m -> page_at m j q ->
  b = a /\ j = k /\ q = p \/ q <> p /\ exists m0, nodes s !! b = Some m0 /\ page_at m0 j q.
Proof.
  intros Hb Hq. destruct (new_page_node b m Hb) as [[-> ->]|[Hne Hbm]].
  - apply paged_page in Hq as [Hq|[-> ->]]; [right|by left]. split; [by eapply fresh_page|]. by exists n.
  - right. split; [by eapply fresh_page|]. by exists m.
Qed.

Lemma new_page_data : data_inv with_new_page.
Proof.
  pose proof new_page_at as Hat. pose proof new_page_node as Hnode. pose proof Hd as [D1 D2 D3 D4 D5]. constructor.
  - intros b m Hb. destruct (Hnode b m Hb) as [[-> ->]|[_ Hbm]]; [|eauto]. unfold paged. simpl. rewrite length_insert. eauto.
  - intros b m j q Hb Hq. unfold with_new_page, with_page. simpl. destruct (Hat b m j q Hb Hq) as [(_ & _ & ->)|(Hne & m0 & Hm0 & Hq0)].
    + rewrite lookup_insert_eq. by eexists.
    + rewrite lookup_insert_ne by done. eauto.
  - intros b c m1 m2 i j q Hb Hc Hq1 Hq2.
    destruct (Hat b m1 i q Hb Hq1) as [(-> & -> & E1)|(Hne & k1 & Hk1 & Hq1')], (Hat c m2 j q Hc Hq2) as [(-> & -> & E)|(Hne' & k2 & Hk2 & Hq2')];
      try done. eauto.
  - intros q bs Hq. unfold with_new_page, with_page in Hq |- *. simpl in Hq |- *. destruct (decide (q = p)) as [->|Hne].
    + exists a, paged, k. rewrite lookup_insert_eq. split; [done|]. apply paged_page. by right.
    + rewrite lookup_insert_ne in Hq by done. destruct (D4 q bs Hq) as (b & m & j & Hbm & Hj). destruct (decide (b = a)) as [->|Hb].
      * exists a, paged, j. rewrite lookup_insert_eq. split; [done|]. apply paged_page. left. by assert (m = n) as -> by congruence.
      * exists b, m, j. by rewrite lookup_insert_ne.
  - intros b m Hb. destruct (Hnode b m Hb) as [[-> ->]|[_ Hbm]]; [|eauto]. eapply backed_mono; [|exact (D5 a n Ha)]. intros j q Hq. apply paged_page. by left.
Qed.

Lemma touched_new : touched s with_new_page a n paged.
Proof.
  pose proof Hm as [M1 M2 M3 M4]. constructor; try done.
  - intros j q Hq. apply paged_page. by left.
  - apply new_page_data.
  - constructor; [done| | |].
    + intros b m Hb. destruct (new_page_node b m Hb) as [[-> _]|[_ Hbm]]; by eapply M2.
    + intros q bs. unfold with_new_page, with_page. simpl. destruct (decide (q = p)) as [->|Hne]; [done|]. rewrite lookup_insert_ne by done. eauto.
    + intros b m Hb. assert (b <> p /\ pages s !! b = None) as [Hbp E].
      { destruct (new_page_node b m Hb) as [[-> _]|[_ Hbm]]; (split; [congruence|eauto]). }
      unfold with_new_page, with_page. simpl. by rewrite lookup_insert_ne.
  - intros b m off Hb Hbm. unfold cell, with_new_page, with_page. simpl. destruct (n_data_pages m !! _) as [q|] eqn:Eq; [|done].
    destruct (decide (q = 0)) as [->|Hq0]; [by rewrite lookup_insert_ne|]. rewrite lookup_insert_ne; [done|]. intros <-.
    by eapply (fresh_page b m).
Qed.

Lemma cell_new off : cell with_new_page paged off = cell s n off.
Proof.
  unfold cell, with_new_page, with_page, paged. simpl. destruct (decide (Z.to_nat (off / RAMFS_PAGE_SIZE) = k)) as [E|E].
  - rewrite E, list_lookup_insert_eq, Hk by by eapply lookup_lt_Some. rewrite lookup_insert_eq, no_page by done.
    unfold zero_page. destruct (replicate _ 0 !! _) eqn:Ez; [|done]. by apply lookup_replicate in Ez as [-> _].
  - rewrite list_lookup_insert_ne by done. destruct (n_data_pages n !! Z.to_nat _) as [q|] eqn:Eq; [|done].
    destruct (decide (q = 0)) as [->|Hq0]; [by rewrite lookup_insert_ne|]. rewrite lookup_insert_ne; [done|]. intros <-. by eapply (fresh_page a n).
Qed.
End Page.

(** * Writing *)

Section Write.
Context (map_page : Z -> M Pmm.pmm unit).
Context (Hmap : forall a m, Pmm.pmm_inv m -> wp (map_page a) (fun _ m' =>
  Pmm.pmm_inv m' /\ forall i, Pmm.is_frame i -> Pmm.used m i = true -> Pmm.used m' i = true) m).

Lemma frames_touched s s' a n : same_files s s' -> mem_inv s' -> data_inv s -> nodes s !! a = Some n -> touched s s' a n n.
Proof.
  intros (Er & Ef & En & Eg & Et) Hm Hd Ha. constructor; try done; [by rewrite En, insert_id|by eapply data_pages_inv|].
  intros. by apply cell_pages.
Qed.

Lemma write_page_ok s a n page (Q : Z -> ramfs -> Prop) :
  data_inv s -> mem_inv s -> nodes s !! a = Some n -> a <> 0 -> 0 <= page < RAMFS_MAX_PAGES ->
  (forall s', touched s s' a n n -> (forall off, cell s' n off = cell s n off) -> full (frames s') -> Q 0 s') ->
  (forall p s' n', touched s s' a n n' -> meta n' = meta n -> page_at n' (Z.to_nat page) p ->
    (forall off, cell s' n' off = cell s n off) -> Q p s') ->
  wp (write_page map_page a page) Q s.
Proof.
  intros Hd Hm Ha Ha0 Hpage H0 HQ. destruct (di_shape _ Hd a n Ha) as [Hlen _]. unfold RAMFS_MAX_PAGES in Hpage.
  destruct (aget_range (n_data_pages n) page) as (p & Hp & Ep); [lia|].
  apply wp_bind, (node_get_at s a n); [done..|]. apply wp_bind. eapply wp_lift; [exact Ep|].
  destruct (Z.eqb_spec p 0) as [->|Hp0]; [|apply wp_ret, (HQ p s n); [by apply touched_refl|done|done|done]].
  apply wp_bind, new_frame_ok; [done|done| |].
  - intros Hfull. apply wp_bind. eapply wp_lift; [apply aset_ok; lia|]. apply wp_bind, (node_upd_at s a n); [done..|].
    apply wp_bind, wp_ret, wp_ret.
    assert (put_data_pages (<[Z.to_nat page:=0]> (n_data_pages n)) n = n) as -> by (rewrite list_insert_id by done; by destruct n).
    assert (put_nodes (<[a:=n]> (nodes s)) s = s) as -> by (rewrite insert_id by done; by destruct s).
    apply H0; [by apply touched_refl|done|done].
  - intros q s' Hq0 Hqn Hqp Hs Hm' Hfr. apply wp_bind. eapply wp_lift; [apply aset_ok; lia|]. pose proof Hs as (Er & Ef & En & Eg & Et).
    apply wp_bind, (node_upd_at s' a n); [done|by rewrite En|]. apply wp_bind. destruct (Z.eqb_spec q 0); [done|]. apply wp_modify, wp_ret.
    assert (data_inv s') as Hd' by by eapply data_pages_inv. rewrite <- En in Ha, Hqn. rewrite <- Eg in Hqp.
    apply (HQ q (with_new_page s' a n (Z.to_nat page) q) (paged n (Z.to_nat page) q)).
    + eapply touched_trans; [|by apply touched_new]. apply frames_touched; try done. by rewrite <- En.
    + done.
    + apply paged_page; try done. by right.
    + intros off. rewrite cell_new by done. by apply cell_pages.
Qed.

(** What [ramfs_write] leaves of the bytes, [src] written from [off] on. *)
Definition written (old : Z -> Z) (off : Z) (src : list Z) (o : Z) : Z :=
  if decide (off <= o < off + Z.of_nat (length src)) then default 0 (src !! Z.to_nat (o - off)) else old o.

Lemma written_nil old off o : written old off [] o = old o.
Proof. unfold written. destruct (decide _); [|done]. simpl in *. lia. Qed.

Lemma written_cons old off b src o :
  written old off (b :: src) o = written (fun x => if decide (x = off) then b else old x) (off + 1) src o.
Proof.
  unfold written. cbn [length]. destruct (decide (off + 1 <= o < _)).
  - destruct (decide (off <= o < _)); [|lia]. replace (Z.to_nat (o - off)) with (S (Z.to_nat (o - (off + 1)))) by lia. done.
  - destruct (decide (o = off)) as [->|Ho].
    + destruct (decide _); [|lia]. by rewrite Z.sub_diag.
    + by destruct (decide _); [lia|].
Qed.

Lemma page_div off : 0 <= off < RAMFS_MAX_DATA -> 0 <= off / RAMFS_PAGE_SIZE < RAMFS_MAX_PAGES /\ 0 <= off mod RAMFS_PAGE_SIZE < 4096.
Proof. unfold RAMFS_MAX_DATA, RAMFS_PAGE_SIZE, RAMFS_MAX_PAGES. intros H. split; [|apply Z.mod_pos_bound; lia].
  split; [apply Z.div_pos; lia|apply Z.div_lt_upper_bound; lia].
Qed.

(** One byte of a page. *)
Lemma cell_byte s a n p bs off b o :
  data_inv s -> nodes s !! a = Some n -> 0 <= off < RAMFS_MAX_DATA -> 0 <= o -> page_at n (Z.to_nat (off / RAMFS_PAGE_SIZE)) p ->
  pages s !! p = Some bs -> length bs = 4096%nat ->
  cell (with_page p (<[Z.to_nat (off mod RAMFS_PAGE_SIZE) := b]> bs) s) n o = if decide (o = off) then b else cell s n o.
Proof.
  intros Hd Ha Hoff Ho Hp Hbs Hl. pose proof (page_div off Hoff) as [H1 H2]. rewrite (cell_put s a n Hd Ha _ p _ o Hp Ho).
  assert (0 <= o mod RAMFS_PAGE_SIZE) by (by apply Z.mod_pos_bound). rewrite Z2Nat.id by lia.
  destruct (decide (o / RAMFS_PAGE_SIZE = off / RAMFS_PAGE_SIZE)) as [Ed|Ed]; destruct (decide (o = off)) as [->|Hne]; try done.
  - by rewrite list_lookup_insert_eq by lia.
  - rewrite list_lookup_insert_ne.
    + unfold cell. rewrite Ed. destruct Hp as [-> _]. by rewrite Hbs.
    + intros E. apply Hne. rewrite (Z.div_mod o RAMFS_PAGE_SIZE), (Z.div_mod off RAMFS_PAGE_SIZE) by done. rewrite Ed. f_equal. lia.
Qed.

Lemma write_bytes_ok a src s n off (Q : Z -> ramfs -> Prop) :
  data_inv s -> mem_inv s -> nodes s !! a = Some n -> a <> 0 -> 0 <= off -> off + Z.of_nat (length src) <= RAMFS_MAX_DATA ->
  (forall k s' n', (k <= length src)%nat -> touched s s' a n n' -> meta n' = meta n ->
    (forall o, 0 <= o -> cell s' n' o = written (cell s n) off (take k src) o) ->
    (forall o, off <= o < off + Z.of_nat k -> exists p, page_at n' (Z.to_nat (o / RAMFS_PAGE_SIZE)) p) ->
    (k = length src \/ full (frames s')) -> Q (Z.of_nat k) s') ->
  wp (write_bytes map_page a off src) Q s.
Proof.
  revert s n off Q. induction src as [|b src IH]; intros s n off Q Hd Hm Ha Ha0 H0 Hend HQ; cbn [write_bytes].
  { apply wp_ret, (HQ 0%nat s n); [done|by apply touched_refl|done|intros; by rewrite written_nil|lia|by left]. }
  cbn [length] in Hend. pose proof (page_div off ltac:(lia)) as [H1 H2]. destruct (Z.leb_spec RAMFS_MAX_PAGES (off / RAMFS_PAGE_SIZE)); [lia|].
  apply wp_bind, (write_page_ok s a n); [done..| |].
  { intros s' Ht Hc Hfull. apply wp_ret, (HQ 0%nat s' n); [lia|done|done|intros; by rewrite written_nil, Hc|lia|by right]. }
  intros p s1 n1 Ht1 Es1 Hp1 Hc1. pose proof (touched_at _ _ _ _ _ Ht1) as Ha1. pose proof (to_data _ _ _ _ _ Ht1) as Hd1.
  pose proof Hp1 as [_ Hp0]. destruct (Z.eqb_spec p 0); [done|]. destruct (di_live _ Hd1 a n1 _ p Ha1 Hp1) as (bs & Hbs & Hl).
  assert (forall Q', Q' bs s1 -> wp (page_get p) Q' s1) as Hget.
  { intros Q' HQ'. unfold wp, page_get. destruct (Z.eqb_spec p 0); [done|]. by rewrite Hbs. }
  apply wp_bind, Hget, wp_bind. eapply wp_lift; [apply aset_ok; lia|]. apply wp_bind. unfold page_put. apply wp_bind, Hget, wp_modify.
  match goal with |- context [wp _ _ (put_pages (<[p := ?x]> _) _)] => change (put_pages (<[p := x]> (pages s1)) s1) with (with_page p x s1); set (bs' := x) end.
  assert (touched s1 (with_page p bs' s1) a n1 n1) as Ht2.
  { eapply touched_put; [done|apply Ht1|done|done|]. unfold bs'. by rewrite length_insert. }
  replace (off +32 1) with (off + 1) by (unfold RAMFS_MAX_DATA, RAMFS_MAX_PAGES, RAMFS_PAGE_SIZE in *; u_lia).
  apply wp_bind, (IH _ n1); [apply Ht2|apply Ht2|by eapply touched_at|done|lia|lia|]. intros k s' n' Hk Ht3 Es3 Hc3 Hb3 Hend3.
  apply wp_ret. replace (Z.of_nat k + 1) with (Z.of_nat (S k)) by lia. apply (HQ (S k) s' n').
  - simpl. lia.
  - eapply touched_trans; [exact Ht1|]. by eapply touched_trans.
  - congruence.
  - intros o Ho. rewrite Hc3 by done. cbn [take]. rewrite written_cons. unfold written. destruct (decide _); [done|].
    unfold bs'. rewrite (cell_byte s1 a n1 p bs off b o) by (done || lia). by rewrite Hc1.
  - intros o Ho. destruct (decide (o = off)) as [->|]; [|apply Hb3; lia]. exists p. by apply Ht3.
  - destruct Hend3 as [->|?]; [by left|by right].
Qed.
End Write.

(** * Contents *)

Lemma file_content_length s n : 0 <= n_size n -> length (content s n) = Z.to_nat (n_size n).
Proof. intros. unfold content. by rewrite length_map, length_seqZ. Qed.

Lemma content_lookup s n i : (i < Z.to_nat (n_size n))%nat -> content s n !! i = Some (cell s n (Z.of_nat i)).
Proof. intros Hi. unfold content. rewrite list_lookup_fmap, lookup_seqZ_lt by lia. done. Qed.

Lemma content_ext s n (l : list Z) :
  0 <= n_size n -> length l = Z.to_nat (n_size n) -> (forall i, (i < Z.to_nat (n_size n))%nat -> l !! i = Some (cell s n (Z.of_nat i))) ->
  content s n = l.
Proof.
  intros H0 Hl H. apply list_eq_same_length with (n := Z.to_nat (n_size n)); [done|by apply file_content_length|].
  intros i x y Hi Hx Hy. rewrite content_lookup in Hx by done. rewrite H in Hy by done. congruence.
Qed.

(** A list overwritten from a position on, zeros in a gap. *)
Definition overwrite (l : list Z) (pos : nat) (w : list Z) : list Z :=
  take pos (l ++ replicate (pos - length l) 0) ++ w ++ drop (pos + length w) l.

Lemma file_overwrite_length l pos w : length (overwrite l pos w) = Nat.max (length l) (pos + length w).
Proof. unfold overwrite. rewrite !length_app, length_take, length_app, length_replicate, length_drop. lia. Qed.

Lemma overwrite_drop l pos w : drop pos (overwrite l pos w) = w ++ drop (pos + length w) l.
Proof. unfold overwrite. apply drop_app_length'. rewrite length_take, length_app, length_replicate. lia. Qed.

Lemma overwrite_lookup l pos w i : (i < Nat.max (length l) (pos + length w))%nat ->
  overwrite l pos w !! i = Some (if decide (pos <= i < pos + length w)%nat then default 0 (w !! (i - pos)%nat) else default 0 (l !! i)).
Proof.
  intros Hi. unfold overwrite. set (p := take pos _). assert (length p = pos) as Hp.
  { unfold p. rewrite length_take, length_app, length_replicate. lia. }
  destruct (decide (i < pos)%nat).
  - rewrite lookup_app_l by lia. destruct (decide _); [lia|]. unfold p. rewrite lookup_take_lt by lia. destruct (l !! i) as [x|] eqn:E.
    + rewrite lookup_app_l by (by eapply lookup_lt_Some). done.
    + apply lookup_ge_None in E. rewrite lookup_app_r by done. by rewrite lookup_replicate_2 by lia.
  - rewrite lookup_app_r by lia. rewrite Hp. destruct (decide (i < pos + length w)%nat).
    + rewrite lookup_app_l by lia. destruct (decide _); [|lia]. destruct (lookup_lt_is_Some_2 w (i - pos)) as [x ->]; [lia|done].
    + rewrite lookup_app_r by lia. destruct (decide _); [lia|]. rewrite lookup_drop. replace (pos + length w + (i - pos - length w))%nat with i by lia.
      destruct (lookup_lt_is_Some_2 l i) as [x ->]; [lia|done].
Qed.

Lemma written_content s s' n n' pos w :
  0 <= n_size n -> 0 <= pos -> n_size n' = Z.max (n_size n) (pos + Z.of_nat (length w)) ->
  (forall o, n_size n <= o -> cell s n o = 0) ->
  (forall o, 0 <= o -> cell s' n' o = written (cell s n) pos w o) ->
  content s' n' = overwrite (content s n) (Z.to_nat pos) w.
Proof.
  intros H0 Hpos Es Hz Hc. apply content_ext; [lia|rewrite file_overwrite_length, file_content_length by done; lia|].
  intros i Hi. rewrite overwrite_lookup by (rewrite file_content_length by done; lia). f_equal. rewrite Hc by lia. unfold written.
  destruct (decide (pos <= Z.of_nat i < _)); destruct (decide (_ <= i < _)%nat); try lia.
  - f_equal. f_equal. lia.
  - destruct (decide (i < Z.to_nat (n_size n))%nat); [by rewrite content_lookup|].
    rewrite Hz by lia. destruct (content s n !! i) eqn:E; [|done]. apply lookup_lt_Some in E. rewrite file_content_length in E by done. lia.
Qed.
End RamfsData.
