(* ===== verification/RamfsFiles.v ===== *)
(** The operations on open files: reading, writing, truncating, seeking, sharing
    and closing. *)
From Stdlib Require Import ZArith Lia List Bool.
From stdpp Require Import base tactics numbers list gmap.
From S2P Require Import Prelude Pmm CString Ramfs RamfsInv RamfsOps RamfsFs RamfsData.
Open Scope Z_scope.

Module RamfsFiles.
Import Ramfs RamfsInv RamfsOps RamfsFs RamfsData.

(** The descriptor behind a number. *)
Definition fd_at (s : ramfs) (fd : Z) : option ramfs_fd :=
  if decide (0 <= fd < RAMFS_MAX_FDS) then
    match file_descriptors s !! Z.to_nat fd with Some f => if f_in_use f then Some f else None | None => None end
  else None.

Lemma fd_at_inv s fd f : fd_at s fd = Some f ->
  0 <= fd < RAMFS_MAX_FDS /\ file_descriptors s !! Z.to_nat fd = Some f /\ f_in_use f = true.
Proof.
  unfold fd_at. destruct (decide _); [|done]. destruct (file_descriptors s !! _) as [g|]; [|done].
  destruct (f_in_use g) eqn:E; [|done]. by intros [= ->].
Qed.

Lemma open_fd_ok s fd (Q : option ramfs_fd -> ramfs -> Prop) : fds_inv s -> Q (fd_at s fd) s -> wp (open_fd fd) Q s.
Proof.
  intros [Hl _] HQ. unfold open_fd, fd_at, RAMFS_MAX_FDS in *. destruct (Z.ltb_spec fd 0), (Z.leb_spec 16 fd); cbn [orb];
    destruct (decide (0 <= fd < 16)); try lia; try by apply wp_ret.
  destruct (aget_range (file_descriptors s) fd) as (f & Hf & Ef); [lia|]. rewrite Hf in HQ.
  apply wp_bind. unfold fd_get. apply wp_bind, wp_gets. eapply wp_lift; [exact Ef|]. by apply wp_ret.
Qed.

Lemma fd_put_ok s fd f (Q : unit -> ramfs -> Prop) :
  fds_inv s -> 0 <= fd < RAMFS_MAX_FDS -> Q tt (put_fds (<[Z.to_nat fd := f]> (file_descriptors s)) s) -> wp (fd_put fd f) Q s.
Proof.
  intros [Hl _] Hfd HQ. unfold RAMFS_MAX_FDS in *. apply wp_bind, wp_gets, wp_bind. eapply wp_lift; [apply aset_ok; lia|]. by apply wp_modify.
Qed.

(** What holds of a descriptor in use. *)
Definition fd_good (s : ramfs) (f : ramfs_fd) : Prop :=
  exists n, nodes s !! f_node f = Some n /\ n_type n = RAMFS_TYPE_FILE /\ 0 <= f_pos f <= RAMFS_MAX_DATA /\ backed n (f_pos f) /\ 1 <= f_refs f <= 255.

Lemma fds_put s i f : fds_inv s -> (f_in_use f = true -> fd_good s f) -> fds_inv (put_fds (<[i := f]> (file_descriptors s)) s).
Proof.
  intros [Hl Hlive] Hf. constructor; simpl; [by rewrite length_insert|]. intros j g Hj Hu.
  destruct (decide (j = i)) as [->|Hne]; [|rewrite list_lookup_insert_ne in Hj by done; by eapply Hlive].
  destruct (decide (i < length (file_descriptors s))%nat).
  - rewrite list_lookup_insert_eq in Hj by done. injection Hj as <-. by apply Hf.
  - rewrite list_insert_ge in Hj by lia. by eapply Hlive.
Qed.

Lemma fd_put_inv s i f : fs_inv s -> (f_in_use f = true -> fd_good s f) -> fs_inv (put_fds (<[i := f]> (file_descriptors s)) s).
Proof.
  intros [Ht Htot Hd Hz Hfds [M1 M2 M3 M4]] Hf. constructor; [done|done|by apply (data_pages_inv s)|done|by apply fds_put|by constructor].
Qed.

Lemma fd_good_at s fd f : fs_inv s -> fd_at s fd = Some f -> fd_good s f.
Proof. intros H (_ & Hf & Hu)%fd_at_inv. by eapply (fd_live _ (fi_fds _ H)). Qed.

Lemma good_node s f : fs_inv s -> fd_good s f -> f_node f <> 0.
Proof. intros H (n & Hn & _). by eapply live_nonzero; [apply H|]. Qed.

(** ** Reading *)

Lemma read_bytes_ok s n off k (Q : list Z -> ramfs -> Prop) :
  (exists a, nodes s !! a = Some n) -> data_inv s -> 0 <= off -> off + Z.of_nat k <= RAMFS_MAX_DATA -> backed n (off + Z.of_nat k) ->
  Q (map (cell s n) (seqZ off (Z.of_nat k))) s -> wp (read_bytes (n_data_pages n) off k) Q s.
Proof.
  intros [a Ha] Hd. revert off Q. induction k as [|k IH]; intros off Q H0 Hend Hb HQ; cbn [read_bytes]; [by apply wp_ret|].
  pose proof (page_div off ltac:(lia)) as [H1 H2]. destruct (Z.leb_spec RAMFS_MAX_PAGES (off / RAMFS_PAGE_SIZE)); [lia|].
  destruct (Hb (Z.to_nat (off / RAMFS_PAGE_SIZE))) as (p & Hp & Hp0).
  { rewrite Z2Nat.id by lia. pose proof (Z.mul_div_le off RAMFS_PAGE_SIZE eq_refl). lia. }
  destruct (di_live _ Hd a n _ p Ha (conj Hp Hp0)) as (bs & Hbs & Hl).
  apply wp_bind. eapply wp_lift; [apply aget_ok; [lia|exact Hp]|]. destruct (Z.eqb_spec p 0); [done|]. apply wp_bind.
  unfold wp at 1, page_get. destruct (Z.eqb_spec p 0); [done|]. rewrite Hbs.
  destruct (aget_range bs (off mod RAMFS_PAGE_SIZE)) as (b & Hb1 & Eb); [lia|]. apply wp_bind. eapply wp_lift; [exact Eb|].
  replace (off +32 1) with (off + 1) by (unfold RAMFS_MAX_DATA, RAMFS_MAX_PAGES, RAMFS_PAGE_SIZE in *; u_lia).
  apply wp_bind, IH; [lia|lia|by replace (off + 1 + Z.of_nat k) with (off + Z.of_nat (S k)) by lia|]. apply wp_ret.
  rewrite seqZ_cons in HQ by lia. replace (Z.pred (Z.of_nat (S k))) with (Z.of_nat k) in HQ by lia. cbn [map] in HQ.
  replace b with (cell s n off); [by replace (off + 1) with (Z.succ off) by lia|]. unfold cell. by rewrite Hp, Hbs, Hb1.
Qed.

Lemma content_slice s n pos k : 0 <= pos -> pos + Z.of_nat k <= n_size n ->
  map (cell s n) (seqZ pos (Z.of_nat k)) = take k (drop (Z.to_nat pos) (content s n)).
Proof.
  intros H0 Hk. assert (length (content s n) = Z.to_nat (n_size n)) as Hl by (apply file_content_length; lia).
  apply list_eq_same_length with (n := k); [|by rewrite length_map, length_seqZ; lia|].
  - rewrite length_take, length_drop, Hl. lia.
  - intros i x y Hi. rewrite list_lookup_fmap, lookup_seqZ_lt by lia. rewrite lookup_take_lt, lookup_drop, content_lookup by lia.
    simpl. intros [= <-] [= <-]. f_equal. lia.
Qed.

Lemma backed_le n o1 o2 : o1 <= o2 -> backed n o2 -> backed n o1.
Proof. intros Ho Hb k Hk. apply Hb. lia. Qed.

(** Reading as a function of the contents. *)
Definition file_content (s : ramfs) (a : Z) : list Z := match nodes s !! a with Some n => content s n | None => [] end.
Definition moved (s : ramfs) (fd pos : Z) (f : ramfs_fd) : ramfs :=
  put_fds (<[Z.to_nat fd := put_pos pos f]> (file_descriptors s)) s.
Definition read_spec (s : ramfs) (fd count : Z) : (Z * list Z) * ramfs :=
  match fd_at s fd with
  | None => ((-1, []), s)
  | Some f =>
      if negb (has (f_flags f) RAMFS_FLAG_READ) then ((-2, []), s) else
      let rest := drop (Z.to_nat (f_pos f)) (file_content s (f_node f)) in
      if decide (rest = []) then ((0, []), s) else
      if count =? 0 then ((-5, []), s) else
      let bs := take (Z.to_nat count) rest in
      ((Z.of_nat (length bs), bs), moved s fd (f_pos f + Z.of_nat (length bs)) f)
  end.

Lemma moved_inv s fd f n pos : fs_inv s -> fd_at s fd = Some f -> nodes s !! f_node f = Some n -> 0 <= pos <= n_size n -> fs_inv (moved s fd pos f).
Proof.
  intros H Ef Hn Hpos. destruct (fd_good_at s fd f H Ef) as (n' & Hn' & Ht & _ & _ & Hr). assert (n' = n) as -> by congruence.
  destruct (di_shape _ (fi_data _ H) _ _ Hn) as [_ Hsz]. apply fd_put_inv; [done|]. intros _. exists n. cbn [f_node f_pos f_refs put_pos].
  split; [done|]. split; [done|]. split; [lia|]. split; [|done]. eapply backed_le; [apply Hpos|]. by eapply di_backed; [apply H|].
Qed.

Lemma ramfs_read_ok s fd count (Q : Z * list Z -> ramfs -> Prop) :
  fs_inv s -> 0 <= count < 2 ^ 32 -> (fs_inv (snd (read_spec s fd count)) -> Q (fst (read_spec s fd count)) (snd (read_spec s fd count))) ->
  wp (ramfs_read fd count) Q s.
Proof.
  intros H Hcount. unfold read_spec. intros HQ. pose proof (fi_fds _ H) as Hfds. apply wp_bind, open_fd_ok; [done|].
  destruct (fd_at s fd) as [f|] eqn:Ef; [|by apply wp_ret, HQ]. pose proof (fd_good_at s fd f H Ef) as Hg. pose proof (good_node s f H Hg) as Hn0.
  destruct Hg as (n & Hn & Ht & Hpos & Hb & Hr). destruct (has (f_flags f) RAMFS_FLAG_READ) eqn:Eh; cbn [negb] in *; [|by apply wp_ret, HQ].
  destruct (Z.eqb_spec (f_node f) 0); [done|]. apply wp_bind, (node_get_at s _ n); [done..|]. unfold file_content in HQ. rewrite Hn in HQ.
  destruct (di_shape _ (fi_data _ H) _ _ Hn) as [_ Hsz]. assert (length (content s n) = Z.to_nat (n_size n)) as Hl by (apply file_content_length; lia).
  set (rest := drop (Z.to_nat (f_pos f)) (content s n)) in *. assert (length rest = Z.to_nat (n_size n - f_pos f)) as Hlr by (unfold rest; rewrite length_drop, Hl; lia).
  destruct (Z.leb_spec (n_size n) (f_pos f)); destruct (decide (rest = [])) as [E|E].
  2: { destruct E. apply length_zero_iff_nil. lia. }
  2: { rewrite E in Hlr. simpl in Hlr. lia. }
  { by apply wp_ret, HQ. }
  unfold RAMFS_MAX_DATA, RAMFS_MAX_PAGES, RAMFS_PAGE_SIZE in Hsz.
  replace (n_size n -32 f_pos f) with (n_size n - f_pos f) by u_lia. set (k := Z.to_nat (if count <? _ then _ else _)).
  assert (Z.of_nat k = Z.min count (n_size n - f_pos f)) as Hk by (unfold k; destruct (Z.ltb_spec count (n_size n - f_pos f)); lia).
  apply wp_bind, read_bytes_ok; [by exists (f_node f)|apply H|lia|unfold RAMFS_MAX_DATA, RAMFS_MAX_PAGES, RAMFS_PAGE_SIZE; lia| |].
  { apply (backed_le n _ (n_size n)); [lia|]. by eapply di_backed; [apply H|]. }
  assert (map (cell s n) (seqZ (f_pos f) (Z.of_nat k)) = take (Z.to_nat count) rest) as ->.
  { rewrite content_slice by lia. fold rest. destruct (decide (k = Z.to_nat count)) as [->|]; [done|]. rewrite !take_ge; [done| |]; rewrite Hlr; lia. }
  assert (length (take (Z.to_nat count) rest) = k) as Elen by (rewrite length_take, Hlr; lia).
  destruct (Z.eqb_spec (Z.of_nat (length (take (Z.to_nat count) rest))) 0); destruct (Z.eqb_spec count 0); try lia; [by apply wp_ret, HQ|].
  replace (f_pos f +32 Z.of_nat (length (take (Z.to_nat count) rest))) with (f_pos f + Z.of_nat (length (take (Z.to_nat count) rest))) by u_lia.
  apply wp_bind, fd_put_ok; [done|apply (fd_at_inv _ _ _ Ef)|]. apply wp_ret, HQ. eapply moved_inv; [done|done|done|rewrite Elen; lia].
Qed.

(** ** Writing and truncating *)

(** The file behind descriptor [fd] changes, and the position of the descriptor. *)
Record updated_file (s s' : ramfs) (fd pos : Z) (f : ramfs_fd) (n n' : ramfs_node) (l : list Z) : Prop := mk_updated_file {
  uf_touched : exists s2, touched s s2 (f_node f) n n' /\ s' = put_fds (<[Z.to_nat fd := put_pos pos f]> (file_descriptors s)) s2;
  uf_mode : n_mode n' = n_mode n /\ n_uid n' = n_uid n /\ n_gid n' = n_gid n;
  uf_content : content s' n' = l }.

Lemma cell_put_fds l s n off : cell (put_fds l s) n off = cell s n off.
Proof. done. Qed.
Lemma content_put_fds l s n : content (put_fds l s) n = content s n.
Proof. done. Qed.

Section Write.
Context (map_page : Z -> M Pmm.pmm unit).
Context (Hmap : forall a m, Pmm.pmm_inv m -> wp (map_page a) (fun _ m' =>
  Pmm.pmm_inv m' /\ forall i, Pmm.is_frame i -> Pmm.used m i = true -> Pmm.used m' i = true) m).

(** Positions between the old pages and the new ones. *)
Lemma backed_written n n' pos k : 0 <= pos -> (forall j p, page_at n j p -> page_at n' j p) -> backed n pos ->
  (forall o, pos <= o < pos + k -> exists p, page_at n' (Z.to_nat (o / RAMFS_PAGE_SIZE)) p) -> backed n' (pos + k).
Proof.
  intros H0 Hmono Hb Hk j Hj. destruct (decide (Z.of_nat j * RAMFS_PAGE_SIZE < pos)) as [Hlt|Hge].
  - destruct (Hb j Hlt) as [p Hp]. eauto.
  - destruct (Hk (Z.of_nat j * RAMFS_PAGE_SIZE)) as [p Hp]; [lia|]. rewrite Z.div_mul, Nat2Z.id in Hp by done. by exists p.
Qed.

Lemma ramfs_write_ok s fd f buf (Q : Z -> ramfs -> Prop) :
  fs_inv s -> fd_at s fd = Some f -> has (f_flags f) RAMFS_FLAG_WRITE = true -> f_pos f < RAMFS_MAX_DATA ->
  (forall n n' k s', nodes s !! f_node f = Some n -> (k <= length buf)%nat -> f_pos f + Z.of_nat k <= RAMFS_MAX_DATA -> fs_inv s' ->
    updated_file s s' fd (f_pos f + Z.of_nat k) f n n' (overwrite (content s n) (Z.to_nat (f_pos f)) (take k buf)) ->
    (k = length buf \/ f_pos f + Z.of_nat k = RAMFS_MAX_DATA \/ full (frames s')) -> Q (Z.of_nat k) s') ->
  wp (ramfs_write map_page fd buf) Q s.
Proof.
  intros H Ef Eh Hlt HQ. pose proof (fi_fds _ H) as Hfds. pose proof (fd_good_at s fd f H Ef) as Hg. pose proof (good_node s f H Hg) as Hn0.
  destruct Hg as (n & Hn & Ht & Hpos & Hb & Hr). destruct (di_shape _ (fi_data _ H) _ _ Hn) as [_ Hsz].
  apply wp_bind, open_fd_ok; [done|]. rewrite Ef, Eh. cbn [negb].
  destruct (Z.eqb_spec (f_node f) 0); [done|]. destruct (Z.leb_spec RAMFS_MAX_DATA (f_pos f)); [lia|].
  set (cnt := if _ <? _ then _ else _). assert (0 <= cnt <= Z.of_nat (length buf) /\ f_pos f + cnt <= RAMFS_MAX_DATA /\
    (cnt = Z.of_nat (length buf) \/ f_pos f + cnt = RAMFS_MAX_DATA)) as (Hcnt & Hend & Hall).
  { unfold cnt. destruct (Z.ltb_spec (RAMFS_MAX_DATA - f_pos f) (Z.of_nat (length buf))); lia. }
  apply wp_bind, (write_bytes_ok map_page Hmap (f_node f) _ s n); [apply H|apply H|done|done|lia|rewrite length_take; lia|].
  intros k s1 n1 Hk Ht1 Emeta Hc1 Hpg Hfull. pose proof Emeta as [= Es1 Em1 Eu1 Eg1]. rewrite length_take in Hk, Hfull. pose proof (touched_at _ _ _ _ _ Ht1) as Hn1.
  assert (f_pos f + Z.of_nat k <= RAMFS_MAX_DATA) as Hpk by lia. rewrite take_take in Hc1. replace (Nat.min k (Z.to_nat cnt)) with k in Hc1 by lia.
  assert (backed n1 (f_pos f + Z.of_nat k)) as Hb1 by (eapply backed_written; [lia|apply Ht1|done|done]).
  replace (f_pos f +32 Z.of_nat k) with (f_pos f + Z.of_nat k) by (unfold RAMFS_MAX_DATA, RAMFS_MAX_PAGES, RAMFS_PAGE_SIZE in *; u_lia).
  apply wp_bind, fd_put_ok; [by eapply touched_fds|apply (fd_at_inv _ _ _ Ef)|]. rewrite (to_fds _ _ _ _ _ Ht1).
  apply wp_bind, (node_get_at _ _ n1); [done..|]. apply wp_bind.
  set (n2 := put_size (Z.max (n_size n) (f_pos f + Z.of_nat k)) n1).
  assert (touched s (put_nodes (<[f_node f := n2]> (nodes s1)) s1) (f_node f) n n2) as Ht2.
  { eapply touched_trans; [exact Ht1|]. apply (touched_attr s1 _ n1); try done; try apply Ht1; [simpl; lia|]. simpl.
    destruct (Z.max_spec (n_size n) (f_pos f + Z.of_nat k)) as [[_ ->]|[_ ->]]; [done|]. eapply backed_mono; [apply Ht1|]. by eapply di_backed; [apply H|]. }
  set (s2 := put_nodes _ s1) in Ht2. set (s3 := put_fds (<[Z.to_nat fd := put_pos (f_pos f + Z.of_nat k) f]> (file_descriptors s)) s2).
  assert (wp (ret (Z.of_nat k)) Q s3) as HQ3; [|destruct (Z.ltb_spec (n_size n1) (f_pos f + Z.of_nat k))].
  - assert (forall o, 0 <= o -> cell s2 n2 o = written (cell s n) (f_pos f) (take k buf) o) as Hc2 by exact Hc1.
    assert (length (take k buf) = k) as Hlk by (rewrite length_take; lia).
    apply wp_ret, (HQ n n2 k s3); [done|lia|done| | |lia || (destruct Hfull as [Hfull|Hfull]; [lia|by right; right])].
    + assert (fs_inv s2) as H2.
      { eapply touched_inv; [exact H|exact Ht2|]. intros o Ho. simpl in Ho. rewrite Hc2 by lia. unfold written. rewrite Hlk.
        destruct (decide _); [lia|]. apply (fi_zero _ H (f_node f) n); [done|lia]. }
      unfold s3. rewrite <- (to_fds _ _ _ _ _ Ht2). apply fd_put_inv; [done|]. intros _. exists n2.
      cbn [f_node f_pos f_refs put_pos]. split; [by eapply touched_at|]. pose proof (to_shape _ _ _ _ _ Ht2) as Esh. unfold shape in Esh.
      split; [congruence|]. split; [lia|]. split; [exact Hb1|done].
    + constructor; [by exists s2|done|].
      unfold s3. rewrite content_put_fds. apply written_content; [lia|lia|by rewrite Hlk| |done]. intros o Ho. by apply (fi_zero _ H (f_node f) n).
  - apply (node_upd_at _ _ n1); [done..|]. replace (f_pos f + Z.of_nat k) with (n_size n2) at 1; [exact HQ3|]. simpl. lia.
  - assert (n2 = n1) as E2 by (unfold n2; rewrite Z.max_l, <- Es1 by lia; by destruct n1).
    assert (s2 = s1) as E3 by (unfold s2; rewrite E2, insert_id by done; by destruct s1).
    unfold s3 in HQ3. rewrite E3 in HQ3. by apply wp_ret.
Qed.
End Write.

Lemma page_put_ok s p bs bs' (Q : unit -> ramfs -> Prop) :
  p <> 0 -> pages s !! p = Some bs -> Q tt (with_page p bs' s) -> wp (page_put p bs') Q s.
Proof.
  intros H0 Hp HQ. unfold page_put. apply wp_bind. unfold wp, page_get. destruct (Z.eqb_spec p 0); [done|]. rewrite Hp. by apply wp_modify.
Qed.

Lemma clear_pages_ok a n l : forall s j (Q : unit -> ramfs -> Prop),
  l = drop j (n_data_pages n) -> data_inv s -> mem_inv s -> nodes s !! a = Some n ->
  (forall s', touched s s' a n n -> (forall o, 0 <= o ->
    cell s' n o = if decide (j <= Z.to_nat (o / RAMFS_PAGE_SIZE))%nat then 0 else cell s n o) -> Q tt s') ->
  wp (clear_pages l) Q s.
Proof.
  induction l as [|p l IH]; intros s j Q El Hd Hm Ha HQ; cbn [clear_pages].
  { apply wp_ret, HQ; [by apply touched_refl|]. intros o Ho. destruct (decide _) as [Hj|]; [|done]. unfold cell.
    destruct (n_data_pages n !! Z.to_nat (o / RAMFS_PAGE_SIZE)) eqn:E; [|done]. apply lookup_lt_Some in E.
    apply (f_equal length) in El. rewrite length_drop in El. simpl in El. lia. }
  assert (n_data_pages n !! j = Some p) as Hp by (rewrite <- (Nat.add_0_r j), <- lookup_drop, <- El; done).
  assert (l = drop (S j) (n_data_pages n)) as El' by (rewrite <- Nat.add_1_r, <- drop_drop, <- El; done).
  apply wp_bind. destruct (Z.eqb_spec p 0) as [->|Hp0].
  - apply wp_ret, (IH s (S j)); [done..|]. intros s' Ht Hc. apply HQ; [done|]. intros o Ho. rewrite Hc by done.
    destruct (decide (S j <= _)%nat), (decide (j <= _)%nat); try done; try lia. assert (Z.to_nat (o / RAMFS_PAGE_SIZE) = j) as E by lia.
    unfold cell. by rewrite E, Hp, no_page.
  - destruct (di_live _ Hd a n j p Ha) as (bs & Hbs & Hl); [done|]. apply (page_put_ok s p bs); [done..|].
    assert (touched s (with_page p zero_page s) a n n) as Ht by (eapply touched_put; [done..| |]; done).
    apply (IH _ (S j)); [done|apply Ht..|]. intros s' Ht' Hc. apply HQ; [by eapply touched_trans|]. intros o Ho. rewrite Hc by done.
    assert (0 <= o / RAMFS_PAGE_SIZE) by (by apply Z.div_pos). rewrite (cell_put s a n Hd Ha j p) by done.
    repeat destruct (decide _); try done; try lia.
    unfold zero_page. destruct (replicate _ 0 !! _) eqn:E; [|done]. by apply lookup_replicate in E as [-> _].
Qed.

Lemma ramfs_truncate_ok s fd f (Q : Z -> ramfs -> Prop) :
  fs_inv s -> fd_at s fd = Some f -> has (f_flags f) RAMFS_FLAG_WRITE = true ->
  (forall n n' s', nodes s !! f_node f = Some n -> fs_inv s' -> updated_file s s' fd 0 f n n' [] -> Q 0 s') ->
  wp (ramfs_truncate fd) Q s.
Proof.
  intros H Ef Eh HQ. pose proof (fi_fds _ H) as Hfds. pose proof (fd_good_at s fd f H Ef) as Hg. pose proof (good_node s f H Hg) as Hn0.
  destruct Hg as (n & Hn & Ht & Hpos & Hb & Hr). apply wp_bind, open_fd_ok; [done|]. rewrite Ef, Eh. cbn [negb].
  destruct (Z.eqb_spec (f_node f) 0); [done|]. apply wp_bind, (node_get_at _ _ n); [done..|]. rewrite Ht, Z.eqb_refl. cbn [negb].
  apply wp_bind, (clear_pages_ok (f_node f) n _ s 0); [done|apply H|apply H|done|]. intros s1 Ht1 Hc1.
  apply wp_bind, (node_upd_at _ _ n); [done|by eapply touched_at|]. set (n2 := put_size 0 n). set (s2 := put_nodes _ s1).
  assert (touched s s2 (f_node f) n n2) as Ht2.
  { eapply touched_trans; [exact Ht1|]. apply (touched_attr s1 _ n); try done; try apply Ht1; try by eapply touched_at.
    intros k Hk. unfold RAMFS_PAGE_SIZE in Hk. simpl in Hk. lia. }
  assert (fs_inv s2) as H2.
  { eapply touched_inv; [exact H|exact Ht2|]. intros o Ho. change (cell s2 n2 o) with (cell s1 n o). rewrite Hc1 by done. by destruct (decide _); [|lia]. }
  apply wp_bind, fd_put_ok; [apply H2|apply (fd_at_inv _ _ _ Ef)|]. apply wp_ret, (HQ n n2); [done| |].
  - apply fd_put_inv; [done|]. intros _. exists n2. cbn [f_node f_pos f_refs put_pos]. split; [by eapply touched_at|].
    split; [done|]. split; [done|]. split; [|done]. intros k Hk. unfold RAMFS_PAGE_SIZE in Hk. lia.
  - constructor; [|done|done]. exists s2. split; [done|]. by rewrite (to_fds _ _ _ _ _ Ht2).
Qed.

(** ** Positions and references *)

Lemma ramfs_seek_ok s fd offset (Q : Z -> ramfs -> Prop) :
  fs_inv s -> 0 <= offset ->
  match fd_at s fd with
  | None => Q (-1) s
  | Some f => forall n, nodes s !! f_node f = Some n ->
      let pos := Z.min offset (n_size n) in fs_inv (moved s fd pos f) -> Q pos (moved s fd pos f)
  end -> wp (ramfs_seek fd offset) Q s.
Proof.
  intros H Ho HQ. pose proof (fi_fds _ H) as Hfds. apply wp_bind, open_fd_ok; [done|]. destruct (fd_at s fd) as [f|] eqn:Ef; [|by apply wp_ret].
  pose proof (fd_good_at s fd f H Ef) as Hg. pose proof (good_node s f H Hg) as Hn0. destruct Hg as (n & Hn & Ht & Hpos & Hb & Hr).
  destruct (Z.eqb_spec (f_node f) 0); [done|]. apply wp_bind, (node_get_at _ _ n); [done..|].
  assert ((if n_size n <? offset then n_size n else offset) = Z.min offset (n_size n)) as -> by (destruct (Z.ltb_spec (n_size n) offset); lia).
  destruct (di_shape _ (fi_data _ H) _ _ Hn) as [_ Hsz].
  apply wp_bind, fd_put_ok; [done|apply (fd_at_inv _ _ _ Ef)|]. apply wp_ret, (HQ n); [done|]. eapply moved_inv; [done..|lia].
Qed.

(** Sharing and closing change the references of one descriptor; the last
    reference frees it. *)
Definition closed (f : ramfs_fd) : ramfs_fd := mk_fd 0 0 0 false (f_close_on_exec f) 0 0 0 0.

Lemma ramfs_fd_ref_ok s fd (Q : Z -> ramfs -> Prop) :
  fs_inv s ->
  match fd_at s fd with
  | None => Q (-1) s
  | Some f => if f_refs f <? 255 then
      let s' := put_fds (<[Z.to_nat fd := put_refs (f_refs f + 1) f]> (file_descriptors s)) s in fs_inv s' -> Q 0 s' else Q (-1) s
  end -> wp (ramfs_fd_ref fd) Q s.
Proof.
  intros H HQ. apply wp_bind, open_fd_ok; [apply H|]. destruct (fd_at s fd) as [f|] eqn:Ef; [|by apply wp_ret].
  destruct (Z.ltb_spec (f_refs f) 255); [|by apply wp_ret]. destruct (fd_good_at s fd f H Ef) as (n & Hn & Ht & Hpos & Hb & Hr).
  apply wp_bind, fd_put_ok; [apply H|apply (fd_at_inv _ _ _ Ef)|]. apply wp_ret, HQ. apply fd_put_inv; [done|]. intros _.
  exists n. cbn [f_node f_pos f_refs put_refs]. split_and!; try done; lia.
Qed.

Lemma ramfs_close_ok s fd (Q : unit -> ramfs -> Prop) :
  fs_inv s ->
  match fd_at s fd with
  | None => Q tt s
  | Some f =>
      let f' := if 1 <? f_refs f then put_refs (f_refs f - 1) f else closed f in
      let s' := put_fds (<[Z.to_nat fd := f']> (file_descriptors s)) s in fs_inv s' -> Q tt s'
  end -> wp (ramfs_close fd) Q s.
Proof.
  intros H HQ. apply wp_bind, open_fd_ok; [apply H|]. destruct (fd_at s fd) as [f|] eqn:Ef; [|by apply wp_ret].
  destruct (fd_good_at s fd f H Ef) as (n & Hn & Ht & Hpos & Hb & Hr). pose proof (proj1 (fd_at_inv _ _ _ Ef)) as Hfd.
  destruct (Z.ltb_spec 1 (f_refs f)); (apply fd_put_ok; [apply H|done|]); apply HQ, fd_put_inv; try done.
  intros _. exists n. cbn [f_node f_pos f_refs put_refs]. split_and!; try done; lia.
Qed.

Lemma ramfs_fd_size_ok s fd (Q : Z -> ramfs -> Prop) :
  fs_inv s -> match fd_at s fd with None => Q (-1) s | Some f => forall n, nodes s !! f_node f = Some n -> Q (n_size n) s end ->
  wp (ramfs_fd_size fd) Q s.
Proof.
  intros H HQ. apply wp_bind, open_fd_ok; [apply H|]. destruct (fd_at s fd) as [f|] eqn:Ef; [|by apply wp_ret].
  pose proof (fd_good_at s fd f H Ef) as Hg. pose proof (good_node s f H Hg) as Hn0. destruct Hg as (n & Hn & _).
  destruct (Z.eqb_spec (f_node f) 0); [done|]. apply wp_bind, (node_get_at _ _ n); [done..|]. apply wp_ret. eauto.
Qed.

(** * Every case of writing and truncating *)

Inductive write_spec (s : ramfs) (fd : Z) (buf : list Z) : Z -> ramfs -> Prop :=
| write_closed : fd_at s fd = None -> write_spec s fd buf (-1) s
| write_denied f : fd_at s fd = Some f -> has (f_flags f) RAMFS_FLAG_WRITE = false -> write_spec s fd buf (-2) s
| write_end f : fd_at s fd = Some f -> has (f_flags f) RAMFS_FLAG_WRITE = true -> f_pos f = RAMFS_MAX_DATA ->
    write_spec s fd buf (if 0 <? Z.of_nat (length buf) then RAMFS_WRITE_EFBIG else 0) s
| write_done f n n' k s' : fd_at s fd = Some f -> has (f_flags f) RAMFS_FLAG_WRITE = true -> f_pos f < RAMFS_MAX_DATA ->
    nodes s !! f_node f = Some n -> (k <= length buf)%nat -> f_pos f + Z.of_nat k <= RAMFS_MAX_DATA ->
    updated_file s s' fd (f_pos f + Z.of_nat k) f n n' (overwrite (content s n) (Z.to_nat (f_pos f)) (take k buf)) ->
    k = length buf \/ f_pos f + Z.of_nat k = RAMFS_MAX_DATA \/ full (frames s') ->
    write_spec s fd buf (Z.of_nat k) s'.

Lemma ramfs_write_total map_page s fd buf (Q : Z -> ramfs -> Prop) :
  (forall a m, Pmm.pmm_inv m -> wp (map_page a) (fun _ m' =>
    Pmm.pmm_inv m' /\ forall i, Pmm.is_frame i -> Pmm.used m i = true -> Pmm.used m' i = true) m) ->
  fs_inv s -> (forall r s', fs_inv s' -> write_spec s fd buf r s' -> Q r s') -> wp (ramfs_write map_page fd buf) Q s.
Proof.
  intros Hmap H HQ. destruct (fd_at s fd) as [f|] eqn:Ef.
  2: { apply wp_bind, open_fd_ok; [apply H|]. rewrite Ef. by apply wp_ret, HQ, write_closed. }
  destruct (has (f_flags f) RAMFS_FLAG_WRITE) eqn:Ew.
  2: { apply wp_bind, open_fd_ok; [apply H|]. rewrite Ef, Ew. apply wp_ret, HQ; [done|by eapply write_denied]. }
  pose proof (fd_good_at s fd f H Ef) as Hg. pose proof (good_node s f H Hg) as Hn0. destruct Hg as (n & Hn & _ & Hpos & _).
  destruct (decide (f_pos f < RAMFS_MAX_DATA)) as [Hlt|Hge].
  - apply (ramfs_write_ok map_page Hmap s fd f); try done. intros n1 n' k s' ? ? ? Hi ? ?. apply HQ; [done|]. by apply (write_done s fd buf f n1 n' k).
  - apply wp_bind, open_fd_ok; [apply H|]. rewrite Ef, Ew. cbn [negb]. destruct (Z.eqb_spec (f_node f) 0); [done|].
    destruct (Z.leb_spec RAMFS_MAX_DATA (f_pos f)); [|lia]. apply wp_ret, HQ; [done|]. eapply write_end; [done|done|lia].
Qed.

Inductive truncate_spec (s : ramfs) (fd : Z) : Z -> ramfs -> Prop :=
| truncate_closed : fd_at s fd = None -> truncate_spec s fd (-1) s
| truncate_denied f : fd_at s fd = Some f -> has (f_flags f) RAMFS_FLAG_WRITE = false -> truncate_spec s fd (-13) s
| truncate_done f n n' s' : fd_at s fd = Some f -> has (f_flags f) RAMFS_FLAG_WRITE = true -> nodes s !! f_node f = Some n ->
    updated_file s s' fd 0 f n n' [] -> truncate_spec s fd 0 s'.

Lemma ramfs_truncate_total s fd (Q : Z -> ramfs -> Prop) :
  fs_inv s -> (forall r s', fs_inv s' -> truncate_spec s fd r s' -> Q r s') -> wp (ramfs_truncate fd) Q s.
Proof.
  intros H HQ. destruct (fd_at s fd) as [f|] eqn:Ef.
  2: { apply wp_bind, open_fd_ok; [apply H|]. rewrite Ef. by apply wp_ret, HQ, truncate_closed. }
  destruct (has (f_flags f) RAMFS_FLAG_WRITE) eqn:Ew.
  - apply (ramfs_truncate_ok s fd f); try done. intros n n' s' ? ? ?. apply HQ; [done|]. by eapply truncate_done.
  - apply wp_bind, open_fd_ok; [apply H|]. rewrite Ef, Ew. apply wp_ret, HQ; [done|by eapply truncate_denied].
Qed.
End RamfsFiles.
