(* ===== verification/RamfsView.v ===== *)
(** The file system as its users see it: a map from paths to files and
    directories, and what the changes of the tree and of the files do to it. *)
From Stdlib Require Import ZArith Lia List Bool.
From stdpp Require Import base tactics numbers list gmap.
From S2P Require Import Prelude Pmm CString Ramfs RamfsInv RamfsOps RamfsFs RamfsData RamfsFiles.
Open Scope Z_scope.

Module RamfsView.
Import Ramfs RamfsInv RamfsOps RamfsFs RamfsData RamfsFiles.

(** What is at a path: the type, the mode, the owner and the bytes. *)
Record entry := mk_entry { e_type : Z; e_mode : Z; e_uid : Z; e_gid : Z; e_content : list Z }.
Definition entry_of (s : ramfs) (n : ramfs_node) : entry := mk_entry (n_type n) (n_mode n) (n_uid n) (n_gid n) (content s n).

Definition view (s : ramfs) (l : list (list Z)) (e : entry) : Prop :=
  exists a n, below (nodes s) (root s) l a /\ nodes s !! a = Some n /\ e = entry_of s n.

(** The effects: none, an entry more, an entry less, another entry at a path,
    and other names for the entries of a subtree. *)
Definition same_view (s s' : ramfs) : Prop := forall l e, view s' l e <-> view s l e.
Definition view_added (s s' : ramfs) (l0 : list (list Z)) (e0 : entry) : Prop :=
  (forall e, ~ view s l0 e) /\ forall l e, view s' l e <-> view s l e \/ l = l0 /\ e = e0.
Definition view_removed (s s' : ramfs) (l0 : list (list Z)) : Prop :=
  (exists e, view s l0 e) /\ forall l e, view s' l e <-> view s l e /\ l <> l0.
Definition view_updated (s s' : ramfs) (l0 : list (list Z)) (e0 : entry) : Prop :=
  (exists e, view s l0 e) /\ forall l e, view s' l e <-> if decide (l = l0) then e = e0 else view s l e.
Definition view_renamed (s s' : ramfs) (l0 : list (list Z)) (x : list Z) : Prop :=
  (exists e, view s l0 e) /\ forall l' e, view s' l' e <-> exists l, l' = new_path x l0 l /\ view s l e.

(** A path leads to one entry. *)
Lemma view_unique s l e1 e2 : tree (nodes s) (root s) -> view s l e1 -> view s l e2 -> e1 = e2.
Proof.
  intros H (a & n & Ha & Hn & ->) (b & m & Hb & Hm & ->). assert (a = b) as <- by by eapply below_unique. congruence.
Qed.

Lemma content_ext_cells s s' n n' : n_size n' = n_size n -> (forall off, cell s' n' off = cell s n off) -> content s' n' = content s n.
Proof. intros Es Hc. unfold content. rewrite Es. apply map_ext. done. Qed.

Lemma entry_kept s s' m m' : kept m m' -> (forall off, cell s' m' off = cell s m off) -> entry_of s' m' = entry_of s m.
Proof.
  intros ((_ & Et & _) & Es & Em & Eu & Eg & _) Hc. unfold entry_of. rewrite (content_ext_cells s s' m m') by done. congruence.
Qed.

Lemma same_files_view s s' : same_files s s' -> same_view s s'.
Proof.
  intros (Er & Ef & En & Eg & _) l e. unfold view. rewrite En, Er.
  assert (forall n, entry_of s' n = entry_of s n) as E; [|by setoid_rewrite E].
  intros n. apply entry_kept; [apply node_kept_refl|]. intros. by apply cell_pages.
Qed.

Lemma put_fds_view l s : same_view s (put_fds l s).
Proof. done. Qed.

Lemma added_view s s' p a pn lp x type uid gid :
  tree (nodes s) (root s) -> data_inv s -> created s s' p a pn (new_node x type uid gid p (n_children pn)) ->
  (forall c m, nodes s !! c = Some m -> n_parent m = p -> n_name m <> x) -> below (nodes s) (root s) lp p ->
  view_added s s' (lp ++ [x])
    (mk_entry type (if type =? RAMFS_TYPE_DIR then RAMFS_DEFAULT_DIR_MODE else RAMFS_DEFAULT_FILE_MODE) uid gid []).
Proof.
  intros H Hd [Hp Ha Ha0 En Eg Ef Er] Hfree Hlp. set (nn := new_node _ _ _ _ _ _) in *. split.
  { intros e (b & m & Hb & Hm & _). apply below_step in Hb as (d & m' & Hd' & Hm' & Ep & En').
    apply (Hfree b m'); [done| |done]. rewrite Ep. by eapply below_unique. }
  assert (forall b, b <> a -> forall m, nodes s !! b = Some m -> exists m', nodes s' !! b = Some m' /\ entry_of s' m' = entry_of s m) as Hold.
  { intros b Hb m Hm. rewrite En. unfold added. destruct (decide (b = p)) as [->|Hbp].
    - rewrite lookup_insert_eq. eexists. split; [done|]. assert (m = pn) as -> by congruence. apply entry_kept; [by repeat split|].
      intros. by apply cell_kept.
    - rewrite !lookup_insert_ne by done. exists m. split; [done|]. apply entry_kept; [apply node_kept_refl|]. intros. by apply cell_pages. }
  assert (nodes s' !! a = Some nn) as Hnew by (rewrite En; apply added_new with (pn := pn); congruence).
  assert (forall l b, below (nodes s') (root s) l b <-> below (nodes s) (root s) l b \/ b = a /\ exists lp, below (nodes s) (root s) lp p /\ l = lp ++ [x])
    as Hbelow by (intros; rewrite En; by apply (added_below (nodes s) (root s) p a pn nn)).
  intros l e. unfold view. rewrite Er. setoid_rewrite Hbelow.
  split.
  - intros (b & m & [Hb|(-> & lp' & Hlp' & ->)] & Hm & ->).
    + left. destruct (below_live _ _ _ _ H Hb) as [m0 Hm0]. assert (b <> a) as Hba by congruence.
      destruct (Hold b Hba m0 Hm0) as (m' & Hm' & E). exists b, m0. split_and!; try done. rewrite <- E. congruence.
    + right. assert (lp' = lp) as -> by by eapply below_path. split; [done|]. assert (m = nn) as -> by congruence. done.
  - intros [(b & m & Hb & Hm & ->)|[-> ->]].
    + assert (b <> a) as Hba by congruence. destruct (Hold b Hba m Hm) as (m' & Hm' & E). exists b, m'. split_and!; try done. by left.
    + exists a, nn. split_and!; try done. right. by split; [|exists lp].
Qed.

Lemma deleted_view s s' a n la :
  tree (nodes s) (root s) -> data_inv s -> deleted s s' a n -> nodes s !! a = Some n -> below (nodes s) (root s) la a -> view_removed s s' la.
Proof.
  intros H Hd Hdel Ha Hla. split; [by exists (entry_of s n), a, n|].
  pose proof (fun b m m' off => deleted_cell s s' a n b m m' off Hd Hdel Ha) as Hcell. destruct Hdel as [[_ Hgone Hbelow Hold _] Er _ _].
  intros l e. unfold view. rewrite Er. setoid_rewrite Hbelow. split.
  - intros (b & m' & [Hb Hba] & Hm' & ->). destruct (below_live _ _ _ _ H Hb) as [m Hm]. destruct (Hold b m Hba Hm) as (m2 & Hm2 & Hk).
    assert (m2 = m') as -> by congruence. split; [|intros ->; apply Hba; by eapply below_unique]. exists b, m. split_and!; try done.
    apply entry_kept; [done|]. intros off. eapply Hcell; [done|done|apply Hk].
  - intros [(b & m & Hb & Hm & ->) Hl]. assert (b <> a) as Hba by (intros ->; apply Hl; by eapply below_path).
    destruct (Hold b m Hba Hm) as (m' & Hm' & Hk). exists b, m'. split_and!; try done. symmetry.
    apply entry_kept; [done|]. intros off. eapply Hcell; [done|done|apply Hk].
Qed.

Lemma touched_view s s' a n n' la :
  tree (nodes s) (root s) -> touched s s' a n n' -> below (nodes s) (root s) la a -> view_updated s s' la (entry_of s' n').
Proof.
  intros H Ht Hla. split; [exists (entry_of s n), a, n; split_and!; try done; apply Ht|].
  assert (forall l b, below (nodes s') (root s) l b <-> below (nodes s) (root s) l b) as Hbelow.
  { pose proof (touched_shape _ _ _ _ _ Ht) as Hs. split; eapply same_shape_below; [by apply same_shape_sym|done]. }
  intros l e. unfold view. rewrite (to_root _ _ _ _ _ Ht). setoid_rewrite Hbelow.
  assert (forall b, b <> a -> nodes s' !! b = nodes s !! b) as Hoth by (intros; by rewrite (to_nodes _ _ _ _ _ Ht), lookup_insert_ne).
  assert (forall b m, b <> a -> nodes s !! b = Some m -> entry_of s' m = entry_of s m) as Hent.
  { intros b m Hb Hm. apply entry_kept; [apply node_kept_refl|]. intros off. by apply (to_others _ _ _ _ _ Ht b). }
  destruct (decide (l = la)) as [->|Hl]; split.
  - intros (b & m & Hb & Hm & ->). assert (b = a) as -> by by eapply below_unique. rewrite (touched_at _ _ _ _ _ Ht) in Hm. congruence.
  - intros ->. exists a, n'. split_and!; try done. by eapply touched_at.
  - intros (b & m & Hb & Hm & ->). assert (b <> a) as Hba by (intros ->; apply Hl; by eapply below_path). rewrite Hoth in Hm by done.
    exists b, m. split_and!; try done. by apply (Hent b).
  - intros (b & m & Hb & Hm & ->). assert (b <> a) as Hba by (intros ->; apply Hl; by eapply below_path).
    exists b, m. rewrite Hoth by done. split_and!; try done. symmetry. by apply (Hent b).
Qed.

Lemma renamed_view s a n x la :
  tree (nodes s) (root s) -> nodes s !! a = Some n -> a <> root s -> component x ->
  (forall c m, nodes s !! c = Some m -> n_parent m = n_parent n -> n_name m <> x) -> below (nodes s) (root s) la a ->
  view_renamed s (put_nodes (renamed (nodes s) a n x) s) la x.
Proof.
  intros H Ha Har Hx Hfree Hla. split; [by exists (entry_of s n), a, n|].
  assert (tree (renamed (nodes s) a n x) (root s)) as H' by (by eapply (tree_renamed (nodes s) (root s) (n_parent n) a n x)).
  assert (forall l b, below (nodes s) (root s) l b -> below (renamed (nodes s) a n x) (root s) (new_path x la l) b) as Hbelow.
  { intros l b Hb. by eapply (renamed_below (nodes s) (root s)). }
  assert (forall b m, nodes s !! b = Some m -> exists m', renamed (nodes s) a n x !! b = Some m' /\
    entry_of (put_nodes (renamed (nodes s) a n x) s) m' = entry_of s m) as Hold.
  { intros b m Hm. unfold renamed. destruct (decide (b = a)) as [->|Hb]; [|exists m; by rewrite lookup_insert_ne].
    exists (put_name x n). rewrite lookup_insert_eq. split; [done|]. by assert (m = n) as -> by congruence. }
  intros l' e. unfold view. simpl. split.
  - intros (b & m' & Hb & Hm' & ->). destruct (renamed_inv (nodes s) a n x Ha b m' Hm') as [m Hm].
    destruct (tr_reach _ _ H b m Hm) as [l Hl]. destruct (Hold b m Hm) as (m2 & Hm2 & E). assert (m2 = m') as -> by congruence.
    exists l. split; [eapply below_path; [exact H'|exact Hb|by apply Hbelow]|]. exists b, m. by split_and!.
  - intros (l & -> & b & m & Hb & Hm & ->). destruct (Hold b m Hm) as (m' & Hm' & E). exists b, m'. split_and!; try done. by apply Hbelow.
Qed.

Lemma updated_file_view s s' fd pos f n n' c la :
  tree (nodes s) (root s) -> updated_file s s' fd pos f n n' c -> below (nodes s) (root s) la (f_node f) ->
  view_updated s s' la (mk_entry (n_type n) (n_mode n) (n_uid n) (n_gid n) c).
Proof.
  intros H [(s2 & Ht & ->) (Em & Eu & Eg) Ec] Hla. pose proof (touched_view _ _ _ _ _ _ H Ht Hla) as Hv.
  unfold entry_of in Hv. rewrite content_put_fds in Ec. rewrite Em, Eu, Eg, Ec in Hv.
  assert (n_type n' = n_type n) as Et by (pose proof (to_shape _ _ _ _ _ Ht) as E; unfold shape in E; congruence). by rewrite Et in Hv.
Qed.

(** Nothing is below a node without children. *)
Lemma leaf_view s a n cs l e :
  tree (nodes s) (root s) -> nodes s !! a = Some n -> n_children n = 0 -> below (nodes s) (root s) cs a -> view s (cs ++ l) e -> l = [].
Proof.
  intros H Ha Hch Hb (b & m & Hbm & _). revert b Hbm. induction l as [|x l IH] using rev_ind; intros b Hbm; [done|]. exfalso.
  rewrite app_assoc in Hbm. apply below_step in Hbm as (d & k & Hd & Hk & Ep & _). assert (l = []) as -> by by eapply IH.
  rewrite app_nil_r in Hd. assert (d = a) as -> by by eapply below_unique. by eapply (leaf (nodes s) (root s) a n H Ha Hch b k).
Qed.
End RamfsView.
