(* ===== verification/RamfsCalls.v ===== *)
(** The operations on paths: creating, removing, renaming, opening. *)
From Stdlib Require Import ZArith Lia List Bool.
From stdpp Require Import base tactics numbers list gmap.
From S2P Require Import Prelude Pmm CString Ramfs RamfsInv RamfsOps RamfsFs RamfsData RamfsFiles RamfsView.
Open Scope Z_scope.

Module RamfsCalls.
Import Ramfs RamfsInv RamfsOps RamfsFs RamfsData RamfsFiles RamfsView.

Definition valid_path (path : option (list Z)) : Prop := forall p, path = Some p -> CString.chars p.

(** The directory that a path without its last component leads to: the caller
    finds it, and may search and write it. *)
Record parent_of (who : option task) (s : ramfs) (init : list (list Z)) (p : Z) (pn : ramfs_node) : Prop := mk_parent_of {
  po_finds : finds who true (nodes s) (root s) init p; po_node : nodes s !! p = Some pn;
  po_dir : n_type pn = RAMFS_TYPE_DIR; po_search : permits who pn RAMFS_FLAG_EXEC = true; po_write : permits who pn RAMFS_FLAG_WRITE = true }.

(** Nothing has the name yet. *)
Definition free_name (s : ramfs) (p : Z) (x : list Z) : Prop :=
  forall c m, nodes s !! c = Some m -> n_parent m = p -> n_name m <> x.

(** The caller may create something at a path. *)
Definition may_create (who : option task) (s : ramfs) (path : option (list Z)) : Prop :=
  exists init x p pn, components path = Some (init ++ [x]) /\ parent_of who s init p pn /\ free_name s p x.

(** A slot that is free, within the limits of the caller. *)
Definition within_limits (who : option task) (l : list ramfs_fd) : Prop :=
  match who with
  | None => True
  | Some t => count (owned_by t) l < PROCESS_MAX_FDS /\
      (t_euid t <> 0 -> count (held_by (t_uid t)) l < RAMFS_USER_MAX_FDS /\ RAMFS_ROOT_RESERVED_FDS < count (fun f => negb (f_in_use f)) l)
  end.

Lemma free_fd_ok l : forall i, 0 <= i -> free_fd l i = -1 \/ i <= free_fd l i < i + Z.of_nat (length l) /\
  exists f, l !! Z.to_nat (free_fd l i - i) = Some f /\ f_in_use f = false.
Proof.
  induction l as [|f l IH]; intros i Hi; [by left|]. cbn [free_fd]. destruct (f_in_use f) eqn:E.
  - destruct (IH (i + 1)) as [->|(Hr & g & Hg & Eg)]; [lia|by left|right]. cbn [length]. split; [lia|]. exists g.
    replace (Z.to_nat (free_fd l (i + 1) - i)) with (S (Z.to_nat (free_fd l (i + 1) - (i + 1)))) by lia. done.
  - right. cbn [length]. split; [lia|]. exists f. by rewrite Z.sub_diag.
Qed.

Lemma pick_fd_ok s who (Q : Z -> ramfs -> Prop) :
  fds_inv s -> (forall r, r < 0 -> Q r s) ->
  (forall fd f, 0 <= fd < RAMFS_MAX_FDS -> file_descriptors s !! Z.to_nat fd = Some f -> f_in_use f = false ->
    within_limits who (file_descriptors s) -> Q fd s) -> wp (ramfs_pick_fd who) Q s.
Proof.
  intros [Hl _] Hneg HQ. apply wp_bind, wp_gets. cbv zeta. pose proof (free_fd_ok (file_descriptors s) 0 (Z.le_refl 0)) as Hfree.
  set (fd := free_fd _ 0) in *. destruct (Z.ltb_spec fd 0); [by apply wp_ret, Hneg|]. destruct Hfree as [?|(Hfd & f & Hf & Ef)]; [lia|].
  rewrite Z.sub_0_r in Hf. rewrite Hl in Hfd. assert (within_limits who (file_descriptors s) -> Q fd s) as HQ' by (intros; by apply (HQ fd f)).
  destruct who as [t|]; [|by apply wp_ret, HQ']. destruct (Z.leb_spec PROCESS_MAX_FDS (count (owned_by t) (file_descriptors s))); [by apply wp_ret, Hneg|].
  destruct (Z.eqb_spec (t_euid t) 0); cbn [negb andb]; [by apply wp_ret, HQ'|].
  destruct (Z.leb_spec RAMFS_USER_MAX_FDS (count (held_by (t_uid t)) (file_descriptors s))); cbn [orb]; [by apply wp_ret, Hneg|].
  destruct (Z.leb_spec (count (fun f => negb (f_in_use f)) (file_descriptors s)) RAMFS_ROOT_RESERVED_FDS); [by apply wp_ret, Hneg|by apply wp_ret, HQ'].
Qed.

Section Calls.
Context (s : ramfs) (H : fs_inv s) (who : option task) (path : option (list Z)) (Hpath : valid_path path).
Notation tr := (fi_tree _ H).
Notation sz := (proj2 (fi_total _ H)).

Lemma path_cases : path = None \/ exists q, path = Some q.
Proof. destruct path; eauto. Qed.
Lemma nothing : path = None -> ~ may_create who s path.
Proof. intros -> (? & ? & ? & ? & ? & _). done. Qed.

Lemma find_ok hide (Q : Z -> ramfs -> Prop) :
  (forall a, found_at s who hide path a -> Q a s) -> wp (ramfs_lookup_locked who path hide) Q s.
Proof. apply lookup_ok; [apply tr|apply sz|done]. Qed.

(** A path that leads to something leaves nothing to create. *)
Lemma found_taken hide a : found_at s who hide path a -> a <> 0 -> ~ may_create who s path.
Proof.
  intros Hf Ha (init & x & p & pn & Ec & [Hp Hpn _ _ _] & Hfree). unfold found_at in Hf. rewrite Ec in Hf. unfold looked in Hf.
  destruct (decide (a = 0)); [done|]. apply (finds_path who hide _ (root s) [] (root s)) in Hf; [|constructor].
  apply below_step in Hf as (d & m & Hd & Hm & Ep & En). apply (Hfree a m Hm); [|done].
  apply (finds_path who true _ (root s) [] (root s)) in Hp; [|constructor]. rewrite Ep. eapply below_unique; [apply tr|done|done].
Qed.

Lemma found_none hide cs : found_at s who hide path 0 -> components path = Some cs -> looked s who hide (root s) cs 0.
Proof. intros Hf Ec. unfold found_at in Hf. by rewrite Ec in Hf. Qed.

(** The components of a path that names no node. *)
Lemma components_split p : path = Some p -> found_at s who true path 0 -> components path = split_path p 16.
Proof.
  intros -> Hf. unfold found_at, components in *. destruct (decide (p = [47])); [|done]. unfold looked in Hf.
  destruct (decide (0 = 0)) as [_|]; [|done]. exfalso. eapply Hf. constructor.
Qed.

Lemma leads_parent cs p : leads s who (root s) cs p -> exists init x pn, cs = init ++ [x] /\ List.last cs [] = x /\
  finds who true (nodes s) (root s) init p /\ nodes s !! p = Some pn /\ n_type pn = RAMFS_TYPE_DIR /\ permits who pn RAMFS_FLAG_EXEC = true.
Proof. intros (init & x & pn & -> & Hf & Hp & Ht & Hx). exists init, x, pn. by rewrite List.last_last. Qed.

Lemma no_leads cs : components path = Some cs -> (forall p, ~ leads s who (root s) cs p) -> ~ may_create who s path.
Proof.
  intros Ec Hno (init & x & p & pn & Ec' & [? ? ? ? ?] & _). rewrite Ec in Ec'. injection Ec' as ->. apply (Hno p). by exists init, x, pn.
Qed.

(** The walk leads to the one directory there is. *)
Lemma leads_may init x p pn : components path = Some (init ++ [x]) -> finds who true (nodes s) (root s) init p -> nodes s !! p = Some pn ->
  may_create who s path -> permits who pn RAMFS_FLAG_WRITE = true /\ free_name s p x.
Proof.
  intros Ec Hf Hp (init' & x' & p' & pn' & Ec' & [Hf' Hp' _ _ Hw] & Hfree). rewrite Ec in Ec'. injection Ec' as [-> ->]%app_inj_tail.
  apply (finds_path who true _ (root s) [] (root s)) in Hf, Hf'; [|constructor..].
  assert (p' = p) as -> by (eapply below_unique; [apply tr|done|done]). split; [congruence|done].
Qed.

(** Nothing happened, and there was nothing to create, or no room. *)
Definition refused (s' : ramfs) : Prop :=
  fs_inv s' /\ same_files s s' /\ (may_create who s path -> total_nodes s = RAMFS_MAX_FILES \/ full (frames s')).

Lemma refused_here : ~ may_create who s path -> refused s.
Proof. intros Hno. split; [done|]. split; [by repeat split|done]. Qed.

(** [type] was created at the path. *)
Definition created_at (type : Z) (s' : ramfs) (a : Z) : Prop :=
  let '(uid, gid) := ramfs_get_current_credentials who in
  fs_inv s' /\ exists init x p pn, components path = Some (init ++ [x]) /\ parent_of who s init p pn /\ free_name s p x /\
    created s s' p a pn (new_node x type uid gid p (n_children pn)).

Context (map_page : Z -> M Pmm.pmm unit).
Context (Hmap : forall a m, Pmm.pmm_inv m -> wp (map_page a) (fun _ m' =>
  Pmm.pmm_inv m' /\ forall i, Pmm.is_frame i -> Pmm.used m i = true -> Pmm.used m' i = true) m).

Lemma create_at_ok {A} type init x p pn (k1 : M ramfs A) (k2 : Z -> M ramfs A) (Q : A -> ramfs -> Prop) uid gid :
  ramfs_get_current_credentials who = (uid, gid) -> components path = Some (init ++ [x]) -> parent_of who s init p pn -> free_name s p x ->
  (forall s', refused s' -> wp k1 Q s') -> (forall a s', created_at type s' a -> a <> 0 -> wp (k2 a) Q s') ->
  wp (a <- alloc_node map_page x type uid gid ;; if a =? 0 then k1 else link_child p a ;;; k2 a) Q s.
Proof.
  intros Ecred Ec Hpo Hfree H1 H2. pose proof Hpo as [Hf Hp Ht Hx Hw]. assert (component x) as Hcx.
  { destruct path as [q|]; [|done]. specialize (Hpath q eq_refl). unfold components in Ec. destruct (decide (q = [47])); [injection Ec as Ec; by destruct init|].
    pose proof (split_path_ok q 16 _ Hpath Ec) as HF. apply Forall_app in HF as [_ HF]. by apply Forall_cons in HF as [? _]. }
  apply (create_ok map_page Hmap s p pn); try done.
  - intros s' Hs Hi Hfull. by apply H1.
  - intros a s' Hcr Hi. apply H2; [|by apply Hcr]. unfold created_at. rewrite Ecred. split; [done|]. by exists init, x, p, pn.
Qed.

Lemma child_room p pn : nodes s !! p = Some pn -> (RAMFS_MAX_CHILDREN_PER_DIR <=? n_child_count pn) = false.
Proof. intros Hp. pose proof (child_count_range s p pn H Hp). unfold RAMFS_MAX_CHILDREN_PER_DIR. lia. Qed.

Lemma ramfs_mkdir_ok (Q : Z -> ramfs -> Prop) :
  (forall r s', r < 0 -> refused s' -> Q r s') -> (forall a s', created_at RAMFS_TYPE_DIR s' a -> Q 0 s') ->
  wp (ramfs_mkdir map_page who path) Q s.
Proof.
  intros Hno Hyes. assert (forall r, r < 0 -> ~ may_create who s path -> wp (ret r) Q s) as Hret.
  { intros r Hr Hm. apply wp_ret, Hno; [done|]. by apply refused_here. }
  unfold ramfs_mkdir. apply wp_bind, wp_gets. destruct path_cases as [Epath|[q Epath]]; rewrite Epath; [by apply Hret; [|apply nothing]|].
  rewrite <- Epath. destruct (Z.eqb_spec (root s) 0) as [E0|_]; [by apply root_nonzero in E0; [|apply tr]|].
  destruct (ramfs_get_current_credentials who) as [uid gid] eqn:Ecred.
  apply wp_bind, find_ok. intros a Ha. destruct (Z.eqb_spec a 0) as [->|Ha0]; cbn [negb]; [|apply Hret; [done|by eapply found_taken]].
  pose proof (components_split q Epath Ha) as Ec. destruct (split_path q 16) as [cs|] eqn:Es.
  2: { apply Hret; [done|]. intros (? & ? & ? & ? & Ec' & _). congruence. }
  destruct (Z.eqb_spec (Z.of_nat (length cs)) 0) as [El|El].
  { apply Hret; [done|]. intros (init & ? & ? & ? & Ec' & _). rewrite Ec in Ec'. injection Ec' as ->. rewrite length_app in El. simpl in El. lia. }
  assert (Forall component cs) as Hcs by (eapply split_path_ok; [by apply Hpath|done]).
  apply wp_bind, walk_to_parent_ok; [apply tr|apply sz|done|by destruct cs|].
  intros [p| | |] Hw; try (apply Hret; [done|by eapply no_leads]).
  destruct (leads_parent cs p Hw) as (init & x & pn & -> & Elast & Hf & Hp & Ht & Hx). rewrite Elast.
  apply wp_bind, (permits_ok s tr who p pn); [done|]. destruct (permits who pn RAMFS_FLAG_WRITE) eqn:Ew; cbn [negb].
  2: { apply Hret; [done|]. intros Hm. apply (leads_may init x p pn) in Hm as [? _]; [congruence|done..]. }
  apply wp_bind, find_ok. intros b Hb. destruct (Z.eqb_spec b 0) as [->|Hb0]; cbn [negb]; [|apply Hret; [done|by eapply found_taken]].
  apply wp_bind, (node_get_ok s tr p pn); [done|]. rewrite (child_room p pn) by done.
  apply (create_at_ok RAMFS_TYPE_DIR init x p pn); [done|done|done| |intros s' Hs; by apply wp_ret, Hno|intros a s' Hs _; by eapply wp_ret, Hyes].
  unfold free_name. eapply walked_free; [done..|]. by eapply found_none.
Qed.

(** * Removing and renaming *)

Lemma found_live hide a : found_at s who hide path a -> a <> 0 ->
  exists cs n, components path = Some cs /\ finds who hide (nodes s) (root s) cs a /\ below (nodes s) (root s) cs a /\ nodes s !! a = Some n.
Proof.
  intros Hf Ha. unfold found_at in Hf. destruct (components path) as [cs|]; [|done]. unfold looked in Hf. destruct (decide (a = 0)) as [|_]; [done|].
  pose proof (finds_path who hide _ (root s) [] (root s) cs a (below_root _ _) Hf) as Hb. destruct (below_live _ _ _ _ tr Hb) as [n Hn]. by exists cs, n.
Qed.

Lemma parent_live a n : nodes s !! a = Some n -> a <> root s -> exists pn, nodes s !! n_parent n = Some pn /\ n_parent n <> 0.
Proof. intros Ha Har. destruct (tree_parent _ _ a n tr Ha Har) as [pn Hpn]. exists pn. split; [done|]. by eapply live_nonzero; [apply tr|]. Qed.

Lemma file_leaf a n : nodes s !! a = Some n -> n_type n = RAMFS_TYPE_FILE -> n_children n = 0.
Proof.
  intros Ha Ht. destruct (tr_kids _ _ tr a n Ha) as (l & Hc & _ & _ & Hl). rewrite Hl in Hc by (by rewrite Ht). done.
Qed.

(** What was removed: a file, or a directory without entries, that the caller
    finds in a directory it may write, and that nobody has open. *)
Record removal (external_busy : Z -> bool) (type : Z) (s' : ramfs) : Prop := mk_removal {
  re_inv : fs_inv s';
  re_what : exists cs a n pn, components path = Some cs /\ finds who true (nodes s) (root s) cs a /\ below (nodes s) (root s) cs a /\
    nodes s !! a = Some n /\ n_type n = type /\ n_children n = 0 /\ nodes s !! n_parent n = Some pn /\ permits who pn RAMFS_FLAG_WRITE = true /\
    external_busy a = false /\ unused s a /\ deleted s s' a n }.

Lemma removal_ok external_busy a n type (k : Z) corrupt (Q : Z -> ramfs -> Prop) :
  found_at s who true path a -> a <> 0 -> a <> root s -> nodes s !! a = Some n -> n_type n = type -> n_children n = 0 -> k < 0 ->
  (forall r, r < 0 -> Q r s) -> (forall s', removal external_busy type s' -> Q 0 s') ->
  wp (ok <- node_permits who (n_parent n) RAMFS_FLAG_WRITE ;;
      if negb ok then ret k else remove_node external_busy (n_parent n) a corrupt) Q s.
Proof.
  intros Hf Ha0 Har Ha Ht Hch Hk Hno Hyes. destruct (found_live true a Hf Ha0) as (cs & n' & Ec & Hfs & Hb & Hn'). clear Hn'.
  destruct (parent_live a n Ha Har) as (pn & Hpn & Hp0). apply wp_bind, (permits_ok s tr who (n_parent n) pn); [done|].
  destruct (permits who pn RAMFS_FLAG_WRITE) eqn:Ew; cbn [negb]; [|by apply wp_ret, Hno].
  apply (remove_ok external_busy s (n_parent n) a pn n); try done; [by apply Hno|]. intros s' Hi Hext Hun Hdel. apply Hyes.
  constructor; [done|]. exists cs, a, n, pn. by split_and!.
Qed.

Lemma ramfs_unlink_ok external_busy (Q : Z -> ramfs -> Prop) :
  (forall r, r < 0 -> Q r s) -> (forall s', removal external_busy RAMFS_TYPE_FILE s' -> Q 0 s') -> wp (ramfs_unlink external_busy who path) Q s.
Proof.
  intros Hno Hyes. unfold ramfs_unlink. apply wp_bind, find_ok. intros a Ha. apply wp_bind, wp_gets.
  destruct (Z.eqb_spec a 0) as [->|Ha0]; cbn [orb]; [by apply wp_ret, Hno|]. destruct (Z.eqb_spec a (root s)) as [->|Har]; [by apply wp_ret, Hno|].
  destruct (found_live true a Ha Ha0) as (cs & n & _ & _ & _ & Hn). apply wp_bind, (node_get_ok s tr a n); [done|].
  destruct (Z.eqb_spec (n_type n) RAMFS_TYPE_FILE) as [Et|]; cbn [negb]; [|by apply wp_ret, Hno].
  destruct (Z.eqb_spec (n_parent n) 0); [by apply wp_ret, Hno|]. apply (removal_ok external_busy a n RAMFS_TYPE_FILE); try done. by eapply file_leaf.
Qed.

Lemma ramfs_rmdir_ok external_busy (Q : Z -> ramfs -> Prop) :
  (forall r, r < 0 -> Q r s) -> (forall s', removal external_busy RAMFS_TYPE_DIR s' -> Q 0 s') -> wp (ramfs_rmdir external_busy who path) Q s.
Proof.
  intros Hno Hyes. unfold ramfs_rmdir. apply wp_bind, find_ok. intros a Ha. apply wp_bind, wp_gets.
  destruct (Z.eqb_spec a 0) as [->|Ha0]; cbn [orb]; [by apply wp_ret, Hno|]. destruct (Z.eqb_spec a (root s)) as [->|Har]; [by apply wp_ret, Hno|].
  destruct (found_live true a Ha Ha0) as (cs & n & _ & _ & _ & Hn). apply wp_bind, (node_get_ok s tr a n); [done|].
  destruct (Z.eqb_spec (n_type n) RAMFS_TYPE_DIR) as [Et|]; cbn [negb]; [|by apply wp_ret, Hno].
  destruct (Z.eqb_spec (n_children n) 0) as [Ech|]; cbn [negb]; [|by apply wp_ret, Hno].
  destruct (Z.eqb_spec (n_parent n) 0); [by apply wp_ret, Hno|]. by apply (removal_ok external_busy a n RAMFS_TYPE_DIR).
Qed.

(** A mode changes. *)
Lemma ramfs_chmod_ok mode (Q : Z -> ramfs -> Prop) :
  (forall r, r < 0 -> Q r s) ->
  (forall cs a n s', components path = Some cs -> finds who true (nodes s) (root s) cs a -> below (nodes s) (root s) cs a -> nodes s !! a = Some n ->
    (let '(uid, _) := ramfs_get_current_credentials who in uid = 0 \/ uid = n_uid n) -> fs_inv s' ->
    touched s s' a n (put_mode (Z.land mode RAMFS_PERM_MASK) n) -> pages s' = pages s -> Q 0 s') ->
  wp (ramfs_chmod who path mode) Q s.
Proof.
  intros Hno Hyes. unfold ramfs_chmod. apply wp_bind, find_ok. intros a Ha. destruct (Z.eqb_spec a 0) as [->|Ha0]; [by apply wp_ret, Hno|].
  destruct (found_live true a Ha Ha0) as (cs & n & Ec & Hf & Hb & Hn). destruct (ramfs_get_current_credentials who) as [uid gid].
  apply wp_bind, (node_get_ok s tr a n); [done|].
  destruct (negb (uid =? 0) && negb (uid =? n_uid n)) eqn:Eu; [by apply wp_ret, Hno|].
  apply wp_bind, (node_upd_at s a n); [by eapply live_nonzero; [apply tr|]|done|]. set (n' := put_mode _ n).
  assert (touched s (put_nodes (<[a := n']> (nodes s)) s) a n n') as Ht
    by (apply touched_attr; try done;
      [apply (fi_data _ H)|apply (fi_mem _ H)|apply (di_shape _ (fi_data _ H) a n Hn)|apply (di_backed _ (fi_data _ H) a n Hn)]).
  apply wp_ret, (Hyes cs a n); try done; [lia|]. eapply touched_inv; [exact H|exact Ht|]. intros off. apply (fi_zero _ H a n off Hn).
Qed.

(** * Opening *)

Lemma open_locate_ok flags (Q : Z + Z -> ramfs -> Prop) :
  (forall e s', e < 0 -> fs_inv s' -> same_files s s' -> Q (inl e) s') ->
  (forall a, a <> 0 -> found_at s who true path a -> Q (inr a) s) ->
  (forall a s', created_at RAMFS_TYPE_FILE s' a -> has flags RAMFS_FLAG_WRITE = true -> Q (inr a) s') ->
  wp (open_locate map_page who path flags) Q s.
Proof.
  intros Hno Hold Hnew. assert (forall e, e < 0 -> wp (ret (inl e)) Q s) as Hret by (intros e He; apply wp_ret, Hno; [done|done|by repeat split]).
  unfold open_locate. apply wp_bind, wp_gets. destruct path_cases as [Epath|[q Epath]]; rewrite Epath; [by apply Hret|]. rewrite <- Epath.
  destruct (Z.eqb_spec (root s) 0); [by apply Hret|]. destruct (ramfs_get_current_credentials who) as [uid gid] eqn:Ecred.
  apply wp_bind, pick_fd_ok; [apply H|intros r Hr; destruct (Z.ltb_spec r 0); [by apply Hret|lia]|].
  intros fd f Hfd _ _ _. destruct (Z.ltb_spec fd 0); [lia|].
  apply wp_bind, find_ok. intros a Ha. destruct (Z.eqb_spec a 0) as [->|Ha0]; cbn [negb andb]; [|by apply wp_ret, Hold].
  destruct (has flags RAMFS_FLAG_WRITE) eqn:Ew; cbn [negb]; [|by apply Hret]. apply wp_bind, find_ok. intros a' Ha'.
  destruct (Z.eqb_spec a' 0) as [->|Ha0]; cbn [negb]; [clear Ha'|by apply wp_ret, Hold].
  pose proof (components_split q Epath Ha) as Ec. destruct (split_path q 16) as [cs|] eqn:Es; [|by apply Hret].
  destruct (Z.eqb_spec (Z.of_nat (length cs)) 0) as [El|El]; [by apply Hret|].
  assert (Forall component cs) as Hcs by (eapply split_path_ok; [by apply Hpath|done]).
  apply wp_bind, walk_to_parent_ok; [apply tr|apply sz|done|by destruct cs|]. intros [p| | |] Hw; try by apply Hret.
  destruct (leads_parent cs p Hw) as (init & x & pn & -> & Elast & Hf & Hp & Ht & Hx). rewrite Elast.
  apply wp_bind, (node_get_ok s tr p pn); [done|]. rewrite (child_room p pn) by done.
  apply wp_bind, (permits_ok s tr who p pn); [done|]. destruct (permits who pn RAMFS_FLAG_WRITE) eqn:Epw; cbn [negb]; [|by apply Hret].
  apply wp_bind, find_ok. intros b Hb. destruct (Z.eqb_spec b 0) as [->|Hb0]; cbn [negb]; [|by apply Hret].
  apply (create_at_ok RAMFS_TYPE_FILE init x p pn); [done|done|done| | |].
  - unfold free_name. eapply walked_free; [done..|]. by eapply found_none.
  - intros s' (Hi & Hs & _). by apply wp_ret, Hno.
  - intros a s' Hs _. by apply wp_ret, Hnew.
Qed.
End Calls.

(** The new descriptor. *)
Definition opened (who : option task) (node flags : Z) : ramfs_fd :=
  mk_fd node 0 flags true (negb (has flags RAMFS_FLAG_INHERIT)) 1 (match who with Some t => t_pid t | None => 0 end)
    (match who with Some t => t_generation t | None => 0 end) (match who with Some t => t_uid t | None => 0 end).

Lemma open_claim_ok s who a n flags (Q : Z -> ramfs -> Prop) :
  fs_inv s -> nodes s !! a = Some n -> (forall r, r < 0 -> Q r s) ->
  (forall fd s', 0 <= fd < RAMFS_MAX_FDS -> fd_at s fd = None -> n_type n = RAMFS_TYPE_FILE -> permits who n flags = true ->
    within_limits who (file_descriptors s) -> s' = put_fds (<[Z.to_nat fd := opened who a flags]> (file_descriptors s)) s -> fs_inv s' -> Q fd s') ->
  wp (open_claim who a flags) Q s.
Proof.
  intros H Ha Hneg HQ. unfold open_claim, permits in *. destruct (ramfs_get_current_credentials who) as [uid gid].
  pose proof (live_nonzero s (fi_tree _ H) a n Ha) as Ha0. apply wp_bind, (node_get_at s a n); [done..|].
  destruct (has flags RAMFS_FLAG_NOFOLLOW && _); [by apply wp_ret, Hneg|].
  destruct (Z.eqb_spec (n_type n) RAMFS_TYPE_FILE) as [Et|]; cbn [negb]; [|by apply wp_ret, Hneg].
  destruct (ramfs_check_permission who n uid gid flags) eqn:Ep; cbn [negb]; [|by apply wp_ret, Hneg].
  apply wp_bind, pick_fd_ok; [apply H|intros r Hr; destruct (Z.ltb_spec r 0); [by apply wp_ret, Hneg|lia]|].
  intros fd f Hfd Hf Eu Hlim. destruct (Z.ltb_spec fd 0); [lia|]. apply wp_bind, fd_put_ok; [apply H|done|].
  apply wp_ret, HQ; try done.
  - unfold fd_at. destruct (decide _); [|done]. by rewrite Hf, Eu.
  - apply fd_put_inv; [done|]. intros _. exists n. cbn. split_and!; try done. intros k Hk. unfold RAMFS_PAGE_SIZE in Hk. lia.
Qed.

(** The node is there, or was created. *)
Inductive located (who : option task) (path : option (list Z)) (flags : Z) (s : ramfs) : ramfs -> Z -> Prop :=
| located_old a : a <> 0 -> found_at s who true path a -> located who path flags s s a
| located_new a s1 : created_at s who path RAMFS_TYPE_FILE s1 a -> has flags RAMFS_FLAG_WRITE = true -> located who path flags s s1 a.

Record opening (who : option task) (path : option (list Z)) (flags : Z) (s : ramfs) (fd : Z) (s' s1 : ramfs) (a : Z) (n : ramfs_node) : Prop := mk_opening {
  op_located : located who path flags s s1 a; op_node : nodes s1 !! a = Some n; op_type : n_type n = RAMFS_TYPE_FILE;
  op_permits : permits who n flags = true; op_fd : 0 <= fd < RAMFS_MAX_FDS; op_free : fd_at s fd = None;
  op_limits : within_limits who (file_descriptors s);
  op_state : s' = put_fds (<[Z.to_nat fd := opened who a flags]> (file_descriptors s)) s1; op_inv : fs_inv s' }.

(** The digits are characters. *)
Lemma random_hex_chars bytes : Forall (fun b => 0 <= b < 256) bytes -> CString.chars (random_hex bytes).
Proof.
  assert (forall x, 0 <= x < 16 -> 0 < hex x < 256) as Hh by (intros x Hx; unfold hex; destruct (Z.ltb_spec x 10); lia).
  assert (forall b, 0 <= Z.land b 15 < 16) as Hl by (intros b; change 15 with (Z.ones 4); rewrite Z.land_ones by lia; by apply Z.mod_pos_bound).
  unfold random_hex. induction 1 as [|b l Hb H IH]; [constructor|]. cbn [map concat]. apply Forall_app. split; [|done].
  repeat apply Forall_cons_2; try (by apply Hh); constructor.
Qed.

Lemma temp_path_chars dir bytes : CString.chars dir -> Forall (fun b => 0 <= b < 256) bytes -> CString.chars (temp_path dir bytes).
Proof.
  intros Hd Hb. unfold temp_path.
  assert (CString.chars (take 63 (take 63 dir ++ random_hex bytes))) as Hc.
  { apply Forall_take, Forall_app. split; [by apply Forall_take|by apply random_hex_chars]. }
  destruct (_ <? 59); [|done]. apply Forall_app. split; [done|]. repeat (apply Forall_cons_2 || apply Forall_nil_2); done.
Qed.

Section Open.
Context (map_page : Z -> M Pmm.pmm unit).
Context (Hmap : forall a m, Pmm.pmm_inv m -> wp (map_page a) (fun _ m' =>
  Pmm.pmm_inv m' /\ forall i, Pmm.is_frame i -> Pmm.used m i = true -> Pmm.used m' i = true) m).

Lemma created_at_fds s who path type s' a : created_at s who path type s' a -> file_descriptors s' = file_descriptors s.
Proof. unfold created_at. destruct (ramfs_get_current_credentials who). intros (_ & ? & ? & ? & ? & _ & _ & _ & Hcr). apply Hcr. Qed.

Lemma created_at_node s who path type s' a : created_at s who path type s' a -> fs_inv s' /\ exists n, nodes s' !! a = Some n /\ nodes s !! a = None.
Proof.
  unfold created_at. destruct (ramfs_get_current_credentials who). intros (Hi & init & x & p & pn & _ & [] & _ & Hcr). split; [done|].
  eexists. split; [|apply Hcr]. rewrite (cr_nodes _ _ _ _ _ _ Hcr). apply added_new with (pn := pn); apply Hcr.
Qed.

Lemma ramfs_open_ok s who path flags (Q : Z -> ramfs -> Prop) :
  fs_inv s -> valid_path path ->
  (forall r s', r < 0 -> fs_inv s' -> same_files s s' \/ (exists a, created_at s who path RAMFS_TYPE_FILE s' a) -> Q r s') ->
  (forall fd s' s1 a n, opening who path flags s fd s' s1 a n -> Q fd s') ->
  wp (ramfs_open map_page who path flags) Q s.
Proof.
  intros H Hpath Hno Hyes. assert (same_files s s) as Hsame by by repeat split. apply wp_bind, (open_locate_ok s H who path Hpath map_page Hmap).
  - intros e s' He Hi Hs. apply wp_ret, Hno; [done|done|by left].
  - intros a Ha0 Ha. destruct (found_live s H who path true a Ha Ha0) as (cs & n & _ & _ & _ & Hn).
    apply (open_claim_ok s who a n); [done|done|intros r Hr; apply Hno; [done|done|by left]|].
    intros fd s' ? ? ? ? ? -> ?. apply (Hyes fd _ s a n). constructor; try done. by apply located_old.
  - intros a s1 Ha Hw. destruct (created_at_node _ _ _ _ _ _ Ha) as (Hi & n & Hn & _). pose proof (created_at_fds _ _ _ _ _ _ Ha) as Ef.
    apply (open_claim_ok s1 who a n); [done|done|intros r Hr; apply Hno; [done|done|right; by exists a]|].
    intros fd s' ? Hfree ? ? ? -> ?. rewrite Ef in *. apply (Hyes fd _ s1 a n). constructor; try done; [by apply located_new|].
    unfold fd_at in *. by rewrite Ef in Hfree.
Qed.

(** A temporary file is never one that was there. *)
Lemma ramfs_mkstemps_ok s who buf_size bytes (Q : Z * list Z -> ramfs -> Prop) :
  fs_inv s -> (forall t, who = Some t -> CString.chars (t_private_tmp_dir t)) -> Forall (fun b => 0 <= b < 256) bytes ->
  (forall r s', r < 0 -> fs_inv s' -> Q (r, []) s') ->
  (forall t fd s' s1 a n, who = Some t -> let path := Some (temp_path (t_private_tmp_dir t) bytes) in
    opening who path (Z.lor RAMFS_FLAG_READ RAMFS_FLAG_WRITE) s fd s' s1 a n -> created_at s who path RAMFS_TYPE_FILE s1 a ->
    Q (fd, temp_path (t_private_tmp_dir t) bytes) s') ->
  wp (ramfs_mkstemps map_page who buf_size bytes) Q s.
Proof.
  intros H Hdir Hbytes Hno Hyes. unfold ramfs_mkstemps. destruct (buf_size <? 64); [by apply wp_ret, Hno|].
  destruct who as [t|] eqn:Ewho; [|by apply wp_ret, Hno]. rewrite <- Ewho in *. specialize (Hdir t Ewho).
  set (path := temp_path _ _) in *.
  assert (valid_path (Some path)) as Hpath.
  { intros p [= <-]. by apply temp_path_chars. }
  apply wp_bind, find_ok; [done|done|]. intros a Ha. destruct (Z.eqb_spec a 0) as [->|Ha0]; cbn [negb]; [|by apply wp_ret, Hno].
  apply wp_bind, ramfs_open_ok; [done|done| |].
  - intros r s' Hr Hi _. destruct (Z.ltb_spec r 0); [by apply wp_ret, Hno|lia].
  - intros fd s' s1 b n Hop. pose proof (op_fd _ _ _ _ _ _ _ _ _ Hop). destruct (Z.ltb_spec fd 0); [lia|].
    apply wp_ret, (Hyes t fd s' s1 b n); try done. destruct (op_located _ _ _ _ _ _ _ _ _ Hop) as [b Hb0 Hb|]; [|done].
    exfalso. unfold found_at in *. destruct (components _); [|done]. unfold looked in *. destruct (decide (b = 0)), (decide (0 = 0)); try done.
    by apply (Ha b).
Qed.
End Open.

(** * Renaming *)

Lemma rename_inv s a n x :
  fs_inv s -> nodes s !! a = Some n -> a <> root s -> component x -> free_name s (n_parent n) x ->
  fs_inv (put_nodes (renamed (nodes s) a n x) s).
Proof.
  intros H Ha Har Hx Hfree. pose proof (fi_data _ H) as Hd. destruct (attr_data s a n (put_name x n)) as [Hd' Hm']; try done.
  { apply (fi_mem _ H). } { apply (di_shape _ Hd a n Ha). } { apply (di_backed _ Hd a n Ha). }
  constructor; try done.
  - by apply (tree_renamed (nodes s) (root s) (n_parent n) a n x (fi_tree _ H)).
  - unfold renamed. simpl. rewrite map_size_insert_Some by by eexists. apply H.
  - intros b m off Hb Hs. unfold renamed in Hb. simpl in Hb. destruct (decide (b = a)) as [->|Hne].
    + rewrite lookup_insert_eq in Hb. injection Hb as <-. by apply (fi_zero _ H a n).
    + rewrite lookup_insert_ne in Hb by done. by apply (fi_zero _ H b m).
  - destruct (fi_fds _ H) as [Hl Hlive]. constructor; [done|]. intros i f Hf Hu. destruct (Hlive i f Hf Hu) as (m & Hm & Hrest).
    unfold renamed. simpl. destruct (decide (f_node f = a)) as [E|Hne].
    + rewrite E, lookup_insert_eq. exists (put_name x n). split; [done|]. by assert (m = n) as -> by congruence.
    + rewrite lookup_insert_ne by done. by exists m.
Qed.

(** The last name of [old_path] becomes that of [new_path], which leads into the
    same directory. *)
Record renaming (who : option task) (old_path new_path : option (list Z)) (s s' : ramfs) : Prop := mk_renaming {
  rn_inv : fs_inv s';
  rn_what : exists cs init x a n pn, components old_path = Some cs /\ components new_path = Some (init ++ [x]) /\
    finds who true (nodes s) (root s) cs a /\ below (nodes s) (root s) cs a /\ nodes s !! a = Some n /\ a <> root s /\
    parent_of who s init (n_parent n) pn /\ free_name s (n_parent n) x /\ component x /\
    s' = put_nodes (renamed (nodes s) a n x) s }.

Lemma ramfs_rename_ok s who old_path new_path (Q : Z -> ramfs -> Prop) :
  fs_inv s -> valid_path old_path -> valid_path new_path ->
  (forall r, r < 0 -> Q r s) -> (forall s', renaming who old_path new_path s s' -> Q 0 s') -> wp (ramfs_rename who old_path new_path) Q s.
Proof.
  intros H Hold Hnew Hno Hyes. unfold ramfs_rename. destruct old_path as [op|] eqn:Eop; [|by apply wp_ret, Hno].
  destruct new_path as [np|] eqn:Enp; [|by apply wp_ret, Hno]. rewrite <- Eop, <- Enp in *. pose proof (fi_tree _ H) as Ht.
  apply wp_bind, find_ok; [done..|]. intros a Ha. apply wp_bind, wp_gets.
  destruct (Z.eqb_spec a 0) as [->|Ha0]; cbn [orb]; [by apply wp_ret, Hno|]. destruct (Z.eqb_spec a (root s)) as [->|Har]; [by apply wp_ret, Hno|].
  destruct (found_live s H who old_path true a Ha Ha0) as (cs & n & Ec & Hf & Hb & Hn).
  apply wp_bind, find_ok; [done..|]. intros b Hbn. destruct (Z.eqb_spec b 0) as [->|]; cbn [negb]; [|by apply wp_ret, Hno].
  apply wp_bind, (node_get_ok s Ht a n); [done|]. destruct (Z.eqb_spec (n_parent n) 0); [by apply wp_ret, Hno|].
  destruct (parent_live s H a n Hn Har) as (pn & Hpn & _). apply wp_bind, (permits_ok s Ht who (n_parent n) pn); [done|].
  destruct (permits who pn RAMFS_FLAG_WRITE) eqn:Ew; cbn [negb]; [|by apply wp_ret, Hno].
  pose proof (components_split s who new_path Hnew np Enp Hbn) as Ecn. destruct (split_path np 16) as [cn|] eqn:Es; [|by apply wp_ret, Hno].
  destruct (Z.eqb_spec (Z.of_nat (length cn)) 0); [by apply wp_ret, Hno|].
  assert (Forall component cn) as Hcn by (eapply split_path_ok; [by apply Hnew|done]).
  apply wp_bind, walk_to_parent_ok; [done|apply (fi_total _ H)|done|by destruct cn|]. intros [p| | |] Hw; try by apply wp_ret, Hno.
  destruct (Z.eqb_spec p (n_parent n)) as [->|]; cbn [negb]; [|by apply wp_ret, Hno].
  destruct (leads_parent s who cn (n_parent n) Hw) as (init & x & pn' & -> & Elast & Hfp & Hp' & Htp & Hxp). assert (pn' = pn) as -> by congruence.
  apply wp_bind, find_ok; [done..|]. intros c Hc. destruct (Z.eqb_spec c 0) as [->|]; cbn [negb]; [|by apply wp_ret, Hno].
  assert (free_name s (n_parent n) x) as Hfree by (unfold free_name; eapply walked_free; [done..|]; by eapply found_none).
  assert (component x) as Hx by (apply Forall_app in Hcn as [_ Hcn]; by apply Forall_cons in Hcn as [? _]).
  rewrite Elast. apply wp_bind, (node_upd_at s a n); [done..|]. apply wp_ret, Hyes. constructor; [by apply rename_inv|].
  exists cs, init, x, a, n, pn. by split_and!.
Qed.

(** * Listing *)

Lemma list_collect_ok s k : forall p l (Q : list Z -> ramfs -> Prop), chain (nodes s) p l -> Q (take k l) s -> wp (collect k p) Q s.
Proof.
  induction k as [|k IH]; intros p l Q Hc HQ; cbn [collect]; [by apply wp_ret|]. destruct l as [|a l].
  - simpl in Hc. subst. by apply wp_ret.
  - destruct Hc as (-> & Ha0 & n & Ha & Hc). destruct (Z.eqb_spec a 0); [done|]. apply wp_bind, (node_get_at s a n); [done..|].
    apply wp_bind, (IH _ l); [done|]. by apply wp_ret.
Qed.

(** The entries of a directory that the caller finds and may read. *)
Record listing (who : option task) (path : option (list Z)) (max : Z) (s : ramfs) (a : Z) (l : list Z) : Prop := mk_listing {
  li_found : found_at s who true path a; li_nonzero : a <> 0;
  li_node : exists n, nodes s !! a = Some n /\ permits who n RAMFS_FLAG_READ = true /\
    if decide (n_type n = RAMFS_TYPE_DIR) then exists l0, kids (nodes s) a l0 /\ l = take (Z.to_nat max) l0 else l = [] }.

Lemma ramfs_list_ok s who path max (Q : Z * Z * list Z -> ramfs -> Prop) :
  fs_inv s -> valid_path path -> (found_at s who true path 0 -> Q (RAMFS_LIST_ENOENT, 0, []) s) ->
  (forall a n, found_at s who true path a -> nodes s !! a = Some n -> permits who n RAMFS_FLAG_READ = false -> Q (RAMFS_LIST_EACCES, 0, []) s) ->
  (forall a l, listing who path max s a l -> Q (Z.of_nat (length l), a, l) s) -> wp (ramfs_list who path max) Q s.
Proof.
  intros H Hpath Hnone Hdeny Hyes. pose proof (fi_tree _ H) as Ht. unfold ramfs_list. apply wp_bind, find_ok; [done..|]. intros a Ha.
  destruct (Z.eqb_spec a 0) as [->|Ha0]; [by apply wp_ret, Hnone|]. destruct (found_live s H who path true a Ha Ha0) as (cs & n & _ & _ & _ & Hn).
  apply wp_bind, (permits_ok s Ht who a n); [done|]. destruct (permits who n RAMFS_FLAG_READ) eqn:Er; cbn [negb]; [|by apply wp_ret, (Hdeny a n)].
  apply wp_bind, (node_get_ok s Ht a n); [done|]. destruct (tr_kids _ _ Ht a n Hn) as (l0 & Hc & Hk & _).
  destruct (Z.eqb_spec (n_type n) RAMFS_TYPE_DIR) as [Et|Et].
  - apply wp_bind, (list_collect_ok s _ _ l0); [done|]. apply wp_ret, Hyes. constructor; [done..|]. exists n. split; [done|]. split; [done|].
    destruct (decide _); [|done]. by exists l0.
  - apply wp_bind, wp_ret, wp_ret, Hyes. constructor; [done..|]. exists n. split; [done|]. split; [done|]. by destruct (decide _).
Qed.
End RamfsCalls.
