(* ===== verification/RamfsProps.v ===== *)
(** The properties of the file system in memory. *)
From Stdlib Require Import ZArith Lia List Bool.
From stdpp Require Import base tactics numbers list gmap.
From S2P Require Import Prelude Pmm CString Ramfs RamfsInv RamfsOps RamfsFs RamfsData RamfsFiles RamfsView RamfsCalls.
Open Scope Z_scope.

Module RamfsProps.
Import Ramfs RamfsInv RamfsOps RamfsFs RamfsData RamfsFiles RamfsView RamfsCalls.

(** Mapping a page ends, and the frames in use stay in use. *)
Definition maps (map_page : Z -> M Pmm.pmm unit) : Prop := forall a m, Pmm.pmm_inv m -> wp (map_page a) (fun _ m' =>
  Pmm.pmm_inv m' /\ forall i, Pmm.is_frame i -> Pmm.used m i = true -> Pmm.used m' i = true) m.

(** * From boot *)

Definition no_fd : ramfs_fd := mk_fd 0 0 0 false false 0 0 0 0.
Definition boot (m : Pmm.pmm) : ramfs := mk_ramfs 0 (replicate (Z.to_nat RAMFS_MAX_FDS) no_fd) 0 ∅ ∅ m.

Definition root_node : ramfs_node := mk_node [47] RAMFS_TYPE_DIR 0 457 0 0 0 (replicate 16 0) 0 0 0.
Definition with_root (a : Z) (m : Pmm.pmm) : ramfs := mk_ramfs a (replicate 16 no_fd) 1 {[a := root_node]} ∅ m.

Lemma root_tree a : a <> 0 -> tree {[a := root_node]} a.
Proof.
  intros Ha. constructor.
  - by apply lookup_singleton_ne.
  - exists root_node. by rewrite lookup_singleton_eq.
  - intros b n [<- <-]%lookup_singleton_Some. exists []. split; [done|]. split; [|done]. split; [constructor|]. intros c. split.
    + intros Hc. by apply not_elem_of_nil in Hc.
    + intros (m & [<- <-]%lookup_singleton_Some & E). by simpl in E.
  - intros b n [<- <-]%lookup_singleton_Some. exists []. constructor.
  - intros b c n m [<- <-]%lookup_singleton_Some [<- <-]%lookup_singleton_Some. done.
  - intros b n [<- <-]%lookup_singleton_Some. done.
Qed.

Lemma root_inv a m : a <> 0 -> Pmm.pmm_inv m -> frame_at m a -> fs_inv (with_root a m).
Proof.
  intros Ha Hm Hf. assert (forall k p, ~ page_at root_node k p) as Hno by (intros k p [Hk Hp]; by apply lookup_replicate in Hk as [-> _]).
  constructor.
  - by apply root_tree.
  - simpl. rewrite map_size_singleton. split; [done|lia].
  - constructor; simpl; try done.
    + intros b n [<- <-]%lookup_singleton_Some. done.
    + intros b n k p [<- <-]%lookup_singleton_Some Hp. by destruct (Hno k p).
    + intros b c n k i j p [<- <-]%lookup_singleton_Some _ Hp. by destruct (Hno i p).
    + intros b n [<- <-]%lookup_singleton_Some k Hk. unfold RAMFS_PAGE_SIZE in Hk. simpl in Hk. lia.
  - intros b n off Hb _. cbn [nodes with_root] in Hb. apply lookup_singleton_Some in Hb as [<- <-]. unfold cell. by destruct (n_data_pages root_node !! _).
  - constructor; [done|]. intros i f Hi. cbn [file_descriptors with_root] in Hi. by apply lookup_replicate in Hi as [-> _].
  - constructor; simpl; try done. by intros b n [<- <-]%lookup_singleton_Some.
Qed.

Lemma ramfs_init_ok map_page m (Q : unit -> ramfs -> Prop) :
  maps map_page -> Pmm.pmm_inv m -> ~ full m ->
  (forall a m', a <> 0 -> fs_inv (with_root a m') -> Q tt (with_root a m')) -> wp (ramfs_init map_page) Q (boot m).
Proof.
  intros Hmap Hm Hfull HQ. unfold ramfs_init, alloc_node. apply wp_bind, wp_bind, wp_gets. cbn [total_nodes boot].
  change (RAMFS_MAX_FILES <=? 0) with false. cbv iota.
  assert (mem_inv (boot m)) as Hmem by (constructor; simpl; done). apply wp_bind, (new_frame_ok map_page Hmap); [done|done|].
  intros a s1 Ha _ _ (Er & Ef & En & Eg & Et) [Hp _ _ _] Hfr. destruct (Z.eqb_spec a 0); [done|].
  apply wp_bind, wp_modify, wp_bind, wp_modify, wp_ret, wp_bind, wp_modify. destruct (Z.eqb_spec a 0); [done|].
  apply wp_bind. eapply node_upd_at; [done|simpl; apply lookup_insert_eq|]. apply wp_modify.
  destruct s1 as [r1 f1 t1 h1 g1 m1]. simpl in *. subst. rewrite insert_insert_eq. by apply HQ, root_inv.
Qed.

(** * Histories *)

Inductive call :=
| Mkdir (path : option (list Z)) | Open (path : option (list Z)) (flags : Z) | Read (fd count : Z) | Write (fd : Z) (buf : list Z)
| Truncate (fd : Z) | Seek (fd offset : Z) | Tell (fd : Z) | Size (fd : Z) | Ref (fd : Z) | Close (fd : Z)
| Unlink (path : option (list Z)) | Rmdir (path : option (list Z)) | Rename (old_path new_path : option (list Z))
| List (path : option (list Z)) (max : Z) | Chmod (path : option (list Z)) (mode : Z) | Mkstemps (buf_size : Z) (bytes : list Z).

(** A call, the task that makes it, and the nodes that directory handles of the
    layer above keep busy at the time. *)
Record event := mk_event { ev_who : option task; ev_busy : Z -> bool; ev_call : call }.

Definition run_call (map_page : Z -> M Pmm.pmm unit) (e : event) : M ramfs Z :=
  let who := ev_who e in
  match ev_call e with
  | Mkdir path => ramfs_mkdir map_page who path
  | Open path flags => ramfs_open map_page who path flags
  | Read fd count => r <- ramfs_read fd count ;; ret (fst r)
  | Write fd buf => ramfs_write map_page fd buf
  | Truncate fd => ramfs_truncate fd
  | Seek fd offset => ramfs_seek fd offset
  | Tell fd => ramfs_tell fd
  | Size fd => ramfs_fd_size fd
  | Ref fd => ramfs_fd_ref fd
  | Close fd => ramfs_close fd ;;; ret 0
  | Unlink path => ramfs_unlink (ev_busy e) who path
  | Rmdir path => ramfs_rmdir (ev_busy e) who path
  | Rename old_path new_path => ramfs_rename who old_path new_path
  | List path max => r <- ramfs_list who path max ;; ret (fst (fst r))
  | Chmod path mode => ramfs_chmod who path mode
  | Mkstemps buf_size bytes => r <- ramfs_mkstemps map_page who buf_size bytes ;; ret (fst r)
  end.
Fixpoint run (map_page : Z -> M Pmm.pmm unit) (es : list event) : M ramfs (list Z) :=
  match es with [] => ret [] | e :: es' => r <- run_call map_page e ;; rs <- run map_page es' ;; ret (r :: rs) end.

(** Paths are strings, and the numbers of the type they have in the code. *)
Definition valid_event (e : event) : Prop :=
  match ev_call e with
  | Mkdir path | Open path _ | Unlink path | Rmdir path | List path _ | Chmod path _ => valid_path path
  | Rename old_path new_path => valid_path old_path /\ valid_path new_path
  | Read _ count => 0 <= count < 2 ^ 32
  | Seek _ offset => 0 <= offset
  | Mkstemps _ bytes => Forall (fun b => 0 <= b < 256) bytes /\ forall t, ev_who e = Some t -> CString.chars (t_private_tmp_dir t)
  | _ => True
  end.

Lemma run_call_inv map_page s e : maps map_page -> fs_inv s -> valid_event e -> wp (run_call map_page e) (fun _ s' => fs_inv s') s.
Proof.
  intros Hmap H He. destruct e as [who busy c]. unfold run_call, valid_event in *. cbn [ev_who ev_busy ev_call] in *.
  destruct c as [path|path flags|fd count|fd buf|fd|fd offset|fd|fd|fd|fd|path|path|op np|path max|path mode|size bytes].
  - apply (ramfs_mkdir_ok s H who path He map_page Hmap); [intros ? ? _ [Hi _]; done|].
    intros a s' Hc. by apply created_at_node in Hc as [Hi _].
  - apply (ramfs_open_ok map_page Hmap); [done..| |]; [done|]. intros ? ? ? ? ? Hop. apply (op_inv _ _ _ _ _ _ _ _ _ Hop).
  - apply wp_bind, ramfs_read_ok; [done..|]. intros Hi. by apply wp_ret.
  - by apply ramfs_write_total.
  - by apply ramfs_truncate_total.
  - apply ramfs_seek_ok; [done..|]. destruct (fd_at s fd); [|done]. auto.
  - apply wp_bind, open_fd_ok; [apply H|]. by apply wp_ret.
  - apply ramfs_fd_size_ok; [done|]. destruct (fd_at s fd); [|done]. auto.
  - apply ramfs_fd_ref_ok; [done|]. destruct (fd_at s fd); [|done]. destruct (_ <? _); auto.
  - apply wp_bind, ramfs_close_ok; [done|]. destruct (fd_at s fd); [|by apply wp_ret]. intros f' s' Hi. by apply wp_ret.
  - apply (ramfs_unlink_ok s H who path He); [done|]. intros s' Hr. apply Hr.
  - apply (ramfs_rmdir_ok s H who path He); [done|]. intros s' Hr. apply Hr.
  - destruct He as [Ho Hn]. apply ramfs_rename_ok; [done..|]. intros s' Hr. apply Hr.
  - apply wp_bind, ramfs_list_ok; [done..| | |]; intros; by apply wp_ret.
  - apply (ramfs_chmod_ok s H who path He); [done|]. done.
  - destruct He as [Hb Hd]. apply wp_bind, ramfs_mkstemps_ok; [done..| |].
    + intros r s' _ Hi. by apply wp_ret.
    + intros t fd s' s1 a n _ path Hop _. apply wp_ret. apply (op_inv _ _ _ _ _ _ _ _ _ Hop).
Qed.

Lemma run_inv map_page es : maps map_page -> Forall valid_event es ->
  forall s, fs_inv s -> wp (run map_page es) (fun rs s' => length rs = length es /\ fs_inv s') s.
Proof.
  intros Hmap Hes. induction Hes as [|e es He Hes IH]; intros s H; cbn [run]; [by apply wp_ret|].
  apply wp_bind. eapply wp_mono; [by apply run_call_inv|]. intros r s1 H1. apply wp_bind. eapply wp_mono; [by apply IH|].
  intros rs s2 [El H2]. apply wp_ret. simpl. by rewrite El.
Qed.

(** * Creating, as the users see it *)

Definition new_entry (who : option task) (type : Z) : entry :=
  let '(uid, gid) := ramfs_get_current_credentials who in
  mk_entry type (if type =? RAMFS_TYPE_DIR then RAMFS_DEFAULT_DIR_MODE else RAMFS_DEFAULT_FILE_MODE) uid gid [].

Lemma created_at_view s who path type s' a : fs_inv s -> created_at s who path type s' a ->
  may_create who s path /\ exists cs, components path = Some cs /\ view_added s s' cs (new_entry who type).
Proof.
  intros H Hc. unfold created_at, new_entry in *. destruct (ramfs_get_current_credentials who) as [uid gid].
  destruct Hc as (_ & init & x & p & pn & Ec & Hp & Hfree & Hcr). split; [by exists init, x, p, pn|].
  exists (init ++ [x]). split; [done|]. eapply added_view; [apply H|apply H|done|done|].
  apply (finds_path who true _ (root s) [] (root s)); [constructor|apply Hp].
Qed.

(** The path an open file is at. *)
Definition open_at (s : ramfs) (f : ramfs_fd) (path : list (list Z)) : Prop := below (nodes s) (root s) path (f_node f).

Lemma fd_at_moved s s2 fd f g : fs_inv s -> fd_at s fd = Some f -> f_in_use g = true ->
  fd_at (put_fds (<[Z.to_nat fd := g]> (file_descriptors s)) s2) fd = Some g.
Proof.
  intros H (Hfd & Hf & _)%fd_at_inv Hg. unfold fd_at. destruct (decide _); [|done]. simpl.
  rewrite list_lookup_insert_eq by (by eapply lookup_lt_Some). by rewrite Hg.
Qed.

(** * A file system for the examples *)

Definition path_f : list Z := [47; 102].
Definition path_g : list Z := [47; 103].
Definition path_d : list Z := [47; 100].
Definition no_map (a : Z) : M Pmm.pmm unit := ret tt.
Definition rw : Z := Z.lor RAMFS_FLAG_READ RAMFS_FLAG_WRITE.
Definition by_root (c : call) : event := mk_event None (fun _ => false) c.

(** The root makes the file "/f", writes three bytes to it, and the directory "/d". *)
Definition demo_calls : list event := map by_root [Open (Some path_f) rw; Write 0 [7; 8; 9]; Mkdir (Some path_d)].
Definition demo_run : result (list Z * ramfs) := (ramfs_init no_map ;;; run no_map demo_calls) (boot Pmm.eight_free).
Definition demo : ramfs := match demo_run with Ok (_, s) => s | Err _ => boot Pmm.eight_free end.

Lemma no_map_maps : maps no_map.
Proof. intros a m Hm. by apply wp_ret. Qed.

Lemma eight_free_room : ~ full Pmm.eight_free.
Proof. intros H. specialize (H 256). assert (Pmm.used Pmm.eight_free 256 = true) as E by (apply H; vm_compute; done). by vm_compute in E. Qed.

Lemma path_valid p : CString.chars p -> valid_path (Some p).
Proof. by intros Hp q [= <-]. Qed.
Lemma path_f_valid : valid_path (Some path_f).
Proof. apply path_valid. unfold path_f. repeat (apply Forall_cons_2; [lia|]). apply Forall_nil_2. Qed.
Lemma path_g_valid : valid_path (Some path_g).
Proof. apply path_valid. unfold path_g. repeat (apply Forall_cons_2; [lia|]). apply Forall_nil_2. Qed.
Lemma path_d_valid : valid_path (Some path_d).
Proof. apply path_valid. unfold path_d. repeat (apply Forall_cons_2; [lia|]). apply Forall_nil_2. Qed.

Lemma demo_valid : Forall valid_event demo_calls.
Proof. repeat (apply Forall_cons_2 || apply Forall_nil_2); [apply path_f_valid|done|apply path_d_valid]. Qed.

(** The result of a call. *)
Definition code {A} (x : result (A * ramfs)) : option A := match x with Ok (a, _) => Some a | Err _ => None end.
Lemma code_eq {A} (x : result (A * ramfs)) a b s : x = Ok (a, s) -> code x = Some b -> a = b.
Proof. intros -> [= ->]. done. Qed.

Lemma demo_ok : exists rs, demo_run = Ok (rs, demo).
Proof.
  assert (code demo_run = Some [0; 3; 0]) as E by (vm_compute; reflexivity). unfold demo.
  destruct demo_run as [[rs s]|]; [by exists rs|done].
Qed.

Lemma demo_inv : fs_inv demo.
Proof.
  destruct demo_ok as [rs E]. unfold demo_run in E.
  eapply (wp_result (ramfs_init no_map ;;; run no_map demo_calls) (fun _ s => fs_inv s)); [|exact E].
  apply wp_bind, ramfs_init_ok; [apply no_map_maps|apply Pmm.eight_free_inv|apply eight_free_room|]. intros a m Ha Hi.
  eapply wp_mono; [apply run_inv; [apply no_map_maps|apply demo_valid|done]|]. by intros rs' s [_ H].
Qed.
#[local] Opaque demo demo_run.

(** * Theorems *)

(** C4. Any number of tasks may create, open, read, write, truncate, share,
    close, remove, rename, list and chmod in any order, with any arguments: from
    boot on, as long as one frame is free for the root, every call returns.
    None follows a null pointer or a pointer to a node or page that was given
    back, none reads or writes outside of a page, and afterwards the nodes form
    a tree, no two files share a page, bytes behind the end of a file are zero,
    and every open file is still there. *)
Theorem ramfs_history_safe map_page m es :
  maps map_page -> Pmm.pmm_inv m -> ~ full m -> Forall valid_event es ->
  exists rs s', (ramfs_init map_page ;;; run map_page es) (boot m) = Ok (rs, s') /\ length rs = length es /\ fs_inv s'.
Proof.
  intros Hmap Hm Hroom Hes. apply wp_elim, wp_bind, ramfs_init_ok; [done..|]. intros a m' Ha Hi. by apply run_inv.
Qed.

Lemma ramfs_history_safe_witness :
  exists rs s', (ramfs_init no_map ;;; run no_map demo_calls) (boot Pmm.eight_free) = Ok (rs, s') /\ length rs = 3%nat /\ fs_inv s'.
Proof.
  exact (ramfs_history_safe no_map Pmm.eight_free demo_calls no_map_maps Pmm.eight_free_inv eight_free_room demo_valid).
Defined.

(** C13. A directory is created exactly where the caller may create one: the path
    without its last component leads, through directories the caller may search
    and past no name hidden from it, to a directory it may search and write,
    and the name is free.  Then one entry appears, empty, of mode 0700 and owned
    by the caller.  In every other case nothing changes, and the only reasons to
    refuse a caller that may create are 64 nodes in use and no free frame. *)
Theorem ramfs_mkdir_spec map_page s who path :
  maps map_page -> fs_inv s -> valid_path path ->
  exists r s', ramfs_mkdir map_page who path s = Ok (r, s') /\ fs_inv s' /\
    (r = 0 /\ may_create who s path /\ (exists cs, components path = Some cs /\ view_added s s' cs (new_entry who RAMFS_TYPE_DIR)) \/
     r < 0 /\ same_view s s' /\ (may_create who s path -> total_nodes s = RAMFS_MAX_FILES \/ full (frames s'))).
Proof.
  intros Hmap H Hp. apply wp_elim, (ramfs_mkdir_ok s H who path Hp map_page Hmap).
  - intros r s' Hr (Hi & Hs & Hfull). split; [done|]. right. split; [done|]. split; [by apply same_files_view|done].
  - intros a s' Hc. pose proof (created_at_node _ _ _ _ _ _ Hc) as [Hi _]. split; [done|]. left. split; [done|]. by apply (created_at_view s who path RAMFS_TYPE_DIR s' a).
Qed.

Lemma ramfs_mkdir_spec_witness :
  exists r s', ramfs_mkdir no_map None (Some path_g) demo = Ok (r, s') /\ r = 0 /\
    exists cs, components (Some path_g) = Some cs /\ view_added demo s' cs (new_entry None RAMFS_TYPE_DIR).
Proof.
  destruct (ramfs_mkdir_spec no_map demo None (Some path_g) no_map_maps demo_inv path_g_valid) as (r & s' & E & _ & Hcase).
  assert (r = 0) as -> by (apply (code_eq _ _ _ _ E); vm_compute; reflexivity). exists 0, s'. split; [exact E|]. split; [reflexivity|].
  destruct Hcase as [(_ & _ & Hv)|(Hr & _)]; [exact Hv|lia].
Defined.

(** The entry of a path is gone, and was of the type, unused, without entries of
    its own, and in a directory that the caller may write; or nothing happened. *)
Definition removes (busy : Z -> bool) (who : option task) (path : option (list Z)) (type : Z) (s : ramfs) (r : Z) (s' : ramfs) : Prop :=
  r = 0 /\ (exists cs a n pn, components path = Some cs /\ finds who true (nodes s) (root s) cs a /\ nodes s !! a = Some n /\ n_type n = type /\
    nodes s !! n_parent n = Some pn /\ permits who pn RAMFS_FLAG_WRITE = true /\ busy a = false /\ unused s a /\
    (forall l e, view s (cs ++ l) e -> l = []) /\ view_removed s s' cs) \/
  r < 0 /\ s' = s.

Lemma removal_removes s busy who path type s' : fs_inv s -> removal s who path busy type s' -> fs_inv s' /\ removes busy who path type s 0 s'.
Proof.
  intros H [Hi (cs & a & n & pn & Ec & Hf & Hb & Hn & Ht & Hch & Hpn & Hw & Hbusy & Hun & Hdel)]. split; [done|]. left. split; [done|].
  exists cs, a, n, pn. do 8 (split; [done|]). split; [|by apply (deleted_view s s' a n cs (fi_tree _ H) (fi_data _ H))].
  intros l e Hv. by apply (leaf_view s a n cs l e (fi_tree _ H)).
Qed.

(** C14. [ramfs_unlink] and [ramfs_rmdir] remove exactly the entry the path leads
    to, a file or an empty directory, in a directory the caller may write, and
    only if nobody has it open; its path disappears, and nothing else changes.
    In every other case nothing changes at all. *)
Theorem ramfs_remove_spec s busy who path :
  fs_inv s -> valid_path path ->
  (exists r s', ramfs_unlink busy who path s = Ok (r, s') /\ fs_inv s' /\ removes busy who path RAMFS_TYPE_FILE s r s') /\
  (exists r s', ramfs_rmdir busy who path s = Ok (r, s') /\ fs_inv s' /\ removes busy who path RAMFS_TYPE_DIR s r s').
Proof.
  intros H Hp. split; apply wp_elim; [apply (ramfs_unlink_ok s H who path Hp)|apply (ramfs_rmdir_ok s H who path Hp)].
  all: try (intros r Hr; split; [done|by right]). all: intros s' Hr; by apply removal_removes.
Qed.

Lemma ramfs_remove_spec_witness :
  exists s', ramfs_rmdir (fun _ => false) None (Some path_d) demo = Ok (0, s') /\ removes (fun _ => false) None (Some path_d) RAMFS_TYPE_DIR demo 0 s'.
Proof.
  destruct (ramfs_remove_spec demo (fun _ => false) None (Some path_d) demo_inv path_d_valid) as [_ (r & s' & E & _ & Hr)].
  assert (r = 0) as -> by (apply (code_eq _ _ _ _ E); vm_compute; reflexivity). exists s'. split; [exact E|exact Hr].
Defined.

(** C23. [ramfs_rename] gives an entry another free name in its own directory, if
    the caller finds it and may search and write the directory: the entry and
    all entries below it appear with the new name in their paths, and only they
    change.  In every other case nothing changes at all. *)
Theorem ramfs_rename_spec s who old_path new_path :
  fs_inv s -> valid_path old_path -> valid_path new_path ->
  exists r s', ramfs_rename who old_path new_path s = Ok (r, s') /\ fs_inv s' /\
    (r = 0 /\ (exists cs init x p pn a, components old_path = Some cs /\ components new_path = Some (init ++ [x]) /\
       finds who true (nodes s) (root s) cs a /\ parent_of who s init p pn /\ free_name s p x /\ view_renamed s s' cs x) \/
     r < 0 /\ s' = s).
Proof.
  intros H Ho Hn. apply wp_elim, ramfs_rename_ok; [done..|intros r Hr; split; [done|by right]|].
  intros s' [Hi (cs & init & x & a & n & pn & Eo & En & Hf & Hb & Ha & Har & Hp & Hfree & Hx & ->)]. split; [done|]. left. split; [done|].
  exists cs, init, x, (n_parent n), pn, a. do 5 (split; [done|]). by apply (renamed_view s a n x cs (fi_tree _ H)).
Qed.

Lemma ramfs_rename_spec_witness :
  exists s', ramfs_rename None (Some path_f) (Some path_g) demo = Ok (0, s') /\ view_renamed demo s' [[102]] [103].
Proof.
  destruct (ramfs_rename_spec demo None (Some path_f) (Some path_g) demo_inv path_f_valid path_g_valid) as (r & s' & E & _ & Hcase).
  assert (r = 0) as -> by (apply (code_eq _ _ _ _ E); vm_compute; reflexivity). exists s'. split; [exact E|].
  destruct Hcase as [(_ & cs & init & x & p & pn & a & Eo & En & _ & _ & _ & Hv)|[Hr _]]; [|lia].
  assert (components (Some path_f) = Some [[102]]) as E1 by (vm_compute; reflexivity).
  assert (components (Some path_g) = Some ([] ++ [[103]])) as E2 by (vm_compute; reflexivity).
  rewrite E1 in Eo. injection Eo as <-. rewrite E2 in En. apply Some_inj, app_inj_tail in En as [_ <-]. exact Hv.
Defined.

(** What opening does: it fails and leaves the descriptors, and at most a new
    empty file; or the descriptor was free, and now stands for the file at the
    path, which was there or is new, and which the caller may access that way. *)
Definition opens (who : option task) (path : option (list Z)) (flags : Z) (s : ramfs) (r : Z) (s' : ramfs) : Prop :=
  let new := exists cs, components path = Some cs /\ may_create who s path /\ view_added s s' cs (new_entry who RAMFS_TYPE_FILE) in
  r < 0 /\ file_descriptors s' = file_descriptors s /\ (same_view s s' \/ new) \/
  0 <= r < RAMFS_MAX_FDS /\ fd_at s r = None /\ within_limits who (file_descriptors s) /\
  exists a n, file_descriptors s' = <[Z.to_nat r := opened who a flags]> (file_descriptors s) /\
    nodes s' !! a = Some n /\ n_type n = RAMFS_TYPE_FILE /\ permits who n flags = true /\
    (same_view s s' /\ found_at s who true path a \/ has flags RAMFS_FLAG_WRITE = true /\ new).


(** An ordinary user, who may create nothing in the root directory. *)
Definition alice : task := mk_task 100 1 1000 1000 1000 [] path_d.


(** C24. Reading is a function of the contents: [ramfs_read] returns the next bytes
    of the file, as many as are asked for and are left, and moves the position
    behind them; at the end it returns 0, and on a descriptor that is closed or
    not open for reading an error.  The error for a missing page arises in one
    case only, a request for no bytes in front of the end. *)
Theorem ramfs_read_spec s fd count :
  fs_inv s -> 0 <= count < 2 ^ 32 -> ramfs_read fd count s = Ok (read_spec s fd count) /\ fs_inv (snd (read_spec s fd count)).
Proof.
  intros H Hc. assert (wp (ramfs_read fd count) (fun r s' => (r, s') = read_spec s fd count /\ fs_inv (snd (read_spec s fd count))) s) as Hwp.
  { apply ramfs_read_ok; [done..|]. intros Hi. split; [by destruct (read_spec s fd count)|done]. }
  destruct (wp_elim _ _ _ Hwp) as (r & s' & E & Hr & Hi). split; [by rewrite E, Hr|done].
Qed.

Lemma ramfs_read_spec_witness : ramfs_read 0 0 demo = Ok (read_spec demo 0 0) /\ fs_inv (snd (read_spec demo 0 0)).
Proof. apply (ramfs_read_spec demo 0 0 demo_inv). lia. Defined.

Definition with_content (c : list Z) (e : entry) : entry := mk_entry (e_type e) (e_mode e) (e_uid e) (e_gid e) c.

(** The file at the path of an open file has other contents, and the position of
    the descriptor is another; everything else is as before. *)
Definition rewrites (s : ramfs) (fd : Z) (f : ramfs_fd) (pos : Z) (g : list Z -> list Z) (s' : ramfs) : Prop :=
  file_descriptors s' = <[Z.to_nat fd := put_pos pos f]> (file_descriptors s) /\
  forall l e, open_at s f l -> view s l e -> view_updated s s' l (with_content (g (e_content e)) e).

Lemma updated_rewrites s s' fd pos f n n' g : fs_inv s -> nodes s !! f_node f = Some n ->
  updated_file s s' fd pos f n n' (g (content s n)) -> rewrites s fd f pos g s'.
Proof.
  intros H Hn Hu. split; [by destruct Hu as [(s2 & Ht & ->) _ _]|]. intros l e Hl (a & m & Ha & Hm & ->). unfold open_at in Hl.
  assert (a = f_node f) as -> by (eapply below_unique; [apply H|done|done]). assert (m = n) as -> by congruence.
  by eapply updated_file_view; [apply H|..].
Qed.

(** C7. [ramfs_write] overwrites the file from the position on, with zeros in a gap,
    and moves the position behind what it wrote: all of the buffer, unless the
    file reaches its 64 KiB or no frame is left.  At 64 KiB and on a descriptor
    that is closed or not open for writing it changes nothing.
    [ramfs_truncate] empties the file. *)
Theorem ramfs_write_spec map_page s fd buf :
  maps map_page -> fs_inv s ->
  (exists r s', ramfs_write map_page fd buf s = Ok (r, s') /\ fs_inv s' /\
    match fd_at s fd with
    | None => r = -1 /\ s' = s
    | Some f =>
        if negb (has (f_flags f) RAMFS_FLAG_WRITE) then r = -2 /\ s' = s else
        if RAMFS_MAX_DATA <=? f_pos f then r = (if 0 <? Z.of_nat (length buf) then RAMFS_WRITE_EFBIG else 0) /\ s' = s else
        exists k, r = Z.of_nat k /\ (k <= length buf)%nat /\
          (k = length buf \/ f_pos f + Z.of_nat k = RAMFS_MAX_DATA \/ full (frames s')) /\
          rewrites s fd f (f_pos f + Z.of_nat k) (fun c => overwrite c (Z.to_nat (f_pos f)) (take k buf)) s'
    end) /\
  (exists r s', ramfs_truncate fd s = Ok (r, s') /\ fs_inv s' /\
    match fd_at s fd with
    | None => r = -1 /\ s' = s
    | Some f => if negb (has (f_flags f) RAMFS_FLAG_WRITE) then r = -13 /\ s' = s else r = 0 /\ rewrites s fd f 0 (fun _ => []) s'
    end).
Proof.
  intros Hmap H. split; apply wp_elim.
  - apply ramfs_write_total; [done..|]. intros r s' Hi Hw. split; [done|].
    destruct Hw as [E|f E Ew|f E Ew Epos|f n n' k s' E Ew Hlt Hn Hk Hend Hu Hall]; rewrite E; [done|by rewrite Ew|..]; rewrite Ew; cbn [negb].
    + rewrite Epos. by destruct (Z.leb_spec RAMFS_MAX_DATA RAMFS_MAX_DATA); [|lia].
    + destruct (Z.leb_spec RAMFS_MAX_DATA (f_pos f)); [lia|]. exists k. split; [done|]. split; [done|]. split; [done|]. by eapply updated_rewrites.
  - apply ramfs_truncate_total; [done..|]. intros r s' Hi Hw. split; [done|].
    destruct Hw as [E|f E Ew|f n n' s' E Ew Hn Hu]; rewrite E; [done|by rewrite Ew|]. rewrite Ew. cbn [negb]. split; [done|].
    by apply (updated_rewrites s s' fd 0 f n n' (fun _ => []) H).
Qed.

Lemma ramfs_write_spec_witness :
  exists s', ramfs_write no_map 0 [1; 2] demo = Ok (2, s') /\
    exists f, fd_at demo 0 = Some f /\ rewrites demo 0 f 5 (fun c => overwrite c 3 [1; 2]) s'.
Proof.
  destruct (ramfs_write_spec no_map demo 0 [1; 2] no_map_maps demo_inv) as [(r & s' & E & _ & Hw) _].
  assert (r = 2) as -> by (apply (code_eq _ _ _ _ E); vm_compute; reflexivity). exists s'. split; [exact E|].
  assert (exists f, fd_at demo 0 = Some f /\ has (f_flags f) RAMFS_FLAG_WRITE = true /\ f_pos f = 3) as (f & Ef & Ew & Ep)
    by (eexists; vm_compute; split; [reflexivity|]; split; reflexivity).
  exists f. split; [exact Ef|]. rewrite Ef, Ew, Ep in Hw. cbn [negb] in Hw. change (RAMFS_MAX_DATA <=? 3) with false in Hw.
  destruct Hw as (k & Ek & _ & _ & Hk). assert (k = 2%nat) as -> by lia. exact Hk.
Defined.

(** C25. What was written is read back: after a write that stored [k] bytes, at
    least one unless no frame is left, seeking to where it began and reading
    [k] bytes returns exactly them. *)
Theorem ramfs_write_read_roundtrip map_page s fd f buf :
  maps map_page -> fs_inv s -> fd_at s fd = Some f -> has (f_flags f) RAMFS_FLAG_READ = true -> has (f_flags f) RAMFS_FLAG_WRITE = true ->
  f_pos f < RAMFS_MAX_DATA -> buf <> [] ->
  exists k s1, ramfs_write map_page fd buf s = Ok (Z.of_nat k, s1) /\ (k = 0%nat -> full (frames s1)) /\
    ((0 < k)%nat -> exists s2 s3, ramfs_seek fd (f_pos f) s1 = Ok (f_pos f, s2) /\ ramfs_read fd (Z.of_nat k) s2 = Ok ((Z.of_nat k, take k buf), s3)).
Proof.
  intros Hmap H Ef Er Ew Hlt Hbuf. assert (wp (ramfs_write map_page fd buf) (fun r s1 => exists k, r = Z.of_nat k /\ (k = 0%nat -> full (frames s1)) /\
    ((0 < k)%nat -> exists s2 s3, ramfs_seek fd (f_pos f) s1 = Ok (f_pos f, s2) /\ ramfs_read fd (Z.of_nat k) s2 = Ok ((Z.of_nat k, take k buf), s3))) s) as Hwp.
  2: { destruct (wp_elim _ _ _ Hwp) as (r & s1 & E & k & -> & Hk). by exists k, s1. }
  apply (ramfs_write_ok map_page Hmap s fd f); try done. intros n n' k s1 Hn Hk Hend Hi Hu Hall. exists k. split; [done|]. split.
  { destruct Hall as [Hk'|[?|?]]; [destruct buf; simpl in *; [done|lia]|lia|done]. }
  intros Hpos. destruct (fd_good_at s fd f H Ef) as (n0 & _ & _ & Hp0 & _). destruct Hu as [(s2 & Ht & E1) _ Hc].
  destruct (fd_at_inv _ _ _ Ef) as (_ & _ & Eu). assert (fd_at s1 fd = Some (put_pos (f_pos f + Z.of_nat k) f)) as Ef1 by (rewrite E1; by apply (fd_at_moved s _ fd f)).
  assert (nodes s1 !! f_node f = Some n') as Hn1 by (rewrite E1; exact (touched_at _ _ _ _ _ Ht)). destruct (di_shape _ (fi_data _ Hi) _ _ Hn1) as [_ Hsz].
  assert (length (take k buf) = k) as Hlk by (rewrite length_take; lia).
  assert (f_pos f + Z.of_nat k <= n_size n') as Hsize.
  { pose proof (f_equal length Hc) as El. rewrite file_content_length, file_overwrite_length, Hlk in El by lia. lia. }
  set (f1 := put_pos (f_pos f + Z.of_nat k) f) in *. assert (wp (ramfs_seek fd (f_pos f)) (fun r s' => r = f_pos f /\ s' = moved s1 fd (f_pos f) f1 /\ fs_inv s') s1) as Hseek.
  { apply ramfs_seek_ok; [done|lia|]. rewrite Ef1. intros m Hm. change (f_node f1) with (f_node f) in Hm. assert (m = n') as -> by congruence.
    replace (Z.min (f_pos f) (n_size n')) with (f_pos f) by lia. done. }
  destruct (wp_elim _ _ _ Hseek) as (r & s' & Eseek & -> & -> & Hi2). exists (moved s1 fd (f_pos f) f1).
  assert (fd_at (moved s1 fd (f_pos f) f1) fd = Some (put_pos (f_pos f) f1)) as Ef2 by (by apply (fd_at_moved s1 _ fd f1)).
  assert (fst (read_spec (moved s1 fd (f_pos f) f1) fd (Z.of_nat k)) = (Z.of_nat k, take k buf)) as Espec.
  { assert (file_content (moved s1 fd (f_pos f) f1) (f_node f) = overwrite (content s n) (Z.to_nat (f_pos f)) (take k buf)) as Efc.
    { unfold file_content. change (nodes (moved s1 fd (f_pos f) f1)) with (nodes s1). rewrite Hn1. exact Hc. }
    unfold read_spec. rewrite Ef2. cbn [f_flags f_pos f_node put_pos f1]. rewrite Er, Efc, overwrite_drop, Nat2Z.id, take_app_length', Hlk by done. cbn [negb].
    destruct (decide _) as [E|_]; [apply (f_equal length) in E; rewrite length_app, Hlk in E; simpl in E; lia|].
    destruct (Z.eqb_spec (Z.of_nat k) 0); [lia|done]. }
  assert (wp (ramfs_read fd (Z.of_nat k)) (fun r _ => r = (Z.of_nat k, take k buf)) (moved s1 fd (f_pos f) f1)) as Hread.
  { apply ramfs_read_ok; [done|unfold RAMFS_MAX_DATA, RAMFS_MAX_PAGES, RAMFS_PAGE_SIZE in *; lia|]. by rewrite Espec. }
  destruct (wp_elim _ _ _ Hread) as (r & s3 & E & ->). by exists s3.
Qed.

Lemma demo_fd : exists f, fd_at demo 0 = Some f /\ has (f_flags f) RAMFS_FLAG_READ = true /\ has (f_flags f) RAMFS_FLAG_WRITE = true /\ f_pos f = 3.
Proof. eexists. vm_compute. do 3 (split; [reflexivity|]). reflexivity. Qed.

Lemma ramfs_write_read_roundtrip_witness :
  exists f k s1, fd_at demo 0 = Some f /\ ramfs_write no_map 0 [1; 2] demo = Ok (Z.of_nat k, s1) /\
    ((0 < k)%nat -> exists s2 s3, ramfs_seek 0 (f_pos f) s1 = Ok (f_pos f, s2) /\ ramfs_read 0 (Z.of_nat k) s2 = Ok ((Z.of_nat k, take k [1; 2]), s3)).
Proof.
  destruct demo_fd as (f & Ef & Er & Ew & Ep).
  destruct (ramfs_write_read_roundtrip no_map demo 0 f [1; 2] no_map_maps demo_inv Ef Er Ew) as (k & s1 & E & _ & Hk); [rewrite Ep; done|done|].
  exists f, k, s1. split; [exact Ef|]. split; [exact E|exact Hk].
Defined.

(** * The lock and [ramfs_open] *)

(** The node that was located is the one at the path. *)
Lemma located_below s who path flags s1 a : fs_inv s -> located who path flags s s1 a ->
  fs_inv s1 /\ exists cs, components path = Some cs /\ below (nodes s1) (root s1) cs a.
Proof.
  intros H [b Hb0 Hb|b s' Hb _].
  - split; [done|]. destruct (found_live s H who path true b Hb Hb0) as (cs & n & Ec & _ & Hbel & _). by exists cs.
  - destruct (created_at_node _ _ _ _ _ _ Hb) as (Hi & _). split; [done|]. unfold created_at in Hb. destruct (ramfs_get_current_credentials who) as [uid gid].
    destruct Hb as (_ & init & x & p & pn & Ec & [Hf Hp _ _ _] & Hfree & Hcr). exists (init ++ [x]). split; [done|].
    rewrite (cr_root _ _ _ _ _ _ Hcr), (cr_nodes _ _ _ _ _ _ Hcr). set (n := new_node x _ uid gid p _). change (init ++ [x]) with (init ++ [n_name n]).
    apply (below_child _ _ init p b n); [|by apply added_new; apply Hcr|done].
    apply (added_below_old (nodes s) (root s) p b pn n); [apply Hcr..|]. apply (finds_path who true _ (root s) [] (root s)); [constructor|done].
Qed.

(** C37. The lock is released between the two parts of [ramfs_open].  If another task
    removes the file there, which nobody has open yet, the node that was located
    is gone, and the second part, which examines it and stores it in a
    descriptor, works on memory that was given back. *)
Theorem ramfs_open_race map_page s who other busy path flags a s1 s2 :
  maps map_page -> fs_inv s -> valid_path path ->
  open_locate map_page who path flags s = Ok (inr a, s1) -> ramfs_unlink busy other path s1 = Ok (0, s2) ->
  nodes s2 !! a = None /\ open_claim who a flags s2 = Err OutOfBounds.
Proof.
  intros Hmap H Hp Hloc Hun. assert (located who path flags s s1 a) as Hl.
  { assert (wp (open_locate map_page who path flags) (fun r s' => forall b, r = inr b -> located who path flags s s' b) s) as Hwp.
    { apply (open_locate_ok s H who path Hp map_page Hmap).
      - done.
      - intros b Hb0 Hb c [= <-]. by apply located_old.
      - intros b s' Hb Hw c [= <-]. by apply located_new. }
    by apply (wp_result _ _ _ _ _ Hwp Hloc). }
  destruct (located_below s who path flags s1 a H Hl) as (H1 & cs & Ec & Hb).
  assert (nodes s2 !! a = None) as Hgone.
  { assert (wp (ramfs_unlink busy other path) (fun r s' => r = 0 -> nodes s' !! a = None) s1) as Hwp.
    { apply (ramfs_unlink_ok s1 H1 other path Hp); [lia|]. intros s' [_ (cs' & b & n & pn & Ec' & _ & Hb' & _ & _ & _ & _ & _ & _ & _ & Hdel)] _.
      rewrite Ec in Ec'. injection Ec' as <-. assert (b = a) as -> by (eapply below_unique; [apply H1|done|done]).
      apply (rm_gone _ _ _ _ (de_nodes _ _ _ _ Hdel)). }
    by apply (wp_result _ _ _ _ _ Hwp Hun). }
  destruct (below_live _ _ _ _ (fi_tree _ H1) Hb) as [n Hn]. pose proof (live_nonzero s1 (fi_tree _ H1) a n Hn) as Ha0.
  split; [done|]. unfold open_claim. destruct (ramfs_get_current_credentials who). unfold bind, node_get. destruct (Z.eqb_spec a 0); [done|]. by rewrite Hgone.
Qed.

(** "/f" is closed. *)
Definition idle : ramfs := match ramfs_close 0 demo with Ok (_, s) => s | Err _ => demo end.
Lemma idle_inv : fs_inv idle.
Proof.
  unfold idle. assert (wp (ramfs_close 0) (fun _ s => fs_inv s) demo) as Hwp.
  { apply ramfs_close_ok; [apply demo_inv|]. destruct (fd_at demo 0); [auto|apply demo_inv]. }
  destruct (wp_elim _ _ _ Hwp) as (r & s & E & Hi). by rewrite E.
Qed.
#[local] Opaque idle.

Definition task_of_root (pid : Z) : task := mk_task pid 1 0 0 0 [] path_d.

Lemma ramfs_open_race_witness :
  exists a s1 s2, open_locate no_map (Some (task_of_root 101)) (Some path_f) RAMFS_FLAG_READ idle = Ok (inr a, s1) /\
    ramfs_unlink (fun _ => false) (Some (task_of_root 102)) (Some path_f) s1 = Ok (0, s2) /\
    open_claim (Some (task_of_root 101)) a RAMFS_FLAG_READ s2 = Err OutOfBounds.
Proof.
  assert (code ((r <- open_locate no_map (Some (task_of_root 101)) (Some path_f) RAMFS_FLAG_READ ;;
    u <- ramfs_unlink (fun _ => false) (Some (task_of_root 102)) (Some path_f) ;; ret (match r with inl _ => false | inr _ => u =? 0 end)) idle) = Some true)
    as E by (vm_compute; reflexivity).
  unfold bind in E. destruct (open_locate _ _ _ _ _) as [[r s1]|] eqn:E1; [|discriminate E].
  destruct (ramfs_unlink _ _ _ _) as [[u s2]|] eqn:E2; [|discriminate E]. destruct r as [e|a]; [discriminate E|].
  assert (u = 0) as -> by (injection E as E; lia). exists a, s1, s2. split; [reflexivity|]. split; [exact E2|].
  apply (ramfs_open_race no_map idle (Some (task_of_root 101)) (Some (task_of_root 102)) (fun _ => false) (Some path_f) RAMFS_FLAG_READ a s1 s2
    no_map_maps idle_inv path_f_valid E1 E2).
Defined.
End RamfsProps.
